(* ===== verification/_CoqProject ===== *)
-Q . S2P
Prelude.v
GoLib.v
FleetNames.v
FleetTypes.v
FleetAuthority.v
FleetLog.v
FleetBudget.v
FleetDeliver.v
FleetTimer.v
FleetTurn.v
FleetExpedite.v
FleetCheck.v
FleetLifecycle.v
FleetCons.v
FleetMail.v
FleetAccounts.v
FleetOrg.v
FleetOrgOps.v
FleetSteps.v
FleetFacts.v
FleetTheorems.v
FleetTimeTheorems.v
GoFloat.v
GoJson.v
GoStruct.v
WireRequests.v
WireResponses.v
WireTypes.v
Wire.v
Frames.v
WireTheorems.v
PlanBand.v
PlanThrottle.v
PlanTheorems.v
Resolve.v
ResolveIntel.v
ResolveFacts.v
ResolveTheorems.v
PlanRead.v
PlanQuery.v
PlanQueryTheorems.v
SeatPlacement.v
SeatPlacementTheorems.v
PlanMonitor.v
PlanMonitorTheorems.v
PlanCache.v
PlanCacheTheorems.v
TurnWait.v
TurnWaitTheorems.v
Requests.v
RequestsTheorems.v
Escalation.v
RegistryTypes.v
Registry.v
RegistryWorld.v
RegistryTheorems.v
RegistryTree.v
Control.v
RegistryHost.v
ControlTheorems.v
UsageFacts.v
UsageFactsTheorems.v
PlanPoll.v
ControlLink.v
Ephemeral.v
TranscriptRewind.v
SeatClaims.v
SeatClaimsTheorems.v
Grants.v
GrantsFacts.v
GrantsLog.v
GrantsTime.v
GrantsTheorems.v
SeatResume.v
SeatResumeTheorems.v
Goal.v
GoalTheorems.v
BrokerServer.v
BrokerServerTheorems.v
BrokerClient.v
