(* ===== verification/Prelude.v ===== *)
(** * Claudia: a model of its core in Rocq

    Claudia is a Go library and a daemon that run sessions of coding agents
    ("seats"): it starts them on a provider's program, keeps them across
    restarts, chooses their provider and model by what is left of the owner's
    plans, and lets agents of a fleet work for one another. This development
    models the parts that decide something. All paths are under [src/].

    ** The parts and how they interact

    - The fleet kernel ([fleet*.go]): agents that start agents, send messages,
      run turns under budgets and checks, and answer each request.
    - Plan usage ([plan_usage*.go], [plan_band.go]): asking a vendor what is left
      of a plan, how often that may be asked, and what a reading says.
    - Resolution ([resolve.go], [catalog.go], [model_intel_slug.go]): choosing
      a provider and a model from the catalog by plan usage and by scores.
    - Placement ([seat_placement.go], [seat_policy.go]): whether a seat stays with
      its provider, and where it goes.
    - Turns ([turn_latch.go], [turn_wait.go], [request_correlation.go],
      [delivery.go], [escalation.go], [agent.go]): sending text to an agent, pressing
      a busy one, which request a turn answers, and waiting for an answer that may
      have been given already.
    - Transcripts ([rewind.go]): rolling one back by turns, and undoing that.
    - The registry of seats ([registry*.go]): definitions, processes and the
      operations that start, stop, switch and remove them.
    - The control plane ([controlplane/]): tables replicated over a link between a
      consumer, which owns desired seats and operations, and the daemon, which
      owns grants, status, outcomes, usage and plans; reconciliation drives the registry.

    - The daemon ([daemon/]): it lends seats to connections by name, carries their
      events to whoever holds them, keeps what nobody heard, and after a restart
      brings back the seats that are still wanted.
    - The broker ([internal/broker/], [broker_client.go]): the messages a client and
      the daemon exchange, each a line of JSON on a socket; at one end connections,
      the sessions they own, and the subscribers that hear what becomes of them; at
      the other the calls that wait for their responses.

    Resolution reads plan usage, placement resolves a destination; a registry
    definition carries what resolution chose; reconciliation calls the registry
    through the interface [SeatHost], whose laws the registry discharges; the
    daemon's grants hold the registry and the ledger of claims, and call both; a fleet's agents are seats of the
    registry, which the kernel sees as calls whose results are arguments.

    ** Files

    Shared: [Prelude] (below), [GoLib] (strings, UTF-8, time, binary64,
    slices), [GoFloat] (the order of float64, [sort.SliceStable]),
    [GoJson] (JSON values), [GoStruct] ([encoding/json] on structs).

    Fleet kernel. One [Fleet] record is one fleet's part of the kernel's state.
    - [FleetNames], [FleetTypes]: names, identifiers, records and texts of all
      the [fleet*.go] files, and the grant names of [daemon/fleet.go].
    - [FleetAuthority]: [authorized], [fleetDescends], [fleet_tools.go].
    - [FleetLog]: [fleet_log.go].
    - [FleetBudget]: [fleet_budget.go]. [FleetDeliver]: [deliverLocked] and
      [fleet_expect.go]. [FleetTimer]: [fleet_timer.go]. [FleetTurn]: the run
      loop of [fleet.go]. [FleetExpedite]: [Expedite] of [fleet_expect.go].
      [FleetCheck]: [fleet_check.go]. [FleetLifecycle]: start, revival, stop,
      retirement, opening and closing in [fleet.go].
    - Invariants: [FleetCons], [FleetMail] and [FleetAccounts] (requests),
      [FleetOrg] and [FleetOrgOps] (the organisation), [FleetSteps] (the step relation and
      reachability), [FleetFacts].
    - Properties: [FleetTheorems], [FleetTimeTheorems]; their witnesses run a fleet
      of [FleetFacts].

    Plan usage: [PlanBand] ([plan_band.go], [plan_usage_model.go]),
    [PlanThrottle] ([plan_usage_throttle.go]), [PlanRead] (the four vendors'
    [plan_usage_*.go] and the recorder), [PlanQuery] ([QueryPlanUsage],
    [QueryAllPlanUsage], [plan_usage_raw_store.go]); [PlanTheorems],
    [PlanQueryTheorems]. [PlanMonitor] ([plan_usage_monitor.go]) and
    [PlanCache] ([plan_cache.go]): sharing one fetch in a process and on a host;
    [PlanMonitorTheorems], [PlanCacheTheorems]. [PlanPoll]
    ([plan_usage_observation.go], [controlplane/plan_usage.go], and the test seams
    [plan_usage_fixture.go] and [plan_usage_override.go]): the daemon's own polls,
    stored in its control file, with their theorems.

    Resolution: [Resolve] ([resolve.go] and the catalog), [ResolveIntel] (the
    path by scores and [Resolve] itself), [ResolveFacts]; [ResolveTheorems].

    Placement: [SeatPlacement]; [SeatPlacementTheorems].

    Turns: [TurnWait] ([turn_latch.go], [turn_text.go], [turn_wait.go],
    [WaitForResponse] of [agent.go]); [TurnWaitTheorems]. [Requests]
    ([request_correlation.go], [delivery.go], [turn_caps.go] and the send of
    [agent.go]); [RequestsTheorems]. [Escalation] ([escalation.go]) holds its own
    theorem.

    Transcripts: [TranscriptRewind] ([rewind.go], and where [agent.go] says a
    transcript is), with its theorem.

    Registry: [RegistryTypes] and [Registry] ([registry.go],
    [registry_lifecycle.go], [registry_switch.go], [registry_seats.go]),
    [RegistryWorld] (concurrent calls as a step relation, and its invariant),
    [RegistryTheorems], [RegistryTree].

    Control plane: [Control] ([controlplane/desired.go], [reconcile.go],
    ownership in [replicate.go]), [RegistryHost] (the registry as an instance
    of [SeatHost]), [ControlTheorems]. [UsageFacts] ([omp/usage.go],
    [omp/usage_transition.go], validation in [omp/receipt.go] and
    [omp/generations.go], [usage_facts.go], counting in [publishEvent], and the
    tables of usage facts and receipts in [replicate.go]); [UsageFactsTheorems].
    [ControlLink] ([link.go], [replica.go], [query_subscription.go], the links and
    the closing in [observe.go], [control_observe.go]), with its theorems.

    Daemon: [Ephemeral] ([ephemeral_seat.go]), [SeatClaims] ([daemon/claims.go],
    [daemon/consumer_intent.go], the readers of [consumer_intent.go] and
    [policy_hold.go], and the choice in [resumeSeats]); [SeatClaimsTheorems].
    [Grants] (ownership and events in [daemon/daemon.go] and [daemon/fleet.go], a
    step relation); [GrantsFacts] (who holds what), [GrantsLog] (where events are),
    [GrantsTime] (timers and stops); [GrantsTheorems]. [SeatResume] (events of
    seats, the watch and [ResumeAll] of [registry_seats.go]);
    [SeatResumeTheorems]. [Goal] ([goal.go] and the daemon's part of it);
    [GoalTheorems].

    Broker: [WireRequests] and [WireResponses] (the bodies of [wire*.go] and of
    [omp/]), [WireTypes] (names and refusals), [Wire] (validation, parsing and
    encoding), [Frames] ([transport.go]); [WireTheorems]. [BrokerServer]
    ([internal/broker/server.go]); [BrokerServerTheorems]. [BrokerClient]
    ([broker_client.go]) holds its own theorems.

    ** How state and operations correspond

    A Go struct is a [Record] with the source's field names (a prefix keeps
    them apart), a map a [gmap], a pointer that may be nil an [option], a slice
    a list, or an option of one where nil and empty differ. A Go string is a
    byte string; runes are cut from it by the rules of UTF-8. An int64 is a
    [Z] with its wrap-around where the source can reach it. A float64 is
    [spec_float] at binary64 precision with each operation rounded on its own.

    A function that holds a mutex from entry to exit is one Definition from
    state to state. A function that releases the mutex is cut there, and its
    pieces are the steps that goroutines interleave: [FleetSteps.fleet_step]
    for a fleet, [RegistryWorld] for calls on a registry, [PlanMonitor] for
    refreshes, [PlanCache] for the file operations of several processes,
    [Grants.step] for the daemon, [SeatResume.resume_step] for the seats of a
    restart, [Goal.goal_exec] for an agent's goal, [Escalation.ladder_exec] for the
    ladders of a seat, [PlanPoll.poll_exec] for the daemon's polls and its deaths,
    [ControlLink.link_exec] for the links a daemon serves, [ControlLink.replica_exec]
    for a consumer's replica, [ControlLink.owner_exec] for the closing of the owner's
    file, [BrokerServer.server_exec] for the broker and [BrokerClient.client_exec] for
    one connection to it. What an outside party gave between two pieces (a provider's
    process, the output of a check, a clock, a random identifier, whether a write
    succeeded) is an argument of the piece that uses it. An error is an alternative of a sum, a
    panic [None].

    ** What the theorems show

    - Fleets: every request is answered exactly once, whatever the order of
      operations, deaths and restarts from a state that was saved, and a retired
      agent leaves no name behind. A [FleetSteps.world] says which runs a theorem is
      about: [saved_restarts], [any_restart], or [orderly] ones, where also a launch
      that failed had started nobody and the scores of checks are finite. A restart from a state that
      was not saved can lose a request ([a_lost_save_loses_the_request]).
      Creation links form a tree under the owner; authority and tools follow it,
      and without authority an operation changes nothing, an interrupt of a steered
      message included. Budgets cover whole
      subtrees and bound turns; limits hold. Readers of the log miss nothing; a
      torn write loses only itself; a restart loses nothing that was saved. An
      interrupt stays in its turn. Repeats, expectations and names are lemmas.
    - Turns: a turn keeps the request it answers; a late wait for a turn hears what
      an early one hears, and where not. A ladder presses its seat in order and on
      time, once for each rung, and stops when it is told while it waits.
    - Transcripts: a rewind cuts at a prompt as many turns as were asked for, can be
      undone, and never leaves the whole transcript nowhere.
    - Plan usage: readings are well formed whatever a vendor answers; only
      published numbers rule a plan out; requests are spaced and refusals back off;
      a reading is carried as it was; the processes of a host, and the callers in
      a process, share one fetch at a time, and no lock or waiter is lost. The
      daemon's requests to a vendor keep their distance across its deaths, and a
      reading is published only while the latest request gave one.
    - Resolution and placement: a pick is eligible, exists whenever a candidate
      does, and ranks best; what the path by scores guarantees, and what it does
      not; a seat moves only when its plan is spent, and only where it may.
    - Registry and control plane: operations on one seat take turns; a seat that
      has hosted a conversation keeps it; the tree walk ends exactly without
      cycles; a reconciliation without an error has reached the desired state, in which a seat
      is stopped exactly when an open stop operation asks for it.
    - Usage facts: each call is counted once whatever is replayed; a refresh of a handle
      that knows the journal up to its cursor, and keeps its session, catches up and
      ends, and one of a handle that had a usage error fails; the table of facts is the
      journal, whatever order it came in; settling leaves no request started, and each
      receipt it cancels says why and is later than it was.
    - Links: workers take turns in the slot of the one consumer and none waits for the
      other end of the one before it ([a_new_link_gets_its_turn]); a connection is refused
      exactly when another known process that lives has the latest link; a frame is read as
      it was written ([a_frame_is_read_back]); closing a replica leaves nothing open,
      and closes and sends on no channel twice.
    - Daemon: an owned seat is its owner's alone; no event of a seat is lost or
      reordered but where a bound says so; an orphan timer stops only what nobody
      took back; a stop ends; a restart resumes exactly the wanted seats, so many
      at a time, tells of each once but of those it skipped, spaces its nudges and ends;
      each death of a seat is reported, and when again. An agent that does no work is
      not kept going, and the timers a goal forgot still fire. The runs beside these theorems show where the code does less than its
      comments say.
    - Broker: a line is read whole or refused and skipped; what is written is read, as
      validation leaves it; what is accepted keeps what validation promises, and a refusal says what is
      wrong. A session is its connection's and goes with it; a tail is the log
      without a gap until its queue fills, and then it is closed. A call is told of
      the response of its id, or why there is none; it is out of its context's reach
      while it is being written, and none is left behind by a client that has ended.

    ** Parameters

    Code that is not the program's is a parameter. Classes: [GoFormat] (local
    times, shortest floats), [MathLog] ([math.Log]), [Unicode] (case and
    letters past ASCII), [ThrottleFormat] and [CostFormat] (renderings), [Scan] (times and numbers in texts),
    [Json] (parsing), [JsonText] (the texts of JSON values, with the laws of a round
    trip in [JsonTextLaws]), [FloatText], [Base64] and [TimeText] (numbers, bytes and
    times in JSON), [Rfc3339Nano] with [Rfc3339NanoLaws] (times in the texts of facts
    and receipts). Arguments: the JSON codec of the log with the laws of a
    round trip, SHA-256 and [strconv.ParseFloat] (checks), [math/rand/v2],
    whether a database statement runs ([exec]), whether the registry's file
    saves ([save_ok]), random identifiers ([uuid]), the provider's calls.

    ** Fuel and bounds

    - [trim_left], [trim_right], [runes_from], [scanFleetLog]: the length of the
      input; each round consumes at least one byte.
    - [descends_loop] is the source's own bounded loop; [links_end_at_the_owner] shows its bound, one
      more than the number of agents, decides descent.
    - [climb] (of [IsAncestor]): two more than the number of definitions; the
      seen set grows each round, so it never runs out.
    - [walk] (of [Descendants]): [None] means the fuel ran out. With one more
      than the number of definitions it runs out exactly when the source's
      recursion does not end.

    - [read_line] (of [ReadLine]): one more than the bytes there are; a round that
      does not end the line takes a full buffer.
    - [RefreshUsage]: one more page than the journal has facts, since a page that
      says there is more has a fact; [a_refresh_catches_up] shows it is enough.

    ** What differs from the code's letter

    - The texts of errors are left out of the broker's refusals. An element of a
      slice is decoded from its zero value even where a member of the same name
      came before.
    - The ids that sqlpipe gives to live queries are taken to differ.
    - [sort.SliceStable] and [sort.Float64s] are insertion sort, the same
      function whenever the order is a strict weak order, which the orders used
      are on numbers.
    - Go may fuse [x*y + z] on arm64; [percentileSorted] is modelled without.
    - [int] is 64 bits wide.
    - [%q] of a name is the name in quotes, without the escapes of unusual
      characters.
    - A request for usage is one round trip: a redirect is not followed.
    - A range over a map takes its order as an argument; the nested ranges of
      [Descendants] all take the same one.
    - A reservation's record is found by its name: the code keeps the record in
      its table until its last user leaves.
    - A process's liveness is read in the stretch that uses it.
    - [attach_seat]'s missing [before] callback is its default.
    - A wait's settle timer fires before whatever comes after it is due; when
      several arms of its select are ready at once the answer is taken first, as
      each arm does.
    - The cache's calls read the wall clock ([Now] is for tests).

    ** Not modelled, and why

    A fleet's log lines are always written (its saves may fail). Programs and services outside: provider processes and their wires
    ([agent.go] but for sends and waits, [omp_agent.go], [codex_*.go],
    [cursor_*.go], [grok_*.go]), MCP hosting ([mcp_*.go]), headless tasks ([task.go], [judge.go]), the readers
    that collect model data ([model_intel_*.go] past what resolution reads),
    which keys of a raw payload no parser reads, the database engine and
    peers ([sync.go], what [runLink] does with its peer), the daemon's tokens
    ([plan_usage_broker.go]), the rewind of a running seat ([registry_rewind.go],
    which asks the daemon or refuses), printing and flags ([cmd/]), repository guards
    and test helpers ([internal/]), pooled seats (the daemon refuses them all), the
    terminal stream, the TypeScript, shell, Python and TLA+ of
    [sidecar/], [scripts/], [supervisor/] and [specs/]. Log lines, metrics and
    read-only views are left out of the functions that are modelled; the
    scanning of columns into structs is the identity. *)

(** * Prelude: notation, automation and generic lemmas

    What every component file shares: record update, case analysis tactics,
    the hint databases, sums over finite maps, counting in lists, runs of step
    functions, and the
    parts of Go's [strings], [strconv] and [time] the source uses. *)

From Stdlib Require Export ZArith Lia.
From stdpp Require Export base tactics list gmap strings pretty numbers.
From stdpp Require Import fin_maps.

Declare Scope claudia_scope.
Delimit Scope claudia_scope with claudia.
Open Scope claudia_scope.

(* ------------------------------------------------------------------ *)
(** ** Record update

    [Eta R] rebuilds a record from its fields. A [Setter] for a field is then
    found by abstracting that field in the rebuilt record. *)

Class Eta (R : Type) := eta : R -> R.

Class Setter {R E : Type} (get : R -> E) := upd : (E -> E) -> R -> R.
Arguments upd {R E} get {_} _ _ : assert.

Ltac setter_of inst :=
  match goal with
  | |- @Setter ?R ?E ?get =>
    let f := fresh "f" in
    let r := fresh "r" in
    intros f r;
    let whole := eval unfold inst in (inst r) in
    match eval pattern (get r) in whole with
    | ?ctx _ => let body := eval cbv beta in (ctx (f (get r))) in exact body
    end
  end.

Notation "r <| get := v |>" := (upd get (fun _ => v) r)
  (at level 1, left associativity, get at level 1, v at level 200,
   format "r  <| get  :=  v |>") : claudia_scope.
Notation "r <| get ::= f |>" := (upd get f r)
  (at level 1, left associativity, get at level 1, f at level 200,
   format "r  <| get  ::=  f |>") : claudia_scope.

(* ------------------------------------------------------------------ *)
(** ** Case analysis *)

(** Split every [match] and [if] of the goal, closing the easy branches. *)
Ltac split_all := repeat (case_match || case_decide); simplify_eq/=.

(** Split conjunctions of hypotheses and of the goal, then try [tac]. *)
Ltac split_hyps :=
  repeat match goal with
  | H : _ /\ _ |- _ => destruct H
  | H : ex _ |- _ => destruct H
  end.

Create HintDb claudia.
#[export] Hint Extern 2 (_ = _) => lia : claudia.

(* ------------------------------------------------------------------ *)
(** ** Counting in lists *)

Definition count {A} (p : A -> bool) (l : list A) : nat :=
  length (List.filter p l).
Arguments count : simpl never.

Section Count.
Context {A : Type} (p : A -> bool).
Implicit Types l : list A.

Lemma count_nil : count p [] = 0.
Proof. reflexivity. Qed.

Lemma count_cons x l : count p (x :: l) = (if p x then 1 else 0) + count p l.
Proof. unfold count; cbn. by destruct (p x). Qed.

Lemma count_app l1 l2 : count p (l1 ++ l2) = count p l1 + count p l2.
Proof. unfold count. by rewrite List.filter_app, length_app. Qed.

Lemma count_one x : count p [x] = if p x then 1 else 0.
Proof. unfold count; cbn. by destruct (p x). Qed.

Lemma count_zero l : (forall x, x ∈ l -> p x = false) -> count p l = 0.
Proof.
  induction l as [|x l IH]; intros H; [done|].
  rewrite count_cons, (H x), IH; [done| |by left]. intros y Hy. apply H. by right.
Qed.

Lemma count_pos l : 0 < count p l <-> exists x, x ∈ l /\ p x = true.
Proof.
  induction l as [|x l IH].
  - rewrite count_nil. split; [lia|]. intros (y & Hy & _). by apply elem_of_nil in Hy.
  - rewrite count_cons. destruct (p x) eqn:E.
    + split; [intros _; exists x; split; [left|done] | lia].
    + rewrite Nat.add_0_l, IH. split.
      * intros (y & Hy & Hp). exists y. split; [by right|done].
      * intros (y & [->|Hy]%elem_of_cons & Hp); [congruence|eauto].
Qed.

Lemma count_in l x : x ∈ l -> p x = true -> 0 < count p l.
Proof. intros. apply count_pos. eauto. Qed.
End Count.

Lemma count_ext {A} (p q : A -> bool) l :
  (forall x, x ∈ l -> p x = q x) -> count p l = count q l.
Proof.
  induction l as [|x l IH]; intros H; [done|].
  rewrite !count_cons, (H x), IH; [done| |by left]. intros y Hy. apply H. by right.
Qed.

Lemma count_map {A B} (f : A -> B) (p : B -> bool) l :
  count p (f <$> l) = count (fun x => p (f x)) l.
Proof.
  induction l as [|x l IH]; [done|].
  rewrite fmap_cons, !count_cons, IH. done.
Qed.

Lemma count_delete_middle {A} (p : A -> bool) (l : list A) i x :
  l !! i = Some x ->
  count p l = (if p x then 1 else 0) + count p (delete i l).
Proof.
  intros H. rewrite (delete_take_drop l i), <-(take_drop_middle l i x H) at 1.
  rewrite !count_app, count_cons. lia.
Qed.

#[export] Hint Rewrite @count_nil @count_cons @count_app @count_one : counts.

(* ------------------------------------------------------------------ *)
(** ** Runs of a machine *)

Section Runs.
Context {S W : Type} (exec : S -> W -> option W).

Fixpoint run_steps (steps : list S) (w : W) : option W :=
  match steps with [] => Some w | s :: steps => exec s w ≫= run_steps steps end.

(** What every step keeps holds at the end. *)
Lemma run_steps_keep (P : W -> Prop) steps w w' :
  (forall s v v', P v -> exec s v = Some v' -> P v') -> P w -> run_steps steps w = Some w' -> P w'.
Proof.
  intros K. revert w. induction steps as [|s steps IH]; intros w Hw; cbn; [by intros [= <-]|].
  destruct (exec s w) as [v|] eqn:E; [|done]. cbn. apply IH. by apply (K s w).
Qed.
End Runs.

(* ------------------------------------------------------------------ *)
(** ** Sums over finite maps keyed by strings *)

Definition map_sum {A} (f : A -> nat) (m : gmap string A) : nat :=
  map_fold (fun _ a n => f a + n) 0 m.

Section MapSum.
Context {A : Type}.
Implicit Types (f : A -> nat) (m : gmap string A).

Lemma map_sum_empty f : map_sum f ∅ = 0.
Proof. apply map_fold_empty. Qed.

Lemma map_sum_insert_new f m k a :
  m !! k = None -> map_sum f (<[k:=a]> m) = f a + map_sum f m.
Proof.
  intros H. unfold map_sum. rewrite map_fold_insert_L; [done|lia|done].
Qed.

Lemma map_sum_delete f m k a :
  m !! k = Some a -> map_sum f m = f a + map_sum f (delete k m).
Proof.
  intros H. rewrite <-(insert_delete_id m k a H) at 1.
  apply map_sum_insert_new, lookup_delete_eq.
Qed.

Lemma map_sum_insert_old f m k a b :
  m !! k = Some a -> map_sum f (<[k:=b]> m) + f a = map_sum f m + f b.
Proof.
  intros H. rewrite (map_sum_delete f m k a H).
  rewrite <-(insert_delete_eq m k b), map_sum_insert_new by apply lookup_delete_eq.
  lia.
Qed.

Lemma map_sum_insert_same f m k a b :
  m !! k = Some a -> f a = f b -> map_sum f (<[k:=b]> m) = map_sum f m.
Proof. intros H E. pose proof (map_sum_insert_old f m k a b H). lia. Qed.

Lemma map_sum_pos f m :
  0 < map_sum f m <-> exists k a, m !! k = Some a /\ 0 < f a.
Proof.
  induction m as [|k a m Hk IH] using map_ind.
  - rewrite map_sum_empty. split; [lia|]. intros (k & a & H & _). by simplify_map_eq.
  - rewrite map_sum_insert_new by done. split.
    + intros H. destruct (f a) eqn:E.
      * destruct (proj1 IH) as (k' & a' & H' & Hp); [lia|].
        exists k', a'. split; [|done]. rewrite lookup_insert_ne; congruence.
      * exists k, a. rewrite lookup_insert_eq. split; [done|lia].
    + intros (k' & a' & H' & Hp).
      destruct (decide (k = k')) as [->|Hne]; simplify_map_eq; [lia|].
      assert (0 < map_sum f m) by (apply IH; eauto). lia.
Qed.

Lemma map_sum_lookup_le f m k a : m !! k = Some a -> f a <= map_sum f m.
Proof. intros H. rewrite (map_sum_delete f m k a H). lia. Qed.
End MapSum.

Lemma map_sum_fmap {A B} (f : B -> nat) (g : A -> B) (m : gmap string A) :
  map_sum f (g <$> m) = map_sum (fun a => f (g a)) m.
Proof.
  induction m as [|k a m Hk IH] using map_ind.
  - by rewrite fmap_empty, !map_sum_empty.
  - rewrite fmap_insert, !map_sum_insert_new; [lia|done|].
    by rewrite lookup_fmap, Hk.
Qed.

Lemma map_sum_ext {A} (f g : A -> nat) (m : gmap string A) :
  (forall k a, m !! k = Some a -> f a = g a) -> map_sum f m = map_sum g m.
Proof.
  induction m as [|k a m Hk IH] using map_ind; intros H; [by rewrite !map_sum_empty|].
  rewrite !map_sum_insert_new by done. rewrite (H k a) by apply lookup_insert_eq.
  f_equal. apply IH. intros k' a' H'. apply (H k'). rewrite lookup_insert_ne; congruence.
Qed.

(* ------------------------------------------------------------------ *)
(** ** Filters and defaults of lists *)

Lemma filter_iff {A} (p : A -> bool) l x : x ∈ List.filter p l <-> x ∈ l /\ p x = true.
Proof. rewrite !list_elem_of_In. apply List.filter_In. Qed.

Lemma filter_nil {A} (p : A -> bool) l : List.filter p l = [] -> forall x, x ∈ l -> p x = false.
Proof.
  intros E x Hx. destruct (p x) eqn:Hp; [|done]. exfalso.
  assert (x ∈ List.filter p l) as H by (by apply filter_iff). rewrite E in H. set_solver.
Qed.

Lemma filter_perm {A} (f : A -> bool) l l' : l ≡ₚ l' -> List.filter f l ≡ₚ List.filter f l'.
Proof.
  induction 1 as [|x l l' E IH|x y l|l1 l2 l3 E1 IH1 E2 IH2]; cbn; [done| | |by etrans].
  - by destruct (f x); [constructor|].
  - destruct (f x), (f y); try done. constructor.
Qed.

(** The first list that is not empty. *)
Definition or_else {A} (l k : list A) : list A := match l with [] => k | _ => l end.

Lemma or_else_perm {A} (l l' k k' : list A) : l ≡ₚ l' -> k ≡ₚ k' -> or_else l k ≡ₚ or_else l' k'.
Proof.
  destruct l as [|a l], l' as [|b l']; intros E Ek; try done.
  - by apply Permutation_nil_l in E.
  - by apply Permutation_nil_r in E.
Qed.

(** ** One element of a list changed *)

Lemma alter_lookup {A} i f (l : list A) j y : alter f i l !! j = Some y ->
  (j = i /\ exists x, l !! i = Some x /\ y = f x) \/ (j <> i /\ l !! j = Some y).
Proof.
  destruct (decide (j = i)) as [->|N].
  - rewrite list_lookup_alter_eq. destruct (l !! i) as [x|]; [|done]. intros [= <-]. left. eauto.
  - rewrite list_lookup_alter_ne by done. auto.
Qed.

Lemma alter_all {A} (P : nat -> A -> Prop) (l : list A) i f :
  (forall j y, l !! j = Some y -> j <> i -> P j y) -> (forall x, l !! i = Some x -> P i (f x)) ->
  forall j y, alter f i l !! j = Some y -> P j y.
Proof. intros O T j y [[-> (x & X & ->)]|[N Y]]%alter_lookup; [by apply T|by apply O]. Qed.

Lemma sum_alter {A} (g : A -> nat) f i (l : list A) x : l !! i = Some x ->
  sum_list_with g (alter f i l) + g x = sum_list_with g l + g (f x).
Proof.
  revert i. induction l as [|y l IH]; intros [|i] L; [done..| |]; cbn in *.
  - injection L as ->. lia.
  - specialize (IH i L). change (list_alter f i l) with (alter f i l). lia.
Qed.
