(* ===== verification/GoLib.v ===== *)
(** * GoLib: what the source uses of Go and its standard library

    Strings as byte strings ([strings], [strconv]), times and durations
    ([time]), IEEE binary64 arithmetic ([float64]), slices ([slices]) and the
    identifiers the fleet kernel makes with [fmt.Sprintf]. *)

From S2P Require Import Prelude.
From Stdlib Require Import SpecFloat Ascii.

(* ------------------------------------------------------------------ *)
(** ** Strings *)

Notation len s := (String.length s).

Definition has_prefix (s p : string) : bool := String.prefix p s.

Definition drop_bytes (n : nat) (s : string) : string :=
  String.substring n (len s - n) s.
Definition take_bytes (n : nat) (s : string) : string := String.substring 0 n s.

Definition has_suffix (s x : string) : bool :=
  (len x <=? len s)%nat && String.eqb (drop_bytes (len s - len x) s) x.

(** [unicode.IsSpace] as the UTF-8 encodings of its runes. *)
Definition byte (n : nat) : ascii := ascii_of_nat n.
Definition bytes (l : list nat) : string := String.string_of_list_ascii (byte <$> l).
Definition space_runes : list string :=
  (bytes <$> [[9]; [10]; [11]; [12]; [13]; [32]; [194; 133]; [194; 160]; [225; 154; 128];
              [226; 128; 168]; [226; 128; 169]; [226; 128; 175]; [226; 129; 159]; [227; 128; 128]])
  ++ ((fun k => bytes [226; 128; 128 + k]) <$> seq 0 11).

Fixpoint trim_left (fuel : nat) (s : string) : string :=
  match fuel with
  | O => s
  | S fuel' =>
    match List.find (has_prefix s) space_runes with
    | Some w => trim_left fuel' (drop_bytes (len w) s)
    | None => s
    end
  end.

Fixpoint trim_right (fuel : nat) (s : string) : string :=
  match fuel with
  | O => s
  | S fuel' =>
    match List.find (has_suffix s) space_runes with
    | Some w => trim_right fuel' (take_bytes (len s - len w) s)
    | None => s
    end
  end.

(** [strings.TrimSpace]: every pass removes at least a byte. *)
Definition TrimSpace (s : string) : string :=
  let l := trim_left (S (len s)) s in trim_right (S (len l)) l.

(** [strings.Join]. *)
Fixpoint Join (l : list string) (sep : string) : string :=
  match l with
  | [] => ""
  | [x] => x
  | x :: l' => x +:+ sep +:+ Join l' sep
  end.

Definition nl : string := bytes [10].

(** [strings.Split] on a single byte. *)
Fixpoint split_byte (c : ascii) (s : string) : list string :=
  match s with
  | EmptyString => [""]
  | String a s' =>
    if Ascii.eqb a c then "" :: split_byte c s'
    else match split_byte c s' with
         | w :: ws => String a w :: ws
         | [] => [String a ""]
         end
  end.

(** [strings.Contains]. *)
Fixpoint Contains (s sub : string) : bool :=
  has_prefix s sub || match s with EmptyString => false | String _ s' => Contains s' sub end.

(** ** Runes: strings as UTF-8 *)

Definition between (lo hi n : nat) : bool := ((lo <=? n) && (n <=? hi))%nat.

(** How many bytes the rune at the head of the bytes takes, by
    [utf8.DecodeRune]; none of them when the encoding is not valid. *)
Definition rune_len (l : list nat) : option nat :=
  let tail := between 128 191 in
  match l with
  | a :: l1 =>
    if (a <? 128)%nat then Some 1%nat
    else
      match l1 with
      | b :: l2 =>
        if between 194 223 a && tail b then Some 2%nat
        else
          let second := if decide (a = 224) then between 160 191 b
                        else if decide (a = 237) then between 128 159 b
                        else if decide (a = 240) then between 144 191 b
                        else if decide (a = 244) then between 128 143 b else tail b in
          match l2 with
          | c :: l3 =>
            if between 224 239 a && second && tail c then Some 3%nat
            else match l3 with
                 | d :: _ => if between 240 244 a && second && tail c && tail d then Some 4%nat else None
                 | [] => None
                 end
          | [] => None
          end
      | [] => None
      end
  | [] => None
  end.

(** [utf8.RuneError], encoded. *)
Definition rune_error : string := bytes [239; 191; 189].

(** A string's runes, each encoded; a byte that starts none is [rune_error].
    Every rune takes at least a byte. *)
Fixpoint runes_from (fuel : nat) (s : string) : list string :=
  match fuel, s with
  | S fuel', String _ _ =>
    match rune_len (nat_of_ascii <$> String.list_ascii_of_string s) with
    | Some n => take_bytes n s :: runes_from fuel' (drop_bytes n s)
    | None => rune_error :: runes_from fuel' (drop_bytes 1 s)
    end
  | _, _ => []
  end.
Definition runes (s : string) : list string := runes_from (len s) s.

(** The tables of package [unicode] for runes past ASCII, encoded: the lower
    case of one, and whether it is a letter or a digit. *)
Class Unicode := { unicode_lower : string -> string; unicode_alnum : string -> bool }.

Definition lower_byte (a : ascii) : ascii :=
  if between 65 90 (nat_of_ascii a) then byte (nat_of_ascii a + 32) else a.

Definition lower_rune `{Unicode} (r : string) : string :=
  match r with String a EmptyString => String (lower_byte a) "" | _ => unicode_lower r end.

(** [strings.ToLower]. *)
Definition ToLower `{Unicode} (s : string) : string := Join (lower_rune <$> runes s) "".

(** [strings.EqualFold] with a string of ASCII letters other than [k] and [s],
    which no rune past ASCII folds to. *)
Fixpoint ascii_lower (s : string) : string :=
  match s with
  | EmptyString => ""
  | String a s' => String (lower_byte a) (ascii_lower s')
  end.
Definition EqualFold_ascii (s t : string) : bool := String.eqb (ascii_lower s) (ascii_lower t).

(** [strings.FieldsFunc] for separators that are single bytes; [word] is the
    field being read. *)
Fixpoint fields_from (sep : ascii -> bool) (s word : string) : list string :=
  let done := if decide (word = "") then [] else [word] in
  match s with
  | EmptyString => done
  | String a s' =>
    if sep a then done ++ fields_from sep s' ""
    else fields_from sep s' (word +:+ String a "")
  end.
Definition FieldsFunc (sep : ascii -> bool) (s : string) : list string := fields_from sep s "".

(** Decimal rendering, [%d]. *)
Definition itoa (z : Z) : string := pretty z.
Definition utoa (n : N) : string := pretty n.

(** [slices.Contains] on strings, [slices.Index] on a predicate. *)
Definition contains (l : list string) (x : string) : bool := bool_decide (x ∈ l).

Fixpoint index {A} (p : A -> bool) (l : list A) : option nat :=
  match l with
  | [] => None
  | x :: l' => if p x then Some 0 else S <$> index p l'
  end.

Lemma index_Some {A} (p : A -> bool) l i :
  index p l = Some i -> exists x, l !! i = Some x /\ p x = true.
Proof.
  revert i. induction l as [|x l IH]; intros i; [done|]. cbn.
  destruct (p x) eqn:E; [intros [= <-]; eauto|].
  destruct (index p l) as [j|]; [|done]. intros [= <-]. cbn. eauto.
Qed.

Lemma index_None {A} (p : A -> bool) l :
  index p l = None -> forall x, x ∈ l -> p x = false.
Proof.
  induction l as [|y l IH]; cbn; [set_solver|].
  destruct (p y) eqn:E; [done|]. destruct (index p l); [done|].
  intros _ x [->|Hx]%elem_of_cons; [done|]. by apply IH.
Qed.

Lemma contains_spec l x : contains l x = true <-> x ∈ l.
Proof. apply bool_decide_eq_true. Qed.

(* ------------------------------------------------------------------ *)
(** ** Times and durations

    A [time.Time] is its offset in nanoseconds from Go's zero time; a
    [time.Duration] is a signed 64-bit count of nanoseconds. *)

Abbreviation Time := Z (only parsing).
Abbreviation Duration := Z (only parsing).

Definition max_int64 : Z := 2 ^ 63 - 1.
Definition min_int64 : Z := - 2 ^ 63.

Definition Second : Duration := 1000000000.
Definition Minute : Duration := 60 * Second.
Definition Hour : Duration := 60 * Minute.

Definition IsZero (t : Time) : bool := Z.eqb t 0.
Definition Before (t u : Time) : bool := Z.ltb t u.
Definition Add (t : Time) (d : Duration) : Time := (t + d)%Z.

(** [Time.Sub] saturates at the ends of the int64 range. *)
Definition Sub (t u : Time) : Duration := Z.max min_int64 (Z.min max_int64 (t - u)).

Lemma Sub_range t u : (min_int64 <= Sub t u <= max_int64)%Z.
Proof. unfold Sub, min_int64, max_int64. lia. Qed.

(* ------------------------------------------------------------------ *)
(** ** IEEE binary64 *)

Abbreviation float64 := spec_float (only parsing).

Module F.
Definition add : float64 -> float64 -> float64 := SFadd 53 1024.
Definition sub : float64 -> float64 -> float64 := SFsub 53 1024.
Definition mul : float64 -> float64 -> float64 := SFmul 53 1024.
Definition div : float64 -> float64 -> float64 := SFdiv 53 1024.
Definition of_Z (z : Z) : float64 := binary_normalize 53 1024 z 0 false.
(** A decimal constant [n/d], correctly rounded. *)
Definition q (n d : Z) : float64 := div (of_Z n) (of_Z d).
Definition zero : float64 := S754_zero false.
Definition inf : float64 := S754_infinity false.
Definition ltb (x y : float64) : bool := SFltb x y.
Definition leb (x y : float64) : bool := SFleb x y.
Definition eqb (x y : float64) : bool := SFeqb x y.
Definition is_nan (x : float64) : bool :=
  match x with S754_nan => true | _ => false end.
(** Conversion to int64 truncates; out of range it is the value amd64 gives. *)
Definition to_int64 (x : float64) : Z :=
  match x with
  | S754_zero _ => 0
  | S754_finite s m e =>
    let a := Z.shiftl (Zpos m) e in
    let v := if s then (- a)%Z else a in
    if (min_int64 <=? v)%Z && (v <=? max_int64)%Z then v else min_int64
  | _ => min_int64
  end.
End F.

(** [time.Duration.Seconds]: whole seconds, then the fraction. *)
Definition duration_seconds (d : Duration) : float64 :=
  F.add (F.of_Z (Z.quot d Second)) (F.div (F.of_Z (Z.rem d Second)) (F.of_Z Second)).

(** [time.Duration(seconds * float64(time.Second))]. *)
Definition seconds_to_duration (s : float64) : Duration :=
  F.to_int64 (F.mul s (F.of_Z Second)).

(* ------------------------------------------------------------------ *)
(** ** Machine integers *)

(** The [int64] with the same 64 bits. *)
Definition wrap64 (z : Z) : Z := ((z + 2 ^ 63) mod 2 ^ 64 - 2 ^ 63)%Z.

Lemma wrap64_mod z : (wrap64 z mod 2 ^ 64 = z mod 2 ^ 64)%Z.
Proof. unfold wrap64. rewrite Zminus_mod_idemp_l. f_equal. lia. Qed.
Lemma wrap64_eq a b : (a mod 2 ^ 64 = b mod 2 ^ 64)%Z -> wrap64 a = wrap64 b.
Proof. intros E. unfold wrap64. rewrite <- (Zplus_mod_idemp_l a), <- (Zplus_mod_idemp_l b). by rewrite E. Qed.
Lemma wrap64_inj a b : (0 <= a < 2 ^ 64)%Z -> (0 <= b < 2 ^ 64)%Z -> wrap64 a = wrap64 b -> a = b.
Proof.
  intros A B E. pose proof (wrap64_mod a) as Ma. rewrite E, wrap64_mod in Ma.
  by rewrite (Z.mod_small a), (Z.mod_small b) in Ma by done.
Qed.
Lemma wrap64_small z : (- 2 ^ 63 <= z < 2 ^ 63)%Z -> wrap64 z = z.
Proof. intros B. unfold wrap64. rewrite Z.mod_small; lia. Qed.
Lemma wrap64_add_l a b : wrap64 (wrap64 a + b) = wrap64 (a + b).
Proof.
  apply wrap64_eq. rewrite <- Zplus_mod_idemp_l, wrap64_mod. apply Zplus_mod_idemp_l.
Qed.

(* ------------------------------------------------------------------ *)
(** ** Cutting strings *)

Lemma substring_all s : String.substring 0 (len s) s = s.
Proof. induction s as [|a s IH]; cbn; [done|]. by rewrite IH. Qed.

Lemma take_bytes_app s t : take_bytes (len s) (s +:+ t) = s.
Proof.
  unfold take_bytes. induction s as [|a s IH]; [by destruct t|].
  change (String a s +:+ t) with (String a (s +:+ t)). cbn. by rewrite IH.
Qed.

Lemma len_app s t : len (s +:+ t) = (len s + len t)%nat.
Proof.
  induction s as [|a s IH]; [done|].
  change (String a s +:+ t) with (String a (s +:+ t)). cbn. by rewrite IH.
Qed.

Lemma drop_bytes_app s t : drop_bytes (len s) (s +:+ t) = t.
Proof.
  unfold drop_bytes. rewrite len_app.
  replace (len s + len t - len s)%nat with (len t) by lia.
  induction s as [|a s IH]; [apply substring_all|].
  change (String a s +:+ t) with (String a (s +:+ t)). cbn. apply IH.
Qed.

Lemma has_prefix_app p s : has_prefix (p +:+ s) p = true.
Proof.
  unfold has_prefix. induction p as [|a p IH]; [by destruct s|].
  change (String a p +:+ s) with (String a (p +:+ s)). cbn.
  destruct (ascii_dec a a); [exact IH|done].
Qed.

Lemma take_drop_bytes n s : (n <= len s)%nat -> take_bytes n s +:+ drop_bytes n s = s.
Proof.
  unfold take_bytes, drop_bytes. revert n. induction s as [|a s IH]; intros [|n] Hn; cbn in Hn |- *.
  - done.
  - lia.
  - change ("" +:+ String a (String.substring 0 (len s) s) = String a s).
    rewrite substring_all. done.
  - change (String a (String.substring 0 n s +:+ String.substring n (len s - n) s) = String a s).
    f_equal. apply IH. lia.
Qed.

Lemma len_take_bytes n s : (n <= len s)%nat -> len (take_bytes n s) = n.
Proof.
  unfold take_bytes. revert n. induction s as [|a s IH]; intros [|n] Hn; cbn in Hn |- *; try lia; try done.
  f_equal. apply IH. lia.
Qed.

Lemma len_drop_bytes n s : (n <= len s)%nat -> len (drop_bytes n s) = (len s - n)%nat.
Proof.
  intros Hn. pose proof (f_equal (fun x => len x) (take_drop_bytes n s Hn)) as E. cbn beta in E.
  rewrite len_app, len_take_bytes in E by done. lia.
Qed.

Lemma take_bytes_le n s t : (n <= len s)%nat -> take_bytes n (s +:+ t) = take_bytes n s.
Proof.
  unfold take_bytes. revert n. induction s as [|a s IH]; intros n Hn.
  - cbn in Hn. assert (n = 0)%nat as -> by lia. by destruct t.
  - change (String a s +:+ t) with (String a (s +:+ t)). destruct n as [|n]; [done|].
    cbn in Hn |- *. f_equal. apply IH. lia.
Qed.

Lemma drop_bytes_past n s t : (len s <= n)%nat -> drop_bytes n (s +:+ t) = drop_bytes (n - len s) t.
Proof.
  unfold drop_bytes. rewrite len_app. revert n. induction s as [|a s IH]; intros n Hn.
  - cbn. f_equal; lia.
  - change (String a s +:+ t) with (String a (s +:+ t)). destruct n as [|n]; [cbn in Hn; lia|].
    cbn in Hn |- *. rewrite <-IH by lia. done.
Qed.

Lemma take_bytes_past n s t : (len s <= n)%nat -> take_bytes n (s +:+ t) = s +:+ take_bytes (n - len s) t.
Proof.
  unfold take_bytes. revert n. induction s as [|a s IH]; intros n Hn; [by rewrite Nat.sub_0_r|].
  change (String a s +:+ t) with (String a (s +:+ t)). destruct n as [|n]; [cbn in Hn; lia|]. cbn in Hn |- *.
  change (String a s +:+ String.substring 0 (n - len s) t) with (String a (s +:+ String.substring 0 (n - len s) t)). f_equal. apply IH. lia.
Qed.

Lemma str_app_assoc s1 s2 s3 : s1 +:+ (s2 +:+ s3) = (s1 +:+ s2) +:+ s3.
Proof.
  induction s1 as [|a s IH]; [done|]. change (String a s +:+ (s2 +:+ s3)) with (String a (s +:+ (s2 +:+ s3))). by rewrite IH.
Qed.

Lemma drop_bytes_le n s t : (n <= len s)%nat -> drop_bytes n (s +:+ t) = drop_bytes n s +:+ t.
Proof.
  intros Hn. rewrite <-(take_drop_bytes n s Hn) at 1.
  rewrite <-(len_take_bytes n s Hn) at 1. rewrite <-str_app_assoc. apply drop_bytes_app.
Qed.
