(* ===== verification/FleetNames.v ===== *)
(** * FleetNames: fleet and agent names, and the identifiers the kernel mints

    Models the name rules of [fleet.go] and [fleet_budget.go], the grant names
    of [daemon/fleet.go], and the ["r%d"], ["t%d"], ["b%d"], ["c%d"] and
    ["t%d.%d"] identifiers. The lemmas say when two of them can be equal. *)

From S2P Require Import Prelude GoLib.
From Stdlib Require Import Ascii.

(** ** The name grammar *)

Definition is_digit (a : ascii) : bool :=
  (48 <=? nat_of_ascii a)%nat && (nat_of_ascii a <=? 57)%nat.
Definition is_lower (a : ascii) : bool :=
  (97 <=? nat_of_ascii a)%nat && (nat_of_ascii a <=? 122)%nat.
Definition is_alnum (a : ascii) : bool := is_digit a || is_lower a.
Definition hyphen : ascii := byte 45.

(** [^[a-z0-9]+(-[a-z0-9]+)*$]: [fresh] means a segment has just begun, so a
    letter or digit must come next. *)
Fixpoint segments (fresh : bool) (s : string) : bool :=
  match s with
  | EmptyString => negb fresh
  | String a s' =>
    if is_alnum a then segments false s'
    else if Ascii.eqb a hyphen then negb fresh && segments true s'
    else false
  end.

Definition fleetMaxName : nat := 48.
Definition fleetNamePattern (s : string) : bool := segments true s.
Definition fleetNameValid (name : string) : bool :=
  (len name <=? fleetMaxName)%nat && fleetNamePattern name.

Fixpoint all_digits (s : string) : bool :=
  match s with
  | EmptyString => true
  | String a s' => is_digit a && all_digits s'
  end.

(** [^b[0-9]+$]. *)
Definition fleetBudgetIDPattern (s : string) : bool :=
  match s with
  | String a (String d s') => Ascii.eqb a (byte 98) && is_digit d && all_digits s'
  | _ => false
  end.

Definition fleetKey (fleet name : string) : string := fleet +:+ "/" +:+ name.

Definition fleetGrantPrefix : string := "fleet-".
Definition fleetGrantSeparator : string := "--".
Definition fleetGrantName (fleet agent : string) : string :=
  fleetGrantPrefix +:+ fleet +:+ fleetGrantSeparator +:+ agent.

(** The regular expression of [fleetGrantPattern]: the prefix, a name, the
    separator and a name, with the separator at some position. *)
Definition fleetGrantPattern (s : string) : bool :=
  has_prefix s fleetGrantPrefix &&
  let rest := drop_bytes (len fleetGrantPrefix) s in
  List.existsb
    (fun i => fleetNamePattern (take_bytes i rest) &&
              has_prefix (drop_bytes i rest) fleetGrantSeparator &&
              fleetNamePattern (drop_bytes (i + len fleetGrantSeparator) rest))
    (seq 0 (S (len rest))).
Definition isFleetGrantName (name : string) : bool := fleetGrantPattern name.

(** ** Minted identifiers *)

Definition mint (c : ascii) (n : N) : string := String c (utoa n).
Definition request_id : N -> string := mint (byte 114).
Definition timer_id : N -> string := mint (byte 116).
Definition budget_id : N -> string := mint (byte 98).
Definition check_id : N -> string := mint (byte 99).
(** One firing of a repeating timer: ["%s.%d"]. *)
Definition firing_id (timer : string) (fires : N) : string := timer +:+ "." +:+ utoa fires.

(* ------------------------------------------------------------------ *)
(** ** Lemmas on minted identifiers *)

Lemma str_app_cons a s t : String a s +:+ t = String a (s +:+ t).
Proof. reflexivity. Qed.

Lemma str_app_nil_l s : "" +:+ s = s.
Proof. reflexivity. Qed.

(** [String.append] does not simplify by itself. *)
Ltac str_cbn := rewrite ?str_app_cons, ?str_app_nil_l; cbn.
Ltac str_cbn_in H := rewrite ?str_app_cons, ?str_app_nil_l in H; cbn in H.

Lemma str_app_nil_r s : s +:+ "" = s.
Proof. induction s as [|a s IH]; [done|]. str_cbn. by rewrite IH. Qed.

Lemma str_app_len s1 s2 : len (s1 +:+ s2) = (len s1 + len s2)%nat.
Proof. induction s1 as [|a s IH]; [done|]. str_cbn. by rewrite IH. Qed.

Lemma digit_char x : is_digit (pretty_N_char x) = true.
Proof. destruct x as [|p]; [done|]. by do 4 (destruct p as [p|p|]; try reflexivity). Qed.

Lemma all_digits_pretty_go x s : all_digits s = true -> all_digits (pretty_N_go x s) = true.
Proof.
  revert s. induction (N.lt_wf_0 x) as [x _ IH]; intros s Hs.
  assert (x = 0 \/ 0 < x)%N as [->|Hx] by lia; [by rewrite pretty_N_go_0|].
  rewrite pretty_N_go_step by done. apply IH; [by apply N.div_lt|].
  cbn. by rewrite Hs, digit_char.
Qed.

Lemma utoa_digits n : all_digits (utoa n) = true.
Proof.
  unfold utoa, pretty, pretty_N. case_decide; [done|]. by apply all_digits_pretty_go.
Qed.

Lemma pretty_go_len x s : (len s <= len (pretty_N_go x s))%nat.
Proof.
  revert s. induction (N.lt_wf_0 x) as [x _ IH]; intros s.
  assert (x = 0 \/ 0 < x)%N as [->|Hx] by lia; [by rewrite pretty_N_go_0|].
  rewrite pretty_N_go_step by done.
  etrans; [|apply IH; by apply N.div_lt]. cbn. lia.
Qed.

Lemma utoa_nonempty n : utoa n <> "".
Proof.
  unfold utoa, pretty, pretty_N. case_decide; [done|].
  rewrite pretty_N_go_step by lia. intros E.
  pose proof (pretty_go_len (n `div` 10) (String (pretty_N_char (n `mod` 10)) "")) as L.
  rewrite E in L. cbn in L. lia.
Qed.

Lemma digits_dot d1 d2 x y :
  all_digits d1 = true -> all_digits d2 = true ->
  d1 +:+ "." +:+ x = d2 +:+ "." +:+ y -> d1 = d2 /\ x = y.
Proof.
  revert d2. induction d1 as [|a d1 IH]; intros [|b d2] H1 H2; str_cbn.
  - intros [= ->]. done.
  - intros [= <- _]. done.
  - intros [= -> _]. done.
  - cbn in H1, H2. apply andb_true_iff in H1 as [_ H1], H2 as [_ H2].
    intros [= -> E]. destruct (IH d2 H1 H2 E) as [-> ->]. done.
Qed.

Lemma digits_no_dot d1 d2 y :
  all_digits d1 = true -> d1 <> d2 +:+ "." +:+ y.
Proof.
  revert d2. induction d1 as [|a d1 IH]; intros [|b d2] H1; str_cbn; [done|done|..].
  - intros [= -> _]. done.
  - cbn in H1. apply andb_true_iff in H1 as [_ H1]. intros [= -> E]. by apply (IH d2).
Qed.

#[export] Instance mint_inj c : Inj (=) (=) (mint c).
Proof. intros n m [= H]. by apply (inj pretty) in H. Qed.

#[export] Instance firing_inj t : Inj (=) (=) (firing_id t).
Proof.
  intros n m H. unfold firing_id in H. apply (inj (String.append t)) in H.
  apply (inj (String.append ".")) in H. by apply (inj pretty) in H.
Qed.

Lemma mint_eq c1 c2 n m : mint c1 n = mint c2 m -> c1 = c2 /\ n = m.
Proof. intros [= -> H]. by apply (inj pretty) in H. Qed.

Lemma mint_nonempty c n : mint c n <> "".
Proof. done. Qed.

Lemma firing_ne_mint c1 c2 n m j : firing_id (mint c1 n) j <> mint c2 m.
Proof.
  unfold firing_id, mint. str_cbn. intros [= _ H]. symmetry in H.
  by apply digits_no_dot in H; [|apply utoa_digits].
Qed.

Lemma firing_eq c1 c2 n m i j :
  firing_id (mint c1 n) i = firing_id (mint c2 m) j -> c1 = c2 /\ n = m /\ i = j.
Proof.
  unfold firing_id, mint. str_cbn. intros [= -> H].
  apply digits_dot in H as [H1 H2]; [|apply utoa_digits..].
  apply (inj pretty) in H1. apply (inj pretty) in H2. done.
Qed.

(** [id_le n s]: [s] is an identifier made from a counter value of at most
    [n], with or without a firing number. *)
Definition id_le (n : N) (s : string) : Prop :=
  exists c k, (k <= n)%N /\ (s = mint c k \/ exists j, s = firing_id (mint c k) j).

Lemma id_le_mono n m s : (n <= m)%N -> id_le n s -> id_le m s.
Proof. intros ? (c & k & ? & H). exists c, k. split; [lia|done]. Qed.

Lemma id_le_mint n c k : (k <= n)%N -> id_le n (mint c k).
Proof. intros. exists c, k. auto. Qed.

Lemma id_le_firing n c k j : (k <= n)%N -> id_le n (firing_id (mint c k) j).
Proof. intros. exists c, k. eauto. Qed.

Lemma mint_fresh n c k : (n < k)%N -> ~ id_le n (mint c k).
Proof.
  intros Hn (c' & k' & Hk & [H|[j H]]).
  - apply mint_eq in H as [_ ->]. lia.
  - symmetry in H. by apply firing_ne_mint in H.
Qed.

Lemma firing_fresh n c k j : (n < k)%N -> ~ id_le n (firing_id (mint c k) j).
Proof.
  intros Hn (c' & k' & Hk & [H|[j' H]]).
  - by apply firing_ne_mint in H.
  - apply firing_eq in H as (_ & -> & _). lia.
Qed.

#[export] Hint Resolve id_le_mint id_le_firing mint_nonempty : claudia.

(* ------------------------------------------------------------------ *)
(** ** Lemmas on names *)

Lemma segments_app_sep fresh s t :
  segments fresh (s +:+ "--" +:+ t) = false.
Proof.
  revert fresh. induction s as [|a s IH]; intros fresh; str_cbn.
  - by destruct fresh.
  - destruct (is_alnum a); [apply IH|]. destruct (Ascii.eqb a hyphen); [|done].
    by rewrite IH, andb_false_r.
Qed.

Lemma segments_trailing fresh s : segments fresh (s +:+ "-") = false.
Proof.
  revert fresh. induction s as [|a s IH]; intros fresh; str_cbn.
  - by destruct fresh.
  - destruct (is_alnum a); [apply IH|]. destruct (Ascii.eqb a hyphen); [|done].
    by rewrite IH, andb_false_r.
Qed.

Lemma segments_no_slash fresh s t : segments fresh (s +:+ "/" +:+ t) = false.
Proof.
  revert fresh. induction s as [|a s IH]; intros fresh; str_cbn; [done|].
  destruct (is_alnum a); [apply IH|]. destruct (Ascii.eqb a hyphen); [|done].
  by rewrite IH, andb_false_r.
Qed.

(** Two strings with a common extension: one is a prefix of the other. *)
Lemma str_app_eq s1 s2 t1 t2 :
  s1 +:+ t1 = s2 +:+ t2 ->
  (exists r, s2 = s1 +:+ r /\ t1 = r +:+ t2) \/ (exists r, s1 = s2 +:+ r /\ t2 = r +:+ t1).
Proof.
  revert s2. induction s1 as [|a s1 IH]; intros [|b s2]; str_cbn.
  - intros ->. left. by exists "".
  - intros ->. left. by exists (String b s2).
  - intros <-. right. by exists (String a s1).
  - intros [= -> H]. destruct (IH s2 H) as [(r & -> & ->)|(r & -> & ->)];
      [left|right]; by exists r.
Qed.

Lemma valid_segments s : fleetNameValid s = true -> segments true s = true.
Proof. by intros [_ H]%andb_true_iff. Qed.

(** A name followed by the separator determines the name. *)
Lemma sep_split_aux f1 f2 r a1 a2 :
  segments true f2 = true -> f2 = f1 +:+ r ->
  "--" +:+ a1 = r +:+ "--" +:+ a2 -> r = "".
Proof.
  intros Hv -> H. destruct r as [|c r]; [done|exfalso].
  str_cbn_in H. injection H as <- H. destruct r as [|c r].
  - exact (eq_true_false_abs _ Hv (segments_trailing true f1)).
  - str_cbn_in H. injection H as <- _.
    exact (eq_true_false_abs _ Hv (segments_app_sep true f1 r)).
Qed.

Lemma sep_split f1 f2 a1 a2 :
  segments true f1 = true -> segments true f2 = true ->
  f1 +:+ "--" +:+ a1 = f2 +:+ "--" +:+ a2 -> f1 = f2 /\ a1 = a2.
Proof.
  intros H1 H2 H. destruct (str_app_eq _ _ _ _ H) as [(r & E & Ht)|(r & E & Ht)].
  - assert (r = "") as -> by exact (sep_split_aux f1 f2 r a1 a2 H2 E Ht).
    rewrite str_app_nil_r in E. rewrite str_app_nil_l in Ht.
    apply (inj (String.append "--")) in Ht. by subst.
  - assert (r = "") as -> by exact (sep_split_aux f2 f1 r a2 a1 H1 E Ht).
    rewrite str_app_nil_r in E. rewrite str_app_nil_l in Ht.
    apply (inj (String.append "--")) in Ht. by subst.
Qed.

Lemma slash_split f1 f2 a1 a2 :
  segments true f1 = true -> segments true f2 = true ->
  f1 +:+ "/" +:+ a1 = f2 +:+ "/" +:+ a2 -> f1 = f2 /\ a1 = a2.
Proof.
  intros H1 H2 H. destruct (str_app_eq _ _ _ _ H) as [(r & E & Ht)|(r & E & Ht)].
  - destruct r as [|c r].
    + rewrite str_app_nil_r in E. rewrite str_app_nil_l in Ht.
      apply (inj (String.append "/")) in Ht. by subst.
    + injection Ht as <- _. subst f2. destruct (eq_true_false_abs _ H2 (segments_no_slash true f1 r)).
  - destruct r as [|c r].
    + rewrite str_app_nil_r in E. rewrite str_app_nil_l in Ht.
      apply (inj (String.append "/")) in Ht. by subst.
    + injection Ht as <- _. subst f1. destruct (eq_true_false_abs _ H1 (segments_no_slash true f2 r)).
Qed.

Lemma budget_id_pattern n : fleetBudgetIDPattern (budget_id n) = true.
Proof.
  unfold budget_id, mint, fleetBudgetIDPattern.
  pose proof (utoa_digits n) as H. destruct (utoa n) as [|d s] eqn:E.
  - by apply utoa_nonempty in E.
  - cbn in H |- *. apply andb_true_iff in H as [-> ->]. done.
Qed.
