(* ===== verification/FleetTypes.v ===== *)
(** * FleetTypes: the fleet kernel's data

    The records of [fleet.go], [fleet_budget.go], [fleet_timer.go],
    [fleet_expect.go] and [fleet_check.go]. A Go map is a [gmap], a pointer
    that may be nil an [option], a slice a list.

    The kernel keys its own maps by ["<fleet>/<name>"]; this development keeps
    one [Fleet] record per fleet, holding that fleet's part of each map
    ([FleetNames.fleetKey] is injective on valid names, so nothing is lost).
    A map of channels ([timers]) is the map of the deadlines they wait for. *)

From S2P Require Import Prelude GoLib FleetNames.

Definition FleetOwner : string := "owner".
Definition FleetNoReply : string := "NOREPLY".

(** Message kinds. *)
Definition FleetRequest : string := "request".
Definition FleetResponse : string := "response".
Definition FleetTimer : string := "timer".
Definition FleetNotice : string := "notice".

(** Event kinds. *)
Definition FleetEventMessage : string := "message".
Definition FleetEventStarted : string := "started".
Definition FleetEventStartFailed : string := "start_failed".
Definition FleetEventStop : string := "stop".
Definition FleetEventRetired : string := "retired".
Definition FleetEventTurn : string := "turn".
Definition FleetEventCancel : string := "cancel".
Definition FleetEventBudget : string := "budget".
Definition FleetEventCheckRegistered : string := "check_registered".
Definition FleetEventCheckStarted : string := "check_started".
Definition FleetEventCheckResult : string := "check_result".

Definition FleetAuthorityAll : string := "all".
Definition FleetBudgetSender : string := "budget".
Definition FleetClockSender : string := "clock".
Definition FleetCheckSenderPrefix : string := "check:".
Definition FleetExpediteSteer : string := "steer".
Definition FleetExpediteInterrupt : string := "interrupt".

Definition fleetDefaultMaxAgents : Z := 12.
Definition fleetDefaultMaxMessages : Z := 2000.
Definition fleetMaxText : Z := 128 * 1024.
Definition fleetEventRing : nat := 512.
Definition fleetReadBytes : Z := 512 * 1024.
Definition fleetMaxDeaths : Z := 3.
Definition fleetRetryMax : Duration := Minute.
Definition fleetRetryMin : Duration := Second.
Definition fleetMinEvery : Duration := Minute.
Definition fleetCheckQueue : Z := 8.
Definition fleetCheckOutput : Z := 16 * 1024.
Definition fleetCheckDefaultTimeout : Duration := 30 * Minute.
Definition fleetCheckMaxTimeout : Duration := 4 * Hour.

(** ** Messages and events *)

Record FleetMessage := MkMessage {
  m_ID : string; m_Kind : string; m_From : string; m_To : string;
  m_InReplyTo : string; m_Text : string; m_Redelivered : bool;
  m_SentAt : Time; m_Due : option Time; m_Missed : Z; m_Timer : string;
  m_Charged : bool; m_Reclaimed : bool; m_steering : bool }.

#[export] Instance eta_message : Eta FleetMessage := fun m =>
  MkMessage (m_ID m) (m_Kind m) (m_From m) (m_To m) (m_InReplyTo m) (m_Text m)
    (m_Redelivered m) (m_SentAt m) (m_Due m) (m_Missed m) (m_Timer m) (m_Charged m)
    (m_Reclaimed m) (m_steering m).
#[export] Hint Extern 1 (@Setter FleetMessage _ _) => setter_of eta_message : typeclass_instances.

(** [&FleetMessage{Kind: kind, From: from, To: to, InReplyTo: re, Text: text}]. *)
Definition new_message (kind from to re text : string) : FleetMessage :=
  MkMessage "" kind from to re text false 0 None 0 "" false false false.

Record Usage := MkUsage {
  InputTokens : Z; OutputTokens : Z;
  CacheCreationInputTokens : Z; CacheReadInputTokens : Z }.

Record FleetCheckResult := MkCheckResult {
  cr_RunID : string; cr_Name : string; cr_Commit : string; cr_SHA256 : string;
  cr_Requester : string; cr_Exit : Z; cr_Score : option float64; cr_Output : string;
  cr_Seconds : float64; cr_Error : string }.

#[export] Instance eta_check_result : Eta FleetCheckResult := fun r =>
  MkCheckResult (cr_RunID r) (cr_Name r) (cr_Commit r) (cr_SHA256 r) (cr_Requester r)
    (cr_Exit r) (cr_Score r) (cr_Output r) (cr_Seconds r) (cr_Error r).
#[export] Hint Extern 1 (@Setter FleetCheckResult _ _) => setter_of eta_check_result : typeclass_instances.

Record FleetEvent := MkEvent {
  e_Seq : N; e_At : Time; e_Kind : string; e_Agent : string; e_Parent : string;
  e_Root : string; e_Model : string; e_Cause : string; e_Text : string;
  e_Usage : option Usage; e_Message : option FleetMessage;
  e_Check : option FleetCheckResult }.

#[export] Instance eta_event : Eta FleetEvent := fun e =>
  MkEvent (e_Seq e) (e_At e) (e_Kind e) (e_Agent e) (e_Parent e) (e_Root e) (e_Model e)
    (e_Cause e) (e_Text e) (e_Usage e) (e_Message e) (e_Check e).
#[export] Hint Extern 1 (@Setter FleetEvent _ _) => setter_of eta_event : typeclass_instances.

Definition new_event (kind : string) : FleetEvent :=
  MkEvent 0 0 kind "" "" "" "" "" "" None None None.

(** ** Budgets, timers, expectations, checks *)

Record FleetBudget := MkBudget { bl_Tokens : Z; bl_Turns : Z; bl_Seconds : float64 }.

Record fleetBudgetState := MkBudgetState {
  b_Holder : string; b_SetBy : string; b_Limits : FleetBudget; b_Started : Time;
  b_SpentTokens : Z; b_SpentTurns : Z; b_Notified : bool }.

#[export] Instance eta_budget : Eta fleetBudgetState := fun b =>
  MkBudgetState (b_Holder b) (b_SetBy b) (b_Limits b) (b_Started b) (b_SpentTokens b)
    (b_SpentTurns b) (b_Notified b).
#[export] Hint Extern 1 (@Setter fleetBudgetState _ _) => setter_of eta_budget : typeclass_instances.

Record fleetTimerState := MkTimer {
  t_At : Time; t_Every : Duration; t_Fires : N; t_Message : FleetMessage }.

#[export] Instance eta_timer : Eta fleetTimerState := fun t =>
  MkTimer (t_At t) (t_Every t) (t_Fires t) (t_Message t).
#[export] Hint Extern 1 (@Setter fleetTimerState _ _) => setter_of eta_timer : typeclass_instances.

Record fleetExpectState := MkExpect {
  x_From : string; x_To : string; x_Kind : string; x_SentAt : Time;
  x_AcceptBy : option Time; x_AnswerBy : option Time; x_Accepted : option Time }.

#[export] Instance eta_expect : Eta fleetExpectState := fun x =>
  MkExpect (x_From x) (x_To x) (x_Kind x) (x_SentAt x) (x_AcceptBy x) (x_AnswerBy x)
    (x_Accepted x).
#[export] Hint Extern 1 (@Setter fleetExpectState _ _) => setter_of eta_expect : typeclass_instances.

Record fleetCheckState := MkCheck {
  c_Repo : string; c_Path : string; c_SHA256 : string; c_AgentsMayRun : bool;
  c_TimeoutSeconds : float64; c_Registered : Time; c_RegisteredBy : string }.

#[export] Instance eta_check : Eta fleetCheckState := fun c =>
  MkCheck (c_Repo c) (c_Path c) (c_SHA256 c) (c_AgentsMayRun c) (c_TimeoutSeconds c)
    (c_Registered c) (c_RegisteredBy c).
#[export] Hint Extern 1 (@Setter fleetCheckState _ _) => setter_of eta_check : typeclass_instances.

Record fleetCheckRun := MkCheckRun {
  r_Check : string; r_Commit : string; r_Requester : string;
  r_RequesterToken : string; r_Started : Time }.

(** ** Agents, groups and the running part *)

(** [a_Tools] is nil ([None]) for an agent that may call every tool. *)
Record fleetAgentState := MkAgent {
  a_Name : string; a_Parent : string; a_Root : string; a_Instructions : string;
  a_Token : string; a_WorkDir : string; a_Quality : string; a_Purpose : string;
  a_Model : string; a_Inbox : list FleetMessage; a_Current : option FleetMessage;
  a_Steered : list FleetMessage; a_Briefed : bool; a_Stopped : bool;
  a_CurrentSince : Time; a_LastTurnEnd : Time; a_Budgets : list string;
  a_OwnBudget : string; a_Authority : string; a_Tools : option (list string);
  a_retiring : bool }.

#[export] Instance eta_agent : Eta fleetAgentState := fun a =>
  MkAgent (a_Name a) (a_Parent a) (a_Root a) (a_Instructions a) (a_Token a) (a_WorkDir a)
    (a_Quality a) (a_Purpose a) (a_Model a) (a_Inbox a) (a_Current a) (a_Steered a)
    (a_Briefed a) (a_Stopped a) (a_CurrentSince a) (a_LastTurnEnd a) (a_Budgets a)
    (a_OwnBudget a) (a_Authority a) (a_Tools a) (a_retiring a).
#[export] Hint Extern 1 (@Setter fleetAgentState _ _) => setter_of eta_agent : typeclass_instances.

Record fleetGroupState := MkGroup {
  g_MaxAgents : Z; g_MaxMessages : Z; g_NextID : N; g_Sent : Z; g_Closing : bool;
  g_Agents : gmap string fleetAgentState; g_Timers : gmap string fleetTimerState;
  g_Budgets : gmap string fleetBudgetState; g_Checks : gmap string fleetCheckState;
  g_CheckRuns : gmap string fleetCheckRun; g_CheckLast : gmap string FleetCheckResult;
  g_Expects : gmap string fleetExpectState }.

#[export] Instance eta_group : Eta fleetGroupState := fun g =>
  MkGroup (g_MaxAgents g) (g_MaxMessages g) (g_NextID g) (g_Sent g) (g_Closing g)
    (g_Agents g) (g_Timers g) (g_Budgets g) (g_Checks g) (g_CheckRuns g) (g_CheckLast g)
    (g_Expects g).
#[export] Hint Extern 1 (@Setter fleetGroupState _ _) => setter_of eta_group : typeclass_instances.

(** A running agent's [fleetRuntime]. [rt_id] tells one runtime object from a
    later one for the same agent, where the code compares pointers; [rt_Desc]
    is what its seat describes itself as. *)
Record fleetRuntime := MkRuntime {
  rt_id : N; rt_Desc : string; rt_deaths : Z; rt_turns : Z; rt_interruptedBy : string;
  rt_interruptFor : string; rt_interruptTurn : Z; rt_interrupting : Z; rt_live : bool;
  rt_pending : option (string * string) }.

#[export] Instance eta_runtime : Eta fleetRuntime := fun r =>
  MkRuntime (rt_id r) (rt_Desc r) (rt_deaths r) (rt_turns r) (rt_interruptedBy r)
    (rt_interruptFor r) (rt_interruptTurn r) (rt_interrupting r) (rt_live r) (rt_pending r).
#[export] Hint Extern 1 (@Setter fleetRuntime _ _) => setter_of eta_runtime : typeclass_instances.

(** A fleet's event log: the newest sequence number, the file's events oldest
    first, and the ring kept in memory. *)
Record fleetLog := MkLog { l_seq : N; l_file : list FleetEvent; l_recent : list FleetEvent }.

#[export] Instance eta_log : Eta fleetLog := fun l => MkLog (l_seq l) (l_file l) (l_recent l).
#[export] Hint Extern 1 (@Setter fleetLog _ _) => setter_of eta_log : typeclass_instances.

(** One fleet of the kernel: its saved state ([fl_saved], what the last
    [saveLocked] wrote) and the state in memory, its log, and its entries of
    the kernel's [running], [starting], [reviving] and [timers] maps.
    [fl_next_rt] numbers runtime objects. [fl_can_save] says whether the state
    file can be written now: the disk takes it, and every other fleet's state,
    which is in the same file, encodes. *)
Record Fleet := MkFleet {
  fl_group : fleetGroupState; fl_saved : fleetGroupState; fl_log : fleetLog;
  fl_running : gmap string fleetRuntime; fl_starting : gset string;
  fl_reviving : gset string; fl_timers : gmap string Time; fl_next_rt : N;
  fl_can_save : bool }.

#[export] Instance eta_fleet : Eta Fleet := fun f =>
  MkFleet (fl_group f) (fl_saved f) (fl_log f) (fl_running f) (fl_starting f)
    (fl_reviving f) (fl_timers f) (fl_next_rt f) (fl_can_save f).
#[export] Hint Extern 1 (@Setter Fleet _ _) => setter_of eta_fleet : typeclass_instances.

(** ** Errors the kernel returns *)

Inductive fleet_error :=
| ErrFleetClosed
| ErrNoFleet (fleet : string)
| ErrInvalidFleetName (name : string)
| ErrInvalidAgentName (name : string)
| ErrReadInstructions (cause : string)
| ErrNeedsInstructions
| ErrWorkDirNotAbsolute (dir : string)
| ErrNegativeBudget
| ErrUnknownAuthority (authority : string)
| ErrOwnerGivesAuthority
| ErrRandom (cause : string)
| ErrShuttingDown
| ErrNoAgent (name : string)
| ErrRootNeedsWorkDir
| ErrNoTool (name : string)
| ErrToolNotHeld (name : string)
| ErrAgentExists (name : string)
| ErrAgentLimit (limit : Z)
| ErrSave
| ErrNoAuthority (caller subject : string)
| ErrStillStarting (name : string)
| ErrNothingToSend
| ErrBadKind (kind : string)
| ErrNegativeDelay
| ErrDelayAndTime
| ErrRepeatTooShort
| ErrNoAuthorityToRepeat (from to : string)
| ErrSelfNeedsDelay
| ErrMessageLimit (limit : Z)
| ErrNegativeExpectation
| ErrExpectScheduled
| ErrExpectOwner
| ErrExpectNotRequest
| ErrBadMode (mode : string)
| ErrNoAuthorityToExpedite (from to : string)
| ErrNoScheduled (id : string)
| ErrNotWaiting (id : string)
| ErrNoAgentOrBudget (target : string)
| ErrNoAuthoritySetter (caller setter : string)
| ErrCheckName
| ErrRepoNotAbsolute (repo : string)
| ErrRepo (cause : string)
| ErrReadScript (cause : string)
| ErrNeedsScript
| ErrCheckTimeout
| ErrNotRevision (commit : string)
| ErrNoCheck (name : string)
| ErrChecksWaiting
| ErrRevision (cause : string).

(** A fallible operation's result. *)
Abbreviation result A := (A + fleet_error)%type (only parsing).

(** * The text the kernel writes to agents

    Models the formatting functions of [fleet.go], [fleet_timer.go],
    [fleet_expect.go] and [fleet_check.go]. Formatting a time in the host's
    zone and a float in its shortest form are parameters ([GoFormat]). *)

Class GoFormat := {
  (** [t.Local().Format(layout)]. *)
  local_format : string -> Time -> string;
  (** [strconv.FormatFloat(f, 'g', -1, 64)], and [%g]. *)
  format_g : float64 -> string }.

(** [fmt.Sprintf("%02d", n)] of a non-negative number. *)
Definition pad2 (n : Z) : string := if (n <? 10)%Z then "0" +:+ itoa n else itoa n.

(** 45s, 12m, 3h12m, 2d4h. *)
Definition fleetDuration (d : Duration) : string :=
  if (d <? Minute)%Z then itoa (Z.quot d Second) +:+ "s"
  else if (d <? Hour)%Z then itoa (Z.quot d Minute) +:+ "m"
  else if (d <? 24 * Hour)%Z then
    itoa (Z.quot d Hour) +:+ "h" +:+ pad2 (Z.rem (Z.quot d Minute) 60) +:+ "m"
  else itoa (Z.quot (Z.quot d Hour) 24) +:+ "d" +:+ itoa (Z.rem (Z.quot d Hour) 24) +:+ "h".

Section Text.
Context {GF : GoFormat}.

Definition fleetStamp (now : Time) (m : FleetMessage) (lastTurn : Time) : string :=
  let parts := ["now " +:+ local_format "Mon 2 Jan 2006 15:04 MST" now] in
  let age := Sub now (m_SentAt m) in
  let parts :=
    if negb (IsZero (m_SentAt m)) && (Second <=? age)%Z
    then parts ++ ["sent " +:+ fleetDuration age +:+ " ago"] else parts in
  let parts :=
    match m_Due m with
    | None => parts
    | Some due =>
      let timer := if decide (m_Timer m = "") then m_ID m else m_Timer m in
      let note := "scheduled " +:+ timer +:+ " for " +:+ local_format "15:04" due in
      let late := Sub (m_SentAt m) due in
      let note := if (Minute <=? late)%Z
                  then note +:+ ", delivered " +:+ fleetDuration late +:+ " late" else note in
      let note := if (0 <? m_Missed m)%Z
                  then note +:+ ", " +:+ itoa (m_Missed m) +:+ " earlier firings missed"
                  else note in
      parts ++ [note]
    end in
  let parts :=
    if negb (IsZero lastTurn)
    then parts ++ ["your last turn ended " +:+ fleetDuration (Sub now lastTurn) +:+ " ago"]
    else parts in
  "[" +:+ Join parts "; " +:+ "]".

Definition formatFleetMessage (m : FleetMessage) : string :=
  if decide (m_Kind m = FleetTimer) then "[timer " +:+ m_ID m +:+ "]" +:+ nl +:+ m_Text m
  else if decide (m_Kind m = FleetNotice) then
    "[notice from " +:+ m_From m +:+ "]" +:+ nl +:+ m_Text m
  else if decide (m_Kind m = FleetResponse) then
    if decide (m_InReplyTo m = "") then
      "[message from " +:+ m_From m +:+ "]" +:+ nl +:+ m_Text m
    else "[response from " +:+ m_From m +:+ " to " +:+ m_InReplyTo m +:+ "]" +:+ nl +:+ m_Text m
  else "[request " +:+ m_ID m +:+ " from " +:+ m_From m +:+ "]" +:+ nl +:+ m_Text m.

Definition fleetRedeliveredNote : string :=
  "[Claudia restarted during your last turn on this message, so its reply was lost. Work you already did remains. Check it and answer now.]".
Definition fleetReclaimedNote : string :=
  "[This was steered into your last turn, which was interrupted so that you take it up on its own. You may already have started on it: check what you did before acting again.]".
Definition fleetSteeredNote : string :=
  "[steered into your running turn: your reply at the end of this turn also answers it]".

(** The text [run] sends the seat for a turn. *)
Definition turn_text (stamp instructions : string) (brief : bool) (m : FleetMessage) : string :=
  let text := stamp +:+ nl +:+ formatFleetMessage m in
  let text :=
    if m_Redelivered m then fleetRedeliveredNote +:+ nl +:+ nl +:+ text
    else if m_Reclaimed m then fleetReclaimedNote +:+ nl +:+ nl +:+ text
    else text in
  if brief then instructions +:+ nl +:+ nl +:+ "---" +:+ nl +:+ nl +:+ text else text.

(** A turn is silent when it said nothing or ended with [FleetNoReply]. *)
Definition silent (text : string) : bool :=
  bool_decide (text = "") || has_suffix text FleetNoReply.

Definition fleetInterruptedReply (reply by_ forID : string) (err : option string) : string :=
  let note := "[" +:+ by_ +:+ " interrupted this turn to take up " +:+ forID +:+
              " first, so this answer may be incomplete.]" in
  let note :=
    match err with
    | Some e => note +:+ " The turn ended with an error, which may be the interrupt or its own failure: "
                  +:+ e +:+ "."
    | None => note
    end in
  if silent reply then note +:+ " It had not replied."
  else reply +:+ nl +:+ nl +:+ note.

Definition boundCheckOutput (s : string) : string :=
  if (Z.of_nat (len s) <=? fleetCheckOutput)%Z then s
  else drop_bytes (len s - Z.to_nat fleetCheckOutput) s.

Definition describeCheckResult (r : FleetCheckResult) : string :=
  let commit := if (12 <? len (cr_Commit r))%nat then take_bytes 12 (cr_Commit r)
                else cr_Commit r in
  let b := "Check " +:+ cr_Name r +:+ " on " +:+ commit in
  let after := fleetDuration (seconds_to_duration (cr_Seconds r)) in
  let b :=
    if negb (bool_decide (cr_Error r = "")) then
      b +:+ " produced no result: " +:+ cr_Error r +:+ "."
    else match cr_Score r with
         | Some score => b +:+ ": score " +:+ format_g score +:+ ", exit " +:+ itoa (cr_Exit r)
                           +:+ ", after " +:+ after +:+ "."
         | None => b +:+ ": exit " +:+ itoa (cr_Exit r) +:+ ", after " +:+ after +:+ "."
         end in
  if bool_decide (cr_Output r = "") then b
  else b +:+ nl +:+ nl +:+ "Output (tail):" +:+ nl +:+ cr_Output r.
End Text.
