(* ===== verification/FleetAuthority.v ===== *)
(** * FleetAuthority: the line of creation, authority and tools

    Models [authorized] and [fleetDescends] of [fleet.go] and [fleet_tools.go].
    The theory is on the map from an agent to its parent: [ToOwner] says the
    links from an agent end at the owner, [Descends] is the ancestor relation
    the bounded loop decides. *)

From S2P Require Import Prelude GoLib FleetNames FleetTypes.

(** ** Operations *)

(** The loop of [fleetDescends]: [fuel] is what is left of
    [seen <= len(group.Agents)]. *)
Fixpoint descends_loop (fuel : nat) (agents : gmap string fleetAgentState)
    (name ancestor : string) : bool :=
  match fuel with
  | O => false
  | S fuel' =>
    match agents !! name with
    | None => false
    | Some a =>
      if decide (a_Parent a = ancestor) then true
      else descends_loop fuel' agents (a_Parent a) ancestor
    end
  end.

Definition fleetDescends (group : fleetGroupState) (name ancestor : string) : bool :=
  descends_loop (S (size (g_Agents group))) (g_Agents group) name ancestor.

Definition authorized (group : fleetGroupState) (actor subject : string) : bool :=
  if decide (actor = FleetOwner \/ actor = subject) then true
  else
    match g_Agents group !! actor with
    | Some a =>
      if decide (a_Authority a = FleetAuthorityAll) then true
      else fleetDescends group subject actor
    | None => fleetDescends group subject actor
    end.

(** The names of [fleetTools], in order. *)
Definition fleetTools : list string :=
  ["start"; "send"; "expedite"; "stop"; "cancel"; "check"; "budget"; "register_check"; "list"].

Definition allFleetTools : list string := fleetTools.

Definition toolSet (names : option (list string)) : list string :=
  match names with
  | None => allFleetTools
  | Some names => names
  end.

Fixpoint choose_loop (requested may chosen : list string) : result (list string) :=
  match requested with
  | [] => inl chosen
  | name :: rest =>
    if negb (contains allFleetTools name) then inr (ErrNoTool name)
    else if negb (contains may name) then inr (ErrToolNotHeld name)
    else choose_loop rest may
           (if contains chosen name then chosen else chosen ++ [name])
  end.

Definition chooseTools (requested : option (list string)) (may : list string)
    : result (list string) :=
  match requested with
  | None => inl may
  | Some requested => choose_loop requested may []
  end.

Definition holdsTool (group : option fleetGroupState) (caller tool : string) : bool :=
  match group with
  | None => false
  | Some group =>
    match g_Agents group !! caller with
    | None => false
    | Some a => contains (toolSet (a_Tools a)) tool
    end
  end.

Definition toolsOf (group : option fleetGroupState) (caller : string) : list string :=
  List.filter (holdsTool group caller) fleetTools.

(** ** The tree of parents *)

Definition parents (agents : gmap string fleetAgentState) : gmap string string :=
  a_Parent <$> agents.

(** [Depth ps n d]: [d] links lead from [n] to the owner. *)
Inductive Depth (ps : gmap string string) : string -> nat -> Prop :=
| depth_root n : ps !! n = Some FleetOwner -> Depth ps n 1
| depth_step n p d : ps !! n = Some p -> Depth ps p d -> Depth ps n (S d).

Definition ToOwner (ps : gmap string string) (n : string) : Prop := exists d, Depth ps n d.

(** The owner is no agent and every agent's links end at the owner. *)
Definition Tree (ps : gmap string string) : Prop :=
  ps !! FleetOwner = None /\ forall n p, ps !! n = Some p -> ToOwner ps n.

Inductive Descends (ps : gmap string string) : string -> string -> Prop :=
| descends_parent n p : ps !! n = Some p -> Descends ps n p
| descends_step n p anc : ps !! n = Some p -> Descends ps p anc -> Descends ps n anc.

Lemma Descends_trans ps n p anc : Descends ps n p -> Descends ps p anc -> Descends ps n anc.
Proof. induction 1; eauto using Descends. Qed.

Lemma Descends_dom ps n anc : Descends ps n anc -> is_Some (ps !! n).
Proof. by destruct 1; eexists. Qed.

Lemma Depth_dom ps n d : Depth ps n d -> is_Some (ps !! n).
Proof. by destruct 1; eexists. Qed.

Lemma Depth_fun ps n d1 d2 :
  ps !! FleetOwner = None -> Depth ps n d1 -> Depth ps n d2 -> d1 = d2.
Proof.
  intros Ho H. revert d2. induction H as [n E|n p d E H IH]; intros d2 H2.
  - destruct H2 as [n|n p d E2 H2]; [done|]. simplify_eq.
    apply Depth_dom in H2 as [? ?]. congruence.
  - destruct H2 as [n E2|n p2 d2 E2 H2]; simplify_eq; [|by f_equal; apply IH].
    apply Depth_dom in H as [? ?]. congruence.
Qed.

(** The path to the owner repeats no agent. *)
Lemma Depth_path ps n d :
  ps !! FleetOwner = None -> Depth ps n d ->
  exists l, NoDup l /\ length l = d /\
    forall m, m ∈ l -> is_Some (ps !! m) /\ exists e, (e <= d)%nat /\ Depth ps m e.
Proof.
  intros Ho H. induction H as [n E|n p d E H (l & Hnd & Hlen & Hl)].
  - exists [n]. split_and!; [apply NoDup_singleton|done|].
    intros m ->%list_elem_of_singleton. split; [by eexists|]. exists 1. eauto using Depth.
  - exists (n :: l). split_and!; [|cbn; by f_equal|].
    + constructor; [|done]. intros Hin. destruct (Hl n Hin) as (_ & e & He & Hd).
      pose proof (Depth_fun ps n (S d) e Ho (depth_step _ _ _ _ E H) Hd). lia.
    + intros m [->|Hm]%elem_of_cons.
      * split; [by eexists|]. exists (S d). eauto using Depth.
      * destruct (Hl m Hm) as (? & e & ? & ?). split; [done|]. exists e. split; [lia|done].
Qed.

Lemma Depth_size ps n d : ps !! FleetOwner = None -> Depth ps n d -> (d <= size ps)%nat.
Proof.
  intros Ho H. destruct (Depth_path ps n d Ho H) as (l & Hnd & <- & Hl).
  rewrite <-(size_dom ps), <-(size_list_to_set (C := gset string) l) by done.
  apply subseteq_size. intros m Hm%elem_of_list_to_set.
  apply elem_of_dom. by apply Hl.
Qed.

Lemma parents_lookup agents n p :
  parents agents !! n = Some p <-> exists a, agents !! n = Some a /\ a_Parent a = p.
Proof. unfold parents. rewrite lookup_fmap, fmap_Some. naive_solver. Qed.

Lemma parents_lookup_None agents n : parents agents !! n = None <-> agents !! n = None.
Proof. unfold parents. by rewrite lookup_fmap, fmap_None. Qed.

(** ** The loop decides the ancestor relation *)

Lemma descends_loop_sound fuel agents n anc :
  descends_loop fuel agents n anc = true -> Descends (parents agents) n anc.
Proof.
  revert n. induction fuel as [|fuel IH]; intros n; cbn; [done|].
  destruct (agents !! n) as [a|] eqn:E; [|done]. intros H.
  assert (parents agents !! n = Some (a_Parent a)) as Hp by (apply parents_lookup; eauto).
  case_decide; [subst; by constructor|]. eapply descends_step; eauto.
Qed.

Lemma descends_loop_complete agents n d anc fuel :
  parents agents !! FleetOwner = None ->
  Depth (parents agents) n d -> Descends (parents agents) n anc -> (d <= fuel)%nat ->
  descends_loop fuel agents n anc = true.
Proof.
  intros Ho Hd. revert fuel.
  induction Hd as [n E|n p d E Hd IH]; intros [|fuel] Hdesc Hf; try lia;
    apply parents_lookup in E as (a & Ea & Ep); cbn; rewrite Ea, Ep; case_decide; try done;
    destruct Hdesc as [n q E2|n q anc E2 H2];
    apply parents_lookup in E2 as (a' & Ea' & <-); simplify_eq.
  - destruct H2 as [? ? E3|? ? ? E3]; congruence.
  - apply IH; [done|lia].
Qed.

Lemma fleetDescends_iff g n anc :
  Tree (parents (g_Agents g)) ->
  fleetDescends g n anc = true <-> Descends (parents (g_Agents g)) n anc.
Proof.
  intros [Ho Ht]. unfold fleetDescends. split; [apply descends_loop_sound|].
  intros H. assert (is_Some (parents (g_Agents g) !! n)) as [p Hp] by (by eapply Descends_dom).
  destruct (Ht n p Hp) as [d Hd]. eapply descends_loop_complete; eauto.
  apply Depth_size in Hd; [|done]. unfold parents in Hd. rewrite map_size_fmap in Hd. lia.
Qed.

Lemma Descends_irrefl ps n : Tree ps -> ~ Descends ps n n.
Proof.
  intros [Ho Ht] H.
  enough (forall m a d e, Descends ps m a -> Depth ps m d -> Depth ps a e -> (e < d)%nat) as Hlt.
  { assert (is_Some (ps !! n)) as [p Hp] by (by eapply Descends_dom).
    destruct (Ht n p Hp) as [d Hd]. pose proof (Hlt n n d d H Hd Hd). lia. }
  clear n H. intros m a d e H. revert d.
  induction H as [n p E|n p anc E H IH]; intros d Hd He; destruct Hd as [n E2|n q d E2 Hd];
    simplify_eq.
  - apply Depth_dom in He as [? ?]. congruence.
  - pose proof (Depth_fun _ _ _ _ Ho Hd He). lia.
  - destruct H; congruence.
  - pose proof (IH d Hd He). lia.
Qed.

Definition has_all_authority (g : fleetGroupState) (actor : string) : Prop :=
  exists a, g_Agents g !! actor = Some a /\ a_Authority a = FleetAuthorityAll.

Lemma authorized_iff g actor subject :
  Tree (parents (g_Agents g)) ->
  authorized g actor subject = true <->
  actor = FleetOwner \/ actor = subject \/ has_all_authority g actor
  \/ Descends (parents (g_Agents g)) subject actor.
Proof.
  intros Ht. unfold authorized, has_all_authority. case_decide as Hd.
  { split; [tauto|done]. }
  destruct (g_Agents g !! actor) as [a|] eqn:E.
  - case_decide as Ha; [naive_solver|]. rewrite fleetDescends_iff by done. naive_solver.
  - rewrite fleetDescends_iff by done. naive_solver.
Qed.

(** ** Preserving the tree *)

Lemma Depth_insert_fresh ps n p m d :
  ps !! n = None -> Depth ps m d -> Depth (<[n:=p]> ps) m d.
Proof.
  intros Hn H. induction H as [m E|m q d E H IH].
  - apply depth_root. rewrite lookup_insert_ne; congruence.
  - eapply depth_step; [|exact IH]. rewrite lookup_insert_ne; [done|congruence].
Qed.

Lemma Tree_insert ps n p :
  Tree ps -> n <> FleetOwner -> ps !! n = None ->
  p = FleetOwner \/ is_Some (ps !! p) -> Tree (<[n:=p]> ps).
Proof.
  intros [Ho Ht] Hne Hn Hp. split; [by rewrite lookup_insert_ne|].
  assert (ToOwner (<[n:=p]> ps) n) as Hnew.
  { destruct Hp as [->|[q Hq]].
    - exists 1. apply depth_root, lookup_insert_eq.
    - destruct (Ht p q Hq) as [d Hd]. exists (S d).
      eapply depth_step; [apply lookup_insert_eq|]. by apply Depth_insert_fresh. }
  intros m q Hq. destruct (decide (m = n)) as [->|Hmn]; [done|].
  rewrite lookup_insert_ne in Hq by done. destruct (Ht m q Hq) as [d Hd].
  exists d. by apply Depth_insert_fresh.
Qed.

(** What [retireState] does to the parents: the agent goes, and those it
    started answer to the owner. *)
Definition orphan (x : string) (ps : gmap string string) : gmap string string :=
  (fun p => if decide (p = x) then FleetOwner else p) <$> delete x ps.

Lemma Tree_orphan ps x : Tree ps -> Tree (orphan x ps).
Proof.
  intros [Ho Ht]. split.
  { unfold orphan. rewrite lookup_fmap. destruct (decide (FleetOwner = x)) as [<-|].
    - by rewrite lookup_delete_eq.
    - by rewrite lookup_delete_ne, Ho by congruence. }
  assert (forall m d, Depth ps m d -> m <> x -> ToOwner (orphan x ps) m) as Hgo.
  { intros m d H. induction H as [m E|m q d E H IH]; intros Hne.
    - exists 1. apply depth_root. unfold orphan. rewrite lookup_fmap, lookup_delete_ne, E by done.
      cbn. by case_decide.
    - destruct (decide (q = x)) as [->|Hq].
      + exists 1. apply depth_root. unfold orphan.
        rewrite lookup_fmap, lookup_delete_ne, E by done. cbn. by rewrite decide_True.
      + destruct (IH Hq) as [e He]. exists (S e). eapply depth_step; [|exact He].
        unfold orphan. rewrite lookup_fmap, lookup_delete_ne, E by done. cbn.
        by rewrite decide_False. }
  intros m p Hp. unfold orphan in Hp. rewrite lookup_fmap in Hp.
  destruct (decide (m = x)) as [->|Hne]; [by rewrite lookup_delete_eq in Hp|].
  rewrite lookup_delete_ne in Hp by done. destruct (ps !! m) as [q|] eqn:E; [|done].
  destruct (Ht m q E) as [d Hd]. by apply (Hgo m d).
Qed.

(** Removing an agent nobody names as a parent. *)
Lemma Tree_delete_leaf ps x :
  Tree ps -> (forall m, ps !! m <> Some x) -> Tree (delete x ps).
Proof.
  intros [Ho Ht] Hleaf. split; [by rewrite lookup_delete_None; right|].
  assert (forall m d, Depth ps m d -> m <> x -> Depth (delete x ps) m d) as Hgo.
  { intros m d H. induction H as [m E|m q d E H IH]; intros Hne.
    - apply depth_root. by rewrite lookup_delete_ne.
    - eapply depth_step; [by rewrite lookup_delete_ne|]. apply IH. intros ->. by apply (Hleaf m). }
  intros m p Hp. destruct (decide (m = x)) as [->|Hne]; [by rewrite lookup_delete_eq in Hp|].
  rewrite lookup_delete_ne in Hp by done. destruct (Ht m p Hp) as [d Hd]. exists d. by apply Hgo.
Qed.

(** ** Choosing tools *)

Lemma choose_loop_spec requested may chosen t :
  choose_loop requested may chosen = inl t ->
  NoDup chosen -> chosen ⊆ may ->
  NoDup t /\ t ⊆ may /\ (forall x, x ∈ t <-> x ∈ chosen \/ x ∈ requested)
  /\ requested ⊆ allFleetTools.
Proof.
  revert chosen. induction requested as [|n rest IH]; intros chosen; cbn [choose_loop].
  { intros [= <-] Hnd Hsub. split_and!; try done; set_solver. }
  destruct (contains allFleetTools n) eqn:E1; [|done]. cbn.
  destruct (contains may n) eqn:E2; [|done]. cbn.
  apply contains_spec in E1, E2. intros H Hnd Hsub.
  destruct (contains chosen n) eqn:E3.
  - apply contains_spec in E3. apply IH in H as (? & ? & Heq & ?); [|done|done].
    split_and!; [done|done| |set_solver]. intros x. rewrite Heq. set_solver.
  - assert (n ∉ chosen) as Hn by (intros Hin%contains_spec; congruence).
    apply IH in H as (? & ? & Heq & ?).
    + split_and!; [done|done| |set_solver]. intros x. rewrite Heq. set_solver.
    + apply list.NoDup_app. split_and!; [done|set_solver|apply NoDup_singleton].
    + set_solver.
Qed.

Lemma chooseTools_subset requested may t : chooseTools requested may = inl t -> t ⊆ may.
Proof.
  destruct requested as [r|]; cbn; [|by intros [= <-]].
  intros H. apply choose_loop_spec in H as (_ & ? & _); [done|constructor|set_solver].
Qed.
