(* ===== verification/FleetLog.v ===== *)
(** * FleetLog: a fleet's event log

    Models [eventLocked] and [boundFleetText] of [fleet.go] and [fleet_log.go]:
    appending an event, the ring kept in memory, opening a log file whose last
    write a crash may have cut short, and the size-bounded reads. The JSON
    encoding of an event is a parameter. *)

From S2P Require Import Prelude GoLib FleetNames FleetTypes.
From Stdlib Require Import Ascii.

(** ** Appending *)

Definition boundFleetText (text : string) : string :=
  if (Z.of_nat (len text) <=? fleetMaxText)%Z then text
  else take_bytes (Z.to_nat fleetMaxText) text +:+ nl +:+ "[truncated by Claudia]".

(** Keep the last [fleetEventRing] events. *)
Definition ring (l : list FleetEvent) : list FleetEvent :=
  if (fleetEventRing <? length l)%nat then drop (length l - fleetEventRing) l else l.

(** [encoding/json] refuses a float that is NaN or infinite. *)
Definition f64_encodable (x : float64) : bool :=
  match x with SpecFloat.S754_nan | SpecFloat.S754_infinity _ => false | _ => true end.
Definition result_encodable (r : FleetCheckResult) : bool :=
  match cr_Score r with Some s => f64_encodable s | None => true end
  && f64_encodable (cr_Seconds r).
Definition event_encodable (e : FleetEvent) : bool :=
  match e_Check e with Some r => result_encodable r | None => true end.

(** An event that does not encode is numbered and kept in memory, and its
    line is not written. *)
Definition append_event (now : Time) (e : FleetEvent) (log : fleetLog) : fleetLog :=
  let seq := (l_seq log + 1)%N in
  let e := e <| e_Seq := seq |> <| e_Text ::= boundFleetText |>
             <| e_Cause ::= boundFleetText |> <| e_At := now |> in
  MkLog seq (if event_encodable e then l_file log ++ [e] else l_file log)
    (ring (l_recent log ++ [e])).

(** ** Opening a log file *)

Section File.
(** [json.Unmarshal] of a line and the length of [json.Marshal] of an event. *)
Context (unmarshal : string -> option FleetEvent) (marshal : FleetEvent -> string).

(** [reader.ReadBytes('\n')]: a line with its newline and the rest, or
    end of file. *)
Fixpoint read_line (s : string) : option (string * string) :=
  match s with
  | EmptyString => None
  | String a s' =>
    if Ascii.eqb a (byte 10) then Some (String a "", s')
    else match read_line s' with
         | Some (l, r) => Some (String a l, r)
         | None => None
         end
  end.

(** [scanFleetLog]: the whole events, each with the offset past it, or the
    offset where the log is damaged. [fuel] bounds the number of lines. *)
Fixpoint scanFleetLog (fuel : nat) (offset : nat) (content : string)
    : list (FleetEvent * nat) + nat :=
  match fuel with
  | O => inl []
  | S fuel' =>
    match read_line content with
    | None => inl []
    | Some (line, rest) =>
      let offset := (offset + len line)%nat in
      match unmarshal line with
      | None => inr offset
      | Some e =>
        match scanFleetLog fuel' offset rest with
        | inl es => inl ((e, offset) :: es)
        | inr off => inr off
        end
      end
    end
  end.

Definition open_visit (acc : fleetLog * nat) (v : FleetEvent * nat) : fleetLog * nat :=
  let '(log, _) := acc in
  let '(e, end_) := v in
  let recent := l_recent log ++ [e] in
  (MkLog (e_Seq e) (l_file log ++ [e])
     (if (fleetEventRing <? length recent)%nat then tail recent else recent), end_).

(** [openLogLocked]: the log and the offset the file is truncated to, or the
    offset of the damage. *)
Definition openLogLocked (content : string) : (fleetLog * nat) + nat :=
  match scanFleetLog (S (len content)) 0 content with
  | inl es => inl (foldl open_visit (MkLog 0 [] [], 0%nat) es)
  | inr off => inr off
  end.

(** ** Reading *)

(** [fleetEventBatch] with [take]: the events that fit one read. *)
Fixpoint take_loop (events : list FleetEvent) (size : Z) (l : list FleetEvent)
    : list FleetEvent :=
  match l with
  | [] => events
  | e :: l' =>
    let raw := Z.of_nat (len (marshal e)) in
    if (0 <? length events)%nat && (fleetReadBytes <? size + raw)%Z then events
    else take_loop (events ++ [e]) (size + raw) l'
  end.

Definition after (seq : N) (e : FleetEvent) : bool := (seq <? e_Seq e)%N.

(** [recentAfter]: [None] when the reader is behind the ring. *)
Definition recentAfter (l : fleetLog) (seq : N) : option (list FleetEvent) :=
  if (l_seq l <=? seq)%N then Some []
  else match l_recent l with
       | [] => None
       | e :: _ =>
         if (seq + 1 <? e_Seq e)%N then None
         else Some (take_loop [] 0 (List.filter (after seq) (l_recent l)))
       end.

Definition scanFleetEvents (l : fleetLog) (seq : N) : list FleetEvent :=
  take_loop [] 0 (List.filter (after seq) (l_file l)).

(** One pass of [Read]: the events after [seq], from memory or from the file;
    none means the reader waits. *)
Definition read_log (l : fleetLog) (seq : N) : list FleetEvent :=
  match recentAfter l seq with
  | Some events => events
  | None => scanFleetEvents l seq
  end.
End File.

(* ------------------------------------------------------------------ *)
(** ** The log invariant *)

(** Sequence numbers run from [base + 1] without a gap. *)
Definition numbered (base : N) (l : list FleetEvent) : Prop :=
  forall i e, l !! i = Some e -> e_Seq e = (base + N.of_nat i + 1)%N.

Record LogInv (l : fleetLog) : Prop := {
  log_numbered : numbered 0 (l_file l);
  log_seq : l_seq l = N.of_nat (length (l_file l));
  log_recent : l_recent l = drop (length (l_file l) - fleetEventRing) (l_file l) }.

Lemma numbered_app base l e :
  numbered base l -> e_Seq e = (base + N.of_nat (length l) + 1)%N -> numbered base (l ++ [e]).
Proof.
  intros H He i x. rewrite lookup_app. destruct (l !! i) eqn:E; [intros [= <-]; by apply H|].
  apply lookup_ge_None in E. intros Hx. apply list_lookup_singleton_Some in Hx as [Hi <-].
  rewrite He. f_equal. lia.
Qed.

Lemma numbered_drop base l k : numbered base l -> numbered (base + N.of_nat k) (drop k l).
Proof. intros H i x. rewrite lookup_drop. intros ->%H. lia. Qed.

Lemma ring_drop l e :
  ring (drop (length l - fleetEventRing) l ++ [e]) =
  drop (length (l ++ [e]) - fleetEventRing) (l ++ [e]).
Proof.
  assert (fleetEventRing > 0) as Hpos by (unfold fleetEventRing; lia).
  unfold ring. generalize dependent fleetEventRing. intros R HR.
  rewrite !length_app, length_drop. cbn [length].
  destruct (R <? length l - (length l - R) + 1)%nat eqn:E.
  - apply Nat.ltb_lt in E. rewrite <-drop_app_le by lia. rewrite drop_drop. f_equal. lia.
  - apply Nat.ltb_ge in E. rewrite <-drop_app_le by lia. f_equal. lia.
Qed.

Lemma LogInv_empty : LogInv (MkLog 0 [] []).
Proof. split; [by intros [|i] e|done|done]. Qed.

Lemma LogInv_append now e l :
  event_encodable e = true -> LogInv l -> LogInv (append_event now e l).
Proof.
  intros He [Hn Hs Hr]. unfold append_event.
  replace (event_encodable _) with true by (symmetry; exact He). split; cbn -[ring fleetEventRing].
  - apply numbered_app; [done|]. cbn. rewrite Hs. lia.
  - rewrite Hs, length_app. cbn. lia.
  - rewrite Hr. apply ring_drop.
Qed.

(** ** Reads *)

Lemma filter_after base seq l :
  numbered base l -> (base <= seq)%N ->
  List.filter (after seq) l = drop (N.to_nat (seq - base)) l.
Proof.
  revert base. induction l as [|e l IH]; intros base Hn Hb; [by rewrite drop_nil|].
  assert (e_Seq e = base + 1)%N as He by (rewrite (Hn 0%nat e eq_refl); lia).
  assert (numbered (base + 1) l) as Hn'.
  { intros i x Hx. rewrite (Hn (S i) x Hx). lia. }
  cbn. unfold after at 1. rewrite He. destruct (seq <? base + 1)%N eqn:E.
  - apply N.ltb_lt in E. replace (N.to_nat (seq - base)) with 0%nat by lia.
    cbn. f_equal. clear -Hn' E. revert base Hn' E.
    induction l as [|x l IH]; intros base Hn E; [done|]. cbn. unfold after at 1.
    rewrite (Hn 0%nat x eq_refl). rewrite (proj2 (N.ltb_lt _ _)) by lia. f_equal.
    apply (IH (base + 1)%N); [|lia]. intros i y Hy. rewrite (Hn (S i) y Hy). lia.
  - apply N.ltb_ge in E. rewrite (IH (base + 1)%N) by (done || lia).
    replace (N.to_nat (seq - base)) with (S (N.to_nat (seq - (base + 1)))) by lia. done.
Qed.

Section Reads.
Context (marshal : FleetEvent -> string).

Fixpoint encoded_size (l : list FleetEvent) : Z :=
  match l with
  | [] => 0
  | e :: l' => Z.of_nat (len (marshal e)) + encoded_size l'
  end.

Lemma encoded_size_app l1 l2 :
  encoded_size (l1 ++ l2) = (encoded_size l1 + encoded_size l2)%Z.
Proof. induction l1 as [|e l IH]; cbn; [done|]. rewrite IH. lia. Qed.

Lemma take_loop_spec events l :
  exists n, take_loop marshal events (encoded_size events) l = events ++ take n l
  /\ (events = [] -> l <> [] -> (0 < n)%nat)
  /\ (encoded_size (events ++ take n l) <= fleetReadBytes
      \/ (length (events ++ take n l) <= 1)%nat
      \/ take n l = [])%Z.
Proof.
  revert events. induction l as [|e l IH]; intros events.
  { exists 0%nat. cbn. rewrite app_nil_r. split_and!; try done. auto. }
  cbn [take_loop]. destruct ((0 <? length events)%nat && _) eqn:E.
  { exists 0%nat. cbn. rewrite app_nil_r. split_and!; auto.
    intros ->. by cbn in E. }
  destruct (IH (events ++ [e])) as (n & Hn & _ & Hsz).
  exists (S n). cbn [take].
  replace (encoded_size events + Z.of_nat (len (marshal e)))%Z
    with (encoded_size (events ++ [e])) by (rewrite encoded_size_app; cbn; lia).
  rewrite Hn, <-app_assoc. split_and!; [done|lia|].
  rewrite <-app_assoc in Hsz. cbn in Hsz.
  destruct Hsz as [Hsz|[Hsz|Hsz]]; [by left|by right; left|].
  rewrite Hsz, encoded_size_app, length_app. cbn.
  apply andb_false_iff in E as [E|E].
  - apply Nat.ltb_ge in E. right; left. lia.
  - apply Z.ltb_ge in E. left. lia.
Qed.

Lemma batch_spec l :
  exists n, take_loop marshal [] 0 l = take n l /\ (l <> [] -> (0 < n)%nat)
  /\ (encoded_size (take n l) <= fleetReadBytes \/ (length (take n l) <= 1)%nat)%Z.
Proof.
  destruct (take_loop_spec [] l) as (n & Hn & Hp & Hs). exists n.
  split_and!; [done|auto|]. destruct Hs as [?|[?|E]]; [by left|by right|].
  right. cbn in E. rewrite E. cbn. lia.
Qed.

(** Whatever serves the read, it returns the events right after [seq]. *)
Lemma read_log_spec l seq :
  LogInv l -> (seq < l_seq l)%N ->
  exists n, (0 < n)%nat /\ read_log marshal l seq = take n (drop (N.to_nat seq) (l_file l)).
Proof.
  intros [Hn Hs Hr] Hlt. unfold read_log, recentAfter.
  rewrite (proj2 (N.leb_gt _ _)) by done.
  assert (forall k, (k <= N.to_nat seq)%nat ->
    exists n, (0 < n)%nat /\
      take_loop marshal [] 0 (List.filter (after seq) (drop k (l_file l))) =
      take n (drop (N.to_nat seq) (l_file l))) as Hgo.
  { intros k Hk. rewrite (filter_after (N.of_nat k)); [|by apply (numbered_drop 0)|lia].
    rewrite drop_drop. replace (k + N.to_nat (seq - N.of_nat k))%nat with (N.to_nat seq) by lia.
    destruct (batch_spec (drop (N.to_nat seq) (l_file l))) as (n & -> & Hp & _).
    exists n. split; [|done]. apply Hp. intros E%(f_equal length).
    rewrite length_drop in E. cbn in E. lia. }
  destruct (l_recent l) as [|e r] eqn:Er; [apply (Hgo 0%nat); lia|].
  destruct (seq + 1 <? e_Seq e)%N eqn:E; [apply (Hgo 0%nat); lia|].
  apply N.ltb_ge in E. rewrite Hr. apply Hgo. symmetry in Hr.
  pose proof (f_equal (fun x => x !! 0%nat) Hr) as H0. cbn in H0.
  rewrite lookup_drop in H0. apply Hn in H0. lia.
Qed.

Lemma read_log_wait l seq : (l_seq l <= seq)%N -> read_log marshal l seq = [].
Proof. intros H. unfold read_log, recentAfter. by rewrite (proj2 (N.leb_le _ _)). Qed.
End Reads.

(** ** Opening after a crash *)

Fixpoint no_newline (s : string) : bool :=
  match s with
  | EmptyString => true
  | String a s' => negb (Ascii.eqb a (byte 10)) && no_newline s'
  end.

Lemma read_line_none s : no_newline s = true -> read_line s = None.
Proof.
  induction s as [|a s IH]; [done|]. cbn. destruct (Ascii.eqb a (byte 10)); [done|].
  intros H. by rewrite IH.
Qed.

Lemma read_line_some s r :
  no_newline s = true -> read_line (s +:+ nl +:+ r) = Some (s +:+ nl, r).
Proof.
  induction s as [|a s IH]; [done|]. cbn -[nl]. rewrite !str_app_cons. cbn -[nl].
  destruct (Ascii.eqb a (byte 10)); [done|]. intros H. by rewrite IH.
Qed.

Section Open.
Context (unmarshal : string -> option FleetEvent) (marshal : FleetEvent -> string).

(** What [encoding/json] documents, for an event the kernel wrote: its
    encoding is one line, which decodes to the event. *)
Definition json_line (e : FleetEvent) : Prop :=
  no_newline (marshal e) = true /\ unmarshal (marshal e +:+ nl) = Some e.

Fixpoint lines (es : list FleetEvent) : string :=
  match es with
  | [] => ""
  | e :: es' => marshal e +:+ nl +:+ lines es'
  end.

Lemma scan_lines es torn fuel off :
  no_newline torn = true -> Forall json_line es -> (length es < fuel)%nat ->
  exists offs, scanFleetLog unmarshal fuel off (lines es +:+ torn) = inl (zip es offs)
    /\ length offs = length es
    /\ default off (list.last offs) = (off + len (lines es))%nat.
Proof.
  intros Ht. revert fuel off.
  induction es as [|e es IH]; intros [|fuel] off Hj Hf; cbn in Hf; try lia.
  - exists []. cbn. rewrite str_app_nil_l, read_line_none by done. split_and!; [done|done|lia].
  - apply list.Forall_cons in Hj as [[Hj1 Hj2] Hj]. cbn [lines scanFleetLog]. rewrite <-!str_app_assoc.
    rewrite read_line_some, Hj2 by done.
    destruct (IH fuel (off + len (marshal e +:+ nl))%nat) as (offs & Hs & Hl & Hd); [done|lia|].
    exists ((off + len (marshal e +:+ nl))%nat :: offs).
    rewrite Hs. split_and!; [done|cbn; by f_equal|].
    rewrite last_cons. cbn [lines]. rewrite !str_app_len. rewrite str_app_len in Hd.
    destruct (list.last offs); cbn -[nl String.length] in *; lia.
Qed.

Lemma tail_ring (l : list FleetEvent) (e : FleetEvent) (f : list FleetEvent) :
  l = drop (length f - fleetEventRing) f ->
  (if (fleetEventRing <? length (l ++ [e]))%nat then tail (l ++ [e]) else l ++ [e]) =
  drop (length (f ++ [e]) - fleetEventRing) (f ++ [e]).
Proof.
  intros ->. rewrite <-ring_drop. unfold ring.
  rewrite !length_app, length_drop. cbn [length].
  destruct (fleetEventRing <? _)%nat eqn:E; [|done]. apply Nat.ltb_lt in E.
  replace (length f - (length f - fleetEventRing) + 1 - fleetEventRing)%nat with 1%nat
    by (unfold fleetEventRing in *; lia).
  by destruct (drop _ _ ++ [e]).
Qed.

Lemma open_visits (es : list FleetEvent) offs log off :
  length offs = length es ->
  l_recent log = drop (length (l_file log) - fleetEventRing) (l_file log) ->
  foldl open_visit (log, off) (zip es offs) =
    (MkLog (default (l_seq log) (e_Seq <$> list.last es)) (l_file log ++ es)
       (drop (length (l_file log ++ es) - fleetEventRing) (l_file log ++ es)),
     default off (list.last offs)).
Proof.
  revert log off offs. induction es as [|e es IH]; intros log off [|o offs] Hl Hr; try done.
  - cbn. rewrite app_nil_r, <-Hr. by destruct log.
  - cbn [zip foldl]. cbn in Hl.
    unfold open_visit at 2. rewrite IH; [|lia|by cbn; apply tail_ring].
    cbn [l_file l_seq]. rewrite <-!app_assoc. cbn [app].
    f_equal; [f_equal|]; rewrite last_cons; [by destruct (list.last es)|by destruct (list.last offs)].
Qed.

(** Opening recovers every whole event; a torn last line is cut off. *)
Lemma open_log_recovers es torn :
  no_newline torn = true -> Forall json_line es -> numbered 0 es ->
  exists log, openLogLocked unmarshal (lines es +:+ torn) = inl (log, len (lines es))
    /\ l_file log = es /\ LogInv log.
Proof.
  intros Ht Hj Hn. unfold openLogLocked.
  assert (length es <= len (lines es))%nat as Hlen.
  { clear. induction es as [|e es IH]; [done|]. cbn [lines].
    rewrite !str_app_len. cbn. lia. }
  destruct (scan_lines es torn (S (len (lines es +:+ torn))) 0 Ht Hj) as (offs & -> & Hl & Hd).
  { rewrite str_app_len. lia. }
  rewrite open_visits by done. eexists. split; [|split].
  - by rewrite Hd.
  - done.
  - split; cbn -[fleetEventRing]; [done| |done].
    destruct es as [|e es] using rev_ind; [done|]. rewrite last_snoc. cbn.
    rewrite (Hn (length es) e) by (by rewrite lookup_app_r, Nat.sub_diag by lia).
    rewrite length_app. cbn. lia.
Qed.
End Open.
