(* ===== verification/FleetBudget.v ===== *)
(** * FleetBudget: what a subtree may spend

    Models the parts of [fleet_budget.go] that act on a group alone: limits,
    what is spent, charging, and forgetting budgets nobody is under.
    [SetBudget] and [blockedLocked], which write to the log, are in
    [FleetTurn]. *)

From S2P Require Import Prelude GoLib FleetNames FleetTypes.

Definition f64_positive (x : float64) : bool := F.ltb F.zero x.

Definition budget_zero (b : FleetBudget) : bool :=
  (bl_Tokens b =? 0)%Z && (bl_Turns b =? 0)%Z && F.eqb (bl_Seconds b) F.zero.

Definition budget_validate (b : FleetBudget) : option fleet_error :=
  if (bl_Tokens b <? 0)%Z || (bl_Turns b <? 0)%Z || F.ltb (bl_Seconds b) F.zero
  then Some ErrNegativeBudget else None.

(** Names the limit reached at [now], or is empty. *)
Definition spentBy (b : fleetBudgetState) (now : Time) : string :=
  let l := b_Limits b in
  if (0 <? bl_Tokens l)%Z && (bl_Tokens l <=? b_SpentTokens b)%Z then
    "tokens " +:+ itoa (b_SpentTokens b) +:+ " of " +:+ itoa (bl_Tokens l)
  else if (0 <? bl_Turns l)%Z && (bl_Turns l <=? b_SpentTurns b)%Z then
    "turns " +:+ itoa (b_SpentTurns b) +:+ " of " +:+ itoa (bl_Turns l)
  else if f64_positive (bl_Seconds l) &&
          negb (Before now (Add (b_Started b) (seconds_to_duration (bl_Seconds l)))) then
    "time " +:+ fleetDuration (seconds_to_duration (bl_Seconds l))
  else "".

Definition newBudget (now : Time) (holder setBy : string) (limits : FleetBudget)
    (group : fleetGroupState) : fleetGroupState * string :=
  let n := (g_NextID group + 1)%N in
  let id := budget_id n in
  (group <| g_NextID := n |>
         <| g_Budgets ::= <[id := MkBudgetState holder setBy limits now 0 0 false]> |>, id).

(** Apply [f] to every budget of [ids] that exists, in order. *)
Fixpoint each_budget (f : fleetBudgetState -> fleetBudgetState) (ids : list string)
    (bs : gmap string fleetBudgetState) : gmap string fleetBudgetState :=
  match ids with
  | [] => bs
  | id :: ids' =>
    each_budget f ids' (match bs !! id with Some b => <[id := f b]> bs | None => bs end)
  end.

Definition chargeTurn (a : fleetAgentState) (group : fleetGroupState) : fleetGroupState :=
  group <| g_Budgets ::= each_budget (fun b => b <| b_SpentTurns ::= Z.add 1 |>) (a_Budgets a) |>.

Definition chargeTokens (a : fleetAgentState) (tokens : Z) (group : fleetGroupState)
    : fleetGroupState :=
  group <| g_Budgets ::=
    each_budget (fun b => b <| b_SpentTokens ::= fun n => (n + tokens)%Z |>) (a_Budgets a) |>.

Definition fleetTokens (u : Usage) : Z :=
  (InputTokens u + OutputTokens u + CacheCreationInputTokens u)%Z.

(** The identifiers of the budgets some agent is under. *)
Definition used_budgets (agents : gmap string fleetAgentState) : gset string :=
  map_fold (fun _ a s => list_to_set (a_Budgets a) ∪ s) ∅ agents.

Definition dropUnusedBudgets (group : fleetGroupState) : fleetGroupState :=
  group <| g_Budgets ::= filter (fun kv => kv.1 ∈ used_budgets (g_Agents group)) |>.

(** The first budget over [a] that is spent at [now], with its reason. *)
Fixpoint first_spent (now : Time) (ids : list string) (bs : gmap string fleetBudgetState)
    : option (string * fleetBudgetState * string) :=
  match ids with
  | [] => None
  | id :: ids' =>
    match bs !! id with
    | None => first_spent now ids' bs
    | Some b =>
      let reason := spentBy b now in
      if decide (reason = "") then first_spent now ids' bs else Some (id, b, reason)
    end
  end.

(* ------------------------------------------------------------------ *)
(** ** Lemmas *)

Lemma spentBy_turns b now :
  spentBy b now = "" -> (0 < bl_Turns (b_Limits b))%Z ->
  (b_SpentTurns b < bl_Turns (b_Limits b))%Z.
Proof.
  unfold spentBy. destruct ((0 <? _)%Z && (_ <=? b_SpentTokens b)%Z); [done|].
  destruct ((0 <? _)%Z && (_ <=? b_SpentTurns b)%Z) eqn:E; [done|].
  intros _ Hp. apply andb_false_iff in E as [E|E]; [apply Z.ltb_ge in E; lia|].
  by apply Z.leb_gt in E.
Qed.

Lemma spentBy_tokens b now :
  spentBy b now = "" -> (0 < bl_Tokens (b_Limits b))%Z ->
  (b_SpentTokens b < bl_Tokens (b_Limits b))%Z.
Proof.
  unfold spentBy. destruct ((0 <? _)%Z && (_ <=? b_SpentTokens b)%Z) eqn:E; [done|].
  intros _ Hp. apply andb_false_iff in E as [E|E]; [apply Z.ltb_ge in E; lia|].
  by apply Z.leb_gt in E.
Qed.

Lemma first_spent_None now ids bs :
  first_spent now ids bs = None <->
  forall id b, id ∈ ids -> bs !! id = Some b -> spentBy b now = "".
Proof.
  induction ids as [|i ids IH]; cbn; [set_solver|].
  destruct (bs !! i) as [b|] eqn:E.
  - case_decide as Hs.
    + rewrite IH. split.
      * intros H id b' [->|Hin]%elem_of_cons; [naive_solver|eauto].
      * intros H id b' Hin. apply H. by right.
    + split; [done|]. intros H. destruct Hs. eapply H; [by left|done].
  - rewrite IH. split; intros H id b'; [intros [->|Hin]%elem_of_cons; [congruence|eauto]|].
    intros Hin. apply H. by right.
Qed.

Lemma each_budget_dom f ids bs : dom (each_budget f ids bs) = dom bs.
Proof.
  revert bs. induction ids as [|i ids IH]; intros bs; cbn; [done|].
  rewrite IH. destruct (bs !! i) eqn:E; [|done].
  apply dom_insert_lookup_L. eauto.
Qed.

Lemma each_budget_not_in f ids bs id : id ∉ ids -> each_budget f ids bs !! id = bs !! id.
Proof.
  revert bs. induction ids as [|i ids IH]; intros bs Hn; cbn; [done|].
  apply not_elem_of_cons in Hn as [Hne Hn]. rewrite IH by done.
  destruct (bs !! i); [by rewrite lookup_insert_ne|done].
Qed.

(** With each budget named once, each is changed once. *)
Lemma each_budget_lookup f ids bs id :
  NoDup ids ->
  each_budget f ids bs !! id = (if decide (id ∈ ids) then f <$> bs !! id else bs !! id).
Proof.
  intros Hnd. revert bs. induction Hnd as [|i ids Hi Hnd IH]; intros bs; cbn; [done|].
  destruct (decide (id = i)) as [->|Hne].
  - rewrite decide_True by (by left). rewrite each_budget_not_in by done.
    destruct (bs !! i) as [b|] eqn:E; [by rewrite lookup_insert_eq|by rewrite E].
  - rewrite IH. destruct (bs !! i); rewrite ?lookup_insert_ne by done;
      repeat case_decide; set_solver.
Qed.

Lemma used_budgets_spec agents id :
  id ∈ used_budgets agents <-> exists n a, agents !! n = Some a /\ id ∈ a_Budgets a.
Proof.
  unfold used_budgets. induction agents as [|n a agents Hn IH] using map_ind.
  - rewrite map_fold_empty. split; [set_solver|]. by intros (? & ? & ? & _); simplify_map_eq.
  - rewrite map_fold_insert_L; [|set_solver|done].
    rewrite elem_of_union, elem_of_list_to_set, IH. split.
    + intros [H|(n' & a' & H & Hin)].
      * exists n, a. by rewrite lookup_insert_eq.
      * exists n', a'. rewrite lookup_insert_ne; [done|congruence].
    + intros (n' & a' & H & Hin). destruct (decide (n = n')) as [->|Hne]; simplify_map_eq; [by left|].
      right. eauto.
Qed.
