(* ===== verification/FleetDeliver.v ===== *)
(** * FleetDeliver: events, saving, delivery, expectations

    Models [deliverLocked] and what it is built from ([fleet.go]), answering
    what an agent owes, budgets that hold a turn back ([fleet_budget.go]) and
    senders' expectations ([fleet_expect.go]). Each function is one call made
    with the kernel's mutex held, at time [now]. *)

From S2P Require Import Prelude GoLib FleetNames FleetTypes FleetAuthority FleetLog FleetBudget.

(** [saveLocked] writes the state as JSON, which refuses a float that is not
    finite. *)
Definition group_encodable (g : fleetGroupState) : bool :=
  List.forallb (fun kv => result_encodable kv.2) (map_to_list (g_CheckLast g)) &&
  List.forallb (fun kv => f64_encodable (bl_Seconds (b_Limits kv.2))) (map_to_list (g_Budgets g)) &&
  List.forallb (fun kv => f64_encodable (c_TimeoutSeconds kv.2)) (map_to_list (g_Checks g)).

Definition save (fl : Fleet) : Fleet * bool :=
  if group_encodable (fl_group fl) && fl_can_save fl then (fl <| fl_saved := fl_group fl |>, true)
  else (fl, false).

(** A save whose failure is only logged. *)
Definition save_or_log (fl : Fleet) : Fleet := (save fl).1.

Definition upd_agents (f : gmap string fleetAgentState -> gmap string fleetAgentState)
    (fl : Fleet) : Fleet :=
  fl <| fl_group ::= fun g => g <| g_Agents ::= f |> |>.

(** Change the agent of this name, if there is one. *)
Definition upd_agent (name : string) (f : fleetAgentState -> fleetAgentState)
    (fl : Fleet) : Fleet :=
  upd_agents (alter f name) fl.

Definition upd_expects (f : gmap string fleetExpectState -> gmap string fleetExpectState)
    (fl : Fleet) : Fleet :=
  fl <| fl_group ::= fun g => g <| g_Expects ::= f |> |>.

Definition fl_Agents (fl : Fleet) : gmap string fleetAgentState := g_Agents (fl_group fl).

(** The keys of the kernel's [timers] map that expectations use. *)
Definition fleetExpectAccept : string := "accept".
Definition fleetExpectAnswer : string := "answer".
Definition fleetExpectKey (id which : string) : string := id +:+ "/" +:+ which.

Definition disarm (key : string) (fl : Fleet) : Fleet := fl <| fl_timers ::= delete key |>.

(** The parent, or the owner once the parent has gone. *)
Definition parentOf (fl : Fleet) (a : fleetAgentState) : string :=
  match fl_Agents fl !! a_Parent a with
  | Some _ => a_Parent a
  | None => FleetOwner
  end.

(** The current turn's messages, marked to be delivered again. *)
Definition turnMessages (a : fleetAgentState) : list FleetMessage :=
  (fun m => m <| m_Redelivered := true |>) <$> (option_list (a_Current a) ++ a_Steered a).

(** The messages steered into the turn that just ended, and what is left. *)
Definition takeSteered (a : fleetAgentState) : list FleetMessage * list FleetMessage :=
  (List.filter (fun m => negb (m_steering m)) (a_Steered a),
   List.filter m_steering (a_Steered a)).

Section Deliver.
Context {GF : GoFormat}.
Variable now : Time.

Definition event (e : FleetEvent) (fl : Fleet) : Fleet := fl <| fl_log ::= append_event now e |>.

(** [answeredLocked]: end every expectation of a message. *)
Definition answered (id : string) (fl : Fleet) : Fleet :=
  match g_Expects (fl_group fl) !! id with
  | None => fl
  | Some _ =>
    disarm (fleetExpectKey id fleetExpectAnswer)
      (disarm (fleetExpectKey id fleetExpectAccept)
         (fl <| fl_group ::= fun g => g <| g_Expects ::= delete id |> |>))
  end.

(** The head of [deliverLocked]: an ID, a time and bounded text. *)
Definition stamp_message (m : FleetMessage) (g : fleetGroupState)
    : FleetMessage * fleetGroupState :=
  let mg :=
    if decide (m_ID m = "") then
      let n := (g_NextID g + 1)%N in
      (m <| m_ID := request_id n |>, g <| g_NextID := n |>)
    else (m, g) in
  let m := mg.1 in
  let m := if IsZero (m_SentAt m) then m <| m_SentAt := now |> else m in
  (m <| m_Text ::= boundFleetText |>, mg.2).

(** [deliverLocked] up to its recursive call: the state, the message as
    delivered, and whether its target is gone. *)
Definition deliver_once (m : FleetMessage) (fl : Fleet) : Fleet * FleetMessage * bool :=
  let mg := stamp_message m (fl_group fl) in
  let m := mg.1 in
  let fl := fl <| fl_group := mg.2 |> in
  let fl :=
    if decide (m_Kind m = FleetResponse /\ m_InReplyTo m <> "")
    then answered (m_InReplyTo m) fl else fl in
  let fl := event ((new_event FleetEventMessage) <| e_Message := Some m |>) fl in
  if decide (m_To m = FleetOwner) then (fl, m, false)
  else
    match fl_Agents fl !! m_To m with
    | Some a =>
      if a_Stopped a then (fl, m, true)
      else (upd_agents <[m_To m := a <| a_Inbox ::= fun q => q ++ [m] |>]> fl, m, false)
    | None => (fl, m, true)
    end.

(** [deliverLocked]. The recursive call delivers a response, which makes no
    further call. *)
Definition deliver (m : FleetMessage) (fl : Fleet) : Fleet :=
  let r := deliver_once m fl in
  let fl := r.1.1 in
  let m := r.1.2 in
  if r.2 && bool_decide (m_Kind m = FleetRequest) then
    (deliver_once (new_message FleetResponse (m_To m) (m_From m) (m_ID m)
                     ("agent " +:+ m_To m +:+ " is gone")) fl).1.1
  else fl.

(** Fail every request of [owed]. *)
Definition answer_one (name failure : string) (fl : Fleet) (m : FleetMessage) : Fleet :=
  if decide (m_Kind m = FleetRequest) then
    deliver (new_message FleetResponse name (m_From m) (m_ID m) failure) fl
  else fl.

(** [answerOwedLocked], for an agent that has left the group: the state, and
    whether its parent was among those told. *)
Definition answerOwed (a : fleetAgentState) (failure : string) (fl : Fleet) : Fleet * bool :=
  let owed := turnMessages a ++ a_Inbox a in
  (foldl (answer_one (a_Name a) failure) fl owed,
   List.existsb (fun m => bool_decide (m_Kind m = FleetRequest) &&
                          bool_decide (m_From m = a_Parent a)) owed).

(** [routeReplyLocked]: turn text as the agent's response. *)
Definition routeReply (a : fleetAgentState) (m : FleetMessage) (text : string) (fl : Fleet)
    : Fleet :=
  if decide (m_Kind m = FleetRequest) then
    deliver (new_message FleetResponse (a_Name a) (m_From m) (m_ID m)
               (if silent text then "(no reply)" else text)) fl
  else if silent text then fl
  else deliver (new_message FleetResponse (a_Name a) (parentOf fl a) "" text) fl.

(** [blockedLocked]: must [a]'s next turn wait for a budget? The owner hears
    once per budget. *)
Definition blocked (a : fleetAgentState) (fl : Fleet) : Fleet * bool :=
  match first_spent now (a_Budgets a) (g_Budgets (fl_group fl)) with
  | None => (fl, false)
  | Some (id, b, reason) =>
    if b_Notified b then (fl, true)
    else
      let fl := fl <| fl_group ::= fun g =>
                  g <| g_Budgets ::= <[id := b <| b_Notified := true |>]> |> |> in
      let fl := deliver (new_message FleetResponse FleetBudgetSender FleetOwner ""
        ("Budget " +:+ id +:+ ", on agent " +:+ b_Holder b +:+ "'s tree, is spent (" +:+ reason
         +:+ "). Agents under it take no new turns, and messages to them wait, until the owner raises budget "
         +:+ id +:+ ".")) fl in
      (save_or_log fl, true)
  end.

(** ** Expectations *)

(** The deadline a wait for [max(at - now, 0)] ends at. *)
Definition deadline (at_ : Time) : Time := Add now (Z.max (Sub at_ now) 0).

Definition armExpect (id which : string) (at_ : Time) (fl : Fleet) : Fleet :=
  fl <| fl_timers ::= <[fleetExpectKey id which := deadline at_]> |>.

Definition armExpects (id : string) (e : fleetExpectState) (fl : Fleet) : Fleet :=
  let fl := match x_AcceptBy e with
            | Some at_ => armExpect id fleetExpectAccept at_ fl
            | None => fl
            end in
  match x_AnswerBy e with
  | Some at_ => armExpect id fleetExpectAnswer at_ fl
  | None => fl
  end.

Definition expect (m : FleetMessage) (accept answer : Duration) (fl : Fleet) : Fleet :=
  if (accept <=? 0)%Z && (answer <=? 0)%Z then fl
  else
    let e := MkExpect (m_From m) (m_To m) (m_Kind m) now
               (if (0 <? accept)%Z then Some (Add now accept) else None)
               (if (0 <? answer)%Z then Some (Add now answer) else None) None in
    armExpects (m_ID m) e
      (fl <| fl_group ::= fun g => g <| g_Expects ::= <[m_ID m := e]> |> |>).

(** [acceptedLocked]: a message was taken up, by a turn or a steer. *)
Definition accepted (id : string) (fl : Fleet) : Fleet :=
  match g_Expects (fl_group fl) !! id with
  | None => fl
  | Some e =>
    match x_Accepted e with
    | Some _ => fl
    | None =>
      let e := e <| x_Accepted := Some now |> <| x_AcceptBy := None |> in
      let fl := disarm (fleetExpectKey id fleetExpectAccept) fl in
      fl <| fl_group ::= fun g => g <| g_Expects ::=
           match x_AnswerBy e with
           | Some _ => <[id := e]>
           | None => delete id
           end |> |>
    end
  end.

(** [dropExpectsOfLocked]: forget what a departing agent was waiting for. *)
Definition dropExpectsOf (name : string) (fl : Fleet) : Fleet :=
  foldl (fun fl kv => if decide (x_From kv.2 = name) then answered kv.1 fl else fl) fl
    (map_to_list (g_Expects (fl_group fl))).

(** [whereLocked]: where a message stands. Asking whether a budget holds the
    agent back can tell the owner. *)
Definition where_ (id : string) (e : fleetExpectState) (fl : Fleet) : Fleet * string :=
  match fl_Agents fl !! x_To e with
  | None => (fl, x_To e +:+ " is gone.")
  | Some a =>
    let since := fleetDuration (Sub now (a_CurrentSince a)) in
    let turn := match a_Current a with
                | Some c => "its current turn, on " +:+ m_ID c +:+ " from " +:+ m_From c
                              +:+ ", has run " +:+ since
                | None => ""
                end in
    if bool_decide (m_ID <$> a_Current a = Some id) then
      (fl, a_Name a +:+ " took it up " +:+ since +:+ " ago and is still working on it.")
    else if List.existsb (fun m => bool_decide (m_ID m = id)) (a_Steered a) then
      (fl, "It was steered into " +:+ a_Name a +:+ "'s turn, which has run " +:+ since
             +:+ " and is still going.")
    else
      match index (fun m => bool_decide (m_ID m = id)) (a_Inbox a) with
      | Some i =>
        let place := "It is number " +:+ itoa (Z.of_nat i + 1) +:+ " in " +:+ a_Name a
                       +:+ "'s queue" in
        if negb (bool_decide (turn = "")) then (fl, place +:+ ", and " +:+ turn +:+ ".")
        else if bool_decide (fl_running fl !! a_Name a = None) then
          (fl, place +:+ ", and " +:+ a_Name a +:+ " is not running yet.")
        else
          let r := blocked a fl in
          (r.1, if r.2 then place +:+ ", and a budget over " +:+ a_Name a
                              +:+ " is spent, so it takes no turns."
                else place +:+ ".")
      | None =>
        match x_Accepted e with
        | Some t => (fl, a_Name a +:+ " took it up " +:+ fleetDuration (Sub now t) +:+ " ago.")
        | None => (fl, "")
        end
      end
  end.

(** An expectation whose deadline [which] passed. *)
Definition missed (which : string) (e : fleetExpectState) : fleetExpectState :=
  if decide (which = fleetExpectAccept) then e <| x_AcceptBy := None |>
  else e <| x_AnswerBy := None |>.

(** With no deadline left it is forgotten. *)
Definition forget_done (id : string) (e : fleetExpectState) (fl : Fleet) : Fleet :=
  match x_AcceptBy e, x_AnswerBy e with
  | None, None => upd_expects (delete id) fl
  | _, _ => fl
  end.

Definition missed_text (id which : string) (e : fleetExpectState) : string :=
  let age := fleetDuration (Sub now (x_SentAt e)) in
  if decide (which = fleetExpectAccept) then
    "Your " +:+ x_Kind e +:+ " " +:+ id +:+ " to " +:+ x_To e +:+ " has not been taken up "
    +:+ age +:+ " after you sent it, which is longer than you expected."
  else
    "Your request " +:+ id +:+ " to " +:+ x_To e +:+ " has no answer " +:+ age
    +:+ " after you sent it, which is longer than you expected.".

(** [expectMissedLocked]: tell the sender, once, that an expectation passed. *)
Definition expectMissed (id which : string) (e : fleetExpectState) (fl : Fleet) : Fleet :=
  let text := missed_text id which e in
  let e := missed which e in
  let r := where_ id e (upd_expects <[id := e]> fl) in
  let text := if decide (r.2 = "") then text else text +:+ " " +:+ r.2 in
  let text := text +:+ " You can keep waiting, ask, expedite it if you have authority over "
                +:+ x_To e +:+ ", or change course." in
  deliver (new_message FleetNotice FleetClockSender (x_From e) "" text) (forget_done id e r.1).

(** The waiter of [armExpectLocked] once its deadline has passed. *)
Definition expect_fires (id which : string) (fl : Fleet) : Fleet :=
  let key := fleetExpectKey id which in
  match fl_timers fl !! key with
  | None => fl
  | Some _ =>
    let fl := disarm key fl in
    match g_Expects (fl_group fl) !! id with
    | None => fl
    | Some e => save_or_log (expectMissed id which e fl)
    end
  end.
End Deliver.
