(* ===== verification/FleetTimer.v ===== *)
(** * FleetTimer: sending, scheduling and firing

    Models [fleet_timer.go]: [send], [Cancel], the timer table and the one
    firing rule. Each function runs with the kernel's mutex held, at time
    [now]. *)

From S2P Require Import Prelude GoLib FleetNames FleetTypes FleetAuthority FleetLog FleetBudget FleetDeliver.

(** [FleetSendArgs]. [s_At] is the zero time when unset. *)
Record FleetSendArgs := MkSend {
  s_From : string; s_To : string; s_Kind : string; s_Text : string;
  s_After : Duration; s_At : Time; s_Every : Duration;
  s_AcceptWithin : Duration; s_AnswerWithin : Duration; s_Mode : string }.

#[export] Instance eta_send : Eta FleetSendArgs := fun s =>
  MkSend (s_From s) (s_To s) (s_Kind s) (s_Text s) (s_After s) (s_At s) (s_Every s)
    (s_AcceptWithin s) (s_AnswerWithin s) (s_Mode s).
#[export] Hint Extern 1 (@Setter FleetSendArgs _ _) => setter_of eta_send : typeclass_instances.

Definition upd_timers (f : gmap string fleetTimerState -> gmap string fleetTimerState)
    (fl : Fleet) : Fleet :=
  fl <| fl_group ::= fun g => g <| g_Timers ::= f |> |>.

Definition fl_Timers (fl : Fleet) : gmap string fleetTimerState := g_Timers (fl_group fl).

Definition dropTimer (id : string) (fl : Fleet) : Fleet := disarm id (upd_timers (delete id) fl).

Definition nextID (g : fleetGroupState) : fleetGroupState * string :=
  let n := (g_NextID g + 1)%N in (g <| g_NextID := n |>, request_id n).
Definition nextTimerID (g : fleetGroupState) : fleetGroupState * string :=
  let n := (g_NextID g + 1)%N in (g <| g_NextID := n |>, timer_id n).

(** The request is scheduled. *)
Definition send_scheduled (s : FleetSendArgs) : bool :=
  (0 <? s_After s)%Z || negb (IsZero (s_At s)) || (0 <? s_Every s)%Z.

Definition send_kind (s : FleetSendArgs) : string :=
  if decide (s_Kind s = "") then FleetRequest else s_Kind s.

(** The checks of [send] in the order the code makes them; [None] lets the
    message go. *)
Definition send_check (g : fleetGroupState) (s : FleetSendArgs) : option fleet_error :=
  let kind := send_kind s in
  let expecting := (0 <? s_AcceptWithin s)%Z || (0 <? s_AnswerWithin s)%Z in
  let mode := negb (bool_decide (s_Mode s = "")) in
  if negb (bool_decide (s_To s = FleetOwner)) && bool_decide (g_Agents g !! s_To s = None)
  then Some (ErrNoAgent (s_To s))
  else if negb (bool_decide (kind = FleetRequest)) && negb (bool_decide (kind = FleetNotice))
  then Some (ErrBadKind kind)
  else if (s_After s <? 0)%Z || (s_Every s <? 0)%Z then Some ErrNegativeDelay
  else if (0 <? s_After s)%Z && negb (IsZero (s_At s)) then Some ErrDelayAndTime
  else if (0 <? s_Every s)%Z && (s_Every s <? fleetMinEvery)%Z then Some ErrRepeatTooShort
  else if (0 <? s_Every s)%Z && negb (authorized g (s_From s) (s_To s))
  then Some (ErrNoAuthorityToRepeat (s_From s) (s_To s))
  else if bool_decide (s_From s = s_To s) && negb (send_scheduled s) then Some ErrSelfNeedsDelay
  else if (g_MaxMessages g <=? g_Sent g)%Z then Some (ErrMessageLimit (g_MaxMessages g))
  else if (s_AcceptWithin s <? 0)%Z || (s_AnswerWithin s <? 0)%Z then Some ErrNegativeExpectation
  else if (expecting || mode) && send_scheduled s then Some ErrExpectScheduled
  else if (expecting || mode) && bool_decide (s_To s = FleetOwner) then Some ErrExpectOwner
  else if (expecting || mode) && (0 <? s_AnswerWithin s)%Z
          && negb (bool_decide (kind = FleetRequest)) then Some ErrExpectNotRequest
  else if mode && negb (bool_decide (s_Mode s = FleetExpediteSteer))
          && negb (bool_decide (s_Mode s = FleetExpediteInterrupt)) then Some (ErrBadMode (s_Mode s))
  else if mode && negb (authorized g (s_From s) (s_To s))
  then Some (ErrNoAuthorityToExpedite (s_From s) (s_To s))
  else None.

Section Timer.
Context {GF : GoFormat}.
Variable now : Time.

(** [armTimerLocked]: wait until the timer is due, or not at all when it is. *)
Definition armTimer (id : string) (t : fleetTimerState) (fl : Fleet) : Fleet :=
  fl <| fl_timers ::= <[id := deadline now (t_At t)]> |>.

(** When a scheduled message is first due. *)
Definition send_due (s : FleetSendArgs) : Time :=
  let due := if (0 <? s_After s)%Z then Add now (s_After s)
             else if IsZero (s_At s) then Add now (s_Every s)
             else s_At s in
  if (0 <? s_Every s)%Z && Before due now then now else due.

(** [send] for a message that passed every check: the state before the save,
    and the identifier. *)
Definition send_go (s : FleetSendArgs) (fl : Fleet) : Fleet * string :=
  let kind := if decide (s_From s = s_To s) then FleetTimer else send_kind s in
  let fl := fl <| fl_group ::= fun g => g <| g_Sent ::= Z.add 1 |> |> in
  let m := new_message kind (s_From s) (s_To s) "" (boundFleetText (s_Text s)) in
  if negb (send_scheduled s) then
    let gi := nextID (fl_group fl) in
    let m := m <| m_ID := gi.2 |> in
    let fl := expect now m (s_AcceptWithin s) (s_AnswerWithin s) (fl <| fl_group := gi.1 |>) in
    (deliver now m fl, gi.2)
  else
    let gi := nextTimerID (fl_group fl) in
    let timer := MkTimer (send_due s) (s_Every s) 0 (m <| m_ID := gi.2 |>) in
    let fl := upd_timers <[gi.2 := timer]> (fl <| fl_group := gi.1 |>) in
    (armTimer gi.2 timer fl, gi.2).

Definition send (args : option FleetSendArgs) (fl : Fleet) : Fleet * result string :=
  match args with
  | None => (fl, inr ErrNothingToSend)
  | Some s =>
    match send_check (fl_group fl) s with
    | Some err => (fl, inr err)
    | None =>
      let r := send_go s fl in
      let sv := save r.1 in
      (sv.1, if sv.2 then inl r.2 else inr ErrSave)
    end
  end.

Definition Cancel (caller id : string) (fl : Fleet) : Fleet * result unit :=
  match fl_Timers fl !! id with
  | None => (fl, inr (ErrNoScheduled id))
  | Some timer =>
    let from := m_From (t_Message timer) in
    if negb (authorized (fl_group fl) caller from) then (fl, inr (ErrNoAuthority caller from))
    else
      let fl := event now ((new_event FleetEventCancel) <| e_Agent := caller |> <| e_Text := id |>)
                  (dropTimer id fl) in
      let sv := save fl in
      (sv.1, if sv.2 then inl tt else inr ErrSave)
  end.

(** One scheduled message of a departing agent's, or to it. *)
Definition dropTimerOf (name failure : string) (fl : Fleet) (kv : string * fleetTimerState)
    : Fleet :=
  let id := kv.1 in
  let t := kv.2 in
  let m := t_Message t in
  if decide (m_From m <> name /\ m_To m <> name) then fl
  else
    let fl := dropTimer id fl in
    if decide (m_To m = name /\ m_From m <> name /\ m_Kind m = FleetRequest /\ (t_Every t <= 0)%Z)
    then deliver now (new_message FleetResponse name (m_From m) id failure) fl
    else fl.

(** [dropTimersOfLocked]. *)
Definition dropTimersOf (name failure : string) (fl : Fleet) : Fleet :=
  foldl (dropTimerOf name failure) fl (map_to_list (fl_Timers fl)).

(** A repeat's firings lost by [now], and when it is next due. *)
Definition next_firing (t : fleetTimerState) : Z * Time :=
  let late := Sub now (t_At t) in
  if (t_Every t <=? late)%Z then
    (Z.quot late (t_Every t), Add now (t_Every t - Z.rem late (t_Every t)))
  else (0%Z, Add (t_At t) (t_Every t)).

(** The first waiting firing of this repeat counts what it missed. *)
Fixpoint add_missed (id : string) (n : Z) (q : list FleetMessage) : option (list FleetMessage) :=
  match q with
  | [] => None
  | w :: q' =>
    if decide (m_Timer w = id) then Some (w <| m_Missed ::= fun k => (k + n)%Z |> :: q')
    else cons w <$> add_missed id n q'
  end.

(** The end of [fireTimerLocked]: a repeat's own firing. *)
Definition fire_repeat (id : string) (missed : Z) (m : FleetMessage) (timer : fleetTimerState)
    (fl : Fleet) : Fleet :=
  let timer := timer <| t_Fires ::= N.succ |> in
  deliver now (m <| m_Missed := missed |> <| m_ID := firing_id id (t_Fires timer) |>
                 <| m_Timer := id |>) (upd_timers <[id := timer]> fl).

(** [fireTimerLocked]. *)
Definition fireTimer (id : string) (timer : fleetTimerState) (fl : Fleet) : Fleet :=
  let m := (t_Message timer) <| m_Due := Some (t_At timer) |> in
  if (t_Every timer <=? 0)%Z then deliver now m (upd_timers (delete id) fl)
  else
    let target := fl_Agents fl !! m_To m in
    if negb (bool_decide (m_To m = FleetOwner)) && bool_decide (target = None) then
      upd_timers (delete id) fl
    else
      let next := next_firing timer in
      let timer := timer <| t_At := next.2 |> in
      let fl := armTimer id timer (upd_timers <[id := timer]> fl) in
      match target ≫= fun a => add_missed id (next.1 + 1) (a_Inbox a) with
      | Some q => upd_agent (m_To m) (fun a => a <| a_Inbox := q |>) fl
      | None => fire_repeat id next.1 m timer fl
      end.

(** The waiter of [armTimerLocked] once its wait is over. *)
Definition timer_fires (id : string) (fl : Fleet) : Fleet :=
  match fl_timers fl !! id with
  | None => fl
  | Some _ =>
    let fl := disarm id fl in
    match fl_Timers fl !! id with
    | None => fl
    | Some timer => save_or_log (fireTimer id timer fl)
    end
  end.
End Timer.
