(* ===== verification/FleetTurn.v ===== *)
(** * FleetTurn: an agent's run loop

    Models [run] of [fleet.go] cut where the code releases the mutex: taking
    the next message ([run_top]), handing it to the seat ([after_send]), an
    interrupt coming back ([interruptSeat]) and the end of the turn
    ([finish_turn]). What the seat does between the cuts is an argument. *)

From S2P Require Import Prelude GoLib FleetNames FleetTypes FleetAuthority FleetLog FleetBudget FleetDeliver.

Definition upd_runtime (name : string) (f : fleetRuntime -> fleetRuntime) (fl : Fleet) : Fleet :=
  fl <| fl_running ::= alter f name |>.

(** Why an agent retires; only the first is [errFleetStopped]. *)
Inductive retire_cause :=
| CauseStopped
| CauseDied (deaths : Z) (err : string).

Definition cause_text (c : retire_cause) : string :=
  match c with
  | CauseStopped => "stopped"
  | CauseDied n err => "its seat died " +:+ itoa n +:+ " times: " +:+ err
  end.

(** What the run loop does after its critical section at the top. *)
Inductive run_next :=
| RunGone                         (* no such agent or runtime *)
| RunWaits
| RunRetires (cause : retire_cause)
| RunBegins (m : FleetMessage) (text : string).

(** What it does after a turn. *)
Inductive turn_next :=
| TurnGone
| TurnWaits                       (* an interrupt is still being delivered *)
| TurnRetires (cause : retire_cause)
| TurnRevives (deaths : Z)
| TurnContinues.

(** How a turn ended: what [WaitForResponse] returned, with the text not yet
    trimmed, whether the seat is alive, and its usage. *)
Record turn_end := MkTurnEnd {
  te_reply : string; te_err : option string; te_alive : bool; te_usage : Usage }.

Definition errText (err : option string) : string := default "" err.

(** Put the turn's messages back at the head of the queue. *)
Definition requeue (a : fleetAgentState) : fleetAgentState :=
  a <| a_Inbox := turnMessages a ++ a_Inbox a |> <| a_Current := None |> <| a_Steered := [] |>.

(** Charge the turn of an agent's message, unless that was done before. *)
Definition charge_message (a : fleetAgentState) (m : FleetMessage) (fl : Fleet) : Fleet :=
  if m_Charged m then fl else fl <| fl_group ::= chargeTurn a |>.

Section Turn.
Context {GF : GoFormat}.
Variable now : Time.

(** The agent as the turn on [m] begins. *)
Definition begin_agent (m : FleetMessage) (rest : list FleetMessage) (a : fleetAgentState)
    : fleetAgentState :=
  a <| a_Inbox := rest |> <| a_Current := Some (m <| m_Charged := true |>) |>
    <| a_Briefed := true |> <| a_CurrentSince := now |>.

(** The turn on [m], the head of [a]'s queue, begins. *)
Definition begin_turn (name : string) (a : fleetAgentState) (m : FleetMessage)
    (rest : list FleetMessage) (fl : Fleet) : Fleet * string :=
  let fl := upd_agent name (begin_agent m rest) fl in
  let fl := upd_runtime name (fun rt => rt <| rt_turns ::= Z.add 1 |> <| rt_live := false |>
                                           <| rt_pending := None |>) fl in
  let fl := accepted now (m_ID m) fl in
  let brief := negb (a_Briefed a) || m_Redelivered m in
  let stamp := fleetStamp now m (a_LastTurnEnd a) in
  let fl := charge_message a m fl in
  (save_or_log fl, turn_text stamp (a_Instructions a) brief (m <| m_Charged := true |>)).

(** The top of the loop, once. *)
Definition run_top (name : string) (fl : Fleet) : Fleet * run_next :=
  match fl_Agents fl !! name, fl_running fl !! name with
  | Some a, Some _ =>
    if a_Stopped a then (fl, RunRetires CauseStopped)
    else
      match a_Inbox a with
      | [] => (fl, RunWaits)
      | m :: rest =>
        let r := if m_Charged m then (fl, false) else blocked now a fl in
        if r.2 then (r.1, RunWaits)
        else
          let b := begin_turn name a m rest r.1 in
          (b.1, RunBegins (m <| m_Charged := true |>) b.2)
      end
  | _, _ => (fl, RunGone)
  end.

(** After [seat.Send]: [ok] when it returned no error. An interrupt that came
    while the turn was starting is sent now: the turn it is for, by whom and
    for which message. *)
Definition after_send (name : string) (ok : bool) (fl : Fleet)
    : Fleet * option (Z * string * string) :=
  match fl_running fl !! name with
  | None => (fl, None)
  | Some rt =>
    let send := match rt_pending rt with
                | Some (by_, forID) => if ok then Some (rt_turns rt, by_, forID) else None
                | None => None
                end in
    let rt := rt <| rt_live := ok |> <| rt_pending := None |> in
    let rt := if send then rt <| rt_interrupting ::= Z.add 1 |> else rt in
    (fl <| fl_running ::= <[name := rt]> |>, send)
  end.

(** [interruptSeat] once [seat.Interrupt] has returned, for the runtime
    [rt]. A runtime no longer running is not seen again. *)
Definition interruptSeat (name : string) (rt : N) (turn : Z) (by_ forID : string) (ok : bool)
    (fl : Fleet) : Fleet :=
  match fl_running fl !! name with
  | None => fl
  | Some r =>
    if decide (rt_id r = rt) then
      let r := r <| rt_interrupting ::= fun n => (n - 1)%Z |> in
      let r := if ok && (rt_turns r =? turn)%Z
               then r <| rt_interruptTurn := turn |> <| rt_interruptedBy := by_ |>
                      <| rt_interruptFor := forID |>
               else r in
      fl <| fl_running ::= <[name := r]> |>
    else fl
  end.

(** Answer the steered messages of a turn that failed. *)
Definition fail_steered (name failure : string) (fl : Fleet) (s : FleetMessage) : Fleet :=
  if decide (m_Kind s = FleetRequest) then
    deliver now (new_message FleetResponse name (m_From s) (m_ID s) failure) fl
  else fl.

Definition answer_steered (a : fleetAgentState) (answer : string) (fl : Fleet)
    (s : FleetMessage) : Fleet :=
  if decide (m_Kind s = FleetRequest) then routeReply now a s answer fl else fl.

(** The turn on [m] failed while its seat lives on. *)
Definition turn_failed (a : fleetAgentState) (m : FleetMessage) (steered : list FleetMessage)
    (err : string) (fl : Fleet) : Fleet :=
  let failure := "agent " +:+ a_Name a +:+ "'s turn failed, and it is still available: " +:+ err in
  let fl :=
    if decide (m_Kind m = FleetRequest) then
      deliver now (new_message FleetResponse (a_Name a) (m_From m) (m_ID m) failure) fl
    else deliver now (new_message FleetResponse (a_Name a) (parentOf fl a) "" failure) fl in
  foldl (fail_steered (a_Name a) failure) fl steered.

(** The turn on [m] ended, of its own accord or by an interrupt. *)
Definition turn_done (a : fleetAgentState) (m : FleetMessage) (steered : list FleetMessage)
    (interrupted : bool) (rt : fleetRuntime) (reply : string) (err : option string)
    (fl : Fleet) : Fleet :=
  let answer :=
    if interrupted then fleetInterruptedReply reply (rt_interruptedBy rt) (rt_interruptFor rt) err
    else reply in
  let fl := routeReply now a m (if decide (m_Kind m = FleetRequest) then answer else reply) fl in
  foldl (answer_steered a answer) fl steered.

(** The end of the turn: [usedBefore] is what [fleetTokens] was before it. *)
Definition finish_turn (name : string) (usedBefore : Z) (te : turn_end) (fl : Fleet)
    : Fleet * turn_next :=
  match fl_Agents fl !! name, fl_running fl !! name with
  | Some a, Some rt =>
    match a_Current a with
    | None => (fl, TurnGone)
    | Some m =>
      if (0 <? rt_interrupting rt)%Z && negb (a_Stopped a) then (fl, TurnWaits)
      else
        let reply := TrimSpace (te_reply te) in
        let interrupted := (rt_interruptTurn rt =? rt_turns rt)%Z in
        let fl := event now ((new_event FleetEventTurn) <| e_Agent := a_Name a |>
                     <| e_Root := a_Root a |> <| e_Text := boundFleetText reply |>
                     <| e_Usage := Some (te_usage te) |> <| e_Cause := errText (te_err te) |>) fl in
        let fl := fl <| fl_group ::=
                     chargeTokens a (Z.max (fleetTokens (te_usage te) - usedBefore) 0) |> in
        let fl := upd_agent name (fun a => a <| a_LastTurnEnd := now |>) fl in
        if a_Stopped a then (fl, TurnRetires CauseStopped)
        else if negb (bool_decide (te_err te = None)) && negb (te_alive te) then
          let deaths := (rt_deaths rt + 1)%Z in
          if (fleetMaxDeaths <=? deaths)%Z then
            (upd_runtime name (fun rt => rt <| rt_deaths := deaths |>) fl,
             TurnRetires (CauseDied deaths (errText (te_err te))))
          else
            let fl := upd_agent name requeue fl in
            let fl := fl <| fl_running ::= delete name |> in
            (save_or_log fl, TurnRevives deaths)
        else
          let steered := (takeSteered a).1 in
          let fl := upd_agent name (fun a => a <| a_Current := None |>
                                              <| a_Steered := (takeSteered a).2 |>) fl in
          let fl :=
            match te_err te with
            | Some err =>
              if negb interrupted then turn_failed a m steered err fl
              else turn_done a m steered interrupted rt reply (Some err)
                     (upd_runtime name (fun rt => rt <| rt_deaths := 0%Z |>) fl)
            | None => turn_done a m steered interrupted rt reply None
                        (upd_runtime name (fun rt => rt <| rt_deaths := 0%Z |>) fl)
            end in
          (save_or_log fl, TurnContinues)
    end
  | _, _ => (fl, TurnGone)
  end.

(** The end of a turn once the kernel is closed: what it spent still counts. *)
Definition finish_closed (name : string) (usedBefore : Z) (used : Usage) (fl : Fleet) : Fleet :=
  match fl_Agents fl !! name with
  | Some a =>
    save_or_log (fl <| fl_group ::= chargeTokens a (Z.max (fleetTokens used - usedBefore) 0) |>)
  | None => fl
  end.
End Turn.
