(* ===== verification/FleetExpedite.v ===== *)
(** * FleetExpedite: moving a waiting message ahead

    Models [Expedite] and [restoreSteered] of [fleet_expect.go]; [Deliver] is
    [FleetTimer.send], then [expedite] with the mutex released between.
    [Expedite] is cut where it releases the mutex: [expedite] decides,
    [FleetTurn.interruptSeat] and [restoreSteered] follow a call to the seat's
    [Interrupt], [steer_returns] a call to its [Steer]. A message is found
    again by its identifier, where the code holds a pointer to it. *)

From S2P Require Import Prelude GoLib FleetNames FleetTypes FleetAuthority FleetLog FleetBudget FleetDeliver FleetTimer FleetTurn.

(** What [Expedite] does once it has released the mutex. *)
Inductive expedite_next :=
| ExpediteDone (note : string)
| ExpediteInterrupts (agent : string) (rt : N) (turn : Z) (reclaimed : bool)
| ExpediteSteers (agent : string) (rt : N) (turn : Z) (text : string).

Definition has_id (id : string) (m : FleetMessage) : bool := bool_decide (m_ID m = id).

(** Search every agent's list of messages. *)
Fixpoint find_in (p : FleetMessage -> bool) (box : fleetAgentState -> list FleetMessage)
    (agents : list (string * fleetAgentState)) : option (string * nat) :=
  match agents with
  | [] => None
  | (n, a) :: rest =>
    match index p (box a) with
    | Some i => Some (n, i)
    | None => find_in p box rest
    end
  end.

(** [queuedLocked] and [steeredLocked]: the agent and the position. *)
Definition queued (g : fleetGroupState) (id : string) : option (string * nat) :=
  find_in (has_id id) a_Inbox (map_to_list (g_Agents g)).
Definition steered (g : fleetGroupState) (id : string) : option (string * nat) :=
  find_in (fun m => has_id id m && negb (m_steering m)) a_Steered (map_to_list (g_Agents g)).

(** [slices.Insert(slices.Delete(l, i, i+1), 0, l[i])]. *)
Definition to_front {A} (i : nat) (l : list A) : list A :=
  match l !! i with
  | Some x => x :: delete i l
  | None => l
  end.

(** Take the steered message at [j] back into the queue. *)
Definition reclaim (j : nat) (a : fleetAgentState) : fleetAgentState :=
  match a_Steered a !! j with
  | None => a
  | Some m => a <| a_Steered ::= delete j |>
                <| a_Inbox ::= cons (m <| m_Reclaimed := true |>) |>
  end.

(** Put the waiting message at [i] back into the turn. *)
Definition unreclaim (i : nat) (a : fleetAgentState) : fleetAgentState :=
  match a_Inbox a !! i with
  | None => a
  | Some m => a <| a_Inbox ::= delete i |>
                <| a_Steered ::= fun q => q ++ [m <| m_Reclaimed := false |>] |>
  end.

(** The first waiting message joins the turn, on its way in. *)
Definition steer_head (a : fleetAgentState) : fleetAgentState :=
  match a_Inbox a with
  | [] => a
  | m :: rest => a <| a_Inbox := rest |>
                   <| a_Steered ::= fun q => q ++ [m <| m_steering := true |>] |>
  end.

(** A steered message goes back to the head of the queue. *)
Definition unsteer (j : nat) (a : fleetAgentState) : fleetAgentState :=
  match a_Steered a !! j with
  | None => a
  | Some m => a <| a_Steered ::= delete j |> <| a_Inbox ::= cons m |>
  end.

(** [m.steering = false], wherever the message is. *)
Definition unmark (id : string) (m : FleetMessage) : FleetMessage :=
  if has_id id m then m <| m_steering := false |> else m.
Definition unmark_agent (id : string) (a : fleetAgentState) : fleetAgentState :=
  a <| a_Inbox ::= fmap (unmark id) |> <| a_Current ::= fmap (unmark id) |>
    <| a_Steered ::= fmap (unmark id) |>.

Section Expedite.
Context {GF : GoFormat}.
Variable now : Time.

(** Where [Expedite] finds the message: an agent, a position in its queue
    and whether it was taken back out of a turn. [inr] is an error. *)
Definition expedite_find (caller id mode : string) (fl : Fleet)
    : Fleet * result (string * nat * bool) :=
  match queued (fl_group fl) id with
  | Some (n, i) => (fl, inl (n, i, false))
  | None =>
    if decide (mode = FleetExpediteInterrupt) then
      match steered (fl_group fl) id with
      | Some (n, j) =>
        if negb (authorized (fl_group fl) caller n) then (fl, inr (ErrNoAuthority caller n))
        else (upd_agent n (reclaim j) fl, inl (n, 0, true))
      | None => (fl, inr (ErrNotWaiting id))
      end
    else (fl, inr (ErrNotWaiting id))
  end.

(** [Expedite] until it calls the seat or returns. *)
Definition expedite (caller id mode : string) (fl : Fleet) : Fleet * result expedite_next :=
  if negb (bool_decide (mode = FleetExpediteSteer)) &&
     negb (bool_decide (mode = FleetExpediteInterrupt)) then (fl, inr (ErrBadMode mode))
  else
    let f := expedite_find caller id mode fl in
    let fl := f.1 in
    match f.2 with
    | inr err => (fl, inr err)
    | inl (name, i, reclaimed) =>
      if negb (authorized (fl_group fl) caller name) then (fl, inr (ErrNoAuthority caller name))
      else
        let fl := upd_agent name (fun a => a <| a_Inbox ::= to_front i |>) fl in
        match fl_Agents fl !! name with
        | None => (fl, inr (ErrNotWaiting id))
        | Some a =>
          match a_Current a, fl_running fl !! name with
          | Some _, Some rt =>
            if decide (mode = FleetExpediteInterrupt) then
              if negb (rt_live rt) then
                (save_or_log (upd_runtime name (fun rt => rt <| rt_pending := Some (caller, id) |>) fl),
                 inl (ExpediteDone (name +:+ "'s turn is just starting; it will be interrupted once it has, and "
                                    +:+ id +:+ " goes next")))
              else
                (save_or_log (upd_runtime name (fun rt => rt <| rt_interrupting ::= Z.add 1 |>) fl),
                 inl (ExpediteInterrupts name (rt_id rt) (rt_turns rt) reclaimed))
            else
              let b := blocked now a fl in
              if b.2 then
                (save_or_log b.1,
                 inl (ExpediteDone ("a budget over " +:+ name +:+ " is spent, so " +:+ id
                                    +:+ " waits first in its queue")))
              else
                let text := match a_Inbox a with
                            | m :: _ => fleetSteeredNote +:+ nl +:+ fleetStamp now m 0 +:+ nl
                                          +:+ formatFleetMessage m
                            | [] => ""
                            end in
                (save_or_log (upd_agent name steer_head b.1),
                 inl (ExpediteSteers name (rt_id rt) (rt_turns rt) text))
          | _, _ =>
            (save_or_log fl, inl (ExpediteDone (name +:+ " is between turns, so " +:+ id +:+ " goes next")))
          end
        end
    end.

(** Is [name]'s runtime still [rt], in turn [turn], with a turn running? *)
Definition same_turn (name : string) (rt : N) (turn : Z) (fl : Fleet) : bool :=
  match fl_Agents fl !! name, fl_running fl !! name with
  | Some a, Some r =>
    bool_decide (rt_id r = rt) && (rt_turns r =? turn)%Z && negb (bool_decide (a_Current a = None))
  | _, _ => false
  end.

(** [restoreSteered], and whether it did. *)
Definition restoreSteered (name id : string) (rt : N) (turn : Z) (fl : Fleet) : Fleet * bool :=
  match fl_Agents fl !! name with
  | None => (fl, false)
  | Some a =>
    match index (has_id id) (a_Inbox a) with
    | None => (fl, false)
    | Some i =>
      if same_turn name rt turn fl
      then (save_or_log (upd_agent name (unreclaim i) fl), true)
      else (fl, false)
    end
  end.

(** [Expedite] after [seat.Interrupt] returned. *)
Definition interrupt_returns (name id by_ : string) (rt : N) (turn : Z) (reclaimed : bool)
    (err : option string) (fl : Fleet) : Fleet * string :=
  let fl := interruptSeat name rt turn by_ id (bool_decide (err = None)) fl in
  match err with
  | None => (fl, "asked " +:+ name +:+ " to stop its turn; " +:+ id +:+ " goes next")
  | Some e =>
    let r := if reclaimed then restoreSteered name id rt turn fl else (fl, false) in
    (r.1,
     if r.2 then "could not interrupt " +:+ name +:+ " (" +:+ e +:+ "), so " +:+ id
                   +:+ " stays steered into its running turn"
     else "could not interrupt " +:+ name +:+ " (" +:+ e +:+ "), so " +:+ id
            +:+ " goes next when its turn ends")
  end.

(** [Expedite] after [seat.Steer] returned, for the agent with this token. *)
Definition steer_returns (name token id : string) (rt : N) (turn : Z) (err : option string)
    (fl : Fleet) : Fleet * string :=
  let fl := upd_agents (fmap (unmark_agent id)) fl in
  match fl_Agents fl !! name with
  | None => (fl, id +:+ " went to " +:+ name)
  | Some a =>
    match (if decide (a_Token a = token) then index (has_id id) (a_Steered a) else None) with
    | None => (fl, id +:+ " went to " +:+ name)
    | Some j =>
      if bool_decide (err = None) && same_turn name rt turn fl then
        let fl := accepted now id fl in
        let fl := match a_Steered a !! j with
                  | Some m => charge_message a m fl
                  | None => fl
                  end in
        let fl := upd_agent name (fun a =>
                    a <| a_Steered ::= alter (fun m => m <| m_Charged := true |>) j |>) fl in
        (save_or_log fl, "steered " +:+ id +:+ " into " +:+ name
                           +:+ "'s running turn; its reply answers it")
      else
        (save_or_log (upd_agent name (unsteer j) fl),
         match err with
         | Some e => "could not steer into " +:+ name +:+ "'s turn (" +:+ e +:+ "), so " +:+ id
                       +:+ " goes next"
         | None => name +:+ "'s turn ended first, so " +:+ id +:+ " goes next"
         end)
    end
  end.
End Expedite.
