(* ===== verification/FleetCheck.v ===== *)
(** * FleetCheck: pinned checks

    Models [fleet_check.go]: registering and running a check and recording its
    result, and the output buffer. The export of a commit and the process are
    not modelled: what they give is the argument of [finishCheck]. SHA-256,
    [git], reading a file and [strconv.ParseFloat] are parameters. *)

From S2P Require Import Prelude GoLib FleetNames FleetTypes FleetAuthority FleetLog FleetBudget FleetDeliver.

Record FleetCheckArgs := MkCheckArgs {
  ca_Name : string; ca_Repo : string; ca_Script : string; ca_ScriptFile : string;
  ca_AgentsMayRun : bool; ca_Timeout : Duration }.

(** [filepath.IsAbs] on Unix. *)
Definition IsAbs (path : string) : bool := has_prefix path "/".

(** [strings.ContainsAny]. *)
Fixpoint ContainsAny (s chars : string) : bool :=
  match s with
  | EmptyString => false
  | String a s' => bool_decide (a ∈ String.list_ascii_of_string chars) || ContainsAny s' chars
  end.

Definition upd_checks (f : gmap string fleetCheckState -> gmap string fleetCheckState)
    (fl : Fleet) : Fleet := fl <| fl_group ::= fun g => g <| g_Checks ::= f |> |>.
Definition upd_runs (f : gmap string fleetCheckRun -> gmap string fleetCheckRun)
    (fl : Fleet) : Fleet := fl <| fl_group ::= fun g => g <| g_CheckRuns ::= f |> |>.
Definition upd_last (f : gmap string FleetCheckResult -> gmap string FleetCheckResult)
    (fl : Fleet) : Fleet := fl <| fl_group ::= fun g => g <| g_CheckLast ::= f |> |>.

(** May [requester] run this check, or see it? *)
Definition may_run (g : fleetGroupState) (requester : string) (c : fleetCheckState) : bool :=
  c_AgentsMayRun c || authorized g requester (c_RegisteredBy c).

Section Check.
Context {GF : GoFormat}.
Context (sha256_hex : string -> string) (parse_float : string -> option float64).
Variable now : Time.

(** The checks and defaults before the mutex: the script and the timeout.
    [git_dir] is what asking git for the repository gave, [read_file] reads
    the script file. *)
Definition check_args (args : option FleetCheckArgs) (git_dir : option string)
    (read_file : string -> string + string) : result (FleetCheckArgs * string * Duration) :=
  match args with
  | None => inr ErrCheckName
  | Some c =>
    if negb (fleetNameValid (ca_Name c)) then inr ErrCheckName
    else if negb (IsAbs (ca_Repo c)) then inr (ErrRepoNotAbsolute (ca_Repo c))
    else match git_dir with
    | Some cause => inr (ErrRepo cause)
    | None =>
      match (if decide (ca_ScriptFile c = "") then inl (ca_Script c)
             else read_file (ca_ScriptFile c)) with
      | inr cause => inr (ErrReadScript cause)
      | inl script =>
        if decide (TrimSpace script = "") then inr ErrNeedsScript
        else
          let timeout := if decide (ca_Timeout c = 0%Z) then fleetCheckDefaultTimeout
                         else ca_Timeout c in
          if (timeout <? 0)%Z || (fleetCheckMaxTimeout <? timeout)%Z then inr ErrCheckTimeout
          else inl (c, script, timeout)
      end
    end
  end.

(** [RegisterCheck] with the mutex held. [pin] says whether the script could
    be written, [path] where. *)
Definition RegisterCheck (caller path : string) (c : FleetCheckArgs) (script : string)
    (timeout : Duration) (pin : option string) (fl : Fleet) : Fleet * result unit :=
  let refused :=
    match g_Checks (fl_group fl) !! ca_Name c with
    | Some old => if authorized (fl_group fl) caller (c_RegisteredBy old) then None
                  else Some (ErrNoAuthority caller (c_RegisteredBy old))
    | None => None
    end in
  match refused, pin with
  | Some err, _ => (fl, inr err)
  | None, Some cause => (fl, inr (ErrReadScript cause))
  | None, None =>
    let sum := sha256_hex script in
    let fl := upd_last (delete (ca_Name c)) fl in
    let fl := upd_checks <[ca_Name c := MkCheck (ca_Repo c) path sum (ca_AgentsMayRun c)
                                          (duration_seconds timeout) now caller]> fl in
    let fl := event now ((new_event FleetEventCheckRegistered) <| e_Agent := caller |>
                           <| e_Text := ca_Name c +:+ " " +:+ sum +:+ " " +:+ ca_Repo c |>) fl in
    let sv := save fl in
    (sv.1, if sv.2 then inl tt else inr ErrSave)
  end.

(** [RunCheck] before git resolves the revision. *)
Definition run_check_begin (requester name commit : string) (g : fleetGroupState)
    : result (string * string) :=
  let commit := if decide (commit = "") then "HEAD" else commit in
  if has_prefix commit "-" || ContainsAny commit (" " +:+ bytes [9; 13; 10])
  then inr (ErrNotRevision commit)
  else
    match g_Checks g !! name with
    | None => inr (ErrNoCheck name)
    | Some c =>
      if negb (may_run g requester c) then inr (ErrNoCheck name)
      else if decide (requester = FleetOwner) then inl (c_Repo c, commit)
      else if decide (g_Agents g !! requester = None) then inr (ErrNoAgent requester)
      else if (fleetCheckQueue <=?
               Z.of_nat (count (fun kv => negb (bool_decide (r_Requester kv.2 = FleetOwner)))
                           (map_to_list (g_CheckRuns g))))%Z
      then inr ErrChecksWaiting
      else inl (c_Repo c, commit)
    end.

(** [RunCheck] once git resolved the revision to [sha]: the run's identifier
    and the check as pinned. *)
Definition run_check_start (requester name sha : string) (fl : Fleet)
    : Fleet * result (string * fleetCheckState) :=
  match g_Checks (fl_group fl) !! name with
  | None => (fl, inr (ErrNoCheck name))
  | Some c =>
    if negb (may_run (fl_group fl) requester c) then (fl, inr (ErrNoCheck name))
    else
      let n := (g_NextID (fl_group fl) + 1)%N in
      let id := check_id n in
      let token := match fl_Agents fl !! requester with Some a => a_Token a | None => "" end in
      let fl := fl <| fl_group ::= fun g => g <| g_NextID := n |> |> in
      let fl := upd_runs <[id := MkCheckRun name sha requester token now]> fl in
      let fl := event now ((new_event FleetEventCheckStarted) <| e_Agent := requester |>
                  <| e_Check := Some (MkCheckResult id name sha "" requester (-1) None "" F.zero "") |>) fl in
      let sv := save fl in
      if sv.2 then (sv.1, inl (id, c)) else (upd_runs (delete id) sv.1, inr ErrSave)
  end.

(** The score: the last line of standard output, when it is a number. *)
Definition check_score (stdout : string) : option float64 :=
  let lines := split_byte (byte 10) (TrimSpace stdout) in
  let last := TrimSpace (default "" (list.last lines)) in
  if decide (last = "") then None else parse_float last.

(** [finishCheckLocked]. *)
Definition finishCheck (id : string) (r : FleetCheckResult) (fl : Fleet) : Fleet :=
  let run := g_CheckRuns (fl_group fl) !! id in
  let fl := upd_runs (delete id) fl in
  let r := r <| cr_Output ::= boundCheckOutput |> in
  let fl := event now ((new_event FleetEventCheckResult) <| e_Agent := cr_Requester r |>
                         <| e_Check := Some r |>) fl in
  let fl := match g_Checks (fl_group fl) !! cr_Name r with
            | Some current => if decide (c_SHA256 current = cr_SHA256 r)
                              then upd_last <[cr_Name r := r]> fl else fl
            | None => fl
            end in
  match fl_Agents fl !! cr_Requester r, run with
  | Some a, Some run =>
    if decide (cr_Requester r = FleetOwner \/ a_Token a <> r_RequesterToken run) then fl
    else deliver now (new_message FleetResponse (FleetCheckSenderPrefix +:+ cr_Name r)
                        (cr_Requester r) id (describeCheckResult r)) fl
  | _, _ => fl
  end.

(** The end of [executeCheck], with the kernel open. *)
Definition check_done (id : string) (r : FleetCheckResult) (fl : Fleet) : Fleet :=
  save_or_log (finishCheck id r fl).

Definition interrupted_result (id : string) (run : fleetCheckRun) : FleetCheckResult :=
  MkCheckResult id (r_Check run) (r_Commit run) "" (r_Requester run) (-1) None ""
    F.zero "the broker restarted during this run; run it again".

Definition report_interrupted (fl : Fleet) (kv : string * fleetCheckRun) : Fleet :=
  finishCheck kv.1 (interrupted_result kv.1 kv.2) fl.

(** [reportInterruptedChecksLocked]. *)
Definition reportInterruptedChecks (fl : Fleet) : Fleet :=
  foldl report_interrupted fl (map_to_list (g_CheckRuns (fl_group fl))).
End Check.

(** ** The output buffer *)

(** [tailBuffer.Write] and [String], with the buffer's limit. *)
Definition tail_bytes (limit : nat) (s : string) : string := drop_bytes (len s - limit) s.
Definition tail_write (limit : nat) (buf p : string) : string :=
  let buf := buf +:+ p in
  if (2 * limit <? len buf)%nat then tail_bytes limit buf else buf.
Definition tail_string (limit : nat) (buf : string) : string :=
  if (limit <? len buf)%nat then tail_bytes limit buf else buf.
