(* ===== verification/FleetLifecycle.v ===== *)
(** * FleetLifecycle: agents come and go

    Models starting, reviving, stopping and retiring agents, setting budgets,
    and a fleet's own beginning and end ([fleet.go], [SetBudget] of
    [fleet_budget.go]). Each function is one critical section; what the seat
    or the disk gave in between is an argument. *)

From S2P Require Import Prelude GoLib FleetNames FleetTypes FleetAuthority FleetLog FleetBudget FleetDeliver FleetTimer FleetTurn FleetCheck.

Record FleetStartArgs := MkStart {
  sa_Name : string; sa_Instructions : string; sa_InstructionsFile : string;
  sa_WorkDir : string; sa_Quality : string; sa_Purpose : string; sa_Model : string;
  sa_Budget : option FleetBudget; sa_Authority : string; sa_Tools : option (list string) }.

(** [FleetOptions]; zero selects a default. *)
Record FleetOptions := MkOptions { o_MaxAgents : Z; o_MaxMessages : Z }.

(** What [revive] keeps between tries. *)
Record revive_local := MkRevive {
  rv_fresh : bool; rv_told : bool; rv_wait : Duration; rv_delay : Duration }.

#[export] Instance eta_revive : Eta revive_local := fun r =>
  MkRevive (rv_fresh r) (rv_told r) (rv_wait r) (rv_delay r).
#[export] Hint Extern 1 (@Setter revive_local _ _) => setter_of eta_revive : typeclass_instances.

Inductive revive_next :=
| ReviveGone
| ReviveRetires
| ReviveSleeps (step : Duration)
| ReviveStarts (resume briefed : bool).

(** The agents whose starter was [name] answer to the owner. *)
Definition orphan_child (name : string) (a : fleetAgentState) : fleetAgentState :=
  if decide (a_Parent a = name) then a <| a_Parent := FleetOwner |> else a.

Definition passOn_check (name heir : string) (c : fleetCheckState) : fleetCheckState :=
  if decide (c_RegisteredBy c = name) then c <| c_RegisteredBy := heir |> else c.
Definition passOn_budget (name heir : string) (b : fleetBudgetState) : fleetBudgetState :=
  let b := if decide (b_SetBy b = name) then b <| b_SetBy := heir |> else b in
  if decide (b_Holder b = name) then b <| b_Holder := "" |> else b.

Definition passOnCreations (name heir : string) (g : fleetGroupState) : fleetGroupState :=
  g <| g_Checks ::= fmap (passOn_check name heir) |>
    <| g_Budgets ::= fmap (passOn_budget name heir) |>.

(** The checks of [admit] that need no state: the instructions. *)
Definition admit_args (caller : string) (args : option FleetStartArgs)
    (read_file : string -> string + string) : result (FleetStartArgs * string) :=
  match args with
  | None => inr (ErrInvalidAgentName "")
  | Some s =>
    if negb (fleetNameValid (sa_Name s)) || bool_decide (sa_Name s = FleetOwner)
       || bool_decide (sa_Name s = FleetBudgetSender) || bool_decide (sa_Name s = FleetClockSender)
       || fleetBudgetIDPattern (sa_Name s)
    then inr (ErrInvalidAgentName (sa_Name s))
    else
      match (if decide (sa_InstructionsFile s = "") then inl (sa_Instructions s)
             else read_file (sa_InstructionsFile s)) with
      | inr cause => inr (ErrReadInstructions cause)
      | inl instructions =>
        if decide (TrimSpace instructions = "") then inr ErrNeedsInstructions
        else if negb (bool_decide (sa_WorkDir s = "")) && negb (IsAbs (sa_WorkDir s))
        then inr (ErrWorkDirNotAbsolute (sa_WorkDir s))
        else
          match (match sa_Budget s with Some b => budget_validate b | None => None end) with
          | Some err => inr err
          | None =>
            if negb (bool_decide (sa_Authority s = "")) &&
               negb (bool_decide (sa_Authority s = FleetAuthorityAll))
            then inr (ErrUnknownAuthority (sa_Authority s))
            else if negb (bool_decide (sa_Authority s = "")) && negb (bool_decide (caller = FleetOwner))
            then inr ErrOwnerGivesAuthority
            else inl (s, instructions)
          end
      end
  end.

(** The agent [admit] would record, before its own budget. *)
Definition admit_agent (g : fleetGroupState) (caller token : string) (s : FleetStartArgs)
    (instructions : string) : result fleetAgentState :=
  if g_Closing g then inr ErrShuttingDown
  else
    let a := MkAgent (sa_Name s) caller (sa_Name s) instructions token (sa_WorkDir s)
               (sa_Quality s) (sa_Purpose s) (sa_Model s) [] None [] false false 0 0 [] ""
               (sa_Authority s) None false in
    let parent := g_Agents g !! caller in
    match (if decide (caller = FleetOwner) then inl a
           else match parent with
                | None => inr (ErrNoAgent caller)
                | Some p =>
                  inl (a <| a_Root := a_Root p |>
                         <| a_WorkDir := if decide (sa_WorkDir s = "") then a_WorkDir p else sa_WorkDir s |>
                         <| a_Budgets := a_Budgets p |>)
                end) with
    | inr err => inr err
    | inl a =>
      if decide (a_WorkDir a = "") then inr ErrRootNeedsWorkDir
      else
        let may := match parent with Some p => toolSet (a_Tools p) | None => allFleetTools end in
        match chooseTools (sa_Tools s) may with
        | inr err => inr err
        | inl tools =>
          if bool_decide (is_Some (g_Agents g !! sa_Name s)) then inr (ErrAgentExists (sa_Name s))
          else if (g_MaxAgents g <=? Z.of_nat (size (g_Agents g)))%Z
          then inr (ErrAgentLimit (g_MaxAgents g))
          else inl (a <| a_Tools := Some tools |>)
        end
    end.

Section Lifecycle.
Context {GF : GoFormat}.
Variable now : Time.

(** [admit] with the mutex held: the agent recorded, saved before its seat
    exists. *)
Definition admit_start (caller token : string) (s : FleetStartArgs) (instructions : string)
    (fl : Fleet) : Fleet * result fleetAgentState :=
  match admit_agent (fl_group fl) caller token s instructions with
  | inr err => (fl, inr err)
  | inl a =>
    let ga :=
      match sa_Budget s with
      | Some b =>
        if budget_zero b then (fl_group fl, a)
        else let gi := newBudget now (sa_Name s) caller b (fl_group fl) in
             (gi.1, a <| a_OwnBudget := gi.2 |> <| a_Budgets ::= fun l => l ++ [gi.2] |>)
      | None => (fl_group fl, a)
      end in
    let a := ga.2 in
    let fl := fl <| fl_group := ga.1 <| g_Agents ::= <[sa_Name s := a]> |> |>
                 <| fl_starting ::= fun x => {[sa_Name s]} ∪ x |> in
    let sv := save fl in
    if sv.2 then (sv.1, inl a)
    else (sv.1 <| fl_starting ::= fun x => x ∖ {[sa_Name s]} |>
               <| fl_group ::= fun g => dropUnusedBudgets (g <| g_Agents ::= delete (sa_Name s) |>) |>,
          inr ErrSave)
  end.

(** [runLocked]: a started seat joins the kernel. *)
Definition runLocked (a : fleetAgentState) (desc : string) (deaths : Z) (fl : Fleet) : Fleet :=
  let rt := MkRuntime (fl_next_rt fl) desc deaths 0 "" "" 0 0 false None in
  let fl := fl <| fl_running ::= <[a_Name a := rt]> |> <| fl_next_rt ::= N.succ |> in
  event now ((new_event FleetEventStarted) <| e_Agent := a_Name a |> <| e_Parent := a_Parent a |>
               <| e_Root := a_Root a |> <| e_Model := desc |>) fl.

(** [launch] after the seat started. *)
Definition launch_ok (name desc : string) (fl : Fleet) : Fleet :=
  match fl_Agents fl !! name with
  | None => fl
  | Some a => runLocked a desc 0 (fl <| fl_starting ::= fun x => x ∖ {[name]} |>)
  end.

(** [launch] after the seat failed to start. *)
Definition launch_failed (name err : string) (tellParent : bool) (fl : Fleet) : Fleet :=
  match fl_Agents fl !! name with
  | None => fl
  | Some a =>
    let failure := "agent " +:+ a_Name a +:+ " could not start: " +:+ err in
    let fl := fl <| fl_starting ::= fun x => x ∖ {[name]} |> in
    let fl := upd_agents (delete name) fl in
    let fl := dropTimersOf now name failure fl in
    let fl := fl <| fl_group ::= dropUnusedBudgets |> in
    let fl := event now ((new_event FleetEventStartFailed) <| e_Agent := a_Name a |>
                <| e_Parent := a_Parent a |> <| e_Root := a_Root a |> <| e_Cause := err |>) fl in
    let r := answerOwed now a failure fl in
    let fl := if tellParent && negb r.2
              then deliver now (new_message FleetResponse (a_Name a) (parentOf r.1 a) "" failure) r.1
              else r.1 in
    save_or_log fl
  end.

(** ** Reviving *)

Definition revive_begin (name : string) (fl : Fleet) : Fleet :=
  fl <| fl_reviving ::= fun x => {[name]} ∪ x |>.

(** The top of [revive]'s loop. *)
Definition revive_top (name : string) (rl : revive_local) (fl : Fleet)
    : revive_local * revive_next :=
  match fl_Agents fl !! name with
  | None => (rl, ReviveGone)
  | Some a =>
    if a_Stopped a then (rl, ReviveRetires)
    else if (0 <? rv_delay rl)%Z then
      let step := Z.min (rv_delay rl) fleetRetryMin in
      (rl <| rv_delay ::= fun d => (d - step)%Z |>, ReviveSleeps step)
    else (rl, ReviveStarts (a_Briefed a && negb (rv_fresh rl)) (a_Briefed a))
  end.

(** The seat came back: [resume] and [briefed] as when it was started. *)
Definition revive_ok (name desc : string) (resume briefed : bool) (deaths : Z) (fl : Fleet)
    : Fleet :=
  match fl_Agents fl !! name with
  | None => fl
  | Some a =>
    let fl := fl <| fl_reviving ::= fun x => x ∖ {[name]} |> in
    let fl :=
      if briefed && negb resume then
        deliver now (new_message FleetResponse (a_Name a) (parentOf fl a) ""
          ("agent " +:+ a_Name a +:+ " lost its conversation in a restart and is starting on a fresh one"))
          (upd_agent name (fun a => a <| a_Briefed := false |>) fl)
      else fl in
    runLocked a desc deaths (save_or_log fl)
  end.

(** The try failed; [lost] when the conversation can never be resumed, and
    [retry] is the kernel's first wait. *)
Definition revive_failed (name err : string) (lost : bool) (retry : Duration) (rl : revive_local)
    (fl : Fleet) : Fleet * revive_local :=
  match fl_Agents fl !! name with
  | None => (fl, rl)
  | Some a =>
    if a_Stopped a then (fl, rl)
    else
      let rl := if lost then rl <| rv_fresh := true |> <| rv_wait := retry |> else rl in
      let fl :=
        if rv_told rl then fl
        else save_or_log (deliver now (new_message FleetResponse (a_Name a) (parentOf fl a) ""
               ("agent " +:+ a_Name a +:+ " cannot come back yet and I will keep trying: " +:+ err)) fl) in
      (fl, rl <| rv_told := true |> <| rv_delay := rv_wait rl |>
              <| rv_wait := Z.min (rv_wait rl * 2) fleetRetryMax |>)
  end.

(** ** Stopping and retiring *)

(** [retireState] before the seat is ended, for the agent with this token;
    whether this call owns the agent's end. *)
Definition retire_begin (name token : string) (fl : Fleet) : Fleet * bool :=
  match fl_Agents fl !! name with
  | None => (fl, false)
  | Some a =>
    if negb (bool_decide (a_Token a = token)) || a_retiring a then (fl, false)
    else (upd_agent name (fun a => a <| a_retiring := true |> <| a_Stopped := true |>) fl, true)
  end.

(** [retireState] once the seat is gone. *)
Definition retire_finish (name : string) (cause : retire_cause) (fl : Fleet) : Fleet :=
  match fl_Agents fl !! name with
  | None => fl
  | Some a =>
    let gone := "agent " +:+ a_Name a +:+ " is gone: " +:+ cause_text cause in
    let fl := upd_agents (delete name) fl in
    let fl := fl <| fl_running ::= delete name |> <| fl_reviving ::= fun x => x ∖ {[name]} |> in
    let fl := upd_agents (fmap (orphan_child name)) fl in
    let fl := dropTimersOf now name gone fl in
    let fl := dropExpectsOf name fl in
    let fl := fl <| fl_group ::= passOnCreations name (parentOf fl a) |> in
    let fl := fl <| fl_group ::= dropUnusedBudgets |> in
    let fl := event now ((new_event FleetEventRetired) <| e_Agent := a_Name a |>
                <| e_Root := a_Root a |> <| e_Cause := cause_text cause |>) fl in
    let r := answerOwed now a gone fl in
    let fl :=
      match cause with
      | CauseStopped => r.1
      | CauseDied _ _ =>
        if r.2 then r.1
        else deliver now (new_message FleetResponse (a_Name a) (parentOf r.1 a) "" gone) r.1
      end in
    save_or_log fl
  end.

(** [Stop]. *)
Definition Stop (caller name : string) (fl : Fleet) : Fleet * result unit :=
  match fl_Agents fl !! name with
  | None => (fl, inr (ErrNoAgent name))
  | Some a =>
    if negb (authorized (fl_group fl) caller name) then (fl, inr (ErrNoAuthority caller name))
    else if bool_decide (fl_running fl !! name = None) && negb (bool_decide (name ∈ fl_reviving fl))
    then (fl, inr (ErrStillStarting name))
    else if a_Stopped a then (fl, inl tt)
    else
      let fl := upd_agent name (fun a => a <| a_Stopped := true |>) fl in
      let fl := event now ((new_event FleetEventStop) <| e_Agent := name |> <| e_Root := a_Root a |>
                             <| e_Parent := caller |>) fl in
      (save_or_log fl, inl tt)
  end.

(** One pass of [stopAgents] over the matching agents; it is done when none
    matches. *)
Definition stop_pass (matches : fleetAgentState -> bool) (fl : Fleet) : Fleet * bool :=
  let names := (fun kv => a_Name kv.2) <$>
                 List.filter (fun kv => matches kv.2) (map_to_list (fl_Agents fl)) in
  (foldl (fun fl name => (Stop FleetOwner name fl).1) fl names, bool_decide (names = [])).

(** [StopTree]'s agents. *)
Definition in_tree (root : string) (a : fleetAgentState) : bool := bool_decide (a_Root a = root).

(** ** Budgets *)

Definition add_budget (id : string) (a : fleetAgentState) : fleetAgentState :=
  a <| a_Budgets ::= fun l => l ++ [id] |>.

(** The new budget [id] of [agent] applies to everyone under it. *)
Definition spread_budget (agent id : string) (g : fleetGroupState) : fleetGroupState :=
  let g := g <| g_Agents ::= alter (fun a => add_budget id (a <| a_OwnBudget := id |>)) agent |> in
  g <| g_Agents ::= fmap (fun a => if fleetDescends g (a_Name a) agent then add_budget id a else a) |>.

(** [SetBudget]. *)
Definition SetBudget (caller target : string) (limits : FleetBudget) (fl : Fleet)
    : Fleet * result unit :=
  match budget_validate limits with
  | Some err => (fl, inr err)
  | None =>
    let g := fl_group fl in
    match (match g_Budgets g !! target with
           | Some b => Some (b_Holder b, Some (target, b))
           | None =>
             match g_Agents g !! target with
             | None => None
             | Some a => Some (target, b ← g_Budgets g !! a_OwnBudget a; Some (a_OwnBudget a, b))
             end
           end) with
    | None => (fl, inr (ErrNoAgentOrBudget target))
    | Some (agent, existing) =>
      if negb (bool_decide (agent = "")) && negb (authorized g caller agent)
      then (fl, inr (ErrNoAuthority caller agent))
      else if match existing with
              | Some (_, b) => negb (authorized g caller (b_SetBy b))
              | None => false
              end
      then (fl, inr (ErrNoAuthoritySetter caller
                       (match existing with Some (_, b) => b_SetBy b | None => "" end)))
      else
        let g :=
          match existing with
          | Some (id, b) =>
            g <| g_Budgets ::= <[id := b <| b_Limits := limits |> <| b_Notified := false |>
                                         <| b_Started := now |> <| b_SetBy := caller |>]> |>
          | None =>
            let gi := newBudget now agent caller limits g in
            spread_budget agent gi.2 gi.1
          end in
        let text := "tokens " +:+ itoa (bl_Tokens limits) +:+ ", turns " +:+ itoa (bl_Turns limits)
                      +:+ ", seconds " +:+ format_g (bl_Seconds limits) in
        let fl := event now ((new_event FleetEventBudget) <| e_Agent := agent |>
                               <| e_Text := text |>) (fl <| fl_group := g |>) in
        let sv := save fl in
        (sv.1, if sv.2 then inl tt else inr ErrSave)
    end
  end.

(** ** A fleet's beginning and end *)

(** The group [Open] makes. *)
Definition open_group (opts : option FleetOptions) : fleetGroupState :=
  let pick v d := if (0 <? v)%Z then v else d in
  MkGroup (match opts with Some o => pick (o_MaxAgents o) fleetDefaultMaxAgents
                         | None => fleetDefaultMaxAgents end)
    (match opts with Some o => pick (o_MaxMessages o) fleetDefaultMaxMessages
                   | None => fleetDefaultMaxMessages end)
    0 0 false ∅ ∅ ∅ ∅ ∅ ∅ ∅.

(** A new fleet, with the log [openLogLocked] gave. *)
Definition open_fleet (opts : option FleetOptions) (log : fleetLog) (can_save : bool) : Fleet :=
  save_or_log (MkFleet (open_group opts) (open_group opts) log ∅ ∅ ∅ ∅ 0 can_save).

(** [Shutdown] marks the fleet, and unmarks it when its agents would not go. *)
Definition set_closing (b : bool) (fl : Fleet) : Fleet * bool :=
  save (fl <| fl_group ::= fun g => g <| g_Closing := b |> |>).

(** What the state file does not hold. *)
Definition decoded_agent (a : fleetAgentState) : fleetAgentState :=
  a <| a_retiring := false |>
    <| a_Inbox ::= fmap (fun m => m <| m_steering := false |>) |>
    <| a_Current ::= fmap (fun m => m <| m_steering := false |>) |>
    <| a_Steered ::= fmap (fun m => m <| m_steering := false |>) |>.

(** [OpenFleetKernel] for one fleet of the state file: everything an
    interrupted turn held goes round again, ahead of the rest, and the checks
    a restart cut short are reported. *)
Definition reopen (log : fleetLog) (fl : Fleet) : Fleet * bool :=
  let g := (fl_saved fl) <| g_Agents ::= fmap (fun a => requeue (decoded_agent a)) |> in
  let fl := MkFleet g (fl_saved fl) log ∅ ∅ (dom (g_Agents g)) ∅ (fl_next_rt fl) (fl_can_save fl) in
  save (reportInterruptedChecks now fl).

(** [Resume] arms the saved timers and expectations; each agent's [revive]
    starts by [revive_begin]. *)
Definition Resume (fl : Fleet) : Fleet :=
  let fl := foldl (fun fl kv => armTimer now kv.1 kv.2 fl) fl (map_to_list (fl_Timers fl)) in
  foldl (fun fl kv => armExpects now kv.1 kv.2 fl) fl (map_to_list (g_Expects (fl_group fl))).
End Lifecycle.

(** ** The kernel: every fleet by name *)

Record FleetKernel := MkKernel { k_closed : bool; k_fleets : gmap string Fleet }.

(** [groupLocked]: run an operation on an open kernel's fleet. *)
Definition with_group {A} (fleet : string) (op : Fleet -> Fleet * result A) (k : FleetKernel)
    : FleetKernel * result A :=
  if k_closed k then (k, inr ErrFleetClosed)
  else
    match k_fleets k !! fleet with
    | None => (k, inr (ErrNoFleet fleet))
    | Some fl =>
      let r := op fl in
      (MkKernel (k_closed k) (<[fleet := r.1]> (k_fleets k)), r.2)
    end.

(** [Open]. *)
Definition Open (fleet : string) (opts : option FleetOptions) (log : fleetLog) (can_save : bool)
    (k : FleetKernel) : FleetKernel * result unit :=
  if negb (fleetNameValid fleet) then (k, inr (ErrInvalidFleetName fleet))
  else if k_closed k then (k, inr ErrFleetClosed)
  else
    match k_fleets k !! fleet with
    | Some _ => (k, inl tt)
    | None =>
      let fl := open_fleet opts log can_save in
      (MkKernel (k_closed k) (<[fleet := fl]> (k_fleets k)), if can_save then inl tt else inr ErrSave)
    end.

(** [AgentByToken]. *)
Definition AgentByToken (token : string) (k : FleetKernel) : option (string * string) :=
  head (
    kf ← map_to_list (k_fleets k);
    ka ← map_to_list (fl_Agents kf.2);
    if decide (a_Token ka.2 = token) then [(kf.1, a_Name ka.2)] else []).

Definition Close (k : FleetKernel) : FleetKernel := MkKernel true (k_fleets k).
