(* ===== verification/FleetCons.v ===== *)
(** * FleetCons: every request is pending or answered, never both

    The bookkeeping behind the kernel's first guarantee. [reqs] and [resps]
    count, in the event log, the requests sent to agents and the responses to
    them; [pend] counts the copies of a request in mailboxes. [Cons] says that a
    request in the log is in exactly one mailbox or has exactly one response;
    its first argument holds requests taken out of a mailbox and not answered
    yet, in the middle of an operation. *)

From S2P Require Import Prelude GoLib FleetNames FleetTypes FleetAuthority FleetLog FleetBudget FleetDeliver FleetTimer.

Definition is_req (id : string) (m : FleetMessage) : bool :=
  bool_decide (m_Kind m = FleetRequest) && bool_decide (m_ID m = id).

Definition mail (a : fleetAgentState) : list FleetMessage :=
  option_list (a_Current a) ++ a_Steered a ++ a_Inbox a.
Definition owes (id : string) (a : fleetAgentState) : nat := count (is_req id) (mail a).
Definition pend (id : string) (agents : gmap string fleetAgentState) : nat :=
  map_sum (owes id) agents.

Definition ev_req (id : string) (e : FleetEvent) : bool :=
  match e_Message e with
  | Some m => is_req id m && negb (bool_decide (m_To m = FleetOwner))
  | None => false
  end.
Definition ev_resp (id : string) (e : FleetEvent) : bool :=
  match e_Message e with
  | Some m => bool_decide (m_Kind m = FleetResponse) && bool_decide (m_InReplyTo m = id)
  | None => false
  end.
Definition reqs (id : string) (f : list FleetEvent) : nat := count (ev_req id) f.
Definition resps (id : string) (f : list FleetEvent) : nat := count (ev_resp id) f.

(** The identifiers messages have, made from counter values up to [n]. *)
Definition msg_id (n : N) (s : string) : Prop :=
  exists k, (k <= n)%N /\
    (s = request_id k \/ s = timer_id k \/ exists j, s = firing_id (timer_id k) j).

Definition unseen (s : string) (f : list FleetEvent) : Prop :=
  forall e m, e ∈ f -> e_Message e = Some m -> m_ID m <> s /\ m_InReplyTo m <> s.

Record timer_ok (n : N) (f : list FleetEvent) (id : string) (t : fleetTimerState) : Prop := {
  to_id : exists k, (k <= n)%N /\ id = timer_id k;
  to_message : m_ID (t_Message t) = id /\ m_InReplyTo (t_Message t) = ""
               /\ m_Kind (t_Message t) <> FleetResponse;
  to_unseen : unseen id f;
  to_firings : forall j, (t_Fires t < j)%N -> unseen (firing_id id j) f }.

(** [s] is neither a timer's identifier nor a firing still to come. *)
Definition fresh_for (T : gmap string fleetTimerState) (s : string) : Prop :=
  forall id t, T !! id = Some t ->
    s <> id /\ forall j, (t_Fires t < j)%N -> s <> firing_id id j.

Record Cons (D : list FleetMessage) (f : list FleetEvent) (A : gmap string fleetAgentState)
    (n : N) (T : gmap string fleetTimerState) : Prop := {
  cons_le : forall id, reqs id f <= 1;
  cons_one : forall id, reqs id f = 1 -> pend id A + count (is_req id) D + resps id f = 1;
  cons_zero : forall id, reqs id f = 0 -> pend id A + count (is_req id) D = 0;
  cons_ids : forall e m, e ∈ f -> e_Message e = Some m -> msg_id n (m_ID m);
  cons_refs : forall e m, e ∈ f -> e_Message e = Some m ->
                m_InReplyTo m = "" \/ id_le n (m_InReplyTo m);
  cons_timers : forall id t, T !! id = Some t -> timer_ok n f id t }.

Definition FCons (D : list FleetMessage) (fl : Fleet) : Prop :=
  Cons D (l_file (fl_log fl)) (fl_Agents fl) (g_NextID (fl_group fl)) (fl_Timers fl).

(* ------------------------------------------------------------------ *)
(** ** Counting *)

Lemma is_req_eq id m m' : m_Kind m = m_Kind m' -> m_ID m = m_ID m' -> is_req id m = is_req id m'.
Proof. unfold is_req. by intros -> ->. Qed.

Lemma is_req_spec id m : is_req id m = true <-> m_Kind m = FleetRequest /\ m_ID m = id.
Proof. unfold is_req. by rewrite andb_true_iff, !bool_decide_eq_true. Qed.

Lemma reqs_app id f1 f2 : reqs id (f1 ++ f2) = reqs id f1 + reqs id f2.
Proof. apply count_app. Qed.
Lemma resps_app id f1 f2 : resps id (f1 ++ f2) = resps id f1 + resps id f2.
Proof. apply count_app. Qed.

Lemma unseen_reqs s f : unseen s f -> reqs s f = 0.
Proof.
  intros H. apply count_zero. intros e He. unfold ev_req.
  destruct (e_Message e) as [m|] eqn:E; [|done]. destruct (H e m He E) as [H1 _].
  unfold is_req. by rewrite (bool_decide_eq_false_2 (m_ID m = s)), andb_false_r.
Qed.

Lemma unseen_resps s f : unseen s f -> resps s f = 0.
Proof.
  intros H. apply count_zero. intros e He. unfold ev_resp.
  destruct (e_Message e) as [m|] eqn:E; [|done]. destruct (H e m He E) as [_ H1].
  by rewrite (bool_decide_eq_false_2 (m_InReplyTo m = s)), andb_false_r.
Qed.

Lemma unseen_app s f e :
  unseen s f -> (forall m, e_Message e = Some m -> m_ID m <> s /\ m_InReplyTo m <> s) ->
  unseen s (f ++ [e]).
Proof.
  intros H He x m [Hx| ->%list_elem_of_singleton]%elem_of_app Hm; [by apply (H x)|by apply He].
Qed.

Lemma reqs_seen id f : 0 < reqs id f -> exists e m, e ∈ f /\ e_Message e = Some m /\ m_ID m = id.
Proof.
  intros (e & He & Hp)%count_pos. unfold ev_req in Hp.
  destruct (e_Message e) as [m|] eqn:E; [|done].
  apply andb_true_iff in Hp as [[_ ?]%is_req_spec _]. eauto.
Qed.

Lemma msg_id_le n s : msg_id n s -> id_le n s.
Proof.
  intros (k & Hk & [->|[->|[j ->]]]); unfold request_id, timer_id; auto with claudia.
Qed.

Lemma msg_id_mono n n' s : (n <= n')%N -> msg_id n s -> msg_id n' s.
Proof. intros ? (k & ? & H). exists k. split; [lia|done]. Qed.

Lemma msg_id_nonempty n : ~ msg_id n "".
Proof. by intros (k & _ & [?|[?|[j ?]]]). Qed.

Lemma msg_id_not_check n k : ~ msg_id n (check_id k).
Proof.
  unfold check_id. intros (k' & _ & [H|[H|[j H]]]).
  - by apply mint_eq in H as [? _].
  - by apply mint_eq in H as [? _].
  - symmetry in H. by apply firing_ne_mint in H.
Qed.

(** An identifier above the counter is in nobody's log. *)
Lemma fresh_unseen D f A n T s :
  Cons D f A n T -> s <> "" -> (forall x, id_le n x -> x <> s) -> unseen s f.
Proof.
  intros C Hs Hn e m He Hm. split.
  - apply Hn, msg_id_le. by apply (cons_ids _ _ _ _ _ C e m).
  - destruct (cons_refs _ _ _ _ _ C e m He Hm) as [->|H]; [done|by apply Hn].
Qed.

Lemma mint_unseen D f A n T c k :
  Cons D f A n T -> (n < k)%N -> unseen (mint c k) f.
Proof.
  intros C Hk. eapply fresh_unseen; [done|done|]. intros x Hx ->. by apply mint_fresh in Hx.
Qed.

Lemma firing_unseen D f A n T c k j :
  Cons D f A n T -> (n < k)%N -> unseen (firing_id (mint c k) j) f.
Proof.
  intros C Hk. eapply fresh_unseen; [done|done|]. intros x Hx ->. by apply firing_fresh in Hx.
Qed.

(** ** Identifiers that no timer uses *)

Section Fresh.
Context (D : list FleetMessage) (f : list FleetEvent) (A : gmap string fleetAgentState)
  (n : N) (T : gmap string fleetTimerState) (C : Cons D f A n T).

Lemma fresh_for_mint c k : c <> byte 116 -> fresh_for T (mint c k).
Proof.
  intros Hc id t Ht. destruct (to_id _ _ _ _ (cons_timers _ _ _ _ _ C id t Ht)) as (k' & _ & ->).
  split.
  - intros [E _]%mint_eq. done.
  - intros j _ E. symmetry in E. by apply firing_ne_mint in E.
Qed.

Lemma fresh_for_nil : fresh_for T "".
Proof.
  intros id t Ht. destruct (to_id _ _ _ _ (cons_timers _ _ _ _ _ C id t Ht)) as (k' & _ & ->).
  done.
Qed.

(** An identifier the log has seen is no longer a timer's. *)
Lemma fresh_for_seen s e m :
  e ∈ f -> e_Message e = Some m -> m_ID m = s -> fresh_for T s.
Proof.
  intros He Hm Hs id t Ht. pose proof (cons_timers _ _ _ _ _ C id t Ht) as [_ _ Hu Hf].
  split.
  - intros ->. by destruct (Hu e m He Hm).
  - intros j Hj ->. by destruct (Hf j Hj e m He Hm).
Qed.

Lemma fresh_for_timer k : T !! timer_id k = None -> fresh_for T (timer_id k).
Proof.
  intros Hn id t Ht. destruct (to_id _ _ _ _ (cons_timers _ _ _ _ _ C id t Ht)) as (k' & _ & ->).
  split; [congruence|]. intros j _ E. symmetry in E. by apply firing_ne_mint in E.
Qed.

Lemma fresh_for_firing k j :
  (forall t, T !! timer_id k = Some t -> (j <= t_Fires t)%N) ->
  fresh_for T (firing_id (timer_id k) j).
Proof.
  intros Hn id t Ht. destruct (to_id _ _ _ _ (cons_timers _ _ _ _ _ C id t Ht)) as (k' & _ & ->).
  split; [apply firing_ne_mint|]. intros i Hi (_ & -> & ->)%firing_eq.
  apply Hn in Ht. lia.
Qed.
End Fresh.

(* ------------------------------------------------------------------ *)
(** ** What preserves [Cons] *)

(** Mailboxes change, no request enters or leaves. *)
Lemma cons_agents D f A A' n T :
  (forall id, pend id A' = pend id A) -> Cons D f A n T -> Cons D f A' n T.
Proof.
  intros H [H1 H2 H3 H4 H5 H6]. split; try done; intros id; rewrite H; [apply H2|apply H3].
Qed.

(** Taking requests out of a mailbox, or putting them back. *)
Lemma cons_move D D' f A A' n T :
  (forall id, pend id A' + count (is_req id) D' = pend id A + count (is_req id) D) ->
  Cons D f A n T -> Cons D' f A' n T.
Proof.
  intros H [H1 H2 H3 H4 H5 H6]. split; try done; intros id Hr; rewrite H; [by apply H2|by apply H3].
Qed.

(** An event that is no message. *)
Lemma cons_quiet_event D f A n T e :
  e_Message e = None -> Cons D f A n T -> Cons D (f ++ [e]) A n T.
Proof.
  intros He [H1 H2 H3 H4 H5 H6].
  assert (forall id, reqs id [e] = 0 /\ resps id [e] = 0) as Hz.
  { intros id. unfold reqs, resps. rewrite !count_one. unfold ev_req, ev_resp. by rewrite He. }
  split.
  - intros id. rewrite reqs_app, (proj1 (Hz id)), Nat.add_0_r. apply H1.
  - intros id. rewrite reqs_app, resps_app, (proj1 (Hz id)), (proj2 (Hz id)), !Nat.add_0_r. apply H2.
  - intros id. rewrite reqs_app, (proj1 (Hz id)), Nat.add_0_r. apply H3.
  - intros x m [Hx| ->%list_elem_of_singleton]%elem_of_app Hm; [eauto|congruence].
  - intros x m [Hx| ->%list_elem_of_singleton]%elem_of_app Hm; [eauto|congruence].
  - intros id t Ht. destruct (H6 id t Ht) as [G1 G2 G3 G4]. split; try done.
    + apply unseen_app; [done|congruence].
    + intros j Hj. apply unseen_app; [by apply G4|congruence].
Qed.

Lemma cons_timers_delete D f A n T id :
  Cons D f A n T -> Cons D f A n (delete id T).
Proof.
  intros [H1 H2 H3 H4 H5 H6]. split; try done. intros id' t Ht.
  apply lookup_delete_Some in Ht as [_ Ht]. by apply H6.
Qed.

Lemma cons_timers_insert D f A n T id t :
  Cons D f A n T -> timer_ok n f id t -> Cons D f A n (<[id := t]> T).
Proof.
  intros [H1 H2 H3 H4 H5 H6] Ht. split; try done. intros id' t' H.
  apply lookup_insert_Some in H as [[<- <-]|[_ H]]; [done|by apply H6].
Qed.

Lemma timer_ok_mono n n' f id t : (n <= n')%N -> timer_ok n f id t -> timer_ok n' f id t.
Proof.
  intros Hn [(k & ? & ?) H2 H3 H4]. split; try done. exists k. split; [lia|done].
Qed.

Lemma cons_next D f A n n' T : (n <= n')%N -> Cons D f A n T -> Cons D f A n' T.
Proof.
  intros Hn [H1 H2 H3 H4 H5 H6]. split; try done.
  - intros e m He Hm. eapply msg_id_mono; eauto.
  - intros e m He Hm. destruct (H5 e m He Hm) as [?|?]; [by left|right]. eapply id_le_mono; eauto.
  - intros id t Ht. eapply timer_ok_mono; eauto.
Qed.

(** A message enters the log, with what it does to the balance of each
    identifier. *)
Lemma cons_message D D' f A A' n n' T e m :
  Cons D f A n T -> e_Message e = Some m -> (n <= n')%N ->
  msg_id n' (m_ID m) -> (m_InReplyTo m = "" \/ id_le n' (m_InReplyTo m)) ->
  fresh_for T (m_ID m) -> fresh_for T (m_InReplyTo m) ->
  (forall id, ev_req id e = true -> reqs id f = 0 /\ resps id f = 0) ->
  (forall id, reqs id f + (if ev_req id e then 1 else 0) = 1 ->
     pend id A' + count (is_req id) D' + (if ev_resp id e then 1 else 0)
     = pend id A + count (is_req id) D + (if ev_req id e then 1 else 0)) ->
  (forall id, reqs id f = 0 -> ev_req id e = false ->
     pend id A' + count (is_req id) D' = pend id A + count (is_req id) D) ->
  Cons D' (f ++ [e]) A' n' T.
Proof.
  intros C He Hn Hid Href Hf1 Hf2 Hnew Hbal Hzero.
  pose proof (cons_next _ _ _ _ _ _ Hn C) as [H1 H2 H3 H4 H5 H6].
  assert (forall id, reqs id [e] = if ev_req id e then 1 else 0) as Hr1 by (intros; apply count_one).
  assert (forall id, resps id [e] = if ev_resp id e then 1 else 0) as Hr2 by (intros; apply count_one).
  split.
  - intros id. rewrite reqs_app, Hr1. specialize (H1 id).
    destruct (ev_req id e) eqn:E; [|lia]. destruct (Hnew id E). lia.
  - intros id. rewrite reqs_app, resps_app, Hr1, Hr2. intros Hr. specialize (Hbal id Hr).
    destruct (ev_req id e) eqn:E.
    + destruct (Hnew id E) as [Ez Er]. specialize (H3 id Ez). lia.
    + assert (reqs id f = 1) as E1 by lia. specialize (H2 id E1). lia.
  - intros id. rewrite reqs_app, Hr1. intros Hr. destruct (ev_req id e) eqn:E; [lia|].
    rewrite Hzero by (done || lia). apply H3. lia.
  - intros x m' [Hx| ->%list_elem_of_singleton]%elem_of_app Hm; [eauto|]. by simplify_eq.
  - intros x m' [Hx| ->%list_elem_of_singleton]%elem_of_app Hm; [eauto|]. by simplify_eq.
  - intros id t Ht. destruct (H6 id t Ht) as [G1 G2 G3 G4]. split; try done.
    + apply unseen_app; [done|]. intros m' Hm. simplify_eq.
      split; [by apply (Hf1 id t)|by apply (Hf2 id t)].
    + intros j Hj. apply unseen_app; [by apply G4|]. intros m' Hm. simplify_eq.
      split; [by apply (Hf1 id t)|by apply (Hf2 id t)].
Qed.

(** * What delivery changes

    Delivering a message, and noting that one was answered or taken up, change
    the log, the expectations, the armed waits, one counter and one mailbox.
    The lemmas say so by giving the resulting state, so that every invariant
    that speaks of other parts is preserved by computation. *)

(** [fl'] is [fl] with other expectations and armed waits. *)
Definition expect_only (fl fl' : Fleet) : Prop :=
  exists E tm, fl' = fl <| fl_group ::= fun g => g <| g_Expects := E |> |> <| fl_timers := tm |>.

Lemma upd_group_id (fl : Fleet) : fl <| fl_group ::= fun g => g |> = fl.
Proof. by destruct fl. Qed.

#[export] Instance expect_only_refl : Reflexive expect_only.
Proof.
  intros fl. exists (g_Expects (fl_group fl)), (fl_timers fl).
  by destruct fl as [[] ? ? ? ? ? ? ? ?].
Qed.

#[export] Instance expect_only_trans : Transitive expect_only.
Proof. intros fl1 fl2 fl3 (E1 & t1 & ->) (E2 & t2 & ->). exists E2, t2. reflexivity. Qed.

Lemma disarm_only key fl : expect_only fl (disarm key fl).
Proof.
  exists (g_Expects (fl_group fl)), (delete key (fl_timers fl)).
  by destruct fl as [[] ? ? ? ? ? ? ? ?].
Qed.

Lemma expects_only (f : gmap string fleetExpectState -> gmap string fleetExpectState) fl :
  expect_only fl (fl <| fl_group ::= fun g => g <| g_Expects ::= f |> |>).
Proof.
  exists (f (g_Expects (fl_group fl))), (fl_timers fl).
  by destruct fl as [[] ? ? ? ? ? ? ? ?].
Qed.

Lemma timers_only (f : gmap string Time -> gmap string Time) fl :
  expect_only fl (fl <| fl_timers ::= f |>).
Proof.
  exists (g_Expects (fl_group fl)), (f (fl_timers fl)).
  by destruct fl as [[] ? ? ? ? ? ? ? ?].
Qed.

#[export] Hint Resolve disarm_only expects_only timers_only : claudia.

Lemma answered_only id fl : expect_only fl (answered id fl).
Proof.
  unfold answered. case_match; [|reflexivity].
  etrans; [apply expects_only|]. etrans; apply disarm_only.
Qed.

Lemma accepted_only now id fl : expect_only fl (accepted now id fl).
Proof.
  unfold accepted. do 2 (case_match; [|reflexivity] || case_match; try reflexivity).
  all: etrans; [apply disarm_only|apply expects_only].
Qed.

Lemma armExpects_only now id e fl : expect_only fl (armExpects now id e fl).
Proof.
  unfold armExpects, armExpect. do 2 case_match; try reflexivity; try apply timers_only.
  etrans; apply timers_only.
Qed.

Lemma expect_only_expect now m accept answer fl : expect_only fl (expect now m accept answer fl).
Proof.
  unfold expect. case_match; [reflexivity|]. etrans; [apply expects_only|apply armExpects_only].
Qed.

Lemma dropExpectsOf_only name fl : expect_only fl (dropExpectsOf name fl).
Proof.
  unfold dropExpectsOf. generalize (map_to_list (g_Expects (fl_group fl))). intros l.
  revert fl. induction l as [|kv l IH]; intros fl; cbn; [reflexivity|].
  etrans; [|apply IH]. case_decide; [apply answered_only|reflexivity].
Qed.

(** The message as [deliver] stamps it, when the counter is at [n]. *)
Definition stamped (now : Time) (n : N) (m : FleetMessage) : FleetMessage :=
  let m := if decide (m_ID m = "") then m <| m_ID := request_id (n + 1) |> else m in
  let m := if IsZero (m_SentAt m) then m <| m_SentAt := now |> else m in
  m <| m_Text ::= boundFleetText |>.

Definition next_after (n : N) (m : FleetMessage) : N :=
  if decide (m_ID m = "") then (n + 1)%N else n.

(** The mailboxes after [m] arrives, and whether its target is gone. *)
Definition mailed (A : gmap string fleetAgentState) (m : FleetMessage)
    : gmap string fleetAgentState * bool :=
  if decide (m_To m = FleetOwner) then (A, false)
  else
    match A !! m_To m with
    | Some a => if a_Stopped a then (A, true)
                else (<[m_To m := a <| a_Inbox ::= fun q => q ++ [m] |>]> A, false)
    | None => (A, true)
    end.

Definition message_event (m : FleetMessage) : FleetEvent :=
  (new_event FleetEventMessage) <| e_Message := Some m |>.

Lemma stamp_message_eq now m g :
  stamp_message now m g =
    (stamped now (g_NextID g) m, g <| g_NextID := next_after (g_NextID g) m |>).
Proof. unfold stamp_message, stamped, next_after. case_decide; destruct g; reflexivity. Qed.

Section StampedProps.
Context (now : Time) (n : N) (m : FleetMessage).

Lemma stamped_Kind : m_Kind (stamped now n m) = m_Kind m.
Proof. unfold stamped. by repeat case_match. Qed.
Lemma stamped_From : m_From (stamped now n m) = m_From m.
Proof. unfold stamped. by repeat case_match. Qed.
Lemma stamped_To : m_To (stamped now n m) = m_To m.
Proof. unfold stamped. by repeat case_match. Qed.
Lemma stamped_InReplyTo : m_InReplyTo (stamped now n m) = m_InReplyTo m.
Proof. unfold stamped. by repeat case_match. Qed.
Lemma stamped_ID :
  m_ID (stamped now n m) = if decide (m_ID m = "") then request_id (n + 1) else m_ID m.
Proof. unfold stamped. by repeat case_match. Qed.
End StampedProps.

#[export] Hint Rewrite stamped_Kind stamped_From stamped_To stamped_InReplyTo : stamped.

(** [deliver_once] as a state. *)
Lemma deliver_once_shape now m fl :
  let g := fl_group fl in
  let m' := stamped now (g_NextID g) m in
  let A := mailed (g_Agents g) m' in
  exists E tm,
    deliver_once now m fl =
      (fl <| fl_group := g <| g_NextID := next_after (g_NextID g) m |>
                           <| g_Expects := E |> <| g_Agents := A.1 |> |>
          <| fl_log ::= append_event now (message_event m') |>
          <| fl_timers := tm |>, m', A.2).
Proof.
  intros g m' A. unfold deliver_once. fold g. rewrite stamp_message_eq.
  cbn [fst snd]. fold m'.
  set (fl0 := fl <| fl_group := _ |>).
  assert (expect_only fl0 (if decide (m_Kind m' = FleetResponse /\ m_InReplyTo m' <> "")
                           then answered (m_InReplyTo m') fl0 else fl0)) as (E & tm & ->).
  { case_decide; [apply answered_only|reflexivity]. }
  exists E, tm. subst fl0 A. clearbody m'. unfold mailed, fl_Agents, event, message_event.
  cbn -[append_event new_event].
  case_decide; [by destruct fl as [[] ? ? ? ? ? ? ? ?]|].
  destruct (g_Agents g !! m_To m') as [a|]; [destruct (a_Stopped a)|];
    by destruct fl as [[] ? ? ? ? ? ? ? ?].
Qed.

(** ** What a delivery leaves alone *)

(** An agent without its queue. *)
Definition strip_inbox (a : fleetAgentState) : fleetAgentState := a <| a_Inbox := [] |>.

(** The log only grows, and stays well numbered. *)
Definition log_grows (l l' : fleetLog) : Prop :=
  (exists es, l_file l' = l_file l ++ es) /\ (LogInv l -> LogInv l').

#[export] Instance log_grows_refl : Reflexive log_grows.
Proof. intros l. split; [|done]. exists []. by rewrite app_nil_r. Qed.

#[export] Instance log_grows_trans : Transitive log_grows.
Proof.
  intros l1 l2 l3 [[e1 H1] G1] [[e2 H2] G2]. split; [|by auto].
  exists (e1 ++ e2). by rewrite H2, H1, app_assoc.
Qed.

Lemma append_grows now e l : e_Check e = None -> log_grows l (append_event now e l).
Proof.
  intros He. assert (event_encodable e = true) as Hc by (unfold event_encodable; by rewrite He).
  split; [|by apply LogInv_append].
  unfold append_event. cbn -[ring]. case_match; [by eexists|]. exists []. by rewrite app_nil_r.
Qed.

(** [fl'] is [fl] after some deliveries: only queues, the counter, the
    expectations with their waits, and the log differ. *)
Definition mail_only (fl fl' : Fleet) : Prop :=
  exists n E A lg tm,
    fl' = fl <| fl_group ::= fun g => g <| g_NextID := n |> <| g_Expects := E |> <| g_Agents := A |> |>
             <| fl_log := lg |> <| fl_timers := tm |>
    /\ (g_NextID (fl_group fl) <= n)%N
    /\ strip_inbox <$> A = strip_inbox <$> fl_Agents fl
    /\ log_grows (fl_log fl) lg.

#[export] Instance mail_only_refl : Reflexive mail_only.
Proof.
  intros fl. exists (g_NextID (fl_group fl)), (g_Expects (fl_group fl)), (fl_Agents fl),
    (fl_log fl), (fl_timers fl). split_and!; try done. by destruct fl as [[] ? ? ? ? ? ? ? ?].
Qed.

#[export] Instance mail_only_trans : Transitive mail_only.
Proof.
  intros fl1 fl2 fl3 (n1 & E1 & A1 & l1 & t1 & -> & Hn1 & HA1 & Hl1)
    (n2 & E2 & A2 & l2 & t2 & -> & Hn2 & HA2 & Hl2).
  exists n2, E2, A2, l2, t2. cbn in *. split_and!; [done|lia|congruence|by etrans].
Qed.

Lemma expect_mail_only fl fl' : expect_only fl fl' -> mail_only fl fl'.
Proof.
  intros (E & tm & ->).
  by exists (g_NextID (fl_group fl)), E, (fl_Agents fl), (fl_log fl), tm.
Qed.

Lemma strip_mailed A m : strip_inbox <$> (mailed A m).1 = strip_inbox <$> A.
Proof.
  unfold mailed. case_decide; [done|].
  destruct (A !! m_To m) as [a|] eqn:E; [destruct (a_Stopped a)|]; cbn [fst]; try done.
  rewrite fmap_insert. apply insert_id. by rewrite lookup_fmap, E.
Qed.

Lemma event_mail_only now e fl : e_Check e = None -> mail_only fl (event now e fl).
Proof.
  intros He. exists (g_NextID (fl_group fl)), (g_Expects (fl_group fl)), (fl_Agents fl),
    (append_event now e (fl_log fl)), (fl_timers fl).
  split_and!; [by destruct fl as [[] ? ? ? ? ? ? ? ?]|done|done|by apply append_grows].
Qed.

Lemma deliver_once_mail_only now m fl : mail_only fl (deliver_once now m fl).1.1.
Proof.
  destruct (deliver_once_shape now m fl) as (E & tm & ->). cbn [fst].
  set (m' := stamped _ _ _).
  exists (next_after (g_NextID (fl_group fl)) m), E, (mailed (fl_Agents fl) m').1,
    (append_event now (message_event m') (fl_log fl)), tm.
  split_and!.
  - by destruct fl as [[] ? ? ? ? ? ? ? ?].
  - unfold next_after. case_decide; lia.
  - apply strip_mailed.
  - by apply append_grows.
Qed.

Lemma deliver_mail_only now m fl : mail_only fl (deliver now m fl).
Proof.
  unfold deliver. case_match; [|apply deliver_once_mail_only].
  etrans; apply deliver_once_mail_only.
Qed.

Lemma foldl_mail_only {B} (f : Fleet -> B -> Fleet) l fl :
  (forall fl x, mail_only fl (f fl x)) -> mail_only fl (foldl f fl l).
Proof.
  intros H. revert fl. induction l as [|x l IH]; intros fl; cbn; [reflexivity|].
  etrans; [apply H|apply IH].
Qed.

#[export] Hint Resolve deliver_mail_only event_mail_only : claudia.

(** What [mail_only] keeps, as equations. *)
Section MailOnly.
Context (fl fl' : Fleet) (H : mail_only fl fl').

Lemma mail_only_Timers : fl_Timers fl' = fl_Timers fl.
Proof. by destruct H as (? & ? & ? & ? & ? & -> & _). Qed.
Lemma mail_only_Budgets : g_Budgets (fl_group fl') = g_Budgets (fl_group fl).
Proof. by destruct H as (? & ? & ? & ? & ? & -> & _). Qed.
Lemma mail_only_runs : g_CheckRuns (fl_group fl') = g_CheckRuns (fl_group fl).
Proof. by destruct H as (? & ? & ? & ? & ? & -> & _). Qed.
Lemma mail_only_running : fl_running fl' = fl_running fl.
Proof. by destruct H as (? & ? & ? & ? & ? & -> & _). Qed.
Lemma mail_only_next : (g_NextID (fl_group fl) <= g_NextID (fl_group fl'))%N.
Proof. by destruct H as (? & ? & ? & ? & ? & -> & ? & _). Qed.
Lemma mail_only_log : log_grows (fl_log fl) (fl_log fl').
Proof. by destruct H as (? & ? & ? & ? & ? & -> & _ & _ & ?). Qed.
Lemma mail_only_strip : strip_inbox <$> fl_Agents fl' = strip_inbox <$> fl_Agents fl.
Proof. by destruct H as (? & ? & ? & ? & ? & -> & _ & ? & _). Qed.

(** Each agent is there, with its queue changed at most. *)
Lemma mail_only_lookup name a :
  fl_Agents fl !! name = Some a ->
  exists q, fl_Agents fl' !! name = Some (a <| a_Inbox := q |>).
Proof.
  intros Ha. pose proof (f_equal (fun m => m !! name) mail_only_strip) as E.
  cbn in E. rewrite !lookup_fmap, Ha in E. destruct (fl_Agents fl' !! name) as [a'|]; [|done].
  apply (inj Some) in E. exists (a_Inbox a'). f_equal.
  transitivity ((strip_inbox a') <| a_Inbox := a_Inbox a' |>); [by destruct a'|].
  rewrite E. by destruct a.
Qed.

Lemma mail_only_lookup_None name :
  fl_Agents fl' !! name = None <-> fl_Agents fl !! name = None.
Proof.
  pose proof (f_equal (fun m => m !! name) mail_only_strip) as E.
  cbn in E. rewrite !lookup_fmap in E.
  destruct (fl_Agents fl !! name), (fl_Agents fl' !! name); cbn in E; split; congruence.
Qed.
End MailOnly.
