(* ===== verification/FleetMail.v ===== *)
(** * FleetMail: delivery keeps requests accounted for

    [FCons] through [deliver] and through the operations built on it that the
    other files share: owed answers, held turns, scheduled messages dropped. *)

From S2P Require Import Prelude GoLib FleetNames FleetTypes FleetAuthority FleetLog FleetBudget FleetDeliver FleetTimer FleetCons.

(** ** Mailboxes *)

Lemma owes_inbox id a q m :
  a_Inbox a = q -> owes id (a <| a_Inbox := q ++ [m] |>) = owes id a + (if is_req id m then 1 else 0).
Proof. intros <-. unfold owes, mail. cbn. rewrite !count_app, count_one. lia. Qed.

Lemma pend_alter id name (f : fleetAgentState -> fleetAgentState) A :
  (forall a, A !! name = Some a -> owes id (f a) = owes id a) -> pend id (alter f name A) = pend id A.
Proof.
  intros H. unfold pend. destruct (A !! name) as [a|] eqn:E.
  - assert (alter f name A = <[name := f a]> A) as ->.
    { apply map_eq. intros k. destruct (decide (k = name)) as [->|Hne].
      - by rewrite lookup_alter_eq, lookup_insert_eq, E.
      - by rewrite lookup_alter_ne, lookup_insert_ne. }
    apply (map_sum_insert_same _ A name a); [done|]. symmetry. by apply H.
  - f_equal. apply map_eq. intros k. destruct (decide (k = name)) as [->|Hne].
    + by rewrite lookup_alter_eq, E.
    + by rewrite lookup_alter_ne.
Qed.

Lemma pend_insert id name a b A :
  A !! name = Some a -> pend id (<[name := b]> A) + owes id a = pend id A + owes id b.
Proof. apply map_sum_insert_old. Qed.

Lemma pend_new id name a A :
  A !! name = None -> pend id (<[name := a]> A) = owes id a + pend id A.
Proof. apply map_sum_insert_new. Qed.

Lemma pend_delete id name a A :
  A !! name = Some a -> pend id A = owes id a + pend id (delete name A).
Proof. apply map_sum_delete. Qed.

Lemma pend_fmap id (f : fleetAgentState -> fleetAgentState) A :
  (forall n a, A !! n = Some a -> owes id (f a) = owes id a) -> pend id (f <$> A) = pend id A.
Proof. intros H. unfold pend. rewrite map_sum_fmap. by apply map_sum_ext. Qed.

Lemma pend_mailed id A m :
  m_To m <> FleetOwner ->
  pend id (mailed A m).1 + (if (mailed A m).2 && is_req id m then 1 else 0) =
  pend id A + (if is_req id m then 1 else 0).
Proof.
  intros Ho. unfold mailed. rewrite decide_False by done.
  destruct (A !! m_To m) as [a|] eqn:E; [destruct (a_Stopped a)|]; cbn; [lia| |lia].
  pose proof (pend_insert id (m_To m) a (a <| a_Inbox ::= fun q => q ++ [m] |>) A E) as H.
  pose proof (owes_inbox id a (a_Inbox a) m eq_refl) as Hi.
  change (a <| a_Inbox := a_Inbox a ++ [m] |>) with (a <| a_Inbox ::= fun q => q ++ [m] |>) in Hi.
  lia.
Qed.

Lemma pend_mailed_not id A m : is_req id m = false -> pend id (mailed A m).1 = pend id A.
Proof.
  intros Hr. destruct (decide (m_To m = FleetOwner)) as [E|E].
  - unfold mailed. by rewrite decide_True.
  - pose proof (pend_mailed id A m E) as H. rewrite Hr, andb_false_r in H. lia.
Qed.

(** ** One delivery *)

Lemma FCons_only D fl fl' : expect_only fl fl' -> FCons D fl <-> FCons D fl'.
Proof. by intros (E & tm & ->). Qed.

(** The stamped message's identifier is one a message may have. *)
Definition good_id (n : N) (T : gmap string fleetTimerState) (f : list FleetEvent) (s : string) : Prop :=
  s = "" \/ (msg_id n s /\ fresh_for T s /\ unseen s f).

Section DeliverCons.
Context {GF : GoFormat}.
Variable now : Time.

Lemma stamped_good D f A n T m :
  Cons D f A n T -> good_id n T f (m_ID m) ->
  let m' := stamped now n m in
  msg_id (next_after n m) (m_ID m') /\ fresh_for T (m_ID m') /\ unseen (m_ID m') f
  /\ (n <= next_after n m)%N.
Proof.
  intros C Hg m'. subst m'. rewrite stamped_ID. unfold next_after.
  destruct (decide (m_ID m = "")) as [E|E].
  - split_and!; [|by eapply fresh_for_mint|eapply mint_unseen; [done|lia]|lia].
    exists (n + 1)%N. split; [lia|by left].
  - destruct Hg as [?|(?&?&?)]; [done|]. split_and!; done || lia.
Qed.

(** What [append_event] does to the file, for a message. *)
Lemma append_message_file m log :
  exists e, l_file (append_event now (message_event m) log) = l_file log ++ [e]
    /\ e_Message e = Some m.
Proof. by eexists. Qed.

Lemma append_quiet_file e log :
  e_Message e = None ->
  l_file (append_event now e log) = l_file log \/
  exists e', l_file (append_event now e log) = l_file log ++ [e'] /\ e_Message e' = None.
Proof.
  intros He. unfold append_event. cbn [l_file]. case_match; [right|by left].
  eexists. split; [done|]. done.
Qed.

(** An event that is no message. *)
Lemma event_cons D e fl : e_Message e = None -> FCons D fl -> FCons D (event now e fl).
Proof.
  intros He C. unfold FCons, event. cbn -[append_event].
  destruct (append_quiet_file e (fl_log fl) He) as [->|(e' & -> & He')]; [done|].
  by apply cons_quiet_event.
Qed.

(** A message other than a request: a response settles one entry of the
    debt. *)
Lemma deliver_once_other D D' m fl :
  FCons D fl -> m_Kind m <> FleetRequest ->
  let g := fl_group fl in
  good_id (g_NextID g) (g_Timers g) (l_file (fl_log fl)) (m_ID m) ->
  (m_InReplyTo m = "" \/ id_le (g_NextID g) (m_InReplyTo m)) ->
  fresh_for (g_Timers g) (m_InReplyTo m) ->
  (forall id, reqs id (l_file (fl_log fl)) = 1 ->
    count (is_req id) D' + (if bool_decide (m_Kind m = FleetResponse) && bool_decide (m_InReplyTo m = id)
                            then 1 else 0) = count (is_req id) D) ->
  (forall id, reqs id (l_file (fl_log fl)) = 0 -> count (is_req id) D' = count (is_req id) D) ->
  FCons D' (deliver_once now m fl).1.1.
Proof.
  intros C Hk g Hid Href Hfr Hbal Hzero.
  destruct (deliver_once_shape now m fl) as (E & tm & ->). cbn [fst].
  fold g. set (m' := stamped now (g_NextID g) m).
  destruct (stamped_good _ _ _ _ _ m C Hid) as (G1 & G2 & G3 & G4). fold g in G1, G2, G3, G4. fold m' in G1, G2, G3.
  assert (m_Kind m' = m_Kind m) as Ek by apply stamped_Kind.
  assert (m_InReplyTo m' = m_InReplyTo m) as Er by apply stamped_InReplyTo.
  assert (forall id, is_req id m' = false) as Hnr.
  { intros id. unfold is_req. by rewrite bool_decide_eq_false_2 by congruence. }
  clearbody m'. unfold FCons. cbn -[append_event message_event].
  destruct (append_message_file m' (fl_log fl)) as (e & -> & He).
  assert (forall id, ev_req id e = false) as Her by (intros; unfold ev_req; by rewrite He, Hnr).
  eapply cons_message; [exact C|exact He|exact G4|exact G1| |exact G2|by rewrite Er|..].
  - rewrite Er. destruct Href as [?|?]; [by left|right]. by eapply id_le_mono.
  - intros id. by rewrite Her.
  - intros id. rewrite Her, Nat.add_0_r. intros Hr. rewrite pend_mailed_not by apply Hnr.
    specialize (Hbal id Hr). unfold ev_resp. rewrite He, Ek, Er.
    unfold fl_Agents. fold g. lia.
  - intros id Hr _. rewrite pend_mailed_not by apply Hnr. rewrite Hzero by done. done.
Qed.

(** A request to an agent: waiting, or in debt when the agent is gone. *)
Lemma deliver_once_request D m fl :
  FCons D fl -> m_Kind m = FleetRequest -> m_InReplyTo m = "" ->
  good_id (g_NextID (fl_group fl)) (fl_Timers fl) (l_file (fl_log fl)) (m_ID m) ->
  let r := deliver_once now m fl in
  FCons (if r.2 then r.1.2 :: D else D) r.1.1
  /\ m_Kind r.1.2 = FleetRequest
  /\ (r.2 = true -> 0 < reqs (m_ID r.1.2) (l_file (fl_log r.1.1))).
Proof.
  intros C Hk Hre Hid r. subst r. unfold fl_Timers in Hid.
  destruct (deliver_once_shape now m fl) as (E & tm & ->). cbn [fst snd].
  set (g := fl_group fl) in *. set (m' := stamped now (g_NextID g) m).
  destruct (stamped_good _ _ _ _ _ m C Hid) as (G1 & G2 & G3 & G4). fold g in G1, G2, G3, G4.
  fold m' in G1, G2, G3.
  assert (m_Kind m' = FleetRequest) as Ek by (etrans; [apply stamped_Kind|done]).
  assert (m_InReplyTo m' = "") as Er by (etrans; [apply stamped_InReplyTo|done]).
  clearbody m'. unfold FCons. cbn -[append_event message_event].
  destruct (append_message_file m' (fl_log fl)) as (e & -> & He).
  assert (forall id, ev_req id e = is_req id m' && negb (bool_decide (m_To m' = FleetOwner))) as Her
    by (intros; unfold ev_req; by rewrite He).
  assert (forall id, ev_resp id e = false) as Hes.
  { intros id. unfold ev_resp. by rewrite He, Ek. }
  assert (forall id, is_req id m' = true -> reqs id (l_file (fl_log fl)) = 0
            /\ resps id (l_file (fl_log fl)) = 0) as Hz.
  { intros id [_ <-]%is_req_spec. split; [by apply unseen_reqs|by apply unseen_resps]. }
  split; [|split; [done|]].
  - assert (forall id, pend id (mailed (g_Agents g) m').1
        + count (is_req id) (if (mailed (g_Agents g) m').2 then m' :: D else D)
        = pend id (g_Agents g) + count (is_req id) D + (if ev_req id e then 1 else 0)) as Hbal.
    { intros id. rewrite Her. destruct (decide (m_To m' = FleetOwner)) as [Eo|Eo].
      - rewrite bool_decide_eq_true_2, andb_false_r by done. unfold mailed. rewrite decide_True by done.
        cbn [fst snd]. lia.
      - rewrite bool_decide_eq_false_2, andb_true_r by done.
        pose proof (pend_mailed id (g_Agents g) m' Eo) as H.
        destruct (mailed (g_Agents g) m').2; rewrite ?count_cons; cbn [andb] in H; lia. }
    eapply cons_message; [exact C|exact He|exact G4|exact G1| |exact G2| |..].
    + by left.
    + rewrite Er. by eapply fresh_for_nil.
    + intros id. rewrite Her. intros [H _]%andb_true_iff. by apply Hz.
    + intros id _. rewrite Hes, Nat.add_0_r. apply Hbal.
    + intros id _ Hf. rewrite Hbal, Hf. apply Nat.add_0_r.
  - intros Hgone. rewrite reqs_app. unfold reqs at 2. rewrite count_one, Her.
    assert (m_To m' <> FleetOwner) as Eo.
    { intros Eo. unfold mailed in Hgone. by rewrite decide_True in Hgone. }
    rewrite (proj2 (is_req_spec _ _)) by done. rewrite bool_decide_eq_false_2 by done. cbn. lia.
Qed.

(** ** Whole deliveries *)

Lemma deliver_not_request m fl :
  m_Kind m <> FleetRequest -> deliver now m fl = (deliver_once now m fl).1.1.
Proof.
  intros Hk. unfold deliver.
  destruct (deliver_once_shape now m fl) as (E & tm & Eq). rewrite Eq. cbn [fst snd].
  rewrite stamped_Kind, (bool_decide_eq_false_2 (m_Kind m = FleetRequest)), andb_false_r by done.
  done.
Qed.

(** A response to [x] pays the debt. *)
Lemma deliver_answers D x from to text fl :
  m_Kind x = FleetRequest -> FCons (x :: D) fl ->
  FCons D (deliver now (new_message FleetResponse from to (m_ID x) text) fl).
Proof.
  intros Hx C. rewrite deliver_not_request by done.
  assert (reqs (m_ID x) (l_file (fl_log fl)) = 1) as Hr1.
  { pose proof (cons_le _ _ _ _ _ C (m_ID x)) as Hle.
    destruct (decide (reqs (m_ID x) (l_file (fl_log fl)) = 0)) as [Ez|]; [|lia].
    apply (cons_zero _ _ _ _ _ C) in Ez. rewrite count_cons in Ez.
    rewrite (proj2 (is_req_spec _ _)) in Ez by done. lia. }
  destruct (reqs_seen (m_ID x) (l_file (fl_log fl))) as (e & m & He & Hm & Hid); [lia|].
  eapply deliver_once_other; [exact C|done|by left|..].
  - right. rewrite <-Hid. apply msg_id_le. by apply (cons_ids _ _ _ _ _ C e m).
  - cbn. rewrite <-Hid. by eapply fresh_for_seen.
  - intros id Hr. cbn [m_Kind m_InReplyTo new_message].
    rewrite count_cons.
    assert (is_req id x = bool_decide (m_ID x = id)) as ->.
    { unfold is_req. by rewrite (bool_decide_eq_true_2 (m_Kind x = FleetRequest)). }
    rewrite (bool_decide_eq_true_2 (FleetResponse = FleetResponse)) by done. cbn [andb]. lia.
  - intros id Hr. rewrite count_cons.
    destruct (is_req id x) eqn:Ex; [|lia]. apply is_req_spec in Ex as [_ <-]. lia.
Qed.

(** A message that answers nothing and is no request. *)
Lemma deliver_plain D kind from to re text fl :
  kind <> FleetRequest -> FCons D fl ->
  (re = "" \/ id_le (g_NextID (fl_group fl)) re) -> fresh_for (fl_Timers fl) re ->
  reqs re (l_file (fl_log fl)) = 0 ->
  FCons D (deliver now (new_message kind from to re text) fl).
Proof.
  intros Hk C Hre Hf Hz. rewrite deliver_not_request by done.
  eapply deliver_once_other; [exact C|done|by left|done|done|..]; [|done].
  intros id Hr. cbn. rewrite (bool_decide_eq_false_2 (re = id)) by (intros ->; lia).
  rewrite andb_false_r. lia.
Qed.

Lemma reqs_nil D f A n T : Cons D f A n T -> reqs "" f = 0.
Proof.
  intros C. destruct (decide (reqs "" f = 0)) as [?|Hn]; [done|].
  destruct (reqs_seen "" f) as (e & m & He & Hm & Hid); [lia|].
  pose proof (cons_ids _ _ _ _ _ C e m He Hm) as Hm'. rewrite Hid in Hm'.
  by apply msg_id_nonempty in Hm'.
Qed.

(** News, with no reference. *)
Lemma deliver_news D kind from to text fl :
  kind <> FleetRequest -> FCons D fl ->
  FCons D (deliver now (new_message kind from to "" text) fl).
Proof.
  intros Hk C. apply deliver_plain; [done|done|by left|by eapply fresh_for_nil|].
  by eapply reqs_nil.
Qed.

(** A message whose identifier the log has not seen, in whatever kind a
    timer or a sender may have. *)
Lemma deliver_new D m fl :
  m_Kind m <> FleetResponse -> m_InReplyTo m = "" ->
  good_id (g_NextID (fl_group fl)) (fl_Timers fl) (l_file (fl_log fl)) (m_ID m) ->
  FCons D fl -> FCons D (deliver now m fl).
Proof.
  intros Hk Hre Hid C. destruct (decide (m_Kind m = FleetRequest)) as [Er|Er].
  - destruct (deliver_once_request D m fl C Er Hre Hid) as (C' & Ek & Hpos).
    unfold deliver. destruct (deliver_once now m fl) as [[fl1 m1] gone]. cbn [fst snd] in *.
    destruct gone; cbn [andb].
    + rewrite bool_decide_eq_true_2 by done.
      rewrite <-deliver_not_request by done. by apply deliver_answers.
    + done.
  - rewrite deliver_not_request by done.
    eapply deliver_once_other; [exact C|done|done|by left|rewrite Hre; by eapply fresh_for_nil|..].
    + intros id _. rewrite (bool_decide_eq_false_2 (m_Kind m = FleetResponse)) by done. cbn. lia.
    + done.
Qed.

(** ** Owed answers *)

Lemma answer_one_cons D name failure m fl :
  FCons (m :: D) fl -> FCons D (answer_one now name failure fl m).
Proof.
  intros C. unfold answer_one. case_decide as Hk; [by apply deliver_answers|].
  eapply cons_move; [|exact C]. intros id. rewrite count_cons.
  destruct (is_req id m) eqn:E; [|lia]. by apply is_req_spec in E as [? _].
Qed.

(** A loop that settles a list of messages one by one. *)
Lemma foldl_settles (f : Fleet -> FleetMessage -> Fleet) D l fl :
  (forall D m fl, FCons (m :: D) fl -> FCons D (f fl m)) ->
  FCons (l ++ D) fl -> FCons D (foldl f fl l).
Proof.
  intros Hf. revert fl. induction l as [|m l IH]; intros fl C; cbn; [done|].
  apply IH. by apply Hf.
Qed.

Lemma count_turnMessages id a :
  count (is_req id) (turnMessages a) = count (is_req id) (option_list (a_Current a) ++ a_Steered a).
Proof. unfold turnMessages. rewrite count_map. by apply count_ext. Qed.

Lemma owes_owed id a : count (is_req id) (turnMessages a ++ a_Inbox a) = owes id a.
Proof. unfold owes, mail. rewrite count_app, count_turnMessages, !count_app. lia. Qed.

Lemma answerOwed_cons D a failure fl :
  FCons (turnMessages a ++ a_Inbox a ++ D) fl -> FCons D (answerOwed now a failure fl).1.
Proof.
  intros C. unfold answerOwed. cbn [fst]. apply foldl_settles; [intros; by apply answer_one_cons|].
  by rewrite <-app_assoc.
Qed.

Lemma routeReply_cons D a m text fl :
  FCons (m :: D) fl -> FCons D (routeReply now a m text fl).
Proof.
  intros C. unfold routeReply. case_decide as Hk; [by apply deliver_answers|].
  assert (FCons D fl) as C'.
  { eapply cons_move; [|exact C]. intros id. rewrite count_cons.
    destruct (is_req id m) eqn:E; [|lia]. by apply is_req_spec in E as [? _]. }
  case_match; [done|]. by apply deliver_news.
Qed.

(** ** Budgets and saves *)

Lemma save_or_log_cons D fl : FCons D fl -> FCons D (save_or_log fl).
Proof. unfold save_or_log, save. by case_match. Qed.

Lemma save_cons D fl : FCons D fl -> FCons D (save fl).1.
Proof. apply save_or_log_cons. Qed.

Lemma blocked_cons D a fl : FCons D fl -> FCons D (blocked now a fl).1.
Proof.
  intros C. unfold blocked. destruct (first_spent _ _ _) as [[[id b] reason]|]; [|done].
  case_match; [done|]. cbn [fst]. apply save_or_log_cons. by apply deliver_news.
Qed.

(** ** Dropping scheduled messages *)

Lemma dropTimer_cons D id fl : FCons D fl -> FCons D (dropTimer id fl).
Proof. intros C. by apply cons_timers_delete. Qed.

Lemma dropTimer_other id id' t fl :
  id <> id' -> fl_Timers fl !! id' = Some t -> fl_Timers (dropTimer id fl) !! id' = Some t.
Proof. intros Hne Ht. unfold fl_Timers, dropTimer, disarm, upd_timers. cbn. by rewrite lookup_delete_ne. Qed.

Lemma dropTimerOf_cons D name failure kv fl :
  FCons D fl -> fl_Timers fl !! kv.1 = Some kv.2 -> FCons D (dropTimerOf now name failure fl kv).
Proof.
  intros C Ht. unfold dropTimerOf. case_decide; [done|].
  assert (FCons D (dropTimer kv.1 fl)) as C' by by apply dropTimer_cons.
  case_decide; [|done].
  destruct (cons_timers _ _ _ _ _ C _ _ Ht) as [(k & Hk & Ek) _ Hu _].
  apply deliver_plain; [done|done|..].
  - right. rewrite Ek. by apply id_le_mint.
  - assert (fl_Timers (dropTimer kv.1 fl) !! timer_id k = None) as Hn.
    { unfold fl_Timers, dropTimer, disarm, upd_timers. cbn. rewrite Ek. by rewrite lookup_delete_eq. }
    pose proof (fresh_for_timer _ _ _ _ _ C' k Hn) as Hf. by rewrite <-Ek in Hf.
  - by apply unseen_reqs.
Qed.

Lemma dropTimerOf_other name failure kv fl id t :
  kv.1 <> id -> fl_Timers fl !! id = Some t ->
  fl_Timers (dropTimerOf now name failure fl kv) !! id = Some t.
Proof.
  intros Hne Ht. unfold dropTimerOf. case_decide; [done|].
  assert (fl_Timers (dropTimer kv.1 fl) !! id = Some t) by by apply dropTimer_other.
  case_decide; [|done]. by erewrite mail_only_Timers by apply deliver_mail_only.
Qed.

Lemma dropTimersOf_loop D name failure l fl :
  NoDup l.*1 -> (forall kv, kv ∈ l -> fl_Timers fl !! kv.1 = Some kv.2) ->
  FCons D fl -> FCons D (foldl (dropTimerOf now name failure) fl l).
Proof.
  revert fl. induction l as [|kv l IH]; intros fl Hnd Hl C; cbn; [done|].
  cbn in Hnd. apply list.NoDup_cons in Hnd as [Hn Hnd]. apply IH; [done| |].
  - intros kv' Hkv. apply dropTimerOf_other; [|apply Hl; by right].
    intros E. apply Hn. rewrite E. by apply list_elem_of_fmap_2.
  - apply dropTimerOf_cons; [done|]. apply Hl. by left.
Qed.

Lemma dropTimersOf_cons D name failure fl :
  FCons D fl -> FCons D (dropTimersOf now name failure fl).
Proof.
  intros C. apply dropTimersOf_loop; [apply NoDup_fst_map_to_list| |done].
  intros [id t] Hin. by apply elem_of_map_to_list in Hin.
Qed.
End DeliverCons.

#[export] Hint Resolve deliver_news save_or_log_cons save_cons blocked_cons dropTimersOf_cons : claudia.
