(* ===== verification/FleetAccounts.v ===== *)
(** * FleetAccounts: every operation keeps requests accounted for

    One lemma per operation of the kernel: it preserves [FCons []], so no
    operation loses a request, answers one twice, or answers one that is
    still waiting. *)

From S2P Require Import Prelude GoLib FleetNames FleetTypes FleetAuthority FleetLog FleetBudget FleetDeliver FleetTimer FleetTurn FleetExpedite FleetCheck FleetLifecycle FleetCons FleetMail.

(** ** Mailboxes that are only rearranged *)

(** The agent's mail holds the same requests. *)
Definition same_mail (a b : fleetAgentState) : Prop := forall id, owes id a = owes id b.

Lemma upd_agent_cons D name f fl :
  (forall a, fl_Agents fl !! name = Some a -> same_mail (f a) a) ->
  FCons D fl -> FCons D (upd_agent name f fl).
Proof.
  intros H C. unfold FCons, upd_agent, upd_agents, fl_Agents. cbn.
  eapply cons_agents; [|exact C]. intros id. apply pend_alter. intros a Ha. by apply H.
Qed.

Lemma upd_agents_fmap_cons D f fl :
  (forall a, same_mail (f a) a) -> FCons D fl -> FCons D (upd_agents (fmap f) fl).
Proof.
  intros H C. unfold FCons, upd_agents, fl_Agents. cbn.
  eapply cons_agents; [|exact C]. intros id. apply pend_fmap. intros n a _. apply H.
Qed.

(** The parts of an agent that are not mail. *)
Lemma same_mail_parts a b :
  a_Current a = a_Current b -> a_Steered a = a_Steered b -> a_Inbox a = a_Inbox b -> same_mail a b.
Proof. intros H1 H2 H3 id. unfold owes, mail. by rewrite H1, H2, H3. Qed.

Lemma requeue_mail a : same_mail (requeue a) a.
Proof. intros id. unfold owes at 1, mail, requeue. cbn. apply owes_owed. Qed.

Lemma to_front_count {A} (p : A -> bool) i l : count p (to_front i l) = count p l.
Proof.
  unfold to_front. destruct (l !! i) as [x|] eqn:E; [|done].
  by rewrite count_cons, (count_delete_middle p l i x E).
Qed.

Lemma to_front_mail i a : same_mail (a <| a_Inbox ::= to_front i |>) a.
Proof. intros id. unfold owes, mail. cbn. by rewrite !count_app, to_front_count. Qed.

Lemma reclaim_mail j a : same_mail (reclaim j a) a.
Proof.
  intros id. unfold reclaim. destruct (a_Steered a !! j) as [m|] eqn:E; [|done].
  unfold owes, mail. cbn -[count]. rewrite !count_app, count_cons.
  rewrite (count_delete_middle (is_req id) (a_Steered a) j m E).
  change (is_req id (m <| m_Reclaimed := true |>)) with (is_req id m). lia.
Qed.

Lemma unreclaim_mail i a : same_mail (unreclaim i a) a.
Proof.
  intros id. unfold unreclaim. destruct (a_Inbox a !! i) as [m|] eqn:E; [|done].
  unfold owes, mail. cbn -[count]. rewrite !count_app, count_one.
  rewrite (count_delete_middle (is_req id) (a_Inbox a) i m E).
  change (is_req id (m <| m_Reclaimed := false |>)) with (is_req id m). lia.
Qed.

Lemma steer_head_mail a : same_mail (steer_head a) a.
Proof.
  intros id. unfold steer_head. destruct (a_Inbox a) as [|m rest] eqn:E; [done|].
  unfold owes, mail. cbn -[count]. rewrite E, !count_app, count_one, count_cons.
  change (is_req id (m <| m_steering := true |>)) with (is_req id m). lia.
Qed.

Lemma unsteer_mail j a : same_mail (unsteer j a) a.
Proof.
  intros id. unfold unsteer. destruct (a_Steered a !! j) as [m|] eqn:E; [|done].
  unfold owes, mail. cbn -[count]. rewrite !count_app, count_cons.
  rewrite (count_delete_middle (is_req id) (a_Steered a) j m E). lia.
Qed.

Lemma count_flags id (f : FleetMessage -> FleetMessage) l :
  (forall m, m_Kind (f m) = m_Kind m /\ m_ID (f m) = m_ID m) ->
  count (is_req id) (f <$> l) = count (is_req id) l.
Proof.
  intros H. rewrite count_map. apply count_ext. intros m _. by apply is_req_eq; apply H.
Qed.

Lemma option_list_fmap {A B} (f : A -> B) (o : option A) :
  option_list (f <$> o) = f <$> option_list o.
Proof. by destruct o. Qed.

Lemma unmark_mail id a : same_mail (unmark_agent id a) a.
Proof.
  intros id'. unfold owes, mail, unmark_agent. cbn -[count].
  rewrite option_list_fmap, <-!fmap_app. apply count_flags.
  intros m. unfold unmark. by case_match.
Qed.

Lemma decoded_mail a : same_mail (decoded_agent a) a.
Proof.
  intros id. unfold owes, mail, decoded_agent. cbn -[count].
  rewrite option_list_fmap, <-!fmap_app. by apply count_flags.
Qed.

Lemma add_missed_count id n q q' p :
  add_missed id n q = Some q' -> count (is_req p) q' = count (is_req p) q.
Proof.
  revert q'. induction q as [|w q IH]; intros q'; cbn; [done|]. case_decide.
  - intros [= <-]. by rewrite !count_cons.
  - destruct (add_missed id n q) as [r|]; [|done]. cbn. intros [= <-].
    by rewrite !count_cons, (IH r).
Qed.

Lemma alter_charged_mail j a :
  same_mail (a <| a_Steered ::= alter (fun m => m <| m_Charged := true |>) j |>) a.
Proof.
  intros id. unfold owes, mail. cbn -[count]. rewrite !count_app. f_equal. f_equal.
  revert j. induction (a_Steered a) as [|m l IH]; intros [|j]; cbn -[count]; [done..| |].
  - by rewrite !count_cons.
  - by rewrite !count_cons, IH.
Qed.

#[export] Hint Resolve requeue_mail to_front_mail reclaim_mail unreclaim_mail steer_head_mail
  unsteer_mail unmark_mail decoded_mail alter_charged_mail : claudia.

Section Accounts.
Context {GF : GoFormat}.
Variable now : Time.

(** Changing only budgets, checks, limits or what runs leaves [FCons]
    convertible; these lemmas name the cases the operations use. *)
Lemma charge_cons D a m fl : FCons D fl -> FCons D (charge_message a m fl).
Proof. unfold charge_message. by case_match. Qed.

Lemma accepted_cons D id fl : FCons D fl -> FCons D (accepted now id fl).
Proof. intros C. by apply (FCons_only D fl); [apply accepted_only|]. Qed.

(** ** Sending and firing *)

Lemma send_go_cons s fl :
  send_check (fl_group fl) s = None -> FCons [] fl -> FCons [] (send_go now s fl).1.
Proof.
  intros Hc C.
  assert (send_kind s <> FleetResponse) as Hk.
  { intros E. unfold send_check in Hc. rewrite E in Hc. by repeat case_match. }
  assert ((if decide (s_From s = s_To s) then FleetTimer else send_kind s) <> FleetResponse) as Hk'
    by by case_decide.
  unfold send_go. set (kind := if decide _ then _ else _) in *. clearbody kind.
  set (n := g_NextID (fl_group fl)).
  assert (n <= n + 1)%N as Hn by lia.
  destruct (send_scheduled s); cbn [negb fst].
  - apply (cons_timers_insert [] _ _ (n + 1)); [by apply (cons_next _ _ _ n)|].
    split.
    + exists (n + 1)%N. split; [lia|done].
    + done.
    + eapply mint_unseen; [exact C|cbn; lia].
    + intros j _. eapply firing_unseen; [exact C|cbn; lia].
  - set (fl1 := _ <| fl_group := (nextID _).1 |>).
    assert (FCons [] fl1) as C1 by by apply (cons_next _ _ _ n).
    set (m := _ <| m_ID := _ |>).
    assert (expect_only fl1 (expect now m (s_AcceptWithin s) (s_AnswerWithin s) fl1)) as Ho
      by apply expect_only_expect.
    pose proof (proj1 (FCons_only [] _ _ Ho) C1) as C2.
    apply deliver_new; [done|done| |exact C2].
    destruct Ho as (E & tm & ->). right. split_and!.
    + exists (n + 1)%N. split; [cbn; lia|by left].
    + eapply fresh_for_mint; [exact C1|done].
    + eapply mint_unseen; [exact C|cbn; lia].
Qed.

Lemma send_cons args fl : FCons [] fl -> FCons [] (send now args fl).1.
Proof.
  intros C. unfold send. destruct args as [s|]; [|done].
  destruct (send_check (fl_group fl) s) as [err|] eqn:E; [done|].
  cbn [fst]. apply save_cons. by apply send_go_cons.
Qed.

Lemma Cancel_cons caller id fl : FCons [] fl -> FCons [] (Cancel now caller id fl).1.
Proof.
  intros C. unfold Cancel. destruct (fl_Timers fl !! id); [|done].
  destruct (negb _); [done|]. cbn [fst].
  apply save_cons, event_cons; [done|]. by apply dropTimer_cons.
Qed.

Lemma timer_ok_message n f id t t' :
  t_Message t' = t_Message t -> (t_Fires t <= t_Fires t')%N -> timer_ok n f id t -> timer_ok n f id t'.
Proof.
  intros Hm Hf [H1 H2 H3 H4]. split; [done|by rewrite Hm|done|]. intros j Hj. apply H4. lia.
Qed.

Lemma fire_repeat_cons id missed m t fl :
  fl_Timers fl !! id = Some t -> m_Kind m <> FleetResponse -> m_InReplyTo m = "" ->
  FCons [] fl -> FCons [] (fire_repeat now id missed m t fl).
Proof.
  intros Ht Hk Hr C. unfold fire_repeat. set (t' := t <| t_Fires ::= N.succ |>).
  pose proof (cons_timers _ _ _ _ _ C id t Ht) as Hok.
  assert (FCons [] (upd_timers <[id := t']> fl)) as C'.
  { apply cons_timers_insert; [done|]. eapply timer_ok_message; [..|exact Hok]; cbn; [done|lia]. }
  destruct Hok as [(k & Hk' & ->) _ _ Hf].
  apply deliver_new; [done|done| |done]. right. split_and!.
  - exists k. split; [done|]. right; right. by eexists.
  - eapply fresh_for_firing; [exact C'|]. unfold fl_Timers, upd_timers. cbn.
    rewrite lookup_insert_eq. by intros ? [= <-].
  - apply Hf. cbn. lia.
Qed.

Lemma fireTimer_cons id t fl :
  fl_Timers fl !! id = Some t -> FCons [] fl -> FCons [] (fireTimer now id t fl).
Proof.
  intros Ht C. pose proof (cons_timers _ _ _ _ _ C id t Ht) as Hok.
  pose proof (to_message _ _ _ _ Hok) as (Hid & Hre & Hk).
  unfold fireTimer. case_match.
  - assert (FCons [] (upd_timers (delete id) fl)) as C' by by apply cons_timers_delete.
    destruct Hok as [(k & Hk' & ->) _ Hu _].
    apply deliver_new; [done|done| |done]. right. cbn. rewrite Hid. split_and!; [|..|done].
    + exists k. split; [done|]. right. by left.
    + eapply fresh_for_timer; [exact C'|]. unfold fl_Timers, upd_timers. cbn. by rewrite lookup_delete_eq.
  - case_match; [by apply cons_timers_delete|].
    set (t' := t <| t_At := _ |>). set (fl1 := armTimer now id t' _).
    assert (FCons [] fl1) as C1.
    { apply (cons_timers_insert []); [done|]. by eapply timer_ok_message; [..|exact Hok]. }
    destruct (_ ≫= _) as [q|] eqn:Eq.
    + apply upd_agent_cons; [|done]. intros a Ha. apply bind_Some in Eq as (a' & Ha' & Hq).
      change (fl_Agents fl1) with (fl_Agents fl) in Ha.
      change (m_To (t_Message t) <| m_Due := _ |>) with (m_To (t_Message t)) in *.
      assert (a' = a) as -> by congruence.
      intros p. unfold owes, mail. cbn -[count]. rewrite !count_app.
      by rewrite (add_missed_count _ _ _ _ p Hq).
    + apply fire_repeat_cons; [|done|done|done].
      unfold fl1, fl_Timers, armTimer, upd_timers. cbn. by rewrite lookup_insert_eq.
Qed.

Lemma timer_fires_cons id fl : FCons [] fl -> FCons [] (timer_fires now id fl).
Proof.
  intros C. unfold timer_fires. case_match; [|done]. case_match eqn:E; [|done].
  apply save_or_log_cons, fireTimer_cons; done.
Qed.

(** ** Turns *)

Lemma upd_agent_move D D' name a f fl :
  fl_Agents fl !! name = Some a ->
  (forall id, owes id (f a) + count (is_req id) D' = owes id a + count (is_req id) D) ->
  FCons D fl -> FCons D' (upd_agent name f fl).
Proof.
  intros Ha H C. unfold FCons, upd_agent, upd_agents, fl_Agents. cbn.
  eapply cons_move; [|exact C]. intros id.
  assert (alter f name (g_Agents (fl_group fl)) = <[name := f a]> (g_Agents (fl_group fl))) as ->.
  { apply map_eq. intros k. destruct (decide (k = name)) as [->|Hne].
    - unfold fl_Agents in Ha. by rewrite lookup_alter_eq, lookup_insert_eq, Ha.
    - by rewrite lookup_alter_ne, lookup_insert_ne. }
  pose proof (pend_insert id name a (f a) (g_Agents (fl_group fl)) Ha). specialize (H id).
  change (fl_Agents fl) with (g_Agents (fl_group fl)). lia.
Qed.

Lemma blocked_false a fl : (blocked now a fl).2 = false -> (blocked now a fl).1 = fl.
Proof.
  unfold blocked. destruct (first_spent _ _ _) as [[[id b] reason]|]; [|done].
  by destruct (b_Notified b).
Qed.

Lemma begin_turn_cons name a m rest fl :
  fl_Agents fl !! name = Some a -> a_Inbox a = m :: rest -> a_Current a = None ->
  FCons [] fl -> FCons [] (begin_turn now name a m rest fl).1.
Proof.
  intros Ha Hi Hc C. unfold begin_turn. cbn [fst].
  apply save_or_log_cons, charge_cons, accepted_cons.
  apply (upd_agent_cons [] name (begin_agent now m rest)); [|done].
  intros a' Ha' id. assert (a' = a) as -> by congruence.
  unfold owes, mail, begin_agent. cbn -[count]. rewrite Hi, Hc. cbn [option_list app].
  rewrite !count_cons, !count_app, count_cons.
  change (is_req id (m <| m_Charged := true |>)) with (is_req id m). change (option_list None) with (@nil FleetMessage). rewrite count_nil. lia.
Qed.

Lemma run_top_cons name fl :
  (forall a, fl_Agents fl !! name = Some a -> a_Current a = None) ->
  FCons [] fl -> FCons [] (run_top now name fl).1.
Proof.
  intros Hc C. unfold run_top. destruct (fl_Agents fl !! name) as [a|] eqn:Ea; [|done].
  destruct (fl_running fl !! name); [|done]. destruct (a_Stopped a); [done|].
  destruct (a_Inbox a) as [|m rest] eqn:Ei; [done|].
  set (r := if m_Charged m then _ else _).
  assert (r.2 = false -> r.1 = fl) as Hr.
  { subst r. destruct (m_Charged m); [done|apply blocked_false]. }
  assert (FCons [] r.1) as Cr.
  { subst r. destruct (m_Charged m); [done|by apply blocked_cons]. }
  destruct r.2; [done|]. rewrite Hr by done. cbn [fst].
  by apply begin_turn_cons; [..|apply Hc|].
Qed.

Lemma after_send_cons name ok fl : FCons [] fl -> FCons [] (after_send name ok fl).1.
Proof. intros C. unfold after_send. by case_match. Qed.

Lemma interruptSeat_cons name rt turn by_ forID ok fl :
  FCons [] fl -> FCons [] (interruptSeat name rt turn by_ forID ok fl).
Proof. intros C. unfold interruptSeat. case_match; [|done]. by case_decide. Qed.

Lemma takeSteered_count id a :
  count (is_req id) (takeSteered a).1 + count (is_req id) (takeSteered a).2
  = count (is_req id) (a_Steered a).
Proof.
  unfold takeSteered. cbn [fst snd]. induction (a_Steered a) as [|m l IH]; [done|].
  cbn [List.filter]. destruct (m_steering m); cbn [negb]; rewrite !count_cons; lia.
Qed.

Lemma fail_steered_cons D name failure m fl :
  FCons (m :: D) fl -> FCons D (fail_steered now name failure fl m).
Proof.
  intros C. unfold fail_steered. case_decide as Hk; [by apply deliver_answers|].
  eapply cons_move; [|exact C]. intros id. rewrite count_cons.
  destruct (is_req id m) eqn:E; [|lia]. by apply is_req_spec in E as [? _].
Qed.

Lemma answer_steered_cons D a answer m fl :
  FCons (m :: D) fl -> FCons D (answer_steered now a answer fl m).
Proof.
  intros C. unfold answer_steered. case_decide as Hk; [by apply routeReply_cons|].
  eapply cons_move; [|exact C]. intros id. rewrite count_cons.
  destruct (is_req id m) eqn:E; [|lia]. by apply is_req_spec in E as [? _].
Qed.

Lemma turn_failed_cons a m steered err fl :
  FCons (m :: steered) fl -> FCons [] (turn_failed now a m steered err fl).
Proof.
  intros C. unfold turn_failed. set (failure := _ +:+ _).
  apply foldl_settles; [intros; by apply fail_steered_cons|]. rewrite app_nil_r.
  case_decide as Hk; [by apply deliver_answers|].
  apply deliver_news; [done|]. eapply cons_move; [|exact C]. intros id. rewrite count_cons.
  destruct (is_req id m) eqn:E; [|lia]. by apply is_req_spec in E as [? _].
Qed.

Lemma turn_done_cons a m steered interrupted rt reply err fl :
  FCons (m :: steered) fl -> FCons [] (turn_done now a m steered interrupted rt reply err fl).
Proof.
  intros C. unfold turn_done. set (answer := if interrupted then _ else _).
  apply foldl_settles; [intros; by apply answer_steered_cons|]. rewrite app_nil_r.
  by apply routeReply_cons.
Qed.

(** The turn is over: its messages leave the agent, to be settled. *)
Lemma end_turn_cons name a m fl :
  fl_Agents fl !! name = Some a -> a_Current a = Some m -> FCons [] fl ->
  FCons (m :: (takeSteered a).1)
    (upd_agent name (fun a' => a' <| a_Current := None |> <| a_Steered := (takeSteered a').2 |>) fl).
Proof.
  intros Ha Hm C. eapply upd_agent_move; [exact Ha| |exact C].
  intros id. pose proof (takeSteered_count id a) as Ht. unfold owes, mail.
  cbn [a_Current a_Steered a_Inbox upd eta_agent]. rewrite Hm.
  cbn [option_list app]. rewrite !count_cons, !count_app, count_nil.
  cbn -[count takeSteered]. rewrite count_nil, count_one. lia.
Qed.

Lemma finish_turn_cons name used te fl :
  FCons [] fl -> FCons [] (finish_turn now name used te fl).1.
Proof.
  intros C. unfold finish_turn. destruct (fl_Agents fl !! name) as [a|] eqn:Ea; [|done].
  destruct (fl_running fl !! name) as [rt|]; [|done].
  destruct (a_Current a) as [m|] eqn:Em; [|done].
  destruct ((0 <? rt_interrupting rt)%Z && _); [done|].
  set (e := _ <| e_Cause := _ |>). set (fl1 := _ <| fl_group ::= chargeTokens _ _ |>).
  assert (FCons [] fl1) as C1 by (apply (event_cons now [] e); done).
  set (fl2 := upd_agent name _ fl1).
  assert (FCons [] fl2) as C2 by (apply upd_agent_cons; [by intros; apply same_mail_parts|done]).
  set (a2 := a <| a_LastTurnEnd := now |>).
  assert (fl_Agents fl2 !! name = Some a2) as Ha2.
  { unfold fl2, fl1, fl_Agents, upd_agent, upd_agents, event. cbn.
    unfold fl_Agents in Ea. by rewrite lookup_alter_eq, Ea. }
  clearbody fl2. destruct (a_Stopped a); [done|].
  destruct (negb (bool_decide (te_err te = None)) && negb (te_alive te)).
  { destruct (fleetMaxDeaths <=? _)%Z; [done|]. cbn [fst]. apply save_or_log_cons.
    apply (upd_agent_cons [] name requeue); [by intros; apply requeue_mail|done]. }
  assert (FCons (m :: (takeSteered a).1) (upd_agent name (fun a' =>
    a' <| a_Current := None |> <| a_Steered := (takeSteered a').2 |>) fl2)) as C3
    by exact (end_turn_cons name a2 m fl2 Ha2 Em C2).
  cbn [fst]. apply save_or_log_cons.
  destruct (te_err te) as [err|]; [destruct (negb _)|];
    [by apply turn_failed_cons|by apply turn_done_cons..].
Qed.

Lemma finish_closed_cons name used u fl : FCons [] fl -> FCons [] (finish_closed name used u fl).
Proof. intros C. unfold finish_closed. case_match; [|done]. by apply save_or_log_cons. Qed.
End Accounts.

(** * Expediting, agents' lives, checks and restarts

    The rest of [FleetAccounts]: [FCons []] through expediting, starting,
    reviving and retiring agents, budgets, checks, expectations and a
    restart. *)

(** The runs in progress have the kernel's identifiers. *)
Definition RunsOK (fl : Fleet) : Prop :=
  forall id r, g_CheckRuns (fl_group fl) !! id = Some r ->
    exists k, (k <= g_NextID (fl_group fl))%N /\ id = check_id k.

Section LifeAccounts.
Context {GF : GoFormat}.
Variable now : Time.

(** ** Expediting *)

Lemma expedite_find_cons caller id mode fl :
  FCons [] fl -> FCons [] (expedite_find caller id mode fl).1.
Proof.
  intros C. unfold expedite_find. destruct (queued _ _) as [[n i]|]; [done|].
  case_decide; [|done]. destruct (steered _ _) as [[n j]|]; [|done].
  destruct (negb _); [done|]. apply upd_agent_cons; [|done]. intros; apply reclaim_mail.
Qed.

Lemma expedite_cons caller id mode fl : FCons [] fl -> FCons [] (expedite now caller id mode fl).1.
Proof.
  intros C. unfold expedite. destruct (negb _ && _); [done|].
  pose proof (expedite_find_cons caller id mode fl C) as Cf.
  destruct (expedite_find caller id mode fl) as [fl1 [[[name i] reclaimed]|err]]; [|done].
  cbn [fst snd] in *. destruct (negb _); [done|].
  set (fl2 := upd_agent name _ fl1).
  assert (FCons [] fl2) as C2 by (apply upd_agent_cons; [intros; apply to_front_mail|done]).
  clearbody fl2. destruct (fl_Agents fl2 !! name) as [a|]; [|done].
  destruct (a_Current a); [|by apply save_or_log_cons].
  destruct (fl_running fl2 !! name) as [rt|]; [|by apply save_or_log_cons].
  case_decide; [destruct (negb _); by apply save_or_log_cons|].
  pose proof (blocked_cons now [] a fl2 C2) as Cb.
  destruct (blocked now a fl2) as [fl3 b]. cbn [fst snd] in *.
  destruct b; [by apply save_or_log_cons|]. cbn [fst]. apply save_or_log_cons.
  apply upd_agent_cons; [intros; apply steer_head_mail|done].
Qed.

Lemma restoreSteered_cons name id rt turn fl :
  FCons [] fl -> FCons [] (restoreSteered name id rt turn fl).1.
Proof.
  intros C. unfold restoreSteered. destruct (fl_Agents fl !! name) as [a|]; [|done].
  destruct (index _ _); [|done]. case_match; [|done]. cbn [fst].
  apply save_or_log_cons, upd_agent_cons; [intros; apply unreclaim_mail|done].
Qed.

Lemma interrupt_returns_cons name id by_ rt turn reclaimed err fl :
  FCons [] fl -> FCons [] (interrupt_returns name id by_ rt turn reclaimed err fl).1.
Proof.
  intros C. unfold interrupt_returns. set (fl1 := interruptSeat _ _ _ _ _ _ _).
  assert (FCons [] fl1) as C1 by by apply interruptSeat_cons.
  destruct err; [|done]. destruct reclaimed; [by apply restoreSteered_cons|done].
Qed.

Lemma steer_returns_cons name token id rt turn err fl :
  FCons [] fl -> FCons [] (steer_returns now name token id rt turn err fl).1.
Proof.
  intros C. unfold steer_returns. set (fl1 := upd_agents _ fl).
  assert (FCons [] fl1) as C1 by (apply upd_agents_fmap_cons; [apply unmark_mail|done]).
  clearbody fl1. destruct (fl_Agents fl1 !! name) as [a|]; [|done].
  destruct (if decide _ then _ else _) as [j|]; [|done].
  destruct (_ && _); cbn [fst]; apply save_or_log_cons.
  - apply upd_agent_cons; [intros; apply alter_charged_mail|].
    case_match; [apply charge_cons|]; by apply accepted_cons.
  - apply upd_agent_cons; [intros; apply unsteer_mail|done].
Qed.

(** ** Expectations *)

Lemma where_cons id e fl : FCons [] fl -> FCons [] (where_ now id e fl).1.
Proof.
  intros C. unfold where_. destruct (fl_Agents fl !! x_To e) as [a|]; [|done].
  do 2 (case_match; [done|]). destruct (index _ _); [|by case_match].
  destruct (negb _); [done|]. case_match; [done|]. by apply blocked_cons.
Qed.

Lemma expectMissed_cons id which e fl :
  FCons [] fl -> FCons [] (expectMissed now id which e fl).
Proof.
  intros C. unfold expectMissed.
  assert (FCons [] (upd_expects <[id := missed which e]> fl)) as C1 by exact C.
  apply (where_cons id (missed which e)) in C1.
  apply deliver_news; [done|]. unfold forget_done. by repeat case_match.
Qed.

Lemma expect_fires_cons id which fl : FCons [] fl -> FCons [] (expect_fires now id which fl).
Proof.
  intros C. unfold expect_fires. case_match; [|done]. case_match; [|done].
  by apply save_or_log_cons, expectMissed_cons.
Qed.

(** ** Agents come and go *)

Lemma admit_agent_idle g caller token s instructions a :
  admit_agent g caller token s instructions = inl a ->
  g_Agents g !! sa_Name s = None /\ mail a = [] /\ a_Name a = sa_Name s /\ a_Parent a = caller.
Proof.
  unfold admit_agent. destruct (g_Closing g); [done|].
  destruct (if decide _ then _ else _) as [a0|] eqn:E0; [|done].
  assert (mail a0 = [] /\ a_Name a0 = sa_Name s /\ a_Parent a0 = caller) as Hm.
  { case_decide; [by injection E0 as <-|]. destruct (g_Agents g !! caller); [|done].
    by injection E0 as <-. }
  clear E0. case_decide; [done|]. destruct (chooseTools _ _) as [tools|]; [|done].
  case_bool_decide as Hn; [done|]. destruct (_ <=? _)%Z; [done|].
  intros [= <-]. split; [|exact Hm]. by apply eq_None_not_Some.
Qed.

Lemma newBudget_cons D holder setBy b fl :
  FCons D fl -> FCons D (fl <| fl_group := (newBudget now holder setBy b (fl_group fl)).1 |>).
Proof. intros C. apply (cons_next _ _ _ (g_NextID (fl_group fl))); [cbn; lia|done]. Qed.

Lemma admit_cons caller token s instructions fl :
  FCons [] fl -> FCons [] (admit_start now caller token s instructions fl).1.
Proof.
  intros C. unfold admit_start.
  destruct (admit_agent _ _ _ _ _) as [a|] eqn:Ea; [|done].
  apply admit_agent_idle in Ea as (Hn & Hm & _ & _).
  set (ga := match sa_Budget s with Some _ => _ | None => _ end).
  assert (FCons [] (fl <| fl_group := ga.1 |>) /\ mail ga.2 = []
          /\ g_Agents ga.1 = g_Agents (fl_group fl)) as (C1 & Hm1 & HA).
  { subst ga. destruct (sa_Budget s) as [b|]; [destruct (budget_zero b)|]; split_and!; try done.
    by apply newBudget_cons. }
  clearbody ga. set (fl1 := _ <| fl_starting ::= _ |>).
  assert (FCons [] fl1) as C2.
  { eapply cons_agents; [|exact C1]. intros id. unfold fl1, fl_Agents. cbn.
    rewrite HA, pend_new by done. unfold owes. by rewrite Hm1, count_nil. }
  assert (forall id, pend id (delete (sa_Name s) (fl_Agents fl1)) = pend id (fl_Agents fl1)) as Hd.
  { intros id. rewrite (pend_delete id (sa_Name s) ga.2 (fl_Agents fl1)).
    - unfold owes. by rewrite Hm1, count_nil.
    - unfold fl1, fl_Agents. cbn. by rewrite lookup_insert_eq. }
  clearbody fl1. unfold save. destruct (_ && _); cbn [fst snd]; [done|].
  by eapply cons_agents; [|exact C2].
Qed.

Lemma runLocked_cons a desc deaths fl : FCons [] fl -> FCons [] (runLocked now a desc deaths fl).
Proof. intros C. unfold runLocked. by apply event_cons. Qed.

Lemma launch_ok_cons name desc fl : FCons [] fl -> FCons [] (launch_ok now name desc fl).
Proof. intros C. unfold launch_ok. case_match; [|done]. by apply runLocked_cons. Qed.

(** An agent leaves and its mail is a debt. *)
Lemma remove_agent_cons name a fl :
  fl_Agents fl !! name = Some a -> FCons [] fl ->
  FCons (turnMessages a ++ a_Inbox a ++ []) (upd_agents (delete name) fl).
Proof.
  intros Ha C. eapply cons_move; [|exact C]. intros id.
  rewrite (pend_delete id name a (fl_Agents fl) Ha), app_assoc, app_nil_r, owes_owed, count_nil.
  unfold fl_Agents, upd_agents. cbn. lia.
Qed.

Lemma launch_failed_cons name err tell fl :
  FCons [] fl -> FCons [] (launch_failed now name err tell fl).
Proof.
  intros C. unfold launch_failed. destruct (fl_Agents fl !! name) as [a|] eqn:Ea; [|done].
  set (failure := _ +:+ _). apply save_or_log_cons.
  set (fl1 := upd_agents (delete name) _).
  assert (FCons (turnMessages a ++ a_Inbox a ++ []) fl1) as C1 by by apply remove_agent_cons.
  clearbody fl1. apply (dropTimersOf_cons now _ name failure) in C1.
  set (e := _ <| e_Cause := err |>). set (fl2 := event now e _).
  assert (FCons (turnMessages a ++ a_Inbox a ++ []) fl2) as C2 by (apply event_cons; done).
  clearbody fl2. apply (answerOwed_cons now [] a failure) in C2.
  destruct (tell && _); [|done]. by apply deliver_news.
Qed.

Lemma retire_finish_cons name cause fl :
  FCons [] fl -> FCons [] (retire_finish now name cause fl).
Proof.
  intros C. unfold retire_finish. destruct (fl_Agents fl !! name) as [a|] eqn:Ea; [|done].
  set (gone := _ +:+ _). apply save_or_log_cons.
  set (fl1 := upd_agents (fmap _) _).
  assert (FCons (turnMessages a ++ a_Inbox a ++ []) fl1) as C1.
  { apply upd_agents_fmap_cons; [|by apply (remove_agent_cons name a fl)].
    intros b. unfold orphan_child. case_decide; [by apply same_mail_parts|done]. }
  clearbody fl1. apply (dropTimersOf_cons now _ name gone) in C1.
  set (fl2 := dropTimersOf now name gone fl1) in *. clearbody fl2.
  apply (FCons_only _ _ _ (dropExpectsOf_only name fl2)) in C1.
  set (fl3 := dropExpectsOf name fl2) in *. clearbody fl3.
  set (e := _ <| e_Cause := _ |>). set (fl4 := event now e _).
  assert (FCons (turnMessages a ++ a_Inbox a ++ []) fl4) as C4 by (apply event_cons; done).
  clearbody fl4. apply (answerOwed_cons now [] a gone) in C4.
  destruct cause; [done|]. case_match; [done|]. by apply deliver_news.
Qed.

Lemma retire_begin_cons name token fl : FCons [] fl -> FCons [] (retire_begin name token fl).1.
Proof.
  intros C. unfold retire_begin. case_match; [|done]. case_match; [done|].
  apply upd_agent_cons; [|done]. by intros; apply same_mail_parts.
Qed.

Lemma Stop_cons caller name fl : FCons [] fl -> FCons [] (Stop now caller name fl).1.
Proof.
  intros C. unfold Stop. destruct (fl_Agents fl !! name) as [a|]; [|done].
  do 3 (case_match; [done|]). cbn [fst]. apply save_or_log_cons, event_cons; [done|].
  apply upd_agent_cons; [|done]. by intros; apply same_mail_parts.
Qed.

Lemma revive_ok_cons name desc resume briefed deaths fl :
  FCons [] fl -> FCons [] (revive_ok now name desc resume briefed deaths fl).
Proof.
  intros C. unfold revive_ok. destruct (fl_Agents fl !! name) as [a|]; [|done].
  apply runLocked_cons, save_or_log_cons. case_match; [|done].
  apply deliver_news; [done|]. apply upd_agent_cons; [|done]. by intros; apply same_mail_parts.
Qed.

Lemma revive_failed_cons name err lost retry rl fl :
  FCons [] fl -> FCons [] (revive_failed now name err lost retry rl fl).1.
Proof.
  intros C. unfold revive_failed. destruct (fl_Agents fl !! name) as [a|]; [|done].
  case_match; [done|]. cbn [fst]. case_match; [done|].
  by apply save_or_log_cons, deliver_news.
Qed.

(** ** Budgets *)

Lemma SetBudget_cons caller target limits fl :
  FCons [] fl -> FCons [] (SetBudget now caller target limits fl).1.
Proof.
  intros C. unfold SetBudget. destruct (budget_validate limits); [done|].
  destruct (match g_Budgets (fl_group fl) !! target with Some _ => _ | None => _ end)
    as [[agent existing]|]; [|done].
  destruct (negb _ && _); [done|]. set (refused := match existing with Some _ => _ | None => _ end).
  destruct refused; [done|]. cbn [fst].
  apply save_cons, event_cons; [done|]. destruct existing as [[id b]|]; [done|].
  pose proof (newBudget_cons [] agent caller limits fl C) as C1.
  set (gi := newBudget now agent caller limits (fl_group fl)) in *. clearbody gi.
  unfold spread_budget.
  change (FCons [] (upd_agents (fmap (fun a => if fleetDescends
    (gi.1 <| g_Agents ::= alter (fun a => add_budget gi.2 (a <| a_OwnBudget := gi.2 |>)) agent |>)
    (a_Name a) agent then add_budget gi.2 a else a))
    (upd_agent agent (fun a => add_budget gi.2 (a <| a_OwnBudget := gi.2 |>)) (fl <| fl_group := gi.1 |>)))).
  apply upd_agents_fmap_cons.
  - intros a. case_match; [by apply same_mail_parts|done].
  - apply upd_agent_cons; [by intros; apply same_mail_parts|done].
Qed.

(** ** Checks *)

Lemma RegisterCheck_cons sha caller path c script timeout pin fl :
  FCons [] fl -> FCons [] (RegisterCheck sha now caller path c script timeout pin fl).1.
Proof.
  intros C. unfold RegisterCheck.
  destruct (match g_Checks (fl_group fl) !! ca_Name c with Some _ => _ | None => _ end); [done|].
  destruct pin; [done|]. cbn [fst]. by apply save_cons, event_cons.
Qed.

Lemma run_check_start_cons requester name sha fl :
  FCons [] fl -> FCons [] (run_check_start now requester name sha fl).1.
Proof.
  intros C. unfold run_check_start. destruct (g_Checks (fl_group fl) !! name) as [c|]; [|done].
  destruct (negb _); [done|]. set (fl1 := event now _ _).
  assert (FCons [] fl1) as C1.
  { apply event_cons; [done|]. apply (cons_next _ _ _ (g_NextID (fl_group fl))); [cbn; lia|done]. }
  clearbody fl1. unfold save. destruct (_ && _); done.
Qed.

Lemma finishCheck_cons id r fl :
  RunsOK fl -> FCons [] fl -> FCons [] (finishCheck now id r fl).
Proof.
  intros HR C. unfold finishCheck. set (r' := r <| cr_Output ::= _ |>).
  set (fl1 := event now _ (upd_runs (delete id) fl)).
  assert (FCons [] fl1) as C1 by (apply event_cons; done).
  set (fl2 := match g_Checks (fl_group fl1) !! cr_Name r' with Some _ => _ | None => _ end).
  assert (FCons [] fl2 /\ g_NextID (fl_group fl2) = g_NextID (fl_group fl)) as [C2 Hn].
  { subst fl2. case_match; [case_decide|]; done. }
  clearbody fl2. destruct (fl_Agents fl2 !! cr_Requester r') as [a|]; [|done].
  destruct (g_CheckRuns (fl_group fl) !! id) as [run|] eqn:Er; [|done].
  case_decide; [done|]. destruct (HR id run Er) as (k & Hk & ->).
  apply deliver_plain; [done|done|..].
  - right. rewrite Hn. by apply id_le_mint.
  - by eapply fresh_for_mint.
  - destruct (decide (reqs (check_id k) (l_file (fl_log fl2)) = 0)) as [?|Hne]; [done|].
    destruct (reqs_seen (check_id k) (l_file (fl_log fl2))) as (e & m & He & Hm & Hid); [lia|].
    pose proof (cons_ids _ _ _ _ _ C2 e m He Hm) as Hx. rewrite Hid in Hx.
    by apply msg_id_not_check in Hx.
Qed.

Lemma RunsOK_mail fl fl' : mail_only fl fl' -> RunsOK fl -> RunsOK fl'.
Proof.
  intros H HR id r. rewrite (mail_only_runs _ _ H). intros (k & Hk & ->)%HR.
  exists k. split; [|done]. pose proof (mail_only_next _ _ H). lia.
Qed.

Lemma finishCheck_runs id r fl : RunsOK fl -> RunsOK (finishCheck now id r fl).
Proof.
  intros HR. unfold finishCheck. set (r' := r <| cr_Output ::= _ |>).
  set (fl1 := event now _ (upd_runs (delete id) fl)).
  assert (RunsOK fl1) as R1.
  { intros i x. unfold fl1, event, upd_runs. cbn. intros [_ H]%lookup_delete_Some. by apply (HR i x). }
  set (fl2 := match g_Checks (fl_group fl1) !! cr_Name r' with Some _ => _ | None => _ end).
  assert (RunsOK fl2) as R2 by (subst fl2; case_match; [case_decide|]; done).
  clearbody fl2. destruct (fl_Agents fl2 !! _); [|done]. destruct (g_CheckRuns _ !! id); [|done].
  case_decide; [done|]. eapply RunsOK_mail; [apply deliver_mail_only|done].
Qed.

Lemma check_done_cons id r fl : RunsOK fl -> FCons [] fl -> FCons [] (check_done now id r fl).
Proof. intros. by apply save_or_log_cons, finishCheck_cons. Qed.

(** ** Restarting *)

Lemma reportInterruptedChecks_cons fl :
  RunsOK fl -> FCons [] fl -> FCons [] (reportInterruptedChecks now fl).
Proof.
  intros HR C. unfold reportInterruptedChecks.
  generalize (map_to_list (g_CheckRuns (fl_group fl))). intros l. revert fl HR C.
  induction l as [|kv l IH]; intros fl HR C; cbn; [done|].
  apply IH; [by apply finishCheck_runs|by apply finishCheck_cons].
Qed.

Lemma reopen_cons log fl :
  Cons [] (l_file log) (g_Agents (fl_saved fl)) (g_NextID (fl_saved fl)) (g_Timers (fl_saved fl)) ->
  (forall id r, g_CheckRuns (fl_saved fl) !! id = Some r ->
     exists k, (k <= g_NextID (fl_saved fl))%N /\ id = check_id k) ->
  FCons [] (reopen now log fl).1.
Proof.
  intros C HR. unfold reopen. apply save_cons, reportInterruptedChecks_cons; [done|].
  eapply cons_agents; [|exact C]. intros id. unfold fl_Agents. cbn. apply pend_fmap.
  intros n a _. by rewrite (requeue_mail (decoded_agent a) id), (decoded_mail a id).
Qed.

Lemma foldl_cons {B} (f : Fleet -> B -> Fleet) l fl :
  (forall fl x, FCons [] fl -> FCons [] (f fl x)) -> FCons [] fl -> FCons [] (foldl f fl l).
Proof. intros H. revert fl. induction l as [|x l IH]; intros fl C; cbn; [done|]. by apply IH, H. Qed.

Lemma Resume_cons fl : FCons [] fl -> FCons [] (Resume now fl).
Proof.
  intros C. unfold Resume. apply foldl_cons; [|by apply foldl_cons].
  intros fl' kv C'. by apply (FCons_only [] fl'); [apply armExpects_only|].
Qed.
End LifeAccounts.
