(* ===== verification/FleetOrg.v ===== *)
(** * FleetOrg: the organisation of a fleet

    The invariant of who started whom and what follows from it: the links end
    at the owner, an agent's tools are among its starter's, a budget over an
    agent is over everything it started, and the limits hold. [quiet] is what
    most operations are: they leave all of that alone. *)

From S2P Require Import Prelude GoLib FleetNames FleetTypes FleetAuthority FleetLog FleetBudget FleetDeliver FleetTimer FleetTurn FleetExpedite FleetCheck FleetLifecycle FleetCons FleetMail FleetAccounts.

(** An agent without what its turns change. *)
Definition statics (a : fleetAgentState) : fleetAgentState :=
  a <| a_Inbox := [] |> <| a_Current := None |> <| a_Steered := [] |> <| a_Briefed := false |>
    <| a_Stopped := false |> <| a_CurrentSince := 0%Z |> <| a_LastTurnEnd := 0%Z |>
    <| a_retiring := false |>.

(** What an agent's record says by itself, in a fleet whose counter is [n]. *)
Record NodeOK (n : N) (name : string) (a : fleetAgentState) : Prop := {
  n_name : a_Name a = name;
  n_tools : toolSet (a_Tools a) ⊆ allFleetTools;
  n_authority : a_Authority a <> "" -> a_Parent a = FleetOwner;
  n_budgets : forall id, id ∈ a_Budgets a -> exists k, (k <= n)%N /\ id = budget_id k;
  n_nodup : NoDup (a_Budgets a);
  n_valid : fleetNameValid name = true }.

(** What it says against the record of the agent that started it. *)
Record EdgeOK (a parent : fleetAgentState) : Prop := {
  d_tools : toolSet (a_Tools a) ⊆ toolSet (a_Tools parent);
  d_budgets : a_Budgets parent ⊆ a_Budgets a;
  d_root : a_Root a = a_Root parent }.

Record AgentsOK (n : N) (A : gmap string fleetAgentState) : Prop := {
  ao_tree : Tree (parents A);
  ao_node : forall name a, A !! name = Some a -> NodeOK n name a;
  ao_edge : forall name a p, A !! name = Some a -> A !! a_Parent a = Some p -> EdgeOK a p }.

(** What holds of a fleet's state, in memory or in the state file. *)
Record GroupOK (g : fleetGroupState) : Prop := {
  gk_agents : AgentsOK (g_NextID g) (g_Agents g);
  gk_size : (Z.of_nat (size (g_Agents g)) <= g_MaxAgents g)%Z;
  gk_sent : (g_Sent g <= g_MaxMessages g)%Z;
  gk_runs : forall id r, g_CheckRuns g !! id = Some r ->
    exists k, (k <= g_NextID g)%N /\ id = check_id k }.

Record OrgInv (fl : Fleet) : Prop := {
  o_agents : AgentsOK (g_NextID (fl_group fl)) (fl_Agents fl);
  o_size : (Z.of_nat (size (fl_Agents fl)) <= g_MaxAgents (fl_group fl))%Z;
  o_sent : (g_Sent (fl_group fl) <= g_MaxMessages (fl_group fl))%Z;
  o_runs : RunsOK fl;
  o_saved : GroupOK (fl_saved fl);
  o_log : LogInv (fl_log fl) }.

Lemma org_group fl : OrgInv fl -> GroupOK (fl_group fl).
Proof. by intros []; split. Qed.

(** What leaves the organisation alone, and saves at most what keeps it. *)
Record quiet (fl fl' : Fleet) : Prop := {
  q_statics : statics <$> fl_Agents fl' = statics <$> fl_Agents fl;
  q_next : (g_NextID (fl_group fl) <= g_NextID (fl_group fl'))%N;
  q_agents : g_MaxAgents (fl_group fl') = g_MaxAgents (fl_group fl);
  q_messages : g_MaxMessages (fl_group fl') = g_MaxMessages (fl_group fl);
  q_sent : g_Sent (fl_group fl') = g_Sent (fl_group fl);
  q_runs : forall id r, g_CheckRuns (fl_group fl') !! id = Some r ->
             g_CheckRuns (fl_group fl) !! id = Some r;
  q_saved : GroupOK (fl_group fl) -> GroupOK (fl_saved fl) -> GroupOK (fl_saved fl');
  q_log : LogInv (fl_log fl) -> LogInv (fl_log fl') }.

(* ------------------------------------------------------------------ *)
(** ** [statics] decide [AgentsOK] *)

Implicit Types A : gmap string fleetAgentState.

Lemma statics_eq A A' (name : string) a' :
  statics <$> A' = statics <$> A -> A' !! name = Some a' ->
  exists a, A !! name = Some a /\ statics a' = statics a.
Proof.
  intros H Ha. pose proof (f_equal (fun m => m !! name) H) as E. cbn beta in E.
  rewrite !lookup_fmap, Ha in E. destruct (A !! name) as [a|]; [|done].
  apply (inj Some) in E. by exists a.
Qed.

(** The fields [statics] keeps. *)
Lemma statics_fields a b :
  statics a = statics b ->
  a_Name a = a_Name b /\ a_Parent a = a_Parent b /\ a_Root a = a_Root b /\ a_Tools a = a_Tools b
  /\ a_Budgets a = a_Budgets b /\ a_Authority a = a_Authority b /\ a_Token a = a_Token b
  /\ a_OwnBudget a = a_OwnBudget b.
Proof. destruct a, b. intros [= -> -> -> -> -> -> -> -> -> -> -> -> ->]. done. Qed.

Lemma NodeOK_statics n n' name a b :
  (n <= n')%N -> statics b = statics a -> NodeOK n name a -> NodeOK n' name b.
Proof.
  intros Hn (E1 & E2 & _ & E4 & E5 & E6 & _)%statics_fields [H1 H2 H3 H4 H5 H6].
  split; rewrite ?E1, ?E2, ?E4, ?E5, ?E6; try done.
  intros id (k & ? & ->)%H4. exists k. split; [lia|done].
Qed.

Lemma EdgeOK_statics a p a' p' :
  statics a' = statics a -> statics p' = statics p -> EdgeOK a p -> EdgeOK a' p'.
Proof.
  intros (_ & _ & E3 & E4 & E5 & _)%statics_fields (_ & _ & F3 & F4 & F5 & _)%statics_fields
    [H1 H2 H3].
  split; rewrite ?E3, ?E4, ?E5, ?F3, ?F4, ?F5; done.
Qed.

Lemma parents_statics A A' : statics <$> A' = statics <$> A -> parents A' = parents A.
Proof.
  intros H. unfold parents. apply map_eq. intros k. rewrite !lookup_fmap.
  pose proof (f_equal (fun m => m !! k) H) as E. cbn beta in E. rewrite !lookup_fmap in E.
  destruct (A' !! k) as [a|], (A !! k) as [b|]; try done.
  apply (inj Some) in E. apply statics_fields in E as (_ & E & _). cbn. by rewrite E.
Qed.

Lemma AgentsOK_statics n n' A A' :
  (n <= n')%N -> statics <$> A' = statics <$> A -> AgentsOK n A -> AgentsOK n' A'.
Proof.
  intros Hn H [H1 H2 H3]. split.
  - by rewrite (parents_statics A A').
  - intros name a' Ha'. destruct (statics_eq A A' name a' H Ha') as (a & Ha & E).
    eapply NodeOK_statics; eauto.
  - intros name a' p' Ha' Hp'. destruct (statics_eq A A' name a' H Ha') as (a & Ha & E).
    destruct (statics_eq A A' _ p' H Hp') as (p & Hp & E').
    apply statics_fields in E as Ef. destruct Ef as (_ & Ep & _). rewrite Ep in Hp.
    eapply EdgeOK_statics; eauto.
Qed.

Lemma quiet_group fl fl' : quiet fl fl' -> GroupOK (fl_group fl) -> GroupOK (fl_group fl').
Proof.
  intros [Q1 Q2 Q3 Q4 Q5 Q6 _ _] [H1 H2 H3 H4]. split.
  - eapply AgentsOK_statics; [exact Q2|exact Q1|exact H1].
  - rewrite Q3. assert (size (fl_Agents fl') = size (fl_Agents fl)) as E; [|unfold fl_Agents in E; by rewrite E].
    by rewrite <-(map_size_fmap statics (fl_Agents fl')), Q1, map_size_fmap.
  - by rewrite Q4, Q5.
  - intros id r (k & ? & ->)%Q6%H4. exists k. split; [lia|done].
Qed.

#[export] Instance quiet_refl : Reflexive quiet.
Proof. intros fl. by split. Qed.

#[export] Instance quiet_trans : Transitive quiet.
Proof.
  intros fl1 fl2 fl3 H12 [B1 B2 B3 B4 B5 B6 B7 B8].
  pose proof (quiet_group _ _ H12) as Hg. destruct H12 as [A1 A2 A3 A4 A5 A6 A7 A8].
  split; [congruence|lia|congruence..|auto|auto|auto].
Qed.

Lemma quiet_org fl fl' : quiet fl fl' -> OrgInv fl -> OrgInv fl'.
Proof.
  intros Q O. destruct (quiet_group _ _ Q (org_group _ O)).
  split; [done..|apply Q; [by apply org_group|apply O]|apply Q, O].
Qed.

(** What a step keeps for the runs in progress: it starts none. *)
Record kept (fl fl' : Fleet) : Prop := {
  k_next : (g_NextID (fl_group fl) <= g_NextID (fl_group fl'))%N;
  k_runs : forall id r, g_CheckRuns (fl_group fl') !! id = Some r ->
             g_CheckRuns (fl_group fl) !! id = Some r }.

#[export] Instance kept_refl : Reflexive kept.
Proof. intros fl. by split. Qed.

#[export] Instance kept_trans : Transitive kept.
Proof. intros fl1 fl2 fl3 [A1 A2] [B1 B2]. split; [lia|auto]. Qed.

Lemma quiet_kept fl fl' : quiet fl fl' -> kept fl fl'.
Proof. by intros []; split. Qed.

Lemma kept_runs fl fl' : kept fl fl' -> RunsOK fl -> RunsOK fl'.
Proof. intros [Hn Hr] H id r (k & ? & ->)%Hr%H. exists k. split; [lia|done]. Qed.

(* ------------------------------------------------------------------ *)
(** ** Quiet steps *)

Lemma mail_only_quiet fl fl' : mail_only fl fl' -> quiet fl fl'.
Proof.
  intros (n & E & A & lg & tm & -> & Hn & HA & Hl). split; try done.
  - unfold fl_Agents at 1. cbn. apply map_eq. intros k. rewrite !lookup_fmap.
    pose proof (f_equal (fun m => m !! k) HA) as Ek. cbn beta in Ek. rewrite !lookup_fmap in Ek.
    destruct (A !! k) as [a|], (fl_Agents fl !! k) as [b|]; try done.
    apply (inj Some) in Ek. cbn. f_equal.
    transitivity (statics (strip_inbox a)); [done|]. by rewrite Ek.
  - by destruct Hl.
Qed.

Lemma upd_agents_quiet f fl :
  statics <$> f (fl_Agents fl) = statics <$> fl_Agents fl -> quiet fl (upd_agents f fl).
Proof. intros H. by split. Qed.

Lemma upd_agent_quiet name f fl :
  (forall a, statics (f a) = statics a) -> quiet fl (upd_agent name f fl).
Proof.
  intros H. apply upd_agents_quiet. apply map_eq. intros k. rewrite !lookup_fmap.
  destruct (decide (k = name)) as [->|Hne].
  - rewrite lookup_alter_eq. destruct (fl_Agents fl !! name); [|done]. cbn. by rewrite H.
  - by rewrite lookup_alter_ne.
Qed.

Lemma upd_agents_fmap_quiet f fl :
  (forall a, statics (f a) = statics a) -> quiet fl (upd_agents (fmap f) fl).
Proof.
  intros H. apply upd_agents_quiet. rewrite <-map_fmap_compose. apply map_fmap_ext.
  intros k a _. apply H.
Qed.

Lemma event_quiet now e fl : e_Check e = None -> quiet fl (event now e fl).
Proof. intros H. by apply mail_only_quiet, event_mail_only. Qed.

Lemma save_or_log_quiet fl : quiet fl (save_or_log fl).
Proof. unfold save_or_log, save. by case_match. Qed.

Lemma charge_quiet a m fl : quiet fl (charge_message a m fl).
Proof. unfold charge_message. by case_match. Qed.

Lemma deliver_quiet now m fl : quiet fl (deliver now m fl).
Proof. apply mail_only_quiet, deliver_mail_only. Qed.

Lemma only_quiet fl fl' : expect_only fl fl' -> quiet fl fl'.
Proof. intros. by apply mail_only_quiet, expect_mail_only. Qed.

Lemma foldl_quiet {B} (f : Fleet -> B -> Fleet) l fl :
  (forall fl x, quiet fl (f fl x)) -> quiet fl (foldl f fl l).
Proof.
  intros H. revert fl. induction l as [|x l IH]; intros fl; cbn; [done|].
  etrans; [apply H|apply IH].
Qed.

(** Solve [quiet fl fl'] where [fl'] is built by quiet pieces, the last one
    outermost. *)
Create HintDb quiet discriminated.
#[export] Hint Resolve event_quiet save_or_log_quiet charge_quiet deliver_quiet : quiet.

Ltac quiet_step :=
  first
    [ reflexivity
    | assumption
    | match goal with
      | |- quiet _ (save_or_log _) => etrans; [|apply save_or_log_quiet]
      | |- quiet _ (save _).1 => etrans; [|apply save_or_log_quiet]
      | |- quiet _ (event _ _ _) => etrans; [|apply event_quiet; reflexivity]
      | |- quiet _ (deliver _ _ _) => etrans; [|apply deliver_quiet]
      | |- quiet _ (charge_message _ _ _) => etrans; [|apply charge_quiet]
      | |- quiet _ (accepted _ _ _) => etrans; [|apply only_quiet, accepted_only]
      | |- quiet _ (upd_agent _ _ _) => etrans; [|apply upd_agent_quiet; done]
      end ].
Ltac quiet := repeat quiet_step; try done.

(** * The operations that leave the organisation alone

    Turns, timers, expectations, expediting, reviving and stopping change
    mailboxes, budgets' spending and the log, and nothing [FleetOrg] speaks
    of. *)

Section Quiet.
Context {GF : GoFormat}.
Variable now : Time.

Lemma blocked_quiet a fl : quiet fl (blocked now a fl).1.
Proof.
  unfold blocked. destruct (first_spent _ _ _) as [[[id b] reason]|]; [|done].
  case_match; [done|]. cbn [fst]. quiet.
Qed.

Lemma begin_turn_quiet name a m rest fl : quiet fl (begin_turn now name a m rest fl).1.
Proof.
  unfold begin_turn. cbn [fst]. quiet.
  transitivity (upd_agent name (begin_agent now m rest) fl); [by apply upd_agent_quiet|by split].
Qed.

Lemma run_top_quiet name fl : quiet fl (run_top now name fl).1.
Proof.
  unfold run_top. destruct (fl_Agents fl !! name) as [a|]; [|done].
  destruct (fl_running fl !! name); [|done]. destruct (a_Stopped a); [done|].
  destruct (a_Inbox a) as [|m rest]; [done|].
  set (r := if m_Charged m then _ else _).
  assert (quiet fl r.1) as Hr by (subst r; case_match; [done|apply blocked_quiet]).
  destruct r.2; [done|]. cbn [fst]. etrans; [exact Hr|apply begin_turn_quiet].
Qed.

Lemma after_send_quiet name ok fl : quiet fl (after_send name ok fl).1.
Proof. unfold after_send. case_match; by split. Qed.

Lemma interruptSeat_quiet name rt turn by_ forID ok fl :
  quiet fl (interruptSeat name rt turn by_ forID ok fl).
Proof. unfold interruptSeat. case_match; [case_decide|]; by split. Qed.

Lemma routeReply_quiet a m text fl : quiet fl (routeReply now a m text fl).
Proof. unfold routeReply. case_decide; [|case_match]; quiet. Qed.

Lemma turn_failed_quiet a m steered err fl : quiet fl (turn_failed now a m steered err fl).
Proof.
  unfold turn_failed. etrans; [|apply foldl_quiet].
  - case_decide; quiet.
  - intros fl' x. unfold fail_steered. case_decide; quiet.
Qed.

Lemma turn_done_quiet a m steered i rt reply err fl :
  quiet fl (turn_done now a m steered i rt reply err fl).
Proof.
  unfold turn_done. etrans; [|apply foldl_quiet].
  - apply routeReply_quiet.
  - intros fl' x. unfold answer_steered. case_decide; [apply routeReply_quiet|done].
Qed.

Lemma finish_turn_quiet name used te fl : quiet fl (finish_turn now name used te fl).1.
Proof.
  unfold finish_turn. destruct (fl_Agents fl !! name) as [a|] eqn:Ea; [|done].
  destruct (fl_running fl !! name) as [rt|]; [|done].
  destruct (a_Current a) as [m|]; [|done]. destruct (_ && negb (a_Stopped a)); [done|].
  set (e := _ <| e_Cause := _ |>). set (fl1 := _ <| fl_group ::= chargeTokens _ _ |>).
  assert (quiet fl fl1) as Q1 by (transitivity (event now e fl); [by apply event_quiet|by split]).
  set (fl2 := upd_agent name _ fl1). assert (quiet fl fl2) as Q2 by (unfold fl2; quiet).
  clearbody fl2. destruct (a_Stopped a); [done|]. destruct (_ && negb (te_alive te)).
  { case_match; cbn [fst].
    - etrans; [exact Q2|]. by split.
    - quiet. transitivity (upd_agent name requeue fl2); [quiet|by split]. }
  cbn [fst]. etrans; [exact Q2|]. quiet_step.
  set (fl3 := upd_agent name _ fl2). assert (quiet fl2 fl3) as Q3 by (unfold fl3; quiet).
  clearbody fl3. etrans; [exact Q3|].
  destruct (te_err te); [destruct (negb _)|].
  - apply turn_failed_quiet.
  - etrans; [|apply turn_done_quiet]. by split.
  - etrans; [|apply turn_done_quiet]. by split.
Qed.

Lemma finish_closed_quiet name used u fl : quiet fl (finish_closed name used u fl).
Proof. unfold finish_closed. case_match; [|done]. quiet_step. by split. Qed.

(** ** Timers *)

Lemma upd_timers_quiet f fl : quiet fl (upd_timers f fl).
Proof. by split. Qed.

Lemma dropTimer_quiet id fl : quiet fl (dropTimer id fl).
Proof. by split. Qed.

Lemma fireTimer_quiet id t fl : quiet fl (fireTimer now id t fl).
Proof.
  unfold fireTimer. case_match; [quiet_step; by split|]. case_match; [by split|].
  set (fl1 := armTimer _ _ _ _). assert (quiet fl fl1) as Q1 by by split.
  clearbody fl1. destruct (_ ≫= _) as [q|]; [quiet|].
  etrans; [exact Q1|]. unfold fire_repeat. quiet_step. by split.
Qed.

Lemma timer_fires_quiet id fl : quiet fl (timer_fires now id fl).
Proof.
  unfold timer_fires. case_match; [|done].
  assert (quiet fl (disarm id fl)) by by split. case_match; [|done].
  quiet_step. etrans; [|apply fireTimer_quiet]. done.
Qed.

Lemma Cancel_quiet caller id fl : quiet fl (Cancel now caller id fl).1.
Proof.
  unfold Cancel. destruct (fl_Timers fl !! id); [|done]. destruct (negb _); [done|].
  cbn [fst]. quiet.
Qed.

Lemma dropTimersOf_quiet name failure fl : quiet fl (dropTimersOf now name failure fl).
Proof.
  apply foldl_quiet. intros fl' kv. unfold dropTimerOf. case_decide; [done|].
  case_decide; [|done]. quiet.
Qed.

(** ** Expediting and expectations *)

Lemma expedite_quiet caller id mode fl : quiet fl (expedite now caller id mode fl).1.
Proof.
  unfold expedite. destruct (negb _ && _); [done|].
  assert (quiet fl (expedite_find caller id mode fl).1) as Qf.
  { unfold expedite_find. destruct (queued _ _) as [[n i]|]; [done|].
    case_decide; [|done]. destruct (steered _ _) as [[n j]|]; [|done].
    destruct (negb _); [done|]. apply upd_agent_quiet. intros a. unfold reclaim. by case_match. }
  destruct (expedite_find caller id mode fl) as [fl1 [[[name i] reclaimed]|err]]; [|done].
  cbn [fst snd] in *. destruct (negb _); [done|].
  set (fl2 := upd_agent name _ fl1). assert (quiet fl fl2) as Q2 by (unfold fl2; quiet).
  clearbody fl2. destruct (fl_Agents fl2 !! name) as [a|]; [|done].
  destruct (a_Current a); [|cbn [fst]; quiet].
  destruct (fl_running fl2 !! name) as [rt|]; [|cbn [fst]; quiet].
  case_decide; [destruct (negb _); cbn [fst]; quiet; (etrans; [exact Q2|by split])|].
  pose proof (blocked_quiet a fl2) as Qb.
  destruct (blocked now a fl2) as [fl3 b]. cbn [fst snd] in *.
  assert (quiet fl fl3) as Q3 by by etrans.
  destruct b; cbn [fst]; [quiet|]. quiet_step. etrans; [exact Q3|]. apply upd_agent_quiet.
  intros a'. unfold steer_head. by case_match.
Qed.

Lemma restoreSteered_quiet name id rt turn fl : quiet fl (restoreSteered name id rt turn fl).1.
Proof.
  unfold restoreSteered. destruct (fl_Agents fl !! name); [|done].
  destruct (index _ _); [|done]. case_match; [|done]. cbn [fst]. quiet_step.
  apply upd_agent_quiet. intros a'. unfold unreclaim. by case_match.
Qed.

Lemma interrupt_returns_quiet name id by_ rt turn reclaimed err fl :
  quiet fl (interrupt_returns name id by_ rt turn reclaimed err fl).1.
Proof.
  unfold interrupt_returns. set (fl1 := interruptSeat _ _ _ _ _ _ _).
  assert (quiet fl fl1) as Q1 by apply interruptSeat_quiet.
  destruct err; [|done]. destruct reclaimed; [|done].
  etrans; [exact Q1|apply restoreSteered_quiet].
Qed.

Lemma steer_returns_quiet name token id rt turn err fl :
  quiet fl (steer_returns now name token id rt turn err fl).1.
Proof.
  unfold steer_returns. set (fl1 := upd_agents _ fl).
  assert (quiet fl fl1) as Q1 by by apply upd_agents_fmap_quiet.
  clearbody fl1. destruct (fl_Agents fl1 !! name) as [a|]; [|done].
  destruct (if decide _ then _ else _) as [j|]; [|done].
  destruct (_ && _); cbn [fst]; quiet_step.
  - quiet_step. case_match; quiet.
  - etrans; [exact Q1|]. apply upd_agent_quiet. intros a'. unfold unsteer. by case_match.
Qed.

Lemma expect_fires_quiet id which fl : quiet fl (expect_fires now id which fl).
Proof.
  unfold expect_fires. case_match; [|done].
  set (fl0 := disarm _ fl). assert (quiet fl fl0) as Q0 by by split. clearbody fl0.
  case_match; [|done]. etrans; [exact Q0|]. quiet_step. unfold expectMissed.
  set (e' := missed which _). set (fl1 := upd_expects _ fl0).
  assert (quiet fl0 fl1) as Q1 by by split. clearbody fl1 e'.
  assert (quiet fl1 (where_ now id e' fl1).1) as Qw.
  { unfold where_. destruct (fl_Agents fl1 !! x_To e') as [a|]; [|done].
    do 2 (case_match; [done|]). destruct (index _ _); [|by case_match].
    destruct (negb _); [done|]. case_match; [done|]. apply blocked_quiet. }
  quiet_step. assert (quiet fl0 (where_ now id e' fl1).1) as Q2 by by etrans.
  unfold forget_done. repeat case_match; try done; (etrans; [exact Q2|by split]).
Qed.

(** ** Reviving and stopping *)

Lemma runLocked_quiet a desc deaths fl : quiet fl (runLocked now a desc deaths fl).
Proof. unfold runLocked. quiet_step. by split. Qed.

Lemma launch_ok_quiet name desc fl : quiet fl (launch_ok now name desc fl).
Proof.
  unfold launch_ok. case_match; [|done]. etrans; [|apply runLocked_quiet]. by split.
Qed.

Lemma revive_begin_quiet name fl : quiet fl (revive_begin name fl).
Proof. by split. Qed.

Lemma revive_ok_quiet name desc resume briefed deaths fl :
  quiet fl (revive_ok now name desc resume briefed deaths fl).
Proof.
  unfold revive_ok. destruct (fl_Agents fl !! name) as [a|]; [|done].
  etrans; [|apply runLocked_quiet]. quiet_step.
  set (fl0 := fl <| fl_reviving ::= _ |>). assert (quiet fl fl0) by by split.
  case_match; quiet.
Qed.

Lemma revive_failed_quiet name err lost retry rl fl :
  quiet fl (revive_failed now name err lost retry rl fl).1.
Proof.
  unfold revive_failed. destruct (fl_Agents fl !! name) as [a|]; [|done].
  case_match; [done|]. cbn [fst]. case_match; [done|]. quiet.
Qed.

Lemma retire_begin_quiet name token fl : quiet fl (retire_begin name token fl).1.
Proof.
  unfold retire_begin. case_match; [|done]. case_match; [done|]. by apply upd_agent_quiet.
Qed.

Lemma Stop_quiet caller name fl : quiet fl (Stop now caller name fl).1.
Proof.
  unfold Stop. destruct (fl_Agents fl !! name) as [a|]; [|done].
  do 3 (case_match; [done|]). cbn [fst]. quiet.
Qed.

Lemma answerOwed_quiet a failure fl : quiet fl (answerOwed now a failure fl).1.
Proof.
  unfold answerOwed. cbn [fst]. apply foldl_quiet. intros fl' m.
  unfold answer_one. case_decide; quiet.
Qed.

Lemma set_closing_quiet b fl : quiet fl (set_closing b fl).1.
Proof. unfold set_closing. quiet_step. by split. Qed.

Lemma Resume_quiet fl : quiet fl (Resume now fl).
Proof.
  unfold Resume. etrans; [|apply foldl_quiet].
  - apply foldl_quiet. by intros; split.
  - intros fl' kv. apply only_quiet, armExpects_only.
Qed.

(** ** Checks with finite figures *)

Lemma RegisterCheck_quiet sha caller path c script timeout pin fl :
  quiet fl (RegisterCheck sha now caller path c script timeout pin fl).1.
Proof.
  unfold RegisterCheck.
  destruct (match g_Checks (fl_group fl) !! ca_Name c with Some _ => _ | None => _ end); [done|].
  destruct pin; [done|]. cbn [fst]. quiet_step. quiet_step. by split.
Qed.

Lemma finishCheck_quiet id r fl :
  result_encodable r = true -> quiet fl (finishCheck now id r fl).
Proof.
  intros Hr. unfold finishCheck. set (r' := r <| cr_Output ::= _ |>).
  set (e := _ <| e_Check := Some r' |>).
  set (fl1 := event now e (upd_runs (delete id) fl)).
  assert (quiet fl fl1) as Q1.
  { split; try done.
    - intros i x. unfold fl1, event, upd_runs. cbn. by intros [_ H]%lookup_delete_Some.
    - intros Hl. by apply LogInv_append. }
  set (fl2 := match g_Checks (fl_group fl1) !! cr_Name r' with Some _ => _ | None => _ end).
  assert (quiet fl fl2) as Q2.
  { subst fl2. case_match; [case_decide|]; try done. etrans; [exact Q1|by split]. }
  clearbody fl2. destruct (fl_Agents fl2 !! _); [|done]. destruct (g_CheckRuns _ !! id); [|done].
  case_decide; [done|]. quiet.
Qed.

Lemma reportInterruptedChecks_quiet fl : quiet fl (reportInterruptedChecks now fl).
Proof. apply foldl_quiet. intros fl' kv. by apply finishCheck_quiet. Qed.
End Quiet.
