(* ===== verification/FleetOrgOps.v ===== *)
(** * FleetOrgOps: the operations that change the organisation

    Starting and retiring an agent, setting a budget, sending and running a
    check preserve [OrgInv]. *)

From S2P Require Import Prelude GoLib FleetNames FleetTypes FleetAuthority FleetLog FleetBudget FleetDeliver FleetTimer FleetTurn FleetExpedite FleetCheck FleetLifecycle FleetCons FleetMail FleetAccounts FleetOrg.

Implicit Types A : gmap string fleetAgentState.

(** ** Agents join and leave *)

Lemma parents_insert A name a : parents (<[name := a]> A) = <[name := a_Parent a]> (parents A).
Proof. apply fmap_insert. Qed.

(** In a tree nobody's parent is missing. *)
Lemma Tree_parent_in A m b name :
  Tree (parents A) -> A !! m = Some b -> a_Parent b = name -> name = FleetOwner \/ is_Some (A !! name).
Proof.
  intros [Ho Ht] Hm Hp. destruct (Ht m name) as [d Hd]; [apply parents_lookup; eauto|].
  destruct Hd as [m E|m q d E Hd]; apply parents_lookup in E as (b' & Eb & Ep); simplify_eq.
  - by left.
  - right. apply Depth_dom in Hd as [p Hp]. apply parents_lookup in Hp as (x & -> & _). by eexists.
Qed.

Lemma AgentsOK_insert n n' A name a :
  AgentsOK n A -> (n <= n')%N -> A !! name = None -> name <> FleetOwner -> NodeOK n' name a ->
  a_Parent a = FleetOwner \/ (exists p, A !! a_Parent a = Some p /\ EdgeOK a p) ->
  AgentsOK n' (<[name := a]> A).
Proof.
  intros HA Hn Hnew Hne Hnode Hp.
  assert (AgentsOK n' A) as [H1 H2 H3] by (by apply (AgentsOK_statics n n' A A)).
  assert (A !! FleetOwner = None) as Howner by (apply parents_lookup_None; apply H1).
  split.
  - rewrite parents_insert. apply Tree_insert; [done|done|by apply parents_lookup_None|].
    destruct Hp as [->|(p & Hp & _)]; [by left|right]. exists (a_Parent p). apply parents_lookup. eauto.
  - intros k b [[<- <-]|[_ Hb]]%lookup_insert_Some; [done|by apply H2].
  - intros k b p Hb Hbp. apply lookup_insert_Some in Hb as [[<- <-]|[Hk Hb]].
    + destruct Hp as [E|(p' & Hp' & He)].
      * rewrite E in Hbp. rewrite lookup_insert_ne in Hbp by done. congruence.
      * rewrite lookup_insert_ne in Hbp by congruence. by simplify_eq.
    + rewrite lookup_insert_ne in Hbp; [by eapply H3|].
      intros E. destruct (Tree_parent_in A k b name H1 Hb) as [?|[? ?]]; congruence.
Qed.

Lemma parents_orphan A name :
  parents (orphan_child name <$> delete name A) = orphan name (parents A).
Proof.
  unfold parents, orphan. rewrite <-fmap_delete, <-!map_fmap_compose.
  apply map_fmap_ext. intros k a _. cbn. unfold orphan_child. by case_decide.
Qed.

Lemma AgentsOK_orphan n A name :
  AgentsOK n A -> AgentsOK n (orphan_child name <$> delete name A).
Proof.
  intros [H1 H2 H3]. split.
  - rewrite parents_orphan. by apply Tree_orphan.
  - intros k b Hb. apply lookup_fmap_Some in Hb as (b0 & <- & [_ Hb]%lookup_delete_Some).
    destruct (H2 k b0 Hb) as [G1 G2 G3 G4 G5 G6]. unfold orphan_child. by case_decide.
  - intros k b p Hb Hp.
    apply lookup_fmap_Some in Hb as (b0 & <- & [_ Hb]%lookup_delete_Some).
    apply lookup_fmap_Some in Hp as (p0 & <- & [_ Hp]%lookup_delete_Some).
    assert (A !! a_Parent b0 = Some p0 /\ a_Parent b0 <> name) as [Hp' Hne].
    { unfold orphan_child in Hp. case_decide as E; [|done]. cbn in Hp.
      assert (A !! FleetOwner = None) by (apply parents_lookup_None; apply H1). congruence. }
    destruct (H3 k b0 p0 Hb Hp') as [G1 G2 G3].
    unfold orphan_child. rewrite (decide_False (P := a_Parent b0 = name)) by done.
    split; case_decide; done.
Qed.

Lemma AgentsOK_delete_leaf n A name :
  AgentsOK n A -> (forall k b, A !! k = Some b -> a_Parent b <> name) -> AgentsOK n (delete name A).
Proof.
  intros [H1 H2 H3] Hleaf. split.
  - unfold parents. rewrite fmap_delete. apply Tree_delete_leaf; [done|].
    intros m Hm. apply parents_lookup in Hm as (b & Hb & E). by apply (Hleaf m b).
  - intros k b [_ Hb]%lookup_delete_Some. by apply H2.
  - intros k b p [_ Hb]%lookup_delete_Some [_ Hp]%lookup_delete_Some. by eapply H3.
Qed.

Lemma size_delete_le A name : (size (delete name A) <= size A)%nat.
Proof.
  destruct (A !! name) as [a|] eqn:E; [|by rewrite delete_id].
  rewrite <-(size_dom A), <-(size_dom (delete name A)). apply subseteq_size.
  rewrite dom_delete. set_solver.
Qed.

Section OrgOps.
Context {GF : GoFormat}.
Variable now : Time.

(** [OrgInv] for another state, given its agents and that the rest is
    quiet. *)
Lemma org_change fl fl' :
  OrgInv fl -> AgentsOK (g_NextID (fl_group fl')) (fl_Agents fl') ->
  (Z.of_nat (size (fl_Agents fl')) <= g_MaxAgents (fl_group fl'))%Z ->
  (g_NextID (fl_group fl) <= g_NextID (fl_group fl'))%N ->
  g_MaxMessages (fl_group fl') = g_MaxMessages (fl_group fl) ->
  g_Sent (fl_group fl') = g_Sent (fl_group fl) ->
  g_CheckRuns (fl_group fl') = g_CheckRuns (fl_group fl) ->
  fl_saved fl' = fl_saved fl -> fl_log fl' = fl_log fl -> OrgInv fl'.
Proof.
  intros [H1 H2 H3 H4 H5 H6] G1 G2 G3 G4 G5 G6 G7 G8.
  split; [done|done|by rewrite G4, G5| |by rewrite G7|by rewrite G8].
  intros id r. rewrite G6. intros (k & ? & ->)%H4. exists k. split; [lia|done].
Qed.

(** ** Starting *)

Lemma admit_args_ok caller args rf s instructions :
  admit_args caller args rf = inl (s, instructions) ->
  fleetNameValid (sa_Name s) = true /\ sa_Name s <> FleetOwner /\ sa_Name s <> FleetBudgetSender
  /\ sa_Name s <> FleetClockSender /\ fleetBudgetIDPattern (sa_Name s) = false
  /\ (sa_Authority s <> "" -> sa_Authority s = FleetAuthorityAll /\ caller = FleetOwner)
  /\ TrimSpace instructions <> "".
Proof.
  unfold admit_args. destruct args as [s'|]; [|done].
  destruct (_ || fleetBudgetIDPattern (sa_Name s')) eqn:En; [done|].
  apply orb_false_iff in En as [En E5]. apply orb_false_iff in En as [En E4].
  apply orb_false_iff in En as [En E3]. apply orb_false_iff in En as [E1 E2].
  apply negb_false_iff in E1. apply bool_decide_eq_false in E2, E3, E4.
  destruct (if decide _ then _ else _) as [ins|]; [|done].
  destruct (decide (TrimSpace ins = "")) as [|Hi]; [done|].
  destruct (_ && negb (IsAbs _)); [done|].
  destruct (match sa_Budget s' with Some _ => _ | None => _ end); [done|].
  destruct (_ && negb (bool_decide (sa_Authority s' = FleetAuthorityAll))) eqn:Ea; [done|].
  destruct (_ && negb (bool_decide (caller = FleetOwner))) eqn:Ec; [done|].
  intros [= <- <-]. split_and!; try done. intros Hne.
  rewrite bool_decide_eq_false_2 in Ea, Ec by done. cbn in Ea, Ec.
  apply negb_false_iff, bool_decide_eq_true in Ea. apply negb_false_iff, bool_decide_eq_true in Ec.
  done.
Qed.

Lemma admit_agent_ok n g caller token s instructions a :
  AgentsOK n (g_Agents g) -> fleetNameValid (sa_Name s) = true ->
  (sa_Authority s <> "" -> caller = FleetOwner) ->
  admit_agent g caller token s instructions = inl a ->
  g_Agents g !! sa_Name s = None /\ NodeOK n (sa_Name s) a /\ a_Parent a = caller
  /\ (caller = FleetOwner \/ exists p, g_Agents g !! caller = Some p /\ EdgeOK a p)
  /\ (Z.of_nat (size (g_Agents g)) < g_MaxAgents g)%Z.
Proof.
  intros HA Hv Hauth. unfold admit_agent. destruct (g_Closing g); [done|].
  assert (g_Agents g !! FleetOwner = None) as Ho by (apply parents_lookup_None; apply HA).
  destruct (if decide _ then _ else _) as [a0|] eqn:E0; [|done].
  assert (a_Name a0 = sa_Name s /\ a_Parent a0 = caller /\ a_Authority a0 = sa_Authority s
          /\ ((caller = FleetOwner /\ a_Budgets a0 = [] /\ g_Agents g !! caller = None)
              \/ exists p, g_Agents g !! caller = Some p /\ a_Budgets a0 = a_Budgets p
                   /\ a_Root a0 = a_Root p)) as (H1 & H2 & H3 & H4).
  { case_decide as E; [injection E0 as <-; subst; split_and!; try done; by left|].
    destruct (g_Agents g !! caller) as [p|] eqn:Ep; [|done]. injection E0 as <-.
    split_and!; try done. right. by exists p. }
  clear E0. case_decide; [done|]. destruct (chooseTools _ _) as [tools|] eqn:Et; [|done].
  apply chooseTools_subset in Et.
  case_bool_decide as Hn; [done|]. destruct (_ <=? _)%Z eqn:Es; [done|].
  apply Z.leb_gt in Es. intros [= <-]. apply eq_None_not_Some in Hn.
  split_and!; [done| |done| |done].
  - split; cbn; [done| |by rewrite H2, H3|..].
    + destruct H4 as [(_ & _ & E)|(p & Hp & _ & _)]; [by rewrite E in Et|].
      rewrite Hp in Et. etrans; [exact Et|]. by eapply n_tools, ao_node.
    + destruct H4 as [(_ & -> & _)|(p & Hp & -> & _)]; [set_solver|].
      by eapply n_budgets, ao_node.
    + destruct H4 as [(_ & -> & _)|(p & Hp & -> & _)]; [constructor|]. by eapply n_nodup, ao_node.
    + done.
  - destruct H4 as [(? & _)|(p & Hp & Hb & Hr)]; [by left|right]. exists p.
    split; [done|]. rewrite Hp in Et. split; cbn; [done|by rewrite Hb|done].
Qed.

(** A fresh budget over an agent keeps its record in order. *)
Lemma add_budget_ok n name a :
  NodeOK n name a -> NodeOK (n + 1) name (a <| a_Budgets ::= fun l => l ++ [budget_id (n + 1)] |>).
Proof.
  intros [H1 H2 H3 H4 H5 H6]. split; cbn; try done.
  - intros id [(k & ? & ->)%H4| ->%list_elem_of_singleton]%elem_of_app; [exists k|exists (n + 1)%N];
      split; done || lia.
  - apply list.NoDup_app. split_and!; [done| |apply NoDup_singleton].
    intros id (k & Hk & ->)%H4 [_ E]%list_elem_of_singleton%mint_eq. lia.
Qed.

Lemma admit_org caller token s instructions fl :
  OrgInv fl -> fleetNameValid (sa_Name s) = true -> sa_Name s <> FleetOwner ->
  (sa_Authority s <> "" -> caller = FleetOwner) ->
  OrgInv (admit_start now caller token s instructions fl).1.
Proof.
  intros O Hv Hne Hauth. unfold admit_start.
  destruct (admit_agent _ _ _ _ _) as [a|] eqn:Ea; [|done].
  destruct (admit_agent_ok _ _ _ _ _ _ _ (o_agents _ O) Hv Hauth Ea) as (Hn & Hnode & Hp & Hedge & Hsz).
  set (ga := match sa_Budget s with Some _ => _ | None => _ end).
  assert (g_Agents ga.1 = fl_Agents fl /\ g_MaxAgents ga.1 = g_MaxAgents (fl_group fl)
    /\ g_MaxMessages ga.1 = g_MaxMessages (fl_group fl) /\ g_Sent ga.1 = g_Sent (fl_group fl)
    /\ g_CheckRuns ga.1 = g_CheckRuns (fl_group fl)
    /\ (g_NextID (fl_group fl) <= g_NextID ga.1)%N /\ NodeOK (g_NextID ga.1) (sa_Name s) ga.2
    /\ a_Parent ga.2 = caller
    /\ forall p, EdgeOK a p -> EdgeOK ga.2 p) as (G1 & G2 & G3 & G4 & G5 & G6 & G7 & G8 & G9).
  { subst ga. destruct (sa_Budget s) as [b|]; [destruct (budget_zero b)|]; cbn; split_and!;
      try done; try lia; [apply (add_budget_ok _ _ (a <| a_OwnBudget := _ |>)); by destruct Hnode|].
    intros p [F1 F2 F3]. split; cbn; [done|set_solver|done]. }
  clearbody ga. set (fl1 := _ <| fl_starting ::= _ |>).
  assert (fl_Agents fl1 = <[sa_Name s := ga.2]> (fl_Agents fl)) as HA1.
  { unfold fl1, fl_Agents. cbn. by rewrite G1. }
  assert (OrgInv fl1) as O1.
  { apply (org_change fl); rewrite ?HA1; try done.
    - eapply AgentsOK_insert; [apply O|done..| ]. rewrite G8.
      destruct Hedge as [?|(p & ? & ?)]; [by left|right]. exists p. auto.
    - rewrite map_size_insert_None by done. cbn. rewrite G2. unfold fl_Agents. lia. }
  clear Hedge. unfold save. destruct (_ && _); cbn [fst snd].
  { by apply (quiet_org fl1); [split|]. }
  apply (quiet_org fl); [|done].
  split; try done; unfold fl_Agents, fl1; cbn; rewrite ?G1.
  - by rewrite delete_insert_id.
  - by rewrite G5.
Qed.

(** ** Leaving *)

Lemma passOn_quiet name heir fl : quiet fl (fl <| fl_group ::= passOnCreations name heir |>).
Proof. by split. Qed.

Lemma dropUnused_quiet fl : quiet fl (fl <| fl_group ::= dropUnusedBudgets |>).
Proof. by split. Qed.

(** The fleet without the agent: what is left of the two ways to go is quiet. *)
Definition without (name : string) (fl : Fleet) : Fleet :=
  upd_agents (fmap (orphan_child name))
    (upd_agents (delete name) fl <| fl_running ::= delete name |>
       <| fl_reviving ::= fun x => x ∖ {[name]} |>).

Definition never_started (name : string) (fl : Fleet) : Fleet :=
  upd_agents (delete name) (fl <| fl_starting ::= fun x => x ∖ {[name]} |>).

Lemma retire_finish_rest name cause fl :
  is_Some (fl_Agents fl !! name) -> quiet (without name fl) (retire_finish now name cause fl).
Proof.
  intros [a Ea]. unfold retire_finish. rewrite Ea.
  set (gone := _ +:+ _). set (fl1 := upd_agents (fmap _) _).
  change (without name fl) with fl1. clearbody fl1.
  quiet_step. set (e := _ <| e_Cause := _ |>). set (fl4 := event now e _).
  assert (quiet fl1 fl4) as Q4.
  { unfold fl4. quiet_step. etrans; [|apply dropUnused_quiet].
    etrans; [|apply passOn_quiet]. etrans; [|apply only_quiet, dropExpectsOf_only].
    apply dropTimersOf_quiet. }
  clearbody fl4.
  assert (quiet fl1 (answerOwed now a gone fl4).1) as Q5 by (etrans; [done|apply answerOwed_quiet]).
  destruct cause; [done|]. case_match; [done|]. quiet.
Qed.

Lemma launch_failed_rest name err tell fl :
  is_Some (fl_Agents fl !! name) ->
  quiet (never_started name fl) (launch_failed now name err tell fl).
Proof.
  intros [a Ea]. unfold launch_failed. rewrite Ea.
  set (failure := _ +:+ _). set (fl1 := upd_agents (delete name) _).
  change (never_started name fl) with fl1. clearbody fl1.
  quiet_step. set (e := _ <| e_Cause := _ |>). set (fl4 := event now e _).
  assert (quiet fl1 fl4) as Q4.
  { unfold fl4. quiet_step. etrans; [|apply dropUnused_quiet]. apply dropTimersOf_quiet. }
  clearbody fl4.
  assert (quiet fl1 (answerOwed now a failure fl4).1) as Q5 by (etrans; [done|apply answerOwed_quiet]).
  destruct (tell && _); [|done]. quiet.
Qed.

Lemma retire_finish_org name cause fl :
  OrgInv fl -> OrgInv (retire_finish now name cause fl).
Proof.
  intros O. destruct (fl_Agents fl !! name) as [a|] eqn:Ea; [|unfold retire_finish; by rewrite Ea].
  eapply quiet_org; [by apply retire_finish_rest; eauto|]. apply (org_change fl); try done.
  - unfold fl_Agents, without, upd_agents. cbn. apply AgentsOK_orphan. apply O.
  - unfold fl_Agents, without, upd_agents. cbn. rewrite map_size_fmap.
    pose proof (size_delete_le (g_Agents (fl_group fl)) name).
    pose proof (o_size _ O). unfold fl_Agents in *. lia.
Qed.

(** An agent that never started had started nobody. *)
Lemma launch_failed_org name err tell fl :
  OrgInv fl -> (forall k b, fl_Agents fl !! k = Some b -> a_Parent b <> name) ->
  OrgInv (launch_failed now name err tell fl).
Proof.
  intros O Hleaf.
  destruct (fl_Agents fl !! name) as [a|] eqn:Ea; [|unfold launch_failed; by rewrite Ea].
  eapply quiet_org; [by apply launch_failed_rest; eauto|]. apply (org_change fl); try done.
  - unfold fl_Agents, never_started, upd_agents. cbn. apply AgentsOK_delete_leaf; [apply O|done].
  - unfold fl_Agents, never_started, upd_agents. cbn.
    pose proof (size_delete_le (g_Agents (fl_group fl)) name).
    pose proof (o_size _ O). unfold fl_Agents in *. lia.
Qed.

Lemma retire_finish_kept name cause fl : kept fl (retire_finish now name cause fl).
Proof.
  destruct (fl_Agents fl !! name) eqn:E; [|unfold retire_finish; by rewrite E].
  transitivity (without name fl); [by split|]. apply quiet_kept, retire_finish_rest. eauto.
Qed.

Lemma launch_failed_kept name err tell fl : kept fl (launch_failed now name err tell fl).
Proof.
  destruct (fl_Agents fl !! name) eqn:E; [|unfold launch_failed; by rewrite E].
  transitivity (never_started name fl); [by split|]. apply quiet_kept, launch_failed_rest. eauto.
Qed.

(** ** Sending and checks *)

Lemma send_check_room g s : send_check g s = None -> (g_Sent g < g_MaxMessages g)%Z.
Proof.
  unfold send_check. do 7 (case_match; [done|]).
  destruct (g_MaxMessages g <=? g_Sent g)%Z eqn:E; [done|]. intros _. by apply Z.leb_gt in E.
Qed.

Lemma send_org args fl : OrgInv fl -> OrgInv (send now args fl).1.
Proof.
  intros O. unfold send. destruct args as [s|]; [|done].
  destruct (send_check (fl_group fl) s) as [err|] eqn:E; [done|]. cbn [fst].
  apply send_check_room in E.
  set (fl1 := fl <| fl_group ::= fun g => g <| g_Sent ::= Z.add 1 |> |>).
  assert (OrgInv fl1) as O1.
  { destruct O as [H1 H2 H3 H4 H5 H6]. split; try done. cbn. lia. }
  eapply quiet_org; [apply save_or_log_quiet|]. apply (quiet_org fl1); [|done].
  unfold send_go. fold fl1. destruct (send_scheduled s); cbn [negb fst].
  - by split; cbn; try lia.
  - quiet_step. etrans; [|apply only_quiet, expect_only_expect]. by split; cbn; try lia.
Qed.

Lemma run_check_start_org requester name sha fl :
  OrgInv fl -> OrgInv (run_check_start now requester name sha fl).1.
Proof.
  intros O. unfold run_check_start. destruct (g_Checks (fl_group fl) !! name) as [c|]; [|done].
  destruct (negb _); [done|].
  set (n := (g_NextID (fl_group fl) + 1)%N). set (e := _ <| e_Check := _ |>).
  set (fl1 := event now e _).
  assert (OrgInv fl1) as O1.
  { destruct O as [H1 H2 H3 H4 H5 H6]. split; try done.
    - by apply (AgentsOK_statics (g_NextID (fl_group fl)) n (fl_Agents fl)); [subst n; lia|..].
    - intros id r. unfold fl1, event, upd_runs. cbn. intros [[<- _]|[_ (k & ? & ->)%H4]]%lookup_insert_Some.
      + exists n. split; [done|done].
      + exists k. split; [subst n; lia|done].
    - by apply LogInv_append. }
  clearbody fl1. unfold save. destruct (_ && _); cbn [fst snd].
  { by apply (quiet_org fl1); [split|]. }
  apply (quiet_org fl1); [|done]. split; try done.
  intros i r. unfold upd_runs. cbn. by intros [_ ?]%lookup_delete_Some.
Qed.

(** ** Setting a budget *)

(** [b] is [a] with the budgets [l] added. *)
Definition budgeted (a b : fleetAgentState) (l : list string) : Prop :=
  a_Name b = a_Name a /\ a_Parent b = a_Parent a /\ a_Root b = a_Root a /\ a_Tools b = a_Tools a
  /\ a_Authority b = a_Authority a /\ a_Budgets b = a_Budgets a ++ l.

(** The agents a budget over [agent] applies to. *)
Definition under A (agent k : string) : Prop := k = agent \/ Descends (parents A) k agent.

Lemma spread_budget_lookup n agent id g k b :
  AgentsOK n (g_Agents g) -> g_Agents (spread_budget agent id g) !! k = Some b ->
  exists a l, g_Agents g !! k = Some a /\ budgeted a b l
    /\ (under (g_Agents g) agent k /\ l = [id] \/ ~ under (g_Agents g) agent k /\ l = []).
Proof.
  intros [Ht Hn _] Hb. set (A := g_Agents g) in *.
  set (f := fun a => add_budget id (a <| a_OwnBudget := id |>)).
  set (g1 := g <| g_Agents ::= alter f agent |>).
  assert (g_Agents (spread_budget agent id g) =
    (fun a => if fleetDescends g1 (a_Name a) agent then add_budget id a else a) <$> g_Agents g1)
    as Heq by done. rewrite Heq in Hb. clear Heq.
  assert (parents (g_Agents g1) = parents A) as Hps.
  { apply map_eq. intros i. unfold parents. rewrite !lookup_fmap. unfold g1. cbn. fold A.
    destruct (decide (i = agent)) as [->|Hne].
    - rewrite lookup_alter_eq. by destruct (A !! agent).
    - by rewrite lookup_alter_ne. }
  pose proof (fleetDescends_iff g1 k agent) as Hi. rewrite Hps in Hi. specialize (Hi Ht).
  apply lookup_fmap_Some in Hb as (b1 & <- & Hb1).
  change (g_Agents g1) with (alter f agent A) in Hb1.
  destruct (decide (k = agent)) as [->|Hne].
  - rewrite lookup_alter_eq in Hb1. apply fmap_Some in Hb1 as (a & Ha & ->).
    assert (a_Name a = agent) as En by by eapply n_name, Hn.
    exists a, [id]. change (a_Name (f a)) with (a_Name a). rewrite En.
    destruct (fleetDescends g1 agent agent) eqn:Ed.
    { destruct (Descends_irrefl (parents A) agent Ht). by apply Hi. }
    split_and!; [done|done|]. left. split; [by left|done].
  - rewrite lookup_alter_ne in Hb1 by done.
    assert (a_Name b1 = k) as En by by eapply n_name, Hn. rewrite En.
    destruct (fleetDescends g1 k agent) eqn:Ed.
    + exists b1, [id]. split_and!; [done|done|]. left. split; [right; by apply Hi|done].
    + exists b1, []. split_and!; [done|unfold budgeted; by rewrite app_nil_r|]. right.
      split; [|done]. intros [?|Hd]; [done|]. apply Hi in Hd; done.
Qed.

Lemma spread_budget_dom agent id g :
  size (g_Agents (spread_budget agent id g)) = size (g_Agents g).
Proof.
  unfold spread_budget. cbn. rewrite map_size_fmap. set (f := fun a => _).
  rewrite <-(size_dom (alter f agent _)), dom_alter_L. apply size_dom.
Qed.

Lemma spread_budget_ok n agent g :
  AgentsOK n (g_Agents g) ->
  AgentsOK (n + 1) (g_Agents (spread_budget agent (budget_id (n + 1)) g)).
Proof.
  intros HA. set (id := budget_id (n + 1)). set (A := g_Agents g).
  assert (forall k b, g_Agents (spread_budget agent id g) !! k = Some b -> _)
    as Hs by (intros k b; exact (spread_budget_lookup n agent id g k b HA)).
  fold A in Hs, HA. destruct HA as [Ht Hn He]. split.
  - assert (parents (g_Agents (spread_budget agent id g)) = parents A) as ->; [|done].
    apply map_eq. intros k. unfold parents. rewrite !lookup_fmap.
    destruct (g_Agents (spread_budget agent id g) !! k) as [b|] eqn:Eb.
    + destruct (Hs k b Eb) as (a & l & -> & (_ & E & _) & _). cbn. by rewrite E.
    + unfold spread_budget in Eb. cbn in Eb. rewrite lookup_fmap, fmap_None in Eb.
      destruct (decide (k = agent)) as [->|Hne].
      * rewrite lookup_alter_eq, fmap_None in Eb. unfold A. by rewrite Eb.
      * rewrite lookup_alter_ne in Eb by done. unfold A. by rewrite Eb.
  - intros k b Hb. destruct (Hs k b Hb) as (a & l & Ha & (E1 & E2 & _ & E4 & E5 & E6) & Hl).
    assert (NodeOK (n + 1) k (a <| a_Budgets ::= fun x => x ++ l |>)) as [F1 F2 F3 F4 F5 F6].
    { destruct Hl as [[_ ->]|[_ ->]]; [by apply add_budget_ok, Hn|].
      assert (a <| a_Budgets ::= fun x => x ++ [] |> = a) as ->.
      { destruct a. cbv -[app]. by rewrite app_nil_r. }
      eapply (NodeOK_statics n); [lia|done|by apply Hn]. }
    split; rewrite ?E1, ?E2, ?E4, ?E5, ?E6; done.
  - intros k b p Hb Hp.
    destruct (Hs k b Hb) as (a & l & Ha & (_ & E2 & E3 & E4 & _ & E6) & Hl).
    rewrite E2 in Hp. destruct (Hs _ p Hp) as (q & lp & Hq & (_ & _ & F3 & F4 & _ & F6) & Hlp).
    destruct (He k a q Ha Hq) as [G1 G2 G3].
    split; rewrite ?E3, ?E4, ?E6, ?F3, ?F4, ?F6; try done.
    destruct Hlp as [[Hu ->]|[_ ->]]; [|rewrite app_nil_r; set_solver].
    assert (under A agent k) as Hk.
    { assert (parents A !! k = Some (a_Parent a)) as Hpk by (apply parents_lookup; eauto).
      right. destruct Hu as [<-|Hd]; [by apply descends_parent|by eapply descends_step]. }
    destruct Hl as [[_ ->]|[Hnot _]]; [set_solver|done].
Qed.

Lemma SetBudget_org caller target limits fl :
  OrgInv fl -> OrgInv (SetBudget now caller target limits fl).1.
Proof.
  intros O. unfold SetBudget. destruct (budget_validate limits); [done|].
  destruct (match g_Budgets (fl_group fl) !! target with Some _ => _ | None => _ end)
    as [[agent existing]|]; [|done].
  destruct (negb _ && _); [done|]. set (refused := match existing with Some _ => _ | None => _ end).
  destruct refused; [done|]. cbn [fst].
  eapply quiet_org; [apply save_or_log_quiet|]. eapply quiet_org; [by apply event_quiet|].
  destruct existing as [[id b]|]; [by apply (quiet_org fl); [split|]|].
  set (gi := newBudget now agent caller limits (fl_group fl)).
  apply (org_change fl); try done.
  - exact (spread_budget_ok _ agent gi.1 (o_agents _ O)).
  - unfold fl_Agents. cbn [fl_group upd eta_fleet]. rewrite spread_budget_dom. apply O.
  - cbn. lia.
Qed.

(** ** Restarting *)

Lemma reopen_org log fl :
  OrgInv fl -> LogInv log -> OrgInv (reopen now log fl).1.
Proof.
  intros [_ _ _ _ [S1 S2 S3 S4] _] Hl. unfold reopen.
  eapply quiet_org; [apply save_or_log_quiet|].
  eapply quiet_org; [apply reportInterruptedChecks_quiet|]. split; try done.
  - unfold fl_Agents. cbn. eapply (AgentsOK_statics _ _ (g_Agents (fl_saved fl))); [done| |done].
    rewrite <-map_fmap_compose. by apply map_fmap_ext.
  - unfold fl_Agents. cbn. by rewrite map_size_fmap.
Qed.

(** ** The runs in progress *)

Lemma admit_kept caller token s instructions fl :
  kept fl (admit_start now caller token s instructions fl).1.
Proof.
  unfold admit_start. destruct (admit_agent _ _ _ _ _) as [a|]; [|done].
  set (ga := match sa_Budget s with Some _ => _ | None => _ end).
  assert ((g_NextID (fl_group fl) <= g_NextID ga.1)%N
    /\ g_CheckRuns ga.1 = g_CheckRuns (fl_group fl)) as [Hn Hr].
  { subst ga. destruct (sa_Budget s) as [b|]; [destruct (budget_zero b)|]; cbn; split; done || lia. }
  clearbody ga. unfold save. destruct (_ && _); split; cbn; rewrite ?Hr; done.
Qed.

Lemma SetBudget_kept caller target limits fl : kept fl (SetBudget now caller target limits fl).1.
Proof.
  unfold SetBudget. destruct (budget_validate limits); [done|].
  destruct (match g_Budgets (fl_group fl) !! target with Some _ => _ | None => _ end)
    as [[agent existing]|]; [|done].
  destruct (negb _ && _); [done|]. set (refused := match existing with Some _ => _ | None => _ end).
  destruct refused; [done|]. cbn [fst].
  etrans; [|apply quiet_kept, save_or_log_quiet]. etrans; [|by apply quiet_kept, event_quiet].
  destruct existing as [[id b]|]; split; cbn; done || lia.
Qed.

Lemma run_check_start_runs requester name sha fl :
  RunsOK fl -> RunsOK (run_check_start now requester name sha fl).1.
Proof.
  intros H. unfold run_check_start. destruct (g_Checks (fl_group fl) !! name) as [c|]; [|done].
  destruct (negb _); [done|]. set (n := (g_NextID (fl_group fl) + 1)%N).
  set (fl1 := event now _ _).
  assert (RunsOK fl1) as R1.
  { intros id r. unfold fl1, event, upd_runs. cbn.
    intros [[<- _]|[_ (k & ? & ->)%H]]%lookup_insert_Some; [by exists n|].
    exists k. split; [subst n; lia|done]. }
  clearbody fl1. unfold save. destruct (_ && _); cbn [fst snd]; [done|].
  apply (kept_runs fl1); [|done]. split; [done|]. intros i r. unfold upd_runs. cbn.
  by intros [_ ?]%lookup_delete_Some.
Qed.

Lemma send_kept args fl : kept fl (send now args fl).1.
Proof.
  unfold send. destruct args as [s|]; [|done].
  destruct (send_check (fl_group fl) s) as [err|]; [done|]. cbn [fst].
  transitivity (send_go now s fl).1; [|apply quiet_kept, save_or_log_quiet].
  unfold send_go. destruct (send_scheduled s); cbn [negb fst].
  - by split; cbn; try lia.
  - etrans; [|apply quiet_kept, deliver_quiet].
    etrans; [|apply quiet_kept, only_quiet, expect_only_expect]. by split; cbn; try lia.
Qed.
End OrgOps.
