(* ===== verification/FleetSteps.v ===== *)
(** * FleetSteps: a fleet's whole life as a step relation

    [fleet_step] has one rule per critical section of the kernel on one fleet,
    in whatever order the program's goroutines may run them; a rule's premises
    say when its goroutine is there to run it. What the code itself does not
    ensure is not a premise but an assumption of the [world]: a rule's premise
    under it counts only in a world that makes it. [reachable] starts from a new
    fleet. A restart may come between any two critical sections and finds the
    state the last good save wrote: where no assumption is made, what came
    since is lost, be it because saves failed ([step_disk]) or because the
    daemon died between the log's write and the save. The invariant of
    [FleetCons] needs restarts that find the messages saved; that of [FleetOrg]
    survives any restart. *)

From S2P Require Import Prelude GoLib FleetNames FleetTypes FleetAuthority FleetLog FleetBudget FleetDeliver FleetTimer FleetTurn FleetExpedite FleetCheck FleetLifecycle FleetCons FleetMail FleetAccounts FleetOrg FleetOrgOps.

(** What [openLogLocked] makes of the file of a log: it visits its events. *)
Definition reopen_log (l : fleetLog) : fleetLog :=
  (foldl open_visit (MkLog 0 [] [], 0%nat) ((fun e => (e, 0%nat)) <$> l_file l)).1.

(** What is assumed of a fleet's life beyond the code: that its restarts find
    every message saved, that a seat that could not start had started nobody,
    and that the scores of checks are finite numbers. *)
Record world := MkWorld { w_saved : bool; w_alone : bool; w_finite : bool }.

Definition saved_restarts : world := MkWorld true false false.
Definition any_restart : world := MkWorld false true true.
Definition orderly : world := MkWorld true true true.

(** The state file holds the messages of the agents, the timers, the runs and
    the counter of identifiers as they are in memory. *)
Definition mail_saved (fl : Fleet) : Prop :=
  mail <$> g_Agents (fl_saved fl) = mail <$> fl_Agents fl
  /\ g_NextID (fl_saved fl) = g_NextID (fl_group fl)
  /\ g_Timers (fl_saved fl) = g_Timers (fl_group fl)
  /\ g_CheckRuns (fl_saved fl) = g_CheckRuns (fl_group fl).

Section Steps.
Context {GF : GoFormat}.
Context (sha256_hex : string -> string) (w : world).

Inductive fleet_step (fl : Fleet) : Fleet -> Prop :=
(* calls from clients and seats *)
| step_send now args : fleet_step fl (send now args fl).1
| step_cancel now caller id : fleet_step fl (Cancel now caller id fl).1
| step_stop now caller name : fleet_step fl (Stop now caller name fl).1
| step_set_budget now caller target limits :
    fleet_step fl (SetBudget now caller target limits fl).1
| step_expedite now caller id mode : fleet_step fl (expedite now caller id mode fl).1
| step_admit now caller token args rf s instructions :
    admit_args caller args rf = inl (s, instructions) ->
    fleet_step fl (admit_start now caller token s instructions fl).1
| step_register now caller path c script timeout pin :
    fleet_step fl (RegisterCheck sha256_hex now caller path c script timeout pin fl).1
| step_run_check now requester name sha :
    fleet_step fl (run_check_start now requester name sha fl).1
| step_closing b : fleet_step fl (set_closing b fl).1
(* a seat's first start *)
| step_launch_ok now name desc :
    name ∈ fl_starting fl -> fleet_step fl (launch_ok now name desc fl)
| step_launch_failed now name err tell :
    name ∈ fl_starting fl ->
    (w_alone w = true -> forall k b, fl_Agents fl !! k = Some b -> a_Parent b <> name) ->
    fleet_step fl (launch_failed now name err tell fl)
(* the run loop: it is at its top between turns *)
| step_run_top now name :
    (forall a, fl_Agents fl !! name = Some a -> a_Current a = None) ->
    fleet_step fl (run_top now name fl).1
| step_after_send name ok : fleet_step fl (after_send name ok fl).1
| step_finish_turn now name used te : fleet_step fl (finish_turn now name used te fl).1
(* calls to a seat coming back *)
| step_interrupted name id by_ rt turn reclaimed err :
    fleet_step fl (interrupt_returns name id by_ rt turn reclaimed err fl).1
| step_steered now name token id rt turn err :
    fleet_step fl (steer_returns now name token id rt turn err fl).1
(* waits that are over *)
| step_timer now id d :
    fl_timers fl !! id = Some d -> (d <= now)%Z -> fleet_step fl (timer_fires now id fl)
| step_expect now id which d :
    fl_timers fl !! fleetExpectKey id which = Some d -> (d <= now)%Z ->
    fleet_step fl (expect_fires now id which fl)
| step_check_done now id r :
    (w_finite w = true -> result_encodable r = true) -> fleet_step fl (check_done now id r fl)
(* reviving and retiring *)
| step_revive_begin name : fleet_step fl (revive_begin name fl)
| step_revive_ok now name desc resume briefed deaths :
    name ∈ fl_reviving fl -> fleet_step fl (revive_ok now name desc resume briefed deaths fl)
| step_revive_failed now name err lost retry rl :
    name ∈ fl_reviving fl -> fleet_step fl (revive_failed now name err lost retry rl fl).1
| step_retire_begin name token : fleet_step fl (retire_begin name token fl).1
| step_retire_finish now name cause :
    (exists a, fl_Agents fl !! name = Some a /\ a_retiring a = true) ->
    fleet_step fl (retire_finish now name cause fl)
(* the disk, and a new kernel on the saved state *)
| step_disk b : fleet_step fl (fl <| fl_can_save := b |>)
| step_restart now :
    (w_saved w = true -> mail_saved fl) ->
    fleet_step fl (reopen now (reopen_log (fl_log fl)) fl).1
| step_resume now : fleet_step fl (Resume now fl).

Inductive reachable : Fleet -> Prop :=
| reach_open opts can_save : reachable (open_fleet opts (MkLog 0 [] []) can_save)
| reach_step fl fl' : reachable fl -> fleet_step fl fl' -> reachable fl'.

(** ** Reopening a log *)

Lemma reopen_log_open l :
  reopen_log l = MkLog (default 0%N (e_Seq <$> list.last (l_file l))) (l_file l)
                   (drop (length (l_file l) - fleetEventRing) (l_file l)).
Proof.
  unfold reopen_log.
  assert ((fun e => (e, 0%nat)) <$> l_file l
          = zip (l_file l) (replicate (length (l_file l)) 0%nat)) as ->.
  { generalize (l_file l). intros f. induction f as [|e f IH]; [done|]. cbn. by rewrite <-IH. }
  by rewrite open_visits by (rewrite ?length_replicate; done).
Qed.

Lemma reopen_log_inv l : LogInv l -> LogInv (reopen_log l).
Proof.
  intros [Hn _ _]. rewrite reopen_log_open. split; cbn -[fleetEventRing]; [done| |done].
  destruct (l_file l) as [|e f _] using rev_ind; [done|]. rewrite last_snoc. cbn.
  rewrite (Hn (length f) e) by (by rewrite lookup_app_r, Nat.sub_diag by lia).
  rewrite length_app. cbn. lia.
Qed.

(** ** The invariants *)

Lemma open_fleet_cons opts can_save : FCons [] (open_fleet opts (MkLog 0 [] []) can_save).
Proof.
  apply save_or_log_cons. split; try (intros; set_solver).
Qed.

Lemma open_group_ok opts : GroupOK (open_group opts).
Proof.
  split; cbn.
  - split; [|by intros; simplify_map_eq..]. unfold parents. rewrite fmap_empty.
    split; [apply lookup_empty|by intros; simplify_map_eq].
  - rewrite map_size_empty. destruct opts as [o|]; [|done]. case_match eqn:E; [|done].
    apply Z.ltb_lt in E. lia.
  - destruct opts as [o|]; [|done]. case_match eqn:E; [|done]. apply Z.ltb_lt in E. lia.
  - by intros id r ?%lookup_empty_Some.
Qed.

Lemma open_fleet_org opts can_save : OrgInv (open_fleet opts (MkLog 0 [] []) can_save).
Proof.
  pose proof (open_group_ok opts) as G. eapply quiet_org; [apply save_or_log_quiet|].
  destruct G. split; [done..|by split|apply LogInv_empty].
Qed.

(** Most operations are quiet. *)
Create HintDb quiet_ops discriminated.
#[local] Hint Resolve Cancel_quiet Stop_quiet expedite_quiet RegisterCheck_quiet set_closing_quiet
  launch_ok_quiet run_top_quiet after_send_quiet finish_turn_quiet interrupt_returns_quiet
  steer_returns_quiet timer_fires_quiet expect_fires_quiet revive_begin_quiet revive_ok_quiet
  revive_failed_quiet retire_begin_quiet Resume_quiet : quiet_ops.

Lemma reopen_runs now fl :
  mail_saved fl -> RunsOK fl -> RunsOK (reopen now (reopen_log (fl_log fl)) fl).1.
Proof.
  intros (_ & Hn & _ & Hr) H. unfold reopen.
  eapply kept_runs; [apply quiet_kept, save_or_log_quiet|].
  eapply kept_runs; [apply quiet_kept, reportInterruptedChecks_quiet|].
  intros id r. cbn. rewrite Hn, Hr. apply H.
Qed.

(** No step makes a run the counter does not know, where restarts find the
    runs saved. *)
Lemma step_runs fl fl' : w_saved w = true -> fleet_step fl fl' -> RunsOK fl -> RunsOK fl'.
Proof.
  intros Hw S H. destruct S;
    try (apply (kept_runs fl); [apply quiet_kept; solve [auto with quiet_ops]|done]).
  - apply (kept_runs fl); [apply send_kept|done].
  - apply (kept_runs fl); [apply SetBudget_kept|done].
  - apply (kept_runs fl); [apply admit_kept|done].
  - by apply run_check_start_runs.
  - apply (kept_runs fl); [apply launch_failed_kept|done].
  - eapply kept_runs; [apply quiet_kept, save_or_log_quiet|by apply finishCheck_runs].
  - apply (kept_runs fl); [apply retire_finish_kept|done].
  - done.
  - apply reopen_runs; auto.
Qed.

Lemma reopen_mail now fl :
  mail_saved fl -> RunsOK fl -> FCons [] fl ->
  FCons [] (reopen now (reopen_log (fl_log fl)) fl).1.
Proof.
  intros (Hm & Hn & Ht & Hr) HR C. apply reopen_cons.
  - rewrite reopen_log_open, Hn, Ht. cbn [l_file]. eapply cons_agents; [|exact C].
    intros id. assert (forall A, pend id A = map_sum (count (is_req id)) (mail <$> A)) as E
      by (intros A; symmetry; apply (map_sum_fmap _ mail)). by rewrite !E, Hm.
  - rewrite Hr, Hn. exact HR.
Qed.

(** Messages are accounted for, where restarts find them saved. *)
Lemma step_cons fl fl' :
  w_saved w = true -> fleet_step fl fl' -> RunsOK fl -> FCons [] fl -> FCons [] fl'.
Proof.
  intros Hw S HR C. destruct S.
  - by apply send_cons.
  - by apply Cancel_cons.
  - by apply Stop_cons.
  - by apply SetBudget_cons.
  - by apply expedite_cons.
  - apply admit_args_ok in H as (Hv & Hne & _). by apply admit_cons.
  - by apply RegisterCheck_cons.
  - by apply run_check_start_cons.
  - by apply (save_cons []).
  - by apply launch_ok_cons.
  - by apply launch_failed_cons.
  - by apply run_top_cons.
  - by apply after_send_cons.
  - by apply finish_turn_cons.
  - by apply interrupt_returns_cons.
  - by apply steer_returns_cons.
  - by apply timer_fires_cons.
  - by apply expect_fires_cons.
  - by apply check_done_cons.
  - done.
  - by apply revive_ok_cons.
  - by apply revive_failed_cons.
  - by apply retire_begin_cons.
  - by apply retire_finish_cons.
  - done.
  - apply reopen_mail; auto.
  - by apply Resume_cons.
Qed.

(** The organisation survives every step, and any restart. *)
Lemma step_org fl fl' :
  w_alone w = true -> w_finite w = true -> fleet_step fl fl' -> OrgInv fl -> OrgInv fl'.
Proof.
  intros Ha Hf S O. destruct S;
    try (apply (quiet_org fl); [solve [auto with quiet_ops]|done]).
  - by apply send_org.
  - by apply SetBudget_org.
  - apply admit_args_ok in H as (Hv & Hne & _ & _ & _ & Hau & _).
    apply admit_org; [done..|]. intros Hx. by apply Hau.
  - by apply run_check_start_org.
  - apply launch_failed_org; [done|by apply H0].
  - eapply quiet_org; [|exact O]. unfold check_done. quiet_step. by apply finishCheck_quiet, H.
  - by apply retire_finish_org.
  - by apply (quiet_org fl); [split|].
  - apply reopen_org; [done|]. apply reopen_log_inv, O.
Qed.

Lemma reachable_cons fl : w_saved w = true -> reachable fl -> FCons [] fl /\ RunsOK fl.
Proof.
  intros Hw. induction 1 as [opts cs|fl fl' _ [C R] S].
  - split; [apply open_fleet_cons|]. apply o_runs, open_fleet_org.
  - split; [by eapply step_cons|by eapply step_runs].
Qed.

Lemma reachable_org fl : w_alone w = true -> w_finite w = true -> reachable fl -> OrgInv fl.
Proof.
  intros Ha Hf. induction 1 as [opts cs|fl fl' _ O S]; [apply open_fleet_org|by eapply step_org].
Qed.
End Steps.

Lemma any_restart_org `{GoFormat} sha fl : reachable sha any_restart fl -> OrgInv fl.
Proof. by apply reachable_org. Qed.

Lemma reachable_invariants `{GoFormat} sha fl :
  reachable sha orderly fl -> FCons [] fl /\ OrgInv fl.
Proof. intros R. split; [apply (reachable_cons sha orderly fl)|apply (reachable_org sha orderly fl)]; done. Qed.
