(* ===== verification/FleetFacts.v ===== *)
(** * FleetFacts: lemmas behind the kernel's promises

    What [FleetTheorems] applies: responses that are in the log, what a
    retirement clears, queues that only grow at the back, and budgets around a
    turn; and a small fleet that runs. *)

From S2P Require Import Prelude GoLib FleetNames FleetTypes FleetAuthority FleetLog FleetBudget FleetDeliver FleetTimer FleetTurn FleetExpedite FleetCheck FleetLifecycle FleetCons FleetMail FleetAccounts FleetOrg FleetOrgOps FleetSteps.

(** ** Responses in the log *)

Lemma resps_grows id l l' : log_grows l l' -> resps id (l_file l) <= resps id (l_file l').
Proof. intros [[es ->] _]. rewrite resps_app. lia. Qed.

Lemma reqs_grows id l l' : log_grows l l' -> reqs id (l_file l) <= reqs id (l_file l').
Proof. intros [[es ->] _]. rewrite reqs_app. lia. Qed.

Lemma save_or_log_log fl : fl_log (save_or_log fl) = fl_log fl.
Proof. unfold save_or_log, save. by case_match. Qed.

(** A request in a mailbox was logged, once. *)
Lemma owed_logged D fl name a id :
  FCons D fl -> fl_Agents fl !! name = Some a -> 0 < owes id a ->
  reqs id (l_file (fl_log fl)) = 1.
Proof.
  intros C Ha Ho. pose proof (cons_le _ _ _ _ _ C id) as Hle.
  destruct (decide (reqs id (l_file (fl_log fl)) = 0)) as [E|]; [|lia].
  apply (cons_zero _ _ _ _ _ C) in E.
  pose proof (map_sum_lookup_le (owes id) (fl_Agents fl) name a Ha). unfold pend in E. lia.
Qed.

(** With one response in the log, the request is settled. *)
Lemma settled fl id :
  FCons [] fl -> 0 < reqs id (l_file (fl_log fl)) -> 0 < resps id (l_file (fl_log fl)) ->
  resps id (l_file (fl_log fl)) = 1 /\ pend id (fl_Agents fl) = 0.
Proof.
  intros C Hq Hr. pose proof (cons_le _ _ _ _ _ C id).
  assert (reqs id (l_file (fl_log fl)) = 1) as E by lia.
  apply (cons_one _ _ _ _ _ C) in E. rewrite count_nil in E. lia.
Qed.

Section Responses.
Context {GF : GoFormat}.
Variable now : Time.

Lemma deliver_log_grows m fl : log_grows (fl_log fl) (fl_log (deliver now m fl)).
Proof. apply mail_only_log, deliver_mail_only. Qed.

Lemma deliver_responds from to re text fl :
  0 < resps re (l_file (fl_log (deliver now (new_message FleetResponse from to re text) fl))).
Proof.
  rewrite deliver_not_request by done.
  destruct (deliver_once_shape now (new_message FleetResponse from to re text) fl) as (E & tm & ->).
  cbn -[append_event message_event stamped]. set (m' := stamped _ _ _).
  destruct (append_message_file now m' (fl_log fl)) as (e & -> & He).
  rewrite resps_app. unfold resps at 2. rewrite count_one.
  assert (ev_resp re e = true) as ->; [|lia].
  unfold ev_resp. rewrite He. unfold m'. rewrite stamped_Kind, stamped_InReplyTo.
  by rewrite !bool_decide_eq_true_2.
Qed.

(** Some iteration of a loop of deliveries responds. *)
Lemma foldl_responds {B} (f : Fleet -> B -> Fleet) l x id fl :
  (forall fl x, mail_only fl (f fl x)) -> x ∈ l ->
  (forall fl, 0 < resps id (l_file (fl_log (f fl x)))) ->
  0 < resps id (l_file (fl_log (foldl f fl l))).
Proof.
  intros Hm Hx Hr. revert fl. induction l as [|y l IH]; intros fl; [set_solver|].
  apply elem_of_cons in Hx as [<-|Hx]; cbn; [|by apply IH].
  specialize (Hr fl). pose proof (foldl_mail_only f l (f fl x) Hm) as H.
  apply mail_only_log, (resps_grows id) in H. lia.
Qed.

Lemma answer_one_mail name failure fl m : mail_only fl (answer_one now name failure fl m).
Proof. unfold answer_one. case_decide; [apply deliver_mail_only|reflexivity]. Qed.

Lemma answerOwed_mail a failure fl : mail_only fl (answerOwed now a failure fl).1.
Proof. apply foldl_mail_only, answer_one_mail. Qed.

Lemma answerOwed_responds a failure fl id :
  0 < owes id a -> 0 < resps id (l_file (fl_log (answerOwed now a failure fl).1)).
Proof.
  intros Ho. rewrite <-owes_owed in Ho. apply count_pos in Ho as (m & Hm & [Hk <-]%is_req_spec).
  unfold answerOwed. cbn [fst]. eapply foldl_responds; [apply answer_one_mail|exact Hm|].
  intros fl'. unfold answer_one. rewrite decide_True by done. apply deliver_responds.
Qed.

Lemma routeReply_mail a m text fl : mail_only fl (routeReply now a m text fl).
Proof.
  unfold routeReply. case_decide; [apply deliver_mail_only|]. case_match; [reflexivity|].
  apply deliver_mail_only.
Qed.

Lemma routeReply_responds a m text fl :
  m_Kind m = FleetRequest -> 0 < resps (m_ID m) (l_file (fl_log (routeReply now a m text fl))).
Proof. intros Hk. unfold routeReply. rewrite decide_True by done. apply deliver_responds. Qed.

Lemma fail_steered_mail name failure fl s : mail_only fl (fail_steered now name failure fl s).
Proof. unfold fail_steered. case_decide; [apply deliver_mail_only|reflexivity]. Qed.

Lemma answer_steered_mail a answer fl s : mail_only fl (answer_steered now a answer fl s).
Proof. unfold answer_steered. case_decide; [apply routeReply_mail|reflexivity]. Qed.

Lemma turn_failed_responds a m steered err fl x :
  x = m \/ x ∈ steered -> m_Kind x = FleetRequest ->
  0 < resps (m_ID x) (l_file (fl_log (turn_failed now a m steered err fl))).
Proof.
  intros Hx Hk. unfold turn_failed. set (failure := _ +:+ _). destruct Hx as [->|Hx].
  - rewrite decide_True by done. set (fl1 := deliver _ _ _).
    assert (0 < resps (m_ID m) (l_file (fl_log fl1))) as H by apply deliver_responds.
    pose proof (foldl_mail_only (fail_steered now (a_Name a) failure) steered fl1
                  (fail_steered_mail _ _)) as Hm.
    apply mail_only_log, (resps_grows (m_ID m)) in Hm. lia.
  - eapply foldl_responds; [apply fail_steered_mail|exact Hx|].
    intros fl'. unfold fail_steered. rewrite decide_True by done. apply deliver_responds.
Qed.

Lemma turn_done_responds a m steered i rt reply err fl x :
  x = m \/ x ∈ steered -> m_Kind x = FleetRequest ->
  0 < resps (m_ID x) (l_file (fl_log (turn_done now a m steered i rt reply err fl))).
Proof.
  intros Hx Hk. unfold turn_done. set (answer := if i then _ else _). destruct Hx as [->|Hx].
  - set (fl1 := routeReply _ _ _ _ _).
    assert (0 < resps (m_ID m) (l_file (fl_log fl1))) as H by by apply routeReply_responds.
    pose proof (foldl_mail_only (answer_steered now a answer) steered fl1
                  (answer_steered_mail _ _)) as Hm.
    apply mail_only_log, (resps_grows (m_ID m)) in Hm. lia.
  - eapply foldl_responds; [apply answer_steered_mail|exact Hx|].
    intros fl'. unfold answer_steered. rewrite decide_True by done. by apply routeReply_responds.
Qed.

Lemma finish_turn_responds name used te fl fl' a m x :
  fl_Agents fl !! name = Some a -> a_Current a = Some m ->
  finish_turn now name used te fl = (fl', TurnContinues) ->
  x = m \/ x ∈ (takeSteered a).1 -> m_Kind x = FleetRequest ->
  0 < resps (m_ID x) (l_file (fl_log fl')).
Proof.
  intros Ha Hm Hf Hx Hk. unfold finish_turn in Hf. rewrite Ha, Hm in Hf.
  destruct (fl_running fl !! name) as [rt|]; [|done].
  destruct ((0 <? rt_interrupting rt)%Z && negb (a_Stopped a)); [done|].
  set (fl3 := upd_agent name _ (_ <| fl_group ::= _ |>)) in Hf. clearbody fl3.
  destruct (a_Stopped a); [done|]. destruct (_ && negb (te_alive te)).
  { by destruct (fleetMaxDeaths <=? _)%Z. }
  injection Hf as <-. rewrite save_or_log_log.
  destruct (te_err te); [destruct (negb _)|];
    [by apply turn_failed_responds|by apply turn_done_responds..].
Qed.

Lemma finish_turn_grows name used te fl :
  log_grows (fl_log fl) (fl_log (finish_turn now name used te fl).1).
Proof.
  unfold finish_turn. destruct (fl_Agents fl !! name) as [a|]; [|done].
  destruct (fl_running fl !! name) as [rt|]; [|done].
  destruct (a_Current a) as [m|]; [|done].
  destruct ((0 <? rt_interrupting rt)%Z && negb (a_Stopped a)); [done|].
  set (fl1 := event _ _ _). assert (log_grows (fl_log fl) (fl_log fl1)) as G1 by by apply append_grows.
  set (fl3 := upd_agent name _ _).
  assert (log_grows (fl_log fl) (fl_log fl3)) as G3 by exact G1. clearbody fl3. clear fl1 G1.
  destruct (a_Stopped a); [done|]. destruct (_ && negb (te_alive te)).
  { destruct (fleetMaxDeaths <=? _)%Z; cbn [fst]; [done|]. by rewrite save_or_log_log. }
  cbn [fst]. rewrite save_or_log_log. etrans; [exact G3|].
  set (fl4 := upd_agent name _ fl3).
  assert (forall x fl5, mail_only fl5 x -> fl_log fl5 = fl_log fl4 -> log_grows (fl_log fl4) (fl_log x)) as Hgo.
  { intros x fl5 Hx <-. by apply mail_only_log. }
  destruct (te_err te); [destruct (negb _)|].
  - eapply Hgo; [|done]. unfold turn_failed. etrans; [|apply foldl_mail_only, fail_steered_mail].
    case_decide; apply deliver_mail_only.
  - eapply Hgo; [|by instantiate (1 := upd_runtime name _ fl4)].
    unfold turn_done. etrans; [|apply foldl_mail_only, answer_steered_mail]. apply routeReply_mail.
  - eapply Hgo; [|by instantiate (1 := upd_runtime name _ fl4)].
    unfold turn_done. etrans; [|apply foldl_mail_only, answer_steered_mail]. apply routeReply_mail.
Qed.
End Responses.

(** ** What a retirement clears *)

(** Deliveries that set no expectation. *)
Definition mail_less (fl fl' : Fleet) : Prop :=
  mail_only fl fl' /\ g_Expects (fl_group fl') ⊆ g_Expects (fl_group fl).

#[export] Instance mail_less_refl : Reflexive mail_less.
Proof. intros fl. by split. Qed.
#[export] Instance mail_less_trans : Transitive mail_less.
Proof. intros fl1 fl2 fl3 [H1 E1] [H2 E2]. split; by etrans. Qed.

Lemma answered_expects id fl : g_Expects (fl_group (answered id fl)) = delete id (g_Expects (fl_group fl)).
Proof.
  unfold answered. destruct (g_Expects (fl_group fl) !! id) eqn:E; [done|].
  by rewrite delete_id.
Qed.

(** Nothing in the fleet names the agent. *)
Record unnamed (name : string) (fl : Fleet) : Prop := {
  un_agent : fl_Agents fl !! name = None;
  un_parent : forall n a, fl_Agents fl !! n = Some a -> a_Parent a <> name;
  un_timers : forall id t, fl_Timers fl !! id = Some t ->
                m_From (t_Message t) <> name /\ m_To (t_Message t) <> name;
  un_expects : forall id e, g_Expects (fl_group fl) !! id = Some e -> x_From e <> name;
  un_checks : forall c s, g_Checks (fl_group fl) !! c = Some s -> c_RegisteredBy s <> name;
  un_budgets : forall id b, g_Budgets (fl_group fl) !! id = Some b ->
                 b_SetBy b <> name /\ b_Holder b <> name;
  un_running : fl_running fl !! name = None;
  un_reviving : name ∉ fl_reviving fl }.

Lemma unnamed_mail name fl fl' : mail_less fl fl' -> unnamed name fl -> unnamed name fl'.
Proof.
  intros [H HE] [U1 U2 U3 U4 U5 U6 U7 U8].
  pose proof (mail_only_lookup_None _ _ H name) as Hn. pose proof (mail_only_strip _ _ H) as Hs.
  destruct H as (n & E & A & lg & tm & -> & _). split; try done.
  - by apply Hn.
  - intros k a Ha. cbn in Hs. pose proof (f_equal (fun m => m !! k) Hs) as Ek. cbn beta in Ek.
    unfold fl_Agents in Ha, Ek. cbn in Ha, Ek. rewrite !lookup_fmap, Ha in Ek.
    destruct (g_Agents (fl_group fl) !! k) as [b|] eqn:Eb; [|done].
    apply (inj Some) in Ek. intros E'. apply (U2 k b Eb).
    transitivity (a_Parent (strip_inbox b)); [done|]. by rewrite <-Ek.
  - intros id e He. apply (U4 id). by eapply lookup_weaken.
Qed.

Section Clears.
Context {GF : GoFormat}.
Variable now : Time.

Lemma deliver_once_less m fl : mail_less fl (deliver_once now m fl).1.1.
Proof.
  split; [apply deliver_once_mail_only|]. unfold deliver_once.
  set (fl0 := fl <| fl_group := _ |>).
  assert (forall f fl1, g_Expects (fl_group fl1) ⊆ g_Expects (fl_group fl) ->
    g_Expects (fl_group (upd_agents f fl1)) ⊆ g_Expects (fl_group fl)) as Hu by done.
  set (m' := (stamp_message now m (fl_group fl)).1).
  set (fl1 := if decide (m_Kind m' = FleetResponse /\ _) then _ else fl0).
  assert (g_Expects (fl_group fl1) ⊆ g_Expects (fl_group fl)) as H1.
  { assert (g_Expects (fl_group fl0) = g_Expects (fl_group fl)) as E0.
    { unfold fl0, stamp_message. cbn. by case_decide. }
    subst fl1. case_decide; [rewrite answered_expects|]; rewrite E0; [apply delete_subseteq|done]. }
  clearbody fl1. case_decide; [done|]. case_match; [case_match|]; done.
Qed.

Lemma deliver_less m fl : mail_less fl (deliver now m fl).
Proof.
  unfold deliver. case_match; [|apply deliver_once_less]. etrans; apply deliver_once_less.
Qed.

Lemma foldl_less {B} (f : Fleet -> B -> Fleet) l fl :
  (forall fl x, mail_less fl (f fl x)) -> mail_less fl (foldl f fl l).
Proof.
  intros H. revert fl. induction l as [|x l IH]; intros fl; cbn; [done|]. etrans; [apply H|apply IH].
Qed.

Lemma event_less e fl : e_Check e = None -> mail_less fl (event now e fl).
Proof. intros H. split; [by apply event_mail_only|done]. Qed.

Lemma dropTimerOf_Timers name failure fl kv :
  fl_Timers (dropTimerOf now name failure fl kv) =
  if decide (m_From (t_Message kv.2) <> name /\ m_To (t_Message kv.2) <> name)
  then fl_Timers fl else delete kv.1 (fl_Timers fl).
Proof.
  unfold dropTimerOf. case_decide; [done|]. case_decide; [|done].
  by erewrite mail_only_Timers by apply deliver_mail_only.
Qed.

Lemma dropTimersOf_clears name failure fl id t :
  fl_Timers (dropTimersOf now name failure fl) !! id = Some t ->
  m_From (t_Message t) <> name /\ m_To (t_Message t) <> name.
Proof.
  unfold dropTimersOf.
  enough (forall l fl', fl_Timers (foldl (dropTimerOf now name failure) fl' l) !! id = Some t ->
    fl_Timers fl' !! id = Some t /\
    forall t', (id, t') ∈ l -> m_From (t_Message t') <> name /\ m_To (t_Message t') <> name) as Hgo.
  { intros H. apply Hgo in H as [H Hl]. apply Hl. by apply elem_of_map_to_list. }
  induction l as [|kv l IH]; intros fl' H; [split; [done|set_solver]|].
  cbn in H. apply IH in H as [H Hl]. rewrite dropTimerOf_Timers in H.
  destruct (decide _) as [Hd|Hd].
  - split; [done|]. intros t' [E|Hin]%elem_of_cons; [by subst|by apply Hl].
  - apply lookup_delete_Some in H as [Hne H]. split; [done|].
    intros t' [E|Hin]%elem_of_cons; [by subst|by apply Hl].
Qed.

Lemma dropTimersOf_less name failure fl :
  g_Expects (fl_group (dropTimersOf now name failure fl)) ⊆ g_Expects (fl_group fl)
  /\ fl_running (dropTimersOf now name failure fl) = fl_running fl
  /\ fl_reviving (dropTimersOf now name failure fl) = fl_reviving fl
  /\ strip_inbox <$> fl_Agents (dropTimersOf now name failure fl) = strip_inbox <$> fl_Agents fl.
Proof.
  unfold dropTimersOf. generalize (map_to_list (fl_Timers fl)). intros l. revert fl.
  induction l as [|kv l IH]; intros fl; cbn; [done|].
  destruct (IH (dropTimerOf now name failure fl kv)) as (H1 & H2 & H3 & H4). rewrite H2, H3, H4.
  assert (forall m fl', mail_less fl' (deliver now m fl')) as Hd by (intros; apply deliver_less).
  split_and!.
  - etrans; [exact H1|]. unfold dropTimerOf. do 2 (case_decide; [|done] || case_decide; try done).
    apply (Hd _ (dropTimer kv.1 fl)).
  - unfold dropTimerOf. do 2 (case_decide; [|done] || case_decide; try done).
    by erewrite mail_only_running by apply deliver_mail_only.
  - unfold dropTimerOf. do 2 (case_decide; [|done] || case_decide; try done).
    destruct (deliver_mail_only now (new_message FleetResponse name (m_From (t_Message kv.2)) kv.1 failure)
      (dropTimer kv.1 fl)) as (? & ? & ? & ? & ? & -> & _). done.
  - unfold dropTimerOf. do 2 (case_decide; [|done] || case_decide; try done).
    by rewrite (mail_only_strip _ _ (deliver_mail_only now _ _)).
Qed.

Lemma mail_log_grows name failure fl :
  log_grows (fl_log fl) (fl_log (dropTimersOf now name failure fl)).
Proof.
  unfold dropTimersOf. generalize (map_to_list (fl_Timers fl)). intros l. revert fl.
  induction l as [|kv l IH]; intros fl; cbn; [done|]. etrans; [|apply IH].
  unfold dropTimerOf. case_decide; [done|]. case_decide; [|done].
  etrans; [|apply mail_only_log, deliver_mail_only]. done.
Qed.

Lemma dropExpectsOf_clears name fl id e :
  g_Expects (fl_group (dropExpectsOf name fl)) !! id = Some e -> x_From e <> name.
Proof.
  unfold dropExpectsOf.
  enough (forall l fl', g_Expects (fl_group (foldl (fun fl (kv : string * fleetExpectState) =>
      if decide (x_From kv.2 = name) then answered kv.1 fl else fl) fl' l)) !! id = Some e ->
    g_Expects (fl_group fl') !! id = Some e /\
    forall e', (id, e') ∈ l -> x_From e' <> name) as Hgo.
  { intros H. apply Hgo in H as [H Hl]. apply Hl. by apply elem_of_map_to_list. }
  induction l as [|kv l IH]; intros fl' H; [split; [done|set_solver]|].
  cbn in H. apply IH in H as [H Hl]. destruct (decide (x_From kv.2 = name)) as [Hd|Hd].
  - rewrite answered_expects in H. apply lookup_delete_Some in H as [Hne H]. split; [done|].
    intros e' [E|Hin]%elem_of_cons; [by subst|by apply Hl].
  - split; [done|]. intros e' [E|Hin]%elem_of_cons; [by subst|by apply Hl].
Qed.

Lemma dropExpectsOf_rest name fl :
  exists E tm, dropExpectsOf name fl =
    fl <| fl_group ::= fun g => g <| g_Expects := E |> |> <| fl_timers := tm |>.
Proof. apply dropExpectsOf_only. Qed.

Lemma save_or_log_unnamed name fl : unnamed name fl -> unnamed name (save_or_log fl).
Proof. intros [U1 U2 U3 U4 U5 U6 U7 U8]. unfold save_or_log, save. by case_match. Qed.

Lemma retire_finish_unnamed name cause fl a :
  Tree (parents (fl_Agents fl)) -> fleetNameValid name = true -> fl_Agents fl !! name = Some a ->
  unnamed name (retire_finish now name cause fl).
Proof.
  intros [Ho Ht] Hv Ha. unfold retire_finish. rewrite Ha.
  assert (name <> "") as Hne by (by intros ->). set (gone := _ +:+ _).
  assert (name <> FleetOwner) as Hno.
  { intros ->. apply parents_lookup_None in Ho. congruence. }
  set (fl1 := upd_agents (fmap _) _).
  assert (fl_Agents fl1 = orphan_child name <$> delete name (fl_Agents fl)) as HA1 by done.
  assert (fl_running fl1 !! name = None) as R1 by apply lookup_delete_eq.
  assert (name ∉ fl_reviving fl1) as V1 by (unfold fl1, upd_agents; cbn; set_solver).
  clearbody fl1. apply save_or_log_unnamed.
  destruct (dropTimersOf_less name gone fl1) as (_ & E2 & E3 & E4).
  pose proof (dropTimersOf_clears name gone fl1) as T2.
  set (fl2 := dropTimersOf now name gone fl1) in *. clearbody fl2.
  pose proof (dropExpectsOf_clears name fl2) as X3.
  destruct (dropExpectsOf_rest name fl2) as (Ex & tm & E).
  set (fl3 := dropExpectsOf name fl2) in *.
  assert (fl_Agents fl3 = fl_Agents fl2 /\ fl_Timers fl3 = fl_Timers fl2
    /\ fl_running fl3 = fl_running fl2 /\ fl_reviving fl3 = fl_reviving fl2) as (B1 & B2 & B3 & B4)
    by by rewrite E.
  clearbody fl3. clear E Ex tm.
  assert (forall k b, fl_Agents fl3 !! k = Some b -> k <> name /\ a_Parent b <> name) as HP.
  { intros k b Hb. rewrite B1 in Hb.
    pose proof (f_equal (fun m => m !! k) E4) as Ek. cbn beta in Ek.
    rewrite !lookup_fmap, Hb, HA1, lookup_fmap in Ek.
    destruct (delete name (fl_Agents fl) !! k) as [b0|] eqn:E0; [|done].
    apply lookup_delete_Some in E0 as [Hk _]. split; [done|].
    apply (inj Some) in Ek. change (a_Parent (strip_inbox b) <> name). rewrite Ek.
    unfold orphan_child. case_decide; done. }
  set (heir := parentOf fl3 a).
  assert (heir <> name) as Hh.
  { unfold heir, parentOf. destruct (fl_Agents fl3 !! a_Parent a) as [p|] eqn:Ep; [|done].
    by apply HP in Ep as [? _]. }
  set (fl4 := fl3 <| fl_group ::= passOnCreations name heir |> <| fl_group ::= dropUnusedBudgets |>).
  assert (unnamed name fl4) as U4.
  { split.
    - change (fl_Agents fl4) with (fl_Agents fl3). destruct (fl_Agents fl3 !! name) eqn:En; [|done].
      by apply HP in En as [? _].
    - intros n b Hb. by eapply HP.
    - intros id t. change (fl_Timers fl4) with (fl_Timers fl3). rewrite B2. apply T2.
    - exact X3.
    - intros c s. unfold fl4. cbn. intros (s0 & <- & _)%lookup_fmap_Some.
      unfold passOn_check. case_decide; done.
    - intros id b. unfold fl4. cbn. intros [Hb _]%map_lookup_filter_Some.
      apply lookup_fmap_Some in Hb as (b0 & <- & _). unfold passOn_budget.
      repeat case_decide; cbn in *; repeat case_decide; cbn in *; split; congruence.
    - change (fl_running fl4) with (fl_running fl3). by rewrite B3, E2.
    - change (fl_reviving fl4) with (fl_reviving fl3). by rewrite B4, E3. }
  clearbody fl4. set (fl5 := event now _ fl4).
  assert (unnamed name fl5) as U5 by by (eapply unnamed_mail; [apply event_less|]).
  clearbody fl5.
  assert (unnamed name (answerOwed now a gone fl5).1) as U6.
  { eapply unnamed_mail; [|exact U5]. unfold answerOwed. cbn [fst]. apply foldl_less.
    intros fl' m. unfold answer_one. case_decide; [apply deliver_less|done]. }
  destruct cause; [done|]. case_match; [done|]. eapply unnamed_mail; [apply deliver_less|done].
Qed.
End Clears.

(** ** Queues that grow at the back *)

Definition back_only (fl fl' : Fleet) : Prop :=
  forall n a, fl_Agents fl !! n = Some a ->
    exists q, fl_Agents fl' !! n = Some (a <| a_Inbox ::= fun l => l ++ q |>).

Lemma inbox_app_nil a : a <| a_Inbox ::= fun l => l ++ [] |> = a.
Proof. destruct a. cbv -[app]. by rewrite app_nil_r. Qed.

#[export] Instance back_only_refl : Reflexive back_only.
Proof. intros fl n a Ha. exists []. by rewrite inbox_app_nil. Qed.

#[export] Instance back_only_trans : Transitive back_only.
Proof.
  intros fl1 fl2 fl3 H1 H2 n a Ha. destruct (H1 n a Ha) as [q1 E1]. destruct (H2 n _ E1) as [q2 E2].
  exists (q1 ++ q2). rewrite E2. f_equal. destruct a. cbv -[app]. by rewrite app_assoc.
Qed.

Lemma back_same fl fl' : fl_Agents fl' = fl_Agents fl -> back_only fl fl'.
Proof. intros E n a Ha. exists []. by rewrite E, inbox_app_nil. Qed.

Section Back.
Context {GF : GoFormat}.
Variable now : Time.

Lemma deliver_once_back m fl : back_only fl (deliver_once now m fl).1.1.
Proof.
  destruct (deliver_once_shape now m fl) as (E & tm & ->). cbn [fst].
  set (m' := stamped _ _ _). clearbody m'. intros n a Ha. unfold fl_Agents. cbn.
  unfold fl_Agents in Ha. unfold mailed. case_decide; [exists []; by rewrite inbox_app_nil|].
  destruct (g_Agents (fl_group fl) !! m_To m') as [b|] eqn:Eb; [destruct (a_Stopped b)|];
    cbn [fst]; [exists []; by rewrite inbox_app_nil| |exists []; by rewrite inbox_app_nil].
  destruct (decide (m_To m' = n)) as [<-|Hne].
  - exists [m']. rewrite lookup_insert_eq. by simplify_eq.
  - exists []. by rewrite lookup_insert_ne, inbox_app_nil.
Qed.

Lemma deliver_back m fl : back_only fl (deliver now m fl).
Proof.
  unfold deliver. case_match; [|apply deliver_once_back]. etrans; apply deliver_once_back.
Qed.

Lemma finishCheck_back id r fl : back_only fl (finishCheck now id r fl).
Proof.
  unfold finishCheck. set (r' := r <| cr_Output ::= _ |>).
  set (fl1 := event now _ (upd_runs (delete id) fl)).
  set (fl2 := match g_Checks (fl_group fl1) !! cr_Name r' with Some _ => _ | None => _ end).
  assert (back_only fl fl2) as B2.
  { subst fl2. apply back_same. case_match; [case_decide|]; done. }
  clearbody fl2. destruct (fl_Agents fl2 !! cr_Requester r'); [|done].
  destruct (g_CheckRuns (fl_group fl) !! id); [|done]. case_decide; [done|].
  etrans; [exact B2|apply deliver_back].
Qed.

Lemma reportInterruptedChecks_back fl : back_only fl (reportInterruptedChecks now fl).
Proof.
  unfold reportInterruptedChecks. generalize (map_to_list (g_CheckRuns (fl_group fl))).
  intros l. revert fl. induction l as [|kv l IH]; intros fl; cbn; [done|].
  etrans; [apply finishCheck_back|apply IH].
Qed.

Lemma finishCheck_reviving id r fl : fl_reviving (finishCheck now id r fl) = fl_reviving fl.
Proof.
  unfold finishCheck. set (r' := r <| cr_Output ::= _ |>).
  set (fl1 := event now _ (upd_runs (delete id) fl)).
  set (fl2 := match g_Checks (fl_group fl1) !! cr_Name r' with Some _ => _ | None => _ end).
  assert (fl_reviving fl2 = fl_reviving fl) as E2.
  { subst fl2. case_match; [case_decide|]; done. }
  clearbody fl2. destruct (fl_Agents fl2 !! cr_Requester r'); [|done].
  destruct (g_CheckRuns (fl_group fl) !! id); [|done]. case_decide; [done|].
  rewrite <-E2. by destruct (deliver_mail_only now (new_message FleetResponse
    (FleetCheckSenderPrefix +:+ cr_Name r') (cr_Requester r') id (describeCheckResult r')) fl2)
    as (? & ? & ? & ? & ? & -> & _).
Qed.

Lemma reportInterruptedChecks_reviving fl :
  fl_reviving (reportInterruptedChecks now fl) = fl_reviving fl.
Proof.
  unfold reportInterruptedChecks. generalize (map_to_list (g_CheckRuns (fl_group fl))).
  intros l. revert fl. induction l as [|kv l IH]; intros fl; cbn; [done|].
  rewrite IH. apply finishCheck_reviving.
Qed.

Lemma save_or_log_agents fl : fl_Agents (save_or_log fl) = fl_Agents fl.
Proof. unfold save_or_log, save. by case_match. Qed.
End Back.

(** ** Budgets around a turn *)

Lemma begin_turn_budgets `{GoFormat} now name a m rest fl :
  g_Budgets (fl_group (begin_turn now name a m rest fl).1) =
  if m_Charged m then g_Budgets (fl_group fl)
  else each_budget (fun b => b <| b_SpentTurns ::= Z.add 1 |>) (a_Budgets a) (g_Budgets (fl_group fl)).
Proof.
  unfold begin_turn. cbn [fst].
  set (fl1 := upd_runtime _ _ _). set (fl2 := accepted now (m_ID m) fl1).
  assert (g_Budgets (fl_group fl2) = g_Budgets (fl_group fl)) as E.
  { unfold fl2. by destruct (accepted_only now (m_ID m) fl1) as (Ex & tm & ->). }
  clearbody fl2.
  assert (forall fl3, g_Budgets (fl_group (save_or_log fl3)) = g_Budgets (fl_group fl3)) as Hs.
  { intros fl3. unfold save_or_log, save. by case_match. }
  rewrite Hs. unfold charge_message. destruct (m_Charged m); [done|]. cbn. by rewrite E.
Qed.

Lemma blocked_false_unspent `{GoFormat} now a fl :
  (blocked now a fl).2 = false ->
  forall id b, id ∈ a_Budgets a -> g_Budgets (fl_group fl) !! id = Some b -> spentBy b now = "".
Proof.
  unfold blocked. destruct (first_spent _ _ _) as [[[i b] reason]|] eqn:E.
  - by destruct (b_Notified b).
  - intros _. by apply first_spent_None.
Qed.

(** ** A small fleet, run

    The history the witnesses evaluate theorems at: the owner starts [lead] under a
    budget of two turns, [lead] starts [helper], requests go to both, turns run, and a
    repeat and an expectation are set. *)

(** Some formatting of times and floats. *)
#[export] Instance demo_format : GoFormat := {|
  local_format layout _ := layout;
  format_g _ := "1" |}.

Definition demo_sha (s : string) : string := "sha:" +:+ s.

Definition demo_now : Time := 63900000000 * Second.
Definition later (minutes : Z) : Time := demo_now + minutes * Minute.
Definition demo_file : string -> string + string := fun _ => inr "no such file".

Definition start_args (name workdir : string) (budget : option FleetBudget)
    (tools : option (list string)) : FleetStartArgs :=
  MkStart name "Do the work." "" workdir "" "" "" budget "" tools.
Definition two_turns : FleetBudget := MkBudget 0 2 F.zero.
Definition send_args (from to text : string) : FleetSendArgs :=
  MkSend from to "" text 0 0 0 0 0 "".

Definition lead_args : FleetStartArgs := start_args "lead" "/work" (Some two_turns) None.
Definition helper_args : FleetStartArgs := start_args "helper" "" None (Some ["send"; "list"; "send"]).

Definition demo0 : Fleet := open_fleet None (MkLog 0 [] []) true.
Definition demo1 : Fleet := (admit_start demo_now FleetOwner "token-1" lead_args "Do the work." demo0).1.
Definition demo2 : Fleet := launch_ok demo_now "lead" "model" demo1.
Definition demo3 : Fleet := (admit_start demo_now "lead" "token-2" helper_args "Do the work." demo2).1.
Definition demo4 : Fleet := launch_ok demo_now "helper" "model" demo3.
(** Requests [r2] to [lead] and [r3] to [helper]. *)
Definition demo5 : Fleet := (send (later 1) (Some (send_args FleetOwner "lead" "Begin.")) demo4).1.
Definition demo_send (fl : Fleet) : Fleet :=
  (send (later 2) (Some ((send_args "lead" "helper" "Help.") <| s_AnswerWithin := Hour |>)) fl).1.
Definition demo6 : Fleet := demo_send demo5.
(** [helper]'s turn on [r3] has begun. *)
Definition demo7 : Fleet := (run_top (later 3) "helper" demo6).1.
Definition demo8 : Fleet := (after_send "helper" true demo7).1.
Definition demo_end : turn_end := MkTurnEnd "Done." None true (MkUsage 10 5 0 100).
(** It ended, and [r3] is answered. *)
Definition demo9 : Fleet := (finish_turn (later 5) "helper" 0 demo_end demo8).1.
(** [lead] repeats a message to [helper], as timer [t5]. *)
Definition demo10 : Fleet :=
  (send (later 6) (Some ((send_args "lead" "helper" "Again.") <| s_Every := Hour |>)) demo9).1.
(** [helper] is going. *)
Definition demo11 : Fleet := (retire_begin "helper" "token-2" demo8).1.

(** The same request sent while the disk is full, and then a restart. *)
Definition demo_lossy : Fleet :=
  let fl := demo_send (demo5 <| fl_can_save := false |>) in
  (reopen (later 3) (reopen_log (fl_log fl)) fl).1.

Section Reachable.
Lemma demo4_reachable w : reachable demo_sha w demo4.
Proof.
  apply (reach_step _ w demo3).
  - apply (reach_step _ w demo2).
    + apply (reach_step _ w demo1).
      * apply (reach_step _ w demo0); [apply reach_open|].
        by apply (step_admit _ w demo0 demo_now FleetOwner "token-1" (Some lead_args) demo_file).
      * apply step_launch_ok. vm_compute. reflexivity.
    + by apply (step_admit _ w demo2 demo_now "lead" "token-2" (Some helper_args) demo_file).
  - apply step_launch_ok. vm_compute. reflexivity.
Qed.
Lemma demo5_reachable w : reachable demo_sha w demo5.
Proof. eapply reach_step; [apply demo4_reachable|apply step_send]. Qed.
Lemma demo6_reachable w : reachable demo_sha w demo6.
Proof. eapply reach_step; [apply demo5_reachable|apply step_send]. Qed.
Lemma demo8_reachable w : reachable demo_sha w demo8.
Proof.
  eapply reach_step; [|apply step_after_send]. eapply reach_step; [apply demo6_reachable|].
  apply step_run_top. intros a Ha. revert Ha. vm_compute. by intros [= <-].
Qed.
Lemma demo9_reachable w : reachable demo_sha w demo9.
Proof. eapply reach_step; [apply demo8_reachable|apply step_finish_turn]. Qed.
Lemma demo10_reachable w : reachable demo_sha w demo10.
Proof. eapply reach_step; [apply demo9_reachable|apply step_send]. Qed.
Lemma demo11_reachable w : reachable demo_sha w demo11.
Proof. eapply reach_step; [apply demo8_reachable|apply step_retire_begin]. Qed.

Lemma demo_lossy_reachable w : w_saved w = false -> reachable demo_sha w demo_lossy.
Proof.
  intros Hw. eapply reach_step; [|apply step_restart; by rewrite Hw].
  eapply reach_step; [|apply step_send]. eapply reach_step; [apply demo5_reachable|apply step_disk].
Qed.
End Reachable.
