(* ===== verification/FleetTheorems.v ===== *)
(** * FleetTheorems: what the fleet kernel promises

    The kernel's promises over every reachable state of a fleet: requests are
    answered exactly once, the organisation is a tree under the owner, and
    authority, tools and budgets follow it. Each theorem with hypotheses is
    followed by an instance on the fleet that [FleetFacts] runs. *)

From S2P Require Import Prelude GoLib FleetNames FleetTypes FleetAuthority FleetLog FleetBudget FleetDeliver FleetTimer FleetTurn FleetExpedite FleetCheck FleetLifecycle FleetCons FleetMail FleetAccounts FleetOrg FleetOrgOps FleetSteps FleetFacts.

(* ------------------------------------------------------------------ *)
(** ** Requests *)

(** C1: in every reachable state of a fleet, whatever order its operations,
    its agents' deaths and its restarts came in, as long as each restart found
    the state file with the messages the kernel held (a save that failed, or a
    daemon that died between the log's write and the save, loses a logged
    request for good), a request sent to an agent is logged at most once, and is
    either in exactly one mailbox with no response or in no mailbox with exactly
    one response; nothing that was never logged waits in a mailbox. *)
Theorem requests_exactly_once `{GoFormat} sha fl id :
  reachable sha saved_restarts fl ->
  reqs id (l_file (fl_log fl)) <= 1
  /\ (reqs id (l_file (fl_log fl)) = 1 ->
      (pend id (fl_Agents fl) = 1 /\ resps id (l_file (fl_log fl)) = 0)
      \/ (pend id (fl_Agents fl) = 0 /\ resps id (l_file (fl_log fl)) = 1))
  /\ (reqs id (l_file (fl_log fl)) = 0 -> pend id (fl_Agents fl) = 0).
Proof.
  intros [[H1 H2 H3 _ _ _] _]%reachable_cons; [|done].
  specialize (H1 id). specialize (H2 id). specialize (H3 id). rewrite count_nil in H2, H3.
  split_and!; [done|intros E|intros E]; [specialize (H2 E)|specialize (H3 E)]; lia.
Qed.

Lemma requests_exactly_once_witness :
  reqs "r3" (l_file (fl_log demo9)) = 1
  /\ ((pend "r3" (fl_Agents demo9) = 1 /\ resps "r3" (l_file (fl_log demo9)) = 0)
      \/ (pend "r3" (fl_Agents demo9) = 0 /\ resps "r3" (l_file (fl_log demo9)) = 1)).
Proof.
  pose proof (requests_exactly_once demo_sha demo9 "r3" (demo9_reachable _)) as (_ & H & _).
  assert (reqs "r3" (l_file (fl_log demo9)) = 1) as E by (vm_compute; reflexivity).
  exact (conj E (H E)).
Defined.

(** With a restart that finds an older state, the promise fails: the request
    is in the log and nowhere else, and the next one takes its identifier. *)
Example a_lost_save_loses_the_request :
  reachable demo_sha (MkWorld false true true) demo_lossy
  /\ (reqs "r3" (l_file (fl_log demo_lossy)) = 1 /\ resps "r3" (l_file (fl_log demo_lossy)) = 0
      /\ pend "r3" (fl_Agents demo_lossy) = 0)
  /\ reqs "r3" (l_file (fl_log (demo_send demo_lossy))) = 2.
Proof. split; [apply demo_lossy_reachable; done|split_and!; vm_compute; reflexivity]. Qed.

(** an agent that retires, for whatever cause, answers every request it
    held, in its turn or its queue, exactly once, and is gone. *)
Theorem retiring_answers_everything `{GoFormat} sha now fl name a cause id :
  reachable sha orderly fl -> fl_Agents fl !! name = Some a -> 0 < owes id a ->
  let fl' := retire_finish now name cause fl in
  resps id (l_file (fl_log fl')) = 1 /\ pend id (fl_Agents fl') = 0
  /\ fl_Agents fl' !! name = None.
Proof.
  intros [C O]%reachable_invariants Ha Ho fl'.
  assert (unnamed name fl') as U.
  { apply (retire_finish_unnamed now name cause fl a); [apply O| |done].
    by eapply n_valid, ao_node; [apply O|]. }
  assert (0 < resps id (l_file (fl_log fl')) /\ log_grows (fl_log fl) (fl_log fl')) as [Hr Hg].
  { unfold fl', retire_finish. rewrite Ha, save_or_log_log. set (gone := _ +:+ _).
    set (fl1 := dropTimersOf now name gone _).
    assert (log_grows (fl_log fl) (fl_log fl1)) as G1.
    { unfold fl1. etrans; [|apply mail_log_grows]. done. }
    clearbody fl1. set (fl2 := event now _ _).
    assert (log_grows (fl_log fl1) (fl_log fl2)) as G2.
    { etrans; [|by apply append_grows]. destruct (dropExpectsOf_rest name fl1) as (E & tm & ->). done. }
    clearbody fl2. pose proof (answerOwed_responds now a gone fl2 id Ho) as H1.
    pose proof (mail_only_log _ _ (answerOwed_mail now a gone fl2)) as G3.
    destruct cause as [|n err].
    - split; [done|]. by repeat (etrans; [eassumption|]).
    - case_match; [split; [done|by repeat (etrans; [eassumption|])]|].
      set (fl4 := deliver now _ _).
      assert (log_grows (fl_log (answerOwed now a gone fl2).1) (fl_log fl4)) as G4
        by apply deliver_log_grows.
      split; [apply (resps_grows id) in G4; lia|]. by repeat (etrans; [eassumption|]). }
  pose proof (owed_logged [] fl name a id C Ha Ho) as Hq.
  apply (reqs_grows id) in Hg.
  destruct (settled fl' id) as [? ?]; [by apply retire_finish_cons|lia|done|].
  split_and!; [done|done|]. apply U.
Qed.

Lemma retiring_answers_everything_witness :
  let fl' := retire_finish (later 5) "helper" CauseStopped demo11 in
  resps "r3" (l_file (fl_log fl')) = 1 /\ pend "r3" (fl_Agents fl') = 0
  /\ fl_Agents fl' !! "helper" = None.
Proof.
  eapply (retiring_answers_everything demo_sha (later 5) demo11 "helper" _ CauseStopped "r3"
            (demo11_reachable _)); [vm_compute; reflexivity|vm_compute; lia].
Defined.

(** when a turn ends and the agent goes on, by a reply, a failure or an
    interrupt, its request and every request steered into it have exactly one
    response each and wait nowhere. *)
Theorem turn_end_answers `{GoFormat} sha now fl fl' name a m x used te :
  reachable sha orderly fl -> fl_Agents fl !! name = Some a -> a_Current a = Some m ->
  finish_turn now name used te fl = (fl', TurnContinues) ->
  x = m \/ (x ∈ a_Steered a /\ m_steering x = false) -> m_Kind x = FleetRequest ->
  resps (m_ID x) (l_file (fl_log fl')) = 1 /\ pend (m_ID x) (fl_Agents fl') = 0.
Proof.
  intros [C O]%reachable_invariants Ha Hm Hf Hx Hk.
  assert (fl' = (finish_turn now name used te fl).1) as Efl by by rewrite Hf.
  assert (0 < owes (m_ID x) a) as Ho.
  { apply count_pos. exists x. split; [|by apply is_req_spec].
    unfold mail. rewrite Hm. destruct Hx as [->|[Hx _]]; set_solver. }
  apply settled.
  - rewrite Efl. by apply finish_turn_cons.
  - pose proof (owed_logged [] fl name a _ C Ha Ho).
    pose proof (finish_turn_grows now name used te fl) as Hg. apply (reqs_grows (m_ID x)) in Hg.
    rewrite <-Efl in Hg. lia.
  - eapply finish_turn_responds; [exact Ha|exact Hm|exact Hf| |done].
    destruct Hx as [->|[Hx Hs]]; [by left|right]. unfold takeSteered. cbn [fst].
    apply list_elem_of_In, List.filter_In. split; [by apply list_elem_of_In|by rewrite Hs].
Qed.

Lemma turn_end_answers_witness :
  resps "r3" (l_file (fl_log demo9)) = 1 /\ pend "r3" (fl_Agents demo9) = 0.
Proof.
  assert (exists a m, fl_Agents demo8 !! "helper" = Some a /\ a_Current a = Some m
    /\ m_Kind m = FleetRequest /\ m_ID m = "r3") as (a & m & Ha & Hm & Hk & Hid).
  { do 2 eexists. split_and!; vm_compute; reflexivity. }
  rewrite <-Hid.
  apply (turn_end_answers demo_sha (later 5) demo8 demo9 "helper" a m m 0 demo_end
           (demo8_reachable _) Ha Hm); [vm_compute; reflexivity|by left|exact Hk].
Defined.

(* ------------------------------------------------------------------ *)
(** ** The tree, authority and tools *)

(** once an agent has retired nothing in the fleet names it: it started
    nobody, schedules and receives nothing, expects nothing, has registered no
    check, and has set or holds no budget, so an agent that takes its name
    inherits nothing. *)
Theorem retired_agent_leaves_no_name `{GoFormat} sha now fl name a cause :
  reachable sha any_restart fl -> fl_Agents fl !! name = Some a ->
  unnamed name (retire_finish now name cause fl).
Proof.
  intros O%any_restart_org Ha.
  apply (retire_finish_unnamed now name cause fl a); [apply O| |done].
  by eapply n_valid, ao_node; [apply O|].
Qed.

Lemma retired_agent_leaves_no_name_witness :
  unnamed "lead" (retire_finish (later 6) "lead" CauseStopped demo10)
  /\ is_Some (fl_Agents (retire_finish (later 6) "lead" CauseStopped demo10) !! "helper").
Proof.
  split; [|vm_compute; eauto].
  eapply (retired_agent_leaves_no_name demo_sha (later 6) demo10 "lead" _ CauseStopped
            (demo10_reachable _)). vm_compute. reflexivity.
Defined.

(** in every reachable state the links from an agent to its starter end at
    the owner, the bounded loop of [fleetDescends] decides exactly who descends
    from whom, and nobody descends from itself. *)
Theorem links_end_at_the_owner `{GoFormat} sha fl :
  reachable sha any_restart fl ->
  let g := fl_group fl in
  (forall n a, g_Agents g !! n = Some a -> ToOwner (parents (g_Agents g)) n)
  /\ (forall n anc, fleetDescends g n anc = true <-> Descends (parents (g_Agents g)) n anc)
  /\ (forall n, fleetDescends g n n = false).
Proof.
  intros O%any_restart_org g. pose proof (ao_tree _ _ (o_agents _ O)) as Ht.
  assert (forall n anc, fleetDescends g n anc = true <-> Descends (parents (g_Agents g)) n anc) as Hd
    by (intros; by apply fleetDescends_iff).
  split_and!; [|done|].
  - intros n a Ha. destruct Ht as [_ Ht]. apply (Ht n (a_Parent a)), parents_lookup. eauto.
  - intros n. apply not_true_iff_false. intros E%Hd. by apply Descends_irrefl in E.
Qed.

Lemma links_end_at_the_owner_witness :
  fleetDescends (fl_group demo10) "helper" "lead" = true
  /\ Descends (parents (g_Agents (fl_group demo10))) "helper" "lead".
Proof.
  destruct (links_end_at_the_owner demo_sha demo10 (demo10_reachable _)) as (_ & H & _).
  assert (fleetDescends (fl_group demo10) "helper" "lead" = true) as E by (vm_compute; reflexivity).
  exact (conj E (proj1 (H "helper" "lead") E)).
Defined.

(** the rule of authority: in every reachable state [authorized] holds for
    the owner, for oneself, for whoever the owner gave authority over
    everything, and for whoever started the subject or one of its starters, and
    for nobody else; only agents the owner answers for hold that grant. *)
Theorem authority_rule `{GoFormat} sha fl actor subject :
  reachable sha any_restart fl ->
  let g := fl_group fl in
  (authorized g actor subject = true <->
   actor = FleetOwner \/ actor = subject \/ has_all_authority g actor
   \/ Descends (parents (g_Agents g)) subject actor)
  /\ (forall a, g_Agents g !! actor = Some a -> a_Authority a <> "" -> a_Parent a = FleetOwner).
Proof.
  intros O%any_restart_org g. split.
  - apply authorized_iff. apply O.
  - intros a Ha. by eapply n_authority, ao_node; [apply O|].
Qed.

Lemma authority_rule_witness :
  authorized (fl_group demo10) "lead" "helper" = true
  /\ authorized (fl_group demo10) "helper" "lead" = false
  /\ Descends (parents (g_Agents (fl_group demo10))) "helper" "lead".
Proof.
  split_and!; [vm_compute; reflexivity..|].
  destruct (authority_rule demo_sha demo10 "lead" "helper" (demo10_reachable _)) as [[H _] _].
  destruct (H ltac:(vm_compute; reflexivity)) as [E|[E|[(a & Ha & Hall)|E]]]; [discriminate E..| |exact E].
  vm_compute in Ha. injection Ha as <-. discriminate Hall.
Defined.

(** C2: nobody acts on another's behalf without authority: stopping an agent,
    cancelling what it scheduled, setting its budget or one it set, expediting
    a message in its queue or steered into its turn, repeating messages to it, and running or replacing a check it
    registered all fail for a caller without authority and change nothing. *)
Theorem no_action_without_authority `{GoFormat} sha now fl caller :
  let g := fl_group fl in
  (forall name a, g_Agents g !! name = Some a -> authorized g caller name = false ->
     Stop now caller name fl = (fl, inr (ErrNoAuthority caller name)))
  /\ (forall id t, g_Timers g !! id = Some t -> authorized g caller (m_From (t_Message t)) = false ->
     Cancel now caller id fl = (fl, inr (ErrNoAuthority caller (m_From (t_Message t)))))
  /\ (forall id b limits, g_Budgets g !! id = Some b ->
     (b_Holder b <> "" /\ authorized g caller (b_Holder b) = false)
       \/ authorized g caller (b_SetBy b) = false ->
     exists err, SetBudget now caller id limits fl = (fl, inr err))
  /\ (forall name a limits, g_Budgets g !! name = None -> g_Agents g !! name = Some a -> name <> "" ->
     authorized g caller name = false ->
     exists err, SetBudget now caller name limits fl = (fl, inr err))
  /\ (forall id mode name i, queued g id = Some (name, i) -> authorized g caller name = false ->
     exists err, expedite now caller id mode fl = (fl, inr err))
  /\ (forall id mode name j, queued g id = None -> steered g id = Some (name, j) ->
     authorized g caller name = false ->
     exists err, expedite now caller id mode fl = (fl, inr err))
  /\ (forall s, s_From s = caller -> (0 < s_Every s)%Z \/ s_Mode s <> "" ->
     authorized g caller (s_To s) = false ->
     exists err, send now (Some s) fl = (fl, inr err))
  /\ (forall name sha1 c, g_Checks g !! name = Some c -> may_run g caller c = false ->
     run_check_start now caller name sha1 fl = (fl, inr (ErrNoCheck name)))
  /\ (forall c old path script timeout pin, g_Checks g !! ca_Name c = Some old ->
     authorized g caller (c_RegisteredBy old) = false ->
     RegisterCheck sha now caller path c script timeout pin fl
       = (fl, inr (ErrNoAuthority caller (c_RegisteredBy old)))).
Proof.
  intros g. split_and!.
  - intros name a Ha E. unfold Stop, fl_Agents. fold g. by rewrite Ha, E.
  - intros id t Ht E. unfold Cancel, fl_Timers. fold g. by rewrite Ht, E.
  - intros id b limits Hb Hno. unfold SetBudget. fold g. destruct (budget_validate limits); [eauto|].
    rewrite Hb. destruct Hno as [[Hne E]|E].
    + rewrite bool_decide_eq_false_2, E by done. cbn. eauto.
    + destruct (negb _ && _); [eauto|]. rewrite E. cbn. eauto.
  - intros name a limits Hb Ha Hne E. unfold SetBudget. fold g.
    destruct (budget_validate limits); [eauto|]. rewrite Hb, Ha, bool_decide_eq_false_2, E by done.
    cbn. eauto.
  - intros id mode name i Hq E. unfold expedite. destruct (negb _ && _); [eauto|].
    unfold expedite_find. fold g. rewrite Hq. cbn. fold g. rewrite E. cbn. eauto.
  - intros id mode name j Hq Hs E. unfold expedite. destruct (negb _ && _); [eauto|].
    unfold expedite_find. fold g. rewrite Hq. case_decide; [|eauto]. rewrite Hs, E. cbn. eauto.
  - intros s Hs Hwhat E. unfold send. fold g.
    destruct (send_check g s) as [err|] eqn:Ec; [eauto|]. exfalso.
    unfold send_check in Ec. rewrite Hs, E in Ec. cbn [negb] in Ec. rewrite !andb_true_r in Ec.
    destruct Hwhat as [Hev|Hm].
    + rewrite (proj2 (Z.ltb_lt 0 (s_Every s))) in Ec by done. cbn in Ec. by repeat case_match.
    + rewrite (bool_decide_eq_false_2 (s_Mode s = "")) in Ec by done. cbn in Ec. by repeat case_match.
  - intros name sha1 c Hc E. unfold run_check_start. fold g. by rewrite Hc, E.
  - intros c old path script timeout pin Ho E. unfold RegisterCheck. fold g. by rewrite Ho, E.
Qed.

(** Along the links a fact that passes from an agent to its starter passes to
    everyone above it. *)
Lemma along_links `{GoFormat} sha fl (R : fleetAgentState -> fleetAgentState -> Prop) n m a b :
  reachable sha any_restart fl -> (forall x, R x x) -> (forall x y z, R x y -> R y z -> R x z) ->
  (forall x y, EdgeOK x y -> R x y) ->
  Descends (parents (fl_Agents fl)) n m -> fl_Agents fl !! n = Some a -> fl_Agents fl !! m = Some b ->
  R a b.
Proof.
  intros O%any_restart_org Hr Ht He Hd. revert a.
  pose proof (ao_edge _ _ (o_agents _ O)) as Hedge.
  induction Hd as [n p E|n p m E Hd IH]; intros a Ha Hb;
    apply parents_lookup in E as (a' & Ea & <-); simplify_eq.
  - apply He. by eapply Hedge.
  - destruct (Descends_dom _ _ _ Hd) as [q (x & Hx & _)%parents_lookup].
    eapply (Ht _ x b); [apply He; by eapply Hedge|by apply IH].
Qed.

(** an agent can do at most what those above it can: in every reachable
    state its tools are among the tools of everyone it descends from, and
    [holdsTool] agrees. *)
Theorem tools_attenuate `{GoFormat} sha fl n m a b :
  reachable sha any_restart fl -> Descends (parents (fl_Agents fl)) n m ->
  fl_Agents fl !! n = Some a -> fl_Agents fl !! m = Some b ->
  toolSet (a_Tools a) ⊆ toolSet (a_Tools b)
  /\ (forall t, holdsTool (Some (fl_group fl)) n t = true -> holdsTool (Some (fl_group fl)) m t = true).
Proof.
  intros Hr Hd Ha Hb.
  assert (toolSet (a_Tools a) ⊆ toolSet (a_Tools b)) as Hs.
  { apply (along_links sha fl (fun x y => toolSet (a_Tools x) ⊆ toolSet (a_Tools y)) n m a b Hr);
      [done| |by intros x y []|done..]. intros x y z H1 H2. by etrans. }
  split; [done|]. intros t. unfold holdsTool. unfold fl_Agents in Ha, Hb. rewrite Ha, Hb.
  rewrite !contains_spec. apply Hs.
Qed.

Lemma tools_attenuate_witness :
  holdsTool (Some (fl_group demo10)) "helper" "list" = true
  /\ holdsTool (Some (fl_group demo10)) "helper" "start" = false
  /\ holdsTool (Some (fl_group demo10)) "lead" "list" = true.
Proof.
  assert (exists a b, fl_Agents demo10 !! "helper" = Some a /\ fl_Agents demo10 !! "lead" = Some b
    /\ Descends (parents (fl_Agents demo10)) "helper" "lead") as (a & b & Ha & Hb & Hd).
  { do 2 eexists. split_and!; [vm_compute; reflexivity..|]. apply descends_parent. vm_compute. reflexivity. }
  split_and!; [vm_compute; reflexivity..|].
  apply (tools_attenuate demo_sha demo10 "helper" "lead" a b (demo10_reachable _) Hd Ha Hb).
  vm_compute. reflexivity.
Defined.

(* ------------------------------------------------------------------ *)
(** ** Budgets and limits *)

(** a budget over an agent is over everything below it, in every reachable
    state and after any sequence of starts, stops and new budgets; and agents
    below a root carry that root's name, which [StopTree] selects by. *)
Theorem budgets_cover_the_subtree `{GoFormat} sha fl n m a b :
  reachable sha any_restart fl -> Descends (parents (fl_Agents fl)) n m ->
  fl_Agents fl !! n = Some a -> fl_Agents fl !! m = Some b ->
  a_Budgets b ⊆ a_Budgets a /\ a_Root a = a_Root b.
Proof.
  intros Hr Hd Ha Hb.
  apply (along_links sha fl (fun x y => a_Budgets y ⊆ a_Budgets x /\ a_Root x = a_Root y) n m a b Hr);
    [done| |by intros x y []|done..].
  intros x y z [H1 E1] [H2 E2]. split; [by etrans|congruence].
Qed.

Lemma budgets_cover_the_subtree_witness :
  "b1" ∈ (match fl_Agents demo10 !! "helper" with Some a => a_Budgets a | None => [] end).
Proof.
  assert (exists a b, fl_Agents demo10 !! "helper" = Some a /\ fl_Agents demo10 !! "lead" = Some b
    /\ a_Budgets b = ["b1"] /\ Descends (parents (fl_Agents demo10)) "helper" "lead")
    as (a & b & Ha & Hb & Eb & Hd).
  { do 2 eexists. split_and!; [vm_compute; reflexivity..|]. apply descends_parent. vm_compute. reflexivity. }
  rewrite Ha.
  apply (budgets_cover_the_subtree demo_sha demo10 "helper" "lead" a b (demo10_reachable _) Hd Ha Hb).
  rewrite Eb. left.
Defined.

(** a new budget on an agent that holds none applies, with a fresh
    identifier, to that agent and everyone below it, and to nobody else; nothing
    else of any agent's place changes. *)
Theorem new_budget_covers_exactly_the_subtree `{GoFormat} sha now fl caller name a limits :
  reachable sha any_restart fl -> fl_Agents fl !! name = Some a -> name <> "" ->
  g_Budgets (fl_group fl) !! name = None -> g_Budgets (fl_group fl) !! a_OwnBudget a = None ->
  authorized (fl_group fl) caller name = true -> budget_validate limits = None ->
  let id := budget_id (g_NextID (fl_group fl) + 1) in
  let fl' := (SetBudget now caller name limits fl).1 in
  (forall k x, fl_Agents fl !! k = Some x -> id ∉ a_Budgets x)
  /\ forall k b, fl_Agents fl' !! k = Some b ->
     exists x, fl_Agents fl !! k = Some x /\ a_Parent b = a_Parent x
       /\ (id ∈ a_Budgets b <-> k = name \/ Descends (parents (fl_Agents fl)) k name)
       /\ (forall i, i <> id -> i ∈ a_Budgets b <-> i ∈ a_Budgets x).
Proof.
  intros O%any_restart_org Ha Hne Hnb Hown Hauth Hval id fl'.
  assert (forall k x, fl_Agents fl !! k = Some x -> id ∉ a_Budgets x) as Hfresh.
  { intros k x Hx Hin. destruct (n_budgets _ _ _ (ao_node _ _ (o_agents _ O) k x Hx) id Hin)
      as (j & Hj & [_ E]%mint_eq). lia. }
  split; [done|]. intros k b Hb.
  assert (g_Agents (spread_budget name id (newBudget now name caller limits (fl_group fl)).1) !! k = Some b)
    as Hb'.
  { unfold fl', SetBudget in Hb. rewrite Hval, Hnb in Hb. unfold fl_Agents in Ha.
    rewrite Ha, Hown in Hb. cbn [mbind option_bind negb] in Hb.
    rewrite bool_decide_eq_false_2, Hauth in Hb by done. cbn [negb andb fst] in Hb.
    change (save ?x).1 with (save_or_log x) in Hb. by rewrite save_or_log_agents in Hb. }
  destruct (spread_budget_lookup (g_NextID (fl_group fl)) name id _ k b (o_agents _ O) Hb')
    as (x & l & Hx & (_ & E2 & _ & _ & _ & E6) & Hl).
  exists x. split_and!; [exact Hx|exact E2|..].
  - rewrite E6. destruct Hl as [[Hu ->]|[Hu ->]].
    + split; [intros _; exact Hu|set_solver].
    + rewrite app_nil_r. split; [intros Hin; by apply Hfresh in Hx|intros Hu'; by destruct Hu].
  - intros i Hi. rewrite E6. destruct Hl as [[_ ->]|[_ ->]]; set_solver.
Qed.

Lemma new_budget_covers_exactly_the_subtree_witness :
  let fl' := (SetBudget (later 6) FleetOwner "helper" two_turns demo10).1 in
  match fl_Agents fl' !! "helper", fl_Agents fl' !! "lead" with
  | Some h, Some l => "b6" ∈ a_Budgets h /\ ~ "b6" ∈ a_Budgets l
  | _, _ => False
  end.
Proof.
  assert (exists a, fl_Agents demo10 !! "helper" = Some a /\ a_OwnBudget a = "") as (a & Ha & Eo).
  { eexists. split; vm_compute; reflexivity. }
  assert (forall k b, fl_Agents (SetBudget (later 6) FleetOwner "helper" two_turns demo10).1 !! k = Some b ->
    "b6" ∈ a_Budgets b <-> k = "helper" \/ Descends (parents (fl_Agents demo10)) k "helper") as Hk.
  { intros k b Hb.
    destruct (new_budget_covers_exactly_the_subtree demo_sha (later 6) demo10 FleetOwner "helper" a two_turns
      (demo10_reachable _) Ha ltac:(done) ltac:(vm_compute; reflexivity)
      ltac:(rewrite Eo; vm_compute; reflexivity) ltac:(vm_compute; reflexivity) ltac:(vm_compute; reflexivity))
      as (_ & Hall).
    destruct (Hall k b Hb) as (x & _ & _ & Hi & _). exact Hi. }
  cbv zeta.
  destruct (fl_Agents (SetBudget (later 6) FleetOwner "helper" two_turns demo10).1 !! "helper") as [h|] eqn:Eh;
    [|vm_compute in Eh; discriminate Eh].
  destruct (fl_Agents (SetBudget (later 6) FleetOwner "helper" two_turns demo10).1 !! "lead") as [l|] eqn:El;
    [|vm_compute in El; discriminate El].
  split; [apply (Hk "helper" h Eh); by left|]. intros Hin. apply (Hk "lead" l El) in Hin as [E|Hd].
  - discriminate E.
  - inversion Hd as [n p Hp|n p anc Hp Hd']; subst; vm_compute in Hp; [discriminate Hp|].
    injection Hp as <-.
    inversion Hd' as [n p Hp'|n p anc Hp' Hd'']; subst; vm_compute in Hp'; discriminate Hp'.
Defined.

(** a turn starts only within every budget over its agent: a message not
    charged before adds one to each, and none then exceeds its turn limit; a
    redelivered one, already charged, adds nothing. *)
Theorem turns_stay_within_budget `{GoFormat} sha now fl fl' name a m rest text m' :
  reachable sha any_restart fl -> fl_Agents fl !! name = Some a -> a_Inbox a = m :: rest ->
  run_top now name fl = (fl', RunBegins m' text) ->
  forall id b, id ∈ a_Budgets a -> g_Budgets (fl_group fl) !! id = Some b ->
  exists b', g_Budgets (fl_group fl') !! id = Some b' /\ b_Limits b' = b_Limits b
    /\ if m_Charged m then b_SpentTurns b' = b_SpentTurns b
       else b_SpentTurns b' = (b_SpentTurns b + 1)%Z
            /\ ((0 < bl_Turns (b_Limits b))%Z -> (b_SpentTurns b' <= bl_Turns (b_Limits b))%Z)
            /\ ((0 < bl_Tokens (b_Limits b))%Z -> (b_SpentTokens b < bl_Tokens (b_Limits b))%Z).
Proof.
  intros O%any_restart_org Ha Hi Hrun id b Hin Hb.
  assert (NoDup (a_Budgets a)) as Hnd by (by eapply n_nodup, ao_node; [apply O|]).
  unfold run_top in Hrun. rewrite Ha, Hi in Hrun.
  destruct (fl_running fl !! name); [|done]. destruct (a_Stopped a); [done|].
  destruct (m_Charged m) eqn:Ec; cbn [snd fst] in Hrun.
  - apply (f_equal fst) in Hrun. cbn [fst] in Hrun. subst fl'. exists b. rewrite begin_turn_budgets, Ec. done.
  - destruct (blocked now a fl).2 eqn:Ebl; [done|].
    rewrite blocked_false in Hrun by done. apply (f_equal fst) in Hrun. cbn [fst] in Hrun. subst fl'.
    exists (b <| b_SpentTurns ::= Z.add 1 |>). rewrite begin_turn_budgets, Ec.
    rewrite each_budget_lookup, decide_True, Hb by done. split; [done|]. split; [done|].
    pose proof (blocked_false_unspent now a fl Ebl id b Hin Hb) as Hu. split_and!.
    + cbn. lia.
    + intros Hp. pose proof (spentBy_turns b now Hu Hp). cbn. lia.
    + intros Hp. by apply (spentBy_tokens b now).
Qed.

Lemma turns_stay_within_budget_witness :
  match g_Budgets (fl_group demo7) !! "b1" with
  | Some b => b_SpentTurns b = 1%Z /\ (b_SpentTurns b <= 2)%Z
  | None => False
  end.
Proof.
  assert (exists a m rest text b, fl_Agents demo6 !! "helper" = Some a /\ a_Inbox a = m :: rest
    /\ run_top (later 3) "helper" demo6 = (demo7, RunBegins (m <| m_Charged := true |>) text)
    /\ m_Charged m = false
    /\ g_Budgets (fl_group demo6) !! "b1" = Some b /\ b_SpentTurns b = 0%Z /\ b_Limits b = two_turns
    /\ a_Budgets a = ["b1"]) as (a & m & rest & text & b & Ha & Hi & Hr & Hc & Hb & Es & El & Eb).
  { do 5 eexists. split_and!; vm_compute; reflexivity. }
  destruct (turns_stay_within_budget demo_sha (later 3) demo6 demo7 "helper" a m rest text _
    (demo6_reachable _) Ha Hi Hr "b1" b ltac:(rewrite Eb; left) Hb) as (b' & -> & _ & Hb').
  rewrite Hc, Es, El in Hb'. destruct Hb' as (-> & Hle & _). split; [done|]. done.
Defined.

(** the safety valves hold in every reachable state: no fleet has more
    agents than its limit, or has accepted more messages than its limit. *)
Theorem limits_hold `{GoFormat} sha fl :
  reachable sha any_restart fl ->
  (Z.of_nat (size (g_Agents (fl_group fl))) <= g_MaxAgents (fl_group fl))%Z
  /\ (g_Sent (fl_group fl) <= g_MaxMessages (fl_group fl))%Z.
Proof. intros O%any_restart_org. split; apply O. Qed.

Lemma limits_hold_witness :
  (Z.of_nat (size (g_Agents (fl_group demo10))) <= g_MaxAgents (fl_group demo10))%Z
  /\ g_MaxAgents (fl_group demo10) = 12%Z /\ g_Sent (fl_group demo10) = 3%Z.
Proof.
  split; [apply (limits_hold demo_sha demo10 (demo10_reachable _))|split; vm_compute; reflexivity].
Defined.
