(* ===== verification/FleetTimeTheorems.v ===== *)
(** * FleetTimeTheorems: time, the log, restarts and names

    The rest of the kernel's promises: what a reader of the log sees, what a
    restart brings back, when repeats fire, how expectations end, which names
    are grants, what bounding a text keeps, and two error paths. *)

From S2P Require Import Prelude GoLib FleetNames FleetTypes FleetAuthority FleetLog FleetBudget FleetDeliver FleetTimer FleetTurn FleetExpedite FleetCheck FleetLifecycle FleetCons FleetMail FleetAccounts FleetOrg FleetOrgOps FleetSteps FleetFacts.

(* ------------------------------------------------------------------ *)
(** ** The log *)

(** a client that reads from the last event it saw misses nothing and
    always advances: in every reachable state the log's events are numbered from
    one without a gap, and a read after [seq] returns the events right after it,
    at least one when there is one, and no more than fit a frame unless the first
    alone does not. *)
Theorem reads_miss_nothing `{GoFormat} sha fl marshal seq :
  reachable sha any_restart fl ->
  let l := fl_log fl in
  numbered 0 (l_file l) /\ l_seq l = N.of_nat (length (l_file l))
  /\ ((l_seq l <= seq)%N -> read_log marshal l seq = [])
  /\ ((seq < l_seq l)%N -> exists n, 0 < n /\
       read_log marshal l seq = take n (drop (N.to_nat seq) (l_file l))).
Proof.
  intros O%any_restart_org l. pose proof (o_log _ O) as Hl. fold l in Hl.
  split_and!; [apply Hl|apply Hl|apply read_log_wait|by apply read_log_spec].
Qed.

Lemma reads_miss_nothing_witness :
  (1 < l_seq (fl_log demo10))%N /\ exists n, 0 < n /\
    read_log (fun _ => "x") (fl_log demo10) 1 = take n (drop 1 (l_file (fl_log demo10))).
Proof.
  assert (1 < l_seq (fl_log demo10))%N as Hlt by (vm_compute; reflexivity).
  destruct (reads_miss_nothing demo_sha demo10 (fun _ => "x") 1 (demo10_reachable _)) as (_ & _ & _ & Hr).
  exact (conj Hlt (Hr Hlt)).
Defined.

(** whatever a crash left of the log's last line, opening the file gives
    back the whole log as it was, and says where to cut the file. *)
Theorem torn_write_loses_only_itself `{GoFormat} sha fl unmarshal marshal torn :
  reachable sha any_restart fl -> no_newline torn = true ->
  Forall (json_line unmarshal marshal) (l_file (fl_log fl)) ->
  let whole := lines marshal (l_file (fl_log fl)) in
  exists log, openLogLocked unmarshal (whole +:+ torn) = inl (log, len whole)
    /\ l_file log = l_file (fl_log fl) /\ LogInv log.
Proof.
  intros O%any_restart_org Ht Hj whole. apply open_log_recovers; [done|done|].
  apply (o_log _ O).
Qed.

(** An encoding for the one event of [demo2]'s log. *)
Definition demo_unmarshal (s : string) : option FleetEvent :=
  if decide (s = "{}" +:+ nl) then head (l_file (fl_log demo2)) else None.

Lemma torn_write_loses_only_itself_witness :
  exists log, openLogLocked demo_unmarshal (("{}" +:+ nl) +:+ ("{" +:+ "seq")) = inl (log, 3)
    /\ l_file log = l_file (fl_log demo2).
Proof.
  assert (reachable demo_sha any_restart demo2) as Hr.
  { apply (reach_step _ _ demo1).
    - apply (reach_step _ _ demo0); [apply reach_open|].
      by apply (step_admit _ _ demo0 demo_now FleetOwner "token-1" (Some lead_args) demo_file).
    - apply step_launch_ok. vm_compute. reflexivity. }
  destruct (torn_write_loses_only_itself demo_sha demo2 demo_unmarshal (fun _ => "{}") ("{" +:+ "seq"))
    as (log & Ho & Hf & _); [exact Hr|vm_compute; reflexivity| |].
  - assert (exists e, l_file (fl_log demo2) = [e] /\ demo_unmarshal ("{}" +:+ nl) = Some e) as (e & -> & He).
    { eexists. split; vm_compute; reflexivity. }
    apply list.Forall_singleton. split; [vm_compute; reflexivity|exact He].
  - exists log. split; [|exact Hf].
    replace (3)%nat with (len (lines (fun _ => "{}") (l_file (fl_log demo2)))) by (vm_compute; reflexivity).
    rewrite <-Ho. vm_compute. reflexivity.
Defined.

(* ------------------------------------------------------------------ *)
(** ** Restarts *)

(** C3: a new kernel loses nothing of the saved state: every agent is there and
    being revived, with no turn, and its queue starts with the interrupted
    turn's message and what was steered into it, marked as delivered before,
    then holds what waited, in order; only new messages follow. *)
Theorem restart_loses_nothing `{GoFormat} now log fl name a :
  g_Agents (fl_saved fl) !! name = Some a ->
  let fl' := (reopen now log fl).1 in
  exists a' new, fl_Agents fl' !! name = Some a' /\ name ∈ fl_reviving fl'
    /\ a_Current a' = None /\ a_Steered a' = []
    /\ m_ID <$> a_Inbox a' =
         m_ID <$> (option_list (a_Current a) ++ a_Steered a ++ a_Inbox a ++ new)
    /\ (forall m, m ∈ take (length (turnMessages a)) (a_Inbox a') -> m_Redelivered m = true)
    /\ statics a' = statics a.
Proof.
  intros Ha fl'. set (b := requeue (decoded_agent a)).
  assert (exists q, fl_Agents fl' !! name = Some (b <| a_Inbox ::= fun l => l ++ q |>)) as [q Hq].
  { unfold fl', reopen. set (fl0 := MkFleet _ _ _ _ _ _ _ _ _).
    change (save ?x).1 with (save_or_log x). rewrite save_or_log_agents.
    apply (reportInterruptedChecks_back now fl0). unfold fl0, fl_Agents. cbn.
    by rewrite lookup_fmap, Ha. }
  exists (b <| a_Inbox ::= fun l => l ++ q |>), q. split_and!.
  - exact Hq.
  - assert (fl_reviving fl' = dom (g_Agents (fl_saved fl))) as ->.
    { unfold fl', reopen. set (fl0 := MkFleet _ _ _ _ _ _ _ _ _).
      unfold save. case_match; cbn; rewrite reportInterruptedChecks_reviving; unfold fl0; cbn; by rewrite dom_fmap_L. }
    apply elem_of_dom. eauto.
  - done.
  - done.
  - unfold b, requeue, decoded_agent, turnMessages. cbn -[app fmap].
    rewrite !fmap_app, <-!list_fmap_compose, <-!app_assoc. by destruct (a_Current a).
  - intros m. unfold b, requeue. cbn -[take app].
    rewrite <-app_assoc, take_app_le, take_ge.
    + unfold turnMessages. by intros (m0 & -> & _)%list_elem_of_fmap.
    + unfold turnMessages, decoded_agent. cbn. rewrite !length_fmap, !length_app, length_fmap.
      by destruct (a_Current a).
    + unfold turnMessages, decoded_agent. cbn. rewrite !length_fmap, !length_app, length_fmap.
      by destruct (a_Current a).
  - done.
Qed.

Lemma restart_loses_nothing_witness :
  exists a', fl_Agents (reopen (later 9) (fl_log demo8) demo8).1 !! "helper" = Some a'
    /\ exists rest, m_ID <$> a_Inbox a' = "r3" :: rest.
Proof.
  assert (exists a, g_Agents (fl_saved demo8) !! "helper" = Some a
    /\ m_ID <$> (option_list (a_Current a) ++ a_Steered a ++ a_Inbox a) = ["r3"]) as (a & Ha & Hm).
  { eexists. split; vm_compute; reflexivity. }
  destruct (restart_loses_nothing (later 9) (fl_log demo8) demo8 "helper" a Ha)
    as (a' & new & Ha' & _ & _ & _ & Hi & _).
  exists a'. split; [exact Ha'|]. exists (m_ID <$> new). rewrite Hi.
  rewrite !app_assoc, fmap_app, <-app_assoc, Hm. reflexivity.
Defined.

(* ------------------------------------------------------------------ *)
(** ** Timers *)

(** a repeat that fires late keeps its own schedule and never moves
    backwards: it is next due after now, by at most one period, and, unless it
    is late by more than an int64 of nanoseconds, exactly one period after the
    last of the firings it reports missed. *)
Theorem repeat_keeps_schedule now t :
  (fleetMinEvery <= t_Every t)%Z -> (t_Every t <= max_int64)%Z -> (t_At t <= now)%Z ->
  let missed := (next_firing now t).1 in
  let next := (next_firing now t).2 in
  (0 <= missed)%Z /\ (now < next <= now + t_Every t)%Z
  /\ ((now - t_At t <= max_int64)%Z -> next = (t_At t + (missed + 1) * t_Every t)%Z).
Proof.
  intros Hmin Hmax Hat. unfold next_firing, Sub, Add.
  assert (0 < t_Every t)%Z as Hpos by (unfold fleetMinEvery, Minute, Second in Hmin; lia).
  set (late := Z.max min_int64 (Z.min max_int64 (now - t_At t))).
  assert (0 <= late)%Z as Hl by (subst late; unfold max_int64, min_int64; lia).
  destruct (t_Every t <=? late)%Z eqn:E; cbn [fst snd].
  - apply Z.leb_le in E. pose proof (Z.rem_bound_pos late (t_Every t) Hl Hpos) as Hr.
    pose proof (Z.quot_rem' late (t_Every t)) as Hq. split_and!; [apply Z.quot_pos; lia|lia|lia|].
    intros Hw. assert (late = now - t_At t)%Z as El by (subst late; unfold max_int64, min_int64 in *; lia).
    nia.
  - apply Z.leb_gt in E.
    assert (late = now - t_At t)%Z as El by (subst late; unfold max_int64, min_int64 in *; lia).
    split_and!; lia.
Qed.

Lemma repeat_keeps_schedule_witness :
  let t := MkTimer demo_now Hour 0 (new_message FleetRequest "lead" "helper" "" "Again.") in
  next_firing (later 150) t = (2%Z, later 180)
  /\ (later 150 < (next_firing (later 150) t).2)%Z.
Proof.
  cbv zeta. split; [vm_compute; reflexivity|].
  apply (repeat_keeps_schedule (later 150)
    (MkTimer demo_now Hour 0 (new_message FleetRequest "lead" "helper" "" "Again.")));
    vm_compute; congruence.
Defined.

Lemma add_missed_some id n q w :
  w ∈ q -> m_Timer w = id -> exists q', add_missed id n q = Some q'.
Proof.
  induction q as [|x q IH]; [set_solver|]. intros Hw Hid. cbn. case_decide as Hx; [eauto|].
  apply elem_of_cons in Hw as [->|Hw]; [done|]. destruct (IH Hw Hid) as [q' ->]. eauto.
Qed.

Lemma add_missed_spec id n q q' :
  add_missed id n q = Some q' ->
  m_ID <$> q' = m_ID <$> q /\ foldr Z.add 0%Z (m_Missed <$> q') = (foldr Z.add 0%Z (m_Missed <$> q) + n)%Z.
Proof.
  revert q'. induction q as [|x q IH]; intros q'; cbn; [done|]. case_decide.
  - intros [= <-]. cbn. split; [done|lia].
  - destruct (add_missed id n q) as [r|]; [|done]. cbn. intros [= <-].
    destruct (IH r eq_refl) as [E1 E2]. cbn. split; [by rewrite E1|]. rewrite E2. lia.
Qed.

(** While one firing of a repeat waits in its target's queue, a later one
    adds no message: the queue keeps its messages, the log says nothing, and
    the waiting firing counts the new one and those that were missed. *)
Theorem one_firing_waits `{GoFormat} now id t fl a w :
  (0 < t_Every t)%Z -> fl_Agents fl !! m_To (t_Message t) = Some a ->
  w ∈ a_Inbox a -> m_Timer w = id ->
  let fl' := fireTimer now id t fl in
  l_file (fl_log fl') = l_file (fl_log fl)
  /\ exists q, fl_Agents fl' = <[m_To (t_Message t) := a <| a_Inbox := q |>]> (fl_Agents fl)
    /\ m_ID <$> q = m_ID <$> a_Inbox a
    /\ foldr Z.add 0%Z (m_Missed <$> q)
       = (foldr Z.add 0%Z (m_Missed <$> a_Inbox a) + (next_firing now t).1 + 1)%Z.
Proof.
  intros Hev Ha Hw Hid fl'.
  destruct (add_missed_some id ((next_firing now t).1 + 1) _ w Hw Hid) as [q Hq].
  assert (fl' = upd_agent (m_To (t_Message t)) (fun a => a <| a_Inbox := q |>)
    (armTimer now id (t <| t_At := (next_firing now t).2 |>)
      (upd_timers <[id := t <| t_At := (next_firing now t).2 |>]> fl))) as ->.
  { unfold fl', fireTimer. rewrite (proj2 (Z.leb_gt _ _)) by done.
    change (m_To (t_Message t) <| m_Due := _ |>) with (m_To (t_Message t)).
    rewrite Ha, (bool_decide_eq_false_2 (Some a = None)), andb_false_r by done. cbn [mbind option_bind].
    by rewrite Hq. }
  split; [done|]. exists q. destruct (add_missed_spec _ _ _ _ Hq) as [E1 E2]. split_and!; [|done|lia].
  unfold fl_Agents, upd_agent, upd_agents. cbn. apply map_eq. intros k.
  unfold fl_Agents in Ha.
  destruct (decide (k = m_To (t_Message t))) as [->|Hne].
  - by rewrite lookup_alter_eq, lookup_insert_eq, Ha.
  - by rewrite lookup_alter_ne, lookup_insert_ne.
Qed.

(** The first firing of [t5] waits in [helper]'s queue. *)
Definition demo12 : Fleet := timer_fires (later 66) "t5" demo10.

Lemma one_firing_waits_witness :
  match fl_Timers demo12 !! "t5", fl_Agents demo12 !! "helper" with
  | Some t, Some a =>
    l_file (fl_log (fireTimer (later 260) "t5" t demo12)) = l_file (fl_log demo12)
    /\ m_ID <$> a_Inbox a = ["t5.1"] /\ (next_firing (later 260) t).1 = 2%Z
  | _, _ => False
  end.
Proof.
  destruct (fl_Timers demo12 !! "t5") as [t|] eqn:Et; [|vm_compute in Et; discriminate Et].
  destruct (fl_Agents demo12 !! "helper") as [a|] eqn:Ea; [|vm_compute in Ea; discriminate Ea].
  assert (m_To (t_Message t) = "helper" /\ t_Every t = Hour /\ (next_firing (later 260) t).1 = 2%Z)
    as (Eto & Eev & En) 
    by (vm_compute in Et; injection Et as <-; split_and!; vm_compute; reflexivity).
  assert (exists w, a_Inbox a = [w] /\ m_Timer w = "t5" /\ m_ID w = "t5.1") as (w & Ei & Hw & Hid).
  { vm_compute in Ea. injection Ea as <-. eexists. split_and!; reflexivity. }
  split_and!; [|rewrite Ei; cbn; rewrite Hid; reflexivity|exact En].
  assert (0 < t_Every t)%Z as Hpos by (rewrite Eev; reflexivity).
  assert (fl_Agents demo12 !! m_To (t_Message t) = Some a) as Hto by (rewrite Eto; exact Ea).
  assert (w ∈ a_Inbox a) as Hin by (rewrite Ei; left).
  destruct (one_firing_waits (later 260) "t5" t demo12 a w Hpos Hto Hin Hw) as [H _]. exact H.
Defined.

(* ------------------------------------------------------------------ *)
(** ** Expectations *)

Lemma deliver_expects_answered `{GoFormat} now from to id text fl :
  id <> "" ->
  g_Expects (fl_group (deliver now (new_message FleetResponse from to id text) fl))
  = delete id (g_Expects (fl_group fl)).
Proof.
  intros Hne. rewrite deliver_not_request by done. unfold deliver_once. rewrite stamp_message_eq.
  cbn [fst snd]. set (m' := stamped _ _ _).
  assert (m_Kind m' = FleetResponse) as Ek by apply stamped_Kind.
  assert (m_InReplyTo m' = id) as Er by apply stamped_InReplyTo.
  clearbody m'. 
  rewrite (decide_True (P := m_Kind m' = FleetResponse /\ m_InReplyTo m' <> "")) by (by rewrite Ek, Er).
  rewrite Er.
  set (fl0 := fl <| fl_group := _ |>).
  assert (g_Expects (fl_group (answered id fl0)) = delete id (g_Expects (fl_group fl))) as E
    by by rewrite answered_expects.
  set (fl1 := answered id fl0) in *. clearbody fl1.
  case_decide; [exact E|]. case_match; [case_match|]; exact E.
Qed.

Lemma where_expects `{GoFormat} now id e fl :
  g_Expects (fl_group (where_ now id e fl).1) ⊆ g_Expects (fl_group fl).
Proof.
  unfold where_. destruct (fl_Agents fl !! x_To e) as [a|]; [|done].
  do 2 (case_match; [done|]). destruct (index _ _); [|by case_match].
  destruct (negb _); [done|]. case_match; [done|]. cbn [fst]. unfold blocked.
  destruct (first_spent _ _ _) as [[[i b] reason]|]; [|done]. case_match; [done|]. cbn [fst].
  set (fl1 := fl <| fl_group ::= _ |>). set (fl2 := deliver _ _ _).
  assert (g_Expects (fl_group fl2) ⊆ g_Expects (fl_group fl1)) as Hsub by exact (proj2 (deliver_less now _ _)).
  clearbody fl2. unfold save_or_log, save. by case_match.
Qed.

Lemma save_or_log_expects fl : g_Expects (fl_group (save_or_log fl)) = g_Expects (fl_group fl).
Proof. unfold save_or_log, save. by case_match. Qed.

Lemma forget_done_expects id e fl : g_Expects (fl_group (forget_done id e fl)) ⊆ g_Expects (fl_group fl).
Proof. unfold forget_done. destruct (x_AcceptBy e), (x_AnswerBy e); try done. apply delete_subseteq. Qed.

Lemma expectMissed_shape `{GoFormat} now id which e fl :
  exists m, expectMissed now id which e fl =
    deliver now m (forget_done id (missed which e)
      (where_ now id (missed which e) (upd_expects <[id := missed which e]> fl)).1).
Proof. by eexists. Qed.

Lemma expectMissed_expects `{GoFormat} now id which e fl e' :
  g_Expects (fl_group (expectMissed now id which e fl)) !! id = Some e' -> e' = missed which e.
Proof.
  destruct (expectMissed_shape now id which e fl) as [m ->]. generalize (missed which e). intros e1 He.
  assert (g_Expects (fl_group (upd_expects <[id := e1]> fl)) !! id = Some e1) as E1
    by exact (lookup_insert_eq _ _ _).
  revert He E1. generalize (upd_expects <[id := e1]> fl). intros fl1 He E1.
  pose proof (lookup_weaken _ _ _ _ He (proj2 (deliver_less now _ _))) as H1.
  pose proof (lookup_weaken _ _ _ _ H1 (forget_done_expects _ _ _)) as H2.
  pose proof (lookup_weaken _ _ _ _ H2 (where_expects _ _ _ _)) as H3. congruence.
Qed.

(** an expectation ends with the answer and wakes its sender at most once
    per deadline: the response to a message removes it, so its waits then do
    nothing to it, and when a deadline passes, the deadline is gone by the time
    the sender hears of it. *)
Theorem expectations_end `{GoFormat} now fl id which :
  (forall from to text, id <> "" ->
     let fl' := deliver now (new_message FleetResponse from to id text) fl in
     g_Expects (fl_group fl') !! id = None
     /\ fl_group (expect_fires now id which fl') = fl_group fl')
  /\ (forall e e', g_Expects (fl_group fl) !! id = Some e ->
      is_Some (fl_timers fl !! fleetExpectKey id which) ->
      g_Expects (fl_group (expect_fires now id which fl)) !! id = Some e' ->
      e' = missed which e).
Proof.
  split.
  - intros from to text Hne fl'.
    assert (g_Expects (fl_group fl') !! id = None) as E.
    { unfold fl'. rewrite deliver_expects_answered by done. apply lookup_delete_eq. }
    split; [done|]. clearbody fl'. unfold expect_fires.
    destruct (fl_timers fl' !! fleetExpectKey id which); [|done].
    destruct (g_Expects (fl_group (disarm _ fl')) !! id) eqn:E2; [|done].
    change (g_Expects (fl_group fl') !! id = Some f) in E2. congruence.
  - intros e e' He [d Hd] He'. unfold expect_fires in He'. rewrite Hd in He'.
    set (fl1 := disarm _ fl) in *.
    assert (g_Expects (fl_group fl1) !! id = Some e) as E1 by exact He. clearbody fl1.
    rewrite E1, save_or_log_expects in He'. by eapply expectMissed_expects.
Qed.

(* ------------------------------------------------------------------ *)
(** ** Names *)

(** the grant name of a fleet's agent says which fleet and which agent it
    is, is recognised as a fleet grant, and never clashes with another's; the
    kernel's own keys do not clash either; and no agent's name is a budget's
    identifier. *)
Theorem fleet_names_are_unambiguous f1 a1 f2 a2 :
  fleetNameValid f1 = true -> fleetNameValid f2 = true -> fleetNameValid a1 = true ->
  isFleetGrantName (fleetGrantName f1 a1) = true
  /\ (fleetGrantName f1 a1 = fleetGrantName f2 a2 -> f1 = f2 /\ a1 = a2)
  /\ (fleetKey f1 a1 = fleetKey f2 a2 -> f1 = f2 /\ a1 = a2)
  /\ (forall caller args rf s ins n, admit_args caller args rf = inl (s, ins) ->
        sa_Name s <> budget_id n).
Proof.
  intros H1 H2 H3. apply valid_segments in H1, H2, H3. split_and!.
  - unfold isFleetGrantName, fleetGrantPattern, fleetGrantName.
    rewrite has_prefix_app, drop_bytes_app. cbn [andb].
    apply List.existsb_exists. exists (len f1). split.
    + apply List.in_seq. rewrite len_app. lia.
    + unfold fleetNamePattern. rewrite take_bytes_app, drop_bytes_app, has_prefix_app, H1. cbn [andb].
      rewrite str_app_assoc. rewrite <-len_app, drop_bytes_app. exact H3.
  - unfold fleetGrantName. intros E. apply (inj (String.append fleetGrantPrefix)) in E.
    by apply sep_split in E.
  - intros E. by apply slash_split in E.
  - intros caller args rf s ins n (_ & _ & _ & _ & Hb & _)%admit_args_ok E.
    rewrite E, budget_id_pattern in Hb. done.
Qed.

Lemma fleet_names_are_unambiguous_witness :
  isFleetGrantName (fleetGrantName "build-2" "lead") = true
  /\ (fleetGrantName "build-2" "lead" = fleetGrantName "build" "2-lead" -> "build-2" = "build").
Proof.
  destruct (fleet_names_are_unambiguous "build-2" "lead" "build" "2-lead" eq_refl eq_refl eq_refl)
    as (H1 & H2 & _).
  exact (conj H1 (fun E => proj1 (H2 E))).
Defined.

(* ------------------------------------------------------------------ *)
(** ** Texts *)

Definition truncation_note : string := nl +:+ "[truncated by Claudia]".

(** a text in an event or a message is bounded: it keeps a text that fits
    and the head of one that does not, is never longer than the bound and its
    note, and bounding twice, as the code does, is bounding once. *)
Theorem texts_are_bounded s :
  (Z.of_nat (len (boundFleetText s)) <= fleetMaxText + Z.of_nat (len truncation_note))%Z
  /\ ((Z.of_nat (len s) <= fleetMaxText)%Z -> boundFleetText s = s)
  /\ take_bytes (Z.to_nat fleetMaxText) (boundFleetText s) = take_bytes (Z.to_nat fleetMaxText) s
  /\ boundFleetText (boundFleetText s) = boundFleetText s.
Proof.
  set (n := Z.to_nat fleetMaxText).
  assert (Z.of_nat n = fleetMaxText) as En by (unfold n, fleetMaxText; lia).
  assert (forall t, (Z.of_nat (len t) <= fleetMaxText)%Z -> boundFleetText t = t) as Hs.
  { intros t Ht. unfold boundFleetText. by rewrite (proj2 (Z.leb_le _ _)). }
  assert (forall t, (fleetMaxText < Z.of_nat (len t))%Z -> boundFleetText t = take_bytes n t +:+ truncation_note)
    as Hl.
  { intros t Ht. unfold boundFleetText. by rewrite (proj2 (Z.leb_gt _ _)). }
  clearbody n. destruct (Z.le_gt_cases (Z.of_nat (len s)) fleetMaxText) as [Hle|Hgt].
  - rewrite !(Hs s) by done. split_and!; [lia|done..].
  - rewrite (Hl s) by done. assert (n <= len s)%nat as Hn by lia.
    pose proof (len_take_bytes n s Hn) as Hlen. split_and!.
    + rewrite len_app. lia.
    + lia.
    + by rewrite <-Hlen at 1; rewrite take_bytes_app.
    + assert (0 < len truncation_note)%nat as Hpos by (vm_compute; lia).
      rewrite Hl by (rewrite len_app; lia). f_equal.
      by rewrite <-Hlen at 1; rewrite take_bytes_app.
Qed.

Lemma drop_drop_bytes i j s : (i + j <= len s)%nat -> drop_bytes j (drop_bytes i s) = drop_bytes (i + j) s.
Proof.
  intros H. rewrite <-(take_drop_bytes i s) at 2 by lia.
  rewrite drop_bytes_past; rewrite len_take_bytes by lia; [|lia]. f_equal. lia.
Qed.

(** The last [n] bytes are the last [n] bytes of any longer tail. *)
Lemma tail_bytes_app n s t :
  tail_bytes n (tail_bytes n s +:+ t) = tail_bytes n (s +:+ t).
Proof.
  unfold tail_bytes. rewrite !len_app.
  assert (len (drop_bytes (len s - n) s) = len s - (len s - n))%nat as El by (apply len_drop_bytes; lia).
  rewrite El. set (p := take_bytes (len s - n) s). set (d := drop_bytes (len s - n) s).
  assert (s +:+ t = p +:+ (d +:+ t)) as Es.
  { rewrite str_app_assoc. unfold p, d. by rewrite take_drop_bytes by lia. }
  assert (len p = len s - n)%nat as Ep by (apply len_take_bytes; lia).
  rewrite Es, (drop_bytes_past _ p) by lia. f_equal. lia.
Qed.

(** The buffer of a check's output always ends up with the last bytes of
    everything written, however the writes were cut, and holds at most twice its
    limit meanwhile. *)
Theorem tail_buffer_keeps_the_tail limit ws :
  let buf := foldl (tail_write limit) "" ws in
  tail_string limit buf = tail_bytes limit (foldl String.append "" ws)
  /\ (len buf <= 2 * limit)%nat.
Proof.
  assert (forall s, tail_string limit s = tail_bytes limit s) as Ht.
  { intros s. unfold tail_string. destruct (limit <? len s)%nat eqn:E; [done|].
    apply Nat.ltb_ge in E. unfold tail_bytes. replace (len s - limit)%nat with 0%nat by lia.
    unfold drop_bytes. by rewrite Nat.sub_0_r, substring_all. }
  assert (forall s, tail_bytes limit (tail_bytes limit s) = tail_bytes limit s) as Hi.
  { intros s. pose proof (tail_bytes_app limit s "") as H. by rewrite !str_app_nil_r in H. }
  cbv zeta. rewrite Ht. induction ws as [|w ws [IH1 IH2]] using rev_ind; [split; [done|cbn; lia]|].
  rewrite !foldl_app. cbn [foldl]. set (buf := foldl (tail_write limit) "" ws) in *.
  set (all := foldl String.append "" ws) in *.
  assert (tail_bytes limit (buf +:+ w) = tail_bytes limit (all +:+ w)) as E.
  { by rewrite <-(tail_bytes_app limit buf), IH1, tail_bytes_app. }
  unfold tail_write. destruct (2 * limit <? len (buf +:+ w))%nat eqn:Ew.
  - split; [by rewrite Hi|]. unfold tail_bytes. apply Nat.ltb_lt in Ew. rewrite len_drop_bytes by lia. lia.
  - split; [done|]. by apply Nat.ltb_ge in Ew.
Qed.

(* ------------------------------------------------------------------ *)
(** ** Interrupts *)

(** an interrupt counts only for the turn it was meant for: a turn is not
    judged while one is being delivered; one that comes back for an earlier turn
    is not counted; and a turn that begins is not interrupted and waits for no
    interrupt of the one before. *)
Theorem interrupts_stay_in_their_turn `{GoFormat} now fl name rt a :
  fl_running fl !! name = Some rt -> fl_Agents fl !! name = Some a ->
  (rt_interruptTurn rt <= rt_turns rt)%Z ->
  (forall used te, is_Some (a_Current a) -> (0 < rt_interrupting rt)%Z -> a_Stopped a = false ->
     finish_turn now name used te fl = (fl, TurnWaits))
  /\ (forall turn by_ forID ok, exists rt',
       fl_running (interruptSeat name (rt_id rt) turn by_ forID ok fl) !! name = Some rt'
       /\ (rt_interruptTurn rt' <= rt_turns rt')%Z
       /\ ((ok = false \/ turn <> rt_turns rt) -> rt_interruptTurn rt' = rt_interruptTurn rt)
       /\ rt_interrupting rt' = (rt_interrupting rt - 1)%Z)
  /\ (forall fl' m text, run_top now name fl = (fl', RunBegins m text) ->
       exists rt', fl_running fl' !! name = Some rt' /\ rt_turns rt' = (rt_turns rt + 1)%Z
         /\ (rt_interruptTurn rt' < rt_turns rt')%Z /\ rt_live rt' = false /\ rt_pending rt' = None).
Proof.
  intros Hr Ha Hle. split_and!.
  - intros used te [m Hm] Hi Hs. unfold finish_turn. rewrite Ha, Hr, Hm, Hs.
    by rewrite (proj2 (Z.ltb_lt _ _)).
  - intros turn by_ forID ok. unfold interruptSeat. rewrite Hr, decide_True by done.
    eexists. split; [apply lookup_insert_eq|].
    destruct ok; cbn; [destruct (rt_turns rt =? turn)%Z eqn:E; cbn|].
    + apply Z.eqb_eq in E. split_and!; [lia|intros [?|?]; [done|lia]|lia].
    + split_and!; [lia|done|lia].
    + split_and!; [lia|done|lia].
  - intros fl' m text Hrun. unfold run_top in Hrun. rewrite Ha, Hr in Hrun.
    destruct (a_Stopped a); [done|]. destruct (a_Inbox a) as [|m0 rest]; [done|].
    set (r := if m_Charged m0 then _ else _) in Hrun.
    assert (r.2 = false -> r.1 = fl) as Hrf.
    { subst r. destruct (m_Charged m0); [done|apply blocked_false]. }
    destruct r.2; [done|]. rewrite Hrf in Hrun by done.
    apply (f_equal fst) in Hrun. cbn [fst] in Hrun. subst fl'.
    unfold begin_turn. cbn [fst]. set (fl1 := upd_runtime _ _ _). set (fl2 := accepted _ _ fl1).
    assert (fl_running fl2 = fl_running fl1) as E2.
    { unfold fl2. by destruct (accepted_only now (m_ID m0) fl1) as (Ex & tm & ->). }
    clearbody fl2.
    assert (fl_running (save_or_log (charge_message a m0 fl2)) = fl_running fl1) as ->.
    { rewrite <-E2. unfold save_or_log, save, charge_message. by repeat case_match. }
    unfold fl1, upd_runtime. cbn. rewrite lookup_alter_eq, Hr. eexists. split; [done|].
    cbn. split_and!; [lia|lia|done|done].
Qed.

Lemma interrupts_stay_in_their_turn_witness :
  match fl_running demo7 !! "helper" with
  | Some rt => rt_turns rt = 1%Z /\ (rt_interruptTurn rt < rt_turns rt)%Z
  | None => False
  end.
Proof.
  assert (exists rt a, fl_running demo6 !! "helper" = Some rt /\ fl_Agents demo6 !! "helper" = Some a
    /\ (rt_interruptTurn rt <= rt_turns rt)%Z /\ rt_turns rt = 0%Z) as (rt & a & Hr & Ha & Hle & H0).
  { do 2 eexists. split_and!; [vm_compute; reflexivity..| |]; vm_compute; [congruence|reflexivity]. }
  assert (exists m text, run_top (later 3) "helper" demo6 = (demo7, RunBegins m text)) as (m & text & Hrun).
  { do 2 eexists. vm_compute. reflexivity. }
  destruct (interrupts_stay_in_their_turn (later 3) demo6 "helper" rt a Hr Ha Hle) as (_ & _ & H).
  destruct (H demo7 m text Hrun) as (rt' & -> & Et & Hlt & _). rewrite Et, H0. split; [reflexivity|].
  rewrite Et, H0 in Hlt. exact Hlt.
Defined.

(* ------------------------------------------------------------------ *)
(** ** Error paths *)

Lemma mail_only_last fl fl' :
  mail_only fl fl' ->
  g_CheckLast (fl_group fl') = g_CheckLast (fl_group fl) /\ fl_saved fl' = fl_saved fl.
Proof. by intros (? & ? & ? & ? & ? & -> & _). Qed.

Lemma finishCheck_last `{GoFormat} now id r fl c :
  g_Checks (fl_group fl) !! cr_Name r = Some c -> c_SHA256 c = cr_SHA256 r ->
  let fl' := finishCheck now id r fl in
  g_CheckLast (fl_group fl') !! cr_Name r = Some (r <| cr_Output ::= boundCheckOutput |>)
  /\ fl_saved fl' = fl_saved fl.
Proof.
  intros Hc Hs fl'. unfold fl', finishCheck. set (r' := r <| cr_Output ::= _ |>).
  set (fl1 := event now _ (upd_runs (delete id) fl)).
  assert (g_Checks (fl_group fl1) !! cr_Name r' = Some c) as -> by exact Hc.
  rewrite decide_True by exact Hs. set (fl2 := upd_last _ fl1).
  assert (g_CheckLast (fl_group fl2) !! cr_Name r = Some r' /\ fl_saved fl2 = fl_saved fl) as [E1 E2].
  { split; [exact (lookup_insert_eq _ _ _)|done]. }
  clearbody fl2. destruct (fl_Agents fl2 !! cr_Requester r'); [|done].
  destruct (g_CheckRuns (fl_group fl) !! id); [|done]. case_decide; [done|].
  destruct (mail_only_last _ _ (deliver_mail_only now (new_message FleetResponse
    (FleetCheckSenderPrefix +:+ cr_Name r') (cr_Requester r') id (describeCheckResult r')) fl2)) as [-> ->].
  done.
Qed.

(** A check whose last line of output reads as a number that is not finite,
    which [strconv.ParseFloat] accepts, leaves the kernel unable to save: its
    result is kept in the state, the state no longer encodes, and this save and
    every later one that keeps it fail. *)
Theorem unfinite_score_stops_saving `{GoFormat} now id r fl c score :
  g_Checks (fl_group fl) !! cr_Name r = Some c -> c_SHA256 c = cr_SHA256 r ->
  cr_Score r = Some score -> f64_encodable score = false ->
  let fl' := check_done now id r fl in
  fl_saved fl' = fl_saved fl
  /\ forall fl'', g_CheckLast (fl_group fl'') = g_CheckLast (fl_group fl') -> save fl'' = (fl'', false).
Proof.
  intros Hc Hs Hsc Hno fl'.
  assert (forall fl2, g_CheckLast (fl_group fl2) !! cr_Name r = Some (r <| cr_Output ::= boundCheckOutput |>) ->
    group_encodable (fl_group fl2) = false) as Hbad.
  { intros fl2 Hl. unfold group_encodable. apply andb_false_intro1, andb_false_intro1.
    apply not_true_iff_false. intros Hall. rewrite List.forallb_forall in Hall.
    specialize (Hall (cr_Name r, r <| cr_Output ::= boundCheckOutput |>)).
    cut (result_encodable (r <| cr_Output ::= boundCheckOutput |>) = true).
    - unfold result_encodable. cbn. by rewrite Hsc, Hno.
    - apply Hall, list_elem_of_In, elem_of_map_to_list, Hl. }
  destruct (finishCheck_last now id r fl c Hc Hs) as [E1 E2].
  assert (fl' = finishCheck now id r fl) as E.
  { unfold fl', check_done, save_or_log, save. by rewrite Hbad. }
  split; [by rewrite E|]. intros fl'' El. unfold save. rewrite Hbad; [done|].
  by rewrite El, E.
Qed.

(** [demo4] with a check registered and a run of it in progress. *)
Definition demo_check : FleetCheckArgs := MkCheckArgs "tests" "/repo" "go test" "" true 0.
Definition demo_checked : Fleet :=
  (run_check_start (later 1) "lead" "tests" "abc"
    (RegisterCheck demo_sha (later 1) FleetOwner "/checks/tests.sh" demo_check "go test"
       fleetCheckDefaultTimeout None demo4).1).1.
Definition nan_result : FleetCheckResult :=
  MkCheckResult "c2" "tests" "abc" (demo_sha "go test") "lead" 0 (Some SpecFloat.S754_nan) "nan" F.zero "".

Lemma unfinite_score_stops_saving_witness :
  let fl' := check_done (later 2) "c2" nan_result demo_checked in
  save fl' = (fl', false) /\ (save demo_checked).2 = true.
Proof.
  assert (exists c, g_Checks (fl_group demo_checked) !! cr_Name nan_result = Some c
    /\ c_SHA256 c = cr_SHA256 nan_result) as (c & Hc & Hs).
  { eexists. split; vm_compute; reflexivity. }
  destruct (unfinite_score_stops_saving (later 2) "c2" nan_result demo_checked c SpecFloat.S754_nan
    Hc Hs eq_refl eq_refl) as (_ & H).
  split; [apply H; reflexivity|vm_compute; reflexivity].
Defined.

Lemma dropTimersOf_parents `{GoFormat} now name failure fl k b :
  fl_Agents fl !! k = Some b ->
  exists b', fl_Agents (dropTimersOf now name failure fl) !! k = Some b' /\ a_Parent b' = a_Parent b.
Proof.
  intros Hb. destruct (dropTimersOf_less now name failure fl) as (_ & _ & _ & E).
  pose proof (f_equal (fun m => m !! k) E) as Ek. cbn beta in Ek. rewrite !lookup_fmap, Hb in Ek.
  destruct (fl_Agents (dropTimersOf now name failure fl) !! k) as [b'|]; [|done].
  exists b'. split; [done|]. apply (inj Some) in Ek.
  change (a_Parent (strip_inbox b') = a_Parent (strip_inbox b)). by rewrite Ek.
Qed.

Lemma mail_only_parents fl fl' k b :
  mail_only fl fl' -> fl_Agents fl !! k = Some b ->
  exists b', fl_Agents fl' !! k = Some b' /\ a_Parent b' = a_Parent b.
Proof. intros H Hb. destruct (mail_only_lookup fl fl' H k b Hb) as [q Hq]. eauto. Qed.

(** A start that fails forgets the agent and leaves the link from an agent
    it had already started, unlike a retirement: that agent's starter is then a
    name nobody has, and an agent that takes the name gets authority over it. *)
Theorem failed_start_leaves_the_link `{GoFormat} now name err tell fl a k b :
  fl_Agents fl !! name = Some a -> fl_Agents fl !! k = Some b -> k <> name -> a_Parent b = name ->
  let fl' := launch_failed now name err tell fl in
  exists b', fl_Agents fl' !! k = Some b' /\ a_Parent b' = name
    /\ forall c, authorized ((fl_group fl') <| g_Agents ::= <[name := c]> |>) name k = true.
Proof.
  intros Ha Hb Hk Hp fl'.
  assert (exists b', fl_Agents fl' !! k = Some b' /\ a_Parent b' = name) as (b' & Hb' & Hp').
  { unfold fl', launch_failed. rewrite Ha, save_or_log_agents. set (failure := _ +:+ _).
    set (fl1 := upd_agents (delete name) _).
    assert (fl_Agents fl1 !! k = Some b) as H1.
    { unfold fl1, fl_Agents, upd_agents. cbn. by rewrite lookup_delete_ne. }
    clearbody fl1. destruct (dropTimersOf_parents now name failure fl1 k b H1) as (b2 & H2 & E2).
    set (fl2 := dropTimersOf _ _ _ fl1) in *. clearbody fl2. set (fl3 := event now _ _).
    assert (fl_Agents fl3 !! k = Some b2) as H3 by exact H2. clearbody fl3.
    destruct (mail_only_parents _ _ k b2 (answerOwed_mail now a failure fl3) H3) as (b4 & H4 & E4).
    destruct (tell && _); [|exists b4; split; [done|congruence]].
    set (m := new_message _ _ _ _ _).
    destruct (mail_only_parents _ _ k b4 (deliver_mail_only now m _) H4) as (b5 & H5 & E5).
    exists b5. split; [exact H5|congruence]. }
  clearbody fl'. exists b'. split_and!; [done|done|]. intros c.
  unfold authorized. case_decide; [done|].
  assert (fleetDescends ((fl_group fl') <| g_Agents ::= <[name := c]> |>) k name = true) as Hd.
  { unfold fleetDescends. cbn [descends_loop].
    assert (g_Agents ((fl_group fl') <| g_Agents ::= <[name := c]> |>) !! k = Some b') as ->.
    { cbn. by rewrite lookup_insert_ne. }
    by rewrite decide_True. }
  case_match; [case_decide|]; done.
Qed.

(** [lead] is still starting and has started [helper]. *)
Definition demo_early : Fleet :=
  (admit_start demo_now "lead" "token-2" helper_args "Do the work." demo1).1.

Lemma failed_start_leaves_the_link_witness :
  match fl_Agents (launch_failed (later 1) "lead" "no plan" true demo_early) !! "helper" with
  | Some b => a_Parent b = "lead"
  | None => False
  end.
Proof.
  assert (exists a b, fl_Agents demo_early !! "lead" = Some a /\ fl_Agents demo_early !! "helper" = Some b
    /\ a_Parent b = "lead") as (a & b & Ha & Hb & Hp).
  { do 2 eexists. split_and!; vm_compute; reflexivity. }
  destruct (failed_start_leaves_the_link (later 1) "lead" "no plan" true demo_early a "helper" b
    Ha Hb ltac:(done) Hp) as (b' & -> & Hp' & _). exact Hp'.
Defined.
