(* ===== verification/GoFloat.v ===== *)
(** * GoFloat: the order of binary64

    [<], [<=] and [==] on float64 order every number that is not NaN totally.
    Each number has a key of three integers compared lexicographically, which
    turns an order fact about floats into linear arithmetic. *)

From S2P Require Import Prelude GoLib.
From Stdlib Require Import SpecFloat.
From Stdlib Require Import Sorted.
From stdpp Require Import sorting.

(** A number: anything but NaN. *)
Definition num (x : float64) : Prop := F.is_nan x = false.

(** The place of a number in the order: its class, exponent and mantissa. *)
Definition key (x : float64) : Z * Z * Z :=
  match x with
  | S754_zero _ => (0, 0, 0)
  | S754_infinity s => (if s then -2 else 2, 0, 0)
  | S754_finite false m e => (1, e, Zpos m)
  | S754_finite true m e => (-1, - e, Zneg m)
  | S754_nan => (3, 0, 0)
  end%Z.

(** The lexicographic order of keys. *)
Definition klt (a b : Z * Z * Z) : Prop :=
  (a.1.1 < b.1.1 \/ a.1.1 = b.1.1 /\ (a.1.2 < b.1.2 \/ a.1.2 = b.1.2 /\ a.2 < b.2))%Z.

Definition klexcmp (a b : Z * Z * Z) : comparison :=
  match (a.1.1 ?= b.1.1)%Z with
  | Eq => match (a.1.2 ?= b.1.2)%Z with Eq => (a.2 ?= b.2)%Z | c => c end
  | c => c
  end.

Lemma klexcmp_lt a b : klexcmp a b = Lt <-> klt a b.
Proof.
  unfold klexcmp, klt.
  destruct (Z.compare_spec a.1.1 b.1.1), (Z.compare_spec a.1.2 b.1.2), (Z.compare_spec a.2 b.2);
    split; intros E; try discriminate E; try done; lia.
Qed.

Lemma klexcmp_eq a b : klexcmp a b = Eq <-> a = b.
Proof.
  unfold klexcmp. destruct a as [[a1 a2] a3], b as [[b1 b2] b3]; cbn [fst snd].
  destruct (Z.compare_spec a1 b1), (Z.compare_spec a2 b2), (Z.compare_spec a3 b3);
    split; intros E; try discriminate E; try done; try congruence;
    apply (f_equal (fun k => (k.1.1, k.1.2, k.2))) in E; cbn in E; injection E; lia.
Qed.

Lemma compare_key x y : num x -> num y -> SFcompare x y = Some (klexcmp (key x) (key y)).
Proof.
  destruct x as [sx|sx| |sx mx ex], y as [sy|sy| |sy my ey]; intros Hx Hy;
    try discriminate Hx; try discriminate Hy; try (destruct sx); try (destruct sy); try reflexivity.
  unfold klexcmp. cbn [fst snd key]. rewrite Z.compare_refl. cbn.
  destruct (Z.compare_spec ex ey) as [->|H|H].
  + rewrite Z.compare_refl. cbn. done.
  + replace (- ex ?= - ey)%Z with Gt by (symmetry; apply Z.compare_gt_iff; lia). done.
  + replace (- ex ?= - ey)%Z with Lt by (symmetry; apply Z.compare_lt_iff; lia). done.
Qed.

Lemma ltb_key x y : num x -> num y -> F.ltb x y = true <-> klt (key x) (key y).
Proof.
  intros Hx Hy. unfold F.ltb, SFltb. rewrite compare_key by done. rewrite <-klexcmp_lt.
  destruct (klexcmp _ _); split; intros E; done.
Qed.

Lemma leb_key x y : num x -> num y -> F.leb x y = true <-> ~ klt (key y) (key x).
Proof.
  intros Hx Hy. unfold F.leb, SFleb. rewrite compare_key by done.
  assert (klexcmp (key x) (key y) = Gt <-> klt (key y) (key x)) as G.
  { unfold klexcmp, klt.
    destruct (Z.compare_spec (key x).1.1 (key y).1.1), (Z.compare_spec (key x).1.2 (key y).1.2),
      (Z.compare_spec (key x).2 (key y).2); split; intros E; try discriminate E; try done; lia. }
  destruct (klexcmp _ _); split; intros E; try done.
  - intros K. apply G in K. done.
  - intros K. apply G in K. done.
  - exfalso. apply E. by apply G.
Qed.

Lemma eqb_key x y : num x -> num y -> F.eqb x y = true <-> key x = key y.
Proof.
  intros Hx Hy. unfold F.eqb, SFeqb. rewrite compare_key by done. rewrite <-klexcmp_eq.
  destruct (klexcmp _ _); split; intros E; done.
Qed.

Lemma ltb_key_false x y : num x -> num y -> F.ltb x y = false <-> ~ klt (key x) (key y).
Proof. intros Hx Hy. rewrite <-ltb_key by done. by rewrite not_true_iff_false. Qed.

Lemma leb_key_false x y : num x -> num y -> F.leb x y = false <-> klt (key y) (key x).
Proof.
  intros Hx Hy. rewrite <-not_true_iff_false, leb_key by done. unfold klt. lia.
Qed.

Lemma nan_ltb x y : ~ num x \/ ~ num y -> F.ltb x y = false.
Proof. unfold num. destruct x, y; cbn; intros [H|H]; try done; by destruct H. Qed.

Lemma nan_leb x y : ~ num x \/ ~ num y -> F.leb x y = false.
Proof. unfold num. destruct x, y; cbn; intros [H|H]; try done; by destruct H. Qed.

#[global] Instance num_dec x : Decision (num x).
Proof. unfold num. apply _. Defined.

(** Turn the order facts about numbers into linear arithmetic on their keys. *)
Ltac float_order :=
  repeat match goal with
  | H : F.ltb _ _ = true |- _ => apply ltb_key in H; [|assumption..]
  | H : F.leb _ _ = true |- _ => apply leb_key in H; [|assumption..]
  | H : F.ltb _ _ = false |- _ => apply ltb_key_false in H; [|assumption..]
  | H : F.leb _ _ = false |- _ => apply leb_key_false in H; [|assumption..]
  end;
  try match goal with
  | |- F.ltb _ _ = true => apply ltb_key; [assumption..|]
  | |- F.leb _ _ = true => apply leb_key; [assumption..|]
  | |- F.ltb _ _ = false => apply ltb_key_false; [assumption..|]
  | |- F.leb _ _ = false => apply leb_key_false; [assumption..|]
  end;
  unfold klt in *; lia.

Lemma ltb_num x y : F.ltb x y = true -> num x /\ num y.
Proof.
  intros H. destruct (decide (num x)) as [Hx|Hx], (decide (num y)) as [Hy|Hy]; try done;
    rewrite nan_ltb in H by tauto; done.
Qed.

Lemma leb_num x y : F.leb x y = true -> num x /\ num y.
Proof.
  intros H. destruct (decide (num x)) as [Hx|Hx], (decide (num y)) as [Hy|Hy]; try done;
    rewrite nan_leb in H by tauto; done.
Qed.

Lemma ltb_trans x y z : F.ltb x y = true -> F.ltb y z = true -> F.ltb x z = true.
Proof. intros A B. pose proof (ltb_num _ _ A) as []. pose proof (ltb_num _ _ B) as []. float_order. Qed.

Lemma leb_trans x y z : F.leb x y = true -> F.leb y z = true -> F.leb x z = true.
Proof. intros A B. pose proof (leb_num _ _ A) as []. pose proof (leb_num _ _ B) as []. float_order. Qed.

Lemma ltb_leb x y : F.ltb x y = true -> F.leb y x = false.
Proof. intros A. pose proof (ltb_num _ _ A) as []. float_order. Qed.

Lemma leb_refl x : num x -> F.leb x x = true.
Proof. intros. float_order. Qed.

(** ** Rounding never gives NaN *)

Lemma shr_1_nonneg mrs : (0 <= shr_m mrs)%Z -> (0 <= shr_m (shr_1 mrs))%Z.
Proof. destruct mrs as [[|[p|p|]|p] r s]; cbn; lia. Qed.

Lemma shr_nonneg mrs e n : (0 <= shr_m mrs)%Z -> (0 <= shr_m (shr mrs e n).1)%Z.
Proof.
  intros H. destruct n as [|p|p]; cbn; [done| |done].
  revert mrs H. induction p as [p IH|p IH|]; intros mrs H; cbn; auto using shr_1_nonneg.
Qed.

Lemma shr_fexp_nonneg prec emax m e l : (0 <= m)%Z -> (0 <= shr_m (shr_fexp prec emax m e l).1)%Z.
Proof.
  intros H. unfold shr_fexp. apply shr_nonneg. destruct l as [|[]]; done.
Qed.

Lemma round_num sx m e l : (0 <= m)%Z -> num (binary_round_aux 53 1024 sx m e l).
Proof.
  intros H. unfold binary_round_aux.
  pose proof (shr_fexp_nonneg 53 1024 m e l H) as H1.
  destruct (shr_fexp 53 1024 m e l) as [mrs1 e1]. cbn [fst] in H1.
  assert (0 <= round_nearest_even (shr_m mrs1) (loc_of_shr_record mrs1))%Z as H2.
  { unfold round_nearest_even. destruct (loc_of_shr_record mrs1) as [|[]]; try destruct (Z.even _); lia. }
  pose proof (shr_fexp_nonneg 53 1024 _ e1 loc_Exact H2) as H3.
  destruct (shr_fexp 53 1024 _ e1 loc_Exact) as [mrs2 e2]. cbn [fst] in H3.
  destruct (shr_m mrs2); [done| |lia]. by destruct (_ <=? _)%Z.
Qed.

Lemma normalize_num m e s : num (binary_normalize 53 1024 m e s).
Proof.
  destruct m as [|m|m]; cbn [binary_normalize]; [done| |];
    unfold binary_round; destruct (shl_align _ _ _) as [mz ez]; by apply round_num.
Qed.

(** A difference of a finite number and a number is a number. *)
Lemma sub_num x y : num y -> (exists s, x = S754_zero s) \/ (exists s m e, x = S754_finite s m e) ->
  num (F.sub x y).
Proof.
  unfold F.sub. intros Hy [[s ->]|(s & m & e & ->)]; destruct y as [sy|sy| |sy my ey]; try done; cbn;
    try apply normalize_num; by destruct s, sy.
Qed.
Lemma of_Z_num z : num (F.of_Z z).
Proof. apply normalize_num. Qed.

(** * [sort.SliceStable] and [sort.Float64s]

    Sorting by an order as insertion sort, which is what these compute whenever
    the order is a strict weak order, and the lemmas that make the result
    depend on the elements alone. *)

Section Sort.
Context {A : Type} (less : A -> A -> bool).

(** Put [x] before the first element it does not follow. *)
Fixpoint insert_stable (x : A) (l : list A) : list A :=
  match l with
  | [] => [x]
  | y :: l' => if less y x then y :: insert_stable x l' else x :: l
  end.

Fixpoint SliceStable (l : list A) : list A :=
  match l with
  | [] => []
  | x :: l' => insert_stable x (SliceStable l')
  end.

Lemma insert_stable_perm x l : insert_stable x l ≡ₚ x :: l.
Proof.
  induction l as [|y l IH]; [done|]. cbn. destruct (less y x); [|done]. rewrite IH. constructor.
Qed.

Lemma SliceStable_perm l : SliceStable l ≡ₚ l.
Proof. induction l as [|x l IH]; [done|]. cbn. by rewrite insert_stable_perm, IH. Qed.

Lemma SliceStable_elem x l : x ∈ SliceStable l <-> x ∈ l.
Proof. by rewrite SliceStable_perm. Qed.

(** The order on the elements at hand: asymmetric, and "not less" is
    transitive. *)
Definition weak_order (P : A -> Prop) : Prop :=
  (forall x y, P x -> P y -> less x y = true -> less y x = false)
  /\ (forall x y z, P x -> P y -> P z -> less y x = false -> less z y = false -> less z x = false).

Lemma insert_stable_sorted P x l :
  weak_order P -> P x -> Forall P l ->
  StronglySorted (fun a b => less b a = false) l ->
  StronglySorted (fun a b => less b a = false) (insert_stable x l).
Proof.
  intros [As Tr] Hx Hl. induction l as [|y l IH]; cbn; intros S; [repeat constructor|].
  apply list.Forall_cons in Hl as [Hy Hl]. apply StronglySorted_inv in S as [S F].
  destruct (less y x) eqn:E.
  - constructor; [by apply IH|].
    rewrite insert_stable_perm. apply list.Forall_cons. split; [by apply As|done].
  - constructor; [by constructor|]. apply list.Forall_cons. split; [done|].
    rewrite !Forall_forall in *. intros z Hz. eapply Tr with y; eauto.
Qed.

Lemma SliceStable_sorted P l :
  weak_order P -> Forall P l -> StronglySorted (fun a b => less b a = false) (SliceStable l).
Proof.
  intros W. induction l as [|x l IH]; intros Hl; [constructor|].
  apply list.Forall_cons in Hl as [Hx Hl]. cbn. eapply insert_stable_sorted; eauto.
  by rewrite SliceStable_perm.
Qed.

(** Sorting is the same for every arrival order, when only equal elements are
    level with each other. *)
Lemma SliceStable_unique P l1 l2 :
  weak_order P -> Forall P l1 -> l1 ≡ₚ l2 ->
  (forall x y, x ∈ l1 -> y ∈ l1 -> less x y = false -> less y x = false -> x = y) ->
  SliceStable l1 = SliceStable l2.
Proof.
  intros W H1 Hp Heq. apply (StronglySorted_unique_strong (fun a b => less b a = false)).
  - intros x y Hx Hy. rewrite SliceStable_elem in Hx, Hy. rewrite <-Hp in Hy. intros Hxy Hyx. apply Heq; assumption.
  - by eapply SliceStable_sorted.
  - eapply SliceStable_sorted; [done|]. by rewrite <-Hp.
  - by rewrite !SliceStable_perm.
Qed.
End Sort.

(** [sort.Float64s]: NaN first, then in order. *)
Definition float_less (x y : float64) : bool := F.ltb x y || (F.is_nan x && negb (F.is_nan y)).
Definition Float64s (l : list float64) : list float64 := SliceStable float_less l.

Lemma float_less_weak : weak_order float_less (fun _ => True).
Proof.
  assert (forall x y, float_less x y = true <->
            (num x /\ num y /\ klt (key x) (key y)) \/ (~ num x /\ num y)) as L.
  { intros x y. unfold float_less, num.
    pose proof (ltb_key x y) as K. pose proof (nan_ltb x y) as N. unfold num in K, N.
    destruct (F.is_nan x), (F.is_nan y); cbn; rewrite ?orb_false_r, ?orb_true_r.
    - rewrite N by auto. naive_solver.
    - naive_solver.
    - rewrite N by auto. naive_solver.
    - rewrite K by done. naive_solver. }
  split.
  - intros x y _ _. rewrite <-not_true_iff_false, !L. unfold klt. intros [?|?] [?|?]; try tauto; lia.
  - intros x y z _ _ _. rewrite <-!not_true_iff_false, !L. intros A B C.
    destruct (decide (num x)), (decide (num y)), (decide (num z)); try tauto.
    assert (~ klt (key y) (key x) /\ ~ klt (key z) (key y) /\ klt (key z) (key x)) by tauto.
    unfold klt in *; lia.
Qed.
