(* ===== verification/GoJson.v ===== *)
(** * GoJson: JSON values and the texts of their numbers

    A JSON value as a tree. Between a text and its tree stand the classes [Json] and
    [JsonText]; what of a text matters here, the numbers in it, what follows a value
    and which strings have a text, is defined. *)

From Stdlib Require Import Ascii.
From S2P Require Import Prelude GoLib FleetNames.

(** ** Values *)

Inductive json :=
| JNull
| JBool (b : bool)
| JNumber (text : string)
| JString (s : string)
| JArray (l : list json)
| JObject (l : list (string * json)).

(** [json.Unmarshal] of a whole text. *)
Class Json := parse_json : string -> option json.

(** A decoder's next value and the text after it, and [json.Marshal]. *)
Class JsonText := { first_value : string -> option (json * string); print_json : json -> string }.

(** [Decoder.More]: not a space, and not the end of an array or an object. *)
Fixpoint More (rest : string) : bool :=
  match rest with
  | EmptyString => false
  | String a s =>
    if contains [" "; bytes [9]; bytes [10]; bytes [13]] (String a "") then More s
    else negb (contains ["]"; "}"] (String a ""))
  end.

(** Strings are written with each byte that starts no rune replaced. *)
Definition to_utf8 (s : string) : string := Join (runes s) "".

(** ** Numbers *)

(** The digits of a number, after [acc]. *)
Fixpoint digits_value (s : string) (acc : Z) : option Z :=
  match s with
  | EmptyString => Some acc
  | String a s => if is_digit a then digits_value s (acc * 10 + (Z.of_nat (nat_of_ascii a) - 48)) else None
  end.

(** [strconv.ParseInt] in base ten, of the text of a JSON number. *)
Definition parse_int (s : string) : option Z :=
  match s with
  | EmptyString => None
  | String a r =>
    if Ascii.eqb a (byte 45) then match r with EmptyString => None | _ => Z.opp <$> digits_value r 0 end
    else digits_value s 0
  end.

(** The grammar of a number. *)
Fixpoint drop_digits (s : string) : string :=
  match s with
  | String a r => if is_digit a then drop_digits r else s
  | EmptyString => ""
  end.
Definition some_digits (s : string) : option string :=
  match s with String a r => if is_digit a then Some (drop_digits r) else None | EmptyString => None end.
Definition whole_part (s : string) : option string :=
  match s with String a r => if Ascii.eqb a (byte 48) then Some r else some_digits s | EmptyString => None end.
Definition fraction (s : string) : option string :=
  match s with String a r => if Ascii.eqb a (byte 46) then some_digits r else Some s | EmptyString => Some s end.
Definition unsigned (s : string) : string :=
  match s with String a r => if contains ["+"; "-"] (String a "") then r else s | EmptyString => s end.
Definition exponent (s : string) : option string :=
  match s with
  | String a r => if contains ["e"; "E"] (String a "") then some_digits (unsigned r) else Some s
  | EmptyString => Some s
  end.
Definition valid_magnitude (s : string) : bool :=
  match whole_part s with
  | Some r => match fraction r with Some r => bool_decide (exponent r = Some "") | None => false end
  | None => false
  end.
Definition valid_number (s : string) : bool :=
  match s with String a r => valid_magnitude (if Ascii.eqb a (byte 45) then r else s) | EmptyString => false end.

(** A tree that is that of a text. *)
Fixpoint textual (j : json) : bool :=
  match j with
  | JNull | JBool _ => true
  | JNumber t => valid_number t
  | JString s => bool_decide (to_utf8 s = s)
  | JArray l => forallb textual l
  | JObject l => forallb (fun m => bool_decide (to_utf8 m.1 = m.1) && textual m.2) l
  end.

(** ** What is written of an integer is a number, and is read back *)

Lemma digit_value x : (x < 10)%N -> (Z.of_nat (nat_of_ascii (pretty_N_char x)) - 48 = Z.of_N x)%Z.
Proof. intros L. destruct x as [|p]; [done|]. do 4 (destruct p as [p|p|]; try reflexivity; try lia). Qed.

Lemma digits_value_go x s : digits_value (pretty_N_go x s) 0 = digits_value s (Z.of_N x).
Proof.
  revert s. induction (N.lt_wf_0 x) as [x _ IH]; intros s.
  assert (x = 0 \/ 0 < x)%N as [->|Hx] by lia; [by rewrite pretty_N_go_0|].
  rewrite pretty_N_go_step by done. rewrite IH by by apply N.div_lt.
  assert (x `mod` 10 < 10)%N as M by by apply N.mod_lt.
  cbn [digits_value]. rewrite digit_char, digit_value by done. f_equal.
  pose proof (N.div_mod x 10 ltac:(done)). lia.
Qed.

Lemma digits_value_utoa n : digits_value (utoa n) 0 = Some (Z.of_N n).
Proof.
  unfold utoa, pretty, pretty_N. case_decide as E; [by subst|]. by rewrite digits_value_go.
Qed.

Lemma parse_int_itoa z : parse_int (itoa z) = Some z.
Proof.
  destruct z as [|p|p]; [done| |].
  - change (itoa (Z.pos p)) with (utoa (N.pos p)). unfold parse_int.
    pose proof (digits_value_utoa (N.pos p)) as D. pose proof (utoa_digits (N.pos p)) as A.
    pose proof (utoa_nonempty (N.pos p)) as Ne. destruct (utoa (N.pos p)) as [|a r]; [done|].
    destruct (Ascii.eqb_spec a (byte 45)) as [->|_]; [done|exact D].
  - change (itoa (Z.neg p)) with (String (byte 45) (utoa (N.pos p))). unfold parse_int. cbn [Ascii.eqb].
    pose proof (digits_value_utoa (N.pos p)) as D. pose proof (utoa_nonempty (N.pos p)) as Ne.
    destruct (utoa (N.pos p)) as [|a r]; [done|]. cbn -[digits_value] in *. by rewrite D.
Qed.

Lemma drop_digits_all s : all_digits s = true -> drop_digits s = "".
Proof. induction s as [|a s IH]; cbn; [done|]. intros [-> D]%andb_true_iff. by apply IH. Qed.

(** A positive number begins with a digit that is not nought. *)
Lemma leading_digit x s : (0 < x)%N -> exists d r, pretty_N_go x s = String (pretty_N_char d) r /\ (0 < d < 10)%N.
Proof.
  revert s. induction (N.lt_wf_0 x) as [x _ IH]; intros s Hx. rewrite pretty_N_go_step by done.
  destruct (decide (x `div` 10 = 0)%N) as [D|D].
  - rewrite D, pretty_N_go_0. exists (x `mod` 10)%N, s. split; [done|].
    assert (x `mod` 10 < 10)%N by by apply N.mod_lt. pose proof (N.div_mod x 10 ltac:(done)) as X. rewrite D in X. split; [|done].
    destruct (x `mod` 10)%N; lia.
  - apply IH; [by apply N.div_lt|by apply N.neq_0_lt_0].
Qed.

Lemma digit_not_nought d : (0 < d < 10)%N -> Ascii.eqb (pretty_N_char d) (byte 48) = false.
Proof. intros L. destruct d as [|p]; [lia|]. do 4 (destruct p as [p|p|]; try reflexivity; try lia). Qed.

Lemma whole_utoa n : whole_part (utoa n) = Some "".
Proof.
  destruct (decide (n = 0)%N) as [->|N]; [done|]. pose proof (utoa_digits n) as A.
  unfold utoa, pretty, pretty_N in *. rewrite decide_False in * by done.
  destruct (leading_digit n "") as (d & r & E & L); [lia|]. rewrite E in *. cbn in A. rewrite digit_char in A.
  unfold whole_part, some_digits. by rewrite digit_not_nought, digit_char, drop_digits_all.
Qed.

Lemma valid_itoa z : valid_number (itoa z) = true.
Proof.
  assert (forall n, valid_magnitude (utoa n) = true) as W.
  { intros n. unfold valid_magnitude. by rewrite whole_utoa. }
  destruct z as [|p|p]; [done| |].
  - change (itoa (Z.pos p)) with (utoa (N.pos p)). unfold valid_number. specialize (W (N.pos p)).
    pose proof (utoa_digits (N.pos p)) as A. destruct (utoa (N.pos p)) as [|a r]; [done|].
    destruct (Ascii.eqb_spec a (byte 45)) as [->|_]; [done|exact W].
  - change (itoa (Z.neg p)) with (String (byte 45) (utoa (N.pos p))). exact (W (N.pos p)).
Qed.

(** ** ASCII is its own encoding *)

Fixpoint all_ascii (s : string) : bool :=
  match s with EmptyString => true | String a s => (nat_of_ascii a <? 128)%nat && all_ascii s end.

Lemma Join_cons x l : Join (x :: l) "" = x +:+ Join l "".
Proof.
  destruct l; [|done]. change (x = x +:+ ""). induction x as [|a x IH]; [done|].
  change (String a x = String a (x +:+ "")). by rewrite <- IH.
Qed.

Lemma ascii_utf8 s : all_ascii s = true -> to_utf8 s = s.
Proof.
  unfold to_utf8, runes. induction s as [|a s IH]; [done|]. cbn [all_ascii]. intros [A S]%andb_true_iff.
  change (len (String a s)) with (Datatypes.S (len s)). cbn [runes_from String.list_ascii_of_string fmap list_fmap rune_len].
  rewrite A. replace (drop_bytes 1 (String a s)) with s by (symmetry; unfold drop_bytes; cbn; rewrite Nat.sub_0_r; apply substring_all). rewrite Join_cons, IH by done. by destruct s.
Qed.

Lemma digits_ascii s : all_digits s = true -> all_ascii s = true.
Proof.
  induction s as [|a s IH]; [done|]. cbn. intros [D S]%andb_true_iff. rewrite IH by done.
  unfold is_digit in D. rewrite andb_true_r. apply Nat.leb_le.
  apply andb_true_iff in D as [_ D]. apply Nat.leb_le in D. lia.
Qed.

Lemma itoa_utf8 z : to_utf8 (itoa z) = itoa z.
Proof.
  apply ascii_utf8. destruct z as [|p|p]; [done| |].
  - apply digits_ascii, (utoa_digits (N.pos p)).
  - change (all_ascii (String (byte 45) (utoa (N.pos p))) = true). cbn [all_ascii]. rewrite digits_ascii by apply utoa_digits. done.
Qed.
