(* ===== verification/GoStruct.v ===== *)
(** * GoStruct: structs as [encoding/json] reads and writes them

    For a struct given by its fields, with their names and whether an empty one is
    left out, what [json.Marshal] makes of it and what a decoder makes of a value,
    one that refuses unknown fields or one that does not; and that the second undoes
    the first. *)

From Stdlib Require Import Ascii.
From S2P Require Import Prelude GoLib GoFloat GoJson.

(** ** Codecs *)

(** What a decoder remembers of the first thing it could not use. *)
Inductive json_problem := UnknownMember (name : string) | BadValue.
Definition earlier (p q : option json_problem) : option json_problem := match p with Some _ => p | None => q end.

(** How a Go value is written, [None] when it cannot be; how one is read onto what
    is there; when [omitempty] leaves it out; and which values come back as they
    were. *)
Record codec (T : Type) := MkCodec {
  c_zero : T; c_out : T -> option json; c_in : json -> T -> T * option json_problem;
  c_empty : T -> bool; c_plain : T -> Prop }.
Arguments c_zero {T} _ : assert.
Arguments c_out {T} _ _ : assert.
Arguments c_in {T} _ _ _ : assert.
Arguments c_empty {T} _ _ : assert.
Arguments c_plain {T} _ _ : assert.
Arguments MkCodec {T} _ _ _ _ _ : assert.

Definition text : codec string := MkCodec ""
  (fun s => Some (JString (to_utf8 s)))
  (fun j s => match j with JNull => (s, None) | JString t => (t, None) | _ => (s, Some BadValue) end)
  (fun s => bool_decide (s = "")) (fun s => to_utf8 s = s).

Definition boolean : codec bool := MkCodec false
  (fun b => Some (JBool b))
  (fun j b => match j with JNull => (b, None) | JBool b => (b, None) | _ => (b, Some BadValue) end)
  negb (fun _ => True).

(** An integer type and its bounds. *)
Definition integer (lo hi : Z) : codec Z := MkCodec 0%Z
  (fun z => Some (JNumber (itoa z)))
  (fun j z => match j with
              | JNull => (z, None)
              | JNumber t => match parse_int t with
                             | Some n => if (lo <=? n)%Z && (n <=? hi)%Z then (n, None) else (z, Some BadValue)
                             | None => (z, Some BadValue)
                             end
              | _ => (z, Some BadValue)
              end)
  (fun z => bool_decide (z = 0%Z)) (fun z => lo <= z <= hi)%Z.
Definition int64 : codec Z := integer min_int64 max_int64.
Definition uint64 : codec Z := integer 0 (2 ^ 64 - 1).
Definition uint16 : codec Z := integer 0 (2 ^ 16 - 1).

(** A float64 in its shortest form, and [strconv.ParseFloat]. *)
Class FloatText := { float_text : float64 -> string; text_float : string -> option float64 }.

Definition finite (x : float64) : bool :=
  match x with SpecFloat.S754_zero _ | SpecFloat.S754_finite _ _ _ => true | _ => false end.

Definition number `{FloatText} : codec float64 := MkCodec F.zero
  (fun x => if finite x then Some (JNumber (float_text x)) else None)
  (fun j x => match j with
              | JNull => (x, None)
              | JNumber t => match text_float t with Some y => (y, None) | None => (x, Some BadValue) end
              | _ => (x, Some BadValue)
              end)
  (fun x => F.eqb x F.zero)
  (fun x => finite x = true /\ text_float (float_text x) = Some x /\ valid_number (float_text x) = true).

(** Bytes in base 64; nil ones are [None]. *)
Class Base64 := { to_base64 : string -> string; of_base64 : string -> option string }.

Definition base64 `{Base64} : codec (option string) := MkCodec None
  (fun o => Some (match o with None => JNull | Some s => JString (to_base64 s) end))
  (fun j o => match j with
              | JNull => (None, None)
              | JString t => match of_base64 t with Some s => (Some s, None) | None => (o, Some BadValue) end
              | _ => (o, Some BadValue)
              end)
  (fun o => match o with None | Some "" => true | _ => false end)
  (fun o => match o with
            | None => True
            | Some s => of_base64 (to_base64 s) = Some s /\ to_utf8 (to_base64 s) = to_base64 s
            end).

(** A time in RFC 3339, [omitzero] rather than [omitempty]. *)
Class TimeText := { time_text : Time -> option string; text_time : string -> option Time }.

Definition timestamp `{TimeText} : codec Time := MkCodec 0%Z
  (fun t => JString <$> time_text t)
  (fun j t => match j with
              | JNull => (t, None)
              | JString s => match text_time s with Some u => (u, None) | None => (t, Some BadValue) end
              | _ => (t, Some BadValue)
              end)
  IsZero (fun t => exists s, time_text t = Some s /\ text_time s = Some t /\ to_utf8 s = s).

(** A map from strings to strings, by its keys in their order; a nil one is
    [None]. *)
Definition put_string (st : gmap string string * option json_problem) (m : string * json)
    : gmap string string * option json_problem :=
  let r := c_in text m.2 "" in (<[m.1 := r.1]> st.1, earlier st.2 r.2).

Definition string_map : codec (option (gmap string string)) := MkCodec None
  (fun o => match o with
            | None => Some JNull
            | Some m => Some (JObject ((fun k => (to_utf8 k, JString (to_utf8 (default "" (m !! k)))))
                                         <$> SliceStable String.ltb (elements (dom m))))
            end)
  (fun j o => match j with
              | JNull => (None, None)
              | JObject l => let r := foldl put_string (default ∅ o, None) l in (Some r.1, r.2)
              | _ => (o, Some BadValue)
              end)
  (fun o => match o with None => true | Some m => bool_decide (m = ∅) end)
  (fun o => match o with None => True | Some m => map_Forall (fun k v => to_utf8 k = k /\ to_utf8 v = v) m end).

(** [json.RawMessage]; a nil one is [None]. *)
Definition raw : codec (option json) := MkCodec None
  (fun o => Some (default JNull o)) (fun j _ => (Some j, None)) (fun o => match o with None => true | Some _ => false end)
  (fun o => match o with None => False | Some j => textual j = true end).

(** A pointer. *)
Definition pointer {T} (c : codec T) : codec (option T) := MkCodec None
  (fun o => match o with None => Some JNull | Some v => c_out c v end)
  (fun j o => match j with
              | JNull => (None, None)
              | _ => let r := c_in c j (default (c_zero c) o) in (Some r.1, r.2)
              end)
  (fun o => match o with None => true | Some _ => false end)
  (fun o => match o with None => True | Some v => c_plain c v /\ c_out c v <> Some JNull end).

(** A slice; a nil one is [None]. *)
Fixpoint read_all {T} (c : codec T) (l : list json) : list T * option json_problem :=
  match l with
  | [] => ([], None)
  | j :: l => let r := c_in c j (c_zero c) in let rs := read_all c l in (r.1 :: rs.1, earlier r.2 rs.2)
  end.

Definition slice {T} (c : codec T) : codec (option (list T)) := MkCodec None
  (fun o => match o with None => Some JNull | Some l => JArray <$> mapM (c_out c) l end)
  (fun j o => match j with
              | JNull => (None, None)
              | JArray l => let r := read_all c l in (Some r.1, r.2)
              | _ => (o, Some BadValue)
              end)
  (fun o => match o with None | Some [] => true | _ => false end)
  (fun o => match o with None => True | Some l => Forall (c_plain c) l end).

(** A slice whose nil and empty values are not told apart, for a field with
    [omitempty]. *)
Definition listed {T} (c : codec T) : codec (list T) := MkCodec []
  (fun l => JArray <$> mapM (c_out c) l)
  (fun j l => match j with JNull => ([], None) | JArray js => read_all c js | _ => (l, Some BadValue) end)
  (fun l => match l with [] => true | _ => false end) (Forall (c_plain c)).

(** ** Structs *)

Record field (B : Type) := MkField {
  fd_type : Type; fd_codec : codec fd_type; fd_name : string; fd_omit : bool;
  fd_get : B -> fd_type; fd_upd : (fd_type -> fd_type) -> B -> B }.
Arguments fd_type {B} _ : assert.
Arguments fd_codec {B} _ : assert.
Arguments fd_name {B} _ : assert.
Arguments fd_omit {B} _ : assert.
Arguments fd_get {B} _ _ : assert.
Arguments fd_upd {B} _ _ _ : assert.
Arguments MkField {B} _ _ _ _ _ _ : assert.

(** A field that is always there, and one left out when it is empty. *)
Definition must {B T} (name : string) (c : codec T) (get : B -> T) `{!Setter get} : field B :=
  MkField T c name false get (upd get).
Definition may {B T} (name : string) (c : codec T) (get : B -> T) `{!Setter get} : field B :=
  MkField T c name true get (upd get).

Fixpoint struct_out {B} (fs : list (field B)) (b : B) : option (list (string * json)) :=
  match fs with
  | [] => Some []
  | f :: fs =>
    if fd_omit f && c_empty (fd_codec f) (fd_get f b) then struct_out fs b
    else match c_out (fd_codec f) (fd_get f b), struct_out fs b with
         | Some j, Some l => Some ((fd_name f, j) :: l)
         | _, _ => None
         end
  end.

(** The folded form of a member's name: upper case, and the two runes past ASCII
    that fold to a letter. *)
Definition fold_rune (r : string) : string :=
  if decide (r = bytes [226; 132; 170]) then "k" else if decide (r = bytes [197; 191]) then "s" else r.
Definition fold_name (s : string) : string := ascii_lower (Join (fold_rune <$> runes s) "").

(** The field a member is for: of that name, or else the first whose name is the
    same but for case. *)
Definition find_field {B} (fs : list (field B)) (key : string) : option (field B) :=
  match List.find (fun f => bool_decide (fd_name f = key)) fs with
  | Some f => Some f
  | None => List.find (fun f => bool_decide (fold_name (fd_name f) = fold_name key)) fs
  end.

Definition put_field {B} (f : field B) (j : json) (st : B * option json_problem) : B * option json_problem :=
  let r := c_in (fd_codec f) j (fd_get f st.1) in (fd_upd f (fun _ => r.1) st.1, earlier st.2 r.2).

Definition struct_member_in {B} (fs : list (field B)) (st : B * option json_problem) (m : string * json)
    : B * option json_problem :=
  match find_field fs m.1 with
  | Some f => put_field f m.2 st
  | None => (st.1, earlier st.2 (Some (UnknownMember m.1)))
  end.

Definition struct {B} (z : B) (fs : list (field B)) : codec B := MkCodec z
  (fun b => JObject <$> struct_out fs b)
  (fun j b => match j with
              | JNull => (b, None)
              | JObject l => foldl (struct_member_in fs) (b, None) l
              | _ => (b, Some BadValue)
              end)
  (fun _ => false)
  (fun b => Forall (fun f => if fd_omit f && c_empty (fd_codec f) (fd_get f b)
                             then fd_get f b = c_zero (fd_codec f) else c_plain (fd_codec f) (fd_get f b)) fs).

(** [encoding/json] without [DisallowUnknownFields]: a member of no field is left. *)
Definition loose_member {B} (fs : list (field B)) (st : B * option json_problem) (m : string * json) : B * option json_problem :=
  match find_field fs m.1 with Some f => put_field f m.2 st | None => st end.
Definition loose {B} (z : B) (fs : list (field B)) : codec B := MkCodec z
  (c_out (struct z fs))
  (fun j b => match j with
              | JNull => (b, None)
              | JObject l => foldl (loose_member fs) (b, None) l
              | _ => (b, Some BadValue)
              end)
  (c_empty (struct z fs)) (c_plain (struct z fs)).

(** [json.Unmarshal] of a value that has been parsed. *)
Definition unmarshal {T} (c : codec T) (j : json) : option T :=
  let r := c_in c j (c_zero c) in match r.2 with None => Some r.1 | Some _ => None end.

(** ** Laws *)

(** What is written of a plain value is a text, and comes back. *)
Class Lawful {T} (c : codec T) :=
  out_in v : c_plain c v -> exists j, c_out c v = Some j /\ textual j = true /\ c_in c j (c_zero c) = (v, None).

#[export] Instance text_lawful : Lawful text.
Proof. intros v P. exists (JString (to_utf8 v)). cbn in *. by rewrite !P, bool_decide_true. Qed.

#[export] Instance boolean_lawful : Lawful boolean.
Proof. intros v _. by eexists. Qed.

#[export] Instance integer_lawful lo hi : Lawful (integer lo hi).
Proof.
  intros v [L H]. exists (JNumber (itoa v)). split_and!; [done|apply valid_itoa|]. cbn.
  rewrite parse_int_itoa. by rewrite (proj2 (Z.leb_le _ _) L), (proj2 (Z.leb_le _ _) H).
Qed.

#[export] Instance number_lawful `{FloatText} : Lawful number.
Proof. intros v (F & R & V). exists (JNumber (float_text v)). cbn. by rewrite F, R, V. Qed.

#[export] Instance base64_lawful `{Base64} : Lawful base64.
Proof.
  intros [s|] P; [|by exists JNull]. destruct P as [R U]. exists (JString (to_base64 s)). cbn.
  by rewrite R, U, bool_decide_true.
Qed.

#[export] Instance timestamp_lawful `{TimeText} : Lawful timestamp.
Proof.
  intros t (s & T & R & U). exists (JString s). cbn. by rewrite T, R, U, bool_decide_true.
Qed.

Lemma put_strings (m : gmap string string) ks acc :
  map_Forall (fun k v => to_utf8 k = k /\ to_utf8 v = v) m -> (forall k, k ∈ ks -> is_Some (m !! k)) ->
  exists m', foldl put_string (acc, None) ((fun k => (to_utf8 k, JString (to_utf8 (default "" (m !! k))))) <$> ks) = (m', None)
    /\ forall k, m' !! k = if decide (k ∈ ks) then m !! k else acc !! k.
Proof.
  intros P. revert acc. induction ks as [|k ks IH]; intros acc K.
  - exists acc. split; [done|]. intros k. rewrite decide_False; [done|apply not_elem_of_nil].
  - destruct (K k) as [v V]; [by left|]. destruct (P k v V) as [Pk Pv].
    destruct (IH (<[k:=v]> acc)) as (m' & F & L); [intros x X; apply K; by right|].
    exists m'. split.
    + cbn [foldl fmap list_fmap]. rewrite V. change (default "" (Some v)) with v.
      unfold put_string at 2. cbn [fst snd text c_in]. by rewrite Pk, Pv.
    + intros x. rewrite L. destruct (decide (x ∈ ks)) as [I|I]; [by rewrite decide_True by by right|].
      destruct (decide (x = k)) as [->|N].
      * rewrite decide_True by by left. by rewrite lookup_insert_eq.
      * rewrite decide_False; [by apply lookup_insert_ne|]. rewrite elem_of_cons. naive_solver.
Qed.

#[export] Instance string_map_lawful : Lawful string_map.
Proof.
  intros [m|] P; [|by exists JNull]. eexists. split_and!; [done| |].
  - cbn. apply forallb_forall. intros x (k & <- & I)%in_map_iff. apply list_elem_of_In in I.
    rewrite SliceStable_elem, elem_of_elements, elem_of_dom in I. destruct I as [v V]. destruct (P k v V) as [Pk Pv].
    cbn [textual fst snd]. rewrite V. change (default "" (Some v)) with v. by rewrite Pk, !Pv, !bool_decide_true.
  - cbn. destruct (put_strings m (SliceStable String.ltb (elements (dom m))) ∅ P) as (m' & F & L).
    + intros k I. by rewrite SliceStable_elem, elem_of_elements, elem_of_dom in I.
    + cbn in F. rewrite F. cbn. do 2 f_equal. apply map_eq. intros k. rewrite L.
      destruct (decide _) as [I|I]; [done|]. rewrite SliceStable_elem, elem_of_elements in I.
      by rewrite lookup_empty, (proj1 (not_elem_of_dom m k)).
Qed.

#[export] Instance raw_lawful : Lawful raw.
Proof. intros [j|] P; [|done]. by exists j. Qed.

#[export] Instance pointer_lawful {T} (c : codec T) : Lawful c -> Lawful (pointer c).
Proof.
  intros L [v|]; [|intros _; by exists JNull]. intros [P N].
  destruct (L v P) as (j & O & X & I). exists j. split_and!; [done|done|]. cbn. destruct j; [by rewrite O in N|..]; by rewrite I.
Qed.

Lemma read_all_written {T} (c : codec T) l : Lawful c -> Forall (c_plain c) l ->
  exists js, mapM (c_out c) l = Some js /\ forallb textual js = true /\ read_all c js = (l, None).
Proof.
  intros L P. induction P as [|v l P _ (js & O & X & I)]; [by exists []|].
  destruct (L v P) as (j & Oj & Xj & Ij). exists (j :: js). cbn. by rewrite Oj, O, Xj, X, Ij, I.
Qed.

#[export] Instance slice_lawful {T} (c : codec T) : Lawful c -> Lawful (slice c).
Proof.
  intros L [l|] P; [|by exists JNull].
  destruct (read_all_written c l L P) as (js & O & X & I). exists (JArray js). cbn. by rewrite O, I.
Qed.

#[export] Instance listed_lawful {T} (c : codec T) : Lawful c -> Lawful (listed c).
Proof.
  intros L l P. destruct (read_all_written c l L P) as (js & O & X & I). exists (JArray js). cbn. by rewrite O, I.
Qed.

(** *** Structs *)

(** A property of each field, and one of each two. *)
Fixpoint each {B} (P : field B -> Prop) (fs : list (field B)) : Prop :=
  match fs with [] => True | f :: fs => P f /\ each P fs end.
Fixpoint each_two {B} (P : field B -> field B -> Prop) (fs : list (field B)) : Prop :=
  match fs with [] => True | f :: fs => each (fun g => P f g /\ P g f) fs /\ each_two P fs end.

Lemma each_in {B} (P : field B -> Prop) fs : each P fs <-> forall f, f ∈ fs -> P f.
Proof.
  induction fs as [|f fs IH]; cbn.
  - split; [|done]. intros _ f I. by apply elem_of_nil in I.
  - rewrite IH. split.
    + intros [Pf Ps] g [-> |I]%elem_of_cons; auto.
    + intros A. split; [apply A; by left|]. intros g I. apply A. by right.
Qed.

Lemma each_two_in {B} (P : field B -> field B -> Prop) fs f g :
  each_two P fs -> f ∈ fs -> g ∈ fs -> fd_name f <> fd_name g -> P f g.
Proof.
  intros E F G N. induction fs as [|x fs IH]; [by apply elem_of_nil in F|]. destruct E as [X E]. rewrite each_in in X.
  apply elem_of_cons in F as [-> |F]; apply elem_of_cons in G as [-> |G]; [done|by apply X|by apply X|by apply IH].
Qed.

(** The fields of a struct are its parts: names differ, each is set on its own, and
    together they are the value. *)
Class LawfulStruct {B} (z : B) (fs : list (field B)) := {
  ls_codecs : each (fun f => Lawful (fd_codec f)) fs;
  ls_text : each (fun f => to_utf8 (fd_name f) = fd_name f) fs;
  ls_names : NoDup (fd_name <$> fs);
  ls_zero : each (fun f => fd_get f z = c_zero (fd_codec f)) fs;
  ls_same : each (fun f => forall h b, fd_get f (fd_upd f h b) = h (fd_get f b)) fs;
  ls_other : each_two (fun f g => forall h b, fd_get g (fd_upd f h b) = fd_get g b) fs;
  ls_ext b b' : each (fun f => fd_get f b = fd_get f b') fs -> b = b' }.

Lemma find_own {B} (fs : list (field B)) f : NoDup (fd_name <$> fs) -> f ∈ fs -> find_field fs (fd_name f) = Some f.
Proof.
  intros N I. unfold find_field.
  assert (List.find (fun g => bool_decide (fd_name g = fd_name f)) fs = Some f) as ->; [|done].
  induction fs as [|g fs IH]; [by apply elem_of_nil in I|]. cbn in N. apply list.NoDup_cons in N as [Ng N]. cbn.
  case_bool_decide as E.
  - apply elem_of_cons in I as [->|I]; [done|]. exfalso. apply Ng. rewrite E. by apply list_elem_of_fmap_2.
  - apply elem_of_cons in I as [->|I]; [done|by apply IH].
Qed.

Lemma same_field {B} (fs : list (field B)) f g : NoDup (fd_name <$> fs) -> f ∈ fs -> g ∈ fs -> fd_name f = fd_name g -> f = g.
Proof.
  intros N F G E. pose proof (find_own fs f N F) as X. rewrite E, (find_own fs g N G) in X. congruence.
Qed.

(** Reading what was written of [b], field after field, onto [acc]: it is [b] in
    the fields before and still empty in the rest. *)
Definition half_read {B} (z b : B) (all fs : list (field B)) (acc : B) : Prop :=
  forall f, f ∈ all -> fd_get f acc = fd_get f (if decide (fd_name f ∈ fd_name <$> fs) then z else b).

Lemma half_skip {B} (z b : B) all f fs acc :
  LawfulStruct z all -> f ∈ all -> fd_get f b = fd_get f z ->
  half_read z b all (f :: fs) acc -> half_read z b all fs acc.
Proof.
  intros L F E H g G. rewrite (H g G). destruct (decide (fd_name g ∈ fd_name <$> fs)) as [I|I].
  - rewrite decide_True; [done|]. by right.
  - destruct (decide (fd_name g ∈ fd_name <$> f :: fs)) as [[X|X]%elem_of_cons|]; [|done|done].
    by rewrite (same_field all g f (ls_names (LawfulStruct := L)) G F X).
Qed.

Lemma half_put {B} (z b : B) all f fs acc :
  LawfulStruct z all -> f ∈ all -> fd_name f ∉ fd_name <$> fs ->
  half_read z b all (f :: fs) acc -> half_read z b all fs (fd_upd f (fun _ => fd_get f b) acc).
Proof.
  intros L F N H g G. destruct (decide (fd_name f = fd_name g)) as [E|E].
  - rewrite <-(same_field all f g (ls_names (LawfulStruct := L)) F G E).
    rewrite decide_False by done. pose proof (ls_same (LawfulStruct := L)) as S.
    rewrite each_in in S. by apply S.
  - pose proof (each_two_in _ _ f g (ls_other (LawfulStruct := L)) F G E) as O. rewrite O, (H g G).
    destruct (decide (fd_name g ∈ fd_name <$> fs)) as [I|I].
    + rewrite decide_True; [done|]. by right.
    + rewrite decide_False; [done|]. cbn. rewrite elem_of_cons. intros [X|X]; [by apply E|done].
Qed.

Lemma struct_in_written {B} (z b : B) (all fs : list (field B)) acc :
  LawfulStruct z all -> (forall f, f ∈ fs -> f ∈ all) -> NoDup (fd_name <$> fs) ->
  Forall (fun f => if fd_omit f && c_empty (fd_codec f) (fd_get f b)
                   then fd_get f b = c_zero (fd_codec f) else c_plain (fd_codec f) (fd_get f b)) fs ->
  half_read z b all fs acc ->
  exists l b', struct_out fs b = Some l /\ textual (JObject l) = true
    /\ foldl (struct_member_in all) (acc, None) l = (b', None) /\ half_read z b all [] b'.
Proof.
  intros L. revert acc. induction fs as [|f fs IH]; intros acc Sub N P H; [by exists [], acc|].
  cbn in N. apply list.NoDup_cons in N as [Nf N]. apply list.Forall_cons in P as [Pf P].
  assert (f ∈ all) as F by (apply Sub; by left).
  assert (fd_get f z = c_zero (fd_codec f)) as Z.
  { pose proof (ls_zero (LawfulStruct := L)) as Z. rewrite each_in in Z. by apply Z. }
  assert (forall g, g ∈ fs -> g ∈ all) as Sub' by (intros g G; apply Sub; by right).
  cbn [struct_out]. destruct (fd_omit f && c_empty (fd_codec f) (fd_get f b)).
  - apply IH; [done..|]. eapply half_skip; try done. congruence.
  - assert (Lawful (fd_codec f)) as La.
    { pose proof (ls_codecs (LawfulStruct := L)) as C. rewrite each_in in C. by apply C. }
    destruct (La _ Pf) as (j & O & X & I). rewrite O.
    destruct (IH (fd_upd f (fun _ => fd_get f b) acc)) as (l & b' & Ol & Xl & Fl & Hl); [done..|by eapply half_put|].
    rewrite Ol. exists ((fd_name f, j) :: l), b'. split_and!; [done| | |done].
    + cbn in *. rewrite X, Xl, bool_decide_true; [done|].
      pose proof (ls_text (LawfulStruct := L)) as T. rewrite each_in in T. by apply T.
    + cbn [foldl]. unfold struct_member_in at 2. cbn [fst snd]. rewrite find_own; [|apply L|done].
      unfold put_field. cbn [fst snd]. rewrite (H f F). rewrite decide_True by by left. by rewrite Z, I.
Qed.

#[export] Instance struct_lawful {B} (z : B) (fs : list (field B)) : LawfulStruct z fs -> Lawful (struct z fs).
Proof.
  intros L b P. destruct (struct_in_written z b fs fs z L) as (l & b' & O & X & I & H); [done|apply L|exact P| |].
  - intros f F. rewrite decide_True; [done|]. by apply list_elem_of_fmap_2.
  - exists (JObject l). cbn [struct c_out c_in c_zero]. rewrite O, I. split_and!; [done|done|]. f_equal.
    apply (ls_ext (LawfulStruct := L)). apply each_in. intros f F. rewrite (H f F). by rewrite decide_False by by apply not_elem_of_nil.
Qed.

(** Nothing but the fields of a struct is in a value that is read without a
    problem. *)
Lemma earlier_none p q : earlier p q = None -> p = None /\ q = None.
Proof. by destruct p. Qed.

Lemma members_are_fields {B} (fs : list (field B)) l st b :
  foldl (struct_member_in fs) st l = (b, None) -> st.2 = None /\ Forall (fun m => is_Some (find_field fs m.1)) l.
Proof.
  revert st. induction l as [|m l IH]; intros st; cbn; [by intros ->|]. intros E. apply IH in E as [E A].
  unfold struct_member_in in E. destruct (find_field fs m.1) as [f|] eqn:F.
  - apply earlier_none in E as [E _]. split; [done|]. constructor; [by rewrite F|done].
  - by apply earlier_none in E as [_ E].
Qed.

(** A decoder that leaves unknown members reads what one that refuses them reads. *)
Lemma loose_as_strict {B} (fs : list (field B)) l st b :
  foldl (struct_member_in fs) st l = (b, None) -> foldl (loose_member fs) st l = (b, None).
Proof.
  revert st. induction l as [|m l IH]; intros st; [done|]. cbn. intros E. pose proof (members_are_fields fs (m :: l) st b E) as [_ F].
  apply list.Forall_cons in F as [[f F] _]. specialize (IH _ E). unfold struct_member_in in IH. unfold loose_member at 2. by rewrite F in *.
Qed.

#[export] Instance loose_lawful {B} (z : B) (fs : list (field B)) : LawfulStruct z fs -> Lawful (loose z fs).
Proof.
  intros L b P. destruct (out_in (c := struct z fs) b P) as (j & O & X & I). exists j. split_and!; [done|done|].
  cbn in O. destruct (struct_out fs b) as [l|]; [|done]. injection O as <-. by apply loose_as_strict.
Qed.

(** A value that is read from what was written of it. *)
Lemma unmarshal_written {T} (c : codec T) `{!Lawful c} v : c_plain c v -> exists j, c_out c v = Some j /\ unmarshal c j = Some v.
Proof. intros P. destruct (out_in (c := c) v P) as (j & O & _ & I). exists j. unfold unmarshal. by rewrite I. Qed.

(** *** Proving the laws of a given struct *)

Ltac lawful_struct :=
  split;
  [ cbn; repeat (first [exact I | split; [apply _|]])
  | vm_compute; repeat (first [exact I | split; [reflexivity|]])
  | apply (bool_decide_eq_true_1 _); vm_compute; reflexivity
  | cbn; repeat (first [exact I | split; [reflexivity|]])
  | cbn; repeat (first [exact I | split; [reflexivity|]])
  | cbn; repeat (first [exact I | reflexivity | split])
  | let H := fresh in intros [] [] H; cbn in H; repeat (destruct H as [? H]); subst; reflexivity ].
