(* ===== verification/WireRequests.v ===== *)
(** * WireRequests: what a client may send to the broker

    The request bodies of [internal/broker/wire*.go], with the names and the options of
    their fields, and [Request], which has a place for each. *)

From S2P Require Import Prelude GoLib GoJson GoStruct.

Record SpawnRequest := MkSpawnRequest { sp_Provider : string; sp_Mode : string; sp_Model : string;
  sp_Intent : string; sp_WorkDir : string }.
#[export] Instance eta_SpawnRequest : Eta SpawnRequest := fun r =>
  MkSpawnRequest (sp_Provider r) (sp_Mode r) (sp_Model r) (sp_Intent r) (sp_WorkDir r).
#[export] Hint Extern 1 (@Setter SpawnRequest _ _) => setter_of eta_SpawnRequest : typeclass_instances.
Definition new_SpawnRequest : SpawnRequest := MkSpawnRequest "" "" "" "" "".

Record ReleaseRequest := MkReleaseRequest { rel_SessionID : string; rel_Name : string;
  rel_Disposition : string; rel_KeepAliveSeconds : Z; rel_Force : bool; rel_Discard : bool }.
#[export] Instance eta_ReleaseRequest : Eta ReleaseRequest := fun r =>
  MkReleaseRequest (rel_SessionID r) (rel_Name r) (rel_Disposition r) (rel_KeepAliveSeconds r) (rel_Force r)
    (rel_Discard r).
#[export] Hint Extern 1 (@Setter ReleaseRequest _ _) => setter_of eta_ReleaseRequest : typeclass_instances.
Definition new_ReleaseRequest : ReleaseRequest := MkReleaseRequest "" "" "" 0%Z false false.

Record UsageRequest := MkUsageRequest { us_Refresh : bool }.
#[export] Instance eta_UsageRequest : Eta UsageRequest := fun r =>
  MkUsageRequest (us_Refresh r).
#[export] Hint Extern 1 (@Setter UsageRequest _ _) => setter_of eta_UsageRequest : typeclass_instances.
Definition new_UsageRequest : UsageRequest := MkUsageRequest false.

Record ResolveRequest := MkResolveRequest { rv_Predicates : option json }.
#[export] Instance eta_ResolveRequest : Eta ResolveRequest := fun r =>
  MkResolveRequest (rv_Predicates r).
#[export] Hint Extern 1 (@Setter ResolveRequest _ _) => setter_of eta_ResolveRequest : typeclass_instances.
Definition new_ResolveRequest : ResolveRequest := MkResolveRequest None.

Record JudgeRequest := MkJudgeRequest { jg_Request : option json }.
#[export] Instance eta_JudgeRequest : Eta JudgeRequest := fun r =>
  MkJudgeRequest (jg_Request r).
#[export] Hint Extern 1 (@Setter JudgeRequest _ _) => setter_of eta_JudgeRequest : typeclass_instances.
Definition new_JudgeRequest : JudgeRequest := MkJudgeRequest None.

Record TaskRunRequest := MkTaskRunRequest { tr_Task : option json; tr_Prompt : string; tr_RawLog : bool;
  tr_RequireBackgroundCapacity : bool; tr_Pick : string }.
#[export] Instance eta_TaskRunRequest : Eta TaskRunRequest := fun r =>
  MkTaskRunRequest (tr_Task r) (tr_Prompt r) (tr_RawLog r) (tr_RequireBackgroundCapacity r) (tr_Pick r).
#[export] Hint Extern 1 (@Setter TaskRunRequest _ _) => setter_of eta_TaskRunRequest : typeclass_instances.
Definition new_TaskRunRequest : TaskRunRequest := MkTaskRunRequest None "" false false "".

Record TaskCancelRequest := MkTaskCancelRequest { tc_RunID : string }.
#[export] Instance eta_TaskCancelRequest : Eta TaskCancelRequest := fun r =>
  MkTaskCancelRequest (tc_RunID r).
#[export] Hint Extern 1 (@Setter TaskCancelRequest _ _) => setter_of eta_TaskCancelRequest : typeclass_instances.
Definition new_TaskCancelRequest : TaskCancelRequest := MkTaskCancelRequest "".

Record PoolGrant := MkPoolGrant { pg_Policy : string; pg_Cap : Z }.
#[export] Instance eta_PoolGrant : Eta PoolGrant := fun r =>
  MkPoolGrant (pg_Policy r) (pg_Cap r).
#[export] Hint Extern 1 (@Setter PoolGrant _ _) => setter_of eta_PoolGrant : typeclass_instances.
Definition new_PoolGrant : PoolGrant := MkPoolGrant "" 0%Z.

Record GrantRequest := MkGrantRequest { gr_Name : string; gr_Def : option json; gr_Adopt : bool;
  gr_Fallback : bool; gr_Pool : option PoolGrant; gr_Pick : string }.
#[export] Instance eta_GrantRequest : Eta GrantRequest := fun r =>
  MkGrantRequest (gr_Name r) (gr_Def r) (gr_Adopt r) (gr_Fallback r) (gr_Pool r) (gr_Pick r).
#[export] Hint Extern 1 (@Setter GrantRequest _ _) => setter_of eta_GrantRequest : typeclass_instances.
Definition new_GrantRequest : GrantRequest := MkGrantRequest "" None false false None "".

Record NamedRequest := MkNamedRequest { nm_Name : string }.
#[export] Instance eta_NamedRequest : Eta NamedRequest := fun r =>
  MkNamedRequest (nm_Name r).
#[export] Hint Extern 1 (@Setter NamedRequest _ _) => setter_of eta_NamedRequest : typeclass_instances.
Definition new_NamedRequest : NamedRequest := MkNamedRequest "".

Record AuthRecoverRequest := MkAuthRecoverRequest { ar_Name : string; ar_Login : bool }.
#[export] Instance eta_AuthRecoverRequest : Eta AuthRecoverRequest := fun r =>
  MkAuthRecoverRequest (ar_Name r) (ar_Login r).
#[export] Hint Extern 1 (@Setter AuthRecoverRequest _ _) => setter_of eta_AuthRecoverRequest : typeclass_instances.
Definition new_AuthRecoverRequest : AuthRecoverRequest := MkAuthRecoverRequest "" false.

Record EscalationStep := MkEscalationStep { es_Mode : string; es_AfterMS : Z }.
#[export] Instance eta_EscalationStep : Eta EscalationStep := fun r =>
  MkEscalationStep (es_Mode r) (es_AfterMS r).
#[export] Hint Extern 1 (@Setter EscalationStep _ _) => setter_of eta_EscalationStep : typeclass_instances.
Definition new_EscalationStep : EscalationStep := MkEscalationStep "" 0%Z.

Record SendRequest := MkSendRequest { sd_Name : string; sd_Text : string; sd_RequestID : string;
  sd_Mode : string; sd_Escalation : option (list EscalationStep) }.
#[export] Instance eta_SendRequest : Eta SendRequest := fun r =>
  MkSendRequest (sd_Name r) (sd_Text r) (sd_RequestID r) (sd_Mode r) (sd_Escalation r).
#[export] Hint Extern 1 (@Setter SendRequest _ _) => setter_of eta_SendRequest : typeclass_instances.
Definition new_SendRequest : SendRequest := MkSendRequest "" "" "" "" None.

Record CompactRequest := MkCompactRequest { cp_Name : string; cp_BoundTokens : Z }.
#[export] Instance eta_CompactRequest : Eta CompactRequest := fun r =>
  MkCompactRequest (cp_Name r) (cp_BoundTokens r).
#[export] Hint Extern 1 (@Setter CompactRequest _ _) => setter_of eta_CompactRequest : typeclass_instances.
Definition new_CompactRequest : CompactRequest := MkCompactRequest "" 0%Z.

Record SetModelRequest := MkSetModelRequest { sm_Name : string; sm_Provider : string; sm_Model : string;
  sm_CompactOn : string; sm_CompactProvider : string; sm_CompactModel : string }.
#[export] Instance eta_SetModelRequest : Eta SetModelRequest := fun r =>
  MkSetModelRequest (sm_Name r) (sm_Provider r) (sm_Model r) (sm_CompactOn r) (sm_CompactProvider r)
    (sm_CompactModel r).
#[export] Hint Extern 1 (@Setter SetModelRequest _ _) => setter_of eta_SetModelRequest : typeclass_instances.
Definition new_SetModelRequest : SetModelRequest := MkSetModelRequest "" "" "" "" "" "".

Record GoalVerdictRequest := MkGoalVerdictRequest { gv_Name : string; gv_CheckID : string; gv_Complete : bool;
  gv_Answered : bool }.
#[export] Instance eta_GoalVerdictRequest : Eta GoalVerdictRequest := fun r =>
  MkGoalVerdictRequest (gv_Name r) (gv_CheckID r) (gv_Complete r) (gv_Answered r).
#[export] Hint Extern 1 (@Setter GoalVerdictRequest _ _) => setter_of eta_GoalVerdictRequest : typeclass_instances.
Definition new_GoalVerdictRequest : GoalVerdictRequest := MkGoalVerdictRequest "" "" false false.

Record RewindRequest := MkRewindRequest { rw_Name : string; rw_Turns : Z }.
#[export] Instance eta_RewindRequest : Eta RewindRequest := fun r =>
  MkRewindRequest (rw_Name r) (rw_Turns r).
#[export] Hint Extern 1 (@Setter RewindRequest _ _) => setter_of eta_RewindRequest : typeclass_instances.
Definition new_RewindRequest : RewindRequest := MkRewindRequest "" 0%Z.

Record ResizeRequest := MkResizeRequest { rz_Name : string; rz_Cols : Z; rz_Rows : Z }.
#[export] Instance eta_ResizeRequest : Eta ResizeRequest := fun r =>
  MkResizeRequest (rz_Name r) (rz_Cols r) (rz_Rows r).
#[export] Hint Extern 1 (@Setter ResizeRequest _ _) => setter_of eta_ResizeRequest : typeclass_instances.
Definition new_ResizeRequest : ResizeRequest := MkResizeRequest "" 0%Z 0%Z.

Record FleetRequest := MkFleetRequest { fl_Op : string; fl_Fleet : string; fl_MaxAgents : Z;
  fl_MaxMessages : Z; fl_Name : string; fl_Instructions : string; fl_InstructionsFile : string;
  fl_WorkDir : string; fl_Quality : string; fl_Purpose : string; fl_Model : string; fl_Authority : string;
  fl_Tools : option (list string); fl_HasTools : bool; fl_HasBudget : bool; fl_BudgetTokens : Z;
  fl_BudgetTurns : Z; fl_BudgetSeconds : float64; fl_From : string; fl_To : string; fl_Kind : string;
  fl_Text : string; fl_AfterSeconds : float64; fl_At : string; fl_EverySeconds : float64;
  fl_AcceptWithinSeconds : float64; fl_AnswerWithinSeconds : float64; fl_Mode : string; fl_TimerID : string;
  fl_Repo : string; fl_Script : string; fl_AgentsMayRun : bool; fl_TimeoutSeconds : float64;
  fl_Commit : string; fl_After : Z; fl_WaitMillis : Z }.
#[export] Instance eta_FleetRequest : Eta FleetRequest := fun r =>
  MkFleetRequest (fl_Op r) (fl_Fleet r) (fl_MaxAgents r) (fl_MaxMessages r) (fl_Name r) (fl_Instructions r)
    (fl_InstructionsFile r) (fl_WorkDir r) (fl_Quality r) (fl_Purpose r) (fl_Model r) (fl_Authority r)
    (fl_Tools r) (fl_HasTools r) (fl_HasBudget r) (fl_BudgetTokens r) (fl_BudgetTurns r) (fl_BudgetSeconds r)
    (fl_From r) (fl_To r) (fl_Kind r) (fl_Text r) (fl_AfterSeconds r) (fl_At r) (fl_EverySeconds r)
    (fl_AcceptWithinSeconds r) (fl_AnswerWithinSeconds r) (fl_Mode r) (fl_TimerID r) (fl_Repo r) (fl_Script r)
    (fl_AgentsMayRun r) (fl_TimeoutSeconds r) (fl_Commit r) (fl_After r) (fl_WaitMillis r).
#[export] Hint Extern 1 (@Setter FleetRequest _ _) => setter_of eta_FleetRequest : typeclass_instances.
Definition new_FleetRequest : FleetRequest := MkFleetRequest "" "" 0%Z 0%Z "" "" "" "" "" "" "" "" None false
  false 0%Z 0%Z F.zero "" "" "" "" F.zero "" F.zero F.zero F.zero "" "" "" "" false F.zero "" 0%Z 0%Z.

Record GenerationsRequest := MkGenerationsRequest { gn_Cursor : string; gn_Limit : Z; gn_ExpiresAt : Z }.
#[export] Instance eta_GenerationsRequest : Eta GenerationsRequest := fun r =>
  MkGenerationsRequest (gn_Cursor r) (gn_Limit r) (gn_ExpiresAt r).
#[export] Hint Extern 1 (@Setter GenerationsRequest _ _) => setter_of eta_GenerationsRequest : typeclass_instances.
Definition new_GenerationsRequest : GenerationsRequest := MkGenerationsRequest "" 0%Z 0%Z.

Record ReceiptRequest := MkReceiptRequest { rc_Seat : string; rc_SessionID : string; rc_RequestID : string }.
#[export] Instance eta_ReceiptRequest : Eta ReceiptRequest := fun r =>
  MkReceiptRequest (rc_Seat r) (rc_SessionID r) (rc_RequestID r).
#[export] Hint Extern 1 (@Setter ReceiptRequest _ _) => setter_of eta_ReceiptRequest : typeclass_instances.
Definition new_ReceiptRequest : ReceiptRequest := MkReceiptRequest "" "" "".

Record UsageFactsRequest := MkUsageFactsRequest { uf_Seat : string; uf_SessionID : string; uf_After : Z;
  uf_Limit : Z; uf_ExpiresAt : Z }.
#[export] Instance eta_UsageFactsRequest : Eta UsageFactsRequest := fun r =>
  MkUsageFactsRequest (uf_Seat r) (uf_SessionID r) (uf_After r) (uf_Limit r) (uf_ExpiresAt r).
#[export] Hint Extern 1 (@Setter UsageFactsRequest _ _) => setter_of eta_UsageFactsRequest : typeclass_instances.
Definition new_UsageFactsRequest : UsageFactsRequest := MkUsageFactsRequest "" "" 0%Z 0%Z 0%Z.

(** ** How they are written *)

Section Fields.
Context `{FloatText, Base64, TimeText}.

Definition SpawnRequest_fields : list (field SpawnRequest) :=
  [may "provider" text sp_Provider; must "mode" text sp_Mode; may "model" text sp_Model;
   may "intent" text sp_Intent; must "workdir" text sp_WorkDir].
Definition SpawnRequest_json : codec SpawnRequest := struct new_SpawnRequest SpawnRequest_fields.

Definition ReleaseRequest_fields : list (field ReleaseRequest) :=
  [may "session_id" text rel_SessionID; may "name" text rel_Name; must "disposition" text rel_Disposition;
   may "keep_alive_seconds" int64 rel_KeepAliveSeconds; may "force" boolean rel_Force;
   may "discard" boolean rel_Discard].
Definition ReleaseRequest_json : codec ReleaseRequest := struct new_ReleaseRequest ReleaseRequest_fields.

Definition UsageRequest_fields : list (field UsageRequest) :=
  [may "refresh" boolean us_Refresh].
Definition UsageRequest_json : codec UsageRequest := struct new_UsageRequest UsageRequest_fields.

Definition ResolveRequest_fields : list (field ResolveRequest) :=
  [must "predicates" raw rv_Predicates].
Definition ResolveRequest_json : codec ResolveRequest := struct new_ResolveRequest ResolveRequest_fields.

Definition JudgeRequest_fields : list (field JudgeRequest) :=
  [must "request" raw jg_Request].
Definition JudgeRequest_json : codec JudgeRequest := struct new_JudgeRequest JudgeRequest_fields.

Definition TaskRunRequest_fields : list (field TaskRunRequest) :=
  [must "task" raw tr_Task; must "prompt" text tr_Prompt; may "raw_log" boolean tr_RawLog;
   may "require_background_capacity" boolean tr_RequireBackgroundCapacity; may "pick" text tr_Pick].
Definition TaskRunRequest_json : codec TaskRunRequest := struct new_TaskRunRequest TaskRunRequest_fields.

Definition TaskCancelRequest_fields : list (field TaskCancelRequest) :=
  [must "run_id" text tc_RunID].
Definition TaskCancelRequest_json : codec TaskCancelRequest := struct new_TaskCancelRequest TaskCancelRequest_fields.

Definition PoolGrant_fields : list (field PoolGrant) :=
  [may "policy" text pg_Policy; may "cap" int64 pg_Cap].
Definition PoolGrant_json : codec PoolGrant := struct new_PoolGrant PoolGrant_fields.

Definition GrantRequest_fields : list (field GrantRequest) :=
  [must "name" text gr_Name; must "def" raw gr_Def; may "adopt" boolean gr_Adopt;
   may "fallback" boolean gr_Fallback; may "pool" (pointer PoolGrant_json) gr_Pool; may "pick" text gr_Pick].
Definition GrantRequest_json : codec GrantRequest := struct new_GrantRequest GrantRequest_fields.

Definition NamedRequest_fields : list (field NamedRequest) :=
  [must "name" text nm_Name].
Definition NamedRequest_json : codec NamedRequest := struct new_NamedRequest NamedRequest_fields.

Definition AuthRecoverRequest_fields : list (field AuthRecoverRequest) :=
  [must "name" text ar_Name; may "login" boolean ar_Login].
Definition AuthRecoverRequest_json : codec AuthRecoverRequest := struct new_AuthRecoverRequest AuthRecoverRequest_fields.

Definition EscalationStep_fields : list (field EscalationStep) :=
  [must "mode" text es_Mode; may "after_ms" int64 es_AfterMS].
Definition EscalationStep_json : codec EscalationStep := struct new_EscalationStep EscalationStep_fields.

Definition SendRequest_fields : list (field SendRequest) :=
  [must "name" text sd_Name; must "text" text sd_Text; may "request_id" text sd_RequestID;
   may "mode" text sd_Mode; may "escalation" (slice EscalationStep_json) sd_Escalation].
Definition SendRequest_json : codec SendRequest := struct new_SendRequest SendRequest_fields.

Definition CompactRequest_fields : list (field CompactRequest) :=
  [must "name" text cp_Name; must "bound_tokens" int64 cp_BoundTokens].
Definition CompactRequest_json : codec CompactRequest := struct new_CompactRequest CompactRequest_fields.

Definition SetModelRequest_fields : list (field SetModelRequest) :=
  [must "name" text sm_Name; may "provider" text sm_Provider; must "model" text sm_Model;
   may "compact_on" text sm_CompactOn; may "compact_provider" text sm_CompactProvider;
   may "compact_model" text sm_CompactModel].
Definition SetModelRequest_json : codec SetModelRequest := struct new_SetModelRequest SetModelRequest_fields.

Definition GoalVerdictRequest_fields : list (field GoalVerdictRequest) :=
  [must "name" text gv_Name; must "check_id" text gv_CheckID; may "complete" boolean gv_Complete;
   may "answered" boolean gv_Answered].
Definition GoalVerdictRequest_json : codec GoalVerdictRequest := struct new_GoalVerdictRequest GoalVerdictRequest_fields.

Definition RewindRequest_fields : list (field RewindRequest) :=
  [must "name" text rw_Name; must "turns" int64 rw_Turns].
Definition RewindRequest_json : codec RewindRequest := struct new_RewindRequest RewindRequest_fields.

Definition ResizeRequest_fields : list (field ResizeRequest) :=
  [must "name" text rz_Name; must "cols" uint16 rz_Cols; must "rows" uint16 rz_Rows].
Definition ResizeRequest_json : codec ResizeRequest := struct new_ResizeRequest ResizeRequest_fields.

Definition FleetRequest_fields : list (field FleetRequest) :=
  [must "op" text fl_Op; must "fleet" text fl_Fleet; may "max_agents" int64 fl_MaxAgents;
   may "max_messages" int64 fl_MaxMessages; may "name" text fl_Name; may "instructions" text fl_Instructions;
   may "instructions_file" text fl_InstructionsFile; may "workdir" text fl_WorkDir;
   may "quality" text fl_Quality; may "purpose" text fl_Purpose; may "model" text fl_Model;
   may "authority" text fl_Authority; may "tools" (slice text) fl_Tools; may "has_tools" boolean fl_HasTools;
   may "has_budget" boolean fl_HasBudget; may "budget_tokens" int64 fl_BudgetTokens;
   may "budget_turns" int64 fl_BudgetTurns; may "budget_seconds" number fl_BudgetSeconds;
   may "from" text fl_From; may "to" text fl_To; may "kind" text fl_Kind; may "text" text fl_Text;
   may "after_seconds" number fl_AfterSeconds; may "at" text fl_At; may "every_seconds" number fl_EverySeconds;
   may "accept_within_seconds" number fl_AcceptWithinSeconds;
   may "answer_within_seconds" number fl_AnswerWithinSeconds; may "mode" text fl_Mode;
   may "timer_id" text fl_TimerID; may "repo" text fl_Repo; may "script" text fl_Script;
   may "agents_may_run" boolean fl_AgentsMayRun; may "timeout_seconds" number fl_TimeoutSeconds;
   may "commit" text fl_Commit; may "after" uint64 fl_After; may "wait_millis" int64 fl_WaitMillis].
Definition FleetRequest_json : codec FleetRequest := struct new_FleetRequest FleetRequest_fields.

Definition GenerationsRequest_fields : list (field GenerationsRequest) :=
  [must "cursor" text gn_Cursor; must "limit" int64 gn_Limit; may "expires_at" int64 gn_ExpiresAt].
Definition GenerationsRequest_json : codec GenerationsRequest := struct new_GenerationsRequest GenerationsRequest_fields.

Definition ReceiptRequest_fields : list (field ReceiptRequest) :=
  [must "seat" text rc_Seat; must "session_id" text rc_SessionID; must "request_id" text rc_RequestID].
Definition ReceiptRequest_json : codec ReceiptRequest := struct new_ReceiptRequest ReceiptRequest_fields.

Definition UsageFactsRequest_fields : list (field UsageFactsRequest) :=
  [must "seat" text uf_Seat; must "session_id" text uf_SessionID; must "after" uint64 uf_After;
   must "limit" int64 uf_Limit; may "expires_at" int64 uf_ExpiresAt].
Definition UsageFactsRequest_json : codec UsageFactsRequest := struct new_UsageFactsRequest UsageFactsRequest_fields.

End Fields.

(** ** The message *)

Record Request := MkRequest { rq_ID : string; rq_Type : string; rq_Spawn : option SpawnRequest;
  rq_Release : option ReleaseRequest; rq_Status : option unit; rq_Tail : option unit;
  rq_Usage : option UsageRequest; rq_Resolve : option ResolveRequest; rq_TaskRun : option TaskRunRequest;
  rq_TaskCancel : option TaskCancelRequest; rq_Grant : option GrantRequest; rq_Send : option SendRequest;
  rq_Interrupt : option NamedRequest; rq_SetModel : option SetModelRequest; rq_Compact : option CompactRequest;
  rq_AgentInfo : option NamedRequest; rq_TermSubscribe : option NamedRequest; rq_Resize : option ResizeRequest;
  rq_Grants : option unit; rq_CloseGoal : option NamedRequest; rq_Rewind : option RewindRequest;
  rq_GoalVerdict : option GoalVerdictRequest; rq_Judge : option JudgeRequest;
  rq_AuthRecover : option AuthRecoverRequest; rq_AuthDetail : option NamedRequest; rq_AuthStatus : option unit;
  rq_Receipt : option ReceiptRequest; rq_Generations : option GenerationsRequest;
  rq_Fleet : option FleetRequest; rq_UsageFacts : option UsageFactsRequest }.
#[export] Instance eta_Request : Eta Request := fun r =>
  MkRequest (rq_ID r) (rq_Type r) (rq_Spawn r) (rq_Release r) (rq_Status r) (rq_Tail r) (rq_Usage r)
    (rq_Resolve r) (rq_TaskRun r) (rq_TaskCancel r) (rq_Grant r) (rq_Send r) (rq_Interrupt r) (rq_SetModel r)
    (rq_Compact r) (rq_AgentInfo r) (rq_TermSubscribe r) (rq_Resize r) (rq_Grants r) (rq_CloseGoal r)
    (rq_Rewind r) (rq_GoalVerdict r) (rq_Judge r) (rq_AuthRecover r) (rq_AuthDetail r) (rq_AuthStatus r)
    (rq_Receipt r) (rq_Generations r) (rq_Fleet r) (rq_UsageFacts r).
#[export] Hint Extern 1 (@Setter Request _ _) => setter_of eta_Request : typeclass_instances.
Definition new_Request (id t : string) : Request := MkRequest id t None None None None None None None None
  None None None None None None None None None None None None None None None None None None None None.

(** ** Each is its fields *)

Section Laws.
Context `{FloatText, Base64, TimeText}.

#[export] Instance SpawnRequest_lawful : LawfulStruct new_SpawnRequest SpawnRequest_fields.
Proof. lawful_struct. Qed.
#[export] Instance ReleaseRequest_lawful : LawfulStruct new_ReleaseRequest ReleaseRequest_fields.
Proof. lawful_struct. Qed.
#[export] Instance UsageRequest_lawful : LawfulStruct new_UsageRequest UsageRequest_fields.
Proof. lawful_struct. Qed.
#[export] Instance ResolveRequest_lawful : LawfulStruct new_ResolveRequest ResolveRequest_fields.
Proof. lawful_struct. Qed.
#[export] Instance JudgeRequest_lawful : LawfulStruct new_JudgeRequest JudgeRequest_fields.
Proof. lawful_struct. Qed.
#[export] Instance TaskRunRequest_lawful : LawfulStruct new_TaskRunRequest TaskRunRequest_fields.
Proof. lawful_struct. Qed.
#[export] Instance TaskCancelRequest_lawful : LawfulStruct new_TaskCancelRequest TaskCancelRequest_fields.
Proof. lawful_struct. Qed.
#[export] Instance PoolGrant_lawful : LawfulStruct new_PoolGrant PoolGrant_fields.
Proof. lawful_struct. Qed.
#[export] Instance GrantRequest_lawful : LawfulStruct new_GrantRequest GrantRequest_fields.
Proof. lawful_struct. Qed.
#[export] Instance NamedRequest_lawful : LawfulStruct new_NamedRequest NamedRequest_fields.
Proof. lawful_struct. Qed.
#[export] Instance AuthRecoverRequest_lawful : LawfulStruct new_AuthRecoverRequest AuthRecoverRequest_fields.
Proof. lawful_struct. Qed.
#[export] Instance EscalationStep_lawful : LawfulStruct new_EscalationStep EscalationStep_fields.
Proof. lawful_struct. Qed.
#[export] Instance SendRequest_lawful : LawfulStruct new_SendRequest SendRequest_fields.
Proof. lawful_struct. Qed.
#[export] Instance CompactRequest_lawful : LawfulStruct new_CompactRequest CompactRequest_fields.
Proof. lawful_struct. Qed.
#[export] Instance SetModelRequest_lawful : LawfulStruct new_SetModelRequest SetModelRequest_fields.
Proof. lawful_struct. Qed.
#[export] Instance GoalVerdictRequest_lawful : LawfulStruct new_GoalVerdictRequest GoalVerdictRequest_fields.
Proof. lawful_struct. Qed.
#[export] Instance RewindRequest_lawful : LawfulStruct new_RewindRequest RewindRequest_fields.
Proof. lawful_struct. Qed.
#[export] Instance ResizeRequest_lawful : LawfulStruct new_ResizeRequest ResizeRequest_fields.
Proof. lawful_struct. Qed.
#[export] Instance FleetRequest_lawful : LawfulStruct new_FleetRequest FleetRequest_fields.
Proof. lawful_struct. Qed.
#[export] Instance GenerationsRequest_lawful : LawfulStruct new_GenerationsRequest GenerationsRequest_fields.
Proof. lawful_struct. Qed.
#[export] Instance ReceiptRequest_lawful : LawfulStruct new_ReceiptRequest ReceiptRequest_fields.
Proof. lawful_struct. Qed.
#[export] Instance UsageFactsRequest_lawful : LawfulStruct new_UsageFactsRequest UsageFactsRequest_fields.
Proof. lawful_struct. Qed.

End Laws.
