(* ===== verification/WireResponses.v ===== *)
(** * WireResponses: what the broker sends to a client

    The response bodies of [internal/broker/wire*.go] and of [omp/], with the names and
    the options of their fields, and [Response], which has a place for each. *)

From S2P Require Import Prelude GoLib GoJson GoStruct.

Record SpawnResponse := MkSpawnResponse { spd_SessionID : string; spd_PID : Z; spd_Warm : bool }.
#[export] Instance eta_SpawnResponse : Eta SpawnResponse := fun r =>
  MkSpawnResponse (spd_SessionID r) (spd_PID r) (spd_Warm r).
#[export] Hint Extern 1 (@Setter SpawnResponse _ _) => setter_of eta_SpawnResponse : typeclass_instances.
Definition new_SpawnResponse : SpawnResponse := MkSpawnResponse "" 0%Z false.

Record ReleaseResponse := MkReleaseResponse { rld_SessionID : string; rld_Name : string;
  rld_Disposition : string }.
#[export] Instance eta_ReleaseResponse : Eta ReleaseResponse := fun r =>
  MkReleaseResponse (rld_SessionID r) (rld_Name r) (rld_Disposition r).
#[export] Hint Extern 1 (@Setter ReleaseResponse _ _) => setter_of eta_ReleaseResponse : typeclass_instances.
Definition new_ReleaseResponse : ReleaseResponse := MkReleaseResponse "" "" "".

Record SessionStatus := MkSessionStatus { ses_SessionID : string; ses_Provider : string; ses_Mode : string;
  ses_Model : string; ses_Intent : string; ses_WorkDir : string; ses_PID : Z; ses_Warm : bool }.
#[export] Instance eta_SessionStatus : Eta SessionStatus := fun r =>
  MkSessionStatus (ses_SessionID r) (ses_Provider r) (ses_Mode r) (ses_Model r) (ses_Intent r) (ses_WorkDir r)
    (ses_PID r) (ses_Warm r).
#[export] Hint Extern 1 (@Setter SessionStatus _ _) => setter_of eta_SessionStatus : typeclass_instances.
Definition new_SessionStatus : SessionStatus := MkSessionStatus "" "" "" "" "" "" 0%Z false.

Record TurnCaps := MkTurnCaps { cap_CanInterrupt : bool; cap_CanSteer : bool; cap_SteerPolicy : string;
  cap_BusyOnSecondSubmit : string }.
#[export] Instance eta_TurnCaps : Eta TurnCaps := fun r =>
  MkTurnCaps (cap_CanInterrupt r) (cap_CanSteer r) (cap_SteerPolicy r) (cap_BusyOnSecondSubmit r).
#[export] Hint Extern 1 (@Setter TurnCaps _ _) => setter_of eta_TurnCaps : typeclass_instances.
Definition new_TurnCaps : TurnCaps := MkTurnCaps false false "" "".

Record GrantStatus := MkGrantStatus { gs_Name : string; gs_Provider : string; gs_Model : string;
  gs_SessionID : string; gs_WorkDir : string; gs_Purpose : string; gs_Parent : string; gs_Owned : bool;
  gs_OwnerConn : Z; gs_OwnerPID : Z; gs_Alive : bool; gs_Pending : Z; gs_TurnCaps : option TurnCaps }.
#[export] Instance eta_GrantStatus : Eta GrantStatus := fun r =>
  MkGrantStatus (gs_Name r) (gs_Provider r) (gs_Model r) (gs_SessionID r) (gs_WorkDir r) (gs_Purpose r)
    (gs_Parent r) (gs_Owned r) (gs_OwnerConn r) (gs_OwnerPID r) (gs_Alive r) (gs_Pending r) (gs_TurnCaps r).
#[export] Hint Extern 1 (@Setter GrantStatus _ _) => setter_of eta_GrantStatus : typeclass_instances.
Definition new_GrantStatus : GrantStatus := MkGrantStatus "" "" "" "" "" "" "" false 0%Z 0%Z false 0%Z None.

Record StatusResponse := MkStatusResponse { sta_ProtocolVersion : Z; sta_ActiveAgents : Z; sta_WarmPool : Z;
  sta_Sessions : option (list SessionStatus); sta_Grants : option (list GrantStatus); sta_Tasks : Z;
  sta_UsageFetchedAt : Time }.
#[export] Instance eta_StatusResponse : Eta StatusResponse := fun r =>
  MkStatusResponse (sta_ProtocolVersion r) (sta_ActiveAgents r) (sta_WarmPool r) (sta_Sessions r) (sta_Grants
    r) (sta_Tasks r) (sta_UsageFetchedAt r).
#[export] Hint Extern 1 (@Setter StatusResponse _ _) => setter_of eta_StatusResponse : typeclass_instances.
Definition new_StatusResponse : StatusResponse := MkStatusResponse 0%Z 0%Z 0%Z None None 0%Z 0%Z.

Record EventMessage := MkEventMessage { ev_Kind : string; ev_SessionID : string; ev_Name : string;
  ev_Detail : string; ev_At : Time }.
#[export] Instance eta_EventMessage : Eta EventMessage := fun r =>
  MkEventMessage (ev_Kind r) (ev_SessionID r) (ev_Name r) (ev_Detail r) (ev_At r).
#[export] Hint Extern 1 (@Setter EventMessage _ _) => setter_of eta_EventMessage : typeclass_instances.
Definition new_EventMessage : EventMessage := MkEventMessage "" "" "" "" 0%Z.

Record ErrorMessage := MkErrorMessage { em_Code : string; em_Message : string; em_Field : string;
  em_Value : string; em_SupportedVersions : option (list Z) }.
#[export] Instance eta_ErrorMessage : Eta ErrorMessage := fun r =>
  MkErrorMessage (em_Code r) (em_Message r) (em_Field r) (em_Value r) (em_SupportedVersions r).
#[export] Hint Extern 1 (@Setter ErrorMessage _ _) => setter_of eta_ErrorMessage : typeclass_instances.
Definition new_ErrorMessage : ErrorMessage := MkErrorMessage "" "" "" "" None.

Record UsageResponse := MkUsageResponse { usd_FetchedAt : Time; usd_Backends : option json; usd_Error : string;
  usd_Unlaunchable : option (gmap string string) }.
#[export] Instance eta_UsageResponse : Eta UsageResponse := fun r =>
  MkUsageResponse (usd_FetchedAt r) (usd_Backends r) (usd_Error r) (usd_Unlaunchable r).
#[export] Hint Extern 1 (@Setter UsageResponse _ _) => setter_of eta_UsageResponse : typeclass_instances.
Definition new_UsageResponse : UsageResponse := MkUsageResponse 0%Z None "" None.

Record ResolveResponse := MkResolveResponse { rvd_Pick : option json }.
#[export] Instance eta_ResolveResponse : Eta ResolveResponse := fun r =>
  MkResolveResponse (rvd_Pick r).
#[export] Hint Extern 1 (@Setter ResolveResponse _ _) => setter_of eta_ResolveResponse : typeclass_instances.
Definition new_ResolveResponse : ResolveResponse := MkResolveResponse None.

Record JudgedResponse := MkJudgedResponse { jgd_Result : option json; jgd_Status : Z; jgd_Error : string;
  jgd_NoKey : bool }.
#[export] Instance eta_JudgedResponse : Eta JudgedResponse := fun r =>
  MkJudgedResponse (jgd_Result r) (jgd_Status r) (jgd_Error r) (jgd_NoKey r).
#[export] Hint Extern 1 (@Setter JudgedResponse _ _) => setter_of eta_JudgedResponse : typeclass_instances.
Definition new_JudgedResponse : JudgedResponse := MkJudgedResponse None 0%Z "" false.

Record TaskStartedResponse := MkTaskStartedResponse { ts_RunID : string; ts_Provider : string;
  ts_RemainingPercent : option float64 }.
#[export] Instance eta_TaskStartedResponse : Eta TaskStartedResponse := fun r =>
  MkTaskStartedResponse (ts_RunID r) (ts_Provider r) (ts_RemainingPercent r).
#[export] Hint Extern 1 (@Setter TaskStartedResponse _ _) => setter_of eta_TaskStartedResponse : typeclass_instances.
Definition new_TaskStartedResponse : TaskStartedResponse := MkTaskStartedResponse "" "" None.

Record TaskEventMessage := MkTaskEventMessage { te_RunID : string; te_Event : option json }.
#[export] Instance eta_TaskEventMessage : Eta TaskEventMessage := fun r =>
  MkTaskEventMessage (te_RunID r) (te_Event r).
#[export] Hint Extern 1 (@Setter TaskEventMessage _ _) => setter_of eta_TaskEventMessage : typeclass_instances.
Definition new_TaskEventMessage : TaskEventMessage := MkTaskEventMessage "" None.

Record TaskRawMessage := MkTaskRawMessage { tw_RunID : string; tw_Line : string }.
#[export] Instance eta_TaskRawMessage : Eta TaskRawMessage := fun r =>
  MkTaskRawMessage (tw_RunID r) (tw_Line r).
#[export] Hint Extern 1 (@Setter TaskRawMessage _ _) => setter_of eta_TaskRawMessage : typeclass_instances.
Definition new_TaskRawMessage : TaskRawMessage := MkTaskRawMessage "" "".

Record TaskDoneMessage := MkTaskDoneMessage { td_RunID : string; td_Error : string }.
#[export] Instance eta_TaskDoneMessage : Eta TaskDoneMessage := fun r =>
  MkTaskDoneMessage (td_RunID r) (td_Error r).
#[export] Hint Extern 1 (@Setter TaskDoneMessage _ _) => setter_of eta_TaskDoneMessage : typeclass_instances.
Definition new_TaskDoneMessage : TaskDoneMessage := MkTaskDoneMessage "" "".

Record TaskCancelledResponse := MkTaskCancelledResponse { tcd_RunID : string }.
#[export] Instance eta_TaskCancelledResponse : Eta TaskCancelledResponse := fun r =>
  MkTaskCancelledResponse (tcd_RunID r).
#[export] Hint Extern 1 (@Setter TaskCancelledResponse _ _) => setter_of eta_TaskCancelledResponse : typeclass_instances.
Definition new_TaskCancelledResponse : TaskCancelledResponse := MkTaskCancelledResponse "".

Record GrantResponse := MkGrantResponse { grd_Name : string; grd_SessionID : string; grd_Provider : string;
  grd_Model : string; grd_WindowID : string; grd_JSONLPath : string; grd_TermLogPath : string;
  grd_AttachCommand : string; grd_ConnectURL : string; grd_ConnectPID : Z; grd_Reclaimed : bool;
  grd_Replayed : Z; grd_Lagged : bool; grd_TurnCaps : option TurnCaps; grd_DurableReceipts : bool;
  grd_RemainingPercent : option float64; grd_MCPUnavailable : option (list string) }.
#[export] Instance eta_GrantResponse : Eta GrantResponse := fun r =>
  MkGrantResponse (grd_Name r) (grd_SessionID r) (grd_Provider r) (grd_Model r) (grd_WindowID r)
    (grd_JSONLPath r) (grd_TermLogPath r) (grd_AttachCommand r) (grd_ConnectURL r) (grd_ConnectPID r)
    (grd_Reclaimed r) (grd_Replayed r) (grd_Lagged r) (grd_TurnCaps r) (grd_DurableReceipts r)
    (grd_RemainingPercent r) (grd_MCPUnavailable r).
#[export] Hint Extern 1 (@Setter GrantResponse _ _) => setter_of eta_GrantResponse : typeclass_instances.
Definition new_GrantResponse : GrantResponse := MkGrantResponse "" "" "" "" "" "" "" "" "" 0%Z false 0%Z false
  None false None None.

Record AgentEventMessage := MkAgentEventMessage { ae_Name : string; ae_Event : option json }.
#[export] Instance eta_AgentEventMessage : Eta AgentEventMessage := fun r =>
  MkAgentEventMessage (ae_Name r) (ae_Event r).
#[export] Hint Extern 1 (@Setter AgentEventMessage _ _) => setter_of eta_AgentEventMessage : typeclass_instances.
Definition new_AgentEventMessage : AgentEventMessage := MkAgentEventMessage "" None.

Record AgentTermMessage := MkAgentTermMessage { at_Name : string; at_Data : option string }.
#[export] Instance eta_AgentTermMessage : Eta AgentTermMessage := fun r =>
  MkAgentTermMessage (at_Name r) (at_Data r).
#[export] Hint Extern 1 (@Setter AgentTermMessage _ _) => setter_of eta_AgentTermMessage : typeclass_instances.
Definition new_AgentTermMessage : AgentTermMessage := MkAgentTermMessage "" None.

Record AgentGoneMessage := MkAgentGoneMessage { ag_Name : string; ag_Reason : string }.
#[export] Instance eta_AgentGoneMessage : Eta AgentGoneMessage := fun r =>
  MkAgentGoneMessage (ag_Name r) (ag_Reason r).
#[export] Hint Extern 1 (@Setter AgentGoneMessage _ _) => setter_of eta_AgentGoneMessage : typeclass_instances.
Definition new_AgentGoneMessage : AgentGoneMessage := MkAgentGoneMessage "" "".

Record AgentDetachedMessage := MkAgentDetachedMessage { ad_Name : string; ad_Reason : string }.
#[export] Instance eta_AgentDetachedMessage : Eta AgentDetachedMessage := fun r =>
  MkAgentDetachedMessage (ad_Name r) (ad_Reason r).
#[export] Hint Extern 1 (@Setter AgentDetachedMessage _ _) => setter_of eta_AgentDetachedMessage : typeclass_instances.
Definition new_AgentDetachedMessage : AgentDetachedMessage := MkAgentDetachedMessage "" "".

Record NamedResponse := MkNamedResponse { nmd_Name : string }.
#[export] Instance eta_NamedResponse : Eta NamedResponse := fun r =>
  MkNamedResponse (nmd_Name r).
#[export] Hint Extern 1 (@Setter NamedResponse _ _) => setter_of eta_NamedResponse : typeclass_instances.
Definition new_NamedResponse : NamedResponse := MkNamedResponse "".

Record SentResponse := MkSentResponse { sdd_Name : string; sdd_Mode : string; sdd_Mechanism : string;
  sdd_PhaseBefore : string; sdd_SupersededTurnID : string }.
#[export] Instance eta_SentResponse : Eta SentResponse := fun r =>
  MkSentResponse (sdd_Name r) (sdd_Mode r) (sdd_Mechanism r) (sdd_PhaseBefore r) (sdd_SupersededTurnID r).
#[export] Hint Extern 1 (@Setter SentResponse _ _) => setter_of eta_SentResponse : typeclass_instances.
Definition new_SentResponse : SentResponse := MkSentResponse "" "" "" "" "".

Record CompactResponse := MkCompactResponse { cpd_Name : string; cpd_TokensBefore : Z; cpd_TokensAfter : Z;
  cpd_Committed : bool }.
#[export] Instance eta_CompactResponse : Eta CompactResponse := fun r =>
  MkCompactResponse (cpd_Name r) (cpd_TokensBefore r) (cpd_TokensAfter r) (cpd_Committed r).
#[export] Hint Extern 1 (@Setter CompactResponse _ _) => setter_of eta_CompactResponse : typeclass_instances.
Definition new_CompactResponse : CompactResponse := MkCompactResponse "" 0%Z 0%Z false.

Record GoalCheckMessage := MkGoalCheckMessage { gc_Name : string; gc_CheckID : string; gc_Goal : string;
  gc_TurnText : string }.
#[export] Instance eta_GoalCheckMessage : Eta GoalCheckMessage := fun r =>
  MkGoalCheckMessage (gc_Name r) (gc_CheckID r) (gc_Goal r) (gc_TurnText r).
#[export] Hint Extern 1 (@Setter GoalCheckMessage _ _) => setter_of eta_GoalCheckMessage : typeclass_instances.
Definition new_GoalCheckMessage : GoalCheckMessage := MkGoalCheckMessage "" "" "" "".

Record RewindResponse := MkRewindResponse { rwd_Name : string; rwd_SessionID : string; rwd_Provider : string;
  rwd_Model : string; rwd_WindowID : string; rwd_JSONLPath : string; rwd_TermLogPath : string;
  rwd_AttachCommand : string; rwd_TurnsRemoved : Z; rwd_LinesRemoved : Z; rwd_BytesRemoved : Z;
  rwd_BackupPath : string }.
#[export] Instance eta_RewindResponse : Eta RewindResponse := fun r =>
  MkRewindResponse (rwd_Name r) (rwd_SessionID r) (rwd_Provider r) (rwd_Model r) (rwd_WindowID r)
    (rwd_JSONLPath r) (rwd_TermLogPath r) (rwd_AttachCommand r) (rwd_TurnsRemoved r) (rwd_LinesRemoved r)
    (rwd_BytesRemoved r) (rwd_BackupPath r).
#[export] Hint Extern 1 (@Setter RewindResponse _ _) => setter_of eta_RewindResponse : typeclass_instances.
Definition new_RewindResponse : RewindResponse := MkRewindResponse "" "" "" "" "" "" "" "" 0%Z 0%Z 0%Z "".

Record AgentInfoResponse := MkAgentInfoResponse { ai_Name : string; ai_SessionID : string;
  ai_Provider : string; ai_Model : string; ai_Alive : bool; ai_PromptInFlight : bool; ai_Usage : option json;
  ai_WindowID : string; ai_JSONLPath : string; ai_TermLogPath : string; ai_AttachCommand : string;
  ai_ConnectURL : string; ai_ConnectPID : Z; ai_TurnCaps : option TurnCaps }.
#[export] Instance eta_AgentInfoResponse : Eta AgentInfoResponse := fun r =>
  MkAgentInfoResponse (ai_Name r) (ai_SessionID r) (ai_Provider r) (ai_Model r) (ai_Alive r)
    (ai_PromptInFlight r) (ai_Usage r) (ai_WindowID r) (ai_JSONLPath r) (ai_TermLogPath r) (ai_AttachCommand
    r) (ai_ConnectURL r) (ai_ConnectPID r) (ai_TurnCaps r).
#[export] Hint Extern 1 (@Setter AgentInfoResponse _ _) => setter_of eta_AgentInfoResponse : typeclass_instances.
Definition new_AgentInfoResponse : AgentInfoResponse := MkAgentInfoResponse "" "" "" "" false false None "" ""
  "" "" "" 0%Z None.

Record TermSubscribedResponse := MkTermSubscribedResponse { tm_Name : string; tm_History : option string }.
#[export] Instance eta_TermSubscribedResponse : Eta TermSubscribedResponse := fun r =>
  MkTermSubscribedResponse (tm_Name r) (tm_History r).
#[export] Hint Extern 1 (@Setter TermSubscribedResponse _ _) => setter_of eta_TermSubscribedResponse : typeclass_instances.
Definition new_TermSubscribedResponse : TermSubscribedResponse := MkTermSubscribedResponse "" None.

Record GrantsResponse := MkGrantsResponse { gsd_Grants : option (list GrantStatus) }.
#[export] Instance eta_GrantsResponse : Eta GrantsResponse := fun r =>
  MkGrantsResponse (gsd_Grants r).
#[export] Hint Extern 1 (@Setter GrantsResponse _ _) => setter_of eta_GrantsResponse : typeclass_instances.
Definition new_GrantsResponse : GrantsResponse := MkGrantsResponse None.

Record PlanAuth := MkPlanAuth { pa_Provider : string; pa_State : string; pa_Detail : string;
  pa_Since : Time }.
#[export] Instance eta_PlanAuth : Eta PlanAuth := fun r =>
  MkPlanAuth (pa_Provider r) (pa_State r) (pa_Detail r) (pa_Since r).
#[export] Hint Extern 1 (@Setter PlanAuth _ _) => setter_of eta_PlanAuth : typeclass_instances.
Definition new_PlanAuth : PlanAuth := MkPlanAuth "" "" "" 0%Z.

Record AuthStatusResponse := MkAuthStatusResponse { as_Plans : option (list PlanAuth) }.
#[export] Instance eta_AuthStatusResponse : Eta AuthStatusResponse := fun r =>
  MkAuthStatusResponse (as_Plans r).
#[export] Hint Extern 1 (@Setter AuthStatusResponse _ _) => setter_of eta_AuthStatusResponse : typeclass_instances.
Definition new_AuthStatusResponse : AuthStatusResponse := MkAuthStatusResponse None.

Record FleetResponse := MkFleetResponse { fld_Result : option json }.
#[export] Instance eta_FleetResponse : Eta FleetResponse := fun r =>
  MkFleetResponse (fld_Result r).
#[export] Hint Extern 1 (@Setter FleetResponse _ _) => setter_of eta_FleetResponse : typeclass_instances.
Definition new_FleetResponse : FleetResponse := MkFleetResponse None.

Record AuthRecoveryDetailResponse := MkAuthRecoveryDetailResponse { adr_Provider : string;
  adr_Outcome : string; adr_Classification : string }.
#[export] Instance eta_AuthRecoveryDetailResponse : Eta AuthRecoveryDetailResponse := fun r =>
  MkAuthRecoveryDetailResponse (adr_Provider r) (adr_Outcome r) (adr_Classification r).
#[export] Hint Extern 1 (@Setter AuthRecoveryDetailResponse _ _) => setter_of eta_AuthRecoveryDetailResponse : typeclass_instances.
Definition new_AuthRecoveryDetailResponse : AuthRecoveryDetailResponse := MkAuthRecoveryDetailResponse "" ""
  "".

Record GenerationIdentity := MkGenerationIdentity { gi_Seat : string; gi_SessionID : string }.
#[export] Instance eta_GenerationIdentity : Eta GenerationIdentity := fun r =>
  MkGenerationIdentity (gi_Seat r) (gi_SessionID r).
#[export] Hint Extern 1 (@Setter GenerationIdentity _ _) => setter_of eta_GenerationIdentity : typeclass_instances.
Definition new_GenerationIdentity : GenerationIdentity := MkGenerationIdentity "" "".

Record GenerationIssue := MkGenerationIssue { gis_Path : string; gis_Code : string; gis_Message : string }.
#[export] Instance eta_GenerationIssue : Eta GenerationIssue := fun r =>
  MkGenerationIssue (gis_Path r) (gis_Code r) (gis_Message r).
#[export] Hint Extern 1 (@Setter GenerationIssue _ _) => setter_of eta_GenerationIssue : typeclass_instances.
Definition new_GenerationIssue : GenerationIssue := MkGenerationIssue "" "" "".

Record GenerationPage := MkGenerationPage { gp_Generations : option (list GenerationIdentity);
  gp_Issues : option (list GenerationIssue); gp_Cursor : string; gp_More : bool; gp_Complete : bool }.
#[export] Instance eta_GenerationPage : Eta GenerationPage := fun r =>
  MkGenerationPage (gp_Generations r) (gp_Issues r) (gp_Cursor r) (gp_More r) (gp_Complete r).
#[export] Hint Extern 1 (@Setter GenerationPage _ _) => setter_of eta_GenerationPage : typeclass_instances.
Definition new_GenerationPage : GenerationPage := MkGenerationPage None None "" false false.

Record UsageCounters := MkUsageCounters { uc_TotalInputTokens : option Z; uc_InputTokens : option Z;
  uc_OutputTokens : option Z; uc_CacheReadInputTokens : option Z; uc_CacheCreationInputTokens : option Z;
  uc_ReasoningTokens : option Z }.
#[export] Instance eta_UsageCounters : Eta UsageCounters := fun r =>
  MkUsageCounters (uc_TotalInputTokens r) (uc_InputTokens r) (uc_OutputTokens r) (uc_CacheReadInputTokens r)
    (uc_CacheCreationInputTokens r) (uc_ReasoningTokens r).
#[export] Hint Extern 1 (@Setter UsageCounters _ _) => setter_of eta_UsageCounters : typeclass_instances.
Definition new_UsageCounters : UsageCounters := MkUsageCounters None None None None None None.

Record UsageRequestRef := MkUsageRequestRef { ur_RequestID : string; ur_AttemptID : string }.
#[export] Instance eta_UsageRequestRef : Eta UsageRequestRef := fun r =>
  MkUsageRequestRef (ur_RequestID r) (ur_AttemptID r).
#[export] Hint Extern 1 (@Setter UsageRequestRef _ _) => setter_of eta_UsageRequestRef : typeclass_instances.
Definition new_UsageRequestRef : UsageRequestRef := MkUsageRequestRef "" "".

Record UsageFact := MkUsageFact { fact_InvocationID : string; fact_ProviderAttemptID : string;
  fact_ProviderRequestID : string; fact_ProviderResponseID : string; fact_Seq : Z; fact_CallID : string;
  fact_Seat : string; fact_SessionID : string; fact_Kind : string; fact_State : string; fact_Provider : string;
  fact_Model : string; fact_TurnID : string; fact_Requests : option (list UsageRequestRef);
  fact_Cause : string; fact_StartedAt : string; fact_FinishedAt : string; fact_Counters : UsageCounters;
  fact_ContextTokens : option Z; fact_APIEquivalentCostUSD : option float64; fact_CounterSource : string;
  fact_CostSource : string; fact_Coverage : string; fact_ProtocolTokenDeltaTotal : option Z }.
#[export] Instance eta_UsageFact : Eta UsageFact := fun r =>
  MkUsageFact (fact_InvocationID r) (fact_ProviderAttemptID r) (fact_ProviderRequestID r)
    (fact_ProviderResponseID r) (fact_Seq r) (fact_CallID r) (fact_Seat r) (fact_SessionID r) (fact_Kind r)
    (fact_State r) (fact_Provider r) (fact_Model r) (fact_TurnID r) (fact_Requests r) (fact_Cause r)
    (fact_StartedAt r) (fact_FinishedAt r) (fact_Counters r) (fact_ContextTokens r) (fact_APIEquivalentCostUSD
    r) (fact_CounterSource r) (fact_CostSource r) (fact_Coverage r) (fact_ProtocolTokenDeltaTotal r).
#[export] Hint Extern 1 (@Setter UsageFact _ _) => setter_of eta_UsageFact : typeclass_instances.
Definition new_UsageFact : UsageFact := MkUsageFact "" "" "" "" 0%Z "" "" "" "" "" "" "" "" None "" "" ""
  new_UsageCounters None None "" "" "" None.

Record UsagePage := MkUsagePage { up_Seat : string; up_SessionID : string; up_Facts : option (list UsageFact);
  up_Next : Z; up_More : bool }.
#[export] Instance eta_UsagePage : Eta UsagePage := fun r =>
  MkUsagePage (up_Seat r) (up_SessionID r) (up_Facts r) (up_Next r) (up_More r).
#[export] Hint Extern 1 (@Setter UsagePage _ _) => setter_of eta_UsagePage : typeclass_instances.
Definition new_UsagePage : UsagePage := MkUsagePage "" "" None 0%Z false.

Record RequestReceipt := MkRequestReceipt { rr_RequestID : string; rr_SessionID : string; rr_Seat : string;
  rr_State : string; rr_AttemptID : string; rr_TurnIDs : option (list string); rr_Cause : string;
  rr_Reason : string; rr_AcceptedAt : string; rr_UpdatedAt : string }.
#[export] Instance eta_RequestReceipt : Eta RequestReceipt := fun r =>
  MkRequestReceipt (rr_RequestID r) (rr_SessionID r) (rr_Seat r) (rr_State r) (rr_AttemptID r) (rr_TurnIDs r)
    (rr_Cause r) (rr_Reason r) (rr_AcceptedAt r) (rr_UpdatedAt r).
#[export] Hint Extern 1 (@Setter RequestReceipt _ _) => setter_of eta_RequestReceipt : typeclass_instances.
Definition new_RequestReceipt : RequestReceipt := MkRequestReceipt "" "" "" "" "" None "" "" "" "".

(** ** How they are written *)

Section Fields.
Context `{FloatText, Base64, TimeText}.

Definition SpawnResponse_fields : list (field SpawnResponse) :=
  [must "session_id" text spd_SessionID; must "pid" int64 spd_PID; must "warm" boolean spd_Warm].
Definition SpawnResponse_json : codec SpawnResponse := struct new_SpawnResponse SpawnResponse_fields.

Definition ReleaseResponse_fields : list (field ReleaseResponse) :=
  [may "session_id" text rld_SessionID; may "name" text rld_Name; must "disposition" text rld_Disposition].
Definition ReleaseResponse_json : codec ReleaseResponse := struct new_ReleaseResponse ReleaseResponse_fields.

Definition SessionStatus_fields : list (field SessionStatus) :=
  [must "session_id" text ses_SessionID; must "provider" text ses_Provider; must "mode" text ses_Mode;
   may "model" text ses_Model; must "intent" text ses_Intent; must "workdir" text ses_WorkDir;
   must "pid" int64 ses_PID; must "warm" boolean ses_Warm].
Definition SessionStatus_json : codec SessionStatus := struct new_SessionStatus SessionStatus_fields.

Definition TurnCaps_fields : list (field TurnCaps) :=
  [must "can_interrupt" boolean cap_CanInterrupt; must "can_steer" boolean cap_CanSteer;
   may "steer_policy" text cap_SteerPolicy; may "busy_on_second_submit" text cap_BusyOnSecondSubmit].
Definition TurnCaps_json : codec TurnCaps := struct new_TurnCaps TurnCaps_fields.

Definition GrantStatus_fields : list (field GrantStatus) :=
  [must "name" text gs_Name; must "provider" text gs_Provider; may "model" text gs_Model;
   may "session_id" text gs_SessionID; may "workdir" text gs_WorkDir; may "purpose" text gs_Purpose;
   may "parent" text gs_Parent; must "owned" boolean gs_Owned; may "owner_conn" int64 gs_OwnerConn;
   may "owner_pid" int64 gs_OwnerPID; must "alive" boolean gs_Alive; may "pending" int64 gs_Pending;
   may "turn_caps" (pointer TurnCaps_json) gs_TurnCaps].
Definition GrantStatus_json : codec GrantStatus := struct new_GrantStatus GrantStatus_fields.

Definition StatusResponse_fields : list (field StatusResponse) :=
  [must "protocol_version" int64 sta_ProtocolVersion; must "active_agents" int64 sta_ActiveAgents;
   must "warm_pool" int64 sta_WarmPool; must "sessions" (slice SessionStatus_json) sta_Sessions;
   may "grants" (slice GrantStatus_json) sta_Grants; may "tasks" int64 sta_Tasks;
   may "usage_fetched_at" timestamp sta_UsageFetchedAt].
Definition StatusResponse_json : codec StatusResponse := struct new_StatusResponse StatusResponse_fields.

Definition EventMessage_fields : list (field EventMessage) :=
  [must "kind" text ev_Kind; may "session_id" text ev_SessionID; may "name" text ev_Name;
   may "detail" text ev_Detail; must "at" timestamp ev_At].
Definition EventMessage_json : codec EventMessage := struct new_EventMessage EventMessage_fields.

Definition ErrorMessage_fields : list (field ErrorMessage) :=
  [must "code" text em_Code; must "message" text em_Message; may "field" text em_Field;
   may "value" text em_Value; may "supported_versions" (slice int64) em_SupportedVersions].
Definition ErrorMessage_json : codec ErrorMessage := struct new_ErrorMessage ErrorMessage_fields.

Definition UsageResponse_fields : list (field UsageResponse) :=
  [may "fetched_at" timestamp usd_FetchedAt; must "backends" raw usd_Backends; may "error" text usd_Error;
   may "unlaunchable" string_map usd_Unlaunchable].
Definition UsageResponse_json : codec UsageResponse := struct new_UsageResponse UsageResponse_fields.

Definition ResolveResponse_fields : list (field ResolveResponse) :=
  [must "pick" raw rvd_Pick].
Definition ResolveResponse_json : codec ResolveResponse := struct new_ResolveResponse ResolveResponse_fields.

Definition JudgedResponse_fields : list (field JudgedResponse) :=
  [may "result" raw jgd_Result; may "status" int64 jgd_Status; may "error" text jgd_Error;
   may "no_key" boolean jgd_NoKey].
Definition JudgedResponse_json : codec JudgedResponse := struct new_JudgedResponse JudgedResponse_fields.

Definition TaskStartedResponse_fields : list (field TaskStartedResponse) :=
  [must "run_id" text ts_RunID; may "provider" text ts_Provider;
   may "remaining_percent" (pointer number) ts_RemainingPercent].
Definition TaskStartedResponse_json : codec TaskStartedResponse := struct new_TaskStartedResponse TaskStartedResponse_fields.

Definition TaskEventMessage_fields : list (field TaskEventMessage) :=
  [must "run_id" text te_RunID; must "event" raw te_Event].
Definition TaskEventMessage_json : codec TaskEventMessage := struct new_TaskEventMessage TaskEventMessage_fields.

Definition TaskRawMessage_fields : list (field TaskRawMessage) :=
  [must "run_id" text tw_RunID; must "line" text tw_Line].
Definition TaskRawMessage_json : codec TaskRawMessage := struct new_TaskRawMessage TaskRawMessage_fields.

Definition TaskDoneMessage_fields : list (field TaskDoneMessage) :=
  [must "run_id" text td_RunID; may "error" text td_Error].
Definition TaskDoneMessage_json : codec TaskDoneMessage := struct new_TaskDoneMessage TaskDoneMessage_fields.

Definition TaskCancelledResponse_fields : list (field TaskCancelledResponse) :=
  [must "run_id" text tcd_RunID].
Definition TaskCancelledResponse_json : codec TaskCancelledResponse := struct new_TaskCancelledResponse TaskCancelledResponse_fields.

Definition GrantResponse_fields : list (field GrantResponse) :=
  [must "name" text grd_Name; must "session_id" text grd_SessionID; must "provider" text grd_Provider;
   may "model" text grd_Model; may "window_id" text grd_WindowID; may "jsonl_path" text grd_JSONLPath;
   may "term_log_path" text grd_TermLogPath; may "attach_command" text grd_AttachCommand;
   may "connect_url" text grd_ConnectURL; may "connect_pid" int64 grd_ConnectPID;
   must "reclaimed" boolean grd_Reclaimed; may "replayed" int64 grd_Replayed; may "lagged" boolean grd_Lagged;
   may "turn_caps" (pointer TurnCaps_json) grd_TurnCaps; may "durable_receipts" boolean grd_DurableReceipts;
   may "remaining_percent" (pointer number) grd_RemainingPercent;
   may "mcp_unavailable" (slice text) grd_MCPUnavailable].
Definition GrantResponse_json : codec GrantResponse := struct new_GrantResponse GrantResponse_fields.

Definition AgentEventMessage_fields : list (field AgentEventMessage) :=
  [must "name" text ae_Name; must "event" raw ae_Event].
Definition AgentEventMessage_json : codec AgentEventMessage := struct new_AgentEventMessage AgentEventMessage_fields.

Definition AgentTermMessage_fields : list (field AgentTermMessage) :=
  [must "name" text at_Name; must "data" base64 at_Data].
Definition AgentTermMessage_json : codec AgentTermMessage := struct new_AgentTermMessage AgentTermMessage_fields.

Definition AgentGoneMessage_fields : list (field AgentGoneMessage) :=
  [must "name" text ag_Name; may "reason" text ag_Reason].
Definition AgentGoneMessage_json : codec AgentGoneMessage := struct new_AgentGoneMessage AgentGoneMessage_fields.

Definition AgentDetachedMessage_fields : list (field AgentDetachedMessage) :=
  [must "name" text ad_Name; may "reason" text ad_Reason].
Definition AgentDetachedMessage_json : codec AgentDetachedMessage := struct new_AgentDetachedMessage AgentDetachedMessage_fields.

Definition NamedResponse_fields : list (field NamedResponse) :=
  [must "name" text nmd_Name].
Definition NamedResponse_json : codec NamedResponse := struct new_NamedResponse NamedResponse_fields.

Definition SentResponse_fields : list (field SentResponse) :=
  [must "name" text sdd_Name; may "mode" text sdd_Mode; may "mechanism" text sdd_Mechanism;
   may "phase_before" text sdd_PhaseBefore; may "superseded_turn_id" text sdd_SupersededTurnID].
Definition SentResponse_json : codec SentResponse := struct new_SentResponse SentResponse_fields.

Definition CompactResponse_fields : list (field CompactResponse) :=
  [must "name" text cpd_Name; must "tokens_before" int64 cpd_TokensBefore;
   must "tokens_after" int64 cpd_TokensAfter; must "committed" boolean cpd_Committed].
Definition CompactResponse_json : codec CompactResponse := struct new_CompactResponse CompactResponse_fields.

Definition GoalCheckMessage_fields : list (field GoalCheckMessage) :=
  [must "name" text gc_Name; must "check_id" text gc_CheckID; must "goal" text gc_Goal;
   must "turn_text" text gc_TurnText].
Definition GoalCheckMessage_json : codec GoalCheckMessage := struct new_GoalCheckMessage GoalCheckMessage_fields.

Definition RewindResponse_fields : list (field RewindResponse) :=
  [must "name" text rwd_Name; must "session_id" text rwd_SessionID; must "provider" text rwd_Provider;
   may "model" text rwd_Model; may "window_id" text rwd_WindowID; may "jsonl_path" text rwd_JSONLPath;
   may "term_log_path" text rwd_TermLogPath; may "attach_command" text rwd_AttachCommand;
   must "turns_removed" int64 rwd_TurnsRemoved; must "lines_removed" int64 rwd_LinesRemoved;
   must "bytes_removed" int64 rwd_BytesRemoved; may "backup_path" text rwd_BackupPath].
Definition RewindResponse_json : codec RewindResponse := struct new_RewindResponse RewindResponse_fields.

Definition AgentInfoResponse_fields : list (field AgentInfoResponse) :=
  [must "name" text ai_Name; must "session_id" text ai_SessionID; must "provider" text ai_Provider;
   may "model" text ai_Model; must "alive" boolean ai_Alive; must "prompt_in_flight" boolean ai_PromptInFlight;
   may "usage" raw ai_Usage; may "window_id" text ai_WindowID; may "jsonl_path" text ai_JSONLPath;
   may "term_log_path" text ai_TermLogPath; may "attach_command" text ai_AttachCommand;
   may "connect_url" text ai_ConnectURL; may "connect_pid" int64 ai_ConnectPID;
   may "turn_caps" (pointer TurnCaps_json) ai_TurnCaps].
Definition AgentInfoResponse_json : codec AgentInfoResponse := struct new_AgentInfoResponse AgentInfoResponse_fields.

Definition TermSubscribedResponse_fields : list (field TermSubscribedResponse) :=
  [must "name" text tm_Name; may "history" base64 tm_History].
Definition TermSubscribedResponse_json : codec TermSubscribedResponse := struct new_TermSubscribedResponse TermSubscribedResponse_fields.

Definition GrantsResponse_fields : list (field GrantsResponse) :=
  [must "grants" (slice GrantStatus_json) gsd_Grants].
Definition GrantsResponse_json : codec GrantsResponse := struct new_GrantsResponse GrantsResponse_fields.

Definition PlanAuth_fields : list (field PlanAuth) :=
  [must "provider" text pa_Provider; must "state" text pa_State; may "detail" text pa_Detail;
   may "since" timestamp pa_Since].
Definition PlanAuth_json : codec PlanAuth := struct new_PlanAuth PlanAuth_fields.

Definition AuthStatusResponse_fields : list (field AuthStatusResponse) :=
  [must "plans" (slice PlanAuth_json) as_Plans].
Definition AuthStatusResponse_json : codec AuthStatusResponse := struct new_AuthStatusResponse AuthStatusResponse_fields.

Definition FleetResponse_fields : list (field FleetResponse) :=
  [may "result" raw fld_Result].
Definition FleetResponse_json : codec FleetResponse := struct new_FleetResponse FleetResponse_fields.

Definition AuthRecoveryDetailResponse_fields : list (field AuthRecoveryDetailResponse) :=
  [must "provider" text adr_Provider; must "outcome" text adr_Outcome;
   must "classification" text adr_Classification].
Definition AuthRecoveryDetailResponse_json : codec AuthRecoveryDetailResponse := struct new_AuthRecoveryDetailResponse AuthRecoveryDetailResponse_fields.

Definition GenerationIdentity_fields : list (field GenerationIdentity) :=
  [must "seat" text gi_Seat; must "session_id" text gi_SessionID].
Definition GenerationIdentity_json : codec GenerationIdentity := struct new_GenerationIdentity GenerationIdentity_fields.

Definition GenerationIssue_fields : list (field GenerationIssue) :=
  [must "path" text gis_Path; must "code" text gis_Code; must "message" text gis_Message].
Definition GenerationIssue_json : codec GenerationIssue := struct new_GenerationIssue GenerationIssue_fields.

Definition GenerationPage_fields : list (field GenerationPage) :=
  [must "generations" (slice GenerationIdentity_json) gp_Generations;
   must "issues" (slice GenerationIssue_json) gp_Issues; must "cursor" text gp_Cursor;
   must "more" boolean gp_More; must "complete" boolean gp_Complete].
Definition GenerationPage_json : codec GenerationPage := struct new_GenerationPage GenerationPage_fields.

Definition UsageCounters_fields : list (field UsageCounters) :=
  [may "total_input_tokens" (pointer int64) uc_TotalInputTokens;
   may "input_tokens" (pointer int64) uc_InputTokens; may "output_tokens" (pointer int64) uc_OutputTokens;
   may "cache_read_input_tokens" (pointer int64) uc_CacheReadInputTokens;
   may "cache_creation_input_tokens" (pointer int64) uc_CacheCreationInputTokens;
   may "reasoning_tokens" (pointer int64) uc_ReasoningTokens].
Definition UsageCounters_json : codec UsageCounters := struct new_UsageCounters UsageCounters_fields.

Definition UsageRequestRef_fields : list (field UsageRequestRef) :=
  [must "request_id" text ur_RequestID; must "attempt_id" text ur_AttemptID].
Definition UsageRequestRef_json : codec UsageRequestRef := struct new_UsageRequestRef UsageRequestRef_fields.

Definition UsageFact_fields : list (field UsageFact) :=
  [may "invocation_id" text fact_InvocationID; may "provider_attempt_id" text fact_ProviderAttemptID;
   may "provider_request_id" text fact_ProviderRequestID;
   may "provider_response_id" text fact_ProviderResponseID; must "seq" uint64 fact_Seq;
   must "call_id" text fact_CallID; must "seat" text fact_Seat; must "session_id" text fact_SessionID;
   must "kind" text fact_Kind; must "state" text fact_State; must "provider" text fact_Provider;
   must "model" text fact_Model; may "turn_id" text fact_TurnID;
   must "requests" (slice UsageRequestRef_json) fact_Requests; may "cause" text fact_Cause;
   must "started_at" text fact_StartedAt; may "finished_at" text fact_FinishedAt;
   must "counters" UsageCounters_json fact_Counters; may "context_tokens" (pointer int64) fact_ContextTokens;
   may "api_equivalent_cost_usd" (pointer number) fact_APIEquivalentCostUSD;
   must "counter_source" text fact_CounterSource; may "cost_source" text fact_CostSource;
   must "coverage" text fact_Coverage;
   may "protocol_token_delta_total" (pointer int64) fact_ProtocolTokenDeltaTotal].
Definition UsageFact_json : codec UsageFact := struct new_UsageFact UsageFact_fields.

Definition UsagePage_fields : list (field UsagePage) :=
  [must "seat" text up_Seat; must "session_id" text up_SessionID; must "facts" (slice UsageFact_json) up_Facts;
   must "next" uint64 up_Next; must "more" boolean up_More].
Definition UsagePage_json : codec UsagePage := struct new_UsagePage UsagePage_fields.

Definition RequestReceipt_fields : list (field RequestReceipt) :=
  [must "request_id" text rr_RequestID; must "session_id" text rr_SessionID; must "seat" text rr_Seat;
   must "state" text rr_State; must "attempt_id" text rr_AttemptID; must "turn_ids" (slice text) rr_TurnIDs;
   may "cause" text rr_Cause; may "reason" text rr_Reason; may "accepted_at" text rr_AcceptedAt;
   may "updated_at" text rr_UpdatedAt].
Definition RequestReceipt_json : codec RequestReceipt := struct new_RequestReceipt RequestReceipt_fields.

End Fields.

(** ** The message *)

Record Response := MkResponse { rs_ID : string; rs_Type : string; rs_Spawned : option SpawnResponse;
  rs_Released : option ReleaseResponse; rs_Status : option StatusResponse; rs_Tailing : option unit;
  rs_Event : option EventMessage; rs_Error : option ErrorMessage; rs_Usage : option UsageResponse;
  rs_Resolved : option ResolveResponse; rs_TaskStarted : option TaskStartedResponse;
  rs_TaskEvent : option TaskEventMessage; rs_TaskDone : option TaskDoneMessage;
  rs_TaskRaw : option TaskRawMessage; rs_TaskCancelled : option TaskCancelledResponse;
  rs_Granted : option GrantResponse; rs_AgentEvent : option AgentEventMessage;
  rs_AgentTerm : option AgentTermMessage; rs_AgentGone : option AgentGoneMessage;
  rs_AgentDetached : option AgentDetachedMessage; rs_Sent : option SentResponse;
  rs_Interrupted : option NamedResponse; rs_ModelSet : option NamedResponse;
  rs_Compact : option CompactResponse; rs_AgentInfo : option AgentInfoResponse;
  rs_TermSubscribed : option TermSubscribedResponse; rs_Resized : option NamedResponse;
  rs_Grants : option GrantsResponse; rs_GoalClosed : option NamedResponse; rs_Rewound : option RewindResponse;
  rs_GoalCheck : option GoalCheckMessage; rs_GoalVerdictNoted : option NamedResponse;
  rs_Judged : option JudgedResponse; rs_AuthRecovered : option NamedResponse;
  rs_AuthDetail : option AuthRecoveryDetailResponse; rs_AuthStatus : option AuthStatusResponse;
  rs_Receipt : option RequestReceipt; rs_Generations : option GenerationPage; rs_Fleet : option FleetResponse;
  rs_UsageFacts : option UsagePage }.
#[export] Instance eta_Response : Eta Response := fun r =>
  MkResponse (rs_ID r) (rs_Type r) (rs_Spawned r) (rs_Released r) (rs_Status r) (rs_Tailing r) (rs_Event r)
    (rs_Error r) (rs_Usage r) (rs_Resolved r) (rs_TaskStarted r) (rs_TaskEvent r) (rs_TaskDone r) (rs_TaskRaw
    r) (rs_TaskCancelled r) (rs_Granted r) (rs_AgentEvent r) (rs_AgentTerm r) (rs_AgentGone r)
    (rs_AgentDetached r) (rs_Sent r) (rs_Interrupted r) (rs_ModelSet r) (rs_Compact r) (rs_AgentInfo r)
    (rs_TermSubscribed r) (rs_Resized r) (rs_Grants r) (rs_GoalClosed r) (rs_Rewound r) (rs_GoalCheck r)
    (rs_GoalVerdictNoted r) (rs_Judged r) (rs_AuthRecovered r) (rs_AuthDetail r) (rs_AuthStatus r) (rs_Receipt
    r) (rs_Generations r) (rs_Fleet r) (rs_UsageFacts r).
#[export] Hint Extern 1 (@Setter Response _ _) => setter_of eta_Response : typeclass_instances.
Definition new_Response (id t : string) : Response := MkResponse id t None None None None None None None None
  None None None None None None None None None None None None None None None None None None None None None
  None None None None None None None None None.

(** ** Each is its fields *)

Section Laws.
Context `{FloatText, Base64, TimeText}.

#[export] Instance SpawnResponse_lawful : LawfulStruct new_SpawnResponse SpawnResponse_fields.
Proof. lawful_struct. Qed.
#[export] Instance ReleaseResponse_lawful : LawfulStruct new_ReleaseResponse ReleaseResponse_fields.
Proof. lawful_struct. Qed.
#[export] Instance SessionStatus_lawful : LawfulStruct new_SessionStatus SessionStatus_fields.
Proof. lawful_struct. Qed.
#[export] Instance TurnCaps_lawful : LawfulStruct new_TurnCaps TurnCaps_fields.
Proof. lawful_struct. Qed.
#[export] Instance GrantStatus_lawful : LawfulStruct new_GrantStatus GrantStatus_fields.
Proof. lawful_struct. Qed.
#[export] Instance StatusResponse_lawful : LawfulStruct new_StatusResponse StatusResponse_fields.
Proof. lawful_struct. Qed.
#[export] Instance EventMessage_lawful : LawfulStruct new_EventMessage EventMessage_fields.
Proof. lawful_struct. Qed.
#[export] Instance ErrorMessage_lawful : LawfulStruct new_ErrorMessage ErrorMessage_fields.
Proof. lawful_struct. Qed.
#[export] Instance UsageResponse_lawful : LawfulStruct new_UsageResponse UsageResponse_fields.
Proof. lawful_struct. Qed.
#[export] Instance ResolveResponse_lawful : LawfulStruct new_ResolveResponse ResolveResponse_fields.
Proof. lawful_struct. Qed.
#[export] Instance JudgedResponse_lawful : LawfulStruct new_JudgedResponse JudgedResponse_fields.
Proof. lawful_struct. Qed.
#[export] Instance TaskStartedResponse_lawful : LawfulStruct new_TaskStartedResponse TaskStartedResponse_fields.
Proof. lawful_struct. Qed.
#[export] Instance TaskEventMessage_lawful : LawfulStruct new_TaskEventMessage TaskEventMessage_fields.
Proof. lawful_struct. Qed.
#[export] Instance TaskRawMessage_lawful : LawfulStruct new_TaskRawMessage TaskRawMessage_fields.
Proof. lawful_struct. Qed.
#[export] Instance TaskDoneMessage_lawful : LawfulStruct new_TaskDoneMessage TaskDoneMessage_fields.
Proof. lawful_struct. Qed.
#[export] Instance TaskCancelledResponse_lawful : LawfulStruct new_TaskCancelledResponse TaskCancelledResponse_fields.
Proof. lawful_struct. Qed.
#[export] Instance GrantResponse_lawful : LawfulStruct new_GrantResponse GrantResponse_fields.
Proof. lawful_struct. Qed.
#[export] Instance AgentEventMessage_lawful : LawfulStruct new_AgentEventMessage AgentEventMessage_fields.
Proof. lawful_struct. Qed.
#[export] Instance AgentTermMessage_lawful : LawfulStruct new_AgentTermMessage AgentTermMessage_fields.
Proof. lawful_struct. Qed.
#[export] Instance AgentGoneMessage_lawful : LawfulStruct new_AgentGoneMessage AgentGoneMessage_fields.
Proof. lawful_struct. Qed.
#[export] Instance AgentDetachedMessage_lawful : LawfulStruct new_AgentDetachedMessage AgentDetachedMessage_fields.
Proof. lawful_struct. Qed.
#[export] Instance NamedResponse_lawful : LawfulStruct new_NamedResponse NamedResponse_fields.
Proof. lawful_struct. Qed.
#[export] Instance SentResponse_lawful : LawfulStruct new_SentResponse SentResponse_fields.
Proof. lawful_struct. Qed.
#[export] Instance CompactResponse_lawful : LawfulStruct new_CompactResponse CompactResponse_fields.
Proof. lawful_struct. Qed.
#[export] Instance GoalCheckMessage_lawful : LawfulStruct new_GoalCheckMessage GoalCheckMessage_fields.
Proof. lawful_struct. Qed.
#[export] Instance RewindResponse_lawful : LawfulStruct new_RewindResponse RewindResponse_fields.
Proof. lawful_struct. Qed.
#[export] Instance AgentInfoResponse_lawful : LawfulStruct new_AgentInfoResponse AgentInfoResponse_fields.
Proof. lawful_struct. Qed.
#[export] Instance TermSubscribedResponse_lawful : LawfulStruct new_TermSubscribedResponse TermSubscribedResponse_fields.
Proof. lawful_struct. Qed.
#[export] Instance GrantsResponse_lawful : LawfulStruct new_GrantsResponse GrantsResponse_fields.
Proof. lawful_struct. Qed.
#[export] Instance PlanAuth_lawful : LawfulStruct new_PlanAuth PlanAuth_fields.
Proof. lawful_struct. Qed.
#[export] Instance AuthStatusResponse_lawful : LawfulStruct new_AuthStatusResponse AuthStatusResponse_fields.
Proof. lawful_struct. Qed.
#[export] Instance FleetResponse_lawful : LawfulStruct new_FleetResponse FleetResponse_fields.
Proof. lawful_struct. Qed.
#[export] Instance AuthRecoveryDetailResponse_lawful : LawfulStruct new_AuthRecoveryDetailResponse AuthRecoveryDetailResponse_fields.
Proof. lawful_struct. Qed.
#[export] Instance GenerationIdentity_lawful : LawfulStruct new_GenerationIdentity GenerationIdentity_fields.
Proof. lawful_struct. Qed.
#[export] Instance GenerationIssue_lawful : LawfulStruct new_GenerationIssue GenerationIssue_fields.
Proof. lawful_struct. Qed.
#[export] Instance GenerationPage_lawful : LawfulStruct new_GenerationPage GenerationPage_fields.
Proof. lawful_struct. Qed.
#[export] Instance UsageCounters_lawful : LawfulStruct new_UsageCounters UsageCounters_fields.
Proof. lawful_struct. Qed.
#[export] Instance UsageRequestRef_lawful : LawfulStruct new_UsageRequestRef UsageRequestRef_fields.
Proof. lawful_struct. Qed.
#[export] Instance UsageFact_lawful : LawfulStruct new_UsageFact UsageFact_fields.
Proof. lawful_struct. Qed.
#[export] Instance UsagePage_lawful : LawfulStruct new_UsagePage UsagePage_fields.
Proof. lawful_struct. Qed.
#[export] Instance RequestReceipt_lawful : LawfulStruct new_RequestReceipt RequestReceipt_fields.
Proof. lawful_struct. Qed.

End Laws.
