(* ===== verification/WireTypes.v ===== *)
(** * WireTypes: the names of the broker's protocol, and its refusals

    The types of messages, the codes of refusals and [ProtocolError] of
    [internal/broker/wire*.go], with what [server.go] makes of a provider's error. *)

From S2P Require Import Prelude GoLib WireResponses.

(** ** Message types *)

Definition TypeSpawn : string := "spawn".
Definition TypeRelease : string := "release".
Definition TypeStatus : string := "status".
Definition TypeTail : string := "tail".
Definition TypeSpawned : string := "spawned".
Definition TypeReleased : string := "released".
Definition TypeStatusResult : string := "status_result".
Definition TypeTailing : string := "tailing".
Definition TypeEvent : string := "event".
Definition TypeError : string := "error".
Definition TypeUsage : string := "usage".
Definition TypeResolve : string := "resolve".
Definition TypeTaskRun : string := "task_run".
Definition TypeTaskRunRestricted : string := "task_run_restricted".
Definition TypeTaskCancel : string := "task_cancel".
Definition TypeGrant : string := "grant".
Definition TypeSend : string := "send".
Definition TypeInterrupt : string := "interrupt".
Definition TypeSetModel : string := "set_model".
Definition TypeCompact : string := "compact".
Definition TypeAgentInfo : string := "agent_info".
Definition TypeTermSubscribe : string := "term_subscribe".
Definition TypeResize : string := "resize".
Definition TypeGrants : string := "grants".
Definition TypeCloseGoal : string := "close_goal".
Definition TypeRewind : string := "rewind".
Definition TypeGoalVerdict : string := "goal_verdict".
Definition TypeJudge : string := "judge".
Definition TypeAuthRecover : string := "auth_recover".
Definition TypeAuthStatus : string := "auth_status".
Definition TypeUsageResult : string := "usage_result".
Definition TypeResolved : string := "resolved".
Definition TypeTaskStarted : string := "task_started".
Definition TypeTaskEvent : string := "task_event".
Definition TypeTaskDone : string := "task_done".
Definition TypeTaskRaw : string := "task_raw".
Definition TypeTaskCancelled : string := "task_cancelled".
Definition TypeGranted : string := "granted".
Definition TypeAgentEvent : string := "agent_event".
Definition TypeAgentTerm : string := "agent_term".
Definition TypeAgentGone : string := "agent_gone".
Definition TypeAgentDetached : string := "agent_detached".
Definition TypeSent : string := "sent".
Definition TypeInterrupted : string := "interrupted".
Definition TypeModelSet : string := "model_set".
Definition TypeCompactResult : string := "compact_result".
Definition TypeAgentInfoResult : string := "agent_info_result".
Definition TypeTermSubscribed : string := "term_subscribed".
Definition TypeResized : string := "resized".
Definition TypeGrantsResult : string := "grants_result".
Definition TypeGoalClosed : string := "goal_closed".
Definition TypeRewound : string := "rewound".
Definition TypeGoalCheck : string := "goal_check".
Definition TypeGoalVerdictNoted : string := "goal_verdict_noted".
Definition TypeJudged : string := "judged".
Definition TypeAuthRecovered : string := "auth_recovered".
Definition TypeAuthStatusResult : string := "auth_status_result".
Definition TypeFleet : string := "fleet".
Definition TypeFleetResult : string := "fleet_result".
Definition TypeGenerations : string := "generations".
Definition TypeGenerationsResult : string := "generations_result".
Definition TypeReceipt : string := "receipt".
Definition TypeReceiptResult : string := "receipt_result".
Definition TypeUsageFacts : string := "usage_facts".
Definition TypeUsageFactsResult : string := "usage_facts_result".
Definition TypeAuthRecoverDetail : string := "auth_recover_detail".
Definition TypeAuthRecoveryDetail : string := "auth_recovery_detail".

(** ** Codes *)

Definition CodeUnsupportedVersion : string := "unsupported_version".
Definition CodeMalformed : string := "malformed".
Definition CodeUnknownField : string := "unknown_field".
Definition CodeUnknownType : string := "unknown_type".
Definition CodeNotARequest : string := "not_a_request".
Definition CodeNotAResponse : string := "not_a_response".
Definition CodeMissingField : string := "missing_field".
Definition CodeUnsupportedValue : string := "unsupported_value".
Definition CodeTaskCLIRemoved : string := "task_cli_removed".
Definition CodeUnknownSession : string := "unknown_session".
Definition CodeNotOwner : string := "not_owner".
Definition CodeSpawnFailed : string := "spawn_failed".
Definition CodeReleaseFailed : string := "release_failed".
Definition CodeFrameTooLarge : string := "frame_too_large".
Definition CodeTailLagged : string := "tail_lagged".
Definition CodeUnknownGrant : string := "unknown_grant".
Definition CodeGrantHeld : string := "grant_held".
Definition CodeProviderMismatch : string := "provider_mismatch".
Definition CodeNotAvailable : string := "not_available".
Definition CodeAgentFailed : string := "agent_failed".
Definition CodeUnknownRun : string := "unknown_run".
Definition CodePlanExhausted : string := "plan_exhausted".
Definition CodeConsumerPolicyHold : string := "consumer_policy_hold".

(** ** What a released agent becomes *)

Definition DispositionStop : string := "stop".
Definition DispositionReuse : string := "reuse".
Definition DispositionDetach : string := "detach".

(** ** Refusals *)

(** [ProtocolError] without its text for people. *)
Record ProtocolError := MkProtocolError {
  pe_Code : string; pe_Field : string; pe_Value : string; pe_SupportedVersions : option (list Z); pe_ID : string }.
#[export] Instance eta_ProtocolError : Eta ProtocolError := fun e =>
  MkProtocolError (pe_Code e) (pe_Field e) (pe_Value e) (pe_SupportedVersions e) (pe_ID e).
#[export] Hint Extern 1 (@Setter ProtocolError _ _) => setter_of eta_ProtocolError : typeclass_instances.
#[export] Instance ProtocolError_eq_dec : EqDecision ProtocolError.
Proof. solve_decision. Defined.

Definition refusal (code field value : string) : ProtocolError := MkProtocolError code field value None "".

(** [Wire] and [Err]; the text is [msg]. *)
Definition Wire (msg : string) (e : ProtocolError) : ErrorMessage :=
  MkErrorMessage (pe_Code e) msg (pe_Field e) (pe_Value e) (pe_SupportedVersions e).
Definition Err (m : ErrorMessage) : ProtocolError :=
  MkProtocolError (em_Code m) (em_Field m) (em_Value m) (em_SupportedVersions m) "".

(** [ProviderCause]. *)
Definition ProviderCause (e : option ProtocolError) : string :=
  match e with
  | Some e => if decide (pe_Code e = CodeAgentFailed /\ pe_Field e = "") then pe_Value e else ""
  | None => ""
  end.

(** [Unwrap]: an oversized frame, whoever refused it. *)
Definition IsFrameTooLarge (e : ProtocolError) : bool := bool_decide (pe_Code e = CodeFrameTooLarge).

(** [providerCause] and [agentFailed] of an error that is a refusal, or that is
    another and may name its cause. *)
Definition providerCause (err : ProtocolError + option string) : string :=
  match err with inl e => ProviderCause (Some e) | inr cause => default "" cause end.
Definition agentFailed (err : ProtocolError + option string) : ProtocolError :=
  match err with inl e => e | inr _ => refusal CodeAgentFailed "" (providerCause err) end.
