(* ===== verification/Wire.v ===== *)
(** * Wire: validating, parsing and encoding the broker's messages

    Models [internal/broker/wire*.go] past its data: [Validate] of each body, the
    tables of the two directions, and how a line becomes a message and back. A
    text's tree is [JsonText]'s; a body's raw bytes are their tree. *)

From S2P Require Import Prelude GoLib GoFloat GoJson GoStruct WireRequests WireResponses WireTypes.

Definition Version : Z := 1.

(** ** Validation *)

(** What is made of a body, or why it is refused. *)
Definition checked (B : Type) : Type := B + ProtocolError.

Definition blank (s : string) : bool := bool_decide (TrimSpace s = "").
Definition missing (field : string) : ProtocolError := refusal CodeMissingField field "".
Definition unsupported (field value : string) : ProtocolError := refusal CodeUnsupportedValue field value.
Definition one_of (s : string) (l : list string) : bool := bool_decide (s ∈ l).

Definition ProviderClaude : string := "claude".
Definition ModeSession : string := "session".
Definition ModeTask : string := "task".
Definition IntentAuto : string := "auto".
Definition IntentInteractive : string := "interactive".
Definition IntentBatch : string := "batch".

Definition validate_spawn (r : SpawnRequest) : checked SpawnRequest :=
  let r := if decide (sp_Provider r = "") then r <| sp_Provider := ProviderClaude |> else r in
  if negb (bool_decide (sp_Provider r = ProviderClaude)) then inr (unsupported "provider" (sp_Provider r))
  else if decide (sp_Mode r = "") then inr (missing "mode")
  else if negb (one_of (sp_Mode r) [ModeSession; ModeTask]) then inr (unsupported "mode" (sp_Mode r))
  else
    let r := if decide (sp_Intent r = "") then r <| sp_Intent := IntentAuto |> else r in
    if negb (one_of (sp_Intent r) [IntentAuto; IntentInteractive; IntentBatch])
    then inr (unsupported "intent" (sp_Intent r))
    else if blank (sp_WorkDir r) then inr (missing "workdir") else inl r.

Definition validate_release (r : ReleaseRequest) : checked ReleaseRequest :=
  if blank (rel_SessionID r) && blank (rel_Name r) then inr (missing "session_id")
  else if rel_Force r && negb (bool_decide (rel_Disposition r = DispositionDetach)) then inr (unsupported "force" "true")
  else if decide (rel_Disposition r = "") then inr (missing "disposition")
  else if one_of (rel_Disposition r) [DispositionStop; DispositionDetach] then
    if decide (rel_KeepAliveSeconds r = 0%Z) then inl r
    else inr (unsupported "keep_alive_seconds" (itoa (rel_KeepAliveSeconds r)))
  else if decide (rel_Disposition r = DispositionReuse) then
    if (rel_KeepAliveSeconds r <? 0)%Z then inr (unsupported "keep_alive_seconds" (itoa (rel_KeepAliveSeconds r)))
    else inl r
  else inr (unsupported "disposition" (rel_Disposition r)).

Definition validate_resolve (r : ResolveRequest) : checked ResolveRequest :=
  if decide (is_Some (rv_Predicates r)) then inl r else inr (missing "predicates").
Definition validate_judge (r : JudgeRequest) : checked JudgeRequest :=
  if decide (is_Some (jg_Request r)) then inl r else inr (missing "request").
Definition validate_task_run (r : TaskRunRequest) : checked TaskRunRequest :=
  if decide (is_Some (tr_Task r)) then inl r else inr (missing "task").
Definition validate_task_cancel (r : TaskCancelRequest) : checked TaskCancelRequest :=
  if blank (tc_RunID r) then inr (missing "run_id") else inl r.
Definition validate_grant (r : GrantRequest) : checked GrantRequest :=
  if blank (gr_Name r) then inr (missing "name")
  else if decide (is_Some (gr_Def r)) then inl r else inr (missing "def").
Definition validate_named (r : NamedRequest) : checked NamedRequest :=
  if blank (nm_Name r) then inr (missing "name") else inl r.
Definition validate_auth_recover (r : AuthRecoverRequest) : checked AuthRecoverRequest :=
  if blank (ar_Name r) then inr (missing "name") else inl r.

Definition SendModeSubmit : string := "submit".
Definition SendModeSteer : string := "steer".
Definition SendModeInterrupt : string := "interrupt".
Definition SendModeQueue : string := "queue".
Definition SendModes : list string := [SendModeSubmit; SendModeSteer; SendModeInterrupt; SendModeQueue].
Definition maxEscalationSteps : nat := 4.

(** The rungs from the [i]-th on; the last was due after [prev]. *)
Fixpoint bad_rung (i : nat) (prev : Z) (l : list EscalationStep) : option ProtocolError :=
  match l with
  | [] => None
  | step :: l =>
    let field := "escalation[" +:+ utoa (N.of_nat i) +:+ "]" in
    if (es_AfterMS step <? prev)%Z then Some (unsupported (field +:+ ".after_ms") (itoa (es_AfterMS step)))
    else if bool_decide (i = 0%nat) && negb (one_of (es_Mode step) [SendModeSubmit; SendModeSteer])
    then Some (unsupported (field +:+ ".mode") (es_Mode step))
    else if negb (bool_decide (i = 0%nat)) && negb (bool_decide (es_Mode step = SendModeInterrupt))
    then Some (unsupported (field +:+ ".mode") (es_Mode step))
    else bad_rung (S i) (es_AfterMS step) l
  end.

Definition validate_send (r : SendRequest) : checked SendRequest :=
  if blank (sd_Name r) then inr (missing "name")
  else
    let r := if decide (sd_Mode r = "") then r <| sd_Mode := SendModeSubmit |> else r in
    if negb (one_of (sd_Mode r) SendModes) then inr (unsupported "mode" (sd_Mode r))
    else
      let l := default [] (sd_Escalation r) in
      if (maxEscalationSteps <? length l)%nat then inr (unsupported "escalation" (utoa (N.of_nat (length l))))
      else match bad_rung 0 0 l with Some e => inr e | None => inl r end.

Definition validate_compact (r : CompactRequest) : checked CompactRequest :=
  if blank (cp_Name r) then inr (missing "name")
  else if (cp_BoundTokens r <=? 0)%Z then inr (missing "bound_tokens") else inl r.
Definition validate_set_model (r : SetModelRequest) : checked SetModelRequest :=
  if blank (sm_Name r) then inr (missing "name")
  else if blank (sm_Model r) then inr (missing "model") else inl r.
Definition validate_goal_verdict (r : GoalVerdictRequest) : checked GoalVerdictRequest :=
  if blank (gv_Name r) then inr (missing "name")
  else if blank (gv_CheckID r) then inr (missing "check_id") else inl r.
Definition validate_rewind (r : RewindRequest) : checked RewindRequest :=
  if blank (rw_Name r) then inr (missing "name")
  else if (rw_Turns r <? 1)%Z then inr (unsupported "turns" (itoa (rw_Turns r))) else inl r.
Definition validate_resize (r : ResizeRequest) : checked ResizeRequest :=
  if blank (rz_Name r) then inr (missing "name")
  else if bool_decide (rz_Cols r = 0%Z) || bool_decide (rz_Rows r = 0%Z)
  then inr (unsupported "cols" (itoa (rz_Cols r) +:+ "x" +:+ itoa (rz_Rows r))) else inl r.

Definition FleetOps : list string :=
  ["open"; "start"; "send"; "stop"; "stop_tree"; "shutdown"; "status"; "read"; "cancel"; "budget";
   "register_check"; "run_check"; "expedite"].
Definition validate_fleet (r : FleetRequest) : checked FleetRequest :=
  if negb (one_of (fl_Op r) FleetOps) then inr (unsupported "op" (fl_Op r))
  else if decide (fl_Fleet r = "") then inr (missing "fleet") else inl r.

Definition GenerationCursorLimit : nat := 96.
Definition GenerationPageLimit : Z := 128.
Definition validate_generations (r : GenerationsRequest) : checked GenerationsRequest :=
  if (GenerationCursorLimit <? len (gn_Cursor r))%nat || (gn_Limit r <? 1)%Z || (GenerationPageLimit <? gn_Limit r)%Z
     || (gn_ExpiresAt r <? 0)%Z
  then inr (unsupported "generations" "") else inl r.

Definition validate_receipt (r : ReceiptRequest) : checked ReceiptRequest :=
  match List.find (fun f => blank f.2)
          [("seat", rc_Seat r); ("session_id", rc_SessionID r); ("request_id", rc_RequestID r)] with
  | Some f => inr (missing f.1)
  | None => inl r
  end.

Definition UsagePageLimit : Z := 128.
Definition validate_usage_facts (r : UsageFactsRequest) : checked UsageFactsRequest :=
  if blank (uf_Seat r) || blank (uf_SessionID r) then inr (missing "seat/session_id")
  else if (uf_Limit r <? 1)%Z || (UsagePageLimit <? uf_Limit r)%Z then inr (unsupported "limit" "")
  else if (uf_ExpiresAt r <? 0)%Z then inr (unsupported "expires_at" "") else inl r.

(** The only response that is validated; its refusal is not a [ProtocolError]. *)
Definition valid_recovery_detail (r : AuthRecoveryDetailResponse) : bool :=
  negb (bool_decide (adr_Provider r = "")) &&
  if one_of (adr_Outcome r) ["healthy_no_op"; "refreshed"] then bool_decide (adr_Classification r = "none")
  else if decide (adr_Outcome r = "failure") then
    one_of (adr_Classification r) ["unsupported_provider"; "store_unavailable"; "needs_sign_in"; "refresh_failed";
                                   "persistence_failed"; "cancelled"; "busy"]
  else false.

(** ** The envelope and the tables *)

Record Envelope := MkEnvelope { env_V : Z; env_Type : string; env_ID : string; env_Body : option json }.
#[export] Instance eta_Envelope : Eta Envelope := fun r => MkEnvelope (env_V r) (env_Type r) (env_ID r) (env_Body r).
#[export] Hint Extern 1 (@Setter Envelope _ _) => setter_of eta_Envelope : typeclass_instances.
Definition new_Envelope : Envelope := MkEnvelope 0%Z "" "" None.
Definition Envelope_fields : list (field Envelope) :=
  [must "v" int64 env_V; must "type" text env_Type; may "id" text env_ID; may "body" raw env_Body].
Definition Envelope_json : codec Envelope := struct new_Envelope Envelope_fields.

(** A failure to read a message: a refusal, or another error. *)
Inductive wire_error := Refused (e : ProtocolError) | Invalid.

(** [bodySpec] of a message [M]: the body's place and its validation. *)
Record bodySpec (M : Type) := MkSpec {
  bs_body : Type; bs_codec : codec bs_body; bs_validate : bs_body -> bs_body + wire_error;
  bs_get : M -> option bs_body; bs_upd : (option bs_body -> option bs_body) -> M -> M; bs_noBody : bool }.
Arguments bs_body {M} _ : assert.
Arguments bs_codec {M} _ : assert.
Arguments bs_validate {M} _ _ : assert.
Arguments bs_get {M} _ _ : assert.
Arguments bs_upd {M} _ _ _ : assert.
Arguments bs_noBody {M} _ : assert.
Arguments MkSpec {M} _ _ _ _ _ _ : assert.

Definition spec {M B} (c : codec B) (validate : B -> B + wire_error) (slot : M -> option B) `{!Setter slot}
    (noBody : bool) : bodySpec M := MkSpec B c validate slot (upd slot) noBody.

Definition refusing {B} (f : B -> checked B) (b : B) : B + wire_error :=
  match f b with inl b => inl b | inr e => inr (Refused e) end.
Definition unchecked {B} (b : B) : B + wire_error := inl b.
Definition detail_checked (b : AuthRecoveryDetailResponse) : AuthRecoveryDetailResponse + wire_error :=
  if valid_recovery_detail b then inl b else inr Invalid.

(** A body without fields. *)
Definition no_fields : codec unit := struct tt [].

Section Tables.
Context `{FloatText, Base64, TimeText}.

Definition requestSpecs : list (string * bodySpec Request) :=
  [(TypeGenerations, spec GenerationsRequest_json (refusing validate_generations) rq_Generations false);
   (TypeFleet, spec FleetRequest_json (refusing validate_fleet) rq_Fleet false);
   (TypeUsageFacts, spec UsageFactsRequest_json (refusing validate_usage_facts) rq_UsageFacts false);
   (TypeReceipt, spec ReceiptRequest_json (refusing validate_receipt) rq_Receipt false);
   (TypeSpawn, spec SpawnRequest_json (refusing validate_spawn) rq_Spawn false);
   (TypeRelease, spec ReleaseRequest_json (refusing validate_release) rq_Release false);
   (TypeStatus, spec no_fields unchecked rq_Status true);
   (TypeTail, spec no_fields unchecked rq_Tail true);
   (TypeUsage, spec UsageRequest_json unchecked rq_Usage false);
   (TypeResolve, spec ResolveRequest_json (refusing validate_resolve) rq_Resolve false);
   (TypeTaskRun, spec TaskRunRequest_json (refusing validate_task_run) rq_TaskRun false);
   (TypeTaskRunRestricted, spec TaskRunRequest_json (refusing validate_task_run) rq_TaskRun false);
   (TypeTaskCancel, spec TaskCancelRequest_json (refusing validate_task_cancel) rq_TaskCancel false);
   (TypeGrant, spec GrantRequest_json (refusing validate_grant) rq_Grant false);
   (TypeSend, spec SendRequest_json (refusing validate_send) rq_Send false);
   (TypeInterrupt, spec NamedRequest_json (refusing validate_named) rq_Interrupt false);
   (TypeSetModel, spec SetModelRequest_json (refusing validate_set_model) rq_SetModel false);
   (TypeCompact, spec CompactRequest_json (refusing validate_compact) rq_Compact false);
   (TypeAgentInfo, spec NamedRequest_json (refusing validate_named) rq_AgentInfo false);
   (TypeTermSubscribe, spec NamedRequest_json (refusing validate_named) rq_TermSubscribe false);
   (TypeResize, spec ResizeRequest_json (refusing validate_resize) rq_Resize false);
   (TypeGrants, spec no_fields unchecked rq_Grants true);
   (TypeCloseGoal, spec NamedRequest_json (refusing validate_named) rq_CloseGoal false);
   (TypeRewind, spec RewindRequest_json (refusing validate_rewind) rq_Rewind false);
   (TypeGoalVerdict, spec GoalVerdictRequest_json (refusing validate_goal_verdict) rq_GoalVerdict false);
   (TypeJudge, spec JudgeRequest_json (refusing validate_judge) rq_Judge false);
   (TypeAuthRecoverDetail, spec NamedRequest_json (refusing validate_named) rq_AuthDetail false);
   (TypeAuthRecover, spec AuthRecoverRequest_json (refusing validate_auth_recover) rq_AuthRecover false);
   (TypeAuthStatus, spec no_fields unchecked rq_AuthStatus true)].

Definition responseSpecs : list (string * bodySpec Response) :=
  [(TypeGenerationsResult, spec GenerationPage_json unchecked rs_Generations false);
   (TypeFleetResult, spec FleetResponse_json unchecked rs_Fleet false);
   (TypeUsageFactsResult, spec UsagePage_json unchecked rs_UsageFacts false);
   (TypeReceiptResult, spec RequestReceipt_json unchecked rs_Receipt false);
   (TypeSpawned, spec SpawnResponse_json unchecked rs_Spawned false);
   (TypeReleased, spec ReleaseResponse_json unchecked rs_Released false);
   (TypeStatusResult, spec StatusResponse_json unchecked rs_Status false);
   (TypeTailing, spec no_fields unchecked rs_Tailing true);
   (TypeEvent, spec EventMessage_json unchecked rs_Event false);
   (TypeError, spec ErrorMessage_json unchecked rs_Error false);
   (TypeUsageResult, spec UsageResponse_json unchecked rs_Usage false);
   (TypeResolved, spec ResolveResponse_json unchecked rs_Resolved false);
   (TypeTaskStarted, spec TaskStartedResponse_json unchecked rs_TaskStarted false);
   (TypeTaskEvent, spec TaskEventMessage_json unchecked rs_TaskEvent false);
   (TypeTaskDone, spec TaskDoneMessage_json unchecked rs_TaskDone false);
   (TypeTaskRaw, spec TaskRawMessage_json unchecked rs_TaskRaw false);
   (TypeTaskCancelled, spec TaskCancelledResponse_json unchecked rs_TaskCancelled false);
   (TypeGranted, spec GrantResponse_json unchecked rs_Granted false);
   (TypeAgentEvent, spec AgentEventMessage_json unchecked rs_AgentEvent false);
   (TypeAgentTerm, spec AgentTermMessage_json unchecked rs_AgentTerm false);
   (TypeAgentGone, spec AgentGoneMessage_json unchecked rs_AgentGone false);
   (TypeAgentDetached, spec AgentDetachedMessage_json unchecked rs_AgentDetached false);
   (TypeSent, spec SentResponse_json unchecked rs_Sent false);
   (TypeInterrupted, spec NamedResponse_json unchecked rs_Interrupted false);
   (TypeModelSet, spec NamedResponse_json unchecked rs_ModelSet false);
   (TypeCompactResult, spec CompactResponse_json unchecked rs_Compact false);
   (TypeAgentInfoResult, spec AgentInfoResponse_json unchecked rs_AgentInfo false);
   (TypeTermSubscribed, spec TermSubscribedResponse_json unchecked rs_TermSubscribed false);
   (TypeResized, spec NamedResponse_json unchecked rs_Resized false);
   (TypeGrantsResult, spec GrantsResponse_json unchecked rs_Grants false);
   (TypeGoalClosed, spec NamedResponse_json unchecked rs_GoalClosed false);
   (TypeRewound, spec RewindResponse_json unchecked rs_Rewound false);
   (TypeGoalCheck, spec GoalCheckMessage_json unchecked rs_GoalCheck false);
   (TypeGoalVerdictNoted, spec NamedResponse_json unchecked rs_GoalVerdictNoted false);
   (TypeJudged, spec JudgedResponse_json unchecked rs_Judged false);
   (TypeAuthRecoveryDetail, spec AuthRecoveryDetailResponse_json detail_checked rs_AuthDetail false);
   (TypeAuthRecovered, spec NamedResponse_json unchecked rs_AuthRecovered false);
   (TypeAuthStatusResult, spec AuthStatusResponse_json unchecked rs_AuthStatus false)].

End Tables.

Definition spec_of {M} (specs : list (string * bodySpec M)) (t : string) : option (bodySpec M) :=
  snd <$> List.find (fun s => bool_decide (s.1 = t)) specs.

(** [sortedTypes]. *)
Definition sortedTypes {M} (specs : list (string * bodySpec M)) : list string := SliceStable String.ltb specs.*1.

(** ** Decoding *)

Section Wire.
Context `{JsonText, FloatText, Base64, TimeText}.

(** What a problem becomes. *)
Definition problem_error (p : json_problem) : ProtocolError :=
  match p with UnknownMember k => refusal CodeUnknownField k "" | BadValue => refusal CodeMalformed "" "" end.

(** [decodeStrict] of a text, and of a raw body, which is one value. *)
Definition decodeStrict {T} (c : codec T) (line : string) : T + ProtocolError :=
  match first_value line with
  | None => inr (refusal CodeMalformed "" "")
  | Some (j, rest) =>
    let r := c_in c j (c_zero c) in
    match r.2 with
    | Some p => inr (problem_error p)
    | None => if More rest then inr (refusal CodeMalformed "" "") else inl r.1
    end
  end.

Definition decodeBody {T} (c : codec T) (body : option json) : T + ProtocolError :=
  match body with
  | None => inl (c_zero c)
  | Some j =>
    let r := c_in c j (c_zero c) in
    match r.2 with Some p => inr (problem_error p) | None => inl r.1 end
  end.

Definition parseEnvelope (line : string) : Envelope + ProtocolError :=
  match decodeStrict Envelope_json line with
  | inr e => inr e
  | inl env =>
    if decide (env_V env = Version) then inl env
    else inr (MkProtocolError CodeUnsupportedVersion "v" (itoa (env_V env)) (Some [Version]) (env_ID env))
  end.

Definition withID (e : wire_error) (id : string) : wire_error :=
  match e with Refused e => Refused (e <| pe_ID := id |>) | Invalid => Invalid end.

Definition parseBody {M} (env : Envelope) (sp : bodySpec M) (m : M) : M + wire_error :=
  match decodeBody (bs_codec sp) (env_Body env) with
  | inr e => inr (withID (Refused e) (env_ID env))
  | inl b =>
    match bs_validate sp b with
    | inr e => inr (withID e (env_ID env))
    | inl b => inl (bs_upd sp (fun _ => Some b) m)
    end
  end.

(** A type that is of the other direction, or of none. *)
Definition misdirected {M} (others : list (string * bodySpec M)) (code : string) (env : Envelope) : ProtocolError :=
  (refusal (if spec_of others (env_Type env) then code else CodeUnknownType) "type" (env_Type env))
    <| pe_ID := env_ID env |>.

Definition ParseRequest (line : string) : Request + wire_error :=
  match parseEnvelope line with
  | inr e => inr (Refused e)
  | inl env =>
    match spec_of requestSpecs (env_Type env) with
    | Some sp => parseBody env sp (new_Request (env_ID env) (env_Type env))
    | None => inr (Refused (misdirected responseSpecs CodeNotARequest env))
    end
  end.

Definition ParseResponse (line : string) : Response + wire_error :=
  match parseEnvelope line with
  | inr e => inr (Refused e)
  | inl env =>
    match spec_of responseSpecs (env_Type env) with
    | Some sp => parseBody env sp (new_Response (env_ID env) (env_Type env))
    | None => inr (Refused (misdirected requestSpecs CodeNotAResponse env))
    end
  end.

(** ** Encoding *)

(** [encodeMessage]: a value that JSON has no text for is an error. *)
Definition encodeMessage (t id : string) (body : option (option json)) : string + wire_error :=
  match body with
  | Some None => inr Invalid
  | _ =>
    match c_out Envelope_json (MkEnvelope Version t id (mjoin body)) with
    | Some j => inl (print_json j)
    | None => inr Invalid
    end
  end.

Definition encodeUnder {M} (specs : list (string * bodySpec M)) (t id : string) (m : M) : string + wire_error :=
  match spec_of specs t with
  | None => inr (Refused (refusal CodeUnknownType "type" t))
  | Some sp => encodeMessage t id (if bs_noBody sp then None else c_out (bs_codec sp) <$> bs_get sp m)
  end.

Definition EncodeRequest (r : Request) : string + wire_error := encodeUnder requestSpecs (rq_Type r) (rq_ID r) r.
Definition EncodeResponse (r : Response) : string + wire_error := encodeUnder responseSpecs (rs_Type r) (rs_ID r) r.

Definition RequestTypes : list string := sortedTypes requestSpecs.
Definition ResponseTypes : list string := sortedTypes responseSpecs.

End Wire.
