(* ===== verification/Frames.v ===== *)
(** * Frames: lines on the broker's socket

    Models [internal/broker/transport.go] past the socket itself: [ReadLine] over
    the chunks of a buffered reader, [writeLine], and a connection's messages.
    What the peer has sent and how the stream goes on from there is [stream]. *)

From Stdlib Require Import Ascii.
From S2P Require Import Prelude GoLib GoJson GoStruct WireRequests WireResponses WireTypes Wire.

Definition MaxLineLen : nat := N.to_nat (2 ^ 20).
Definition lineReadBuf : nat := N.to_nat (64 * 1024).

(** ** Reading *)

(** How a stream ends: closed, or with another error. *)
Inductive stream_end := EOF | Broken.

(** What is to be read; it stays as it ends. *)
Record stream := MkStream { st_bytes : string; st_end : stream_end }.

(** [bufio.ReadSlice]: up to the delimiter, or a full buffer, or what is left. *)
Inductive slice_end := Delimiter | BufferFull | Ended (e : stream_end).

(** Where the first line feed is. *)
Fixpoint line_feed (s : string) : option nat :=
  match s with
  | EmptyString => None
  | String a s => if Ascii.eqb a (byte 10) then Some 0%nat else S <$> line_feed s
  end.

(** The chunk, without the delimiter, and what is left. *)
Definition ReadSlice (buf : nat) (s : stream) : string * slice_end * stream :=
  let rest n := MkStream (drop_bytes n (st_bytes s)) (st_end s) in
  match line_feed (take_bytes buf (st_bytes s)) with
  | Some i => (take_bytes i (st_bytes s), Delimiter, rest (S i))
  | None =>
    if (buf <=? len (st_bytes s))%nat then (take_bytes buf (st_bytes s), BufferFull, rest buf)
    else (st_bytes s, Ended (st_end s), MkStream "" (st_end s))
  end.

(** What [ReadLine] returns. *)
Inductive line_read := Line (l : string) | TooLarge (n : nat) | AtEOF | ReadFailed.

(** [ReadLine] with its [line] and [dropped]. *)
Fixpoint read_line (buf max fuel : nat) (line : string) (dropped : nat) (s : stream) : option (line_read * stream) :=
  match fuel with
  | O => None
  | S fuel =>
    let '(chunk, e, rest) := ReadSlice buf s in
    let n := (len line + len chunk)%nat in
    let '(line, dropped) :=
      if (0 <? dropped)%nat then (line, dropped + len chunk)%nat
      else if (max <? n)%nat then ("", n) else (line +:+ chunk, 0%nat) in
    match e with
    | Delimiter => Some (if (0 <? dropped)%nat then TooLarge dropped else Line line, rest)
    | BufferFull => read_line buf max fuel line dropped rest
    | Ended EOF => Some (if (0 <? dropped)%nat then TooLarge dropped
                         else if decide (line = "") then AtEOF else Line line, rest)
    | Ended Broken => Some (ReadFailed, rest)
    end
  end.

(** More rounds than there are bytes. *)
Definition ReadLine (s : stream) : option (line_read * stream) :=
  read_line lineReadBuf MaxLineLen (S (len (st_bytes s))) "" 0 s.

(** ** Writing *)

Definition frameTooLarge : ProtocolError := refusal CodeFrameTooLarge "" "".

(** The bytes [writeLine] hands to the socket. *)
Definition writeLine (line : string) : string + ProtocolError :=
  if (MaxLineLen <? len line)%nat then inr frameTooLarge else inl (line +:+ nl).

(** ** Messages *)

Section Messages.
Context `{JsonText, FloatText, Base64, TimeText}.

(** What a read of a message gives. *)
Inductive message_read (M : Type) := Message (m : M) | Unread (e : wire_error) | NoMore | Lost.
Arguments Message {M} _ : assert.
Arguments Unread {M} _ : assert.
Arguments NoMore {M} : assert.
Arguments Lost {M} : assert.

Definition read_message {M} (parse : string -> M + wire_error) (s : stream) : option (message_read M * stream) :=
  match ReadLine s with
  | None => None
  | Some (Line l, rest) => Some (match parse l with inl m => Message m | inr e => Unread e end, rest)
  | Some (TooLarge _, rest) => Some (Unread (Refused frameTooLarge), rest)
  | Some (AtEOF, rest) => Some (NoMore, rest)
  | Some (ReadFailed, rest) => Some (Lost, rest)
  end.

Definition ReadRequest : stream -> option (message_read Request * stream) := read_message ParseRequest.
Definition ReadResponse : stream -> option (message_read Response * stream) := read_message ParseResponse.

Definition write_message (line : string + wire_error) : string + wire_error :=
  match line with
  | inr e => inr e
  | inl line => match writeLine line with inl b => inl b | inr e => inr (Refused e) end
  end.

Definition WriteRequest (r : Request) : string + wire_error := write_message (EncodeRequest r).
Definition WriteResponse (r : Response) : string + wire_error := write_message (EncodeResponse r).

End Messages.

Arguments Message {M} _ : assert.
Arguments Unread {M} _ : assert.
Arguments NoMore {M} : assert.
Arguments Lost {M} : assert.

(** ** The reference: cutting a stream at its line feeds *)

(** The first line, of at most [max] bytes, and what follows it. *)
Definition cut_at (max : nat) (s : stream) : line_read * stream :=
  match line_feed (st_bytes s) with
  | Some i =>
    (if (max <? i)%nat then TooLarge i else Line (take_bytes i (st_bytes s)),
     MkStream (drop_bytes (S i) (st_bytes s)) (st_end s))
  | None =>
    (match st_end s with
     | Broken => ReadFailed
     | EOF => if (max <? len (st_bytes s))%nat then TooLarge (len (st_bytes s))
              else if decide (st_bytes s = "") then AtEOF else Line (st_bytes s)
     end, MkStream "" (st_end s))
  end.
Definition cut_line : stream -> line_read * stream := cut_at MaxLineLen.
