(* ===== verification/WireTheorems.v ===== *)
(** * WireTheorems: what is written is read, and what is refused and why

    The messages of the broker's protocol, from their fields to the bytes of the
    socket and back; what a request that is accepted promises; and what a refusal
    says. *)

From Stdlib Require Import Ascii Sorted.
From S2P Require Import Prelude GoLib GoFloat GoJson GoStruct FleetNames WireRequests WireResponses WireTypes Wire Frames.

(** ** Lines *)

Lemma string_app_assoc a b c : (a +:+ b) +:+ c = a +:+ b +:+ c.
Proof. induction a as [|x a IH]; [done|]. str_cbn. by rewrite IH. Qed.

Lemma line_feed_app a b : line_feed a = None -> line_feed (a +:+ b) = Nat.add (len a) <$> line_feed b.
Proof.
  induction a as [|c a IH]; [intros _; change ("" +:+ b) with b; by destruct (line_feed b)|].
  rewrite str_app_cons. cbn [line_feed].
  destruct (Ascii.eqb c (byte 10)); [done|]. destruct (line_feed a) as [i|]; [done|]. intros _.
  rewrite IH by done. by destruct (line_feed b).
Qed.

Lemma line_feed_take n s :
  line_feed (take_bytes n s) = match line_feed s with Some i => if (i <? n)%nat then Some i else None | None => None end.
Proof.
  unfold take_bytes. revert n. induction s as [|c s IH]; intros [|n]; cbn [String.substring line_feed]; try done.
  - destruct (Ascii.eqb c (byte 10)); [done|]. by destruct (line_feed s).
  - destruct (Ascii.eqb c (byte 10)); [done|]. rewrite IH. destruct (line_feed s) as [i|]; [|done]. cbn [fmap option_fmap option_map].
    change (S i <? S n)%nat with (i <? n)%nat. by destruct (i <? n)%nat.
Qed.

Lemma line_feed_cut s i : line_feed s = Some i ->
  exists a b, s = a +:+ nl +:+ b /\ line_feed a = None /\ i = len a.
Proof.
  revert i. induction s as [|c s IH]; cbn; intros i; [done|]. destruct (Ascii.eqb_spec c (byte 10)) as [->|N].
  - intros [= <-]. by exists "", s.
  - intros (j & E & ->)%fmap_Some. destruct (IH j E) as (a & b & -> & F & ->). exists (String c a), b.
    split_and!; [done| |done]. cbn [line_feed]. destruct (Ascii.eqb_spec c (byte 10)); [done|]. by rewrite F.
Qed.

Lemma line_feed_here a b : line_feed a = None -> line_feed (a +:+ nl +:+ b) = Some (len a).
Proof. intros F. rewrite line_feed_app by done.
  change (line_feed (nl +:+ b)) with (Some 0%nat). cbn [fmap option_fmap option_map]. by rewrite Nat.add_0_r. Qed.

Lemma drop_line a b : drop_bytes (S (len a)) (a +:+ nl +:+ b) = b.
Proof.
  replace (a +:+ nl +:+ b) with ((a +:+ nl) +:+ b) by by rewrite string_app_assoc.
  replace (S (len a)) with (len (a +:+ nl)) by (rewrite len_app; cbn; lia). apply drop_bytes_app.
Qed.

Lemma cut_line_at s : cut_line s = cut_at MaxLineLen s.
Proof. done. Qed.

Lemma cut_at_line max a b e : line_feed a = None ->
  cut_at max (MkStream (a +:+ nl +:+ b) e) = (if (max <? len a)%nat then TooLarge (len a) else Line a, MkStream b e).
Proof.
  intros F. unfold cut_at. cbn [st_bytes st_end]. by rewrite line_feed_here, drop_line, take_bytes_app.
Qed.

(** The three ways a buffered reader finds a slice. *)
Lemma ReadSlice_spec buf s :
  (exists a b, st_bytes s = a +:+ nl +:+ b /\ line_feed a = None /\ ReadSlice buf s = (a, Delimiter, MkStream b (st_end s)))
  \/ (exists a b, st_bytes s = a +:+ b /\ line_feed a = None /\ len a = buf
                  /\ ReadSlice buf s = (a, BufferFull, MkStream b (st_end s)))
  \/ (line_feed (st_bytes s) = None /\ ReadSlice buf s = (st_bytes s, Ended (st_end s), MkStream "" (st_end s))).
Proof.
  unfold ReadSlice. rewrite line_feed_take.
  assert ((buf <= len (st_bytes s))%nat -> line_feed (take_bytes buf (st_bytes s)) = None ->
    exists a b, st_bytes s = a +:+ b /\ line_feed a = None /\ len a = buf
      /\ (take_bytes buf (st_bytes s), BufferFull, MkStream (drop_bytes buf (st_bytes s)) (st_end s))
         = (a, BufferFull, MkStream b (st_end s))) as Full.
  { intros L F. exists (take_bytes buf (st_bytes s)), (drop_bytes buf (st_bytes s)).
    split_and!; [by rewrite take_drop_bytes|done|by apply len_take_bytes|done]. }
  rewrite line_feed_take in Full. destruct (line_feed (st_bytes s)) as [i|] eqn:F.
  - destruct (line_feed_cut _ _ F) as (a & b & E & Fa & ->). destruct (Nat.ltb_spec (len a) buf) as [L|L].
    + left. exists a, b. split_and!; [done|done|]. by rewrite E, drop_line, take_bytes_app.
    + right. left. assert ((buf <= len (st_bytes s))%nat) as Lb by (rewrite E, len_app; lia).
      rewrite (proj2 (Nat.leb_le _ _) Lb). by apply Full.
  - right. destruct (Nat.leb_spec buf (len (st_bytes s))) as [L|L]; [left; by apply Full|right; done].
Qed.

(** What has been read of a line so far: all of it, or only how long it is. *)
Definition read_so_far (max : nat) (pre line : string) (dropped : nat) : Prop :=
  line_feed pre = None
  /\ ((dropped = 0%nat /\ line = pre /\ (len pre <= max)%nat) \/ (dropped = len pre /\ line = "" /\ (max < len pre)%nat)).

(** A further chunk. *)
Lemma reads_on max pre line dropped chunk :
  read_so_far max pre line dropped -> line_feed chunk = None ->
  let r := if (0 <? dropped)%nat then (line, dropped + len chunk)%nat
           else if (max <? len line + len chunk)%nat then ("", len line + len chunk)%nat else (line +:+ chunk, 0%nat) in
  read_so_far max (pre +:+ chunk) r.1 r.2.
Proof.
  intros [F H] Fc. cbv zeta. split; [by rewrite line_feed_app, Fc|]. rewrite len_app.
  destruct H as [(-> & -> & L)|(-> & -> & L)].
  - change (0 <? 0)%nat with false. cbv iota. destruct (Nat.ltb_spec max (len pre + len chunk)) as [X|X]; [right|left]; done.
  - rewrite (proj2 (Nat.ltb_lt 0 (len pre))) by lia. right. cbn [fst snd]. split_and!; [done|done|lia].
Qed.

(** What is returned at the end of a line. *)
Lemma read_so_far_is max pre line dropped :
  read_so_far max pre line dropped ->
  (if (0 <? dropped)%nat then TooLarge dropped else Line line) = (if (max <? len pre)%nat then TooLarge (len pre) else Line pre)
  /\ (if (0 <? dropped)%nat then TooLarge dropped else if decide (line = "") then AtEOF else Line line)
     = (if (max <? len pre)%nat then TooLarge (len pre) else if decide (pre = "") then AtEOF else Line pre).
Proof.
  intros [_ [(-> & -> & L)|(-> & -> & L)]].
  - change (0 <? 0)%nat with false. cbv iota. rewrite (proj2 (Nat.ltb_ge _ _) L). done.
  - rewrite (proj2 (Nat.ltb_lt 0 (len pre))) by lia. by rewrite (proj2 (Nat.ltb_lt _ _) L).
Qed.

Lemma read_line_cuts buf max fuel pre line dropped s :
  (0 < buf)%nat -> (len (st_bytes s) < fuel)%nat -> read_so_far max pre line dropped ->
  read_line buf max fuel line dropped s = Some (cut_at max (MkStream (pre +:+ st_bytes s) (st_end s))).
Proof.
  intros Hb. revert pre line dropped s. induction fuel as [|fuel IH]; intros pre line dropped s Hf Inv; [lia|].
  cbn [read_line]. destruct (ReadSlice_spec buf s) as [(a & b & E & F & ->)|[(a & b & E & F & La & ->)|(F & ->)]].
  - rewrite E, <-string_app_assoc. pose proof (reads_on max pre line dropped a Inv F) as N. cbv zeta in N.
    destruct (if (0 <? dropped)%nat then _ else _) as [line' dropped'] eqn:R. cbn [fst snd] in N.
    rewrite cut_at_line by apply N. by rewrite (proj1 (read_so_far_is _ _ _ _ N)).
  - rewrite E, <-string_app_assoc. pose proof (reads_on max pre line dropped a Inv F) as N. cbv zeta in N.
    destruct (if (0 <? dropped)%nat then _ else _) as [line' dropped'] eqn:R. cbn [fst snd] in N.
    apply (IH _ _ _ (MkStream b (st_end s))); [|done]. cbn [st_bytes]. rewrite E, len_app in Hf. lia.
  - pose proof (reads_on max pre line dropped (st_bytes s) Inv F) as N. cbv zeta in N.
    destruct (if (0 <? dropped)%nat then _ else _) as [line' dropped'] eqn:R. cbn [fst snd] in N.
    unfold cut_at. cbn [st_bytes st_end]. rewrite (proj1 N). destruct (st_end s); [|done].
    by rewrite (proj2 (read_so_far_is _ _ _ _ N)).
Qed.

Lemma ReadLine_cuts s : ReadLine s = Some (cut_line s).
Proof.
  unfold ReadLine. rewrite cut_line_at. rewrite (read_line_cuts lineReadBuf MaxLineLen _ "" "" 0 s).
  - by destruct s.
  - apply Nat.ltb_lt. vm_compute. reflexivity.
  - lia.
  - split; [done|left]. split_and!; [done|done|apply Nat.le_0_l].
Qed.

(** C13: Reading a line takes, whatever the sizes of the buffer and of the line,
    exactly what stands before the next line feed: it is given whole when it is at
    most a mebibyte long, and otherwise refused with its length and skipped, so that
    the next read begins after the line feed; a last line without one is given as a
    line; and no read goes on for ever. *)
Theorem a_line_is_read_whole_or_refused s : ReadLine s = Some (cut_line s).
Proof. apply ReadLine_cuts. Qed.

(** ** Messages *)

(** A JSON text is one line, and read back is the value it is of. *)
Class JsonTextLaws `{JsonText} := {
  text_back j : textual j = true -> first_value (print_json j) = Some (j, "");
  text_line j : textual j = true -> line_feed (print_json j) = None }.

Section Messages.
Context `{JsonTextLaws, FloatText, Base64, TimeText}.

#[local] Instance Envelope_lawful : LawfulStruct new_Envelope Envelope_fields.
Proof. lawful_struct. Qed.
#[local] Instance no_fields_lawful : LawfulStruct tt [].
Proof. lawful_struct. Qed.

(** What a table of bodies needs: each body is written and read back, and is put in
    its place. *)
Definition good_spec {M} (head : M -> string * string) (sp : bodySpec M) : Prop :=
  Lawful (bs_codec sp) /\ (forall f m, bs_get sp (bs_upd sp f m) = f (bs_get sp m))
  /\ (forall f m, head (bs_upd sp f m) = head m).
Fixpoint good_specs {M} (head : M -> string * string) (specs : list (string * bodySpec M)) : Prop :=
  match specs with [] => True | s :: specs => good_spec head s.2 /\ good_specs head specs end.

Definition request_head (r : Request) : string * string := (rq_ID r, rq_Type r).

Lemma good_requests : good_specs request_head requestSpecs.
Proof. cbn; repeat (first [exact I | split; [split; [apply _|by split]|]]). Qed.

Lemma spec_of_in {M} (specs : list (string * bodySpec M)) t sp : spec_of specs t = Some sp -> (t, sp) ∈ specs.
Proof.
  unfold spec_of. intros ([u x] & F & ->)%fmap_Some. apply List.find_some in F as [I E].
  apply bool_decide_eq_true in E. cbn in *. subst. by apply list_elem_of_In.
Qed.

Lemma good_spec_of {M} head (specs : list (string * bodySpec M)) t sp :
  good_specs head specs -> spec_of specs t = Some sp -> good_spec head sp.
Proof.
  intros G I%spec_of_in. induction specs as [|x specs IH]; [by apply elem_of_nil in I|]. destruct G as [Gx G].
  apply elem_of_cons in I as [<-|I]; [done|by apply IH].
Qed.

(** The types of both directions differ. *)
Lemma directions_differ t : is_Some (spec_of requestSpecs t) -> spec_of responseSpecs t = None.
Proof.
  assert (forallb (fun s => bool_decide (s ∉ responseSpecs.*1)) requestSpecs.*1 = true) as D by (vm_compute; reflexivity).
  intros [sp I%spec_of_in]. destruct (spec_of responseSpecs t) as [sp'|] eqn:E; [|done].
  apply spec_of_in in E. rewrite forallb_forall in D. specialize (D t). 
  rewrite bool_decide_eq_true in D. exfalso. apply D.
  - apply list_elem_of_In. by apply (list_elem_of_fmap_2 fst _ (t, sp)).
  - by apply (list_elem_of_fmap_2 fst _ (t, sp')).
Qed.

(** *** Envelopes *)










(** *** On the socket *)







End Messages.

(** ** What is accepted *)

(** The rungs of an escalation. *)
Definition rungs_in_order (l : list EscalationStep) : Prop :=
  match l with
  | [] => True
  | step :: later => one_of (es_Mode step) [SendModeSubmit; SendModeSteer] = true
      /\ Forall (fun step => es_Mode step = SendModeInterrupt) later
      /\ StronglySorted Z.le (0 :: (es_AfterMS <$> l))%Z
  end.

(** What an accepted body promises, by its place. *)
Definition promised {B} (P : B -> Prop) (o : option B) : Prop := match o with Some b => P b | None => True end.
Definition present (s : string) : Prop := TrimSpace s <> "".

Record request_promises (r : Request) : Prop := {
  rp_spawn : promised (fun b => sp_Provider b = ProviderClaude /\ sp_Mode b ∈ [ModeSession; ModeTask]
    /\ sp_Intent b ∈ [IntentAuto; IntentInteractive; IntentBatch] /\ present (sp_WorkDir b)) (rq_Spawn r);
  rp_release : promised (fun b => (present (rel_SessionID b) \/ present (rel_Name b))
    /\ rel_Disposition b ∈ [DispositionStop; DispositionDetach; DispositionReuse]
    /\ (rel_Force b = true -> rel_Disposition b = DispositionDetach)
    /\ (rel_KeepAliveSeconds b <> 0%Z -> rel_Disposition b = DispositionReuse /\ (0 < rel_KeepAliveSeconds b)%Z)) (rq_Release r);
  rp_grant : promised (fun b => present (gr_Name b) /\ is_Some (gr_Def b)) (rq_Grant r);
  rp_send : promised (fun b => present (sd_Name b) /\ sd_Mode b ∈ SendModes
    /\ (length (default [] (sd_Escalation b)) <= maxEscalationSteps)%nat
    /\ rungs_in_order (default [] (sd_Escalation b))) (rq_Send r);
  rp_named : Forall (promised (fun b => present (nm_Name b)))
    [rq_Interrupt r; rq_AgentInfo r; rq_TermSubscribe r; rq_CloseGoal r; rq_AuthDetail r];
  rp_compact : promised (fun b => present (cp_Name b) /\ (0 < cp_BoundTokens b)%Z) (rq_Compact r);
  rp_set_model : promised (fun b => present (sm_Name b) /\ present (sm_Model b)) (rq_SetModel r);
  rp_resize : promised (fun b => present (rz_Name b) /\ rz_Cols b <> 0%Z /\ rz_Rows b <> 0%Z) (rq_Resize r);
  rp_rewind : promised (fun b => present (rw_Name b) /\ (1 <= rw_Turns b)%Z) (rq_Rewind r);
  rp_verdict : promised (fun b => present (gv_Name b) /\ present (gv_CheckID b)) (rq_GoalVerdict r);
  rp_fleet : promised (fun b => fl_Op b ∈ FleetOps /\ fl_Fleet b <> "") (rq_Fleet r);
  rp_task : promised (fun b => is_Some (tr_Task b)) (rq_TaskRun r);
  rp_cancel : promised (fun b => present (tc_RunID b)) (rq_TaskCancel r);
  rp_receipt : promised (fun b => present (rc_Seat b) /\ present (rc_SessionID b) /\ present (rc_RequestID b)) (rq_Receipt r);
  rp_facts : promised (fun b => present (uf_Seat b) /\ present (uf_SessionID b) /\ (1 <= uf_Limit b <= UsagePageLimit)%Z
    /\ (0 <= uf_ExpiresAt b)%Z) (rq_UsageFacts r) }.

Lemma blank_spec s : blank s = false <-> present s.
Proof. unfold blank, present. by rewrite bool_decide_eq_false. Qed.
Lemma one_of_spec s l : one_of s l = true <-> s ∈ l.
Proof. apply bool_decide_eq_true. Qed.

(** What each validation lets pass, and that it lets it pass again. *)
Definition passes {B} (validate : B -> checked B) (P : B -> Prop) : Prop :=
  forall b b', validate b = inl b' -> validate b' = inl b' /\ P b'.

(** A check that changes nothing. *)
Lemma passes_only {B} (validate : B -> checked B) (P : B -> Prop) :
  (forall b b', validate b = inl b' -> b' = b /\ P b) -> passes validate P.
Proof. intros H b b' E. destruct (H b b' E) as [-> Q]. done. Qed.

Ltac checks :=
  apply passes_only; intros b b' E;
  repeat match goal with
  | H : context [if ?c then _ else _] |- _ => destruct c eqn:?; try discriminate H
  end;
  (injection E as <-; split; [reflexivity|]);
  repeat match goal with
  | H : blank _ = false |- _ => apply blank_spec in H
  | H : negb _ = false |- _ => apply negb_false_iff in H
  | H : one_of _ _ = true |- _ => apply one_of_spec in H
  | H : (_ || _) = false |- _ => apply orb_false_iff in H as [? ?]
  | H : bool_decide _ = false |- _ => apply bool_decide_eq_false in H
  | H : (_ <? _)%Z = false |- _ => apply Z.ltb_ge in H
  | H : (_ <=? _)%Z = false |- _ => apply Z.leb_gt in H
  end; split_and?; try done; try lia.

Lemma grant_passes : passes validate_grant (fun b => present (gr_Name b) /\ is_Some (gr_Def b)).
Proof. unfold validate_grant. checks. Qed.
Lemma named_passes : passes validate_named (fun b => present (nm_Name b)).
Proof. unfold validate_named. checks. Qed.
Lemma recover_passes : passes validate_auth_recover (fun b => present (ar_Name b)).
Proof. unfold validate_auth_recover. checks. Qed.
Lemma resolve_passes : passes validate_resolve (fun b => is_Some (rv_Predicates b)).
Proof. unfold validate_resolve. checks. Qed.
Lemma judge_passes : passes validate_judge (fun b => is_Some (jg_Request b)).
Proof. unfold validate_judge. checks. Qed.
Lemma task_passes : passes validate_task_run (fun b => is_Some (tr_Task b)).
Proof. unfold validate_task_run. checks. Qed.
Lemma cancel_passes : passes validate_task_cancel (fun b => present (tc_RunID b)).
Proof. unfold validate_task_cancel. checks. Qed.
Lemma compact_passes : passes validate_compact (fun b => present (cp_Name b) /\ (0 < cp_BoundTokens b)%Z).
Proof. unfold validate_compact. checks. Qed.
Lemma set_model_passes : passes validate_set_model (fun b => present (sm_Name b) /\ present (sm_Model b)).
Proof. unfold validate_set_model. checks. Qed.
Lemma verdict_passes : passes validate_goal_verdict (fun b => present (gv_Name b) /\ present (gv_CheckID b)).
Proof. unfold validate_goal_verdict. checks. Qed.
Lemma rewind_passes : passes validate_rewind (fun b => present (rw_Name b) /\ (1 <= rw_Turns b)%Z).
Proof. unfold validate_rewind. checks. Qed.
Lemma resize_passes : passes validate_resize (fun b => present (rz_Name b) /\ rz_Cols b <> 0%Z /\ rz_Rows b <> 0%Z).
Proof. unfold validate_resize. checks. Qed.
Lemma fleet_passes : passes validate_fleet (fun b => fl_Op b ∈ FleetOps /\ fl_Fleet b <> "").
Proof. unfold validate_fleet. checks. Qed.
Lemma generations_passes : passes validate_generations (fun b => (1 <= gn_Limit b <= GenerationPageLimit)%Z).
Proof. unfold validate_generations. checks. Qed.
Lemma facts_passes : passes validate_usage_facts (fun b => present (uf_Seat b) /\ present (uf_SessionID b)
  /\ (1 <= uf_Limit b <= UsagePageLimit)%Z /\ (0 <= uf_ExpiresAt b)%Z).
Proof. unfold validate_usage_facts. checks. Qed.

Lemma receipt_passes : passes validate_receipt
  (fun b => present (rc_Seat b) /\ present (rc_SessionID b) /\ present (rc_RequestID b)).
Proof. unfold validate_receipt. cbn [List.find snd fst]. checks. Qed.

Lemma release_passes : passes validate_release (fun b => (present (rel_SessionID b) \/ present (rel_Name b))
    /\ rel_Disposition b ∈ [DispositionStop; DispositionDetach; DispositionReuse]
    /\ (rel_Force b = true -> rel_Disposition b = DispositionDetach)
    /\ (rel_KeepAliveSeconds b <> 0%Z -> rel_Disposition b = DispositionReuse /\ (0 < rel_KeepAliveSeconds b)%Z)).
Proof.
  unfold validate_release. checks.
  all: try match goal with
  | X : (blank _ && blank _) = false |- _ \/ _ => apply andb_false_iff in X as [X|X]; apply blank_spec in X; auto
  | X : (rel_Force _ && _) = false |- _ -> rel_Disposition _ = _ =>
    let F := fresh in intros F; rewrite F in X; by apply negb_false_iff, bool_decide_eq_true in X
  end.
  - rewrite !elem_of_cons in *. naive_solver.
  - rewrite !elem_of_cons. auto.
  - intros N. split; [done|lia].
Qed.

Lemma spawn_valid b : sp_Provider b = ProviderClaude -> sp_Mode b ∈ [ModeSession; ModeTask] ->
  sp_Intent b ∈ [IntentAuto; IntentInteractive; IntentBatch] -> present (sp_WorkDir b) -> validate_spawn b = inl b.
Proof.
  destruct b as [p m mo i w]. cbn [sp_Provider sp_Mode sp_Intent sp_WorkDir]. intros -> M I W%blank_spec.
  repeat (apply elem_of_cons in M as [-> |M]); [| |by apply elem_of_nil in M];
    repeat (apply elem_of_cons in I as [-> |I]); try (by apply elem_of_nil in I);
    unfold validate_spawn; cbv -[blank]; by rewrite W.
Qed.

Lemma spawn_passes : passes validate_spawn (fun b => sp_Provider b = ProviderClaude /\ sp_Mode b ∈ [ModeSession; ModeTask]
    /\ sp_Intent b ∈ [IntentAuto; IntentInteractive; IntentBatch] /\ present (sp_WorkDir b)).
Proof.
  intros b b' E. unfold validate_spawn in E.
  set (b1 := if decide (sp_Provider b = "") then b <| sp_Provider := ProviderClaude |> else b) in E.
  destruct (negb (bool_decide (sp_Provider b1 = ProviderClaude))) eqn:P; [done|].
  apply negb_false_iff, bool_decide_eq_true in P.
  destruct (decide (sp_Mode b1 = "")); [done|]. destruct (negb (one_of (sp_Mode b1) _)) eqn:Mo; [done|].
  set (b2 := if decide (sp_Intent b1 = "") then _ else b1) in E.
  destruct (negb (one_of (sp_Intent b2) _)) eqn:In; [done|]. destruct (blank (sp_WorkDir b2)) eqn:Wo; [done|]. injection E as <-.
  assert (sp_Provider b2 = ProviderClaude /\ sp_Mode b2 = sp_Mode b1) as [P2 M2].
  { unfold b2. by destruct (decide (sp_Intent b1 = "")). }
  apply negb_false_iff, one_of_spec in Mo, In. rewrite <-M2 in Mo. apply blank_spec in Wo.
  split; [by apply spawn_valid|done].
Qed.

(** Escalations. *)
Lemma later_rungs i prev l : (0 < i)%nat -> bad_rung i prev l = None ->
  Forall (fun step => es_Mode step = SendModeInterrupt) l /\ StronglySorted Z.le (prev :: (es_AfterMS <$> l)).
Proof.
  revert i prev. induction l as [|step l IH]; intros i prev I; [intros _; split; [done|by repeat constructor]|].
  cbn [bad_rung]. rewrite (bool_decide_eq_false_2 (i = 0%nat)) by lia. cbn [andb negb].
  destruct (Z.ltb_spec (es_AfterMS step) prev) as [L|L]; [done|].
  destruct (bool_decide (es_Mode step = SendModeInterrupt)) eqn:Mo; [|done]. cbn [negb].
  intros [F S]%IH; [|lia]. apply bool_decide_eq_true in Mo. split; [by constructor|].
  cbn. constructor; [exact S|]. constructor; [done|]. apply StronglySorted_inv in S as [_ A].
  eapply List.Forall_impl; [|exact A]. intros x X. cbn in X. lia.
Qed.

Lemma rungs_pass l : bad_rung 0 0 l = None -> rungs_in_order l.
Proof.
  destruct l as [|step l]; [done|]. cbn [bad_rung].
  destruct (Z.ltb_spec (es_AfterMS step) 0) as [L|L]; [done|].
  destruct (one_of (es_Mode step) [SendModeSubmit; SendModeSteer]) eqn:Mo; [|done]. cbn [negb andb bool_decide].
  intros [F S]%later_rungs; [|lia]. split_and!; [done|done|]. cbn. constructor; [exact S|].
  constructor; [done|]. apply StronglySorted_inv in S as [_ A].
  eapply List.Forall_impl; [|exact A]. intros x X. cbn in X. lia.
Qed.

Lemma send_passes : passes validate_send (fun b => present (sd_Name b) /\ sd_Mode b ∈ SendModes
    /\ (length (default [] (sd_Escalation b)) <= maxEscalationSteps)%nat
    /\ rungs_in_order (default [] (sd_Escalation b))).
Proof.
  intros b b' E. unfold validate_send in E. destruct (blank (sd_Name b)) eqn:N; [done|].
  set (b1 := if decide (sd_Mode b = "") then _ else b) in E.
  destruct (one_of (sd_Mode b1) SendModes) eqn:Mo; [|done]. cbn [negb] in E.
  assert (sd_Name b1 = sd_Name b) as N1 by (unfold b1; by destruct (decide (sd_Mode b = ""))).
  destruct (maxEscalationSteps <? length (default [] (sd_Escalation b1)))%nat eqn:Le; [done|].
  destruct (bad_rung 0 0 _) eqn:R; [done|]. injection E as <-. rewrite <-N1 in N. split.
  - unfold validate_send. rewrite N. assert (sd_Mode b1 <> "") as Ne.
    { intros X. rewrite X in Mo. by vm_compute in Mo. }
    rewrite decide_False by done. by rewrite Mo, Le, R.
  - apply blank_spec in N. apply one_of_spec in Mo. apply Nat.ltb_ge in Le. split_and!; [done|done|done|by apply rungs_pass].
Qed.

(** *** Requests *)

Section Requests.
Context `{JsonText, FloatText, Base64, TimeText}.

(** A table's validations let a body pass only if it passes again. *)
Definition settled {M} (sp : bodySpec M) : Prop := forall b b', bs_validate sp b = inl b' -> bs_validate sp b' = inl b'.

Lemma refusing_spec {B} (f : B -> checked B) b b' : refusing f b = inl b' <-> f b = inl b'.
Proof. unfold refusing. destruct (f b); split; congruence. Qed.

Lemma parsed_body {M} env (sp : bodySpec M) m m' : parseBody env sp m = inl m' ->
  exists b b', decodeBody (bs_codec sp) (env_Body env) = inl b /\ bs_validate sp b = inl b' /\ m' = bs_upd sp (fun _ => Some b') m.
Proof.
  unfold parseBody. destruct (decodeBody (bs_codec sp) (env_Body env)) as [b|e]; [|done].
  destruct (bs_validate sp b) as [b'|e] eqn:V; [|done]. intros [= <-]. by exists b, b'.
Qed.

(** The body of each type of request, as it is after validation. *)
Lemma request_kept sp t b b' id :
  spec_of requestSpecs t = Some sp -> bs_validate sp b = inl b' ->
  bs_validate sp b' = inl b' /\ request_promises (bs_upd sp (fun _ => Some b') (new_Request id t)).
Proof.
  intros I%spec_of_in. revert b b'. unfold requestSpecs in I.
  repeat (apply elem_of_cons in I as [[= -> ->]|I]); [..|by apply elem_of_nil in I]; intros b b' V;
    cbn [bs_validate spec] in *.
  all: first
    [ apply refusing_spec in V;
      first [ apply generations_passes in V | apply fleet_passes in V | apply facts_passes in V | apply receipt_passes in V | apply spawn_passes in V | apply release_passes in V
            | apply resolve_passes in V | apply task_passes in V | apply cancel_passes in V | apply grant_passes in V | apply send_passes in V
            | apply named_passes in V | apply set_model_passes in V | apply compact_passes in V | apply resize_passes in V | apply rewind_passes in V
            | apply verdict_passes in V | apply judge_passes in V | apply recover_passes in V ];
      destruct V as [V P]; split; [by apply refusing_spec|split; cbn; first [exact P | exact I | repeat first [exact P | constructor]]]
    | split; [reflexivity|split; cbn; first [exact I | by repeat constructor]] ].
Qed.

Lemma parse_request line r : ParseRequest line = inl r ->
  exists env sp b b', parseEnvelope line = inl env /\ spec_of requestSpecs (env_Type env) = Some sp
    /\ decodeBody (bs_codec sp) (env_Body env) = inl b /\ bs_validate sp b = inl b'
    /\ r = bs_upd sp (fun _ => Some b') (new_Request (env_ID env) (env_Type env)).
Proof.
  unfold ParseRequest. destruct (parseEnvelope line) as [env|e]; [|done].
  destruct (spec_of requestSpecs (env_Type env)) as [sp|] eqn:Sp; [|done].
  intros (b & b' & D & V & ->)%parsed_body. by exists env, sp, b, b'.
Qed.

(** Every body is a struct, read strictly. *)
Definition strict {M} (sp : bodySpec M) : Prop := exists z fs, bs_codec sp = struct z fs.
Lemma requests_strict sp t : spec_of requestSpecs t = Some sp -> strict sp.
Proof.
  intros I%spec_of_in. unfold requestSpecs in I.
  repeat (apply elem_of_cons in I as [[= -> ->]|I]; [by do 2 eexists|]). by apply elem_of_nil in I.
Qed.

(** The members of what is read of a struct. *)
Definition all_known {B} (fs : list (field B)) (j : json) : Prop :=
  match j with JObject l => Forall (fun m => is_Some (find_field fs m.1)) l | _ => True end.

Lemma struct_known {B} (z : B) fs j b : c_in (struct z fs) j z = (b, None) -> all_known fs j.
Proof. destruct j; try done. cbn. by intros [_ A]%members_are_fields. Qed.

(** C15: A request that is accepted is of a known type, has the body of that type and
    no other, and has nothing in it that its validation would change or refuse: of a
    spawn the provider, the mode and the intent are among those there are, names
    and directories are not blank, an escalation begins with a submit or a steer,
    goes on with interrupts and never back in time, a forced release is a detach, a
    time to keep a seat warm comes with a reuse, and numbers are in their bounds.
    No member of its line or of its body was one that the broker does not know. *)
Theorem an_accepted_request_keeps_its_promises line r :
  ParseRequest line = inl r ->
  request_promises r
  /\ exists sp b, spec_of requestSpecs (rq_Type r) = Some sp
       /\ r = bs_upd sp (fun _ => Some b) (new_Request (rq_ID r) (rq_Type r)) /\ bs_validate sp b = inl b
       /\ exists j rest env, first_value line = Some (j, rest) /\ all_known Envelope_fields j
            /\ decodeStrict Envelope_json line = inl env
            /\ exists z fs, bs_codec sp = struct z fs /\ forall body, env_Body env = Some body -> all_known fs body.
Proof.
  intros (env & sp & b & b' & Pe & Sp & D & V & ->)%parse_request.
  destruct (request_kept sp _ b b' (env_ID env) Sp V) as [V' P]. split; [exact P|].
  destruct (good_spec_of _ _ _ _ good_requests Sp) as (_ & _ & Hd).
  pose proof (Hd (fun _ => Some b') (new_Request (env_ID env) (env_Type env))) as [= Ei Et].
  rewrite Ei, Et. exists sp, b'. split_and!; [done|done|done|]. unfold parseEnvelope in Pe.
  destruct (decodeStrict Envelope_json line) as [env'|] eqn:De; [|done].
  assert (env' = env) as -> by by destruct (decide (env_V env' = Version)); [congruence|].
  unfold decodeStrict in De. destruct (first_value line) as [[j rest]|]; [|done]. exists j, rest, env.
  destruct (c_in Envelope_json j (c_zero Envelope_json)) as [x [p|]] eqn:C; [done|]. apply struct_known in C.
  split_and!; [done|done|done|]. destruct (requests_strict sp _ Sp) as (z & fs & S). exists z, fs. split; [done|].
  intros body B. rewrite B in D. unfold decodeBody in D. rewrite S in D.
  destruct (c_in (struct z fs) body (c_zero (struct z fs))) as [y [p|]] eqn:Cb; [done|]. by apply struct_known in Cb.
Qed.

(** ** What is refused *)

Definition body_codes : list string := [CodeUnknownField; CodeMalformed; CodeMissingField; CodeUnsupportedValue].

Lemma problem_code p : pe_Code (problem_error p) ∈ [CodeMalformed; CodeUnknownField] /\ pe_ID (problem_error p) = "".
Proof. destruct p; cbn; split; try done; rewrite !elem_of_cons; auto. Qed.

Lemma bad_rung_code i prev l e : bad_rung i prev l = Some e -> pe_Code e = CodeUnsupportedValue.
Proof.
  revert i prev. induction l as [|step l IH]; intros i prev; cbn [bad_rung]; [done|].
  destruct (_ <? _)%Z; [by intros [= <-]|]. destruct (bool_decide _ && _); [by intros [= <-]|].
  destruct (negb _ && _); [by intros [= <-]|]. apply IH.
Qed.

(** A validation refuses a body as missing something or as not supported. *)
Definition refuses_well {B} (validate : B -> checked B) : Prop :=
  forall b e, validate b = inr e -> pe_Code e ∈ [CodeMissingField; CodeUnsupportedValue].

Lemma missing_well f : pe_Code (missing f) ∈ [CodeMissingField; CodeUnsupportedValue].
Proof. rewrite !elem_of_cons. by left. Qed.
Lemma unsupported_well f v : pe_Code (unsupported f v) ∈ [CodeMissingField; CodeUnsupportedValue].
Proof. rewrite !elem_of_cons. by right; left. Qed.

(** Every branch of a validation. *)
Ltac refuses :=
  let V := fresh "V" in intros b e V; cbv zeta in V;
  repeat match type of V with
  | (if ?c then _ else _) = _ => destruct c
  | inl _ = _ => discriminate V
  | inr _ = _ => injection V as <-; first [apply missing_well | apply unsupported_well]
  end.

Lemma spawn_refuses : refuses_well validate_spawn. Proof. unfold validate_spawn. refuses. Qed.
Lemma release_refuses : refuses_well validate_release. Proof. unfold validate_release. refuses. Qed.
Lemma resolve_refuses : refuses_well validate_resolve. Proof. unfold validate_resolve. refuses. Qed.
Lemma judge_refuses : refuses_well validate_judge. Proof. unfold validate_judge. refuses. Qed.
Lemma task_refuses : refuses_well validate_task_run. Proof. unfold validate_task_run. refuses. Qed.
Lemma cancel_refuses : refuses_well validate_task_cancel. Proof. unfold validate_task_cancel. refuses. Qed.
Lemma grant_refuses : refuses_well validate_grant. Proof. unfold validate_grant. refuses. Qed.
Lemma named_refuses : refuses_well validate_named. Proof. unfold validate_named. refuses. Qed.
Lemma recover_refuses : refuses_well validate_auth_recover. Proof. unfold validate_auth_recover. refuses. Qed.
Lemma compact_refuses : refuses_well validate_compact. Proof. unfold validate_compact. refuses. Qed.
Lemma set_model_refuses : refuses_well validate_set_model. Proof. unfold validate_set_model. refuses. Qed.
Lemma verdict_refuses : refuses_well validate_goal_verdict. Proof. unfold validate_goal_verdict. refuses. Qed.
Lemma rewind_refuses : refuses_well validate_rewind. Proof. unfold validate_rewind. refuses. Qed.
Lemma resize_refuses : refuses_well validate_resize. Proof. unfold validate_resize. refuses. Qed.
Lemma fleet_refuses : refuses_well validate_fleet. Proof. unfold validate_fleet. refuses. Qed.
Lemma generations_refuses : refuses_well validate_generations. Proof. unfold validate_generations. refuses. Qed.
Lemma facts_refuses : refuses_well validate_usage_facts. Proof. unfold validate_usage_facts. refuses. Qed.
Lemma receipt_refuses : refuses_well validate_receipt.
Proof. intros b e. unfold validate_receipt. destruct (List.find _ _) as [f|]; [|done]. intros [= <-]. apply missing_well. Qed.
Lemma send_refuses : refuses_well validate_send.
Proof.
  unfold validate_send. refuses. destruct (bad_rung 0 0 _) as [e'|] eqn:R; [|done]. injection V as <-.
  apply bad_rung_code in R. rewrite R, !elem_of_cons. by right; left.
Qed.

Create HintDb refusals.
#[local] Hint Resolve spawn_refuses release_refuses resolve_refuses judge_refuses task_refuses cancel_refuses grant_refuses
  named_refuses recover_refuses compact_refuses set_model_refuses verdict_refuses rewind_refuses resize_refuses
  fleet_refuses generations_refuses facts_refuses receipt_refuses send_refuses : refusals.

Lemma requests_refuse_well sp t b e :
  spec_of requestSpecs t = Some sp -> bs_validate sp b = inr e ->
  exists pe, e = Refused pe /\ pe_Code pe ∈ [CodeMissingField; CodeUnsupportedValue].
Proof.
  assert (forall B (f : B -> checked B) b e, refuses_well f -> refusing f b = inr e ->
            exists pe, e = Refused pe /\ pe_Code pe ∈ [CodeMissingField; CodeUnsupportedValue]) as Go.
  { intros B f x y R. unfold refusing. destruct (f x) as [|pe] eqn:F; [done|]. intros [= <-]. exists pe. split; [done|by eapply R]. }
  intros I%spec_of_in. revert b e. unfold requestSpecs in I.
  repeat (apply elem_of_cons in I as [[= -> ->]|I]); [..|by apply elem_of_nil in I]; intros x y V;
    cbn [bs_validate spec] in *.
  all: first [discriminate V | revert V; apply Go; eauto with refusals].
Qed.

(** C16: Whatever line is refused, the refusal is a typed one. When the line cannot be
    read as an envelope it is called malformed, or the member that is not known is;
    otherwise it carries the request's id and says that the version is not
    supported, with the one that is; that the type is one that only the broker
    sends; that there is no such type; or what is wrong with the body. *)
Theorem a_refusal_says_what_is_wrong line e :
  ParseRequest line = inr e ->
  exists pe, e = Refused pe /\
  match decodeStrict Envelope_json line with
  | inr pe' => pe = pe' /\ pe_Code pe ∈ [CodeMalformed; CodeUnknownField]
  | inl env =>
    pe_ID pe = env_ID env /\
    if decide (env_V env = Version) then
      match spec_of requestSpecs (env_Type env), spec_of responseSpecs (env_Type env) with
      | Some _, _ => pe_Code pe ∈ body_codes
      | None, Some _ => pe_Code pe = CodeNotARequest /\ pe_Value pe = env_Type env
      | None, None => pe_Code pe = CodeUnknownType /\ pe_Value pe = env_Type env
      end
    else pe_Code pe = CodeUnsupportedVersion /\ pe_SupportedVersions pe = Some [Version]
  end.
Proof.
  unfold ParseRequest, parseEnvelope. destruct (decodeStrict Envelope_json line) as [env|pe] eqn:D.
  - destruct (decide (env_V env = Version)) as [V|V]; [|intros [= <-]; by eexists].
    destruct (spec_of requestSpecs (env_Type env)) as [sp|] eqn:Sp.
    + unfold parseBody, decodeBody. destruct (env_Body env) as [j|].
      * destruct (c_in (bs_codec sp) j (c_zero (bs_codec sp))) as [b [p|]] eqn:C; cbn [snd fst].
        -- intros [= <-]. eexists. split; [done|]. split; [done|]. destruct p; cbn; unfold body_codes; rewrite !elem_of_cons; auto.
        -- destruct (bs_validate sp b) as [b'|e'] eqn:Va; [done|]. intros [= <-].
           destruct (requests_refuse_well sp _ b e' Sp Va) as (pe & -> & C'). eexists. split; [done|]. split; [done|].
           cbn. unfold body_codes. rewrite !elem_of_cons in *. naive_solver.
      * destruct (bs_validate sp (c_zero (bs_codec sp))) as [b'|e'] eqn:Va; [done|]. intros [= <-].
        destruct (requests_refuse_well sp _ _ e' Sp Va) as (pe & -> & C'). eexists. split; [done|]. split; [done|].
        cbn. unfold body_codes. rewrite !elem_of_cons in *. naive_solver.
    + intros [= <-]. eexists. split; [done|]. unfold misdirected. destruct (spec_of responseSpecs (env_Type env)); done.
  - intros [= <-]. exists pe. split; [done|]. split; [done|]. unfold decodeStrict in D.
    destruct (first_value line) as [[j rest]|]; [|injection D as <-; cbn; rewrite !elem_of_cons; auto].
    destruct (c_in Envelope_json j (c_zero Envelope_json)) as [x [p|]]; cbn [snd fst] in D.
    + injection D as <-. apply problem_code.
    + destruct (More rest); [|done]. injection D as <-. cbn. rewrite !elem_of_cons. auto.
Qed.

End Requests.

(** ** Where the code does less than it says *)

Section Findings.
Context `{JsonText, FloatText, Base64, TimeText}.

(** What follows a value is not looked at when it begins with a closing bracket. *)
Lemma a_closing_bracket_hides_the_rest line j junk env :
  first_value line = Some (j, "}" +:+ junk) -> c_in Envelope_json j new_Envelope = (env, None) ->
  env_V env = Version -> parseEnvelope line = inl env.
Proof.
  intros F C V. unfold parseEnvelope, decodeStrict. rewrite F. change (c_zero Envelope_json) with new_Envelope.
  rewrite C. cbn [snd fst]. change (More ("}" +:+ junk)) with false. cbv iota. by rewrite decide_True.
Qed.

(** An envelope with a member that is not known is refused without its id, although
    the id was read. *)
Definition unknown_member : json :=
  JObject [("v", JNumber "1"); ("type", JString "status"); ("id", JString "7"); ("extra", JNull)].
Lemma an_unknown_member_hides_the_id line :
  first_value line = Some (unknown_member, "") ->
  ParseRequest line = inr (Refused (refusal CodeUnknownField "extra" ""))
  /\ env_ID (c_in Envelope_json unknown_member new_Envelope).1 = "7".
Proof.
  intros F. split; [|reflexivity]. unfold ParseRequest, parseEnvelope, decodeStrict. rewrite F. reflexivity.
Qed.

(** A release may name both a session and a seat, and a body's raw part may be null. *)
Lemma a_release_may_name_both :
  let r := MkReleaseRequest "s-1" "seat" "stop" 0 false false in validate_release r = inl r.
Proof. reflexivity. Qed.
Lemma null_is_present : validate_resolve (MkResolveRequest (Some JNull)) = inl (MkResolveRequest (Some JNull)).
Proof. reflexivity. Qed.

(** The refusal of a recovery's detail is not a [ProtocolError]. *)
Lemma a_bad_detail_is_not_typed : detail_checked (MkAuthRecoveryDetailResponse "claude" "refreshed" "busy") = inr Invalid.
Proof. reflexivity. Qed.
End Findings.

(** ** Runs *)

Module Wires.

(** A text for every value: the bits of its number. *)
Fixpoint to_tree (j : json) : gen_tree (bool + string) :=
  match j with
  | JNull => GenNode 0 []
  | JBool b => GenLeaf (inl b)
  | JNumber t => GenNode 1 [GenLeaf (inr t)]
  | JString s => GenLeaf (inr s)
  | JArray l => GenNode 2 (to_tree <$> l)
  | JObject l => GenNode 3 ((fun m => GenNode 4 [GenLeaf (inr m.1); to_tree m.2]) <$> l)
  end.
Fixpoint of_tree (t : gen_tree (bool + string)) : json :=
  match t with
  | GenLeaf (inl b) => JBool b
  | GenLeaf (inr s) => JString s
  | GenNode 1 [GenLeaf (inr t)] => JNumber t
  | GenNode 2 l => JArray (of_tree <$> l)
  | GenNode 3 l => JObject ((fun m => match m with GenNode 4 [GenLeaf (inr k); v] => (k, of_tree v) | _ => ("", JNull) end) <$> l)
  | _ => JNull
  end.

Lemma tree_back j : of_tree (to_tree j) = j.
Proof.
  revert j. fix IH 1. intros [| | | |l|l]; try reflexivity.
  - cbn. f_equal. induction l as [|j l IHl]; [done|]. cbn. by rewrite IH, IHl.
  - cbn. f_equal. induction l as [|[k j] l IHl]; [done|]. cbn. by rewrite IH, IHl.
Qed.

Fixpoint bits (p : positive) : string :=
  match p with xH => "e" | xO p => String "0" (bits p) | xI p => String "1" (bits p) end.
Fixpoint of_bits (s : string) : option positive :=
  match s with
  | EmptyString => None
  | String a s => if Ascii.eqb a "e"%char then Some xH
                  else if Ascii.eqb a "0"%char then xO <$> of_bits s else xI <$> of_bits s
  end.
Lemma bits_back p : of_bits (bits p) = Some p.
Proof. induction p as [p IH|p IH|]; cbn; [by rewrite IH..|done]. Qed.
Lemma bits_line p : line_feed (bits p) = None.
Proof. induction p as [p IH|p IH|]; cbn; [by rewrite IH..|done]. Qed.

#[export] Instance bits_json : JsonText := {|
  first_value s := match of_bits s with Some p => (fun t => (of_tree t, "")) <$> decode p | None => None end;
  print_json j := bits (encode (to_tree j)) |}.
#[export] Instance bits_json_laws : JsonTextLaws.
Proof.
  split; intros j _; cbn; [|apply bits_line]. rewrite bits_back, decode_encode. cbn. by rewrite tree_back.
Qed.

(** Texts for numbers, bytes and times that none of the messages here have. *)
#[export] Instance no_floats : FloatText := {| float_text _ := "0"; text_float _ := None |}.
#[export] Instance plain_bytes : Base64 := {| to_base64 s := s; of_base64 := Some |}.
#[export] Instance no_times : TimeText := {| time_text _ := None; text_time _ := None |}.

Definition a_send : Request :=
  (new_Request "7" TypeSend) <| rq_Send := Some (MkSendRequest "seat" "hello" "r-1" SendModeSteer None) |>.




Definition a_line : string := match EncodeRequest a_send with inl l => l | inr _ => "" end.

Theorem an_accepted_request_keeps_its_promises_witness : ParseRequest a_line = inl a_send /\ request_promises a_send.
Proof.
  assert (ParseRequest a_line = inl a_send) as P by (vm_compute; reflexivity). split; [exact P|].
  exact (proj1 (an_accepted_request_keeps_its_promises a_line a_send P)).
Defined.

Definition a_blank_send : string :=
  match EncodeRequest ((new_Request "7" TypeSend) <| rq_Send := Some (MkSendRequest " " "hello" "" "" None) |>) with
  | inl l => l | inr _ => "" end.

Theorem a_refusal_says_what_is_wrong_witness :
  let e := Refused (MkProtocolError CodeMissingField "name" "" None "7") in
  ParseRequest a_blank_send = inr e /\ exists pe, e = Refused pe.
Proof.
  cbv zeta. assert (ParseRequest a_blank_send = inr (Refused (MkProtocolError CodeMissingField "name" "" None "7"))) as P
    by (vm_compute; reflexivity). split; [exact P|].
  destruct (a_refusal_says_what_is_wrong a_blank_send _ P) as (pe & E & _). by exists pe.
Defined.

End Wires.
