(* ===== verification/PlanBand.v ===== *)
(** * PlanBand: what a plan's usage reading says

    Models [plan_band.go], [plan_usage_model.go] and the data of
    [plan_usage.go]: the pressure of a window, its band, and whether a provider
    or one of its models may be given work. [math.Log] is a parameter, and so is
    the time [time.Now] gives. *)

From S2P Require Import Prelude GoLib GoFloat.

(** ** Data *)

Definition PlanUsageAvailable : string := "available".
Definition PlanUsageUnavailable : string := "unavailable".

Definition PlanWindowSession : string := "session".
Definition PlanWindowWeekly : string := "weekly".
Definition PlanWindowModelWeekly : string := "weekly_model".
Definition PlanWindowAPI : string := "api".

(** Bands and session states are Go strings, and an owner's override can hold
    any string. *)
Definition PlanBandOK : string := "ok".
Definition PlanBandAhead : string := "ahead".
Definition PlanBandHot : string := "hot".
Definition PlanBandUnder : string := "under".
Definition PlanBandLocked : string := "locked".
Definition PlanBandExhausted : string := "exhausted".
Definition PlanBandUnpublished : string := "unpublished".

Definition PlanSessionOK : string := "ok".
Definition PlanSessionLow : string := "low".
Definition PlanSessionExhausted : string := "exhausted".
Definition PlanSessionUnpublished : string := "unpublished".

Record PlanWindow := MkWindow {
  w_Band : string; w_Pressure : option float64; w_Name : string;
  w_UsedPercent : option float64; w_RemainingPercent : option float64;
  w_ResetsAt : option Time; w_LimitWindow : Duration; w_Model : string }.

Record PlanMoney := MkMoney { mo_AmountMinor : Z; mo_Exponent : Z; mo_Currency : string }.
Record PlanCredits := MkCredits {
  pc_HasCredits : bool; pc_Unlimited : bool; pc_Balance : float64 }.
Record PlanSpend := MkSpend {
  ps_Enabled : bool; ps_Used : option PlanMoney; ps_Limit : option PlanMoney;
  ps_Percent : option float64; ps_LimitReached : bool; ps_Balance : option PlanMoney }.

Record PlanUsage := MkPlanUsage {
  u_Provider : string; u_Status : string; u_Reason : string; u_Windows : list PlanWindow;
  u_FetchedAt : Time; u_PlanType : string; u_HTTPStatus : Z; u_RawBody : string;
  u_Credits : option PlanCredits; u_Spend : option PlanSpend }.

Record PlanThresholds := MkThresholds {
  th_WarmupElapsedPercent : float64; th_EarlyAlarmUsedPercent : float64;
  th_LowRemainingPercent : float64; th_CriticalRemainingPercent : float64;
  th_DampLambdaPercent : float64; th_AheadMarginPercent : float64; th_ShrinkPriorK : float64;
  th_PanicAmberLn : float64; th_PanicRedLn : float64;
  th_WasteUnderLn : float64; th_WasteLockedLn : float64 }.

Definition DefaultPlanThresholds : PlanThresholds :=
  MkThresholds (F.of_Z 5) (F.of_Z 25) (F.of_Z 15) (F.of_Z 5) (F.of_Z 5) (F.of_Z 2) (F.of_Z 100)
    (F.q 49 100) (F.of_Z 1) (F.q (-60) 100) (F.q (-150) 100).

(** A field that is zero takes its default. *)
Definition or_default (x d : float64) : float64 := if F.eqb x F.zero then d else x.

Definition withDefaults (th : PlanThresholds) : PlanThresholds :=
  let d := DefaultPlanThresholds in
  MkThresholds (or_default (th_WarmupElapsedPercent th) (th_WarmupElapsedPercent d))
    (or_default (th_EarlyAlarmUsedPercent th) (th_EarlyAlarmUsedPercent d))
    (or_default (th_LowRemainingPercent th) (th_LowRemainingPercent d))
    (or_default (th_CriticalRemainingPercent th) (th_CriticalRemainingPercent d))
    (or_default (th_DampLambdaPercent th) (th_DampLambdaPercent d))
    (or_default (th_AheadMarginPercent th) (th_AheadMarginPercent d))
    (or_default (th_ShrinkPriorK th) (th_ShrinkPriorK d))
    (or_default (th_PanicAmberLn th) (th_PanicAmberLn d))
    (or_default (th_PanicRedLn th) (th_PanicRedLn d))
    (or_default (th_WasteUnderLn th) (th_WasteUnderLn d))
    (or_default (th_WasteLockedLn th) (th_WasteLockedLn d)).

(** The thresholds a nil pointer or a given value stands for. *)
Definition thresholds (th : option PlanThresholds) : PlanThresholds :=
  match th with
  | Some th => withDefaults th
  | None => DefaultPlanThresholds
  end.

Record PlanVerdict := MkVerdict {
  v_Usage : PlanUsage; v_Weekly : string; v_Session : string; v_ExhaustedReason : bool }.

(** ** Windows *)

Definition windowNamed (u : PlanUsage) (name : string) : option PlanWindow :=
  List.find (fun w => bool_decide (w_Name w = name)) (u_Windows u).

Definition planLevelWindow (u : PlanUsage) (name : string) : option PlanWindow :=
  List.find (fun w => bool_decide (w_Name w = name) && bool_decide (TrimSpace (w_Model w) = ""))
    (u_Windows u).

Definition primaryAllowanceWindow (u : PlanUsage) : option PlanWindow :=
  match planLevelWindow u PlanWindowWeekly with
  | Some w => Some w
  | None =>
    List.find (fun w =>
      negb (bool_decide (w_Name w = PlanWindowSession)
            || bool_decide (w_Name w = PlanWindowModelWeekly)
            || bool_decide (w_Name w = ""))
      && bool_decide (TrimSpace (w_Model w) = "")) (u_Windows u)
  end.

Definition hundred : float64 := F.of_Z 100.

Definition usedPercent (w : PlanWindow) : option float64 :=
  match w_UsedPercent w with
  | Some u => Some u
  | None => (fun r => F.sub hundred r) <$> w_RemainingPercent w
  end.

Definition defaultWeeklyWindow : Duration := 7 * 24 * Hour.
Definition defaultSessionWindow : Duration := 5 * Hour.
Definition defaultMonthlyWindow : Duration := 30 * 24 * Hour.

(** The length of a window: the published one, or the default of its name. *)
Definition window_length (w : PlanWindow) : option Duration :=
  if (0 <? w_LimitWindow w)%Z then Some (w_LimitWindow w)
  else if decide (w_Name w = PlanWindowWeekly) then Some defaultWeeklyWindow
  else if decide (w_Name w = PlanWindowSession) then Some defaultSessionWindow
  else if EqualFold_ascii (w_Name w) "monthly" then Some defaultMonthlyWindow
  else None.

Definition clamp_percent (p : float64) : float64 :=
  let p := if F.ltb p F.zero then F.zero else p in
  if F.ltb hundred p then hundred else p.

Definition remainingTimePercent (w : PlanWindow) (now : Time) : option float64 :=
  match w_ResetsAt w with
  | None => None
  | Some at_ =>
    (fun lim => clamp_percent (F.div (F.mul hundred (duration_seconds (Sub at_ now)))
                                 (duration_seconds lim))) <$> window_length w
  end.

(** ** Verdicts *)

(** A 429 or rate-limit reason. *)
Definition IsExhaustedReason `{Unicode} (reason : string) : bool :=
  let s := ToLower reason in
  negb (bool_decide (s = "")) &&
  (Contains s "429" || Contains s "rate_limit" || Contains s "rate-limit" || Contains s "rate limited").

Definition SpendLimitReached (u : PlanUsage) : bool :=
  match u_Spend u with Some s => ps_LimitReached s | None => false end.

Definition BandOfPressure (p : float64) (th : PlanThresholds) : string :=
  let th := withDefaults th in
  if F.leb (th_PanicRedLn th) p then PlanBandHot
  else if F.leb (th_PanicAmberLn th) p then PlanBandAhead
  else if F.leb p (th_WasteLockedLn th) then PlanBandLocked
  else if F.leb p (th_WasteUnderLn th) then PlanBandUnder
  else PlanBandOK.

Definition classifySession (w : PlanWindow) (th : PlanThresholds) : string :=
  match w_RemainingPercent w with
  | None => PlanSessionUnpublished
  | Some r =>
    if F.leb r F.zero then PlanSessionExhausted
    else if F.leb r (th_LowRemainingPercent th) then PlanSessionLow
    else PlanSessionOK
  end.

(** [math.Log]. *)
Class MathLog := math_log : float64 -> float64.

Section Plan.
Context {UC : Unicode} {ML : MathLog}.
(** What [time.Now] gives when the caller gives no time. *)
Variable clock : Time.

(** [ln(current / required)] for one window. *)
Definition Pressure (used elapsed : float64) (th : PlanThresholds) : float64 :=
  let th := withDefaults th in
  let remaining := F.sub hundred used in
  let timeLeft := F.sub hundred elapsed in
  let timeLeft := if F.leb timeLeft F.zero then F.q 1 10000 else timeLeft in
  if F.leb remaining F.zero then F.inf
  else
    let lambda := F.mul (th_ShrinkPriorK th) (F.div timeLeft hundred) in
    let current := F.div (F.add used lambda) (F.add elapsed lambda) in
    let required := F.div remaining timeLeft in
    math_log (F.div current required).

Definition ClassifyWindow (w : PlanWindow) (now : Time) (th : PlanThresholds) : string :=
  let th := withDefaults th in
  if match w_RemainingPercent w with Some r => F.leb r F.zero | None => false end
  then PlanBandExhausted
  else
    match remainingTimePercent w now, usedPercent w with
    | Some rtp, Some used => BandOfPressure (Pressure used (F.sub hundred rtp) th) th
    | _, _ => PlanBandOK
    end.

Definition ClassifyPlan (u : PlanUsage) (now : Time) (th : option PlanThresholds) : PlanVerdict :=
  let now := if IsZero now then clock else now in
  let th := thresholds th in
  if negb (bool_decide (u_Status u = PlanUsageAvailable))
  then MkVerdict u PlanBandUnpublished PlanSessionUnpublished false
  else
    MkVerdict u
      (match primaryAllowanceWindow u with
       | Some w => ClassifyWindow w now th
       | None => PlanBandUnpublished
       end)
      (match windowNamed u PlanWindowSession with
       | Some w => classifySession w th
       | None => PlanSessionUnpublished
       end)
      (IsExhaustedReason (u_Reason u)).

(** The predicate every choice of a provider applies. *)
Definition HasAvailableTokens (u : PlanUsage) (now : Time) (th : option PlanThresholds) : bool :=
  let v := ClassifyPlan u now th in
  if bool_decide (v_Session v = PlanSessionLow) || bool_decide (v_Session v = PlanSessionExhausted)
  then false
  else if bool_decide (v_Weekly v = PlanBandHot) || bool_decide (v_Weekly v = PlanBandExhausted)
  then false
  else true.

Definition ShouldVacate (u : PlanUsage) (now : Time) (th : option PlanThresholds) : bool :=
  let v := ClassifyPlan u now th in
  if bool_decide (v_Session v = PlanSessionExhausted) then true
  else bool_decide (v_Weekly v = PlanBandHot) || bool_decide (v_Weekly v = PlanBandExhausted).

(** ** Windows of one model *)

(** The bytes a catalog id is cut at. *)
Definition id_separator (a : Ascii.ascii) : bool :=
  contains ["-"; "_"; "."; "/"; ":"; "["; "]"; " "] (String a "").

Definition modelIDMentions (id label : string) : bool :=
  List.existsb (fun part => bool_decide (part = label)) (FieldsFunc id_separator id).

Definition ModelWindowFor (u : PlanUsage) (model : string) : option PlanWindow :=
  let id := ToLower (TrimSpace model) in
  if decide (id = "") then None
  else
    List.find (fun w =>
      let label := ToLower (TrimSpace (w_Model w)) in
      bool_decide (w_Name w = PlanWindowModelWeekly) && negb (bool_decide (label = ""))
      && modelIDMentions id label) (u_Windows u).

Definition ModelHasAvailableTokens (u : PlanUsage) (model : string) (now : Time)
    (th : option PlanThresholds) : bool :=
  if negb (HasAvailableTokens u now th) then false
  else
    match ModelWindowFor u model with
    | None => true
    | Some w =>
      match w_RemainingPercent w with
      | None => true
      | Some r => F.ltb F.zero r
      end
    end.

Definition ExhaustedModels (u : PlanUsage) : list string :=
  w_Model <$> List.filter (fun w =>
    bool_decide (w_Name w = PlanWindowModelWeekly)
    && match w_RemainingPercent w with Some r => F.leb r F.zero | None => false end
    && negb (bool_decide (TrimSpace (w_Model w) = ""))) (u_Windows u).

(** [weeklyPressure] of [resolve.go]: the pressure of the plan's own window. *)
Definition weeklyPressure (u : PlanUsage) (now : Time) (th : option PlanThresholds) : float64 :=
  match primaryAllowanceWindow u with
  | None => F.zero
  | Some w =>
    match remainingTimePercent w now, usedPercent w with
    | Some rtp, Some used => Pressure used (F.sub hundred rtp) (thresholds th)
    | _, _ => F.zero
    end
  end.
End Plan.
