(* ===== verification/PlanThrottle.v ===== *)
(** * PlanThrottle: the floor between usage requests

    Models [plan_usage_throttle.go]. The state is what the throttle file holds;
    reading and writing a file, and JSON, are parameters, and so are the
    renderings of a time and of a duration. A Go panic is [None]. *)

From S2P Require Import Prelude GoLib PlanBand.

Definition PlanThrottleMinInterval : Duration := 5 * Minute.
Definition PlanThrottleFirstPenalty : Duration := 15 * Minute.
Definition PlanThrottleMaxPenalty : Duration := 2 * Hour.
Definition PlanThrottleForcedInterval : Duration := Minute.

(** [PlanThrottleEntry]; counts and statuses are Go ints. *)
Record PlanThrottleEntry := MkThrottle {
  tt_LastAttempt : Time; tt_NextAllowedAt : Time; tt_Refusals : Z; tt_LastStatus : Z }.

Abbreviation planThrottleDoc := (gmap string PlanThrottleEntry) (only parsing).

Record PlanThrottleDecision := MkDecision {
  pd_Allowed : bool; pd_RetryAt : Time; pd_Reason : string }.

Definition allow : PlanThrottleDecision := MkDecision true 0 "".

(** The file's content as a document: none, or a damaged one, is empty. *)
Definition readPlanThrottle (unmarshal : string -> option planThrottleDoc)
    (file : option string) : planThrottleDoc :=
  match file with
  | None => ∅
  | Some raw => default ∅ (unmarshal raw)
  end.

(** [x << s] of a signed 64-bit integer: a negative shift panics. *)
Definition shl64 (x s : Z) : option Z :=
  if (s <? 0)%Z then None
  else if (64 <=? s)%Z then Some 0%Z
  else Some (wrap64 (Z.shiftl x s)).

(** How long a provider is left alone after its [refusals]th refusal. *)
Definition penalty (refusals : Z) : option Duration :=
  (fun p => if (PlanThrottleMaxPenalty <? p)%Z || (p <=? 0)%Z then PlanThrottleMaxPenalty else p)
    <$> shl64 PlanThrottleFirstPenalty (wrap64 (refusals - 1)).

(** The entry of a provider nobody asked yet. *)
Definition no_entry : PlanThrottleEntry := MkThrottle 0 0 0 0.

(** What one attempt leaves of a provider's entry. *)
Definition record_attempt (now : Time) (status : Z) (e : PlanThrottleEntry)
    : option PlanThrottleEntry :=
  if (status =? 429)%Z || (status =? 529)%Z then
    let refusals := wrap64 (tt_Refusals e + 1) in
    (fun p => MkThrottle now (Add now p) refusals status) <$> penalty refusals
  else if (status =? 0)%Z then
    Some (MkThrottle now
            (if (tt_Refusals e =? 0)%Z then Add now PlanThrottleMinInterval else tt_NextAllowedAt e)
            (tt_Refusals e) status)
  else Some (MkThrottle now (Add now PlanThrottleMinInterval) 0 status).

(** [RecordPlanAttempt], with the file readable and writable as [path_ok] and
    [write_ok] say. *)
Definition RecordPlanAttempt (path_ok write_ok : bool) (p : string) (now : Time) (status : Z)
    (doc : planThrottleDoc) : option planThrottleDoc :=
  if negb path_ok then Some doc
  else
    match record_attempt now status (default no_entry (doc !! p)) with
    | None => None
    | Some e => Some (if write_ok then <[p := e]> doc else doc)
    end.

(** [Duration.Round(time.Second)], half away from zero, for a duration far
    from the ends of the range. *)
Definition round_second (d : Duration) : Duration :=
  if (d <? 0)%Z then - (Second * Z.quot (- d + Second / 2) Second)
  else Second * Z.quot (d + Second / 2) Second.

(** [time.RFC3339] of a UTC time and [Duration.String]. *)
Class ThrottleFormat := { rfc3339 : Time -> string; duration_string : Duration -> string }.

Section Throttle.
Context {TF : ThrottleFormat}.

Definition refused_reason (p : string) (e : PlanThrottleEntry) : string :=
  p +:+ " refused the last " +:+ itoa (tt_Refusals e) +:+ " usage request(s); holding off until "
    +:+ rfc3339 (tt_NextAllowedAt e) +:+ " so the refusal is not extended".

Definition floor_reason (p : string) (now : Time) (e : PlanThrottleEntry) (floor : Duration) : string :=
  "last " +:+ p +:+ " usage request was " +:+ duration_string (round_second (Sub now (tt_LastAttempt e)))
    +:+ " ago; the floor between requests from this host is " +:+ duration_string floor.

(** [CheckPlanThrottle]. *)
Definition CheckPlanThrottle (path_ok : bool) (p : string) (now : Time) (forced : bool)
    (doc : planThrottleDoc) : PlanThrottleDecision :=
  if negb path_ok then allow
  else
    match doc !! p with
    | None => allow
    | Some e =>
      if (0 <? tt_Refusals e)%Z && Before now (tt_NextAllowedAt e) then
        MkDecision false (tt_NextAllowedAt e) (refused_reason p e)
      else
        let floor := if forced then PlanThrottleForcedInterval else PlanThrottleMinInterval in
        let next := Add (tt_LastAttempt e) floor in
        if Before now next then MkDecision false next (floor_reason p now e floor)
        else allow
    end.

(** One process asking for one provider's usage: the check, and, when it
    allows, the request and its record. *)
Record ask := MkAsk { q_now : Time; q_forced : bool; q_status : Z }.

(** The entries after a sequence of asks, and the requests that went out, the
    newest first. A panic ends the sequence. *)
Fixpoint ask_all (p : string) (asks : list ask) (doc : planThrottleDoc) (sent : list ask)
    : planThrottleDoc * list ask :=
  match asks with
  | [] => (doc, sent)
  | q :: asks' =>
    if pd_Allowed (CheckPlanThrottle true p (q_now q) (q_forced q) doc) then
      match RecordPlanAttempt true true p (q_now q) (q_status q) doc with
      | None => (doc, q :: sent)
      | Some doc' => ask_all p asks' doc' (q :: sent)
      end
    else ask_all p asks' doc sent
  end.
End Throttle.

(** ** The reading carried while a request is withheld *)

Definition drop_body (u : PlanUsage) : PlanUsage :=
  MkPlanUsage (u_Provider u) (u_Status u) (u_Reason u) (u_Windows u) (u_FetchedAt u) (u_PlanType u)
    (u_HTTPStatus u) "" (u_Credits u) (u_Spend u).

(** [savePlanLastReading] and [loadPlanLastReading], on the readings file. *)
Definition savePlanLastReading (dir : string) (write_ok : bool) (u : PlanUsage)
    (doc : gmap string PlanUsage) : gmap string PlanUsage :=
  if bool_decide (dir = "") || bool_decide (u_Provider u = "") || negb write_ok then doc
  else <[u_Provider u := drop_body u]> doc.

Definition loadPlanLastReading (dir p : string) (doc : gmap string PlanUsage) : option PlanUsage :=
  if decide (dir = "") then None else doc !! p.
