(* ===== verification/PlanTheorems.v ===== *)
(** * PlanTheorems: bands, tokens and the request floor

    The properties of [PlanBand] and [PlanThrottle]. *)

From S2P Require Import Prelude GoLib GoFloat PlanBand PlanThrottle.

(** ** Bands *)

(** How hard a band is spent. *)
Definition band_severity (b : string) : Z :=
  if decide (b = PlanBandLocked) then 0
  else if decide (b = PlanBandUnder) then 1
  else if decide (b = PlanBandOK) then 2
  else if decide (b = PlanBandAhead) then 3
  else 4.

(** Bands follow pressure: with thresholds in their order, a higher
    pressure never gets a milder band, and each threshold is itself in the band
    it opens. *)
Theorem bands_follow_pressure th p q :
  let t := withDefaults (withDefaults th) in
  F.leb (th_WasteLockedLn t) (th_WasteUnderLn t) = true ->
  F.ltb (th_WasteUnderLn t) (th_PanicAmberLn t) = true ->
  F.leb (th_PanicAmberLn t) (th_PanicRedLn t) = true ->
  F.leb p q = true ->
  (band_severity (BandOfPressure p (withDefaults th)) <= band_severity (BandOfPressure q (withDefaults th)))%Z
  /\ BandOfPressure (th_PanicRedLn t) (withDefaults th) = PlanBandHot
  /\ (F.ltb (th_PanicAmberLn t) (th_PanicRedLn t) = true ->
      BandOfPressure (th_PanicAmberLn t) (withDefaults th) = PlanBandAhead)
  /\ BandOfPressure (th_WasteLockedLn t) (withDefaults th) = PlanBandLocked.
Proof.
  intros t H1 H2 H3 Hpq. unfold BandOfPressure. fold t.
  set (l := th_WasteLockedLn t) in *. set (u := th_WasteUnderLn t) in *.
  set (a := th_PanicAmberLn t) in *. set (r := th_PanicRedLn t) in *.
  pose proof (leb_num _ _ H1) as []. pose proof (leb_num _ _ H3) as [].
  pose proof (leb_num _ _ Hpq) as [].
  split_and!.
  - assert (forall x, F.leb x p = true -> F.leb x q = true) as Up by (intros; by eapply leb_trans).
    assert (forall x, F.leb q x = true -> F.leb p x = true) as Dn by (intros; by eapply leb_trans).
    pose proof (Up r). pose proof (Up a). pose proof (Dn l). pose proof (Dn u). clear Up Dn.
    destruct (F.leb r p), (F.leb a p), (F.leb p l), (F.leb p u),
      (F.leb r q), (F.leb a q), (F.leb q l), (F.leb q u);
      try (vm_compute; discriminate); exfalso; naive_solver.
  - rewrite leb_refl by done. done.
  - intros Hs. rewrite (ltb_leb _ _ Hs), leb_refl by done. done.
  - replace (F.leb r l) with false by (symmetry; float_order).
    replace (F.leb a l) with false by (symmetry; float_order).
    by rewrite leb_refl.
Qed.

Definition a_tight : PlanThresholds := DefaultPlanThresholds.

Lemma bands_follow_pressure_witness :
  F.leb (F.of_Z 0) (F.of_Z 1) = true
  /\ (band_severity (BandOfPressure (F.of_Z 0) (withDefaults a_tight))
      <= band_severity (BandOfPressure (F.of_Z 1) (withDefaults a_tight)))%Z.
Proof.
  split; [reflexivity|].
  apply (bands_follow_pressure a_tight (F.of_Z 0) (F.of_Z 1)); reflexivity.
Defined.

(** ** Available tokens *)

(** only a published number takes a provider out of use: a reading that
    failed neither refuses nor moves anything; a provider that must be left is
    never chosen; a published window with nothing left means both, unless the
    plan publishes a bigger one first; and a model is chosen only when its plan
    is, and never when its own window is empty. *)
Theorem spent_is_what_was_published `{Unicode, MathLog} clock u now th :
  (u_Status u <> PlanUsageAvailable ->
   HasAvailableTokens clock u now th = true /\ ShouldVacate clock u now th = false)
  /\ (ShouldVacate clock u now th = true -> HasAvailableTokens clock u now th = false)
  /\ (forall w r, u_Status u = PlanUsageAvailable -> primaryAllowanceWindow u = Some w ->
      w_RemainingPercent w = Some r -> F.leb r F.zero = true ->
      v_Weekly (ClassifyPlan clock u now th) = PlanBandExhausted
      /\ ShouldVacate clock u now th = true)
  /\ (forall w r, u_Status u = PlanUsageAvailable -> windowNamed u PlanWindowSession = Some w ->
      w_RemainingPercent w = Some r -> F.leb r F.zero = true -> ShouldVacate clock u now th = true)
  /\ (forall m, ModelHasAvailableTokens clock u m now th = true -> HasAvailableTokens clock u now th = true)
  /\ (forall m w r, ModelWindowFor u m = Some w -> w_RemainingPercent w = Some r ->
      F.leb r F.zero = true -> ModelHasAvailableTokens clock u m now th = false).
Proof.
  assert (ShouldVacate clock u now th = true -> HasAvailableTokens clock u now th = false) as V.
  { unfold ShouldVacate, HasAvailableTokens.
    repeat case_bool_decide; cbn; try done; congruence. }
  assert (forall w r, w_RemainingPercent w = Some r -> F.leb r F.zero = true ->
            forall n t, ClassifyWindow w n t = PlanBandExhausted) as Ex.
  { intros w r Hr Hz n t. unfold ClassifyWindow. by rewrite Hr, Hz. }
  split_and!.
  - intros Hu. unfold HasAvailableTokens, ShouldVacate, ClassifyPlan.
    rewrite (bool_decide_false (u_Status u = PlanUsageAvailable)) by exact Hu. split; reflexivity.
  - exact V.
  - intros w r Hu Hw Hr Hz. assert (v_Weekly (ClassifyPlan clock u now th) = PlanBandExhausted) as E.
    { unfold ClassifyPlan. rewrite (bool_decide_true (u_Status u = PlanUsageAvailable)) by exact Hu. cbn. rewrite Hw. by eapply Ex. }
    split; [done|]. unfold ShouldVacate. rewrite E. by case_bool_decide.
  - intros w r Hu Hw Hr Hz. unfold ShouldVacate, ClassifyPlan. rewrite (bool_decide_true (u_Status u = PlanUsageAvailable)) by exact Hu.
    cbn. rewrite Hw. unfold classifySession. rewrite Hr, Hz. done.
  - intros m. unfold ModelHasAvailableTokens. by destruct (HasAvailableTokens _ _ _ _).
  - intros m w r Hw Hr Hz. unfold ModelHasAvailableTokens. destruct (HasAvailableTokens _ _ _ _); [|done].
    cbn. rewrite Hw, Hr. destruct (F.ltb F.zero r) eqn:E; [|done].
    apply ltb_leb in E. congruence.
Qed.

(** ** The request floor *)

Lemma small_penalties :
  List.forallb (fun s => bool_decide
    (penalty (Z.of_nat s + 1) =
     Some (Z.min PlanThrottleMaxPenalty (PlanThrottleFirstPenalty * 2 ^ Z.of_nat s)))) (seq 0 64) = true.
Proof. vm_compute. reflexivity. Qed.

Lemma penalty_value n :
  (1 <= n <= max_int64)%Z ->
  penalty n = Some (Z.min PlanThrottleMaxPenalty (PlanThrottleFirstPenalty * 2 ^ (n - 1))).
Proof.
  intros Hn. destruct (Z.lt_ge_cases n 65) as [Hs|Hs].
  - pose proof small_penalties as P. rewrite List.forallb_forall in P.
    specialize (P (Z.to_nat (n - 1))).
    replace (Z.of_nat (Z.to_nat (n - 1)) + 1)%Z with n in P by lia.
    replace (Z.of_nat (Z.to_nat (n - 1))) with (n - 1)%Z in P by lia.
    apply bool_decide_eq_true in P; [exact P|]. apply List.in_seq. lia.
  - unfold penalty, shl64. rewrite wrap64_small by (unfold min_int64, max_int64 in *; lia).
    rewrite (proj2 (Z.ltb_ge (n - 1) 0)), (proj2 (Z.leb_le 64 (n - 1))) by lia. cbn. rewrite orb_true_r.
    f_equal. symmetry. apply Z.min_l.
    pose proof (Z.pow_le_mono_r 2 64 (n - 1) ltac:(lia) ltac:(lia)) as M.
    change (2 ^ 64)%Z with 18446744073709551616%Z in M.
    change PlanThrottleMaxPenalty with 7200000000000%Z.
    change PlanThrottleFirstPenalty with 900000000000%Z. lia.
Qed.

(** the penalty after the [n]th refusal in a row is 15 minutes doubled
    each time and at most two hours, for every count an int holds, although the
    shift that computes it overflows from the 25th on; a count that is not
    positive, which only a damaged file gives, panics. *)
Theorem penalty_is_a_capped_doubling n :
  ((1 <= n <= max_int64)%Z ->
   penalty n = Some (Z.min PlanThrottleMaxPenalty (PlanThrottleFirstPenalty * 2 ^ (n - 1))))
  /\ ((min_int64 < n <= 0)%Z -> penalty n = None).
Proof.
  split; intros Hn; [by apply penalty_value|].
  unfold penalty, shl64. rewrite wrap64_small by (unfold min_int64, max_int64 in *; lia).
  rewrite (proj2 (Z.ltb_lt (n - 1) 0)) by lia. done.
Qed.

(** A refusal, as [RecordPlanAttempt] counts it. *)
Definition refused (status : Z) : Prop := status = 429%Z \/ status = 529%Z.

(** How long after request [a] request [b] may follow. *)
Definition spaced (b a : ask) : Prop :=
  (q_now a + (if q_forced b then PlanThrottleForcedInterval else PlanThrottleMinInterval) <= q_now b)%Z
  /\ (refused (q_status a) -> (q_now a + PlanThrottleFirstPenalty <= q_now b)%Z).

(** What the file says of the last request of [sent]. *)
Definition recorded (p : string) (doc : planThrottleDoc) (sent : list ask) (room : Z) : Prop :=
  (0 <= tt_Refusals (default no_entry (doc !! p)) <= max_int64 - room)%Z
  /\ match sent with
     | [] => True
     | a :: _ => exists e, doc !! p = Some e /\ tt_LastAttempt e = q_now a
         /\ (refused (q_status a) ->
             (0 < tt_Refusals e)%Z /\ (q_now a + PlanThrottleFirstPenalty <= tt_NextAllowedAt e)%Z)
     end.

(** Each request of [sent] is spaced from the one before. *)
Fixpoint all_spaced (sent : list ask) : Prop :=
  match sent with
  | b :: (a :: _) as rest => spaced b a /\ all_spaced rest
  | _ => True
  end.

Lemma penalty_at_least n :
  (1 <= n <= max_int64)%Z -> exists d, penalty n = Some d /\ (PlanThrottleFirstPenalty <= d)%Z.
Proof.
  intros Hn. rewrite (penalty_value n Hn). eexists. split; [done|].
  pose proof (Z.pow_pos_nonneg 2 (n - 1) ltac:(lia) ltac:(lia)).
  change PlanThrottleMaxPenalty with 7200000000000%Z.
  change PlanThrottleFirstPenalty with 900000000000%Z. lia.
Qed.

Lemma record_attempt_spec now status e room :
  (1 <= room)%Z -> (0 <= tt_Refusals e <= max_int64 - room)%Z ->
  exists e', record_attempt now status e = Some e' /\ tt_LastAttempt e' = now
    /\ (0 <= tt_Refusals e' <= max_int64 - (room - 1))%Z
    /\ (refused status -> (0 < tt_Refusals e')%Z
                          /\ (now + PlanThrottleFirstPenalty <= tt_NextAllowedAt e')%Z).
Proof.
  intros Hroom He. unfold record_attempt.
  rewrite wrap64_small by (unfold min_int64, max_int64 in *; lia).
  destruct (_ || _) eqn:R.
  - destruct (penalty_at_least (tt_Refusals e + 1)) as (d & -> & Hd); [lia|].
    eexists. split; [reflexivity|]. unfold Add. cbn. split_and!; [done|lia|lia|intros _; lia].
  - assert (~ refused status) as Hn.
    { unfold refused. apply orb_false_iff in R as [R1%Z.eqb_neq R2%Z.eqb_neq]. tauto. }
    destruct (status =? 0)%Z; (eexists; split; [reflexivity|]; cbn; split_and!; [done|lia|lia|done]).
Qed.

Lemma allowed_spaced `{ThrottleFormat} p q doc sent room :
  recorded p doc sent room ->
  pd_Allowed (CheckPlanThrottle true p (q_now q) (q_forced q) doc) = true ->
  match sent with [] => True | a :: _ => spaced q a end.
Proof.
  intros [_ R] A. destruct sent as [|a sent]; [done|]. destruct R as (e & He & Hl & Hr).
  unfold CheckPlanThrottle in A. cbn [negb] in A. rewrite He in A. unfold Before, Add in A.
  destruct (_ && _) eqn:E; [done|]. destruct (_ <? _)%Z eqn:E2 in A; [done|].
  apply Z.ltb_ge in E2. rewrite Hl in E2. split; [exact E2|].
  intros Hs. destruct (Hr Hs) as [H1 H2]. apply andb_false_iff in E as [E%Z.ltb_ge|E%Z.ltb_ge]; lia.
Qed.

Lemma ask_all_spaced `{ThrottleFormat} p asks doc sent :
  recorded p doc sent (Z.of_nat (length asks)) -> all_spaced sent ->
  all_spaced (ask_all p asks doc sent).2.
Proof.
  revert doc sent. induction asks as [|q asks IH]; intros doc sent R Sa; [done|]. cbn [ask_all].
  destruct (pd_Allowed _) eqn:A.
  - pose proof (allowed_spaced _ _ _ _ _ R A) as Sp.
    assert (all_spaced (q :: sent)) as S' by (destruct sent; cbn; auto).
    destruct R as [R1 _]. cbn [length] in R1.
    unfold RecordPlanAttempt. cbn [negb].
    destruct (record_attempt_spec (q_now q) (q_status q) (default no_entry (doc !! p))
                (Z.of_nat (S (length asks)))) as (e & -> & Hl & Hr & Hp); [lia|lia|].
    apply IH; [|done]. split.
    + rewrite lookup_insert_eq. cbn [default from_option]. unfold id. lia.
    + exists e. rewrite lookup_insert_eq. done.
  - apply IH; [|done]. destruct R as [R1 R2]. cbn [length] in R1. split; [lia|done].
Qed.

(** requests for one provider's usage that go through the floor are at
    least a minute apart, and five when nobody forces one, and none follows a
    refusal within fifteen minutes, forced or not, whatever was asked, however
    often and whatever was answered. *)
Theorem requests_are_spaced `{ThrottleFormat} p asks doc :
  (0 <= tt_Refusals (default no_entry (doc !! p)) <= max_int64 - Z.of_nat (length asks))%Z ->
  let sent := (ask_all p asks doc []).2 in
  forall i b a, sent !! i = Some b -> sent !! S i = Some a -> spaced b a.
Proof.
  intros Hr sent. assert (all_spaced sent) as S by (apply ask_all_spaced; split; done).
  clearbody sent. clear Hr. induction sent as [|x [|y sent] IH]; intros i b a Hb Ha.
  - done.
  - by destruct i.
  - destruct S as [S1 S2]. destruct i as [|i]; cbn in Hb, Ha; [by simplify_eq|].
    by eapply (IH S2 i).
Qed.

#[local] Instance demo_throttle_format : ThrottleFormat :=
  {| rfc3339 := itoa; duration_string := itoa |}.

(** Asked at minute 100, refused; forced at 101 and 116, answered; asked at 118
    and 121. *)
Definition demo_asks : list ask :=
  [MkAsk (100 * Minute) false 429; MkAsk (101 * Minute) true 200; MkAsk (116 * Minute) true 200;
   MkAsk (118 * Minute) false 200; MkAsk (121 * Minute) false 200].

Lemma requests_are_spaced_witness :
  (fun q => Z.quot (q_now q) Minute) <$> (ask_all "claude" demo_asks ∅ []).2 = [121; 116; 100]%Z
  /\ (forall b a, (ask_all "claude" demo_asks ∅ []).2 !! 1 = Some b ->
        (ask_all "claude" demo_asks ∅ []).2 !! 2 = Some a -> spaced b a).
Proof.
  split; [vm_compute; reflexivity|]. intros b a Hb Ha.
  eapply (requests_are_spaced "claude" demo_asks ∅); [vm_compute; split; discriminate|exact Hb|exact Ha].
Defined.
