(* ===== verification/Resolve.v ===== *)
(** * Resolve: choosing a provider and a model

    Models [resolve.go], [catalog.go], [MatchCatalogGeneration] of
    [model_intel_slug.go], [PlanProvider] of [provider.go] and
    [formatIntelReason] of [model_intel_refresh.go]. What [LoadPlanUsage] and
    [LatestModelIntel] read is an argument; [math/rand/v2], [math.Log] and the
    rendering of a float are parameters. Log lines are left out. *)

From S2P Require Import Prelude GoLib GoFloat PlanBand.

(** ** Data *)

Definition ProviderClaude : string := "claude".
Definition ProviderCodex : string := "codex".
Definition ProviderGrok : string := "grok".
Definition ProviderBedrock : string := "bedrock".
Definition ProviderOllama : string := "ollama".
Definition ProviderCursor : string := "cursor".

(** The subscription a session backend spends from. *)
Definition PlanProvider (provider : string) : string :=
  if decide (provider = "anthropic") then ProviderClaude
  else if decide (provider = "openai-codex") then ProviderCodex
  else if decide (provider = "xai-oauth") then ProviderGrok
  else provider.

Definition CapabilityTask : string := "task".
Definition CapabilitySession : string := "session".
Definition ModelAccessPlan : string := "plan".
Definition ModelAccessDirect : string := "direct".
Definition ModelQualityFrontier : string := "frontier".
Definition ModelQualityStandard : string := "standard".
Definition ModelQualityEconomy : string := "economy".
Definition ModelPurposeGeneral : string := "general".
Definition ModelEffortUnspecified : string := "".

Record CatalogModel := MkCatalog {
  cm_Provider : string; cm_Model : string; cm_Access : string; cm_Quality : string;
  cm_Task : bool; cm_Session : bool }.

#[export] Instance catalog_model_eq_dec : EqDecision CatalogModel.
Proof. solve_decision. Defined.

Definition plan_row (provider model quality : string) : CatalogModel :=
  MkCatalog provider model ModelAccessPlan quality false true.
Definition direct_row (provider quality : string) : CatalogModel :=
  MkCatalog provider "" ModelAccessDirect quality true false.

Definition ModelCatalog : list CatalogModel :=
  [plan_row ProviderClaude "claude-sonnet-5" ModelQualityStandard;
   plan_row ProviderClaude "claude-opus-5" ModelQualityFrontier;
   plan_row ProviderClaude "claude-fable-5" ModelQualityFrontier;
   plan_row ProviderClaude "claude-haiku-4-5" ModelQualityEconomy;
   plan_row ProviderGrok "grok-4.5" ModelQualityStandard;
   plan_row ProviderGrok "grok-4.6" ModelQualityFrontier;
   plan_row ProviderGrok "grok-4" ModelQualityEconomy;
   plan_row ProviderCodex "gpt-6-astra" ModelQualityFrontier;
   plan_row ProviderCodex "gpt-6-sol" ModelQualityStandard;
   plan_row ProviderCodex "gpt-6-luna" ModelQualityEconomy;
   plan_row ProviderCursor "composer-2.5" ModelQualityStandard;
   direct_row ProviderBedrock ModelQualityStandard;
   direct_row ProviderOllama ModelQualityEconomy].

Record OwnerOverride := MkOverride { oo_Band : string; oo_Reason : string }.

(** [ModelPredicates] without its context: [p_Usage] is [Usage] (nil is
    [None]), [p_Intel] says whether [Intel] is set, [p_Rand] is [Rand].
    [p_OwnerOverride] lists the map in the order the range happens to take. *)
Record ModelPredicates := MkPred {
  p_Mode : string; p_Purpose : string; p_Skill : string; p_Quality : string; p_Model : string;
  p_Effort : string; p_PreferPlan : bool; p_Background : bool; p_PreferProvider : string;
  p_TieBreak : list string; p_Rand : option (Z -> Z); p_ExcludeProviders : list string;
  p_RequireUsage : bool; p_Usage : option (list PlanUsage); p_Intel : bool; p_Now : Time;
  p_Thresholds : option PlanThresholds; p_OwnerOverride : list (string * OwnerOverride) }.

#[export] Instance eta_pred : Eta ModelPredicates := fun p =>
  MkPred (p_Mode p) (p_Purpose p) (p_Skill p) (p_Quality p) (p_Model p) (p_Effort p)
    (p_PreferPlan p) (p_Background p) (p_PreferProvider p) (p_TieBreak p) (p_Rand p)
    (p_ExcludeProviders p) (p_RequireUsage p) (p_Usage p) (p_Intel p) (p_Now p)
    (p_Thresholds p) (p_OwnerOverride p).
#[export] Hint Extern 1 (@Setter ModelPredicates _ _) => setter_of eta_pred : typeclass_instances.

Record ModelPick := MkPick {
  k_Provider : string; k_Model : string; k_Quality : string; k_Purpose : string;
  k_Effort : string; k_Access : string; k_Band : string; k_CostUSD : float64;
  k_Reason : string; k_Author : string }.

Definition DecisionAuthor : string := "claudia".

Record catalogCand := MkCand {
  cc_row : CatalogModel; cc_band : string; cc_pressure : float64; cc_weeklyLeft : float64;
  cc_sessionLeft : float64; cc_pinned : bool; cc_pinReason : string; cc_tieBreak : bool;
  cc_drawnOf : nat }.

#[export] Instance eta_cand : Eta catalogCand := fun c =>
  MkCand (cc_row c) (cc_band c) (cc_pressure c) (cc_weeklyLeft c) (cc_sessionLeft c)
    (cc_pinned c) (cc_pinReason c) (cc_tieBreak c) (cc_drawnOf c).
#[export] Hint Extern 1 (@Setter catalogCand _ _) => setter_of eta_cand : typeclass_instances.

(** -1, below every published number. *)
Definition unknownHeadroom : float64 := F.of_Z (-1).
Definition catalogTieBreakReach : float64 := F.q 5 100.

(** ** Bands as destinations *)

Definition destBandRank (b : string) : option Z :=
  if decide (b = PlanBandLocked) then Some 0%Z
  else if decide (b = PlanBandUnder) then Some 1%Z
  else if decide (b = PlanBandOK) then Some 2%Z
  else None.

Definition IsDestBand (b : string) : bool := bool_decide (is_Some (destBandRank b)).

Definition publishedPlanBand (b : string) : bool :=
  negb (bool_decide (b = "")) && negb (bool_decide (b = PlanBandUnpublished)).

(** Which is better, when that is decided. *)
Definition slackDecides (c best : float64) : option bool :=
  let eps := F.q 5 100 in
  if F.ltb c (F.sub best eps) then Some true
  else if F.ltb (F.add best eps) c then Some false
  else None.

Definition destBetter (cBand : string) (cPress : float64) (bestBand : string) (bestPress : float64)
    : option bool :=
  match destBandRank cBand, destBandRank bestBand with
  | Some cr, Some br => if (cr =? br)%Z then slackDecides cPress bestPress else Some (cr <? br)%Z
  | Some _, None => Some true
  | None, Some _ => Some false
  | None, None => None
  end.

Definition slackDecidesPublished (cPress : float64) (cBand : string) (bestPress : float64)
    (bestBand : string) : option bool :=
  let cPub := publishedPlanBand cBand in
  let bPub := publishedPlanBand bestBand in
  if negb (Bool.eqb cPub bPub) then Some cPub
  else if negb cPub then None
  else destBetter cBand cPress bestBand bestPress.

(** ** Ranking catalog candidates *)

Definition band_rank (b : string) : Z := default 3%Z (destBandRank b).

(** Negative when [a] ranks above [b], 0 for a tie on every key. *)
Definition catalogRank (a b : catalogCand) : Z :=
  let ar := band_rank (cc_band a) in
  let br := band_rank (cc_band b) in
  if negb (ar =? br)%Z then (ar - br)%Z
  else if F.ltb (cc_pressure a) (cc_pressure b) then (-1)%Z
  else if F.ltb (cc_pressure b) (cc_pressure a) then 1%Z
  else if F.ltb (cc_weeklyLeft b) (cc_weeklyLeft a) then (-1)%Z
  else if F.ltb (cc_weeklyLeft a) (cc_weeklyLeft b) then 1%Z
  else if F.ltb (cc_sessionLeft b) (cc_sessionLeft a) then (-1)%Z
  else if F.ltb (cc_sessionLeft a) (cc_sessionLeft b) then 1%Z
  else 0%Z.

Definition catalogID (c : catalogCand) : string :=
  cm_Provider (cc_row c) +:+ "/" +:+ cm_Model (cc_row c).

(** The order of the pool: the rank, then the id. *)
Definition cand_less (a b : catalogCand) : bool :=
  let r := catalogRank a b in
  if negb (r =? 0)%Z then (r <? 0)%Z else String.ltb (catalogID a) (catalogID b).

Definition no_match : string := "resolve: no catalog model matches predicates".

(** The pinned candidates if there are any, else those in a destination band,
    else those with no published band. *)
Definition pick_pool (cands : list catalogCand) : list catalogCand :=
  let pinned := List.filter cc_pinned cands in
  let dests := or_else pinned (List.filter (fun c => IsDestBand (cc_band c)) cands) in
  or_else dests (List.filter (fun c => negb (publishedPlanBand (cc_band c))) cands).

(** A preferred provider's candidates, when it has any. *)
Definition prefer_pool (prefer : string) (pool : list catalogCand) : list catalogCand :=
  if decide (prefer = "") then pool
  else or_else (List.filter (fun c => bool_decide (cm_Provider (cc_row c) = prefer)) pool) pool.

(** How many of the ranked pool tie with its leader. *)
Fixpoint tied_with (leader : catalogCand) (rest : list catalogCand) : nat :=
  match rest with
  | [] => O
  | c :: rest' => if (catalogRank c leader =? 0)%Z then S (tied_with leader rest') else O
  end.

(** May a preference move the pick from [leader] to [c]? *)
Definition within_reach (leader c : catalogCand) : bool :=
  (bool_decide (cc_band c = cc_band leader)
   || negb (IsDestBand (cc_band c)) && negb (IsDestBand (cc_band leader)))
  && F.leb (cc_pressure c) (F.add (cc_pressure leader) catalogTieBreakReach).

Definition tie_break (pool : list catalogCand) (leader : catalogCand) (tieBreak : list string)
    : option catalogCand :=
  head (p ← tieBreak;
        List.filter (fun c => bool_decide (cm_Provider (cc_row c) = p) && within_reach leader c) pool).

Definition pickCatalog (cands : list catalogCand) (prefer : string) (tieBreak : list string)
    (draw : Z -> Z) : catalogCand + string :=
  match SliceStable cand_less (prefer_pool prefer (pick_pool cands)) with
  | [] => inr no_match
  | leader :: rest =>
    let pool := leader :: rest in
    let tied := S (tied_with leader rest) in
    match tie_break pool leader tieBreak with
    | Some c =>
      inl (c <| cc_tieBreak := negb (bool_decide (cc_row c = cc_row leader)) || (1 <? tied)%nat |>)
    | None =>
      if (tied =? 1)%nat then inl leader
      else
        let i := draw (Z.of_nat tied) in
        if (i <? 0)%Z || (Z.of_nat tied <=? i)%Z then
          inr ("resolve: tie draw " +:+ itoa i +:+ " outside [0, " +:+ itoa (Z.of_nat tied) +:+ ")")
        else
          match pool !! Z.to_nat i with
          | Some pick => inl (pick <| cc_drawnOf := tied |>)
          | None => inr no_match
          end
    end
  end.

(** ** Usage *)

(** Percent left of a window. *)
Definition window_left (w : PlanWindow) : option float64 :=
  match w_RemainingPercent w with
  | Some r => Some r
  | None => (fun u => F.sub hundred u) <$> w_UsedPercent w
  end.

(** Percent left of a row's weekly allowance and of the session. *)
Definition rowHeadroom `{Unicode} (u : PlanUsage) (model : string) : float64 * float64 :=
  if negb (bool_decide (u_Status u = PlanUsageAvailable)) then (unknownHeadroom, unknownHeadroom)
  else
    let weekly := default unknownHeadroom (primaryAllowanceWindow u ≫= window_left) in
    let weekly :=
      match ModelWindowFor u model ≫= window_left with
      | Some v => if F.eqb weekly unknownHeadroom || F.ltb v weekly then v else weekly
      | None => weekly
      end in
    (weekly, default unknownHeadroom (windowNamed u PlanWindowSession ≫= window_left)).

Definition normalizePredicates (p : ModelPredicates) : ModelPredicates :=
  if bool_decide (p_Purpose p = "") && negb (bool_decide (p_Skill p = ""))
  then p <| p_Purpose := p_Skill p |> else p.

(** The latest reading per provider: a later one of the list replaces an
    earlier one. *)
Definition by_provider (usage : list PlanUsage) : gmap string PlanUsage :=
  foldl (fun m u => <[u_Provider u := u]> m) ∅ usage.

(** What the owner's overrides exclude and what they pin, with the providers
    the caller excludes. *)
Definition override_step (acc : gset string * gmap string OwnerOverride)
    (po : string * OwnerOverride) : gset string * gmap string OwnerOverride :=
  let np := PlanProvider po.1 in
  if decide (np = "") then acc
  else if IsDestBand (oo_Band po.2) then (acc.1, <[np := po.2]> acc.2)
  else ({[np]} ∪ acc.1, acc.2).

Definition excluded_pinned (p : ModelPredicates) : gset string * gmap string OwnerOverride :=
  foldl override_step (list_to_set (p_ExcludeProviders p), ∅) (p_OwnerOverride p).

(** An empty quality means standard. *)
Definition want_quality (p : ModelPredicates) : string :=
  if decide (p_Quality p = "") then ModelQualityStandard else p_Quality p.

Section Resolve.
Context {UC : Unicode} {ML : MathLog}.
Variable clock : Time.

Definition skipForUsage (p : ModelPredicates) (u : option PlanUsage) (now : Time) : bool :=
  let weekly u := v_Weekly (ClassifyPlan clock u now (p_Thresholds p)) in
  let spent_ahead :=
    match u with
    | Some u => p_Background p &&
                contains [PlanBandAhead; PlanBandHot; PlanBandExhausted] (weekly u)
    | None => false
    end in
  if spent_ahead then true
  else if negb (p_RequireUsage p) then false
  else
    match u with
    | None => true
    | Some u => negb (bool_decide (u_Status u = PlanUsageAvailable))
                || negb (publishedPlanBand (weekly u))
    end.

(** One row of the catalog: a candidate, or why it is none. *)
Definition catalog_row (p : ModelPredicates) (byProv : gmap string PlanUsage) (now : Time)
    (exclude : gset string) (ownerPin : gmap string OwnerOverride) (row : CatalogModel)
    : catalogCand + string :=
  let id := cm_Provider row +:+ "/" +:+ cm_Model row in
  if decide (cm_Provider row ∈ exclude) then inr (id +:+ ": excluded provider")
  else if bool_decide (p_Mode p = CapabilityTask) && negb (cm_Task row)
  then inr (id +:+ ": mode=task not supported")
  else if bool_decide (p_Mode p = CapabilitySession) && negb (cm_Session row)
  then inr (id +:+ ": mode=session not supported")
  else if p_PreferPlan p && negb (bool_decide (cm_Access row = ModelAccessPlan))
  then inr (id +:+ ": require_plan but access=" +:+ cm_Access row)
  else if negb (bool_decide (cm_Quality row = want_quality p))
  then inr (id +:+ ": quality=" +:+ cm_Quality row +:+ " wants " +:+ want_quality p)
  else
    let u := byProv !! cm_Provider row in
    let pin := ownerPin !! cm_Provider row in
    let pinned := bool_decide (is_Some pin) in
    if negb pinned && skipForUsage p u now
    then inr (id +:+ ": usage/band ineligible (exhausted, hot, or no usage data under RequireUsage)")
    else if negb pinned && match u with
                           | Some u => negb (ModelHasAvailableTokens clock u (cm_Model row) now
                                               (p_Thresholds p))
                           | None => false
                           end
    then inr (id +:+ ": no available tokens on this model")
    else
      let band := match pin, u with
                  | Some ov, _ => oo_Band ov
                  | None, Some u => v_Weekly (ClassifyPlan clock u now (p_Thresholds p))
                  | None, None => PlanBandUnpublished
                  end in
      let left := match u with
                  | Some u => rowHeadroom u (cm_Model row)
                  | None => (unknownHeadroom, unknownHeadroom)
                  end in
      inl (MkCand row band
             (match u with Some u => weeklyPressure u now (p_Thresholds p) | None => F.zero end)
             left.1 left.2 pinned (match pin with Some ov => oo_Reason ov | None => "" end) false 0).

Fixpoint catalog_rows (p : ModelPredicates) (byProv : gmap string PlanUsage) (now : Time)
    (exclude : gset string) (ownerPin : gmap string OwnerOverride) (rows : list CatalogModel)
    : list catalogCand * list string :=
  match rows with
  | [] => ([], [])
  | row :: rows' =>
    let r := catalog_rows p byProv now exclude ownerPin rows' in
    match catalog_row p byProv now exclude ownerPin row with
    | inl c => (c :: r.1, r.2)
    | inr why => (r.1, why :: r.2)
    end
  end.

Definition catalog_reason (p : ModelPredicates) (best : catalogCand) : string :=
  let r := "quality=" +:+ cm_Quality (cc_row best) +:+ " access=" +:+ cm_Access (cc_row best)
             +:+ " band=" +:+ cc_band best in
  let r := if negb (bool_decide (p_PreferProvider p = "")) &&
              bool_decide (cm_Provider (cc_row best) = p_PreferProvider p)
           then r +:+ " prefer_provider" else r in
  let r := if cc_tieBreak best then r +:+ " tie_break" else r in
  let r := if (1 <? cc_drawnOf best)%nat
           then r +:+ " drawn_of=" +:+ itoa (Z.of_nat (cc_drawnOf best)) else r in
  if cc_pinned best then
    let r := r +:+ " owner_override" in
    let why := TrimSpace (cc_pinReason best) in
    if decide (why = "") then r else r +:+ ": " +:+ why
  else r.

(** [Resolve] on the catalog shelf. [rand_IntN] is [math/rand/v2]'s. *)
Definition resolve_catalog (rand_IntN : Z -> Z) (p : ModelPredicates)
    (byProv : gmap string PlanUsage) (now : Time) : ModelPick + string :=
  let ep := excluded_pinned p in
  let rows := catalog_rows p byProv now ep.1 ep.2 ModelCatalog in
  match pickCatalog rows.1 (p_PreferProvider p) (p_TieBreak p) (default rand_IntN (p_Rand p)) with
  | inr err =>
    if bool_decide (rows.2 = []) then inr err
    else inr (err +:+ " (tried " +:+ itoa (Z.of_nat (length rows.2)) +:+ " catalog rows: "
              +:+ Join rows.2 "; " +:+ ")")
  | inl best =>
    inl (MkPick (cm_Provider (cc_row best)) (cm_Model (cc_row best)) (cm_Quality (cc_row best))
           "" "" (cm_Access (cc_row best)) (cc_band best) F.zero (catalog_reason p best)
           DecisionAuthor)
  end.
End Resolve.
