(* ===== verification/ResolveIntel.v ===== *)
(** * ResolveIntel: choosing by a purpose's scores

    Models [resolveFromIntel] of [resolve.go] and the functions it uses, and
    [Resolve] itself, which takes this path when a purpose, a model, an effort
    or an intel store is named. *)

From S2P Require Import Prelude GoLib GoFloat PlanBand Resolve.

(** ** From a research name to a catalog row *)

Record ModelObservation := MkObs {
  o_ObservedAt : Time; o_Source : string; o_SourceRev : string; o_Generation : string;
  o_Effort : string; o_Purpose : string; o_Value : float64; o_Unit : string;
  o_CostUSD : float64; o_N : float64; o_RawID : string }.

(** A letter or a digit, of text in lower case. *)
Definition id_rune `{Unicode} (r : string) : bool :=
  match r with
  | String a EmptyString =>
    let n := Ascii.nat_of_ascii a in between 48 57 n || between 97 122 n || between 65 90 n
  | _ => unicode_alnum r
  end.

Definition normModelID `{Unicode} (s : string) : string :=
  Join (List.filter id_rune (runes (ToLower (TrimSpace s)))) "".

Definition catalogAliases : list (string * string) :=
  [("claudesonnet5", "claude-sonnet-5"); ("claudesonnet46", "claude-sonnet-5");
   ("claudesonnet45", "claude-sonnet-5"); ("claudesonnet4", "claude-sonnet-5");
   ("claudeopus5", "claude-opus-5"); ("claudeopus46", "claude-opus-5");
   ("claudeopus45", "claude-opus-5"); ("claudefable5", "claude-fable-5");
   ("claudefable51", "claude-fable-5"); ("claudehaiku45", "claude-haiku-4-5");
   ("claudehaiku4", "claude-haiku-4-5"); ("grok46", "grok-4.6"); ("grok45", "grok-4.5");
   ("grok4", "grok-4"); ("gpt6astra", "gpt-6-astra"); ("gpt6sol", "gpt-6-sol");
   ("gpt6luna", "gpt-6-luna"); ("composer25", "composer-2.5"); ("composer2", "composer-2.5")].

Definition catalogByModel (model : string) : option CatalogModel :=
  List.find (fun row => negb (bool_decide (cm_Model row = "")) && bool_decide (cm_Model row = model))
    ModelCatalog.

Definition MatchCatalogGeneration `{Unicode} (generation : string) : option CatalogModel :=
  if decide (generation = "") then None
  else
    match catalogByModel generation with
    | Some row => Some row
    | None =>
      match List.find (fun kv => bool_decide (kv.1 = normModelID generation)) catalogAliases with
      | Some kv => catalogByModel kv.2
      | None => None
      end
    end.

(** ** Candidates *)

Record intelCand := MkIntel {
  ic_row : CatalogModel; ic_effort : string; ic_value : float64; ic_cost : float64;
  ic_hasScore : bool; ic_band : string; ic_pressure : float64 }.

#[export] Instance eta_intel : Eta intelCand := fun c =>
  MkIntel (ic_row c) (ic_effort c) (ic_value c) (ic_cost c) (ic_hasScore c) (ic_band c)
    (ic_pressure c).
#[export] Hint Extern 1 (@Setter intelCand _ _) => setter_of eta_intel : typeclass_instances.

Definition row_id (row : CatalogModel) : string := cm_Provider row +:+ "/" +:+ cm_Model row.

Definition purposeHasCatalogSeries `{Unicode} (obs : list ModelObservation) (purpose : string) : bool :=
  List.existsb (fun o => bool_decide (o_Purpose o = purpose)
                         && bool_decide (is_Some (MatchCatalogGeneration (o_Generation o)))) obs.

(** The purpose's observations as candidates, one per row and effort. *)
Fixpoint intel_pool `{Unicode} (purpose : string) (seen : list string) (obs : list ModelObservation)
    : list intelCand :=
  match obs with
  | [] => []
  | o :: obs' =>
    if negb (bool_decide (o_Purpose o = purpose)) then intel_pool purpose seen obs'
    else
      match MatchCatalogGeneration (o_Generation o) with
      | None => intel_pool purpose seen obs'
      | Some row =>
        let id := row_id row +:+ "/" +:+ o_Effort o in
        if contains seen id then intel_pool purpose seen obs'
        else MkIntel row (o_Effort o) (o_Value o) (o_CostUSD o) true "" F.zero
               :: intel_pool purpose (id :: seen) obs'
      end
  end.

(** A pinned model joins the pool when no score of it does. *)
Definition pin_pool (pin : option CatalogModel) (effort : string) (pool : list intelCand)
    : list intelCand :=
  match pin with
  | None => pool
  | Some row =>
    if List.existsb (fun c => bool_decide (cm_Model (ic_row c) = cm_Model row)
                        && (bool_decide (effort = "") || bool_decide (ic_effort c = effort))) pool
    then pool
    else pool ++ [MkIntel row effort F.zero F.zero false "" F.zero]
  end.

Fixpoint shelf_rows (wantQ : string) (seen : list string) (rows : list CatalogModel)
    : list intelCand :=
  match rows with
  | [] => []
  | row :: rows' =>
    if negb (bool_decide (cm_Quality row = wantQ)) then shelf_rows wantQ seen rows'
    else if contains seen (row_id row) then shelf_rows wantQ seen rows'
    else MkIntel row ModelEffortUnspecified F.zero F.zero false "" F.zero
           :: shelf_rows wantQ (row_id row :: seen) rows'
  end.

Definition appendCatalogShelf (pool : list intelCand) (wantQ : string) : list intelCand :=
  pool ++ shelf_rows wantQ ((fun c => row_id (ic_row c)) <$> pool) ModelCatalog.

(** ** Quality floors *)

Definition percentileSorted (sorted : list float64) (p : float64) : float64 :=
  if (length sorted =? 1)%nat then default F.zero (sorted !! 0)
  else
    let idx := F.mul p (F.of_Z (Z.of_nat (length sorted) - 1)) in
    let lo := Z.to_nat (F.to_int64 idx) in
    let hi := S lo in
    let at_ i := default F.zero (sorted !! i) in
    if (length sorted <=? hi)%nat then at_ lo
    else
      let frac := F.sub idx (F.of_Z (Z.of_nat lo)) in
      F.add (F.mul (at_ lo) (F.sub (F.of_Z 1) frac)) (F.mul (at_ hi) frac).

Definition qualityScoreFloor (scores : list float64) (q : string) : option float64 :=
  match Float64s scores with
  | [] => None
  | x :: _ =>
    if decide (q = ModelQualityEconomy) then Some x
    else if decide (q = ModelQualityFrontier) then
      Some (percentileSorted (Float64s scores) (F.q 75 100))
    else Some (percentileSorted (Float64s scores) (F.q 40 100))
  end.

(** The scores the floor is taken of: the purpose's, of every catalog row. *)
Definition intel_scores `{Unicode} (purpose : string) (obs : list ModelObservation) : list float64 :=
  o_Value <$> List.filter (fun o => bool_decide (o_Purpose o = purpose)
                 && bool_decide (is_Some (MatchCatalogGeneration (o_Generation o)))) obs.

(** ** The best candidate *)

Definition costOrInf (cost : float64) (hasScore : bool) : float64 :=
  if F.ltb F.zero cost then cost
  else if hasScore then F.of_Z 1000000000 else F.of_Z 1000000000000.

Definition intelBetter (c best : intelCand) (prefer : string) : bool :=
  match slackDecidesPublished (ic_pressure c) (ic_band c) (ic_pressure best) (ic_band best) with
  | Some better => better
  | None =>
    let cc := costOrInf (ic_cost c) (ic_hasScore c) in
    let bc := costOrInf (ic_cost best) (ic_hasScore best) in
    if negb (F.eqb cc bc) then F.ltb cc bc
    else
      let cp := bool_decide (cm_Provider (ic_row c) = prefer) in
      let bp := bool_decide (cm_Provider (ic_row best) = prefer) in
      if negb (bool_decide (prefer = "")) && cp && negb bp then true
      else if negb (bool_decide (prefer = "")) && bp && negb cp then false
      else if negb (Bool.eqb (ic_hasScore c) (ic_hasScore best)) then ic_hasScore c
      else F.ltb (ic_value best) (ic_value c)
  end.

Definition best_of (prefer : string) (kept : list intelCand) : option intelCand :=
  match kept with
  | [] => None
  | c :: rest =>
    Some (foldl (fun best c => if intelBetter c best prefer then c else best) c rest)
  end.

(** A preferred provider's candidates, when it has any. *)
Definition prefer_intel (prefer : string) (kept : list intelCand) : list intelCand :=
  if decide (prefer = "") then kept
  else or_else (List.filter (fun c => bool_decide (cm_Provider (ic_row c) = prefer)) kept) kept.

(** ["%.4f"] of a float. *)
Class CostFormat := format_cost : float64 -> string.

Section Intel.
Context {UC : Unicode} {ML : MathLog} {CF : CostFormat}.
Variable clock : Time.

(** A candidate with its band and pressure, unless the predicates drop it. *)
Definition intel_eligible (p : ModelPredicates) (byProv : gmap string PlanUsage) (now : Time)
    (exclude : gset string) (pin : option CatalogModel) (c : intelCand) : option intelCand :=
  let row := ic_row c in
  if decide (cm_Provider row ∈ exclude) then None
  else if bool_decide (p_Mode p = CapabilityTask) && negb (cm_Task row) then None
  else if bool_decide (p_Mode p = CapabilitySession) && negb (cm_Session row) then None
  else if p_PreferPlan p && negb (bool_decide (cm_Access row = ModelAccessPlan)) then None
  else if match pin with
          | Some r => negb (bool_decide (cm_Model row = cm_Model r))
          | None => false
          end then None
  else if negb (bool_decide (p_Effort p = "")) && negb (bool_decide (ic_effort c = p_Effort p))
  then None
  else
    let u := byProv !! cm_Provider row in
    if skipForUsage clock p u now then None
    else
      match u with
      | None => Some (c <| ic_band := PlanBandUnpublished |>)
      | Some u =>
        if negb (ModelHasAvailableTokens clock u (cm_Model row) now (p_Thresholds p)) then None
        else Some (c <| ic_band := v_Weekly (ClassifyPlan clock u now (p_Thresholds p)) |>
                     <| ic_pressure := weeklyPressure u now (p_Thresholds p) |>)
      end.

(** Does a candidate meet the floor? *)
Definition intel_kept (floor : option float64) (wantQ : string) (c : intelCand) : bool :=
  negb (match floor with Some f => ic_hasScore c && F.ltb (ic_value c) f | None => false end)
  && (ic_hasScore c || bool_decide (cm_Quality (ic_row c) = wantQ)).

Definition effortOrUnspecified (e : string) : string :=
  if decide (e = ModelEffortUnspecified) then "unspecified" else e.

Definition formatIntelReason (purpose quality effort : string) (cost : float64) (band : string)
    : string :=
  let r := "purpose=" +:+ purpose +:+ " quality=" +:+ quality +:+ " effort="
             +:+ effortOrUnspecified effort +:+ " band=" +:+ band in
  if F.ltb F.zero cost then r +:+ " cost=" +:+ format_cost cost else r.

Definition intel_reason (p : ModelPredicates) (purpose : string) (fallback : bool)
    (requested : string) (best : intelCand) : string :=
  let r := formatIntelReason purpose (want_quality p) (ic_effort best) (ic_cost best) (ic_band best) in
  let r := if fallback then r +:+ " purpose_fallback_from=" +:+ requested else r in
  let r := if negb (bool_decide (p_PreferProvider p = "")) &&
              bool_decide (cm_Provider (ic_row best) = p_PreferProvider p)
           then r +:+ " prefer_provider" else r in
  let r := if decide (p_Model p = "") then r else r +:+ " pin_model" in
  if decide (p_Effort p = "") then r else r +:+ " pin_effort".

(** The candidates before the owner's and the caller's exclusions. *)
Definition intel_candidates (p : ModelPredicates) (purpose : string) (pin : option CatalogModel)
    (obs : list ModelObservation) : list intelCand :=
  appendCatalogShelf (pin_pool pin (p_Effort p) (intel_pool purpose [] obs)) (want_quality p).

(** The purpose asked for: general when the caller names none. *)
Definition requested_purpose (p : ModelPredicates) : string :=
  if decide (p_Purpose p = "") then ModelPurposeGeneral else p_Purpose p.

(** A purpose without a catalog series falls back to general. *)
Definition purpose_fallback `{Unicode} (p : ModelPredicates) (obs : list ModelObservation) : bool :=
  negb (bool_decide (requested_purpose p = ModelPurposeGeneral))
  && negb (purposeHasCatalogSeries obs (requested_purpose p)).

Definition intel_purpose `{Unicode} (p : ModelPredicates) (obs : list ModelObservation) : string :=
  if purpose_fallback p obs then ModelPurposeGeneral else requested_purpose p.

(** The catalog row of a pinned model. *)
Definition intel_pin `{Unicode} (p : ModelPredicates) : option CatalogModel :=
  if decide (p_Model p = "") then None else MatchCatalogGeneration (p_Model p).

(** A model and an effort pinned without purpose or quality lift the floor. *)
Definition pinned_only (p : ModelPredicates) : bool :=
  negb (bool_decide (p_Model p = "")) && negb (bool_decide (p_Effort p = ""))
  && bool_decide (p_Purpose p = "") && bool_decide (p_Quality p = "").

Definition intel_floor `{Unicode} (p : ModelPredicates) (obs : list ModelObservation) : option float64 :=
  if pinned_only p then None
  else qualityScoreFloor (intel_scores (intel_purpose p obs) obs) (want_quality p).

Definition resolveFromIntel (p : ModelPredicates) (byProv : gmap string PlanUsage) (now : Time)
    (intel : list ModelObservation + string) : ModelPick + string :=
  match intel with
  | inr err => inr err
  | inl obs =>
    let purpose := intel_purpose p obs in
    let wantQ := want_quality p in
    let pin := intel_pin p in
    if negb (bool_decide (p_Model p = "")) && bool_decide (pin = None)
    then inr ("resolve: pinned model " +:+ bytes [34] +:+ p_Model p +:+ bytes [34]
              +:+ " is not in the catalog")
    else
      match omap (intel_eligible p byProv now (excluded_pinned p).1 pin)
                 (intel_candidates p purpose pin obs) with
      | [] => inr no_match
      | eligible =>
        let kept := List.filter (intel_kept (intel_floor p obs) wantQ) eligible in
        match best_of (p_PreferProvider p) (prefer_intel (p_PreferProvider p) kept) with
        | None =>
          if negb (bool_decide (p_Model p = "")) && negb (bool_decide (p_Effort p = ""))
             && negb (bool_decide (p_Purpose p = ""))
          then inr ("resolve: pinned " +:+ match pin with Some r => cm_Model r | None => "" end
                    +:+ "/" +:+ p_Effort p +:+ " misses " +:+ purpose +:+ " " +:+ wantQ +:+ " floor")
          else inr ("resolve: no catalog model meets " +:+ purpose +:+ " quality=" +:+ wantQ)
        | Some best =>
          inl (MkPick (cm_Provider (ic_row best)) (cm_Model (ic_row best)) wantQ purpose
                 (ic_effort best) (cm_Access (ic_row best)) (ic_band best) (ic_cost best)
                 (intel_reason p purpose (purpose_fallback p obs) (requested_purpose p) best) DecisionAuthor)
        end
      end
  end.

(** [Resolve]: [load] is what [LoadPlanUsage] gives when the caller brings no
    usage, [intel] what [LatestModelIntel] gives. *)
Definition Resolve (rand_IntN : Z -> Z) (load : list PlanUsage + string)
    (intel : list ModelObservation + string) (p : ModelPredicates) : ModelPick + string :=
  let p := normalizePredicates p in
  let now := if IsZero (p_Now p) then clock else p_Now p in
  match match p_Usage p with Some u => inl u | None => load end with
  | inr err => inr err
  | inl usage =>
    let byProv := by_provider usage in
    if negb (bool_decide (p_Purpose p = "")) || negb (bool_decide (p_Model p = ""))
       || negb (bool_decide (p_Effort p = "")) || p_Intel p
    then resolveFromIntel p byProv now intel
    else resolve_catalog clock rand_IntN p byProv now
  end.
End Intel.
