(* ===== verification/ResolveFacts.v ===== *)
(** * ResolveFacts: lemmas on the choice of a candidate

    The ranking of candidates as a lexicographic order of integer keys, what
    [pickCatalog] returns, and what a row must satisfy to become a candidate. *)

From S2P Require Import Prelude GoLib GoFloat PlanBand Resolve.
From Stdlib Require Import Sorted.

(** ** Lexicographic order of integer lists *)

Fixpoint lcmp (a b : list Z) : comparison :=
  match a, b with
  | [], [] => Eq
  | [], _ => Lt
  | _, [] => Gt
  | x :: a', y :: b' => match (x ?= y)%Z with Eq => lcmp a' b' | c => c end
  end.

Lemma lcmp_refl a : lcmp a a = Eq.
Proof. induction a as [|x a IH]; [done|]. cbn. by rewrite Z.compare_refl. Qed.

Lemma lcmp_eq a b : lcmp a b = Eq -> a = b.
Proof.
  revert b. induction a as [|x a IH]; intros [|y b]; cbn; try done.
  destruct (Z.compare_spec x y); try done. intros E. f_equal; [done|by apply IH].
Qed.

Lemma lcmp_opp a b : lcmp b a = CompOpp (lcmp a b).
Proof.
  revert b. induction a as [|x a IH]; intros [|y b]; cbn; try done.
  rewrite Z.compare_antisym. destruct (x ?= y)%Z; cbn; done.
Qed.

Lemma lcmp_trans a b c : lcmp a b = Lt -> lcmp b c = Lt -> lcmp a c = Lt.
Proof.
  revert b c. induction a as [|x a IH]; intros [|y b] [|z c]; cbn; try done.
  destruct (Z.compare_spec x y), (Z.compare_spec y z); try done;
    destruct (Z.compare_spec x z); try done; try lia. intros. eauto.
Qed.

Lemma lcmp_app a a' b b' :
  length a = length b -> lcmp (a ++ a') (b ++ b') = match lcmp a b with Eq => lcmp a' b' | c => c end.
Proof.
  revert b. induction a as [|x a IH]; intros [|y b]; cbn; try done.
  intros [= E]. destruct (x ?= y)%Z; try done. by apply IH.
Qed.

(** A strict order from keys. *)
Definition key_less {A} (k : A -> list Z) (x y : A) : bool :=
  match lcmp (k x) (k y) with Lt => true | _ => false end.

Lemma key_less_false {A} (k : A -> list Z) x y :
  key_less k x y = false <-> lcmp (k y) (k x) = Eq \/ lcmp (k y) (k x) = Lt.
Proof.
  unfold key_less. rewrite (lcmp_opp (k x) (k y)). destruct (lcmp (k x) (k y)); cbn; naive_solver.
Qed.

Lemma key_less_weak {A} (k : A -> list Z) (less : A -> A -> bool) P :
  (forall x y, P x -> P y -> less x y = key_less k x y) -> weak_order less P.
Proof.
  intros L. split.
  - intros x y Hx Hy. rewrite !L by done. unfold key_less. rewrite (lcmp_opp (k x) (k y)).
    by destruct (lcmp (k x) (k y)).
  - intros x y z Hx Hy Hz. rewrite !L, !key_less_false by done. intros [A1|A1] [B1|B1].
    + apply lcmp_eq in A1. left. by rewrite A1.
    + apply lcmp_eq in A1. right. by rewrite A1.
    + apply lcmp_eq in B1. right. by rewrite <-B1.
    + right. by eapply lcmp_trans.
Qed.

(** ** The ranking of candidates *)

(** A candidate whose readings are numbers. *)
Definition numeric (c : catalogCand) : Prop :=
  num (cc_pressure c) /\ num (cc_weeklyLeft c) /\ num (cc_sessionLeft c).

Definition up (x : float64) : list Z := [(key x).1.1; (key x).1.2; (key x).2].
Definition down (x : float64) : list Z := Z.opp <$> up x.

Definition rank_key (c : catalogCand) : list Z :=
  [band_rank (cc_band c)] ++ up (cc_pressure c) ++ down (cc_weeklyLeft c) ++ down (cc_sessionLeft c).

(** The order a list of integers gives to an outcome of the ranking. *)
Definition sign (c : comparison) (z : Z) : Prop :=
  match c with Lt => (z < 0)%Z | Eq => z = 0%Z | Gt => (0 < z)%Z end.

Lemma ltb_lcmp x y :
  num x -> num y -> F.ltb x y = match lcmp (up x) (up y) with Lt => true | _ => false end.
Proof.
  intros Hx Hy. destruct (F.ltb x y) eqn:E; symmetry;
    [apply ltb_key in E; [|done..]|apply ltb_key_false in E; [|done..]];
    revert E; unfold up, klt; destruct (key x) as [[x1 x2] x3], (key y) as [[y1 y2] y3];
    cbn; intros E;
    destruct (Z.compare_spec x1 y1), (Z.compare_spec x2 y2), (Z.compare_spec x3 y3);
    try reflexivity; exfalso; lia.
Qed.

Lemma lcmp_down x y : lcmp (down x) (down y) = lcmp (up y) (up x).
Proof.
  unfold down, up. destruct (key x) as [[x1 x2] x3], (key y) as [[y1 y2] y3]. cbn.
  by rewrite (Z.compare_opp x1 y1), (Z.compare_opp x2 y2), (Z.compare_opp x3 y3).
Qed.

Lemma catalogRank_sign a b :
  numeric a -> numeric b -> sign (lcmp (rank_key a) (rank_key b)) (catalogRank a b).
Proof.
  intros (A1 & A2 & A3) (B1 & B2 & B3). unfold catalogRank, rank_key.
  rewrite !lcmp_app by done.
  change (lcmp [?x] [?y]) with (match (x ?= y)%Z with Eq => Eq | c => c end).
  destruct (Z.compare_spec (band_rank (cc_band a)) (band_rank (cc_band b))) as [->|H|H].
  2,3: rewrite (proj2 (Z.eqb_neq _ _)) by lia; cbn; lia.
  rewrite Z.eqb_refl. cbn [negb].
  rewrite !ltb_lcmp by done. rewrite (lcmp_opp (up (cc_pressure a)) (up (cc_pressure b))).
  rewrite !lcmp_down.
  rewrite (lcmp_opp (up (cc_weeklyLeft b)) (up (cc_weeklyLeft a))).
  rewrite (lcmp_opp (up (cc_sessionLeft b)) (up (cc_sessionLeft a))).
  generalize (lcmp (up (cc_pressure a)) (up (cc_pressure b)))
    (lcmp (up (cc_weeklyLeft b)) (up (cc_weeklyLeft a)))
    (lcmp (up (cc_sessionLeft b)) (up (cc_sessionLeft a))).
  intros [] [] []; cbn; lia.
Qed.

Definition string_key (s : string) : list Z :=
  (fun a => Z.of_N (Ascii.N_of_ascii a)) <$> String.list_ascii_of_string s.

Lemma string_compare s t : String.compare s t = lcmp (string_key s) (string_key t).
Proof.
  revert t. induction s as [|a s IH]; intros [|b t]; try done. cbn.
  unfold Ascii.compare. rewrite N2Z.inj_compare.
  by destruct (Ascii.N_of_ascii a ?= Ascii.N_of_ascii b)%N.
Qed.

Lemma string_key_inj s t : string_key s = string_key t -> s = t.
Proof.
  intros E. apply String.compare_eq_iff. rewrite string_compare, E. apply lcmp_refl.
Qed.

Definition cand_key (c : catalogCand) : list Z := rank_key c ++ string_key (catalogID c).

Lemma cand_less_key a b : numeric a -> numeric b -> cand_less a b = key_less cand_key a b.
Proof.
  intros Ha Hb. unfold cand_less, key_less, cand_key. rewrite lcmp_app by done.
  pose proof (catalogRank_sign a b Ha Hb) as S.
  destruct (lcmp (rank_key a) (rank_key b)); cbn in S.
  - rewrite S. cbn. unfold String.ltb. rewrite string_compare. done.
  - rewrite (proj2 (Z.eqb_neq _ _)), (proj2 (Z.ltb_lt _ _)) by lia. done.
  - rewrite (proj2 (Z.eqb_neq _ _)), (proj2 (Z.ltb_ge _ _)) by lia. done.
Qed.

Lemma cand_less_weak : weak_order cand_less numeric.
Proof. apply (key_less_weak cand_key). apply cand_less_key. Qed.

Lemma cand_less_level a b :
  numeric a -> numeric b -> cand_less a b = false -> cand_less b a = false ->
  catalogID a = catalogID b.
Proof.
  intros Ha Hb. rewrite !cand_less_key, !key_less_false by done.
  rewrite (lcmp_opp (cand_key b) (cand_key a)). intros [E|E] [E'|E']; rewrite E in E'; try done.
  apply lcmp_eq in E. unfold cand_key in E.
  apply app_inj_1 in E as [_ E]; [|done]. by apply string_key_inj in E.
Qed.

(** The rank alone, among numbers, is an order too. *)
Lemma catalogRank_nonneg a b :
  numeric a -> numeric b -> cand_less a b = false -> (0 <= catalogRank a b)%Z.
Proof.
  intros _ _. unfold cand_less.
  destruct (Z.eqb_spec (catalogRank a b) 0) as [->|]; cbn; [lia|]. rewrite Z.ltb_ge. lia.
Qed.

Lemma catalogRank_refl c : numeric c -> catalogRank c c = 0%Z.
Proof. intros Hc. pose proof (catalogRank_sign c c Hc Hc) as S. by rewrite lcmp_refl in S. Qed.

(** ** What [pickCatalog] returns *)

(** Is the candidate pinned, in a destination band, or without a published one? *)
Definition takable (c : catalogCand) : Prop :=
  cc_pinned c = true \/ IsDestBand (cc_band c) = true \/ publishedPlanBand (cc_band c) = false.

Lemma pick_pool_spec cands c :
  c ∈ pick_pool cands ->
  c ∈ cands /\ takable c
  /\ ((exists d, d ∈ cands /\ cc_pinned d = true) -> cc_pinned c = true)
  /\ (cc_pinned c = true \/ IsDestBand (cc_band c) = true
      \/ forall d, d ∈ cands -> IsDestBand (cc_band d) = false).
Proof.
  unfold pick_pool, takable. destruct (List.filter cc_pinned cands) as [|p ps] eqn:P.
  - pose proof (filter_nil _ _ P) as N.
    destruct (List.filter (fun c => IsDestBand (cc_band c)) cands) as [|q qs] eqn:D.
    + pose proof (filter_nil _ _ D) as N2. cbn [or_else]. intros [Hc Hp]%filter_iff. rewrite negb_true_iff in Hp.
      split_and!; [done|naive_solver| |right; right; exact N2].
      intros (d & Hd & Hd2). by rewrite (N d Hd) in Hd2.
    + cbn [or_else]. intros Hc. rewrite <-D in Hc. apply filter_iff in Hc as [Hc Hp].
      split_and!; [done|naive_solver| |naive_solver].
      intros (d & Hd & Hd2). by rewrite (N d Hd) in Hd2.
  - cbn [or_else]. intros Hc. rewrite <-P in Hc. apply filter_iff in Hc as [Hc Hp].
    split_and!; [done|naive_solver|done|naive_solver].
Qed.

Lemma pick_pool_nonempty cands c : c ∈ cands -> takable c -> pick_pool cands <> [].
Proof.
  unfold pick_pool, takable. intros Hc Ht E.
  destruct (List.filter cc_pinned cands) as [|p ps] eqn:P; [|done].
  destruct (List.filter (fun c => IsDestBand (cc_band c)) cands) as [|q qs] eqn:D; [|done].
  cbn [or_else] in E.
  pose proof (filter_nil _ _ P c Hc) as H1. pose proof (filter_nil _ _ D c Hc) as H2.
  pose proof (filter_nil _ _ E c Hc) as H3. cbn in H2, H3. rewrite negb_false_iff in H3.
  destruct Ht as [Ht|[Ht|Ht]]; congruence.
Qed.

Lemma prefer_pool_sub prefer pool c : c ∈ prefer_pool prefer pool -> c ∈ pool.
Proof.
  unfold prefer_pool. case_decide; [done|].
  destruct (List.filter _ pool) eqn:E; [done|]. cbn [or_else]. rewrite <-E. by intros [? _]%filter_iff.
Qed.

Lemma prefer_pool_nonempty prefer pool : pool <> [] -> prefer_pool prefer pool <> [].
Proof. unfold prefer_pool. intros H. case_decide; [done|]. by destruct (List.filter _ pool). Qed.

(** ** The pool whatever the order *)

Lemma pick_pool_perm cands cands' : cands ≡ₚ cands' -> pick_pool cands ≡ₚ pick_pool cands'.
Proof.
  intros E. unfold pick_pool. apply or_else_perm; [apply or_else_perm|]; by apply filter_perm.
Qed.

Lemma prefer_pool_perm prefer l l' : l ≡ₚ l' -> prefer_pool prefer l ≡ₚ prefer_pool prefer l'.
Proof.
  intros E. unfold prefer_pool. case_decide; [done|].
  apply or_else_perm; [by apply filter_perm|done].
Qed.

(** The pool as [pickCatalog] ranks it. *)
Definition ranked (cands : list catalogCand) (prefer : string) : list catalogCand :=
  SliceStable cand_less (prefer_pool prefer (pick_pool cands)).

Lemma ranked_elem cands prefer c :
  c ∈ ranked cands prefer <-> c ∈ prefer_pool prefer (pick_pool cands).
Proof. apply SliceStable_elem. Qed.

Lemma ranked_numeric cands prefer :
  Forall numeric cands -> Forall numeric (prefer_pool prefer (pick_pool cands)).
Proof.
  rewrite !list.Forall_forall. intros Hn c Hc%prefer_pool_sub%pick_pool_spec. apply Hn, Hc.
Qed.

Lemma tied_lookup leader rest i c :
  (leader :: rest) !! i = Some c -> (i <= tied_with leader rest)%nat ->
  i = O /\ c = leader \/ catalogRank c leader = 0%Z.
Proof.
  destruct i as [|i]; [intros [= ->]; by left|]. cbn. intros Hi Hle. right.
  revert i Hi Hle. induction rest as [|d rest IH]; intros i Hi Hle; [done|]. cbn in Hle.
  destruct (Z.eqb_spec (catalogRank d leader) 0) as [E|]; [|lia].
  destruct i as [|i]; cbn in Hi; [by simplify_eq|]. apply (IH i); [done|lia].
Qed.

Lemma tied_length leader rest : (tied_with leader rest <= length rest)%nat.
Proof. induction rest as [|d rest IH]; cbn; [lia|]. destruct (_ =? _)%Z; lia. Qed.

(** The candidate behind a pick: only how it was decided is recorded in it. *)
Definition same_cand (c c0 : catalogCand) : Prop :=
  cc_row c = cc_row c0 /\ cc_band c = cc_band c0 /\ cc_pressure c = cc_pressure c0
  /\ cc_pinned c = cc_pinned c0 /\ cc_pinReason c = cc_pinReason c0
  /\ cc_weeklyLeft c = cc_weeklyLeft c0 /\ cc_sessionLeft c = cc_sessionLeft c0.

Lemma same_cand_rank c c0 x : same_cand c c0 -> catalogRank c x = catalogRank c0 x.
Proof. intros (E1 & E2 & E3 & E4 & E5 & E6 & E7). unfold catalogRank. by rewrite E2, E3, E6, E7. Qed.

Lemma same_cand_reach c c0 x : same_cand c c0 -> within_reach x c = within_reach x c0.
Proof. intros (E1 & E2 & E3 & _). unfold within_reach. by rewrite E2, E3. Qed.

Lemma tie_break_spec pool leader tb c :
  tie_break pool leader tb = Some c ->
  c ∈ pool /\ cm_Provider (cc_row c) ∈ tb /\ within_reach leader c = true.
Proof.
  unfold tie_break. intros H. apply head_Some_elem_of in H.
  apply list_elem_of_bind in H as (p & Hc & Hp). apply filter_iff in Hc as [Hc Hw].
  apply andb_true_iff in Hw as [Hw1 Hw2]. apply bool_decide_eq_true in Hw1. by subst p.
Qed.

(** Every way a pick can come about. *)
Lemma pickCatalog_cases cands prefer tb draw c :
  pickCatalog cands prefer tb draw = inl c ->
  exists leader rest c0, ranked cands prefer = leader :: rest /\ c0 ∈ leader :: rest /\ same_cand c c0
    /\ (c0 = leader \/ catalogRank c0 leader = 0%Z
        \/ cm_Provider (cc_row c0) ∈ tb /\ within_reach leader c0 = true).
Proof.
  unfold pickCatalog. fold (ranked cands prefer).
  destruct (ranked cands prefer) as [|leader rest]; [done|].
  destruct (tie_break _ leader tb) as [d|] eqn:T.
  - apply tie_break_spec in T as (Hd & Hp & Hw). intros [= <-].
    exists leader, rest, d. split_and!; [done|done|repeat split|auto].
  - destruct (_ =? 1)%nat.
    + intros [= <-]. exists leader, rest, leader. split_and!; [done|by left|repeat split|auto].
    + destruct (_ || _) eqn:R; [done|]. apply orb_false_iff in R as [R1%Z.ltb_ge R2%Z.leb_gt].
      destruct ((leader :: rest) !! _) as [d|] eqn:L; [|done]. intros [= <-].
      exists leader, rest, d. split_and!; [done|by eapply list_elem_of_lookup_2|repeat split|].
      apply tied_lookup in L as [[_ ->]|L]; [auto|auto|lia].
Qed.

Lemma pickCatalog_elem cands prefer tb draw c :
  pickCatalog cands prefer tb draw = inl c ->
  exists c0, c0 ∈ prefer_pool prefer (pick_pool cands) /\ same_cand c c0.
Proof.
  intros (leader & rest & c0 & E & Hc & S & _)%pickCatalog_cases.
  exists c0. split; [|done]. apply ranked_elem. by rewrite E.
Qed.

(** ** What makes a row a candidate *)

Definition suits (p : ModelPredicates) (row : CatalogModel) : Prop :=
  (p_Mode p = CapabilityTask -> cm_Task row = true)
  /\ (p_Mode p = CapabilitySession -> cm_Session row = true)
  /\ (p_PreferPlan p = true -> cm_Access row = ModelAccessPlan).

Lemma suits_checks p row :
  bool_decide (p_Mode p = CapabilityTask) && negb (cm_Task row) = false ->
  bool_decide (p_Mode p = CapabilitySession) && negb (cm_Session row) = false ->
  p_PreferPlan p && negb (bool_decide (cm_Access row = ModelAccessPlan)) = false -> suits p row.
Proof.
  rewrite !andb_false_iff, !negb_false_iff, !bool_decide_eq_false, bool_decide_eq_true.
  unfold suits. destruct (p_PreferPlan p); naive_solver.
Qed.

Lemma excluded_pinned_spec p :
  let ep := excluded_pinned p in
  (forall x, x ∈ p_ExcludeProviders p -> x ∈ ep.1)
  /\ (forall po, po ∈ p_OwnerOverride p -> PlanProvider po.1 <> "" -> IsDestBand (oo_Band po.2) = false ->
      PlanProvider po.1 ∈ ep.1)
  /\ (forall x ov, ep.2 !! x = Some ov -> x <> "" /\ IsDestBand (oo_Band ov) = true
      /\ exists po, po ∈ p_OwnerOverride p /\ PlanProvider po.1 = x /\ po.2 = ov).
Proof.
  unfold excluded_pinned. induction (p_OwnerOverride p) as [|po l IH] using rev_ind; cbn.
  - split_and!; [intros; by apply elem_of_list_to_set|set_solver|intros x ov; by rewrite lookup_empty].
  - rewrite foldl_snoc. cbn in IH. destruct (foldl override_step _ l) as [ex pin].
    destruct IH as (I1 & I2 & I3). cbn [fst snd] in I1, I2, I3. unfold override_step.
    assert (forall x ov, pin !! x = Some ov -> x <> "" /\ IsDestBand (oo_Band ov) = true
              /\ exists po', po' ∈ l ++ [po] /\ PlanProvider po'.1 = x /\ po'.2 = ov) as I3'.
    { intros x ov Hx. destruct (I3 x ov Hx) as (H1 & H2 & po' & H3 & H4). split_and!; [done|done|].
      exists po'. split; [|done]. set_solver. }
    case_decide as E; [|destruct (IsDestBand (oo_Band po.2)) eqn:D]; cbn [fst snd]; split_and!; try done.
    + intros po' [Hp|Hp%list_elem_of_singleton]%elem_of_app; [by apply I2|by subst po'].
    + intros po' [Hp|Hp%list_elem_of_singleton]%elem_of_app; [by apply I2|subst po'; congruence].
    + intros x ov. destruct (decide (x = PlanProvider po.1)) as [->|Hne].
      * rewrite lookup_insert_eq. intros [= <-]. split_and!; [done|done|]. exists po. set_solver.
      * rewrite lookup_insert_ne by done. apply I3'.
    + intros x Hx. apply elem_of_union_r, I1, Hx.
    + intros po' [Hp|Hp%list_elem_of_singleton]%elem_of_app Hn Hd.
      * apply elem_of_union_r. by apply I2.
      * subst po'. apply elem_of_union_l. by apply elem_of_singleton.
Qed.

Section Rows.
Context {UC : Unicode} {ML : MathLog}.
Variables (clock : Time) (p : ModelPredicates) (byProv : gmap string PlanUsage) (now : Time).

(** The usage of a row's provider lets it take work. *)
Definition usable (row : CatalogModel) : Prop :=
  skipForUsage clock p (byProv !! cm_Provider row) now = false
  /\ forall u, byProv !! cm_Provider row = Some u ->
     ModelHasAvailableTokens clock u (cm_Model row) now (p_Thresholds p) = true.

(** The band a row's usage puts it in. *)
Definition usage_band (row : CatalogModel) : string :=
  match byProv !! cm_Provider row with
  | Some u => v_Weekly (ClassifyPlan clock u now (p_Thresholds p))
  | None => PlanBandUnpublished
  end.

Lemma catalog_row_spec ex pin row c :
  catalog_row clock p byProv now ex pin row = inl c ->
  cc_row c = row /\ cm_Provider row ∉ ex /\ suits p row /\ cm_Quality row = want_quality p
  /\ (if cc_pinned c then exists ov, pin !! cm_Provider row = Some ov /\ cc_band c = oo_Band ov
      else usable row /\ cc_band c = usage_band row).
Proof.
  unfold catalog_row. case_decide; [done|].
  destruct (bool_decide (p_Mode p = CapabilityTask) && _) eqn:M1; [done|].
  destruct (bool_decide (p_Mode p = CapabilitySession) && _) eqn:M2; [done|].
  destruct (p_PreferPlan p && _) eqn:M3; [done|].
  destruct (negb (bool_decide (cm_Quality row = _))) eqn:Q; [done|].
  rewrite negb_false_iff, bool_decide_eq_true in Q.
  pose proof (suits_checks _ _ M1 M2 M3) as Su. unfold usable, usage_band.
  destruct (pin !! cm_Provider row) as [ov|] eqn:Pin.
  - rewrite bool_decide_true by done. cbn. intros [= <-]. cbn. split_and!; eauto.
  - rewrite bool_decide_false by (by intros [? ?]). cbn.
    destruct (skipForUsage _ _ _ _) eqn:Sk; [done|].
    destruct (byProv !! cm_Provider row) as [u|].
    + destruct (ModelHasAvailableTokens _ _ _ _ _) eqn:T; [|done]. cbn. intros [= <-]. cbn.
      split_and!; [done..|intros u' [= <-]; done|done].
    + intros [= <-]. cbn. split_and!; done.
Qed.

Lemma catalog_rows_spec ex pin rows c :
  c ∈ (catalog_rows clock p byProv now ex pin rows).1 ->
  exists row, row ∈ rows /\ catalog_row clock p byProv now ex pin row = inl c.
Proof.
  induction rows as [|row rows IH]; cbn; [set_solver|].
  destruct (catalog_row clock p byProv now ex pin row) as [d|why] eqn:E; cbn.
  - intros [->|Hc]%elem_of_cons; [exists row; set_solver|].
    destruct (IH Hc) as (r & Hr & Er). exists r. set_solver.
  - intros Hc. destruct (IH Hc) as (r & Hr & Er). exists r. set_solver.
Qed.

(** A candidate not pinned is in no spent band. *)
Lemma skipForUsage_false u :
  skipForUsage clock p u now = false -> p_RequireUsage p = true ->
  exists u', u = Some u' /\ publishedPlanBand (v_Weekly (ClassifyPlan clock u' now (p_Thresholds p))) = true.
Proof.
  unfold skipForUsage. intros S R. rewrite R in S. cbn [negb] in S.
  destruct u as [u|]; [|done]. exists u. split; [done|].
  destruct (p_Background p && _); [done|].
  apply orb_false_iff in S as [_ S]. by apply negb_false_iff.
Qed.

Lemma background_not_ahead u :
  skipForUsage clock p (Some u) now = false -> p_Background p = true ->
  v_Weekly (ClassifyPlan clock u now (p_Thresholds p)) <> PlanBandAhead.
Proof.
  unfold skipForUsage. intros S B E. rewrite B, E in S. cbn in S. done.
Qed.
End Rows.

Lemma catalog_named row : row ∈ ModelCatalog -> cm_Provider row <> "".
Proof.
  assert (Forall (fun r => cm_Provider r <> "") ModelCatalog) as F by (repeat constructor; discriminate).
  rewrite list.Forall_forall in F. apply F.
Qed.

(** What a pick from the catalog satisfies. *)
Definition eligible_pick `{Unicode, MathLog} (clock : Time) (p : ModelPredicates)
    (byProv : gmap string PlanUsage) (now : Time) (k : ModelPick) : Prop :=
  exists row, row ∈ ModelCatalog
  /\ k_Provider k = cm_Provider row /\ k_Model k = cm_Model row
  /\ cm_Quality row = want_quality p /\ suits p row
  /\ cm_Provider row ∉ p_ExcludeProviders p
  /\ (forall po, po ∈ p_OwnerOverride p -> PlanProvider po.1 = cm_Provider row ->
      IsDestBand (oo_Band po.2) = true)
  /\ ((exists po, po ∈ p_OwnerOverride p /\ PlanProvider po.1 = cm_Provider row
         /\ oo_Band po.2 = k_Band k /\ IsDestBand (k_Band k) = true)
      \/ usable clock p byProv now row /\ k_Band k = usage_band clock p byProv now row
         /\ (IsDestBand (k_Band k) = true
             \/ p_RequireUsage p = false /\ publishedPlanBand (k_Band k) = false)).

Lemma catalog_pick_facts `{Unicode, MathLog} clock rand p byProv now k :
  resolve_catalog clock rand p byProv now = inl k -> eligible_pick clock p byProv now k.
Proof.
  unfold resolve_catalog. destruct (pickCatalog _ _ _ _) as [c|err] eqn:P; [|by case_bool_decide].
  intros [= <-]. cbn [k_Provider k_Model k_Band].
  apply pickCatalog_elem in P as (c0 & Hc & E1 & E2 & _ & E4 & _).
  apply prefer_pool_sub, pick_pool_spec in Hc as (Hc & Ht & _).
  apply catalog_rows_spec in Hc as (row & Hrow & Hc).
  apply catalog_row_spec in Hc as (Er & Hex & Hs & Hq & Hp).
  destruct (excluded_pinned_spec p) as (X1 & X2 & X3).
  exists row. rewrite E1, E2, Er. split_and!; try done.
  - intros Hin. by apply Hex, X1.
  - intros po Hpo Eq. destruct (IsDestBand (oo_Band po.2)) eqn:D; [done|].
    exfalso. apply Hex. rewrite <-Eq. apply X2; [done| |done]. rewrite Eq.
    by apply catalog_named.
  - destruct (cc_pinned c0) eqn:Pin.
    + left. destruct Hp as (ov & Hov & ->). destruct (X3 _ _ Hov) as (_ & D & po & Hpo & Hpp & <-).
      exists po. done.
    + right. destruct Hp as [Hu Hb]. split_and!; [done|done|].
      destruct Ht as [Ht|[Ht|Ht]]; [congruence|by left|].
      destruct (p_RequireUsage p) eqn:R; [|by right]. exfalso.
      destruct Hu as [Sk _]. destruct (skipForUsage_false _ _ _ _ Sk R) as (u & Eu & Pu).
      unfold usage_band in Hb. rewrite Eu in Hb. congruence.
Qed.

Lemma by_provider_spec usage p u :
  by_provider usage !! p = Some u -> u ∈ usage /\ u_Provider u = p.
Proof.
  unfold by_provider. induction usage as [|v usage IH] using rev_ind; [done|].
  rewrite foldl_app. cbn. rewrite lookup_insert_Some.
  intros [[<- <-]|[_ Hu]]; [set_solver|]. destruct (IH Hu). set_solver.
Qed.
