(* ===== verification/ResolveTheorems.v ===== *)
(** * ResolveTheorems: what a resolved pick satisfies

    The properties of [Resolve] and [ResolveIntel]. *)

From S2P Require Import Prelude GoLib GoFloat PlanBand Resolve ResolveIntel ResolveFacts.
From Stdlib Require Import Sorted.

(** C23: a pick from the catalog is a row of it that the caller's mode, access
    and quality allow, at no provider the caller excludes or the owner keeps
    work off; and either the owner pinned that provider to the pick's band, or
    its plan and the model itself have tokens and its band is a destination or,
    unless usage is required, not published. *)
Theorem catalog_pick_is_eligible `{Unicode, MathLog} clock rand p byProv now k :
  resolve_catalog clock rand p byProv now = inl k ->
  exists row, row ∈ ModelCatalog
  /\ k_Provider k = cm_Provider row /\ k_Model k = cm_Model row
  /\ cm_Quality row = want_quality p /\ suits p row
  /\ cm_Provider row ∉ p_ExcludeProviders p
  /\ (forall po, po ∈ p_OwnerOverride p -> PlanProvider po.1 = cm_Provider row ->
      IsDestBand (oo_Band po.2) = true)
  /\ ((exists po, po ∈ p_OwnerOverride p /\ PlanProvider po.1 = cm_Provider row
         /\ oo_Band po.2 = k_Band k /\ IsDestBand (k_Band k) = true)
      \/ usable clock p byProv now row /\ k_Band k = usage_band clock p byProv now row
         /\ (IsDestBand (k_Band k) = true
             \/ p_RequireUsage p = false /\ publishedPlanBand (k_Band k) = false)).
Proof.
  apply catalog_pick_facts.
Qed.

(** A stand-in for [math.Log]: its line through 1. *)
(** Tables without letters past ASCII. *)
#[local] Instance demo_unicode : Unicode := {| unicode_lower := id; unicode_alnum := fun _ => false |}.

#[local] Instance demo_log : MathLog := fun x => F.sub x (F.of_Z 1).

Definition demo_week (provider : string) (used : Z) : PlanUsage :=
  MkPlanUsage provider PlanUsageAvailable ""
    [MkWindow "" None PlanWindowWeekly (Some (F.of_Z used)) (Some (F.of_Z (100 - used)))
       (Some (4 * 24 * Hour)%Z) 0 ""] 0 "" 200 "" None None.

Definition demo_usage : gmap string PlanUsage :=
  by_provider [demo_week "claude" 50; demo_week "codex" 20; demo_week "grok" 99].

Definition demo_pred : ModelPredicates :=
  MkPred CapabilitySession "" "" "" "" "" true false "" [] None [] false None false 1 None [].

Definition demo_rand (n : Z) : Z := 0.

Lemma catalog_pick_is_eligible_witness :
  exists k row, resolve_catalog 1 demo_rand demo_pred demo_usage 1 = inl k
  /\ k_Provider k = cm_Provider row /\ row ∈ ModelCatalog.
Proof.
  destruct (resolve_catalog 1 demo_rand demo_pred demo_usage 1) as [k|err] eqn:E;
    [|vm_compute in E; discriminate].
  destruct (catalog_pick_is_eligible 1 demo_rand demo_pred demo_usage 1 k E) as (row & Hr & Hp & _).
  exists k, row. split_and!; [reflexivity|exact Hp|exact Hr].
Defined.

(** a choice among candidates is refused exactly when none of them is
    pinned, in a destination band, or without a published one; near and exact
    ties are always settled, as long as the draw stays in its range. *)
Theorem refused_only_without_candidates cands prefer tb draw :
  (forall n, (0 < n)%Z -> (0 <= draw n < n)%Z) ->
  (exists c, pickCatalog cands prefer tb draw = inl c) <-> exists c, c ∈ cands /\ takable c.
Proof.
  intros Hd. split.
  - intros (c & (c0 & Hc & _)%pickCatalog_elem). exists c0.
    apply prefer_pool_sub, pick_pool_spec in Hc as (? & ? & _). done.
  - intros (c & Hc & Ht). unfold pickCatalog. fold (ranked cands prefer).
    destruct (ranked cands prefer) as [|leader rest] eqn:R.
    + exfalso. apply (prefer_pool_nonempty prefer _ (pick_pool_nonempty cands c Hc Ht)).
      apply Permutation_nil_r. rewrite <-R. unfold ranked. by rewrite SliceStable_perm.
    + destruct (tie_break _ leader tb); [eauto|]. destruct (_ =? 1)%nat; [eauto|].
      specialize (Hd (Z.of_nat (S (tied_with leader rest))) ltac:(lia)).
      pose proof (tied_length leader rest).
      rewrite (proj2 (Z.ltb_ge _ _)), (proj2 (Z.leb_gt _ _)) by lia. cbn [orb].
      destruct (lookup_lt_is_Some_2 (leader :: rest) (Z.to_nat (draw (Z.of_nat (S (tied_with leader rest))))))
        as [d Hdd]; [cbn; lia|]. rewrite Hdd. eauto.
Qed.

Definition demo_cand (row : CatalogModel) (band : string) (pressure : float64) : catalogCand :=
  MkCand row band pressure (F.of_Z 50) (F.of_Z 50) false "" false 0.

Definition demo_cands : list catalogCand :=
  [demo_cand (plan_row "claude" "a" "standard") PlanBandOK (F.of_Z 0);
   demo_cand (plan_row "codex" "b" "standard") PlanBandUnder (F.of_Z (-1));
   demo_cand (plan_row "grok" "c" "standard") PlanBandHot (F.of_Z 3)].

Lemma refused_only_without_candidates_witness :
  exists c, pickCatalog demo_cands "" [] demo_rand = inl c.
Proof.
  apply (refused_only_without_candidates demo_cands "" [] demo_rand).
  - intros n Hn. unfold demo_rand. lia.
  - exists (demo_cand (plan_row "claude" "a" "standard") PlanBandOK (F.of_Z 0)).
    split; [by left|right; left; reflexivity].
Defined.

Lemma ranked_leader cands prefer leader rest :
  Forall numeric cands -> ranked cands prefer = leader :: rest ->
  forall d, d ∈ prefer_pool prefer (pick_pool cands) -> (0 <= catalogRank d leader)%Z.
Proof.
  intros Hn R d Hd. pose proof (ranked_numeric cands prefer Hn) as N.
  pose proof (SliceStable_sorted _ _ _ cand_less_weak N) as S. fold (ranked cands prefer) in S.
  rewrite R in S. apply StronglySorted_inv in S as [_ F].
  assert (forall x, x ∈ leader :: rest -> numeric x) as Nx.
  { intros x Hx. rewrite <-R in Hx. apply ranked_elem in Hx.
    rewrite list.Forall_forall in N. by apply N. }
  rewrite <-ranked_elem, R in Hd. apply elem_of_cons in Hd as [->|Hd].
  - rewrite catalogRank_refl; [done|]. apply Nx. by left.
  - rewrite list.Forall_forall in F.
    apply catalogRank_nonneg; [apply Nx; by right|apply Nx; by left|by apply F].
Qed.

(** the pick comes from the best of what there is: a pinned candidate if
    there is one, else one in a destination band if there is one; no candidate
    of that pool, or of the preferred provider's part of it, ranks above the
    leader, and the pick ties with the leader on every key unless it is at a
    provider of the tie-break list, in the leader's band and within its
    reach. *)
Theorem pick_is_ranked_best cands prefer tb draw c :
  Forall numeric cands -> pickCatalog cands prefer tb draw = inl c ->
  let pool := prefer_pool prefer (pick_pool cands) in
  exists leader, leader ∈ pool
  /\ (forall d, d ∈ pool -> (0 <= catalogRank d leader)%Z)
  /\ (catalogRank c leader = 0%Z \/ cm_Provider (cc_row c) ∈ tb /\ within_reach leader c = true)
  /\ ((exists d, d ∈ cands /\ cc_pinned d = true) -> cc_pinned c = true)
  /\ (cc_pinned c = true \/ IsDestBand (cc_band c) = true
      \/ forall d, d ∈ cands -> IsDestBand (cc_band d) = false).
Proof.
  intros Hn P pool. destruct (pickCatalog_cases _ _ _ _ _ P) as (leader & rest & c0 & R & Hc & Sc & How).
  assert (forall x, x ∈ leader :: rest -> x ∈ pool) as Hin by (intros x; rewrite <-R; apply ranked_elem).
  exists leader. split_and!; [apply Hin; by left|by eapply ranked_leader| | |].
  - rewrite (same_cand_rank _ _ _ Sc), (same_cand_reach _ _ _ Sc). destruct Sc as (-> & _).
    destruct How as [->|[How|How]]; [|by left|by right]. left. apply catalogRank_refl.
    pose proof (ranked_numeric cands prefer Hn) as N. rewrite list.Forall_forall in N.
    apply N, Hin. by left.
  - destruct Sc as (_ & _ & _ & -> & _). apply Hin, prefer_pool_sub, pick_pool_spec in Hc. apply Hc.
  - destruct Sc as (_ & -> & _ & -> & _). apply Hin, prefer_pool_sub, pick_pool_spec in Hc. apply Hc.
Qed.

Lemma pick_is_ranked_best_witness :
  Forall numeric demo_cands
  /\ exists c, pickCatalog demo_cands "" [] demo_rand = inl c /\ cm_Provider (cc_row c) = "codex"
       /\ (cc_pinned c = true \/ IsDestBand (cc_band c) = true
           \/ forall d, d ∈ demo_cands -> IsDestBand (cc_band d) = false).
Proof.
  assert (Forall numeric demo_cands) as N by (repeat constructor).
  split; [exact N|]. destruct (pickCatalog demo_cands "" [] demo_rand) as [c|] eqn:E.
  - destruct (pick_is_ranked_best demo_cands "" [] demo_rand c N E) as (l & _ & _ & _ & _ & B).
    exists c. split_and!; [reflexivity|vm_compute in E; injection E as <-; reflexivity|exact B].
  - vm_compute in E. discriminate.
Defined.

(** the choice does not depend on the order the candidates arrive in. *)
Theorem arrival_order_is_no_rank cands cands' prefer tb draw :
  Forall numeric cands -> cands ≡ₚ cands' ->
  (forall x y, x ∈ cands -> y ∈ cands -> catalogID x = catalogID y -> x = y) ->
  pickCatalog cands prefer tb draw = pickCatalog cands' prefer tb draw.
Proof.
  intros Hn Hp Hid. unfold pickCatalog.
  pose proof (prefer_pool_perm prefer _ _ (pick_pool_perm _ _ Hp)) as Pp.
  rewrite (SliceStable_unique cand_less numeric _ _ cand_less_weak (ranked_numeric cands prefer Hn) Pp);
    [done|].
  pose proof (ranked_numeric cands prefer Hn) as N. rewrite list.Forall_forall in N.
  intros x y Hx Hy Hxy Hyx. apply Hid.
  - by apply prefer_pool_sub, pick_pool_spec in Hx as [? _].
  - by apply prefer_pool_sub, pick_pool_spec in Hy as [? _].
  - by apply cand_less_level; [apply N|apply N| |].
Qed.

Lemma arrival_order_is_no_rank_witness :
  pickCatalog demo_cands "" [] demo_rand = pickCatalog (reverse demo_cands) "" [] demo_rand.
Proof.
  apply (arrival_order_is_no_rank demo_cands (reverse demo_cands) "" [] demo_rand).
  - repeat constructor.
  - symmetry. apply reverse_Permutation.
  - assert (NoDup (catalogID <$> demo_cands)) as N.
    { apply (bool_decide_unpack _). vm_compute. exact I. }
    intros x y Hx Hy E. apply list_elem_of_lookup in Hx as [i Hi], Hy as [j Hj].
    assert (i = j) as ->.
    { eapply NoDup_lookup; [exact N| |]; rewrite list_lookup_fmap; [by rewrite Hi|by rewrite Hj, E]. }
    congruence.
Defined.

(** * What a pick by scores satisfies

    The properties of [ResolveIntel]. *)

Lemma match_in_catalog `{UC : Unicode} g row : MatchCatalogGeneration g = Some row -> row ∈ ModelCatalog.
Proof.
  assert (forall m r, catalogByModel m = Some r -> r ∈ ModelCatalog) as C.
  { intros m r H. unfold catalogByModel in H. apply List.find_some in H as [H _].
    by apply list_elem_of_In. }
  unfold MatchCatalogGeneration. case_decide; [done|].
  destruct (catalogByModel g) eqn:E; [intros [= <-]; by eapply C|].
  destruct (List.find _ catalogAliases); [apply C|done].
Qed.

Lemma intel_pin_in_catalog `{UC : Unicode} p r : intel_pin p = Some r -> r ∈ ModelCatalog.
Proof. unfold intel_pin. case_decide; [done|apply match_in_catalog]. Qed.

(** A candidate of the scores: its value is one the purpose's series gave. *)
Definition scored `{UC : Unicode} (purpose : string) (obs : list ModelObservation) (c : intelCand) : Prop :=
  if ic_hasScore c then exists o, o ∈ obs /\ o_Purpose o = purpose
    /\ MatchCatalogGeneration (o_Generation o) = Some (ic_row c) /\ o_Effort o = ic_effort c
    /\ o_Value o = ic_value c /\ o_CostUSD o = ic_cost c
  else True.

Lemma intel_pool_spec `{UC : Unicode} purpose seen obs c :
  c ∈ intel_pool purpose seen obs -> ic_row c ∈ ModelCatalog /\ scored purpose obs c.
Proof.
  revert seen. induction obs as [|o obs IH]; intros seen; cbn [intel_pool]; [set_solver|].
  assert (forall s, c ∈ intel_pool purpose s obs ->
            ic_row c ∈ ModelCatalog /\ scored purpose (o :: obs) c) as IH'.
  { intros s Hc. destruct (IH s Hc) as [H1 H2]. split; [done|]. revert H2. unfold scored.
    destruct (ic_hasScore c); [|done]. intros (o' & Ho & Hr). exists o'. split; [by right|done]. }
  case_bool_decide as P; [|apply IH']. cbn [negb].
  destruct (MatchCatalogGeneration (o_Generation o)) as [row|] eqn:M; [|apply IH'].
  destruct (contains seen _); [apply IH'|].
  intros [->|Hc]%elem_of_cons; [|by eapply IH']. cbn. split; [by eapply match_in_catalog|].
  exists o. split_and!; try done. by left.
Qed.

Lemma shelf_rows_spec wantQ seen rows c :
  c ∈ shelf_rows wantQ seen rows -> ic_row c ∈ rows /\ ic_hasScore c = false.
Proof.
  revert seen. induction rows as [|row rows IH]; intros seen; cbn [shelf_rows]; [set_solver|].
  destruct (negb _); [intros Hc%IH; set_solver|].
  destruct (contains seen _); [intros Hc%IH; set_solver|].
  intros [->|Hc%IH]%elem_of_cons; set_solver.
Qed.

Lemma intel_candidates_spec `{UC : Unicode} p purpose pin obs c :
  (forall r, pin = Some r -> r ∈ ModelCatalog) ->
  c ∈ intel_candidates p purpose pin obs -> ic_row c ∈ ModelCatalog /\ scored purpose obs c.
Proof.
  intros Hpin. unfold intel_candidates, appendCatalogShelf. intros [Hc|Hc]%elem_of_app.
  - destruct pin as [row|]; cbn [pin_pool] in Hc; [|by eapply intel_pool_spec].
    destruct (List.existsb _ _); [by eapply intel_pool_spec|].
    apply elem_of_app in Hc as [Hc|Hc%list_elem_of_singleton]; [by eapply intel_pool_spec|].
    subst c. cbn. split; [by apply Hpin|done].
  - apply shelf_rows_spec in Hc as [Hr Hs]. split; [done|]. unfold scored. by rewrite Hs.
Qed.

Lemma best_of_elem prefer l c : best_of prefer l = Some c -> c ∈ l.
Proof.
  destruct l as [|x l]; [done|]. cbn. intros [= <-]. revert x.
  induction l as [|y l IH]; intros x; cbn; [by left|].
  destruct (intelBetter y x prefer); [right; apply IH|].
  specialize (IH x). apply elem_of_cons in IH as [->|IH]; [by left|by right; right].
Qed.

Lemma prefer_intel_sub prefer l c : c ∈ prefer_intel prefer l -> c ∈ l.
Proof.
  unfold prefer_intel. case_decide; [done|].
  destruct (List.filter _ l) eqn:E; [done|]. cbn [or_else]. rewrite <-E. by intros [? _]%filter_iff.
Qed.

(** What an eligible candidate satisfies: only its band and pressure are set. *)
Lemma intel_eligible_spec `{Unicode, MathLog} clock p byProv now ex pin c c' :
  intel_eligible clock p byProv now ex pin c = Some c' ->
  ic_row c' = ic_row c /\ ic_effort c' = ic_effort c /\ ic_value c' = ic_value c
  /\ ic_cost c' = ic_cost c /\ ic_hasScore c' = ic_hasScore c
  /\ cm_Provider (ic_row c) ∉ ex /\ suits p (ic_row c)
  /\ (forall r, pin = Some r -> cm_Model (ic_row c) = cm_Model r)
  /\ (p_Effort p <> "" -> ic_effort c = p_Effort p)
  /\ usable clock p byProv now (ic_row c) /\ ic_band c' = usage_band clock p byProv now (ic_row c).
Proof.
  unfold intel_eligible. case_decide; [done|].
  destruct (bool_decide (p_Mode p = CapabilityTask) && _) eqn:M1; [done|].
  destruct (bool_decide (p_Mode p = CapabilitySession) && _) eqn:M2; [done|].
  destruct (p_PreferPlan p && _) eqn:M3; [done|].
  pose proof (suits_checks _ _ M1 M2 M3) as Su.
  destruct (match pin with Some r => _ | None => false end) eqn:M4; [done|].
  destruct (negb (bool_decide (p_Effort p = "")) && _) eqn:M5; [done|].
  assert (forall r, pin = Some r -> cm_Model (ic_row c) = cm_Model r) as Hm.
  { intros r ->. by apply negb_false_iff, bool_decide_eq_true in M4. }
  assert (p_Effort p <> "" -> ic_effort c = p_Effort p) as He.
  { intros Hne. rewrite (bool_decide_false _ Hne) in M5. cbn in M5.
    by apply negb_false_iff, bool_decide_eq_true in M5. }
  destruct (skipForUsage _ _ _ _) eqn:Sk; [done|]. unfold usable, usage_band.
  destruct (byProv !! cm_Provider (ic_row c)) as [u|] eqn:U.
  - destruct (ModelHasAvailableTokens _ _ _ _ _) eqn:T; [|done]. intros [= <-]. cbn.
    split_and!; try done. intros u' [= <-]. done.
  - intros [= <-]. cbn. split_and!; done.
Qed.

(** a pick by scores is a row of the catalog that the caller's mode, access,
    pinned model and effort allow, at no provider the caller excludes or the
    owner keeps work off, whose plan and model have tokens; it is either a
    scored candidate no worse than the floor of its purpose's scores, or an
    unscored row of the quality asked for. *)
Theorem intel_pick_is_eligible `{Unicode, MathLog, CostFormat} clock p byProv now obs k :
  resolveFromIntel clock p byProv now (inl obs) = inl k ->
  exists c, ic_row c ∈ ModelCatalog /\ scored (k_Purpose k) obs c
  /\ k_Provider k = cm_Provider (ic_row c) /\ k_Model k = cm_Model (ic_row c)
  /\ k_Effort k = ic_effort c /\ k_Band k = usage_band clock p byProv now (ic_row c)
  /\ suits p (ic_row c) /\ usable clock p byProv now (ic_row c)
  /\ cm_Provider (ic_row c) ∉ p_ExcludeProviders p
  /\ (forall po, po ∈ p_OwnerOverride p -> PlanProvider po.1 = cm_Provider (ic_row c) ->
      IsDestBand (oo_Band po.2) = true)
  /\ (p_Effort p <> "" -> k_Effort k = p_Effort p)
  /\ (p_Model p <> "" -> exists r, MatchCatalogGeneration (p_Model p) = Some r /\ k_Model k = cm_Model r)
  /\ (p_Model p = "" ->
      if ic_hasScore c then
        forall f, qualityScoreFloor (intel_scores (k_Purpose k) obs) (want_quality p) = Some f ->
                  F.ltb (ic_value c) f = false
      else cm_Quality (ic_row c) = want_quality p).
Proof.
  unfold resolveFromIntel. destruct (_ && bool_decide (intel_pin p = None)) eqn:Np; [done|].
  destruct (omap _ _) as [|e es] eqn:El; [done|]. rewrite <-El. clear e es El.
  destruct (best_of _ _) as [best|] eqn:B; [|case_match; discriminate].
  intros [= <-]. cbn [k_Provider k_Model k_Effort k_Band k_Purpose].
  apply best_of_elem, prefer_intel_sub, filter_iff in B as [Hel Hkept].
  apply list_elem_of_omap in Hel as (c & Hc & Hel).
  apply intel_candidates_spec in Hc as [Hrow Hsc]; [|apply intel_pin_in_catalog].
  apply intel_eligible_spec in Hel as (E1 & E2 & E3 & E4 & E5 & Hex & Hs & Hm & He & Hu & Hb).
  destruct (excluded_pinned_spec p) as (X1 & X2 & _).
  exists c. rewrite E1, E2. split_and!; try done.
  - intros Hin. by apply Hex, X1.
  - intros po Hpo Eq. destruct (IsDestBand (oo_Band po.2)) eqn:D; [done|].
    exfalso. apply Hex. rewrite <-Eq. apply X2; [done| |done]. rewrite Eq. by apply catalog_named.
  - intros Hne. rewrite (bool_decide_false _ Hne) in Np.
    destruct (intel_pin p) as [r|] eqn:P; [|done]. exists r. split; [|by apply Hm].
    revert P. unfold intel_pin. by rewrite decide_False.
  - intros Hne. unfold intel_kept in Hkept. rewrite E1, E3, E5 in Hkept.
    apply andb_true_iff in Hkept as [K1 K2]. apply negb_true_iff in K1.
    unfold intel_floor, pinned_only in K1. rewrite Hne in K1.
    destruct (ic_hasScore c); [|by apply bool_decide_eq_true in K2].
    intros f Hf. cbn in K1. rewrite Hf in K1. done.
Qed.

(** A stand-in for Go's ["%.4f"]. *)
#[local] Instance demo_format : CostFormat := fun _ => "0.0000".

#[local] Existing Instance demo_log.
#[local] Existing Instance demo_unicode.

Definition demo_obs (generation : string) (value : Z) : ModelObservation :=
  MkObs 1 "aa" "" generation "high" "coding" (F.of_Z value) "" (F.of_Z 2) F.zero "".

Definition demo_intel : list ModelObservation :=
  [demo_obs "claude-sonnet-5" 60; demo_obs "GPT-6 Sol" 70].

Definition demo_coding : ModelPredicates := demo_pred <| p_Purpose := "coding" |>.

Lemma intel_pick_is_eligible_witness :
  exists k c, resolveFromIntel 1 demo_coding demo_usage 1 (inl demo_intel) = inl k
  /\ k_Model k = cm_Model (ic_row c) /\ suits demo_coding (ic_row c) /\ k_Effort k = "high".
Proof.
  destruct (resolveFromIntel 1 demo_coding demo_usage 1 (inl demo_intel)) as [k|err] eqn:E;
    [|vm_compute in E; discriminate].
  destruct (intel_pick_is_eligible 1 demo_coding demo_usage 1 demo_intel k E)
    as (c & _ & _ & _ & Hm & _ & _ & Hs & _).
  exists k, c. split_and!; [reflexivity|exact Hm|exact Hs|].
  vm_compute in E. injection E as <-. reflexivity.
Defined.

Lemma override_steps_without_pins ex l :
  (foldl override_step (ex, ∅) (List.filter (fun po => negb (IsDestBand (oo_Band po.2))) l)).1
  = (foldl override_step (ex, ∅) l).1.
Proof.
  induction l as [|po l IH] using rev_ind; [done|].
  rewrite List.filter_app, !foldl_app. cbn [List.filter foldl].
  unfold override_step at 3. destruct (IsDestBand (oo_Band po.2)) eqn:D; cbn [negb foldl].
  - rewrite IH. by case_decide.
  - unfold override_step at 1. rewrite D. case_decide; [done|]. cbn. by rewrite IH.
Qed.

Lemma excluded_without_pins p :
  (excluded_pinned (p <| p_OwnerOverride ::= List.filter (fun po => negb (IsDestBand (oo_Band po.2))) |>)).1
  = (excluded_pinned p).1.
Proof. apply override_steps_without_pins. Qed.

(** The path by scores does not see an owner's pins: an override that
    names a destination band changes neither the pick nor the refusal, whatever
    the observations, unlike on the catalog path. *)
Theorem intel_path_has_no_pins `{Unicode, MathLog, CostFormat} clock p byProv now intel :
  resolveFromIntel clock p byProv now intel
  = resolveFromIntel clock
      (p <| p_OwnerOverride ::= List.filter (fun po => negb (IsDestBand (oo_Band po.2))) |>)
      byProv now intel.
Proof.
  unfold resolveFromIntel. destruct intel as [obs|err]; [|done].
  by rewrite excluded_without_pins.
Qed.

Lemma best_of_snoc prefer l c best :
  best_of prefer l = Some best ->
  best_of prefer (l ++ [c]) = Some (if intelBetter c best prefer then c else best).
Proof.
  destruct l as [|x l]; [done|]. cbn [best_of]. intros [= <-]. cbn [app best_of].
  by rewrite foldl_app.
Qed.

(** The candidate that costs less, in a band and with a pressure of its own. *)
Definition demo_cheap (row : CatalogModel) (pressure cost : Z) : intelCand :=
  MkIntel row "high" (F.of_Z 60) (F.of_Z cost) true PlanBandOK (F.q pressure 100).

Definition demo_chain : list intelCand :=
  [demo_cheap (plan_row "claude" "a" "standard") 0 3;
   demo_cheap (plan_row "codex" "b" "standard") 4 2;
   demo_cheap (plan_row "grok" "c" "standard") 8 1].

(** the pick by scores is beaten by none of the candidates after it and
    beats the best of those before it; it need not beat each of those, so the
    order the candidates come in can decide between the same ones. *)
Theorem intel_pick_beats_the_later prefer l c :
  best_of prefer l = Some c ->
  (exists before after, l = before ++ c :: after
   /\ Forall (fun d => intelBetter d c prefer = false) after
   /\ (forall b, best_of prefer before = Some b -> intelBetter c b prefer = true))
  /\ exists l1 l2, l1 ≡ₚ l2 /\ best_of "" l1 <> best_of "" l2
     /\ exists c1 c2, best_of "" l1 = Some c1 /\ c2 ∈ l1 /\ intelBetter c2 c1 "" = true.
Proof.
  intros B. split.
  - revert c B. induction l as [|x l IH] using rev_ind; [done|]. intros c.
    destruct (best_of prefer l) as [b|] eqn:E.
    + rewrite (best_of_snoc _ _ _ _ E). destruct (intelBetter x b prefer) eqn:I; intros [= <-].
      * exists l, []. split_and!; [done|by constructor|]. intros b'. rewrite E. by intros [= <-].
      * destruct (IH b eq_refl) as (l1 & l2 & -> & F2 & F1). exists l1, (l2 ++ [x]).
        split_and!; [by rewrite <-app_assoc| |done]. apply Forall_app; split; [done|by repeat constructor].
    + destruct l; [|done]. intros [= <-]. exists [], []. done.
  - exists demo_chain, (reverse demo_chain). split_and!; [symmetry; apply reverse_Permutation|..].
    + vm_compute. discriminate.
    + eexists _, (demo_cheap (plan_row "claude" "a" "standard") 0 3).
      split_and!; [vm_compute; reflexivity|by left|vm_compute; reflexivity].
Qed.

Lemma intel_pick_beats_the_later_witness :
  exists before after, demo_chain = before ++ demo_cheap (plan_row "grok" "c" "standard") 8 1 :: after
   /\ Forall (fun d => intelBetter d (demo_cheap (plan_row "grok" "c" "standard") 8 1) "" = false) after.
Proof.
  destruct (intel_pick_beats_the_later "" demo_chain (demo_cheap (plan_row "grok" "c" "standard") 8 1))
    as [(l1 & l2 & E & F & _) _]; [vm_compute; reflexivity|].
  exists l1, l2. split; [exact E|exact F].
Defined.
