(* ===== verification/PlanRead.v ===== *)
(** * PlanRead: from a vendor's answer to a reading

    Models the readers of plan usage: [plan_usage_claude.go],
    [plan_usage_codex.go], [plan_usage_grok.go], [plan_usage_cursor.go], the
    recorder of [plan_usage_record.go] and the helpers of [plan_usage.go] they
    share. A decoded JSON value is a record, or the text of the decoding error.
    Credentials and what a round trip gave are arguments; a redirect is not
    followed. *)

From S2P Require Import Prelude GoLib GoFloat PlanBand PlanThrottle Resolve.

(** ** Shared helpers *)

(** What the readers use of [time.Parse], [fmt] and [strconv]: a layout and a
    text to a time, [%.2f], [ParseFloat] and [Sscan] of an int64. *)
Class Scan := {
  parse_time : string -> string -> option Time;
  format_2f : float64 -> string;
  parse_float : string -> option float64;
  sscan_int64 : string -> option Z }.

Definition RFC3339 : string := "2006-01-02T15:04:05Z07:00".
Definition RFC3339Nano : string := "2006-01-02T15:04:05.999999999Z07:00".

(** [time.Unix(sec, 0)] and [time.UnixMilli(ms)]: seconds wrap as an int64. *)
Definition unix_epoch : Z := 62135596800.
Definition Unix (sec : Z) : Time := wrap64 (sec + unix_epoch) * Second.
Definition UnixMilli (ms : Z) : Time :=
  wrap64 (Z.quot ms 1000 + unix_epoch) * Second + Z.rem ms 1000 * 1000000.

Definition unavailablePlan (p : string) (now : Time) (reason : string) : PlanUsage :=
  MkPlanUsage p PlanUsageUnavailable reason [] now "" 0 "" None None.

Definition remainingFromUsed (used : float64) : float64 :=
  let r := F.sub hundred used in
  if F.ltb r F.zero then F.zero
  else if F.ltb hundred r then hundred
  else r.

Definition classifyCodexWindow (limitWindowSeconds : Z) : string :=
  if (limitWindowSeconds <=? 0)%Z then PlanWindowSession
  else if (limitWindowSeconds <=? 6 * 3600)%Z then PlanWindowSession
  else if (6 * 24 * 3600 <=? limitWindowSeconds)%Z then PlanWindowWeekly
  else itoa limitWindowSeconds +:+ "s".

(** At most [n] bytes of [s]. *)
Definition limit_bytes (n : N) (s : string) : string :=
  if (N.of_nat (len s) <=? n)%N then s else take_bytes (N.to_nat n) s.

(** [strings.ReplaceAll] of a newline by a space. *)
Fixpoint replace_nl (s : string) : string :=
  match s with
  | EmptyString => ""
  | String a s' => String (if decide (a = byte 10) then byte 32 else a) (replace_nl s')
  end.

Definition truncateForReason (b : string) (n : N) : string :=
  let s := replace_nl (TrimSpace b) in
  if (n <? N.of_nat (len s))%N then take_bytes (N.to_nat n) s +:+ bytes [226; 128; 166] else s.

(** ** One round trip *)

(** A response: its status, the bytes of its body that arrive, and the error
    that ends them, if one does. *)
Record reply := MkReply { rp_Status : Z; rp_Body : string; rp_Err : option string }.

(** What the recorder holds: the last status and the head of its body. *)
Record planRecorder := MkRecorder { pr_status : Z; pr_body : string }.

Definition PlanRawBodyLimit : N := 65536.

(** [io.ReadAll(io.LimitReader(body, n))]. *)
Definition read_limited (n : N) (r : reply) : string * option string :=
  (limit_bytes n (rp_Body r), if (N.of_nat (len (rp_Body r)) <? n)%N then rp_Err r else None).

(** [planRecordingTransport.RoundTrip], on what the inner transport gave. A body
    that breaks off within the limit reaches the reader cut short, without its
    error. *)
Definition RoundTrip (inner : reply + string) (rec : planRecorder)
    : (reply + string) * planRecorder :=
  match inner with
  | inr err => (inr err, rec)
  | inl r =>
    let head := read_limited PlanRawBodyLimit r in
    match head.2 with
    | Some _ => (inl (MkReply (rp_Status r) head.1 None), MkRecorder (rp_Status r) head.1)
    | None => (inl r, MkRecorder (rp_Status r) head.1)
    end
  end.

Definition body_limit : N := 1048576.
Definition no_record : planRecorder := MkRecorder 0 "".

(** ** Claude *)

Record claudeOAuthMoney := MkCMoney {
  om_AmountMinor : option Z; om_Exponent : option Z; om_Currency : string }.
Record claudeOAuthSpend := MkCSpend {
  os_Used : option claudeOAuthMoney; os_Limit : option claudeOAuthMoney;
  os_Percent : option float64; os_Enabled : option bool; os_Balance : option claudeOAuthMoney }.
Record claudeOAuthExtraUsage := MkCExtra { ox_SpendLimitReached : option bool }.
Record claudeScopeModel := MkCModel { om_ID : option string; om_DisplayName : string }.
(** [ol_Scope] is [Scope], a pointer to a structure with a pointer [Model]. *)
Record claudeOAuthLimit := MkCLimit {
  ol_Kind : string; ol_Group : string; ol_Percent : option float64;
  ol_ResetsAt : option string; ol_Scope : option (option claudeScopeModel) }.
Record claudeOAuthWindow := MkCWindow {
  ow_Utilization : option float64; ow_ResetsAt : option string }.
Record claudeOAuthUsage := MkCUsage {
  ou_FiveHour : option claudeOAuthWindow; ou_SevenDay : option claudeOAuthWindow;
  ou_Limits : list claudeOAuthLimit; ou_Spend : option claudeOAuthSpend;
  ou_ExtraUsage : option claudeOAuthExtraUsage }.

Definition claudeScopedWeeklyKind : string := "weekly_scoped".
Definition claudeOAuthTokenEnv : string := "CLAUDIA_CLAUDE_OAUTH_TOKEN".

Section Claude.
Context {SC : Scan}.

(** The reset time of a window: a text that parses in either layout. *)
Definition parse_reset (resets : option string) : option Time :=
  match resets with
  | None => None
  | Some s =>
    if decide (TrimSpace s = "") then None
    else match parse_time RFC3339Nano s with
         | Some t => Some t
         | None => parse_time RFC3339 s
         end
  end.

Definition mapClaudeWindow (name : string) (w : option claudeOAuthWindow) : option PlanWindow :=
  match w with
  | Some w =>
    match ow_Utilization w with
    | Some used =>
      Some (MkWindow "" None name (Some used) (Some (remainingFromUsed used))
              (parse_reset (ow_ResetsAt w))
              (if decide (name = PlanWindowSession) then 5 * Hour
               else if decide (name = PlanWindowWeekly) then 7 * 24 * Hour else 0%Z) "")
    | None => None
    end
  | None => None
  end.

(** One entry of [limits], when it is a model's weekly allowance. *)
Definition claude_model_window (l : claudeOAuthLimit) : option PlanWindow :=
  if negb (bool_decide (ol_Kind l = claudeScopedWeeklyKind)) then None
  else
    match ol_Percent l, ol_Scope l with
    | Some used, Some (Some m) =>
      let name := TrimSpace (om_DisplayName m) in
      if decide (name = "") then None
      else Some (MkWindow "" None PlanWindowModelWeekly (Some used) (Some (remainingFromUsed used))
                   (parse_reset (ol_ResetsAt l)) (7 * 24 * Hour) name)
    | _, _ => None
    end.

Definition claudeModelWindows (limits : list claudeOAuthLimit) : list PlanWindow :=
  omap claude_model_window limits.

Definition mapClaudeMoney (m : option claudeOAuthMoney) : option PlanMoney :=
  match m with
  | Some m =>
    (fun a => MkMoney a (default 2%Z (om_Exponent m)) (om_Currency m)) <$> om_AmountMinor m
  | None => None
  end.

Definition mapClaudeSpend (spend : option claudeOAuthSpend) (extra : option claudeOAuthExtraUsage)
    : option PlanSpend :=
  (fun s => MkSpend (default false (os_Enabled s)) (mapClaudeMoney (os_Used s))
              (mapClaudeMoney (os_Limit s)) (os_Percent s)
              (default false (extra ≫= ox_SpendLimitReached)) (mapClaudeMoney (os_Balance s)))
    <$> spend.

Definition parseClaudeOAuthUsage (raw : claudeOAuthUsage + string) (now : Time) : PlanUsage :=
  match raw with
  | inr err => unavailablePlan ProviderClaude now ("Claude usage JSON invalid: " +:+ err)
  | inl raw =>
    let windows := option_list (mapClaudeWindow PlanWindowSession (ou_FiveHour raw))
                     ++ option_list (mapClaudeWindow PlanWindowWeekly (ou_SevenDay raw))
                     ++ claudeModelWindows (ou_Limits raw) in
    let some := bool_decide (windows <> []) in
    MkPlanUsage ProviderClaude (if some then PlanUsageAvailable else PlanUsageUnavailable)
      (if some then "" else "Claude OAuth usage response published no session/weekly windows")
      windows now "" 0 "" None (mapClaudeSpend (ou_Spend raw) (ou_ExtraUsage raw))
  end.

(** What a Claude query finds on the host: the caller's token and source, the
    environment's token and the one of the plan store; and the vendor's side:
    whether the request can be built, and what a token's request brings. *)
Record claude_side := MkClaudeSide {
  cs_AccessToken : string; cs_TokenSource : option (string + string); cs_Env : string;
  cs_Store : option string; cs_Build : option string; cs_Reply : string -> reply + string;
  cs_Decode : string -> claudeOAuthUsage + string }.

Definition loadClaudeOAuthAccessToken : string + string :=
  inr ("claude keychain probe removed; set " +:+ claudeOAuthTokenEnv).

(** The token a query uses, and whether the caller's source gave it; or the
    reason there is none. *)
Definition claude_token (s : claude_side) : (string * bool) + string :=
  let token := TrimSpace (cs_AccessToken s) in
  match (if decide (token = "") then cs_TokenSource s else None) with
  | Some (inr err) => inr ("Claude usage credential source unavailable: " +:+ err)
  | Some (inl t) =>
    if decide (TrimSpace t = "")
    then inr "Claude usage credential source returned an empty token (agent login health is unchanged)"
    else inl (TrimSpace t, true)
  | None =>
    let token := if decide (token = "") then TrimSpace (cs_Env s) else token in
    let token := if decide (token = "") then default "" (cs_Store s) else token in
    match (if decide (token = "") then loadClaudeOAuthAccessToken else inl token) with
    | inr err => inr ("Claude OAuth credentials unavailable: " +:+ err)
    | inl token =>
      if decide (token = "")
      then inr ("Claude OAuth access token empty; run " +:+ bytes [96] +:+ "claude" +:+ bytes [96]
                +:+ " login or set " +:+ claudeOAuthTokenEnv)
      else inl (token, false)
    end
  end.

(** What the status and the body of a response come to. *)
Definition claude_answer (s : claude_side) (fromSource : bool) (now : Time) (r : reply) : PlanUsage :=
  match read_limited body_limit r with
  | (_, Some err) => unavailablePlan ProviderClaude now ("Claude usage read failed: " +:+ err)
  | (body, None) =>
    if negb (rp_Status r =? 200)%Z then
      if fromSource && ((rp_Status r =? 401)%Z || (rp_Status r =? 403)%Z) then
        unavailablePlan ProviderClaude now
          ("Claude usage HTTP " +:+ itoa (rp_Status r)
           +:+ ": usage endpoint rejected the supplied subscription credential (agent login health is unchanged)")
      else
        unavailablePlan ProviderClaude now
          ("Claude usage HTTP " +:+ itoa (rp_Status r) +:+ ": " +:+ truncateForReason body 200)
    else parseClaudeOAuthUsage (cs_Decode s body) now
  end.

Definition queryClaudePlanUsage (s : claude_side) (now : Time)
    : (PlanUsage + string) * planRecorder :=
  match claude_token s with
  | inr why => (inl (unavailablePlan ProviderClaude now why), no_record)
  | inl (token, fromSource) =>
    match cs_Build s with
    | Some err => (inr err, no_record)
    | None =>
      match RoundTrip (cs_Reply s token) no_record with
      | (inr err, rec) =>
        (inl (unavailablePlan ProviderClaude now ("Claude usage fetch failed: " +:+ err)), rec)
      | (inl r, rec) => (inl (claude_answer s fromSource now r), rec)
      end
    end
  end.
End Claude.

(** ** Codex *)

Record codexCredits := MkXCredits {
  xc_HasCredits : bool; xc_Unlimited : bool; xc_OverageLimitReached : bool; xc_Balance : float64 }.
Record codexIndividualLimit := MkXIndividual { xi_Limit : string; xi_Used : string; xi_UsedPct : Z }.
Record codexSpendControl := MkXSpend {
  xs_Reached : bool; xs_IndividualLimit : option codexIndividualLimit }.
Record codexRateLimitReachedType := MkXReached { xr_Kind : string }.
Record codexLimitWindow := MkXWindow {
  xw_UsedPercent : option float64; xw_LimitWindowSeconds : Z; xw_ResetAfterSeconds : Z;
  xw_ResetAt : option Z }.
Record codexRateLimit := MkXRate {
  xl_Allowed : bool; xl_LimitReached : bool; xl_PrimaryWindow : option codexLimitWindow;
  xl_SecondaryWindow : option codexLimitWindow }.
Record codexWhamUsage := MkXUsage {
  xu_PlanType : string; xu_RateLimit : option codexRateLimit; xu_Credits : option codexCredits;
  xu_SpendControl : option codexSpendControl;
  xu_RateLimitReachedType : option codexRateLimitReachedType }.

Definition codexAccountCreditsPerAUDMajor : float64 := F.q 1 100.

Definition codexCreditsToAUDMoney (credits : float64) : PlanMoney :=
  let credits := if F.ltb credits F.zero then F.zero else credits in
  let aud := F.mul credits codexAccountCreditsPerAUDMajor in
  let minor := F.to_int64 (F.mul aud hundred) in
  MkMoney (if (minor <? 0)%Z then 0%Z else minor) 2 "AUD".

(** The name a window gets among those of [seen]: [None] when it is left out. *)
Definition codex_name (seen : list string) (secs : Z) : option string :=
  let name := classifyCodexWindow secs in
  if contains seen name then
    if (0 <? secs)%Z then
      let name := itoa secs +:+ "s" in
      if contains seen name then None else Some name
    else None
  else Some name.

(** The closure [add]: the windows so far carry the names seen. *)
Definition codex_add (windows : list PlanWindow) (w : option codexLimitWindow) : list PlanWindow :=
  match w with
  | Some w =>
    match xw_UsedPercent w, codex_name (w_Name <$> windows) (xw_LimitWindowSeconds w) with
    | Some used, Some name =>
      let secs := xw_LimitWindowSeconds w in
      windows ++ [MkWindow "" None name (Some used) (Some (remainingFromUsed used))
                    (match xw_ResetAt w with
                     | Some at_ => if (0 <? at_)%Z then Some (Unix at_) else None
                     | None => None
                     end)
                    (if (0 <? secs)%Z then wrap64 (secs * Second) else 0%Z) ""]
    | _, _ => windows
    end
  | None => windows
  end.

(** The login file of Codex: the token and the account, or why there is none. *)
Record codexAuthFile := MkXAuth { xa_Tokens : option (string * string) }.

Definition loadCodexChatGPTTokens (path : string) (file : codexAuthFile + string)
    : (string * string) + string :=
  match file with
  | inr err => inr err
  | inl a =>
    match xa_Tokens a with
    | Some (token, account) =>
      if decide (token = "")
      then inr (path +:+ " has no tokens.access_token (ChatGPT login required)")
      else inl (token, account)
    | None => inr (path +:+ " has no tokens.access_token (ChatGPT login required)")
    end
  end.

Record codex_side := MkCodexSide {
  xd_AccessToken : string; xd_AccountID : string; xd_EnvToken : string; xd_EnvAccount : string;
  xd_Path : string; xd_File : codexAuthFile + string; xd_Build : option string;
  xd_Reply : string -> string -> reply + string; xd_Decode : string -> codexWhamUsage + string }.

Section Codex.
Context {SC : Scan}.

Definition mapCodexOverageSpend (sc : option codexSpendControl) (credits : option codexCredits)
    (reached : option codexRateLimitReachedType) : option PlanSpend :=
  match sc with
  | Some sc =>
    match xs_IndividualLimit sc with
    | Some lim =>
      match parse_float (TrimSpace (xi_Used lim)), parse_float (TrimSpace (xi_Limit lim)) with
      | Some used, Some limit =>
        Some (MkSpend true (Some (codexCreditsToAUDMoney used)) (Some (codexCreditsToAUDMoney limit))
                (if (0 <? xi_UsedPct lim)%Z then Some (F.of_Z (xi_UsedPct lim)) else None)
                (xs_Reached sc
                 || match credits with Some c => xc_OverageLimitReached c | None => false end
                 || match reached with
                    | Some r => negb (bool_decide (TrimSpace (xr_Kind r) = ""))
                    | None => false
                    end) None)
      | _, _ => None
      end
    | None => None
    end
  | None => None
  end.

Definition parseCodexWhamUsage (raw : codexWhamUsage + string) (now : Time) : PlanUsage :=
  match raw with
  | inr err => unavailablePlan ProviderCodex now ("Codex usage JSON invalid: " +:+ err)
  | inl raw =>
    let none := "Codex usage response published no rate-limit windows" in
    match xu_RateLimit raw with
    | None => MkPlanUsage ProviderCodex PlanUsageUnavailable none [] now (xu_PlanType raw) 0 "" None None
    | Some rl =>
      let windows := codex_add (codex_add [] (xl_PrimaryWindow rl)) (xl_SecondaryWindow rl) in
      let some := bool_decide (windows <> []) in
      MkPlanUsage ProviderCodex (if some then PlanUsageAvailable else PlanUsageUnavailable)
        (if some then "" else none) windows now (xu_PlanType raw) 0 "" None
        (mapCodexOverageSpend (xu_SpendControl raw) (xu_Credits raw) (xu_RateLimitReachedType raw))
    end
  end.

(** The token and the account, from the caller, the environment or the file. *)
Definition codex_token (s : codex_side) : (string * string) + string :=
  let token := TrimSpace (xd_AccessToken s) in
  let account := TrimSpace (xd_AccountID s) in
  let token := if decide (token = "") then TrimSpace (xd_EnvToken s) else token in
  let account := if decide (account = "") then TrimSpace (xd_EnvAccount s) else account in
  if decide (token = "") then
    match loadCodexChatGPTTokens (xd_Path s) (xd_File s) with
    | inr err => inr ("Codex ChatGPT credentials unavailable: " +:+ err)
    | inl (t, a) =>
      if decide (t = "")
      then inr "Codex access token empty; sign in with Codex CLI or set CLAUDIA_CODEX_ACCESS_TOKEN"
      else inl (t, if decide (account = "") then a else account)
    end
  else inl (token, account).

Definition codex_answer (s : codex_side) (now : Time) (r : reply) : PlanUsage :=
  match read_limited body_limit r with
  | (_, Some err) => unavailablePlan ProviderCodex now ("Codex usage read failed: " +:+ err)
  | (body, None) =>
    if negb (rp_Status r =? 200)%Z then
      unavailablePlan ProviderCodex now
        ("Codex usage HTTP " +:+ itoa (rp_Status r) +:+ ": " +:+ truncateForReason body 200)
    else parseCodexWhamUsage (xd_Decode s body) now
  end.

Definition queryCodexPlanUsage (s : codex_side) (now : Time) : (PlanUsage + string) * planRecorder :=
  match codex_token s with
  | inr why => (inl (unavailablePlan ProviderCodex now why), no_record)
  | inl (token, account) =>
    match xd_Build s with
    | Some err => (inr err, no_record)
    | None =>
      match RoundTrip (xd_Reply s token account) no_record with
      | (inr err, rec) =>
        (inl (unavailablePlan ProviderCodex now ("Codex usage fetch failed: " +:+ err)), rec)
      | (inl r, rec) => (inl (codex_answer s now r), rec)
      end
    end
  end.
End Codex.

(** ** Cursor *)

(** A [json.RawMessage] that may hold a time: absent or [null], a string, a
    number with its int64 value if it has one, or anything else. *)
Inductive raw_time :=
  | RawAbsent
  | RawString (s : string)
  | RawNumber (ms : option Z)
  | RawOther.

Record cursorPlanUsage := MkUPlan {
  up_TotalPercentUsed : option float64; up_AutoPercentUsed : option float64;
  up_APIPercentUsed : option float64; up_Limit : option Z }.
Record cursorPeriodUsage := MkUUsage {
  uu_BillingCycleStart : raw_time; uu_BillingCycleEnd : raw_time;
  uu_PlanUsage : option cursorPlanUsage; uu_MembershipType : string; uu_PlanType : string }.

Definition percent_out (used : float64) : bool := F.ltb used F.zero || F.ltb hundred used.

(** The window of named models, from the plan's own. *)
Definition cursorAPIWindow (used : option float64) (base : PlanWindow) : option PlanWindow :=
  match used with
  | Some u =>
    if percent_out u then None
    else Some (MkWindow (w_Band base) (w_Pressure base) PlanWindowAPI (Some u)
                 (Some (remainingFromUsed u)) (w_ResetsAt base) (w_LimitWindow base) "API")
  | None => None
  end.

Record cursor_side := MkCursorSide {
  ud_Raw : option string; ud_AccessToken : string; ud_EnvToken : string; ud_File : string + string;
  ud_Build : option string; ud_Reply : string -> reply + string;
  ud_Decode : string -> cursorPeriodUsage + string }.

Section Cursor.
Context {SC : Scan}.

Definition positive_ms (ms : option Z) : option Time :=
  match ms with
  | Some ms => if (0 <? ms)%Z then Some (UnixMilli ms) else None
  | None => None
  end.

Definition parseCursorTime (raw : raw_time) : option Time :=
  match raw with
  | RawAbsent | RawOther => None
  | RawString s =>
    if decide (TrimSpace s = "") then None
    else match parse_time RFC3339Nano s with
         | Some t => Some t
         | None => match parse_time RFC3339 s with
                   | Some t => Some t
                   | None => positive_ms (sscan_int64 s)
                   end
         end
  | RawNumber ms => positive_ms ms
  end.

Definition parseCursorPeriodUsage (raw : cursorPeriodUsage + string) (now : Time) : PlanUsage :=
  match raw with
  | inr err => unavailablePlan ProviderCursor now ("cursor usage: unparseable response: " +:+ err)
  | inl r =>
    match uu_PlanUsage r ≫= up_TotalPercentUsed with
    | None =>
      unavailablePlan ProviderCursor now
        "cursor usage: response carries no planUsage.totalPercentUsed (private surface may have changed)"
    | Some used =>
      if percent_out used then
        unavailablePlan ProviderCursor now
          ("cursor usage: totalPercentUsed " +:+ format_2f used +:+ " is outside 0"
           +:+ bytes [226; 128; 147] +:+ "100 (surface may have changed)")
      else
        let stop := parseCursorTime (uu_BillingCycleEnd r) in
        let limit := match parseCursorTime (uu_BillingCycleStart r), stop with
                     | Some start, Some stop => if (start <? stop)%Z then Sub stop start else 0%Z
                     | _, _ => 0%Z
                     end in
        let w := MkWindow "" None PlanWindowWeekly (Some used) (Some (remainingFromUsed used))
                   stop limit "" in
        MkPlanUsage ProviderCursor PlanUsageAvailable ""
          (w :: option_list (cursorAPIWindow (uu_PlanUsage r ≫= up_APIPercentUsed) w)) now
          (if decide (uu_MembershipType r = "") then uu_PlanType r else uu_MembershipType r)
          0 "" None None
    end
  end.

(** The body of a response, or why there is none. *)
Definition fetchCursorPeriodUsage (s : cursor_side) : (string + string) * planRecorder :=
  let tok := TrimSpace (ud_AccessToken s) in
  let tok := if decide (tok = "") then TrimSpace (ud_EnvToken s) else tok in
  match (if decide (tok = "") then ud_File s else inl tok) with
  | inr err => (inr err, no_record)
  | inl tok =>
    if decide (tok = "")
    then (inr "no access token (set CURSOR_API_KEY, PlanUsageArgs.CursorAccessToken, or sign in to Cursor)",
          no_record)
    else
      match ud_Build s with
      | Some err => (inr err, no_record)
      | None =>
        match RoundTrip (ud_Reply s tok) no_record with
        | (inr err, rec) => (inr err, rec)
        | (inl r, rec) =>
          if negb (rp_Status r =? 200)%Z
          then (inr ("HTTP " +:+ itoa (rp_Status r) +:+ " (token may be expired " +:+ bytes [226; 128; 148]
                     +:+ " run " +:+ bytes [96] +:+ "agent login" +:+ bytes [96] +:+ ")"), rec)
          else (inl (read_limited body_limit r).1, rec)
        end
      end
  end.

Definition queryCursorPlanUsage (s : cursor_side) (now : Time) : PlanUsage * planRecorder :=
  match ud_Raw s with
  | Some raw => (parseCursorPeriodUsage (ud_Decode s raw) now, no_record)
  | None =>
    match fetchCursorPeriodUsage s with
    | (inr err, rec) => (unavailablePlan ProviderCursor now ("cursor usage: " +:+ err), rec)
    | (inl raw, rec) => (parseCursorPeriodUsage (ud_Decode s raw) now, rec)
    end
  end.
End Cursor.

(** ** Grok *)

Definition grokWeeklyPeriod : string := "USAGE_PERIOD_TYPE_WEEKLY".
Definition grokRefreshWindow : Duration := 10 * Minute.

(** [grokBillingConfig], its inner structures flattened; a money value is its
    [Val]. *)
Record grokBillingConfig := MkGBilling {
  gb_CreditUsagePercent : option float64; gb_PeriodType : string; gb_PeriodStart : string;
  gb_PeriodEnd : string; gb_OnDemandCap : option Z; gb_OnDemandUsed : option Z;
  gb_BillingPeriodEnd : string; gb_SubscriptionTier : string }.

Definition mapGrokOnDemandSpend (cap used : option Z) : option PlanSpend :=
  match cap with
  | None => None
  | Some cap =>
    if (cap <=? 0)%Z then None
    else
      let usedMinor := default 0%Z used in
      if (usedMinor <=? 0)%Z then None
      else
        let pct := clamp_percent (F.mul (F.div (F.of_Z usedMinor) (F.of_Z cap)) hundred) in
        Some (MkSpend true (Some (MkMoney usedMinor 2 "AUD")) (Some (MkMoney cap 2 "AUD"))
                (Some pct) false None)
  end.

(** [refreshGate.allow]: the gate is the time of the last rotation. *)
Definition gate_allow (last now : Time) : bool * Time :=
  if negb (IsZero last) && (Sub now last <? grokRefreshWindow)%Z then (false, last) else (true, now).

(** [loadGrokToken], on the keys of the login file in the order the range over
    the map takes. *)
Definition loadGrokToken (file : list (option string) + string) : string + string :=
  match file with
  | inr err => inr err
  | inl keys =>
    match List.find (fun k => (200 <? len k)%nat) (omap id keys) with
    | Some k => inl k
    | None => inr ("no access token in grok auth.json (run " +:+ bytes [96] +:+ "grok login"
                   +:+ bytes [96] +:+ ")")
    end
  end.

Definition errGrokCLIRefreshRemoved : string := "grok token refresh: headless CLI turn removed".

(** What a Grok query finds: the caller's token, its source, the login file
    before and after a rotation, the caller's rotation ([None] when it gives
    none; it may fail), what a token's requests bring, the first and the one
    after a rotation, and the time at the gate: the caller's, or the clock's. *)
Record grok_side := MkGrokSide {
  gs_Raw : option string; gs_AccessToken : string; gs_TokenSource : option (string + string);
  gs_File : list (option string) + string; gs_FileAfter : list (option string) + string;
  gs_RefreshDisabled : bool; gs_TokenRefresh : option (option string);
  gs_Reply : string -> reply + string; gs_ReplyAfter : string -> reply + string;
  gs_Decode : string -> grokBillingConfig + string; gs_Now : Time }.

Section Grok.
Context {SC : Scan}.

Definition parseGrokBilling (raw : grokBillingConfig + string) (now : Time) : PlanUsage :=
  match raw with
  | inr err => unavailablePlan ProviderGrok now ("grok billing: unparseable response: " +:+ err)
  | inl r =>
    match (match gb_CreditUsagePercent r with
           | Some used => Some used
           | None => if decide (gb_PeriodType r = grokWeeklyPeriod) then Some F.zero else None
           end) with
    | None =>
      unavailablePlan ProviderGrok now
        "grok billing: response carries no creditUsagePercent (private surface may have changed)"
    | Some used =>
      if percent_out used then
        unavailablePlan ProviderGrok now
          ("grok billing: creditUsagePercent " +:+ format_2f used +:+ " is outside 0"
           +:+ bytes [226; 128; 147] +:+ "100 (surface may have changed)")
      else
        let stop := if decide (gb_PeriodEnd r = "") then gb_BillingPeriodEnd r else gb_PeriodEnd r in
        let w := MkWindow "" None PlanWindowWeekly (Some used) (Some (remainingFromUsed used))
                   (if decide (stop = "") then None else parse_time RFC3339 stop) (7 * 24 * Hour) "" in
        MkPlanUsage ProviderGrok PlanUsageAvailable "" [w] now (gb_SubscriptionTier r) 0 "" None
          (mapGrokOnDemandSpend (gb_OnDemandCap r) (gb_OnDemandUsed r))
    end
  end.

(** The first token, and whether the broker's source gave it. *)
Definition grok_token (s : grok_side) : (string * bool) + string :=
  match (if decide (gs_AccessToken s = "") then gs_TokenSource s else None) with
  | Some (inr err) => inr ("broker Grok billing credential unavailable: " +:+ err
                           +:+ "; recover the Grok subscription login in Claudia")
  | Some (inl t) =>
    if decide (t = "")
    then inr "broker Grok billing credential is empty; recover the Grok subscription login in Claudia"
    else inl (t, true)
  | None =>
    if decide (gs_AccessToken s = "") then
      match loadGrokToken (gs_File s) with
      | inr err => inr err
      | inl t => inl (t, false)
      end
    else inl (gs_AccessToken s, false)
  end.

(** [grokBillingGET]. A read of the body that fails leaves what was read. *)
Definition grokBillingGET (inner : reply + string) (rec : planRecorder)
    : ((Z * string) + string) * planRecorder :=
  match RoundTrip inner rec with
  | (inr err, rec) => (inr err, rec)
  | (inl r, rec) => (inl (rp_Status r, (read_limited body_limit r).1), rec)
  end.

(** The second request, after the token was rotated. *)
Definition grok_rotate (s : grok_side) (tok : string) (rec : planRecorder)
    : (string + string) * planRecorder :=
  match default (Some errGrokCLIRefreshRemoved) (gs_TokenRefresh s) with
  | Some rerr =>
    (inr ("HTTP 401; token rotation via a grok one-shot failed: " +:+ rerr +:+ " (run "
          +:+ bytes [96] +:+ "grok login" +:+ bytes [96] +:+ ")"), rec)
  | None =>
    match (if decide (gs_AccessToken s = "") then loadGrokToken (gs_FileAfter s) else inl tok) with
    | inr lerr => (inr ("HTTP 401; token rotated but auth.json unreadable: " +:+ lerr), rec)
    | inl tok =>
      match grokBillingGET (gs_ReplyAfter s tok) rec with
      | (inr err, rec) => (inr err, rec)
      | (inl (status, body), rec) =>
        if negb (status =? 200)%Z
        then (inr ("HTTP " +:+ itoa status +:+ " after rotating the token (run " +:+ bytes [96]
                   +:+ "grok login" +:+ bytes [96] +:+ ")"), rec)
        else (inl body, rec)
      end
    end
  end.

(** [fetchGrokBilling], with the gate before and after. *)
Definition fetchGrokBilling (s : grok_side) (gate : Time)
    : ((string + string) * planRecorder) * Time :=
  match grok_token s with
  | inr err => ((inr err, no_record), gate)
  | inl (tok, brokerSource) =>
    match grokBillingGET (gs_Reply s tok) no_record with
    | (inr err, rec) => ((inr err, rec), gate)
    | (inl (status, body), rec) =>
      let again := (status =? 401)%Z && negb (gs_RefreshDisabled s) && negb brokerSource in
      let g := if again then gate_allow gate (gs_Now s) else (false, gate) in
      if g.1 then (grok_rotate s tok rec, g.2)
      else if negb (status =? 200)%Z then
        if brokerSource && (status =? 401)%Z
        then ((inr "HTTP 401: Grok billing rejected the broker subscription credential (agent login health is unchanged)", rec), g.2)
        else ((inr ("HTTP " +:+ itoa status +:+ " (token may be expired " +:+ bytes [226; 128; 148]
                    +:+ " run " +:+ bytes [96] +:+ "grok login" +:+ bytes [96] +:+ ")"), rec), g.2)
      else ((inl body, rec), g.2)
    end
  end.

Definition queryGrokPlanUsage (s : grok_side) (now : Time) (gate : Time)
    : (PlanUsage * planRecorder) * Time :=
  match gs_Raw s with
  | Some raw => ((parseGrokBilling (gs_Decode s raw) now, no_record), gate)
  | None =>
    match fetchGrokBilling s gate with
    | ((inr err, rec), gate) => ((unavailablePlan ProviderGrok now ("grok billing: " +:+ err), rec), gate)
    | ((inl raw, rec), gate) => ((parseGrokBilling (gs_Decode s raw) now, rec), gate)
    end
  end.
End Grok.
