(* ===== verification/PlanQuery.v ===== *)
(** * PlanQuery: asking a vendor through the floor

    Models [QueryPlanUsage] and [QueryAllPlanUsage] of [plan_usage.go] over the
    readers of [PlanRead], the floor and the carried readings of
    [PlanThrottle], and the ring of raw payloads of [plan_usage_raw_store.go].
    The state is what the files of the throttle directory hold, and the gate of
    Grok's token rotation. Which keys of a body no parser reads is an
    argument. *)

From S2P Require Import Prelude GoLib GoFloat PlanBand PlanThrottle Resolve PlanRead.

(** ** The ring of raw payloads *)

Definition PlanRawPayloadsPerProvider : nat := 8.

Record PlanRawPayload := MkPayload {
  py_Provider : string; py_FetchedAt : Time; py_HTTPStatus : Z; py_Body : string;
  py_UnmappedKeys : list string }.

Definition clean (e : PlanRawPayload) : bool := bool_decide (py_UnmappedKeys e = []).

(** Room for one more: the oldest payload that parsed cleanly goes, else the
    oldest. *)
Definition evictForPlanRawPayload (l : list PlanRawPayload) : list PlanRawPayload :=
  if (length l <? PlanRawPayloadsPerProvider)%nat then l
  else
    let drop_at := default 0 (index clean l) in
    take drop_at l ++ drop (S drop_at) l.

(** [RecordPlanRawPayload] on a provider's ring; [path_ok] and [write_ok] say
    whether the directory can be made and the file written. *)
Definition RecordPlanRawPayload (dir : string) (path_ok write_ok : bool)
    (unmapped : string -> string -> list string) (p : string) (at_ : Time) (status : Z)
    (body : string) (raw : gmap string (list PlanRawPayload)) : gmap string (list PlanRawPayload) :=
  if bool_decide (dir = "") || bool_decide (TrimSpace body = "") || negb path_ok then raw
  else
    let body := limit_bytes PlanRawBodyLimit body in
    let keys := if (200 <=? status)%Z && (status <? 300)%Z then unmapped p body else [] in
    let ring := evictForPlanRawPayload (default [] (raw !! p)) ++ [MkPayload p at_ status body keys] in
    if write_ok then <[p := ring]> raw else raw.

(** ** One query *)

Record PlanUsageArgs := MkArgs {
  qa_Provider : string; qa_Now : Time; qa_ThrottleDir : string; qa_Forced : bool }.

(** The state the queries of a host share. *)
Record planFiles := MkFiles {
  pf_Throttle : gmap string PlanThrottleEntry; pf_Readings : gmap string PlanUsage;
  pf_Raw : gmap string (list PlanRawPayload); pf_Gate : Time }.

(** What one query finds outside: the clock, whether the files can be reached
    and written, and the four vendors. *)
Record outside := MkOutside {
  ow_clock : Time; ow_path : bool; ow_record_path : bool; ow_throttle_write : bool;
  ow_raw_path : bool; ow_raw_write : bool; ow_readings_write : bool;
  ow_unmapped : string -> string -> list string;
  ow_claude : claude_side; ow_codex : codex_side; ow_grok : grok_side; ow_cursor : cursor_side }.

(** [PlanThrottledError], or any other error. *)
Inductive query_error :=
  | Throttled (p : string) (retryAt : Time) (reason : string)
  | QueryFailed (err : string).

Definition providerFetches (p : string) : bool := negb (bool_decide (p = ProviderBedrock)).

Definition bedrock_reason : string :=
  "AWS Bedrock does not publish Claude-style session/weekly subscription remaining; "
  +:+ "account quotas and spend limits are managed in AWS, not via this surface".

Definition with_response (u : PlanUsage) (rec : planRecorder) : PlanUsage :=
  MkPlanUsage (u_Provider u) (u_Status u) (u_Reason u) (u_Windows u) (u_FetchedAt u) (u_PlanType u)
    (pr_status rec) (pr_body rec) (u_Credits u) (u_Spend u).

Section Query.
Context {SC : Scan} {TF : ThrottleFormat}.

(** The closure [attach]: the response's status and body go on the reading, and
    a paced query leaves its marks. [None] is a panic. *)
Definition attach_response (a : PlanUsageArgs) (o : outside) (paced : bool) (now : Time)
    (fs : planFiles) (answer : (PlanUsage + string) * planRecorder)
    : option (planFiles * (PlanUsage + query_error)) :=
  match answer with
  | (inr err, _) => Some (fs, inr (QueryFailed err))
  | (inl u, rec) =>
    let u := with_response u rec in
    let p := qa_Provider a in
    if negb paced then Some (fs, inl u)
    else
      match RecordPlanAttempt (ow_record_path o) (ow_throttle_write o) p now (u_HTTPStatus u)
              (pf_Throttle fs) with
      | None => None
      | Some throttle =>
        Some (MkFiles throttle
                (savePlanLastReading (qa_ThrottleDir a) (ow_readings_write o) u (pf_Readings fs))
                (RecordPlanRawPayload (qa_ThrottleDir a) (ow_raw_path o) (ow_raw_write o)
                   (ow_unmapped o) p now (u_HTTPStatus u) (u_RawBody u) (pf_Raw fs))
                (pf_Gate fs),
              inl u)
      end
  end.

Definition paced (a : PlanUsageArgs) : bool :=
  negb (bool_decide (qa_ThrottleDir a = "")) && providerFetches (qa_Provider a).

Definition query_now (a : PlanUsageArgs) (o : outside) : Time :=
  if IsZero (qa_Now a) then ow_clock o else qa_Now a.

(** What the vendor of a provider is asked once the floor allows it. *)
Definition ask_vendor (a : PlanUsageArgs) (o : outside) (fs : planFiles)
    : option (planFiles * (PlanUsage + query_error)) :=
  let now := query_now a o in
  let p := qa_Provider a in
  let attach := attach_response a o (paced a) now in
  if decide (p = ProviderClaude) then attach fs (queryClaudePlanUsage (ow_claude o) now)
  else if decide (p = ProviderCodex) then attach fs (queryCodexPlanUsage (ow_codex o) now)
  else if decide (p = ProviderGrok) then
    let r := queryGrokPlanUsage (ow_grok o) now (pf_Gate fs) in
    attach (MkFiles (pf_Throttle fs) (pf_Readings fs) (pf_Raw fs) r.2) (inl r.1.1, r.1.2)
  else if decide (p = ProviderBedrock) then
    Some (fs, inl (unavailablePlan ProviderBedrock now bedrock_reason))
  else if decide (p = ProviderCursor) then
    let r := queryCursorPlanUsage (ow_cursor o) now in attach fs (inl r.1, r.2)
  else Some (fs, inr (QueryFailed ("unknown provider " +:+ bytes [34] +:+ p +:+ bytes [34]))).

Definition QueryPlanUsage (args : option PlanUsageArgs) (o : outside) (fs : planFiles)
    : option (planFiles * (PlanUsage + query_error)) :=
  match args with
  | None => Some (fs, inr (QueryFailed "PlanUsageArgs is required"))
  | Some a =>
    if decide (qa_Provider a = "") then Some (fs, inr (QueryFailed "Provider is required"))
    else
      let d := CheckPlanThrottle (ow_path o) (qa_Provider a) (query_now a o) (qa_Forced a)
                 (pf_Throttle fs) in
      if paced a && negb (pd_Allowed d)
      then Some (fs, inr (Throttled (qa_Provider a) (pd_RetryAt d) (pd_Reason d)))
      else ask_vendor a o fs
  end.

(** ** All providers *)

Record AllPlanUsageArgs := MkAll {
  qb_Providers : list string; qb_Now : Time; qb_ThrottleDir : string; qb_Forced : bool }.

Definition default_providers : list string :=
  [ProviderClaude; ProviderCodex; ProviderGrok; ProviderBedrock; ProviderCursor].

(** A reading published again, with the reason it was not asked for. *)
Definition carry (held : PlanUsage) (why : string) : PlanUsage :=
  MkPlanUsage (u_Provider held) (u_Status held)
    (if decide (u_Reason held = "") then why else u_Reason held +:+ "; " +:+ why)
    (u_Windows held) (u_FetchedAt held) (u_PlanType held) (u_HTTPStatus held) "" (u_Credits held)
    (u_Spend held).

(** The loop over the providers: [os] is what each query finds, [skipped] what
    [ThrottleSkipped] collects. *)
Fixpoint query_providers (b : AllPlanUsageArgs) (ps : list (string * outside)) (fs : planFiles)
    (skipped : gmap string string) (out : list PlanUsage)
    : option (planFiles * gmap string string * (list PlanUsage + string)) :=
  match ps with
  | [] => Some (fs, skipped, inl out)
  | (p, o) :: ps' =>
    match QueryPlanUsage (Some (MkArgs p (qb_Now b) (qb_ThrottleDir b) (qb_Forced b))) o fs with
    | None => None
    | Some (fs, inl u) => query_providers b ps' fs skipped (out ++ [u])
    | Some (fs, inr (Throttled _ _ why)) =>
      let out := match loadPlanLastReading (qb_ThrottleDir b) p (pf_Readings fs) with
                 | Some held => out ++ [carry held why]
                 | None => out
                 end in
      query_providers b ps' fs (<[p := why]> skipped) out
    | Some (fs, inr (QueryFailed err)) => Some (fs, skipped, inr err)
    end
  end.

(** [QueryAllPlanUsage]; [os n] is what the query of the [n]th provider finds. *)
Definition QueryAllPlanUsage (b : AllPlanUsageArgs) (os : nat -> outside) (fs : planFiles)
    : option (planFiles * gmap string string * (list PlanUsage + string)) :=
  let ps := if decide (qb_Providers b = []) then default_providers else qb_Providers b in
  query_providers b (zip ps (os <$> seq 0 (length ps))) fs ∅ [].
End Query.
