(* ===== verification/PlanQueryTheorems.v ===== *)
(** * PlanQueryTheorems: what a query of plan usage gives

    The properties of [PlanRead] and [PlanQuery]. *)

From S2P Require Import Prelude GoLib GoFloat PlanBand PlanThrottle Resolve PlanRead PlanQuery.

(** ** Well-formed readings *)

Definition good_window (w : PlanWindow) : Prop :=
  w_Name w <> ""
  /\ exists used, w_UsedPercent w = Some used
     /\ w_RemainingPercent w = Some (remainingFromUsed used)
     /\ (num used -> F.leb F.zero (remainingFromUsed used) = true
                     /\ F.leb (remainingFromUsed used) hundred = true).

(** The plan's own windows carry no model, and a window of a model says which. *)
Definition labelled (w : PlanWindow) : Prop :=
  (w_Model w = "" /\ w_Name w <> PlanWindowModelWeekly /\ w_Name w <> PlanWindowAPI)
  \/ (w_Name w = PlanWindowModelWeekly /\ w_Model w <> "")
  \/ (w_Name w = PlanWindowAPI /\ w_Model w = "API").

Definition plan_names (ws : list PlanWindow) : list string :=
  w_Name <$> List.filter (fun w => bool_decide (w_Model w = "")) ws.

(** Either a reading with windows and no reason, or a reason and no windows. *)
Definition tells (u : PlanUsage) : Prop :=
  (u_Status u = PlanUsageAvailable /\ u_Windows u <> [] /\ u_Reason u = "")
  \/ (u_Status u = PlanUsageUnavailable /\ u_Windows u = [] /\ u_Reason u <> "").

Definition wf_reading (p : string) (now : Time) (u : PlanUsage) : Prop :=
  u_Provider u = p /\ u_FetchedAt u = now /\ tells u
  /\ Forall (fun w => good_window w /\ labelled w) (u_Windows u)
  /\ NoDup (plan_names (u_Windows u)).

Lemma remaining_range used :
  num used -> F.leb F.zero (remainingFromUsed used) = true
              /\ F.leb (remainingFromUsed used) hundred = true.
Proof.
  intros Hn. unfold remainingFromUsed.
  assert (num (F.sub hundred used)) as Hr.
  { apply sub_num; [done|]. right. do 3 eexists. vm_compute. reflexivity. }
  assert (num F.zero) by done. assert (num hundred) by (vm_compute; reflexivity).
  destruct (F.ltb _ F.zero) eqn:A; [split; vm_compute; reflexivity|].
  destruct (F.ltb hundred _) eqn:B; [split; vm_compute; reflexivity|].
  split; float_order.
Qed.

Lemma good_of_used band press name used r l m :
  name <> "" ->
  good_window (MkWindow band press name (Some used) (Some (remainingFromUsed used)) r l m).
Proof. intros Hn. split; [done|]. exists used. split_and!; [done|done|apply remaining_range]. Qed.

Lemma wf_unavailable p now why : why <> "" -> wf_reading p now (unavailablePlan p now why).
Proof. intros H. split_and!; [done|done|by right|constructor|constructor]. Qed.

Lemma app_nonempty a s t : String a s +:+ t <> "".
Proof. discriminate. Qed.
(** The readers tell by whether any window was published. *)
Lemma tells_by_windows p why now pt ws st b cr sp :
  why <> "" ->
  tells (MkPlanUsage p (if bool_decide (ws <> []) then PlanUsageAvailable else PlanUsageUnavailable)
           (if bool_decide (ws <> []) then "" else why) ws now pt st b cr sp).
Proof. intros H. unfold tells. destruct ws; cbn; [right|left]; done. Qed.

#[local] Hint Resolve wf_unavailable app_nonempty good_of_used : claudia.

(** ** Each reader *)

Section Readers.
Context {SC : Scan}.

Lemma claude_window_plan name w pw :
  name = PlanWindowSession \/ name = PlanWindowWeekly ->
  mapClaudeWindow name w = Some pw -> good_window pw /\ labelled pw /\ w_Model pw = "" /\ w_Name pw = name.
Proof.
  intros Hn H. unfold mapClaudeWindow in H. destruct w as [w|]; [|done].
  destruct (ow_Utilization w); [|done]. injection H as <-.
  split_and!; [|left; split_and!; [done|..]|done|done].
  - apply good_of_used. by destruct Hn as [-> | ->].
  - cbn. by destruct Hn as [-> | ->].
  - cbn. by destruct Hn as [-> | ->].
Qed.

Lemma claude_model_windows_good limits :
  Forall (fun w => (good_window w /\ labelled w) /\ w_Model w <> "") (claudeModelWindows limits).
Proof.
  apply list.Forall_forall. intros w Hw. apply list_elem_of_omap in Hw as (l & _ & Hl).
  unfold claude_model_window in Hl. destruct (negb _); [done|].
  destruct (ol_Percent l), (ol_Scope l) as [[m|]|]; try done.
  case_decide as Hn; [done|]. injection Hl as <-.
  split_and!; [apply good_of_used; done|right; left; done|done].
Qed.

Lemma plan_names_app a b : plan_names (a ++ b) = plan_names a ++ plan_names b.
Proof. unfold plan_names. by rewrite List.filter_app, fmap_app. Qed.

Lemma plan_names_models ws : Forall (fun w => w_Model w <> "") ws -> plan_names ws = [].
Proof.
  unfold plan_names. induction 1 as [|w ws Hw Hws IH]; [done|]. cbn.
  by rewrite bool_decide_false.
Qed.

Lemma claude_reading raw now : wf_reading ProviderClaude now (parseClaudeOAuthUsage raw now).
Proof.
  unfold parseClaudeOAuthUsage. destruct raw as [raw|err]; [|auto with claudia].
  pose proof (claude_model_windows_good (ou_Limits raw)) as M.
  assert (forall name ow, name = PlanWindowSession \/ name = PlanWindowWeekly ->
            Forall (fun w => good_window w /\ labelled w) (option_list (mapClaudeWindow name ow))
            /\ (plan_names (option_list (mapClaudeWindow name ow)) = []
                \/ plan_names (option_list (mapClaudeWindow name ow)) = [name])) as W.
  { intros name ow Hn. destruct (mapClaudeWindow name ow) as [pw|] eqn:E; cbn; [|by split; [|left]].
    apply claude_window_plan in E as (G & L & Em & En); [|done]. split; [by constructor|right].
    unfold plan_names. cbn. rewrite bool_decide_true by done. cbn. by rewrite En. }
  destruct (W PlanWindowSession (ou_FiveHour raw)) as [W1 N1]; [by left|].
  destruct (W PlanWindowWeekly (ou_SevenDay raw)) as [W2 N2]; [by right|].
  split_and!; [done|done| | |].
  - by apply tells_by_windows.
  - apply Forall_app. split; [done|]. apply Forall_app. split; [done|].
    eapply List.Forall_impl; [|exact M]. by intros w [].
  - cbn [u_Windows]. rewrite !plan_names_app, (plan_names_models (claudeModelWindows _)).
    + destruct N1 as [-> | ->], N2 as [-> | ->]; cbn [app];
        refine (bool_decide_unpack _ _); vm_compute; exact I.
    + eapply List.Forall_impl; [|exact M]. by intros w [].
Qed.

Lemma last_byte s c : list.last (String.list_ascii_of_string (s +:+ String c "")) = Some c.
Proof.
  assert (String.list_ascii_of_string (s +:+ String c "") = String.list_ascii_of_string s ++ [c]) as ->.
  { induction s as [|a s IH]; [done|].
    change (String a s +:+ String c "") with (String a (s +:+ String c "")). cbn. by rewrite IH. }
  apply list.last_snoc.
Qed.

(** A name made of a number of seconds is none of the fixed ones. *)
Lemma seconds_name s x :
  In x [""; PlanWindowModelWeekly; PlanWindowAPI; PlanWindowSession; PlanWindowWeekly] ->
  s +:+ "s" <> x.
Proof.
  intros Hx E. pose proof (last_byte s (Ascii.ascii_of_nat 115)) as L.
  change (String (Ascii.ascii_of_nat 115) "") with "s" in L. rewrite E in L.
  destruct Hx as [<-|[<-|[<-|[<-|[<-|[]]]]]]; vm_compute in L; discriminate.
Qed.

Lemma classify_name secs :
  let n := classifyCodexWindow secs in n <> "" /\ n <> PlanWindowModelWeekly /\ n <> PlanWindowAPI.
Proof.
  cbn. unfold classifyCodexWindow. do 3 (destruct (_ <=? _)%Z; [done|]).
  split_and!; apply seconds_name; cbn; tauto.
Qed.

Lemma codex_name_spec seen secs name :
  codex_name seen secs = Some name ->
  name ∉ seen /\ name <> "" /\ name <> PlanWindowModelWeekly /\ name <> PlanWindowAPI.
Proof.
  unfold codex_name. destruct (contains seen (classifyCodexWindow secs)) eqn:C.
  - destruct (0 <? secs)%Z; [|done]. destruct (contains seen (itoa secs +:+ "s")) eqn:D; [done|].
    intros [= <-]. split; [by apply bool_decide_eq_false in D|].
    split_and!; apply seconds_name; cbn; tauto.
  - intros [= <-]. split; [by apply bool_decide_eq_false in C|apply classify_name].
Qed.

(** The windows of a Codex reading: each the plan's own, under its own name. *)
Definition codex_windows (ws : list PlanWindow) : Prop :=
  Forall (fun w => (good_window w /\ labelled w) /\ w_Model w = "") ws /\ NoDup (w_Name <$> ws).

Lemma codex_add_good ws w : codex_windows ws -> codex_windows (codex_add ws w).
Proof.
  intros [F N]. unfold codex_add. destruct w as [w|]; [|done].
  destruct (xw_UsedPercent w) as [used|]; [|done].
  destruct (codex_name _ _) as [name|] eqn:E; [|done].
  apply codex_name_spec in E as (Hs & H0 & H1 & H2). split.
  - apply Forall_app. split; [done|]. apply Forall_singleton.
    split_and!; [by apply good_of_used|by left|done].
  - rewrite fmap_app. apply list.NoDup_app. split_and!; [done| |apply list.NoDup_singleton].
    intros x Hx Hy. apply list_elem_of_singleton in Hy as ->. done.
Qed.

Lemma plan_names_own ws : Forall (fun w => w_Model w = "") ws -> plan_names ws = w_Name <$> ws.
Proof.
  unfold plan_names. induction 1 as [|w ws Hw Hws IH]; [done|]. cbn.
  rewrite bool_decide_true by done. cbn. by rewrite IH.
Qed.

Lemma codex_reading raw now : wf_reading ProviderCodex now (parseCodexWhamUsage raw now).
Proof.
  unfold parseCodexWhamUsage. destruct raw as [raw|err]; [|auto with claudia].
  destruct (xu_RateLimit raw) as [rl|]; [|split_and!; [done|done|by right|constructor|constructor]].
  assert (codex_windows (codex_add (codex_add [] (xl_PrimaryWindow rl)) (xl_SecondaryWindow rl)))
    as [F N].
  { do 2 apply codex_add_good. split; constructor. }
  split_and!; [done|done|by apply tells_by_windows| |].
  - eapply List.Forall_impl; [|exact F]. by intros w [].
  - cbn [u_Windows]. rewrite plan_names_own; [done|]. eapply List.Forall_impl; [|exact F]. by intros w [].
Qed.

Lemma cursor_reading raw now : wf_reading ProviderCursor now (parseCursorPeriodUsage raw now).
Proof.
  unfold parseCursorPeriodUsage. destruct raw as [r|err]; [|auto with claudia].
  destruct (uu_PlanUsage r ≫= up_TotalPercentUsed) as [used|]; [|auto with claudia].
  destruct (percent_out used); [auto with claudia|].
  unfold cursorAPIWindow. destruct (uu_PlanUsage r ≫= up_APIPercentUsed) as [u|];
    [destruct (percent_out u)|];
    (split_and!; [done|done|by left| |refine (bool_decide_unpack _ _); vm_compute; exact I]);
    repeat apply Forall_cons; repeat split; try apply Forall_nil; try done;
    try (by apply good_of_used); (by left) || (by right; right) || done.
Qed.

Lemma grok_reading raw now : wf_reading ProviderGrok now (parseGrokBilling raw now).
Proof.
  unfold parseGrokBilling. destruct raw as [r|err]; [|auto with claudia].
  destruct (match gb_CreditUsagePercent r with Some _ => _ | None => _ end) as [used|];
    [|auto with claudia].
  destruct (percent_out used); [auto with claudia|].
  split_and!; [done|done|by left| |refine (bool_decide_unpack _ _); vm_compute; exact I].
  apply Forall_singleton. split; [by apply good_of_used|by left].
Qed.

Lemma claude_token_reason c why : claude_token c = inr why -> why <> "".
Proof.
  unfold claude_token. cbv zeta.
  destruct (if decide (TrimSpace (cs_AccessToken c) = "") then _ else None) as [[t|err]|].
  - case_decide; [|done]. intros E. by injection E as <-.
  - by intros [= <-].
  - destruct (if decide (_ = "") then loadClaudeOAuthAccessToken else _) as [t|err]; [|by intros [= <-]].
    case_decide; [|done]. intros E. by injection E as <-.
Qed.

Lemma codex_token_reason c why : codex_token c = inr why -> why <> "".
Proof.
  unfold codex_token. cbv zeta. case_decide; [|done].
  destruct (loadCodexChatGPTTokens _ _) as [[t a]|err]; [|by intros [= <-]].
  destruct (decide (t = "")); [|done]. by intros [= <-].
Qed.

Lemma claude_query_reading c now u rec :
  queryClaudePlanUsage c now = (inl u, rec) -> wf_reading ProviderClaude now u.
Proof.
  unfold queryClaudePlanUsage. destruct (claude_token c) as [[t src]|why] eqn:T.
  - destruct (cs_Build c); [done|]. destruct (RoundTrip _ _) as [[r|err] rec'].
    + intros [= <- <-]. unfold claude_answer. destruct (read_limited _ _) as [body [err|]];
        [auto with claudia|]. destruct (negb _); [|apply claude_reading].
      destruct (src && _); auto with claudia.
    + intros [= <- <-]. auto with claudia.
  - intros [= <- <-]. by apply wf_unavailable, (claude_token_reason c).
Qed.

Lemma codex_query_reading c now u rec :
  queryCodexPlanUsage c now = (inl u, rec) -> wf_reading ProviderCodex now u.
Proof.
  unfold queryCodexPlanUsage. destruct (codex_token c) as [[t acc]|why] eqn:T.
  - destruct (xd_Build c); [done|]. destruct (RoundTrip _ _) as [[r|err] rec'].
    + intros [= <- <-]. unfold codex_answer. destruct (read_limited _ _) as [body [err|]];
        [auto with claudia|]. destruct (negb _); [auto with claudia|apply codex_reading].
    + intros [= <- <-]. auto with claudia.
  - intros [= <- <-]. by apply wf_unavailable, (codex_token_reason c).
Qed.

Lemma cursor_query_reading c now : wf_reading ProviderCursor now (queryCursorPlanUsage c now).1.
Proof.
  unfold queryCursorPlanUsage. destruct (ud_Raw c); [apply cursor_reading|].
  destruct (fetchCursorPeriodUsage c) as [[raw|err] rec]; [apply cursor_reading|].
  cbn. auto with claudia.
Qed.

Lemma grok_query_reading c now gate : wf_reading ProviderGrok now (queryGrokPlanUsage c now gate).1.1.
Proof.
  unfold queryGrokPlanUsage. destruct (gs_Raw c); [apply grok_reading|].
  destruct (fetchGrokBilling c gate) as [[[raw|err] rec] g]; [apply grok_reading|].
  cbn. auto with claudia.
Qed.

(** ** A query *)

Context {TF : ThrottleFormat}.

Lemma wf_with_response p now u rec : wf_reading p now u -> wf_reading p now (with_response u rec).
Proof. done. Qed.

(** The reading of a vendor, with its response attached; Bedrock has neither. *)
Lemma ask_vendor_spec a o fs fs' u :
  ask_vendor a o fs = Some (fs', inl u) ->
  (qa_Provider a = ProviderBedrock /\ fs' = fs
   /\ u = unavailablePlan ProviderBedrock (query_now a o) bedrock_reason)
  \/ exists u0 rec gate, wf_reading (qa_Provider a) (query_now a o) u0
     /\ attach_response a o (paced a) (query_now a o)
          (MkFiles (pf_Throttle fs) (pf_Readings fs) (pf_Raw fs) gate) (inl u0, rec) = Some (fs', inl u).
Proof.
  assert (fs = MkFiles (pf_Throttle fs) (pf_Readings fs) (pf_Raw fs) (pf_Gate fs)) as Efs by (by destruct fs).
  unfold ask_vendor. repeat case_decide; subst.
  - destruct (queryClaudePlanUsage _ _) as [[u0|err] rec] eqn:Q; [|done]. intros H'. right.
    exists u0, rec, (pf_Gate fs). rewrite <-Efs. split; [|done].
    rewrite H. by eapply claude_query_reading.
  - destruct (queryCodexPlanUsage _ _) as [[u0|err] rec] eqn:Q; [|done]. intros H'. right.
    exists u0, rec, (pf_Gate fs). rewrite <-Efs. split; [|done].
    match goal with E : qa_Provider a = ProviderCodex |- _ => rewrite E end. by eapply codex_query_reading.
  - intros H'. right. do 3 eexists. split; [|exact H'].
    match goal with E : qa_Provider a = ProviderGrok |- _ => rewrite E end. apply grok_query_reading.
  - intros [= <- <-]. by left.
  - intros H'. right. do 2 eexists. exists (pf_Gate fs). rewrite <-Efs. split; [|exact H'].
    match goal with E : qa_Provider a = ProviderCursor |- _ => rewrite E end. apply cursor_query_reading.
  - done.
Qed.

(** What [attach_response] leaves of the files. *)
Lemma attach_spec a o now fs u0 rec fs' u :
  attach_response a o (paced a) now fs (inl u0, rec) = Some (fs', inl u) ->
  u = with_response u0 rec
  /\ if paced a then
      exists thr, RecordPlanAttempt (ow_record_path o) (ow_throttle_write o) (qa_Provider a) now
                    (u_HTTPStatus u) (pf_Throttle fs) = Some thr
      /\ fs' = MkFiles thr
           (savePlanLastReading (qa_ThrottleDir a) (ow_readings_write o) u (pf_Readings fs))
           (RecordPlanRawPayload (qa_ThrottleDir a) (ow_raw_path o) (ow_raw_write o) (ow_unmapped o)
              (qa_Provider a) now (u_HTTPStatus u) (u_RawBody u) (pf_Raw fs)) (pf_Gate fs)
    else fs' = fs.
Proof.
  unfold attach_response. destruct (paced a); cbn [negb]; [|by intros [= <- <-]].
  destruct (RecordPlanAttempt _ _ _ _ _ _) as [thr|] eqn:R; [|done].
  intros [= <- <-]. split; [done|]. by exists thr.
Qed.

Lemma query_asks a o fs fs' u :
  QueryPlanUsage (Some a) o fs = Some (fs', inl u) ->
  qa_Provider a <> "" /\ ask_vendor a o fs = Some (fs', inl u).
Proof.
  unfold QueryPlanUsage. case_decide; [done|]. destruct (_ && _); [done|]. by split.
Qed.

Lemma query_reading a o fs fs' u :
  QueryPlanUsage (Some a) o fs = Some (fs', inl u) -> wf_reading (qa_Provider a) (query_now a o) u.
Proof.
  intros [_ [(-> & _ & ->)|(u0 & rec & gate & W & [-> _]%attach_spec)]%ask_vendor_spec]%query_asks;
    [|by apply wf_with_response].
  by apply wf_unavailable.
Qed.

(** The window a plan is judged by is never a model's. *)
Lemma primary_own p now u w :
  wf_reading p now u -> primaryAllowanceWindow u = Some w -> w_Model w = "".
Proof.
  intros (_ & _ & _ & F & _) H.
  assert (w ∈ u_Windows u /\ w_Name w <> PlanWindowModelWeekly /\ TrimSpace (w_Model w) = "") as (Hw & Hn & Hm).
  { unfold primaryAllowanceWindow, planLevelWindow in H.
    destruct (List.find _ _) as [w'|] eqn:E in H.
    - injection H as ->. apply List.find_some in E as [E1 E2]. apply andb_true_iff in E2 as [E2 E3].
      apply bool_decide_eq_true in E2, E3. split_and!; [by apply list_elem_of_In|by rewrite E2|done].
    - apply List.find_some in H as [E1 E2]. apply andb_true_iff in E2 as [E2 E3].
      apply bool_decide_eq_true in E3. apply negb_true_iff, orb_false_iff in E2 as [E2 _].
      apply orb_false_iff in E2 as [_ E2]. apply bool_decide_eq_false in E2.
      split_and!; [by apply list_elem_of_In|done|done]. }
  rewrite list.Forall_forall in F. destruct (F w Hw) as [_ [(? & _)|[(? & _)|(_ & E)]]]; [done|done|].
  exfalso. rewrite E in Hm. vm_compute in Hm. discriminate.
Qed.

(** ** The state *)

Definition saved_readings (fs : planFiles) : Prop :=
  forall p u, pf_Readings fs !! p = Some u -> exists t, wf_reading p t u.

Definition bounded_rings (fs : planFiles) : Prop :=
  forall p ring, pf_Raw fs !! p = Some ring -> length ring <= PlanRawPayloadsPerProvider.

Lemma index_lt {A} (p : A -> bool) l k : index p l = Some k -> (k < length l)%nat.
Proof.
  revert k. induction l as [|x l IH]; intros k; cbn; [done|].
  destruct (p x); [intros [= <-]; lia|]. destruct (index p l); [|done].
  intros [= <-]. specialize (IH _ eq_refl). lia.
Qed.

Lemma evict_length l : length l <= 8 -> length (evictForPlanRawPayload l) <= 7.
Proof.
  intros H. unfold evictForPlanRawPayload, PlanRawPayloadsPerProvider.
  destruct (length l <? 8)%nat eqn:E; [apply Nat.ltb_lt in E; lia|apply Nat.ltb_ge in E].
  set (k := default 0 _). assert (k < length l)%nat as Hk.
  { unfold k. destruct (index clean l) eqn:I; cbn; [by eapply index_lt|lia]. }
  rewrite length_app, length_take, length_drop. lia.
Qed.

Lemma record_ring_bounded dir po wo un p at_ st body raw q ring :
  (forall q ring, raw !! q = Some ring -> length ring <= 8) ->
  RecordPlanRawPayload dir po wo un p at_ st body raw !! q = Some ring -> length ring <= 8.
Proof.
  intros B. unfold RecordPlanRawPayload. destruct (_ || _); [apply B|]. destruct wo; [|apply B].
  rewrite lookup_insert_Some. intros [[<- <-]|[_ H]]; [|by eapply B].
  rewrite length_app. cbn. enough (length (evictForPlanRawPayload (default [] (raw !! p))) <= 7) by lia.
  apply evict_length. destruct (raw !! p) eqn:E; cbn; [by eapply B|lia].
Qed.

Lemma wf_drop_body p t u : wf_reading p t u -> wf_reading p t (drop_body u).
Proof. done. Qed.
End Readers.

(** C20: whatever a vendor answers, a reading is of the provider asked and of
    the time it was asked; it has windows and no reason, or a reason and no
    windows; what is left of a window is between 0 and 100 percent; no two of
    the plan's own windows have one name, and no model's window is taken for
    the plan's. The readings carried on disk stay of that form, each under its
    provider, and a ring of raw payloads never outgrows its eight places. *)
Theorem readings_are_well_formed `{Scan, ThrottleFormat} a o fs fs' u :
  QueryPlanUsage (Some a) o fs = Some (fs', inl u) ->
  wf_reading (qa_Provider a) (query_now a o) u
  /\ (forall w, primaryAllowanceWindow u = Some w -> w_Model w = "")
  /\ (saved_readings fs -> saved_readings fs')
  /\ (bounded_rings fs -> bounded_rings fs').
Proof.
  intros Q. pose proof (query_reading _ _ _ _ _ Q) as W. split_and!; [done|intros w; by apply (primary_own _ _ _ _ W)|..].
  - intros S. apply query_asks in Q as [_ Q].
    apply ask_vendor_spec in Q as [(_ & -> & _)|(u0 & rec & g & _ & [_ E]%attach_spec)]; [done|].
    destruct (paced a); [|by subst].
    destruct E as (thr & _ & ->). intros p v. cbn. unfold savePlanLastReading.
    destruct (_ || _); [apply S|]. rewrite lookup_insert_Some. intros [[<- <-]|[_ Hv]]; [|by apply S].
    exists (query_now a o). destruct W as (Ep & W). rewrite Ep. by apply wf_drop_body.
  - intros B. apply query_asks in Q as [_ Q].
    apply ask_vendor_spec in Q as [(_ & -> & _)|(u0 & rec & g & _ & [_ E]%attach_spec)]; [done|].
    destruct (paced a); [|by subst].
    destruct E as (thr & _ & ->). intros p ring. by apply record_ring_bounded.
Qed.

Section Carry.
Context {SC : Scan} {TF : ThrottleFormat}.

Lemma attempt_entry p now status doc doc' :
  RecordPlanAttempt true true p now status doc = Some doc' ->
  exists e, doc' !! p = Some e /\ tt_LastAttempt e = now.
Proof.
  unfold RecordPlanAttempt. cbn [negb]. destruct (record_attempt _ _ _) as [e|] eqn:R; [|done].
  intros [= <-]. exists e. rewrite lookup_insert_eq. split; [done|].
  unfold record_attempt in R. destruct (_ || _); [destruct (penalty _); [|done]|destruct (_ =? _)%Z];
    by injection R as <-.
Qed.

(** A provider asked at [now] is not asked again within the interval. *)
Lemma floor_withholds p t (forced : bool) (doc : planThrottleDoc) e :
  doc !! p = Some e ->
  (t < tt_LastAttempt e + (if forced then PlanThrottleForcedInterval else PlanThrottleMinInterval))%Z ->
  p <> "" ->
  let d := CheckPlanThrottle true p t forced doc in pd_Allowed d = false /\ pd_Reason d <> "".
Proof.
  intros He Ht Hp. unfold CheckPlanThrottle. cbn [negb]. rewrite He.
  destruct (_ && _).
  - split; [done|]. cbn. unfold refused_reason. by destruct p.
  - unfold Before, Add. rewrite (proj2 (Z.ltb_lt _ _) Ht). by split.
Qed.

Lemma load_saved dir u doc :
  dir <> "" -> u_Provider u <> "" ->
  loadPlanLastReading dir (u_Provider u) (savePlanLastReading dir true u doc) = Some (drop_body u).
Proof.
  intros Hd Hp. unfold loadPlanLastReading, savePlanLastReading. rewrite decide_False by done.
  rewrite !bool_decide_false by done. cbn. by rewrite lookup_insert_eq.
Qed.
End Carry.

(** after a vendor answered a query that the floor paces, a query of all
    providers that names it before the interval has passed asks it nothing and
    changes no file, and publishes one reading of it: the one that was given,
    as of when it was given, without the body of its response and with the
    reason it was not asked for added. *)
Theorem withheld_reading_is_carried `{Scan, ThrottleFormat} a o fs fs' u t (forced : bool) os :
  QueryPlanUsage (Some a) o fs = Some (fs', inl u) ->
  paced a = true -> ow_record_path o = true -> ow_throttle_write o = true ->
  ow_readings_write o = true -> ow_path (os 0) = true -> t <> 0%Z ->
  (t < query_now a o + (if forced then PlanThrottleForcedInterval else PlanThrottleMinInterval))%Z ->
  exists why held,
    QueryAllPlanUsage (MkAll [qa_Provider a] t (qa_ThrottleDir a) forced) os fs'
      = Some (fs', {[qa_Provider a := why]}, inl [held])
    /\ u_FetchedAt held = query_now a o /\ u_Status held = u_Status u /\ u_Windows held = u_Windows u
    /\ u_Spend held = u_Spend u /\ u_RawBody held = "" /\ why <> ""
    /\ u_Reason held = (if decide (u_Reason u = "") then why else u_Reason u +:+ "; " +:+ why).
Proof.
  intros Q P O1 O2 O3 O4 Ht Hlt. pose proof (query_reading _ _ _ _ _ Q) as (Wp & Wt & _).
  apply query_asks in Q as [Hp Q].
  unfold paced in P. apply andb_true_iff in P as [Hd Hb].
  apply negb_true_iff, bool_decide_eq_false in Hd.
  apply ask_vendor_spec in Q as [(E & _)|(u0 & rec & g & _ & [_ E]%attach_spec)].
  { unfold providerFetches in Hb. rewrite E in Hb. vm_compute in Hb. discriminate. }
  unfold paced in E. rewrite (bool_decide_false (qa_ThrottleDir a = "")), Hb in E by done.
  destruct E as (thr & R & ->). rewrite O1, O2 in R. apply attempt_entry in R as (e & He & Hl).
  rewrite <-Hl in Hlt.
  destruct (floor_withholds _ _ _ _ _ He Hlt Hp) as [Hw Hr].
  eexists _, _. split.
  - unfold QueryAllPlanUsage. cbn [qb_Providers]. rewrite decide_False by done.
    cbn [length seq fmap list_fmap zip zip_with query_providers qb_Now qb_ThrottleDir qb_Forced].
    unfold QueryPlanUsage. cbn [qa_Provider qa_Forced pf_Throttle].
    rewrite decide_False by done. unfold query_now, paced. cbn [qa_Now qa_ThrottleDir qa_Provider].
    unfold IsZero. rewrite (proj2 (Z.eqb_neq _ _) Ht), O4.
    rewrite (bool_decide_false (qa_ThrottleDir a = "")), Hb, Hw by done. cbn [negb andb].
    cbn [pf_Readings]. rewrite O3, <-Wp, load_saved by (done || by rewrite Wp). cbn [app].
    rewrite insert_empty. reflexivity.
  - cbn. split_and!; try done. by rewrite Wp.
Qed.

(** ** A small world *)

#[local] Instance demo_scan : Scan := {|
  parse_time _ _ := None; format_2f _ := "0.00"; parse_float _ := None; sscan_int64 _ := None |}.
#[local] Instance demo_throttle : ThrottleFormat := {| rfc3339 := itoa; duration_string := itoa |}.

(** Claude answers with a session at 30 percent and a week at 130. *)
Definition demo_claude : claude_side :=
  MkClaudeSide "token" None "" None None (fun _ => inl (MkReply 200 "{...}" None))
    (fun _ => inl (MkCUsage (Some (MkCWindow (Some (F.of_Z 30)) None))
                     (Some (MkCWindow (Some (F.of_Z 130)) None)) [] None None)).
Definition demo_codex : codex_side :=
  MkCodexSide "" "" "" "" "/auth.json" (inr "no file") None (fun _ _ => inr "unreachable") (fun _ => inr "").
Definition demo_grok : grok_side :=
  MkGrokSide None "" None (inr "no file") (inr "no file") false None (fun _ => inr "") (fun _ => inr "")
    (fun _ => inr "") 0.
Definition demo_cursor : cursor_side :=
  MkCursorSide None "" "" (inr "no file") None (fun _ => inr "") (fun _ => inr "").
Definition demo_outside : outside :=
  MkOutside (10 * Hour) true true true true true true (fun _ _ => []) demo_claude demo_codex demo_grok
    demo_cursor.
Definition demo_args : PlanUsageArgs := MkArgs ProviderClaude 0 "/state" false.
Definition demo_files : planFiles := MkFiles ∅ ∅ ∅ 0.

Lemma readings_are_well_formed_witness :
  exists fs u, QueryPlanUsage (Some demo_args) demo_outside demo_files = Some (fs, inl u)
  /\ w_RemainingPercent <$> u_Windows u = [Some (F.of_Z 70); Some F.zero]
  /\ wf_reading ProviderClaude (10 * Hour) u.
Proof.
  destruct (QueryPlanUsage (Some demo_args) demo_outside demo_files) as [[fs [u|err]]|] eqn:Q;
    try (vm_compute in Q; discriminate).
  exists fs, u. split; [reflexivity|].
  pose proof (readings_are_well_formed demo_args demo_outside demo_files fs u Q) as (W & _).
  split; [|exact W]. vm_compute in Q. injection Q as _ <-. vm_compute. reflexivity.
Defined.

Lemma withheld_reading_is_carried_witness :
  exists fs u why held,
    QueryPlanUsage (Some demo_args) demo_outside demo_files = Some (fs, inl u)
    /\ QueryAllPlanUsage (MkAll [ProviderClaude] (10 * Hour + Minute) "/state" false)
         (fun _ => demo_outside) fs = Some (fs, {[ProviderClaude := why]}, inl [held])
    /\ u_FetchedAt held = (10 * Hour)%Z.
Proof.
  destruct (QueryPlanUsage (Some demo_args) demo_outside demo_files) as [[fs [u|err]]|] eqn:Q;
    try (vm_compute in Q; discriminate).
  destruct (withheld_reading_is_carried demo_args demo_outside demo_files fs u (10 * Hour + Minute) false
              (fun _ => demo_outside) Q eq_refl eq_refl eq_refl eq_refl eq_refl ltac:(discriminate) eq_refl)
    as (why & held & A & F & _).
  exists fs, u, why, held. split_and!; [reflexivity|exact A|exact F].
Defined.

(** An account credit is a cent, but the float product of 29 credits falls short
    of 29 cents and is cut. *)
Example credits_lose_a_cent : codexCreditsToAUDMoney (F.of_Z 29) = MkMoney 28 2 "AUD".
Proof. vm_compute. reflexivity. Qed.
