(* ===== verification/SeatPlacement.v ===== *)
(** * SeatPlacement: whether a seat stays where it is

    Models [seat_placement.go] and the store of [seat_policy.go]. The store is
    its table and what its file holds; reading and writing the file are
    arguments, as are the encodings. *)

From S2P Require Import Prelude GoLib GoFloat PlanBand Resolve ResolveIntel.

(** ** Seat policies *)

(** [SeatPolicy]; a slice is [None] when nil. *)
Record SeatPolicy := MkPolicy {
  sp_PreferProvider : string; sp_AllowedProviders : option (list string); sp_AllowNone : bool;
  sp_ExcludeProviders : option (list string); sp_HostMayInterrupt : bool; sp_HostNeverPark : bool }.

Definition no_policy : SeatPolicy := MkPolicy "" None false None false false.

(** [Allowed]: the allow-list and whether there is one. The copy of an empty
    slice is nil. *)
Definition Allowed (p : SeatPolicy) : option (list string) * bool :=
  if sp_AllowNone p then (Some [], true)
  else
    match sp_AllowedProviders p with
    | None => (None, false)
    | Some [] => (None, true)
    | Some l => (Some l, true)
    end.

(** What a policy is once written and read again: an empty list is left out. *)
Definition omit_empty (l : option (list string)) : option (list string) :=
  match l with Some [] => None | _ => l end.
Definition reread (p : SeatPolicy) : SeatPolicy :=
  MkPolicy (sp_PreferProvider p) (omit_empty (sp_AllowedProviders p)) (sp_AllowNone p)
    (omit_empty (sp_ExcludeProviders p)) (sp_HostMayInterrupt p) (sp_HostNeverPark p).

(** [SeatPolicyStore]: [ss_disk] says whether it has a file, [ss_file] what
    reading the file gives. *)
Record SeatPolicyStore := MkStore {
  ss_disk : bool; ss_rows : gmap string SeatPolicy; ss_file : gmap string SeatPolicy }.

(** [OpenSeatPolicyStore], on what the file decodes to: [None] when there is
    none or it is empty. *)
Definition OpenSeatPolicyStore (dir : string) (file : option (gmap string SeatPolicy) + string)
    : SeatPolicyStore + string :=
  if decide (dir = "") then inl (MkStore false ∅ ∅)
  else
    match file with
    | inr err => inr err
    | inl rows => inl (MkStore true (default ∅ rows) (default ∅ rows))
    end.

(** [saveLocked]: the error of encoding or writing, if there is one. *)
Definition policy_save (write : option string) (s : SeatPolicyStore)
    : SeatPolicyStore * option string :=
  if negb (ss_disk s) then (s, None)
  else
    match write with
    | Some err => (s, Some err)
    | None => (MkStore true (ss_rows s) (reread <$> ss_rows s), None)
    end.

Definition not_configured : string := "seat policy store is not configured".

(** A nil store reads as no policy. *)
Definition policy_get (store : option SeatPolicyStore) (name : string) : SeatPolicy :=
  match store with
  | None => no_policy
  | Some s => default no_policy (ss_rows s !! name)
  end.

Definition policy_update (write : option string) (store : option SeatPolicyStore) (name : string)
    (fn : SeatPolicy -> SeatPolicy) : option SeatPolicyStore * option string :=
  match store with
  | None => (None, Some not_configured)
  | Some s =>
    let r := policy_save write
               (MkStore (ss_disk s) (<[name := fn (default no_policy (ss_rows s !! name))]> (ss_rows s))
                  (ss_file s)) in
    (Some r.1, r.2)
  end.

Definition policy_put (write : option string) (store : option SeatPolicyStore) (name : string)
    (policy : SeatPolicy) : option SeatPolicyStore * option string :=
  policy_update write store name (fun _ => policy).

(** [ImportLegacyFile], on what the file decodes to: [None] when there is no
    path, file or content. The rows the store has are left alone. *)
Definition ImportLegacyFile (write : option string) (store : option SeatPolicyStore)
    (legacy : option (gmap string SeatPolicy) + string)
    : option SeatPolicyStore * (nat * option string) :=
  match store with
  | None => (None, (O, Some not_configured))
  | Some s =>
    match legacy with
    | inr err => (Some s, (O, Some err))
    | inl None => (Some s, (O, None))
    | inl (Some legacy) =>
      let new := filter (fun kv => ss_rows s !! kv.1 = None) legacy in
      if decide (size new = 0) then (Some s, (O, None))
      else
        let r := policy_save write (MkStore (ss_disk s) (new ∪ ss_rows s) (ss_file s)) in
        (Some r.1, (size new, r.2))
    end
  end.

(** ** Placement *)

Definition SeatStay : string := "stay".
Definition SeatMigrate : string := "migrate".
Definition SeatPark : string := "park".
Definition SeatDefer : string := "defer".

Record SeatPlacementArgs := MkPlace {
  pa_CurrentProvider : string; pa_Usage : list PlanUsage; pa_AllowedProviders : option (list string);
  pa_ExcludeProviders : option (list string); pa_PreferProvider : string; pa_Quality : string;
  pa_Now : Time; pa_Thresholds : option PlanThresholds; pa_MaxUsageAge : Duration }.

#[export] Instance eta_place : Eta SeatPlacementArgs := fun a =>
  MkPlace (pa_CurrentProvider a) (pa_Usage a) (pa_AllowedProviders a) (pa_ExcludeProviders a)
    (pa_PreferProvider a) (pa_Quality a) (pa_Now a) (pa_Thresholds a) (pa_MaxUsageAge a).
#[export] Hint Extern 1 (@Setter SeatPlacementArgs _ _) => setter_of eta_place : typeclass_instances.

(** [sd_Pick] is [None] for the zero pick. *)
Record SeatPlacement := MkPlacement {
  sd_Action : string; sd_From : string; sd_Pick : option ModelPick; sd_Reason : string;
  sd_Author : string }.

Definition stalePlanReading (u : PlanUsage) (now : Time) (maxAge : Duration) : bool :=
  if (maxAge <=? 0)%Z then false
  else IsZero (u_FetchedAt u) || (maxAge <? Sub now (u_FetchedAt u))%Z.

(** A reading under the subscription's name. *)
Definition plan_usage (u : PlanUsage) : PlanUsage :=
  MkPlanUsage (PlanProvider (u_Provider u)) (u_Status u) (u_Reason u) (u_Windows u) (u_FetchedAt u)
    (u_PlanType u) (u_HTTPStatus u) (u_RawBody u) (u_Credits u) (u_Spend u).

Definition is_allowed (a : SeatPlacementArgs) (p : string) : bool :=
  match pa_AllowedProviders a with
  | None => true
  | Some l => bool_decide (p ∈ PlanProvider <$> l)
  end.

(** What the scan of the readings collects. *)
Record dest_scan := MkScan {
  ds_excluded : gset string; ds_eligible : nat; ds_seen : gset string; ds_uncertain : bool }.

Section Placement.
Context {UC : Unicode} {ML : MathLog} {CF : CostFormat}.
Variable clock : Time.

(** A reading whose plan can take a seat. *)
Definition can_take (a : SeatPlacementArgs) (now : Time) (u : PlanUsage) : bool :=
  HasAvailableTokens clock u now (pa_Thresholds a)
  && IsDestBand (v_Weekly (ClassifyPlan clock u now (pa_Thresholds a))).

(** One reading of the scan for destinations. *)
Definition scan_reading (a : SeatPlacementArgs) (now : Time) (s : dest_scan) (u : PlanUsage)
    : dest_scan :=
  let p := u_Provider u in
  let seen := {[p]} ∪ ds_seen s in
  if negb (is_allowed a p)
  then MkScan ({[p]} ∪ ds_excluded s) (ds_eligible s) seen (ds_uncertain s)
  else if bool_decide (p ∈ ds_excluded s)
  then MkScan (ds_excluded s) (ds_eligible s) seen (ds_uncertain s)
  else if stalePlanReading u now (pa_MaxUsageAge a)
  then MkScan ({[p]} ∪ ds_excluded s) (ds_eligible s) seen true
  else if negb (bool_decide (u_Status u = PlanUsageAvailable))
  then MkScan (ds_excluded s) (ds_eligible s) seen true
  else MkScan (ds_excluded s) (ds_eligible s + (if can_take a now u then 1 else 0)) seen (ds_uncertain s).

(** Is a row a destination nobody published a reading of? *)
Definition unread_row (a : SeatPlacementArgs) (from : string) (s : dest_scan) (row : CatalogModel)
    : bool :=
  let p := cm_Provider row in
  negb (negb (bool_decide (cm_Access row = ModelAccessPlan)) || negb (cm_Session row)
        || bool_decide (p = from) || bool_decide (p ∈ ds_excluded s) || bool_decide (p ∈ ds_seen s)
        || negb (is_allowed a p)).

(** The scan of the readings, then of the catalog. *)
Definition scan_destinations (a : SeatPlacementArgs) (now : Time) (from : string)
    (usage : list PlanUsage) : dest_scan :=
  let excluded := {[from]} ∪ list_to_set (PlanProvider <$> default [] (pa_ExcludeProviders a)) in
  let s := foldl (scan_reading a now) (MkScan excluded 0 ∅ false) usage in
  MkScan (ds_excluded s) (ds_eligible s) (ds_seen s)
    (ds_uncertain s || List.existsb (unread_row a from s) ModelCatalog).

(** What the destination is resolved by. *)
Definition placement_predicates (a : SeatPlacementArgs) (now : Time) (s : dest_scan)
    (usage : list PlanUsage) : ModelPredicates :=
  MkPred CapabilitySession "" ""
    (if decide (pa_Quality a = "") then ModelQualityStandard else pa_Quality a) "" "" true true
    (PlanProvider (pa_PreferProvider a)) [] None
    (List.filter (fun p => bool_decide (p ∈ ds_excluded s)) (cm_Provider <$> ModelCatalog))
    true (Some usage) false now (pa_Thresholds a) [].

(** The last step: a seat that must leave its provider. *)
Definition place_elsewhere (rand_IntN : Z -> Z) (load : list PlanUsage + string)
    (intel : list ModelObservation + string) (a : SeatPlacementArgs) (now : Time) (from : string)
    (usage : list PlanUsage) (pressure : string) : SeatPlacement :=
  let s := scan_destinations a now from usage in
  if (ds_eligible s =? 0)%nat then
    if ds_uncertain s
    then MkPlacement SeatDefer from None
           (pressure +:+ "; destination plan readings incomplete or stale") DecisionAuthor
    else MkPlacement SeatPark from None (pressure +:+ "; no eligible destination") DecisionAuthor
  else
    match Resolve clock rand_IntN load intel (placement_predicates a now s usage) with
    | inr err =>
      MkPlacement SeatDefer from None (pressure +:+ "; destination unresolved: " +:+ err) DecisionAuthor
    | inl pick =>
      MkPlacement SeatMigrate from (Some pick) (pressure +:+ "; " +:+ k_Reason pick) DecisionAuthor
    end.

(** [ResolveSeatPlacement]. *)
Definition ResolveSeatPlacement (rand_IntN : Z -> Z) (load : list PlanUsage + string)
    (intel : list ModelObservation + string) (args : option SeatPlacementArgs)
    : SeatPlacement + string :=
  match args with
  | None => inr "seat placement: current provider is required"
  | Some a =>
    if decide (TrimSpace (pa_CurrentProvider a) = "")
    then inr "seat placement: current provider is required"
    else
      let now := if IsZero (pa_Now a) then clock else pa_Now a in
      let from := PlanProvider (pa_CurrentProvider a) in
      let stay why := inl (MkPlacement SeatStay from None why DecisionAuthor) in
      let usage := plan_usage <$> pa_Usage a in
      match List.filter (fun u => bool_decide (u_Provider u = from)) usage with
      | _ :: _ :: _ => inr ("seat placement: duplicate reading for " +:+ from)
      | [] => stay "source plan reading unavailable"
      | [source] =>
        if negb (bool_decide (u_Status source = PlanUsageAvailable))
        then stay "source plan reading unavailable"
        else if stalePlanReading source now (pa_MaxUsageAge a)
        then stay "source plan reading stale"
        else if negb (ShouldVacate clock source now (pa_Thresholds a))
        then stay "source provider has usable allowance"
        else
          inl (place_elsewhere rand_IntN load intel a now from usage
                 (if decide (v_Session (ClassifyPlan clock source now (pa_Thresholds a))
                               = PlanSessionExhausted)
                  then "session exhausted" else "weekly hot or exhausted"))
      end
  end.

(** The stored policy fills in what the caller left unset. *)
Definition merge_policy (policy : SeatPolicy) (a : SeatPlacementArgs) : SeatPlacementArgs :=
  let a := if decide (pa_PreferProvider a = "")
           then a <| pa_PreferProvider := sp_PreferProvider policy |> else a in
  let a := if bool_decide (pa_AllowedProviders a = None) && (Allowed policy).2
           then a <| pa_AllowedProviders := (Allowed policy).1 |> else a in
  if bool_decide (pa_ExcludeProviders a = None)
     && negb (bool_decide (default [] (sp_ExcludeProviders policy) = []))
  then a <| pa_ExcludeProviders := sp_ExcludeProviders policy |> else a.

(** [ResolveSeatPlacementForSeat]. *)
Definition ResolveSeatPlacementForSeat (rand_IntN : Z -> Z) (load : list PlanUsage + string)
    (intel : list ModelObservation + string) (name : string) (store : option SeatPolicyStore)
    (args : option SeatPlacementArgs) : SeatPlacement + string :=
  match args with
  | None => inr "seat placement: args is required"
  | Some a =>
    ResolveSeatPlacement rand_IntN load intel
      (Some (if bool_decide (store = None) || bool_decide (TrimSpace name = "") then a
             else merge_policy (policy_get store name) a))
  end.
End Placement.
