(* ===== verification/SeatPlacementTheorems.v ===== *)
(** * SeatPlacementTheorems: when a seat moves, and where

    The properties of [SeatPlacement]. *)

From S2P Require Import Prelude GoLib GoFloat PlanBand Resolve ResolveIntel ResolveFacts SeatPlacement.

Section Scan.
Context {UC : Unicode} {ML : MathLog}.
Variable clock : Time.
Variables (a : SeatPlacementArgs) (now : Time).

(** A reading that says for certain what its plan can take. *)
Definition certain (u : PlanUsage) : Prop :=
  u_Status u = PlanUsageAvailable /\ stalePlanReading u now (pa_MaxUsageAge a) = false.

(** What a scan of [seen] readings knows. *)
Record scanned (excluded : gset string) (seen : list PlanUsage) (s : dest_scan) : Prop := {
  sc_grows : excluded ⊆ ds_excluded s;
  sc_added : ds_uncertain s = false ->
    forall p, p ∈ ds_excluded s -> is_allowed a p = true -> p ∈ excluded;
  sc_left : forall u, u ∈ seen -> u_Provider u ∉ ds_excluded s ->
    is_allowed a (u_Provider u) = true /\ stalePlanReading u now (pa_MaxUsageAge a) = false;
  sc_none : ds_uncertain s = false -> ds_eligible s = 0 -> forall u, u ∈ seen ->
    is_allowed a (u_Provider u) = true -> u_Provider u ∉ excluded ->
    certain u /\ can_take clock a now u = false;
  sc_seen : forall p, p ∈ ds_seen s -> exists u, u ∈ seen /\ u_Provider u = p }.

Lemma scan_one excluded seen s u :
  scanned excluded seen s -> scanned excluded (seen ++ [u]) (scan_reading clock a now s u).
Proof.
  intros [G A L N S]. unfold scan_reading.
  assert (forall p, p ∈ {[u_Provider u]} ∪ ds_seen s -> exists v, v ∈ seen ++ [u] /\ u_Provider v = p) as S'.
  { intros p [->%elem_of_singleton|Hp]%elem_of_union; [exists u; set_solver|].
    destruct (S p Hp) as (v & Hv & <-). exists v. set_solver. }
  destruct (is_allowed a (u_Provider u)) eqn:Al; cbn [negb].
  - case_bool_decide as Ex.
    + split; cbn; [done|done| | |done].
      * intros v [Hv| ->%list_elem_of_singleton]%elem_of_app Hp; [by apply L|done].
      * intros U E v [Hv| ->%list_elem_of_singleton]%elem_of_app Hv1 Hv2; [by apply N|].
        exfalso. by apply Hv2, A.
    + destruct (stalePlanReading u now _) eqn:St.
      * split; cbn; [set_solver|done| |done|done].
        intros v [Hv| ->%list_elem_of_singleton]%elem_of_app Hp;
          [apply L; [done|]; intros Hin; by apply Hp, elem_of_union_r|].
        exfalso. by apply Hp, elem_of_union_l, elem_of_singleton.
      * case_bool_decide as Av; cbn [negb]; (split; cbn; [done| | | |done]).
        -- done.
        -- intros v [Hv| ->%list_elem_of_singleton]%elem_of_app Hp; [by apply L|done].
        -- intros U E v [Hv| ->%list_elem_of_singleton]%elem_of_app Hv1 Hv2;
             [apply N; [done|lia|done..]|].
           split; [done|]. destruct (can_take clock a now u); [lia|done].
        -- done.
        -- intros v [Hv| ->%list_elem_of_singleton]%elem_of_app Hp; [by apply L|done].
        -- done.
  - split; cbn; [set_solver| | | |done].
    + intros U p [->%elem_of_singleton|Hp]%elem_of_union Hal; [congruence|by apply A].
    + intros v [Hv| ->%list_elem_of_singleton]%elem_of_app Hp;
          [apply L; [done|]; intros Hin; by apply Hp, elem_of_union_r|].
        exfalso. by apply Hp, elem_of_union_l, elem_of_singleton.
    + intros U E v [Hv| ->%list_elem_of_singleton]%elem_of_app Hv1 Hv2; [by apply N|congruence].
Qed.

Lemma scan_all excluded usage :
  scanned excluded usage (foldl (scan_reading clock a now) (MkScan excluded 0 ∅ false) usage).
Proof.
  induction usage as [|u usage IH] using rev_ind.
  - split; cbn; set_solver.
  - rewrite foldl_app. by apply scan_one.
Qed.
End Scan.

Section Placement.
Context {UC : Unicode} {ML : MathLog} {CF : CostFormat}.
Variable clock : Time.

(** A destination the host permits for a seat at [from]. *)
Definition may_go (a : SeatPlacementArgs) (from p : string) : Prop :=
  p <> from /\ p ∉ PlanProvider <$> default [] (pa_ExcludeProviders a) /\ is_allowed a p = true.

Definition kept_out (a : SeatPlacementArgs) (from : string) : gset string :=
  {[from]} ∪ list_to_set (PlanProvider <$> default [] (pa_ExcludeProviders a)).

Lemma may_go_spec a from p :
  may_go a from p <-> p ∉ kept_out a from /\ is_allowed a p = true.
Proof. unfold may_go, kept_out. rewrite not_elem_of_union, not_elem_of_singleton, elem_of_list_to_set. tauto. Qed.

Definition placement_now (a : SeatPlacementArgs) : Time :=
  if IsZero (pa_Now a) then clock else pa_Now a.

Lemma placement_resolve rand load intel a s usage :
  Resolve clock rand load intel (placement_predicates a (placement_now a) s usage)
  = resolve_catalog clock rand (placement_predicates a (placement_now a) s usage)
      (by_provider usage) (placement_now a).
Proof.
  assert ((if IsZero (placement_now a) then clock else placement_now a) = placement_now a) as N.
  { unfold placement_now. destruct (IsZero (pa_Now a)) eqn:E; [|rewrite E; reflexivity].
    destruct (IsZero clock); reflexivity. }
  change (Resolve clock rand load intel (placement_predicates a (placement_now a) s usage))
    with (resolve_catalog clock rand (placement_predicates a (placement_now a) s usage)
            (by_provider usage) (if IsZero (placement_now a) then clock else placement_now a)).
  rewrite N. reflexivity.
Qed.

Lemma excluded_rows (ex : gset string) (rows : list CatalogModel) row :
  row ∈ rows -> cm_Provider row ∈ ex ->
  cm_Provider row ∈ List.filter (fun p => bool_decide (p ∈ ex)) (cm_Provider <$> rows).
Proof.
  intros Hr Hex. apply list_elem_of_In, List.filter_In. split; [|by apply bool_decide_eq_true].
  apply list_elem_of_In, list_elem_of_fmap. by exists row.
Qed.

(** Where a resolved destination is. *)
Lemma placement_pick rand load intel a from usage k :
  let now := placement_now a in
  let s := scan_destinations clock a now from usage in
  Resolve clock rand load intel (placement_predicates a now s usage) = inl k ->
  exists row u, row ∈ ModelCatalog /\ u ∈ usage /\ u_Provider u = cm_Provider row
  /\ k_Provider k = cm_Provider row /\ k_Model k = cm_Model row
  /\ cm_Session row = true /\ cm_Access row = ModelAccessPlan
  /\ may_go a from (cm_Provider row) /\ certain a now u /\ can_take clock a now u = true
  /\ ModelHasAvailableTokens clock u (cm_Model row) now (pa_Thresholds a) = true.
Proof.
  intros now s. unfold now. rewrite placement_resolve. fold now.
  intros (row & Hr & Hp & Hm & _ & (_ & Hs & Ha) & Hx & _ & [(po & Hpo & _)|([Sk To] & Hb & Hd)])%catalog_pick_facts;
    [by apply not_elem_of_nil in Hpo|].
  destruct (skipForUsage_false clock _ now _ Sk eq_refl) as (u & Eu & Pu).
  pose proof (To u Eu) as Ht. destruct (by_provider_spec _ _ _ Eu) as [Hu Eup].
  assert (cm_Provider row ∉ ds_excluded s) as Hex.
  { intros Hin. by apply Hx, excluded_rows. }
  pose proof (scan_all clock a now (kept_out a from) usage) as S.
  assert (ds_excluded s = ds_excluded (foldl (scan_reading clock a now)
            (MkScan (kept_out a from) 0 ∅ false) usage)) as Es by done.
  rewrite Es in Hex. destruct (sc_left _ _ _ _ _ _ S u Hu ltac:(by rewrite Eup)) as [Al St].
  assert (u_Status u = PlanUsageAvailable) as Av.
  { rewrite Eu in Sk. unfold skipForUsage in Sk. destruct (_ && _) in Sk; [done|]. cbn [p_RequireUsage placement_predicates negb] in Sk.
    apply orb_false_iff in Sk as [Sk _]. by apply negb_false_iff, bool_decide_eq_true in Sk. }
  exists row, u. split_and!; try done; try (by apply Hs); try (by apply Ha).
  - apply may_go_spec. split; [|by rewrite <-Eup]. intros Hin. apply Hex.
    by apply (sc_grows _ _ _ _ _ _ S).
  - unfold can_take. unfold ModelHasAvailableTokens in Ht. cbn [p_Thresholds placement_predicates] in Ht.
    destruct (HasAvailableTokens _ _ _ _); [|done]. cbn.
    destruct Hd as [Hd|[R _]]; [|done]. rewrite Hb in Hd. unfold usage_band in Hd. by rewrite Eu in Hd.
Qed.

(** When a seat is parked, nothing is left to try. *)
Lemma placement_park a from usage :
  let now := placement_now a in
  let s := scan_destinations clock a now from usage in
  ds_eligible s = 0 -> ds_uncertain s = false ->
  (forall u, u ∈ usage -> may_go a from (u_Provider u) -> certain a now u /\ can_take clock a now u = false)
  /\ (forall row, row ∈ ModelCatalog -> cm_Session row = true -> cm_Access row = ModelAccessPlan ->
      may_go a from (cm_Provider row) -> exists u, u ∈ usage /\ u_Provider u = cm_Provider row).
Proof.
  intros now s E U. pose proof (scan_all clock a now (kept_out a from) usage) as S.
  unfold s, scan_destinations in U, E. cbn [ds_uncertain ds_eligible] in U, E.
  apply orb_false_iff in U as [U1 U2]. split.
  - intros u Hu [Hk Hal]%may_go_spec. by apply (sc_none _ _ _ _ _ _ S).
  - intros row Hr Hs Ha [Hk Hal]%may_go_spec.
    rewrite <-not_true_iff_false, List.existsb_exists in U2.
    apply (sc_seen _ _ _ _ _ _ S). apply dec_stable. intros Hn. apply U2. exists row.
    split; [by apply list_elem_of_In|]. unfold unread_row. apply negb_true_iff.
    rewrite Ha, Hs, Hal, bool_decide_true by done. cbn [negb orb].
    rewrite !orb_false_iff, !bool_decide_eq_false. split_and!; try done.
    + intros E0. apply Hk. rewrite E0. unfold kept_out. set_solver.
    + intros Hin. by apply Hk, (sc_added _ _ _ _ _ _ S U1).
Qed.

Lemma place_from rand load intel a now from usage why :
  sd_From (place_elsewhere clock rand load intel a now from usage why) = from.
Proof. unfold place_elsewhere. by repeat case_match. Qed.

Lemma place_leaves rand load intel a now from usage why :
  sd_Action (place_elsewhere clock rand load intel a now from usage why) <> SeatStay.
Proof. unfold place_elsewhere. by repeat case_match. Qed.

(** The readings of one provider. *)
Definition from_readings (from : string) (usage : list PlanUsage) : list PlanUsage :=
  List.filter (fun u => bool_decide (u_Provider u = from)) usage.

Lemma sources from usage u :
  u ∈ from_readings from usage <-> u ∈ usage /\ u_Provider u = from.
Proof.
  unfold from_readings. rewrite !list_elem_of_In, List.filter_In, bool_decide_eq_true. done.
Qed.
End Placement.

(** C24: a seat leaves its provider only when a fresh reading of that provider
    says it must be left, and then stays no longer; it moves only to a session
    model of a plan the host permits, whose fresh reading has tokens, for the
    model too, in a destination band; and it is parked only when every
    permitted destination was read, freshly, and none can take it. Missing or
    stale readings never move or park a seat. *)
Theorem seats_move_only_when_spent `{Unicode, MathLog, CostFormat} clock rand load intel a d :
  ResolveSeatPlacement clock rand load intel (Some a) = inl d ->
  let now := placement_now clock a in
  let from := PlanProvider (pa_CurrentProvider a) in
  let usage := plan_usage <$> pa_Usage a in
  let spent u := certain a now u /\ ShouldVacate clock u now (pa_Thresholds a) = true in
  sd_From d = from
  /\ (sd_Action d <> SeatStay <-> exists source, source ∈ usage /\ u_Provider source = from /\ spent source)
  /\ (sd_Action d = SeatMigrate <-> is_Some (sd_Pick d))
  /\ (forall k, sd_Pick d = Some k -> exists row u,
      row ∈ ModelCatalog /\ u ∈ usage /\ u_Provider u = cm_Provider row
      /\ k_Provider k = cm_Provider row /\ k_Model k = cm_Model row
      /\ cm_Session row = true /\ cm_Access row = ModelAccessPlan
      /\ may_go a from (cm_Provider row) /\ certain a now u /\ can_take clock a now u = true
      /\ ModelHasAvailableTokens clock u (cm_Model row) now (pa_Thresholds a) = true)
  /\ (sd_Action d = SeatPark ->
      (forall u, u ∈ usage -> may_go a from (u_Provider u) ->
        certain a now u /\ can_take clock a now u = false)
      /\ (forall row, row ∈ ModelCatalog -> cm_Session row = true -> cm_Access row = ModelAccessPlan ->
          may_go a from (cm_Provider row) -> exists u, u ∈ usage /\ u_Provider u = cm_Provider row)).
Proof.
  intros R now from usage spent.
  enough (sd_From d = from
    /\ (sd_Action d <> SeatStay <-> exists source, source ∈ usage /\ u_Provider source = from /\ spent source)
    /\ (sd_Action d = SeatStay /\ sd_Pick d = None
        \/ exists why, d = place_elsewhere clock rand load intel a now from usage why)) as (F & S & P).
  { split; [exact F|]. split; [exact S|]. destruct P as [[A P]|[why ->]].
    - rewrite A, P. split_and!; [split; [done|by intros [? ?]]|done|done].
    - unfold place_elsewhere. destruct (_ =? 0)%nat eqn:E.
      + apply Nat.eqb_eq in E. destruct (ds_uncertain _) eqn:U; cbn.
        * split_and!; [split; [done|by intros [? ?]]|done|done].
        * split_and!; [split; [done|by intros [? ?]]|done|intros _; by apply placement_park].
      + destruct (Resolve _ _ _ _ _) as [k|err] eqn:K; cbn.
        * split_and!; [split; eauto| |done]. intros k' [= <-]. by eapply placement_pick.
        * split_and!; [split; [done|by intros [? ?]]|done|done]. }
  unfold ResolveSeatPlacement in R. case_decide; [done|]. fold from usage in R.
  change (if IsZero (pa_Now a) then clock else pa_Now a) with now in R.
  pose proof (sources from usage) as L. unfold from_readings in L.
  destruct (List.filter _ usage) as [|source [|]] eqn:Src in R; rewrite Src in L; [| |done].
  - injection R as <-. cbn. split_and!; [done| |by left].
    split; [done|]. intros (u & Hu & Eu & _). specialize (proj2 (L u) (conj Hu Eu)). set_solver.
  - assert (source ∈ usage /\ u_Provider source = from) as [Hs Es] by (apply L; by left).
    assert (forall u, u ∈ usage -> u_Provider u = from -> u = source) as Only.
    { intros u Hu Eu. specialize (proj2 (L u) (conj Hu Eu)). set_solver. }
    destruct (bool_decide (u_Status source = PlanUsageAvailable)) eqn:Av; cbn [negb] in R.
    2:{ injection R as <-. cbn. apply bool_decide_eq_false in Av. split_and!; [done| |by left].
        split; [done|]. intros (u & Hu & Eu & [[? _] _]). by rewrite (Only u Hu Eu) in *. }
    apply bool_decide_eq_true in Av.
    destruct (stalePlanReading source now _) eqn:St.
    { injection R as <-. cbn. split_and!; [done| |by left].
      split; [done|]. intros (u & Hu & Eu & [[_ ?] _]). rewrite (Only u Hu Eu) in *. congruence. }
    destruct (ShouldVacate _ _ _ _) eqn:V; cbn [negb] in R.
    2:{ injection R as <-. cbn. split_and!; [done| |by left].
        split; [done|]. intros (u & Hu & Eu & [_ ?]). rewrite (Only u Hu Eu) in *. congruence. }
    injection R as <-. split_and!; [by apply place_from| |right; by eexists].
    split; [|by intros _; apply place_leaves]. intros _. by exists source.
Qed.

(** ** A small world *)

#[local] Instance demo_unicode : Unicode := {| unicode_lower := id; unicode_alnum := fun _ => false |}.
#[local] Instance demo_log : MathLog := fun x => F.sub x (F.of_Z 1).
#[local] Instance demo_cost : CostFormat := fun _ => "1.0000".

Definition demo_reading (p name : string) (left : Z) : PlanUsage :=
  MkPlanUsage p PlanUsageAvailable ""
    [MkWindow "" None name (Some (F.of_Z (100 - left))) (Some (F.of_Z left)) None 0 ""]
    Hour "" 200 "" None None.

(** A seat on Claude, whose session is spent; Codex has a week to spare. *)
Definition demo_place : SeatPlacementArgs :=
  MkPlace "anthropic" [demo_reading "claude" PlanWindowSession 0; demo_reading "openai-codex" PlanWindowWeekly 80]
    None None "" "" (2 * Hour) None (3 * Hour).

Lemma seats_move_only_when_spent_witness :
  exists d k, ResolveSeatPlacement Hour (fun _ => 0%Z) (inl []) (inl []) (Some demo_place) = inl d
  /\ sd_Pick d = Some k /\ k_Provider k = "codex" /\ sd_Action d = SeatMigrate.
Proof.
  destruct (ResolveSeatPlacement Hour (fun _ => 0%Z) (inl []) (inl []) (Some demo_place)) as [d|err] eqn:R;
    [|vm_compute in R; discriminate].
  destruct (seats_move_only_when_spent Hour (fun _ => 0%Z) (inl []) (inl []) demo_place d R)
    as (_ & _ & M & _).
  assert (sd_Action d = SeatMigrate) as A by (vm_compute in R; by injection R as <-).
  destruct (proj1 M A) as [k K]. exists d, k. split_and!; [reflexivity|exact K| |exact A].
  vm_compute in R. injection R as <-. injection K as <-. reflexivity.
Defined.

(** ** Policies *)

(** A policy that was stored says the same of a placement after the store is
    opened again, although an empty list is not written: only [AllowNone] bars
    every destination, with an empty list or without. *)
Lemma policy_survives_reopening s name policy a dir :
  ss_disk s = true -> dir <> "" ->
  exists s' s'', policy_put None (Some s) name policy = (Some s', None)
  /\ OpenSeatPolicyStore dir (inl (Some (ss_file s'))) = inl s''
  /\ merge_policy (policy_get (Some s'') name) a = merge_policy policy a
  /\ (forall other, other <> name -> policy_get (Some s') other = policy_get (Some s) other).
Proof.
  intros Hs Hd. unfold policy_put, policy_update, policy_save. cbn. rewrite Hs. cbn.
  eexists _, _. split_and!; [done| | |].
  - unfold OpenSeatPolicyStore. by rewrite decide_False.
  - unfold policy_get. cbn. rewrite lookup_fmap, lookup_insert_eq. cbn.
    destruct a as [c u al ex pref q n th m]. unfold merge_policy, Allowed, reread. cbn.
    destruct (sp_AllowNone policy), (sp_AllowedProviders policy) as [[|]|],
      (sp_ExcludeProviders policy) as [[|]|], al, ex; cbn; try reflexivity;
      destruct (decide (pref = "")); reflexivity.
  - intros other Ho. unfold policy_get. cbn. by rewrite lookup_insert_ne.
Qed.
