(* ===== verification/PlanMonitor.v ===== *)
(** * PlanMonitor: one fetch of plan usage at a time in a process

    Models [plan_usage_monitor.go]. [refresh] holds the mutex from its loop's
    head to its first wait or to the fetch, and again when the fetch has ended:
    those stretches are definitions, and the calls of a process interleave
    them. The clock, what a fetch gave and whether a caller's context ends are
    arguments of the steps. *)

From S2P Require Import Prelude GoLib PlanBand.

(** ** The monitor *)

Definition DefaultPlanCacheTTL : Duration := 5 * Minute.

(** What a fetch runs: the function given for it, the one given for forced
    fetches, or the query of all providers. *)
Inductive producer := FetchArg | ForceArg | QueryAll (forced : bool).

(** A channel is its number; [pm_kick] says whether the buffered kick is there. *)
Record PlanUsageMonitor := MkMonitor {
  pm_ttl : Duration; pm_fetch : producer; pm_force : producer; pm_passive : bool;
  pm_snapshot : list PlanUsage; pm_fetchedAt : Time; pm_lastErr : string;
  pm_inflight : bool; pm_inflightForced : bool; pm_waiters : list nat; pm_kick : bool }.

#[export] Instance eta_PlanUsageMonitor : Eta PlanUsageMonitor := fun m =>
  MkMonitor (pm_ttl m) (pm_fetch m) (pm_force m) (pm_passive m) (pm_snapshot m) (pm_fetchedAt m)
    (pm_lastErr m) (pm_inflight m) (pm_inflightForced m) (pm_waiters m) (pm_kick m).
#[export] Hint Extern 1 (@Setter PlanUsageMonitor _ _) =>
  setter_of eta_PlanUsageMonitor : typeclass_instances.

Record PlanUsageMonitorArgs := MkMonitorArgs {
  ma_ReadSnapshot : bool; ma_TTL : Duration; ma_Fetch : bool; ma_ForceFetch : bool }.

(** [NewPlanUsageMonitor]; the arguments say which functions are not nil. *)
Definition NewPlanUsageMonitor (args : option PlanUsageMonitorArgs) : PlanUsageMonitor :=
  let a := default (MkMonitorArgs false 0 false false) args in
  MkMonitor (if (ma_TTL a <=? 0)%Z then DefaultPlanCacheTTL else ma_TTL a)
    (if ma_Fetch a then FetchArg else QueryAll false)
    (if ma_ForceFetch a then ForceArg else if ma_Fetch a then FetchArg else QueryAll true)
    (ma_ReadSnapshot a) [] 0 "" false false [] false.

(** ** The stretches of [refresh] *)

Inductive call_phase :=
  | Entering                          (* at the loop's head *)
  | Joined (ch : nat) (joinable : bool)  (* waits for the fetch in flight *)
  | Fetching
  | Returned (ok : bool).             (* [ok]: its context did not end first *)

(** From the loop's head: the call joins the fetch in flight, on a new channel,
    or starts one. *)
Definition refresh_enters (forced : bool) (ch : nat) (m : PlanUsageMonitor)
    : PlanUsageMonitor * call_phase :=
  if pm_inflight m
  then (m <| pm_waiters ::= fun ws => ws ++ [ch] |>, Joined ch (pm_inflightForced m || negb forced))
  else (m <| pm_inflight := true |> <| pm_inflightForced := forced |>, Fetching).

Definition refresh_fetches (forced : bool) (m : PlanUsageMonitor) : producer :=
  if forced then pm_force m else pm_fetch m.

(** After the fetch: the channels to close. *)
Definition refresh_ends (now : Time) (fetched : list PlanUsage + string) (m : PlanUsageMonitor)
    : PlanUsageMonitor * list nat :=
  let m := m <| pm_inflight := false |> <| pm_inflightForced := false |> in
  let m := match fetched with
           | inl us => m <| pm_snapshot := us |> <| pm_fetchedAt := now |> <| pm_lastErr := "" |>
           | inr err => m <| pm_lastErr := err |>
           end in
  (m <| pm_waiters := [] |>, pm_waiters m).

(** A call whose channel was closed. *)
Definition refresh_wakes (joinable : bool) : call_phase :=
  if joinable then Returned true else Entering.

(** ** Invalidation and reading *)

Definition Invalidate (m : PlanUsageMonitor) : PlanUsageMonitor :=
  m <| pm_fetchedAt := 0%Z |> <| pm_kick := true |>.

Definition snapshot_stale (now : Time) (m : PlanUsageMonitor) : bool :=
  IsZero (pm_fetchedAt m) || (pm_ttl m <? Sub now (pm_fetchedAt m))%Z.

(** Whether a [Read] refreshes first. *)
Definition read_refreshes (force : bool) (now : Time) (m : PlanUsageMonitor) : bool :=
  negb (pm_passive m) && (force || snapshot_stale now m).

Record PlanUsageSnapshot := MkSnapshot {
  sn_Backends : list PlanUsage; sn_FetchedAt : Time; sn_Err : string }.

(** What a [Read] returns; [passive] is what [ReadSnapshot] gives. *)
Definition read_ends (passive : PlanUsageSnapshot) (m : PlanUsageMonitor) : PlanUsageSnapshot :=
  if pm_passive m then passive else MkSnapshot (pm_snapshot m) (pm_fetchedAt m) (pm_lastErr m).

(** ** The monitors of a process, newest last *)

Definition registerPlanUsageMonitor (m : nat) (ms : list nat) : list nat := ms ++ [m].

Fixpoint unregister (m : nat) (ms : list nat) : list nat :=
  match ms with
  | [] => []
  | x :: ms' => if decide (x = m) then ms' else x :: unregister m ms'
  end.

Definition runningPlanUsageMonitor (ms : list nat) : option nat := list.last ms.

(** ** The calls of a process *)

(** A call of [refresh]; [c_begun] counts the fetches that had ended before it. *)
Record call := MkCall { c_forced : bool; c_phase : call_phase; c_begun : nat }.

Definition at_call (c : call) (p : call_phase) : call := MkCall (c_forced c) p (c_begun c).

(** [mw_closed] are the channels closed, [mw_next] the next new one, and
    [mw_fetches] says of each fetch that ended whether it was forced. *)
Record monitor_world := MkMonitorWorld {
  mw_mon : PlanUsageMonitor; mw_calls : gmap nat call; mw_closed : gset nat; mw_next : nat;
  mw_fetches : list bool }.

(** The loop of [Run] begins an unforced call when its kick is there; what its
    timer begins is a call like any other. *)
Inductive monitor_step : monitor_world -> monitor_world -> Prop :=
  | begins i forced m calls closed next fetches :
      calls !! i = None ->
      monitor_step (MkMonitorWorld m calls closed next fetches)
        (MkMonitorWorld m (<[i := MkCall forced Entering (length fetches)]> calls) closed next fetches)
  | loop_wakes i m calls closed next fetches :
      calls !! i = None -> pm_kick m = true ->
      monitor_step (MkMonitorWorld m calls closed next fetches)
        (MkMonitorWorld (m <| pm_kick := false |>)
           (<[i := MkCall false Entering (length fetches)]> calls) closed next fetches)
  | enters i c m calls closed next fetches :
      calls !! i = Some c -> c_phase c = Entering ->
      monitor_step (MkMonitorWorld m calls closed next fetches)
        (MkMonitorWorld (refresh_enters (c_forced c) next m).1
           (<[i := at_call c (refresh_enters (c_forced c) next m).2]> calls) closed (S next) fetches)
  | fetched i c now result m calls closed next fetches :
      calls !! i = Some c -> c_phase c = Fetching ->
      monitor_step (MkMonitorWorld m calls closed next fetches)
        (MkMonitorWorld (refresh_ends now result m).1 (<[i := at_call c (Returned true)]> calls)
           (closed ∪ list_to_set (refresh_ends now result m).2) next (fetches ++ [c_forced c]))
  | wakes i c ch joinable m calls closed next fetches :
      calls !! i = Some c -> c_phase c = Joined ch joinable -> ch ∈ closed ->
      monitor_step (MkMonitorWorld m calls closed next fetches)
        (MkMonitorWorld m (<[i := at_call c (refresh_wakes joinable)]> calls) closed next fetches)
  | gives_up i c ch joinable m calls closed next fetches :
      calls !! i = Some c -> c_phase c = Joined ch joinable ->
      monitor_step (MkMonitorWorld m calls closed next fetches)
        (MkMonitorWorld m (<[i := at_call c (Returned false)]> calls) closed next fetches)
  | invalidates m calls closed next fetches :
      monitor_step (MkMonitorWorld m calls closed next fetches)
        (MkMonitorWorld (Invalidate m) calls closed next fetches).

Inductive monitor_reachable : monitor_world -> Prop :=
  | monitor_new args : monitor_reachable (MkMonitorWorld (NewPlanUsageMonitor args) ∅ ∅ 0 [])
  | monitor_steps w w' : monitor_reachable w -> monitor_step w w' -> monitor_reachable w'.
