(* ===== verification/PlanMonitorTheorems.v ===== *)
(** * PlanMonitorTheorems: refreshes share one fetch

    The invariant of [PlanMonitor]'s calls and what follows from it. *)

From S2P Require Import Prelude GoLib PlanBand PlanMonitor.

(** ** The invariant *)

(** A fetch that this call could be answered by ended after the call began. *)
Definition served (c : call) (fetches : list bool) : Prop :=
  exists f, f ∈ drop (c_begun c) fetches /\ (c_forced c = true -> f = true).

(** What holds of one call. *)
Definition call_ok (m : PlanUsageMonitor) (closed : gset nat) (next : nat) (fetches : list bool)
    (c : call) : Prop :=
  c_begun c <= length fetches
  /\ match c_phase c with
     | Entering | Returned false => True
     | Returned true => served c fetches
     | Fetching => pm_inflight m = true /\ pm_inflightForced m = c_forced c
     | Joined ch joinable =>
       ch < next
       /\ if decide (ch ∈ closed) then joinable = true -> served c fetches
          else ch ∈ pm_waiters m
               /\ (joinable = true -> c_forced c = true -> pm_inflightForced m = true)
     end.

Record monitor_inv (w : monitor_world) : Prop := {
  mi_calls : forall i c, mw_calls w !! i = Some c ->
    call_ok (mw_mon w) (mw_closed w) (mw_next w) (mw_fetches w) c;
  mi_one : forall i j c d, mw_calls w !! i = Some c -> mw_calls w !! j = Some d ->
    c_phase c = Fetching -> c_phase d = Fetching -> i = j;
  mi_inflight : pm_inflight (mw_mon w) = true ->
    exists i c, mw_calls w !! i = Some c /\ c_phase c = Fetching;
  mi_idle : pm_inflight (mw_mon w) = false -> pm_waiters (mw_mon w) = [];
  mi_waiters : forall ch, ch ∈ pm_waiters (mw_mon w) -> ch < mw_next w;
  mi_closed : forall ch, ch ∈ mw_closed w -> ch < mw_next w }.

Lemma served_more c fetches f : served c fetches -> served c (fetches ++ [f]).
Proof.
  intros (g & Hg & Hf). exists g. split; [|done]. rewrite drop_app. apply elem_of_app. by left.
Qed.

Lemma served_now c fetches f :
  c_begun c <= length fetches -> (c_forced c = true -> f = true) -> served c (fetches ++ [f]).
Proof.
  intros Hb Hf. exists f. split; [|done]. rewrite drop_app_le by done. apply elem_of_app. right. by left.
Qed.

(** A call changes phase, or one is added; the others are looked at again. *)
Lemma calls_insert (P Q : call -> Prop) (calls : gmap nat call) i c :
  (forall j d, calls !! j = Some d -> P d) -> Q c -> (forall d, P d -> Q d) ->
  forall j d, <[i := c]> calls !! j = Some d -> Q d.
Proof.
  intros HP Hc HQ j d. destruct (decide (i = j)) as [->|E].
  - rewrite lookup_insert_eq. by intros [= <-].
  - rewrite lookup_insert_ne by done. eauto.
Qed.

(** A call that does not fetch, and did not, changes nothing about who does. *)
Lemma one_insert (calls : gmap nat call) i c :
  (forall i j c d, calls !! i = Some c -> calls !! j = Some d ->
     c_phase c = Fetching -> c_phase d = Fetching -> i = j) ->
  c_phase c <> Fetching ->
  forall k j d e, <[i := c]> calls !! k = Some d -> <[i := c]> calls !! j = Some e ->
    c_phase d = Fetching -> c_phase e = Fetching -> k = j.
Proof.
  intros H Hc k j d e Hk Hj. rewrite lookup_insert_Some in Hk, Hj.
  destruct Hk as [[<- <-]|[_ Hk]]; [done|]. destruct Hj as [[<- <-]|[_ Hj]]; [done|]. eauto.
Qed.

Lemma inflight_insert (calls : gmap nat call) i c :
  (exists j d, calls !! j = Some d /\ c_phase d = Fetching) ->
  (forall d, calls !! i = Some d -> c_phase d <> Fetching) ->
  exists j d, <[i := c]> calls !! j = Some d /\ c_phase d = Fetching.
Proof.
  intros (j & d & Hj & Hd) Hi. exists j, d. split; [|done].
  rewrite lookup_insert_ne; [done|]. intros <-. by apply (Hi d).
Qed.

(** The fields of the monitor that calls depend on. *)
Definition same_flight (m m' : PlanUsageMonitor) : Prop :=
  pm_inflight m' = pm_inflight m /\ pm_inflightForced m' = pm_inflightForced m
  /\ pm_waiters m' = pm_waiters m.

Lemma call_ok_same m m' closed next fetches c :
  same_flight m m' -> call_ok m closed next fetches c -> call_ok m' closed next fetches c.
Proof. intros (Hi & Hf & Hw). unfold call_ok. by rewrite Hi, Hf, Hw. Qed.

Lemma inv_set_call m m' calls closed next fetches i c :
  monitor_inv (MkMonitorWorld m calls closed next fetches) -> same_flight m m' ->
  (forall d, calls !! i = Some d -> c_phase d <> Fetching) -> c_phase c <> Fetching ->
  call_ok m closed next fetches c ->
  monitor_inv (MkMonitorWorld m' (<[i := c]> calls) closed next fetches).
Proof.
  intros [I1 I2 I3 I4 I5 I6] S Hi Hc Hok. cbn in *. destruct S as (S1 & S2 & S3).
  split; cbn; rewrite ?S1, ?S3; try done.
  - apply (calls_insert (call_ok m closed next fetches)); [exact I1| |].
    + by apply (call_ok_same m).
    + intros d. by apply call_ok_same.
  - by apply one_insert.
  - intros H. by apply inflight_insert; [apply I3|].
Qed.

Lemma inv_same m m' calls closed next fetches :
  monitor_inv (MkMonitorWorld m calls closed next fetches) -> same_flight m m' ->
  monitor_inv (MkMonitorWorld m' calls closed next fetches).
Proof.
  intros [I1 I2 I3 I4 I5 I6] S. cbn in *. pose proof S as (S1 & S2 & S3).
  split; cbn; rewrite ?S1, ?S3; try done.
  intros i c H. apply (call_ok_same m); eauto.
Qed.

(** A call that joins. *)
Lemma inv_joins m calls closed next fetches i c :
  monitor_inv (MkMonitorWorld m calls closed next fetches) ->
  calls !! i = Some c -> c_phase c = Entering -> pm_inflight m = true ->
  monitor_inv (MkMonitorWorld (refresh_enters (c_forced c) next m).1
    (<[i := at_call c (refresh_enters (c_forced c) next m).2]> calls) closed (S next) fetches).
Proof.
  intros [I1 I2 I3 I4 I5 I6] Hi Hc Hm. cbn in *. unfold refresh_enters. rewrite Hm. cbn.
  assert (forall d, call_ok m closed next fetches d ->
    call_ok (m <| pm_waiters ::= fun ws => ws ++ [next] |>) closed (S next) fetches d) as Mono.
  { intros d [Hb Hd]. split; [done|]. cbn. destruct (c_phase d) as [|ch j| |[]]; try done.
    destruct Hd as [Hlt Hd]. split; [lia|]. case_decide; [done|].
    destruct Hd as [Hin Hj]. split; [|done]. apply elem_of_app. by left. }
  split; cbn.
  - apply (calls_insert (call_ok m closed next fetches)); [exact I1| |exact Mono].
    destruct (I1 _ _ Hi) as [Hb _]. split; [done|]. cbn. split; [lia|].
    rewrite decide_False; [|intros H; apply I6 in H; lia].
    split; [apply elem_of_app; right; by left|]. intros [->|?]%orb_true_iff; [done|].
    intros Hf. by rewrite Hf in *.
  - by apply one_insert.
  - intros _. apply inflight_insert; [by apply I3|]. intros d. rewrite Hi. intros [= <-]. by rewrite Hc.
  - congruence.
  - intros ch [H| ->%list_elem_of_singleton]%elem_of_app; [apply I5 in H|]; lia.
  - intros ch H. apply I6 in H. lia.
Qed.

(** A call that starts a fetch. *)
Lemma inv_starts m calls closed next fetches i c :
  monitor_inv (MkMonitorWorld m calls closed next fetches) ->
  calls !! i = Some c -> c_phase c = Entering -> pm_inflight m = false ->
  monitor_inv (MkMonitorWorld (refresh_enters (c_forced c) next m).1
    (<[i := at_call c (refresh_enters (c_forced c) next m).2]> calls) closed (S next) fetches).
Proof.
  intros [I1 I2 I3 I4 I5 I6] Hi Hc Hm. cbn in *. unfold refresh_enters. rewrite Hm. cbn.
  assert (forall j d, calls !! j = Some d -> c_phase d <> Fetching) as None_.
  { intros j d Hj Hd. destruct (I1 _ _ Hj) as [_ Hok]. rewrite Hd in Hok. destruct Hok. congruence. }
  split; cbn.
  - apply (calls_insert (fun d => call_ok m closed next fetches d /\ c_phase d <> Fetching)).
    + eauto.
    + destruct (I1 _ _ Hi) as [Hb _]. done.
    + intros d [[Hb Hd] Hp]. split; [done|]. cbn. destruct (c_phase d) as [|ch j| |[]]; try done.
      destruct Hd as [Hlt Hd]. split; [lia|]. case_decide; [done|].
      destruct Hd as [Hin Hj]. rewrite I4 in Hin by done. by apply elem_of_nil in Hin.
  - intros k j d e Hk Hj Hd He. rewrite lookup_insert_Some in Hk, Hj.
    destruct Hk as [[<- <-]|[_ Hk]], Hj as [[<- <-]|[_ Hj]]; try done; exfalso; eapply None_; eauto.
  - intros _. exists i, (at_call c Fetching). by rewrite lookup_insert_eq.
  - done.
  - intros ch H. apply I5 in H. lia.
  - intros ch H. apply I6 in H. lia.
Qed.

(** A fetch that ends. *)
Lemma inv_fetched m calls closed next fetches i c now result :
  monitor_inv (MkMonitorWorld m calls closed next fetches) ->
  calls !! i = Some c -> c_phase c = Fetching ->
  monitor_inv (MkMonitorWorld (refresh_ends now result m).1 (<[i := at_call c (Returned true)]> calls)
    (closed ∪ list_to_set (refresh_ends now result m).2) next (fetches ++ [c_forced c])).
Proof.
  intros [I1 I2 I3 I4 I5 I6] Hi Hc. cbn in I1, I2, I3, I4, I5, I6.
  destruct (I1 _ _ Hi) as [Hb Hok]. rewrite Hc in Hok. destruct Hok as [Hm Hf].
  assert (pm_inflight (refresh_ends now result m).1 = false
          /\ pm_waiters (refresh_ends now result m).1 = []
          /\ (refresh_ends now result m).2 = pm_waiters m) as (E1 & E2 & E3) by (by destruct result).
  destruct (refresh_ends now result m) as [m' chs]. cbn in E1, E2, E3. subst chs.
  split; cbn; rewrite ?E1, ?E2, ?E3; try done.
  - intros j d. destruct (decide (i = j)) as [<-|Ne].
    + rewrite lookup_insert_eq. intros [= <-]. split; cbn; [rewrite length_app; lia|].
      apply served_now; cbn; done.
    + rewrite lookup_insert_ne by done. intros Hj. destruct (I1 _ _ Hj) as [Hb' Hok'].
      split; [rewrite length_app; lia|]. rewrite ?E2.
      destruct (c_phase d) as [|ch jn| |[]] eqn:Hd; try done.
      * destruct Hok' as [Hlt Hok']. split; [done|].
        destruct (decide (ch ∈ closed)) as [Hcl|Hcl].
        -- rewrite decide_True by set_solver. intros ->. by apply served_more, Hok'.
        -- destruct Hok' as [Hin Hj'].
           rewrite decide_True by (apply elem_of_union; right; apply elem_of_list_to_set; exact Hin).
           intros ->. apply served_now; [done|]. rewrite <-Hf. by apply Hj'.
      * exfalso. apply Ne. eapply I2; eauto.
      * by apply served_more.
  - intros k j d e Hk Hj Hd He. rewrite lookup_insert_Some in Hk, Hj.
    destruct Hk as [[<- <-]|[_ Hk]]; [done|]. destruct Hj as [[<- <-]|[_ Hj]]; [done|]. eauto.
  - by intros ch ?%elem_of_nil.
  - intros ch [H|H%elem_of_list_to_set]%elem_of_union; eauto.
Qed.

Lemma monitor_step_inv w w' : monitor_inv w -> monitor_step w w' -> monitor_inv w'.
Proof.
  intros I. destruct 1.
  - eapply inv_set_call; [exact I|done|congruence|done|done].
  - eapply inv_set_call; [exact I|done|congruence|done|done].
  - destruct (pm_inflight m) eqn:Hm; [by apply inv_joins|by apply inv_starts].
  - by apply inv_fetched.
  - destruct (mi_calls _ I _ _ H) as [Hb Hok]. cbn in Hb, Hok. rewrite H0 in Hok.
    destruct Hok as [_ Hok]. rewrite decide_True in Hok by done.
    eapply inv_set_call; [exact I|done| |by destruct joinable|].
    + intros d. rewrite H. intros [= <-]. by rewrite H0.
    + split; [done|]. destruct joinable; [by apply Hok|done].
  - destruct (mi_calls _ I _ _ H) as [Hb _]. eapply inv_set_call; [exact I|done| |done|done].
    intros d. rewrite H. intros [= <-]. by rewrite H0.
  - by eapply inv_same.
Qed.

Lemma monitor_reachable_inv w : monitor_reachable w -> monitor_inv w.
Proof.
  induction 1 as [args|w w' _ IH S]; [|by eapply monitor_step_inv].
  split; cbn; try done; set_solver.
Qed.

(** ** The property *)

(** C22: in every reachable state of a process's calls at most one fetch runs; a
    call that returns without its context having ended is answered by a fetch
    that ended after the call began, a forced one when the call is forced; and a
    call that waits on a channel not closed yet waits for a fetch that runs,
    whose end, whatever it gave, closes that channel. An invalidation that comes
    while a fetch runs is lost with it: the next read within the TTL takes the
    reading of the fetch that began before, and a call begun by the kick joins
    that same fetch. *)
Theorem refreshes_share_one_fetch w :
  monitor_reachable w ->
  (forall i j c d, mw_calls w !! i = Some c -> mw_calls w !! j = Some d ->
     c_phase c = Fetching -> c_phase d = Fetching -> i = j)
  /\ (forall i c, mw_calls w !! i = Some c -> c_phase c = Returned true -> served c (mw_fetches w))
  /\ (forall i c ch joinable, mw_calls w !! i = Some c -> c_phase c = Joined ch joinable ->
       ch ∉ mw_closed w ->
       exists k d, mw_calls w !! k = Some d /\ c_phase d = Fetching
         /\ forall now (result : list PlanUsage + string), exists w', monitor_step w w'
              /\ pm_inflight (mw_mon w') = false
              /\ mw_calls w' !! i = Some c /\ ch ∈ mw_closed w'
              /\ mw_fetches w' = mw_fetches w ++ [c_forced d]
              /\ (forall us : list PlanUsage, result = @inl _ string us -> pm_snapshot (mw_mon w') = us
                    /\ pm_fetchedAt (mw_mon w') = now))
  /\ (forall t now us ch, pm_inflight (mw_mon w) = true -> t <> 0%Z ->
       (Sub now t <= pm_ttl (mw_mon w))%Z ->
       let m := Invalidate (mw_mon w) in
       read_refreshes false now (refresh_ends t (inl us) m).1 = false
       /\ (refresh_enters false ch m).2 = Joined ch true).
Proof.
  intros R%monitor_reachable_inv. split_and!.
  - exact (mi_one _ R).
  - intros i c Hi Hc. destruct (mi_calls _ R _ _ Hi) as [_ H]. by rewrite Hc in H.
  - intros i c ch jn Hi Hc Hcl. destruct (mi_calls _ R _ _ Hi) as [_ H]. rewrite Hc in H.
    destruct H as [_ H]. rewrite decide_False in H by done. destruct H as [Hin _].
    destruct (pm_inflight (mw_mon w)) eqn:Hm;
      [|rewrite (mi_idle _ R Hm) in Hin; by apply elem_of_nil in Hin].
    destruct (mi_inflight _ R Hm) as (k & d & Hk & Hd). exists k, d. split_and!; [done..|].
    intros now result. destruct w as [m calls closed next fetches]. cbn in Hi, Hk, Hin.
    eexists. split; [by apply (fetched k d now result)|]. cbn [mw_mon mw_calls mw_closed mw_fetches].
    assert (i <> k) as Ne by congruence.
    split_and!; [by destruct result|by rewrite lookup_insert_ne| |done|by intros us ->].
    apply elem_of_union_r, elem_of_list_to_set. by destruct result.
  - intros t now us ch Hm Ht Hn m. unfold m, read_refreshes, snapshot_stale, refresh_enters, IsZero.
    cbn. rewrite Hm, orb_true_r. split; [|done].
    rewrite (proj2 (Z.eqb_neq _ _) Ht), (proj2 (Z.ltb_ge _ _) Hn). by rewrite andb_false_r.
Qed.

(** A forced call finds an unforced fetch in flight, and makes its own. *)
Lemma refreshes_share_one_fetch_witness :
  exists w, monitor_reachable w /\ mw_calls w !! 1 = Some (MkCall true (Returned true) 0)
    /\ served (MkCall true (Returned true) 0) (mw_fetches w).
Proof.
  pose proof (monitor_new None) as R.
  eassert (monitor_reachable _) as R1 by (eapply (monitor_steps _ _ R), (begins 0 false); reflexivity).
  eassert (monitor_reachable _) as R2 by (eapply (monitor_steps _ _ R1), (begins 1 true); reflexivity).
  eassert (monitor_reachable _) as R3 by (eapply (monitor_steps _ _ R2), (enters 0); reflexivity).
  eassert (monitor_reachable _) as R4 by (eapply (monitor_steps _ _ R3), (enters 1); reflexivity).
  eassert (monitor_reachable _) as R5
    by (eapply (monitor_steps _ _ R4), (fetched 0 _ 5%Z (inr "refused")); reflexivity).
  eassert (monitor_reachable _) as R6.
  { eapply (monitor_steps _ _ R5), (wakes 1); [reflexivity..|].
    apply (bool_decide_unpack _). vm_compute. exact I. }
  eassert (monitor_reachable _) as R7 by (eapply (monitor_steps _ _ R6), (enters 1); reflexivity).
  eassert (monitor_reachable _) as R8
    by (eapply (monitor_steps _ _ R7), (fetched 1 _ 6%Z (inl [])); reflexivity).
  eexists. split; [exact R8|]. split; [reflexivity|].
  destruct (refreshes_share_one_fetch _ R8) as (_ & Served & _).
  apply (Served 1); reflexivity.
Defined.
