(* ===== verification/PlanCache.v ===== *)
(** * PlanCache: one fetch of plan usage at a time on a host

    Models [plan_cache.go]. Every process of a host that asks for plan usage
    without a daemon shares a snapshot file, a lease file and a lock file. A call
    is cut at each operation on one of them, and the calls of all processes
    interleave those cuts with the heartbeats of the holder, with crashes and
    with invalidations. A file is what it decodes to; what the system and the
    fetch give is an argument of the cut. Calls read the wall clock: [Now], for
    tests, is left zero. *)

From S2P Require Import Prelude GoLib PlanBand PlanThrottle Resolve PlanRead PlanQuery PlanMonitor.

(** ** Files *)

(** [Broken]: it cannot be read, or does not parse. *)
Inductive file (A : Type) := Absent | Broken | Holds (a : A).
Arguments Absent {A}. Arguments Broken {A}. Arguments Holds {A} _.

Record planCacheSnapshot := MkCacheSnapshot { ps_FetchedAt : Time; ps_Backends : list PlanUsage }.
Record planCacheLease := MkLease { pl_Heartbeat : Time }.

Definition DefaultPlanCacheLockStale : Duration := 20 * Second.
Definition DefaultPlanCachePoll : Duration := 50 * 1000000.

(** [readPlanSnapshot], when it gives a snapshot and no error. *)
Definition readPlanSnapshot (f : file planCacheSnapshot) : option planCacheSnapshot :=
  match f with Holds s => Some s | _ => None end.

Definition readFreshPlanSnapshot (f : file planCacheSnapshot) (now : Time) (ttl : Duration)
    : option planCacheSnapshot :=
  match readPlanSnapshot f with
  | Some s => if (ttl <? Sub now (ps_FetchedAt s))%Z then None else Some s
  | None => None
  end.

Definition leaseExists (f : file planCacheLease) : bool :=
  match f with Absent => false | _ => true end.

Definition leaseQuiet (f : file planCacheLease) (stale : Duration) (now : Time) : bool :=
  match f with
  | Holds l => IsZero (pl_Heartbeat l) || (stale <? Sub now (pl_Heartbeat l))%Z
  | _ => true
  end.

(** ** The way into the cache *)

Record PlanUsageCacheArgs := MkCacheArgs {
  ca_Dir : string; ca_TTL : Duration; ca_LockStale : Duration; ca_Poll : Duration;
  ca_Now : Time; ca_Fetch : bool; ca_All : option AllPlanUsageArgs; ca_Refresh : bool }.

(** What the daemon answers: [BrokerFell] is an error that falls through. *)
Inductive broker_answer :=
  | BrokerUsage (us : list PlanUsage) | BrokerError (err : string) | BrokerFell.

(** The readers before the cache, the daemon and a monitor of this process.
    [None]: the cache is read. *)
Definition load_route (a : PlanUsageCacheArgs) (broker : broker_answer)
    (monitor : option PlanUsageSnapshot) : option (list PlanUsage + string) :=
  if negb (ca_Fetch a) && bool_decide (ca_Dir a = "") then
    match broker with
    | BrokerUsage us => Some (inl us)
    | BrokerError err => Some (inr err)
    | BrokerFell =>
      (fun snap => if IsZero (sn_FetchedAt snap) && negb (bool_decide (sn_Err snap = ""))
                   then inr ("plan usage: " +:+ sn_Err snap) else inl (sn_Backends snap)) <$> monitor
    end
  else None.

Definition positive_or (d default_ : Duration) : Duration := if (d <=? 0)%Z then default_ else d.

Definition clockNow (override wall : Time) : Time := if IsZero override then wall else override.

(** [planCacheDir]: [env] is [CLAUDIA_PLAN_CACHE]. *)
Definition planCacheDir (join : list string -> string) (env : string) (user : string + string)
    (override : string) : string + string :=
  if negb (bool_decide (override = "")) then inl override
  else if negb (bool_decide (env = "")) then inl env
  else match user with
       | inl root => inl (join [root; "claudia"; "plan-usage"])
       | inr err => inr ("plan cache: " +:+ err)
       end.

(** The arguments of the fetch when the caller gives none of its own. *)
Definition cache_fetch_args (a : PlanUsageCacheArgs) (dir : string) (now : Time) : AllPlanUsageArgs :=
  let all := default (MkAll [] now "" false) (ca_All a) in
  MkAll (qb_Providers all) (clockNow (qb_Now all) now)
    (if decide (qb_ThrottleDir all = "") then dir else qb_ThrottleDir all) (ca_Refresh a).

(** ** A call *)

(** What a call returns: its readings, and an error that can come with them. *)
Definition cache_result : Type := list PlanUsage * option string.

(** What a call that held the lease returns once it has released it: that, or
    the failure of its fetch with whatever the snapshot holds then. *)
Inductive cache_out := Out (r : cache_result) | FetchFailed (err : string).

Inductive cache_phase :=
  | COpening                       (* before its first look at the snapshot *)
  | CLooking                       (* at the loop's head *)
  | CTrying                        (* about to try the lock *)
  | CRefused                       (* another call holds the lock *)
  | CLocked                        (* has the lock *)
  | CLive                          (* has the lock, and the lease was not quiet *)
  | CLeasing                       (* about to write its lease *)
  | CUnlocking (out : option cache_result)   (* gives the lock back without a lease *)
  | CHeld                          (* has the lease *)
  | CMissed                        (* looked again, and will fetch *)
  | CFetching
  | CBeating (fetched : list PlanUsage + string)
  | CPublishing (doc : planCacheSnapshot)
  | CReleasing (out : cache_out)
  | CRemoving (out : cache_out)
  | CEnding (out : cache_out)
  | CPolling                       (* between two passes of the loop *)
  | CReturned (r : cache_result)
  | CDead.

Record cache_call := MkCacheCall {
  cc_refresh : bool; cc_ttl : Duration; cc_stale : Duration; cc_phase : cache_phase }.

Definition at_cache (c : cache_call) (p : cache_phase) : cache_call :=
  MkCacheCall (cc_refresh c) (cc_ttl c) (cc_stale c) p.

(** The three files; [dk_lock] is the call that holds the lock. *)
Record disk := MkDisk {
  dk_snap : file planCacheSnapshot; dk_lease : file planCacheLease; dk_lock : option nat }.

#[export] Instance eta_disk : Eta disk := fun d => MkDisk (dk_snap d) (dk_lease d) (dk_lock d).
#[export] Hint Extern 1 (@Setter disk _ _) => setter_of eta_disk : typeclass_instances.

(** What a cut finds outside: whether the context has ended or its deadline
    passed, an error of the lock's file, what a write of the lease leaves, with
    its error, what the fetch gives, and the error of writing the snapshot. *)
Record cache_outside := MkCacheOutside {
  co_ctx : option string; co_late : bool; co_lock : option string;
  co_lease : option (string * file planCacheLease); co_fetch : list PlanUsage + string;
  co_write : option string }.

(** What happened to the snapshot, newest first in a log. A fetch is settled
    when what it gave is published, cannot be, or its caller died. *)
Inductive cache_event :=
  | Fetched (i : nat) (at_ : Time) (refresh : bool) (ttl : Duration)
  | Published (i : nat) (at_ : Time)
  | Settled (i : nat)
  | MarkedStale.

(** A look at the snapshot by a call that may be answered by it. *)
Definition look (c : cache_call) (now : Time) (d : disk) : option (list PlanUsage) :=
  if cc_refresh c then None else ps_Backends <$> readFreshPlanSnapshot (dk_snap d) now (cc_ttl c).

(** A call whose context has ended takes any snapshot. *)
Definition any_snapshot (err : string) (d : disk) : cache_result :=
  match readPlanSnapshot (dk_snap d) with
  | Some s => (ps_Backends s, None)
  | None => ([], Some err)
  end.

(** [writePlanLease] at [now]. *)
Definition write_lease (now : Time) (o : cache_outside) (d : disk) : disk :=
  d <| dk_lease := match co_lease o with Some (_, left_) => left_ | None => Holds (MkLease now) end |>.

Definition final_result (out : cache_out) (d : disk) : cache_result :=
  match out with
  | Out r => r
  | FetchFailed err => (match readPlanSnapshot (dk_snap d) with Some s => ps_Backends s | None => [] end, Some err)
  end.

(** The next cut of a call [i]: its phase, the files, and what happened. *)
Definition call_pass (i : nat) (c : cache_call) (now : Time) (o : cache_outside) (d : disk)
    : option (cache_phase * disk * list cache_event) :=
  match cc_phase c with
  | COpening =>
    Some (match look c now d with Some us => CReturned (us, None) | None => CLooking end, d, [])
  | CLooking =>
    match co_ctx o with
    | Some err => Some (CReturned (any_snapshot err d), d, [])
    | None => Some (match look c now d with Some us => CReturned (us, None) | None => CTrying end, d, [])
    end
  | CTrying =>
    match co_lock o, dk_lock d with
    | Some err, _ => Some (CReturned ([], Some err), d, [])
    | None, Some _ => Some (CRefused, d, [])
    | None, None => Some (CLocked, d <| dk_lock := Some i |>, [])
    end
  | CRefused =>
    Some (CPolling, if leaseQuiet (dk_lease d) (cc_stale c) now then d <| dk_lease := Absent |> else d, [])
  | CLocked => Some (if leaseQuiet (dk_lease d) (cc_stale c) now then CLeasing else CLive, d, [])
  | CLive => Some (if leaseExists (dk_lease d) then CUnlocking None else CLeasing, d, [])
  | CLeasing =>
    Some (match co_lease o with Some (err, _) => CUnlocking (Some ([], Some err)) | None => CHeld end,
          write_lease now o d, [])
  | CUnlocking out =>
    Some (match out with Some r => CReturned r | None => CPolling end, d <| dk_lock := None |>, [])
  | CHeld =>
    Some (match look c now d with Some us => CReleasing (Out (us, None)) | None => CMissed end, d, [])
  | CMissed => Some (CFetching, d, [Fetched i now (cc_refresh c) (cc_ttl c)])
  | CFetching => Some (CBeating (co_fetch o), d, [])
  | CBeating (inr err) => Some (CReleasing (FetchFailed err), write_lease now o d, [Settled i])
  | CBeating (inl us) => Some (CPublishing (MkCacheSnapshot now us), write_lease now o d, [])
  | CPublishing doc =>
    match co_write o with
    | Some err => Some (CReleasing (Out (ps_Backends doc, Some err)), d, [Settled i])
    | None => Some (CReleasing (Out (ps_Backends doc, None)), d <| dk_snap := Holds doc |>,
                    [Settled i; Published i (ps_FetchedAt doc)])
    end
  | CReleasing out => Some (CRemoving out, d <| dk_lock := None |>, [])
  | CRemoving out => Some (CEnding out, d <| dk_lease := Absent |>, [])
  | CEnding out => Some (CReturned (final_result out d), d, [])
  | CPolling =>
    Some (match co_late o, co_ctx o with
          | true, _ => CReturned (any_snapshot "context deadline exceeded" d)
          | false, Some err => CReturned (any_snapshot err d)
          | false, None => CLooking
          end, d, [])
  | CReturned _ | CDead => None
  end.

(** ** The processes of a host *)

(** The lock goes with its holder when that dies. *)
Definition locked_phase (p : cache_phase) : bool :=
  match p with
  | CLocked | CLive | CLeasing | CUnlocking _ | CHeld | CMissed | CFetching | CBeating _
  | CPublishing _ | CReleasing _ => true
  | _ => false
  end.

(** From the fetch's start until it is settled. *)
Definition fetching_phase (p : cache_phase) : bool :=
  match p with CFetching | CBeating _ | CPublishing _ => true | _ => false end.

(** The heartbeat runs from the lease's writing until the release waits for it. *)
Definition beating_phase (p : cache_phase) : bool :=
  match p with CHeld | CMissed | CFetching | CBeating _ | CPublishing _ | CReleasing _ => true | _ => false end.

Definition crash (i : nat) (c : cache_call) (d : disk) : disk * list cache_event :=
  (if locked_phase (cc_phase c) then d <| dk_lock := None |> else d,
   if fetching_phase (cc_phase c) then [Settled i] else []).

(** [markDefaultPlanCacheStale] reads the snapshot and writes it back with no
    time, without the lock: [cw_marks] are the snapshots read and not written. *)
Record cache_world := MkCacheWorld {
  cw_now : Time; cw_disk : disk; cw_calls : gmap nat cache_call; cw_marks : list planCacheSnapshot;
  cw_log : list cache_event }.

Inductive cache_step : cache_world -> cache_world -> Prop :=
  | ticks now now' d calls marks log :
      (now <= now')%Z ->
      cache_step (MkCacheWorld now d calls marks log) (MkCacheWorld now' d calls marks log)
  | loads i refresh ttl stale now d calls marks log :
      calls !! i = None ->
      cache_step (MkCacheWorld now d calls marks log)
        (MkCacheWorld now d
           (<[i := MkCacheCall refresh (positive_or ttl DefaultPlanCacheTTL)
                     (positive_or stale DefaultPlanCacheLockStale) COpening]> calls) marks log)
  | passes i c o p d' es now d calls marks log :
      calls !! i = Some c -> call_pass i c now o d = Some (p, d', es) ->
      cache_step (MkCacheWorld now d calls marks log)
        (MkCacheWorld now d' (<[i := at_cache c p]> calls) marks (es ++ log))
  | beats i c o now d calls marks log :
      calls !! i = Some c -> beating_phase (cc_phase c) = true ->
      cache_step (MkCacheWorld now d calls marks log)
        (MkCacheWorld now (write_lease now o d) calls marks log)
  | crashes i c now d calls marks log :
      calls !! i = Some c ->
      cache_step (MkCacheWorld now d calls marks log)
        (MkCacheWorld now (crash i c d).1 (<[i := at_cache c CDead]> calls) marks ((crash i c d).2 ++ log))
  | mark_reads s now d calls marks log :
      readPlanSnapshot (dk_snap d) = Some s -> IsZero (ps_FetchedAt s) = false ->
      cache_step (MkCacheWorld now d calls marks log) (MkCacheWorld now d calls (s :: marks) log)
  | mark_writes s now d calls marks log :
      s ∈ marks ->
      cache_step (MkCacheWorld now d calls marks log)
        (MkCacheWorld now (d <| dk_snap := Holds (MkCacheSnapshot 0 (ps_Backends s)) |>) calls marks
           (MarkedStale :: log)).

(** A host starts with the files of its last boot, which no call holds. *)
Inductive cache_reachable : cache_world -> Prop :=
  | cache_boot now snap lease : cache_reachable (MkCacheWorld now (MkDisk snap lease None) ∅ [] [])
  | cache_steps w w' : cache_reachable w -> cache_step w w' -> cache_reachable w'.
