(* ===== verification/PlanCacheTheorems.v ===== *)
(** * PlanCacheTheorems: the fetches of a host follow one another

    The invariant of [PlanCache]'s calls and what follows from it. *)

From S2P Require Import Prelude GoLib PlanBand PlanMonitor PlanCache.
From stdpp Require Import relations.

(** ** What a log says *)

(** When the snapshot that readers find current was published. *)
Fixpoint last_published (log : list cache_event) : option Time :=
  match log with
  | [] => None
  | Published _ p :: _ => Some p
  | MarkedStale :: _ => None
  | _ :: log' => last_published log'
  end.

(** The call whose fetch is not settled. *)
Fixpoint fetching_now (log : list cache_event) : option nat :=
  match log with
  | [] => None
  | Fetched i _ _ _ :: _ => Some i
  | Settled _ :: _ => None
  | _ :: log' => fetching_now log'
  end.

(** Each fetch starts when the one before is settled and, unless it is forced,
    when what was published last is older than its TTL. *)
Fixpoint single_flight (log : list cache_event) : Prop :=
  match log with
  | [] => True
  | e :: log' =>
    match e with
    | Fetched _ t refresh ttl =>
      fetching_now log' = None
      /\ (refresh = false -> forall p, last_published log' = Some p -> (ttl < Sub t p)%Z)
    | _ => True
    end /\ single_flight log'
  end.

(** ** One cut *)

(** What a cut does to the lock. *)
Lemma pass_lock i c now o d p d' es :
  call_pass i c now o d = Some (p, d', es) ->
  (locked_phase p = locked_phase (cc_phase c) /\ dk_lock d' = dk_lock d)
  \/ (locked_phase (cc_phase c) = false /\ locked_phase p = true
      /\ dk_lock d = None /\ dk_lock d' = Some i)
  \/ (locked_phase (cc_phase c) = true /\ locked_phase p = false /\ dk_lock d' = None).
Proof.
  unfold call_pass. destruct (cc_phase c) as [| | | | | | |[]| | | |[]| | | | | | |]; intros H;
    repeat case_match; simplify_eq/=; auto 8.
Qed.

(** What a cut adds to the log. *)
Lemma pass_events i c now o d p d' es :
  call_pass i c now o d = Some (p, d', es) ->
  (es = [] /\ dk_snap d' = dk_snap d /\ fetching_phase p = fetching_phase (cc_phase c)
     /\ (p = CMissed -> cc_phase c = CHeld /\ look c now d = None))
  \/ (es = [Fetched i now (cc_refresh c) (cc_ttl c)] /\ cc_phase c = CMissed /\ p = CFetching
      /\ dk_snap d' = dk_snap d)
  \/ (es = [Settled i] /\ fetching_phase (cc_phase c) = true /\ p <> CMissed /\ dk_snap d' = dk_snap d)
  \/ (exists s, es = [Settled i; Published i (ps_FetchedAt s)] /\ fetching_phase (cc_phase c) = true
      /\ p <> CMissed /\ dk_snap d' = Holds s).
Proof.
  unfold call_pass. destruct (cc_phase c) as [| | | | | | |[]| | | |[]| | | | | | |]; intros H;
    repeat case_match; simplify_eq/=; try (left; by split_and!);
    try (right; left; by split_and!); try (right; right; left; by split_and!).
  right. right. right. by eexists.
Qed.

Lemma Sub_mono now now' p : (now <= now')%Z -> (Sub now p <= Sub now' p)%Z.
Proof. unfold Sub. lia. Qed.

(** ** The invariant *)

Record cache_inv (w : cache_world) : Prop := {
  ci_holds : forall i c, cw_calls w !! i = Some c -> locked_phase (cc_phase c) = true ->
    dk_lock (cw_disk w) = Some i;
  ci_held : forall i, dk_lock (cw_disk w) = Some i ->
    exists c, cw_calls w !! i = Some c /\ locked_phase (cc_phase c) = true;
  ci_fetching : forall i, fetching_now (cw_log w) = Some i ->
    exists c, cw_calls w !! i = Some c /\ fetching_phase (cc_phase c) = true;
  ci_published : forall p, last_published (cw_log w) = Some p ->
    exists s, dk_snap (cw_disk w) = Holds s /\ ps_FetchedAt s = p;
  ci_missed : forall i c, cw_calls w !! i = Some c -> cc_phase c = CMissed -> cc_refresh c = false ->
    forall p, last_published (cw_log w) = Some p -> (cc_ttl c < Sub (cw_now w) p)%Z;
  ci_log : single_flight (cw_log w) }.

Lemma fetching_locked p : fetching_phase p = true -> locked_phase p = true.
Proof. by destruct p. Qed.

(** Two calls with the lock are one. *)
Lemma holders_one w i j c d :
  cache_inv w -> cw_calls w !! i = Some c -> cw_calls w !! j = Some d ->
  locked_phase (cc_phase c) = true -> locked_phase (cc_phase d) = true -> i = j.
Proof.
  intros I Hi Hj Hc Hd. pose proof (ci_holds _ I _ _ Hi Hc). pose proof (ci_holds _ I _ _ Hj Hd).
  congruence.
Qed.

(** A call goes to phase [p], and the lock with it. *)
Definition lock_moves (i : nat) (from p : cache_phase) (lock lock' : option nat) : Prop :=
  (locked_phase p = locked_phase from /\ lock' = lock)
  \/ (locked_phase from = false /\ locked_phase p = true /\ lock = None /\ lock' = Some i)
  \/ (locked_phase from = true /\ locked_phase p = false /\ lock' = None).

Lemma holds_move w i c p lock' :
  cache_inv w -> cw_calls w !! i = Some c ->
  lock_moves i (cc_phase c) p (dk_lock (cw_disk w)) lock' ->
  forall j e, <[i := at_cache c p]> (cw_calls w) !! j = Some e -> locked_phase (cc_phase e) = true ->
    lock' = Some j.
Proof.
  intros I Hi M j e Hj He. apply lookup_insert_Some in Hj as [[<- <-]|[Ne Hj]]; cbn in He.
  - destruct M as [[E ->]|[(_ & _ & _ & ->)|(_ & E & _)]]; [|done|congruence].
    apply (ci_holds _ I _ _ Hi). congruence.
  - pose proof (ci_holds _ I _ _ Hj He) as Lj.
    destruct M as [[_ ->]|[(_ & _ & L & _)|(L & _)]]; [done|congruence|].
    pose proof (ci_holds _ I _ _ Hi L). congruence.
Qed.

Lemma held_move w i c p lock' :
  cache_inv w -> cw_calls w !! i = Some c ->
  lock_moves i (cc_phase c) p (dk_lock (cw_disk w)) lock' ->
  forall j, lock' = Some j ->
    exists e, <[i := at_cache c p]> (cw_calls w) !! j = Some e /\ locked_phase (cc_phase e) = true.
Proof.
  intros I Hi M j ->. destruct M as [[E L]|[(_ & E & _ & L)|(_ & _ & L)]]; [| |done].
  - destruct (ci_held _ I j) as (e & He & Le); [done|]. destruct (decide (i = j)) as [<-|Ne].
    + exists (at_cache c p). rewrite lookup_insert_eq. cbn. split; [done|congruence].
    + exists e. by rewrite lookup_insert_ne.
  - injection L as ->. exists (at_cache c p). by rewrite lookup_insert_eq.
Qed.

(** A call that is not, or stays, in the middle of a fetch. *)
Lemma fetching_move w i c p :
  cache_inv w -> cw_calls w !! i = Some c -> fetching_phase p = fetching_phase (cc_phase c) ->
  forall j, fetching_now (cw_log w) = Some j ->
    exists e, <[i := at_cache c p]> (cw_calls w) !! j = Some e /\ fetching_phase (cc_phase e) = true.
Proof.
  intros I Hi Hp j Hj. destruct (ci_fetching _ I j Hj) as (e & He & Fe).
  destruct (decide (i = j)) as [<-|Ne].
  - exists (at_cache c p). rewrite lookup_insert_eq. cbn. split; [done|congruence].
  - exists e. by rewrite lookup_insert_ne.
Qed.

(** While a call looks and fetches nobody else's fetch is open. *)
Lemma missed_alone w i c :
  cache_inv w -> cw_calls w !! i = Some c -> cc_phase c = CMissed -> fetching_now (cw_log w) = None.
Proof.
  intros I Hi Hc. destruct (fetching_now (cw_log w)) as [j|] eqn:F; [|done].
  destruct (ci_fetching _ I j F) as (e & He & Fe).
  assert (i = j) as <-.
  { apply (holders_one w i j c e); try done; [by rewrite Hc|by apply fetching_locked]. }
  rewrite He in Hi. injection Hi as ->. by rewrite Hc in Fe.
Qed.

Lemma look_missed w i c d now :
  cache_inv w -> cw_calls w !! i = Some c -> cw_disk w = d -> cw_now w = now ->
  look c now d = None -> cc_refresh c = false ->
  forall p, last_published (cw_log w) = Some p -> (cc_ttl c < Sub now p)%Z.
Proof.
  intros I Hi <- <- L R p Hp. destruct (ci_published _ I p Hp) as (s & Hs & <-).
  unfold look in L. rewrite R in L. unfold readFreshPlanSnapshot in L. rewrite Hs in L. cbn in L.
  destruct (_ <? _)%Z eqn:E; [|done]. by apply Z.ltb_lt.
Qed.

Lemma inv_pass i c o p d' es now d calls marks log :
  let w := MkCacheWorld now d calls marks log in
  cache_inv w -> calls !! i = Some c -> call_pass i c now o d = Some (p, d', es) ->
  cache_inv (MkCacheWorld now d' (<[i := at_cache c p]> calls) marks (es ++ log)).
Proof.
  intros w I Hi P. pose proof (pass_lock _ _ _ _ _ _ _ _ P) as M.
  pose proof (pass_events _ _ _ _ _ _ _ _ P) as Ev.
  assert (forall j e, j <> i -> calls !! j = Some e -> cc_phase e = CMissed ->
            fetching_phase (cc_phase c) = true -> False) as Alone.
  { intros j e Ne Hj He Fc. apply Ne, (holders_one w j i e c); try done; [by rewrite He|].
    by apply fetching_locked. }
  split; cbn.
  - exact (holds_move w i c p _ I Hi M).
  - exact (held_move w i c p _ I Hi M).
  - destruct Ev as [(-> & _ & F & _)|[(-> & _ & -> & _)|[(-> & _)|(s & -> & _)]]]; cbn; try done.
    + exact (fetching_move w i c p I Hi F).
    + intros j [= <-]. exists (at_cache c CFetching). by rewrite lookup_insert_eq.
  - destruct Ev as [(-> & -> & _)|[(-> & _ & _ & ->)|[(-> & _ & _ & ->)|(s & -> & _ & _ & ->)]]]; cbn;
      try exact (ci_published _ I).
    intros q [= <-]. eauto.
  - intros j e Hj He Re q Hq. apply lookup_insert_Some in Hj as [[<- <-]|[Ne Hj]]; cbn in He, Re |- *.
    + destruct Ev as [(-> & _ & _ & L)|[(_ & _ & E & _)|[(_ & _ & E & _)|(s & _ & _ & E & _)]]];
        [|congruence|done|done].
      destruct (L He) as [_ L']. exact (look_missed w i c d now I Hi eq_refl eq_refl L' Re q Hq).
    + destruct Ev as [(-> & _)|[(-> & _)|[(-> & F & _)|(s & -> & F & _)]]]; cbn in Hq.
      * exact (ci_missed _ I j e Hj He Re q Hq).
      * exact (ci_missed _ I j e Hj He Re q Hq).
      * destruct (Alone j e); done.
      * destruct (Alone j e); done.
  - pose proof (ci_log _ I) as Lg.
    destruct Ev as [(-> & _)|[(-> & Hc & _)|[(-> & _)|(s & -> & _)]]]; cbn; try done.
    split; [|done]. split; [exact (missed_alone w i c I Hi Hc)|].
    intros R q Hq. exact (ci_missed _ I i c Hi Hc R q Hq).
Qed.

Lemma inv_crash i c now d calls marks log :
  let w := MkCacheWorld now d calls marks log in
  cache_inv w -> calls !! i = Some c ->
  cache_inv (MkCacheWorld now (crash i c d).1 (<[i := at_cache c CDead]> calls) marks
               ((crash i c d).2 ++ log)).
Proof.
  intros w I Hi.
  assert (lock_moves i (cc_phase c) CDead (dk_lock d) (dk_lock (crash i c d).1)) as M.
  { unfold lock_moves, crash. cbn. destruct (locked_phase (cc_phase c)); cbn; auto. }
  assert (dk_snap (crash i c d).1 = dk_snap d) as Sn by (unfold crash; cbn; by case_match).
  assert (last_published ((crash i c d).2 ++ log) = last_published log) as Lp
    by (unfold crash; cbn; by case_match).
  split; cbn [cw_now cw_disk cw_calls cw_log]; rewrite ?Sn, ?Lp; try exact (ci_published _ I).
  - exact (holds_move w i c CDead _ I Hi M).
  - exact (held_move w i c CDead _ I Hi M).
  - unfold crash. cbn [snd]. destruct (fetching_phase (cc_phase c)) eqn:F; [done|].
    exact (fetching_move w i c CDead I Hi (eq_sym F)).
  - intros j e Hj He. apply lookup_insert_Some in Hj as [[<- <-]|[Ne Hj]]; [done|].
    exact (ci_missed _ I j e Hj He).
  - pose proof (ci_log _ I). unfold crash. cbn [snd]. by destruct (fetching_phase (cc_phase c)).
Qed.

(** The lease is not what excludes: any change of it keeps the invariant. *)
Lemma inv_lease now d d' calls marks log :
  cache_inv (MkCacheWorld now d calls marks log) ->
  dk_snap d' = dk_snap d -> dk_lock d' = dk_lock d ->
  cache_inv (MkCacheWorld now d' calls marks log).
Proof. intros [I1 I2 I3 I4 I5 I6] Hs Hl. split; cbn in *; rewrite ?Hs, ?Hl; done. Qed.

Lemma cache_step_inv w w' : cache_inv w -> cache_step w w' -> cache_inv w'.
Proof.
  intros I. destruct 1.
  - destruct I as [I1 I2 I3 I4 I5 I6]. split; cbn in *; try done.
    intros i c Hi Hc Hr p Hp. specialize (I5 i c Hi Hc Hr p Hp). pose proof (Sub_mono now now' p). lia.
  - destruct I as [I1 I2 I3 I4 I5 I6]. split; cbn in *; try done.
    + intros j e Hj. apply lookup_insert_Some in Hj as [[<- <-]|[_ Hj]]; [done|]. by apply I1.
    + intros j Hj. destruct (I2 j Hj) as (e & He & Le). exists e. split; [|done].
      rewrite lookup_insert_ne; [done|congruence].
    + intros j Hj. destruct (I3 j Hj) as (e & He & Le). exists e. split; [|done].
      rewrite lookup_insert_ne; [done|congruence].
    + intros j e Hj. apply lookup_insert_Some in Hj as [[<- <-]|[_ Hj]]; [done|]. exact (I5 j e Hj).
  - by eapply inv_pass.
  - by eapply inv_lease.
  - by apply inv_crash.
  - by destruct I.
  - destruct I as [I1 I2 I3 I4 I5 I6]. split; cbn in *; try done.
Qed.

Lemma cache_reachable_inv w : cache_reachable w -> cache_inv w.
Proof.
  induction 1 as [now snap lease|w w' _ IH S]; [|by eapply cache_step_inv].
  by split.
Qed.

(** ** The lock comes back *)

(** How many cuts a call that has the lock makes at most before it gives it back. *)
Definition passes_left (p : cache_phase) : nat :=
  match p with
  | CLocked => 9 | CLive => 8 | CLeasing => 7 | CHeld => 6 | CMissed => 5 | CFetching => 4
  | CBeating _ => 3 | CPublishing _ => 2 | CUnlocking _ | CReleasing _ => 1
  | _ => 0
  end.

Lemma pass_nearer i c now o d :
  locked_phase (cc_phase c) = true ->
  exists p d' es, call_pass i c now o d = Some (p, d', es)
    /\ passes_left p < passes_left (cc_phase c)
    /\ (passes_left p = 0 -> dk_lock d' = None).
Proof.
  unfold call_pass. destruct (cc_phase c) as [| | | | | | |[]| | | |[]| | | | | | |]; intros H; try done;
    repeat case_match; do 3 eexists; (split; [reflexivity|]); cbn; (split; [lia|]); intros; try done; lia.
Qed.

Definition no_errors : cache_outside := MkCacheOutside None false None None (inr "") None.

(** Nobody has the lock and the lease is quiet: a call that tries gets both. *)
Lemma lease_taken i c now d calls marks log :
  calls !! i = Some c -> cc_phase c = CTrying -> dk_lock d = None ->
  leaseQuiet (dk_lease d) (cc_stale c) now = true ->
  rtc cache_step (MkCacheWorld now d calls marks log)
    (MkCacheWorld now (MkDisk (dk_snap d) (Holds (MkLease now)) (Some i)) (<[i := at_cache c CHeld]> calls)
       marks log).
Proof.
  intros Hi Hc Hl Hq. destruct d as [snap lease lock]. cbn in Hl, Hq. subst lock.
  assert (forall p p' d1 d2 l, calls !! i = Some c ->
    call_pass i (at_cache c p) now no_errors d1 = Some (p', d2, []) ->
    cache_step (MkCacheWorld now d1 (<[i := at_cache c p]> calls) marks l)
      (MkCacheWorld now d2 (<[i := at_cache c p']> calls) marks l)) as Go.
  { intros p p' d1 d2 l _ P.
    pose proof (passes i (at_cache c p) no_errors p' d2 [] now d1 (<[i := at_cache c p]> calls) marks l
                  (lookup_insert_eq _ _ _) P) as S.
    by rewrite insert_insert_eq in S. }
  rewrite <-(insert_id calls i c Hi) at 1. destruct c as [rf ttl stale ph]. cbn in Hc, Hq. subst ph.
  eapply rtc_l; [apply (Go CTrying CLocked); [done|reflexivity]|].
  eapply rtc_l; [apply (Go CLocked CLeasing); [done|cbn; by rewrite Hq]|].
  eapply rtc_l; [apply (Go CLeasing CHeld); [done|reflexivity]|]. apply rtc_refl.
Qed.

(** ** Running calls *)

Definition run_pass (o : cache_outside) (w : cache_world) (i : nat) : cache_world :=
  match cw_calls w !! i with
  | Some c =>
    match call_pass i c (cw_now w) o (cw_disk w) with
    | Some (p, d', es) =>
      MkCacheWorld (cw_now w) d' (<[i := at_cache c p]> (cw_calls w)) (cw_marks w) (es ++ cw_log w)
    | None => w
    end
  | None => w
  end.

Definition run_crash (i : nat) (w : cache_world) : cache_world :=
  match cw_calls w !! i with
  | Some c => MkCacheWorld (cw_now w) (crash i c (cw_disk w)).1 (<[i := at_cache c CDead]> (cw_calls w))
                (cw_marks w) ((crash i c (cw_disk w)).2 ++ cw_log w)
  | None => w
  end.

Definition run_load (i : nat) (ttl stale : Duration) (t : Time) (w : cache_world) : cache_world :=
  MkCacheWorld (cw_now w + Z.abs t) (cw_disk w)
    (<[i := MkCacheCall false (positive_or ttl DefaultPlanCacheTTL)
              (positive_or stale DefaultPlanCacheLockStale) COpening]> (cw_calls w)) (cw_marks w) (cw_log w).

Lemma run_passes o w l : cache_reachable w -> cache_reachable (foldl (run_pass o) w l).
Proof.
  revert w. induction l as [|i l IH]; intros w R; [done|]. cbn. apply IH.
  destruct w as [now d calls marks log]. unfold run_pass. cbn [cw_calls cw_now cw_disk cw_marks cw_log].
  destruct (calls !! i) as [c|] eqn:Hi; [|done].
  destruct (call_pass i c now o d) as [[[p d'] es]|] eqn:P; [|done].
  eapply (cache_steps _ _ R), passes; [exact Hi|exact P].
Qed.

Lemma run_crash_reachable i w : cache_reachable w -> cache_reachable (run_crash i w).
Proof.
  intros R. destruct w as [now d calls marks log]. unfold run_crash. cbn.
  destruct (calls !! i) as [c|] eqn:Hi; [|done]. by eapply (cache_steps _ _ R), crashes.
Qed.

Lemma run_load_reachable i ttl stale t w :
  cw_calls w !! i = None -> cache_reachable w -> cache_reachable (run_load i ttl stale t w).
Proof.
  intros Hi R. destruct w as [now d calls marks log]. cbn in Hi. unfold run_load. cbn.
  assert (cache_reachable (MkCacheWorld (now + Z.abs t) d calls marks log)) as R'
    by (eapply (cache_steps _ _ R), ticks; lia).
  by eapply (cache_steps _ _ R'), loads.
Qed.

(** The lock is taken from nobody: only a step of its holder, which releases it
    or dies, ends its hold. *)
Lemma lock_kept w w' i :
  cache_inv w -> cache_step w w' -> dk_lock (cw_disk w) = Some i ->
  dk_lock (cw_disk w') = Some i
  \/ dk_lock (cw_disk w') = None
     /\ exists c p, cw_calls w !! i = Some c /\ cw_calls w' !! i = Some (at_cache c p) /\ locked_phase p = false.
Proof.
  intros I S L. destruct S as [| |j c o p d' es now d calls marks log Hj P| |j c now d calls marks log Hj| |];
    cbn in *; try (by left).
  - destruct (pass_lock _ _ _ _ _ _ _ _ P) as [[_ ->]|[(_ & _ & E & _)|(Lc & Lp & ->)]]; [by left|congruence|].
    right. split; [done|]. pose proof (ci_holds _ I j c Hj Lc) as E. cbn in E. replace i with j by congruence.
    exists c, p. by rewrite lookup_insert_eq.
  - unfold crash. cbn [fst]. destruct (locked_phase (cc_phase c)) eqn:Lc; [|by left].
    right. split; [done|]. pose proof (ci_holds _ I j c Hj Lc) as E. cbn in E. replace i with j by congruence.
    exists c, CDead. by rewrite lookup_insert_eq.
Qed.

(** ** The property *)

(** C19: in every reachable state of a host's files and calls, whatever dies, at
    most one call has the lock, and only its holder, in giving it back or dying,
    ends its hold, however quiet its lease; a fetch started only when the one
    before it was published, had failed or had lost its caller, and, unless
    forced, only when what was last published, if it was not marked stale since,
    was older than the call's TTL; a call that has the lock gives it back within
    nine of its own steps; and one that tries while nobody has the lock gets it
    and the lease once that is released or has been quiet for its LockStale. *)
Theorem fetches_follow_one_another w :
  cache_reachable w ->
  (forall i j c d, cw_calls w !! i = Some c -> cw_calls w !! j = Some d ->
     locked_phase (cc_phase c) = true -> locked_phase (cc_phase d) = true -> i = j)
  /\ single_flight (cw_log w)
  /\ (forall i, dk_lock (cw_disk w) = Some i ->
       exists c, cw_calls w !! i = Some c /\ passes_left (cc_phase c) <= 9
         /\ forall now o d, exists p d' es, call_pass i c now o d = Some (p, d', es)
              /\ passes_left p < passes_left (cc_phase c) /\ (passes_left p = 0 -> dk_lock d' = None))
  /\ (forall i c, cw_calls w !! i = Some c -> cc_phase c = CTrying -> dk_lock (cw_disk w) = None ->
       leaseQuiet (dk_lease (cw_disk w)) (cc_stale c) (cw_now w) = true ->
       exists w', rtc cache_step w w' /\ dk_lock (cw_disk w') = Some i
         /\ cw_calls w' !! i = Some (at_cache c CHeld))
  /\ (forall i w', cache_step w w' -> dk_lock (cw_disk w) = Some i ->
       dk_lock (cw_disk w') = Some i
       \/ dk_lock (cw_disk w') = None
          /\ exists c p, cw_calls w !! i = Some c /\ cw_calls w' !! i = Some (at_cache c p) /\ locked_phase p = false).
Proof.
  intros I%cache_reachable_inv. split_and!; [| | | |intros i w' S; by apply lock_kept].
  - intros i j c d. by apply holders_one.
  - exact (ci_log _ I).
  - intros i Hi. destruct (ci_held _ I i Hi) as (c & Hc & Lc). exists c. split_and!; [done| |].
    + destruct (cc_phase c); cbn; lia.
    + intros now o d. by apply pass_nearer.
  - destruct w as [now d calls marks log]. intros i c Hi Hc Hl Hq. eexists.
    split; [by apply (lease_taken i c)|]. cbn. by rewrite lookup_insert_eq.
Qed.

(** A call fetches and dies, and another takes its lease over. *)
Lemma fetches_follow_one_another_witness :
  let o := MkCacheOutside None false None None (inl []) None in
  let boot := MkCacheWorld 10 (MkDisk Absent Absent None) ∅ [] [] in
  let first := foldl (run_pass o) (run_load 0 300 20 0 boot) [0; 0; 0; 0; 0; 0; 0] in
  let w := foldl (run_pass o) (run_load 1 300 20 30 (run_crash 0 first)) [1; 1; 1; 1; 1; 1; 1] in
  cw_log w = [Fetched 1 40 false 300; Settled 0; Fetched 0 10 false 300]%Z
  /\ single_flight (cw_log w).
Proof.
  intros o boot first w. split; [vm_compute; reflexivity|].
  apply (fetches_follow_one_another w), run_passes, run_load_reachable; [vm_compute; reflexivity|].
  apply run_crash_reachable, run_passes, run_load_reachable; [reflexivity|]. apply cache_boot.
Defined.
