(* ===== verification/TurnWait.v ===== *)
(** * TurnWait: waiting for a turn's answer

    Models [turn_latch.go], [turn_text.go], the decisions of [turn_wait.go] and
    [WaitForResponse] with its send ([agent.go]). What an agent publishes, when
    its timers fire, when it dies and when the caller's context ends is a
    sequence of stimuli with their times; a timer that is due fires before a
    stimulus of a later time. An event has the fields these functions read. The
    text of [turnWaitError] is left out: how a wait failed is a constructor. *)

From S2P Require Import Prelude GoLib.

(** ** Events *)

Record RequestReceipt := MkReceipt {
  rr_RequestID : string; rr_State : string; rr_TurnIDs : list string }.

(** What a provider's line decodes to: a message whose content is a string,
    blocks with their types, or neither. *)
Inductive line_content := ContentString | ContentBlocks (types : list string) | ContentOther.
Record raw_line := MkLine { rl_Type : string; rl_Content : line_content }.

(** [ev_Raw] is [None] when the line does not parse. *)
Record Event := MkEvent {
  ev_Type : string; ev_TurnID : string; ev_RequestID : string; ev_Receipt : option RequestReceipt;
  ev_Raw : option raw_line; ev_Text : string; ev_StopReason : string; ev_ProgressType : string;
  ev_PreviewUpdate : string; ev_IsError : bool; ev_Reason : string }.

Definition PreviewUpdateAppend : string := "append".
Definition ReasonContextOverflow : string := "context_overflow".
Definition ReceiptStarted : string := "started".

Definition IsTerminalStop (e : Event) : bool :=
  bool_decide (ev_Type e = "assistant")
  && contains ["end_turn"; "stop_sequence"; "max_tokens"] (ev_StopReason e).

(** [appendTurnText]: a delta joins the text, a block starts a line. *)
Definition appendTurnText (b : string) (e : Event) : string :=
  if decide (ev_Text e = "") then b
  else
    (if negb (bool_decide (b = "")) && negb (bool_decide (ev_PreviewUpdate e = PreviewUpdateAppend))
     then b +:+ nl else b) +:+ ev_Text e.

(** What a failed turn is reported as. *)
Definition error_message (e : Event) : string :=
  let msg := TrimSpace (ev_Text e) in
  if decide (msg = "") then "agent turn failed" else msg.

(** ** The latch *)

(** [tl_text] is [None] for a nil builder, [tl_requests] holds the identified
    requests the turn answers. *)
Record turnLatch := MkLatch {
  tl_armed : bool; tl_text : option string; tl_terminal : bool; tl_err : option string;
  tl_requests : gset string }.

Record turnSoFar := MkSoFar { ts_text : string; ts_terminal : bool; ts_err : option string }.

(** The part of an [Agent] that follows its turns: [at_receipts] is
    [SupportsReceipts]. *)
Record agentTurn := MkAgentTurn {
  at_receipts : bool; at_receiptTurnID : string; at_turn : turnLatch }.

Definition no_latch : turnLatch := MkLatch false None false None ∅.
Definition fresh_latch : turnLatch := MkLatch true (Some "") false None ∅.

Definition beginTurn (a : agentTurn) : agentTurn :=
  MkAgentTurn (at_receipts a) (at_receiptTurnID a) fresh_latch.

Definition retireEndedTurnFor (requestID : string) (a : agentTurn) : agentTurn :=
  let t := at_turn a in
  if tl_armed t && (tl_terminal t || bool_decide (is_Some (tl_err t)))
     && negb (bool_decide (requestID ∈ tl_requests t))
  then MkAgentTurn (at_receipts a) (at_receiptTurnID a) no_latch
  else a.

(** The started receipt of a turn, with the turn's id. *)
Definition started_turn (a : agentTurn) (e : Event) : option (RequestReceipt * string) :=
  if negb (at_receipts a) || negb (bool_decide (ev_Type e = "receipt")) then None
  else
    match ev_Receipt e with
    | None => None
    | Some r =>
      if bool_decide (rr_State r = ReceiptStarted)
      then (fun id => (r, id)) <$> list.last (rr_TurnIDs r) else None
    end.

(** The first part of [recordTurnEventLocked]: a started receipt arms the latch
    for a new turn, and names the request it answers. *)
Definition note_receipt (a : agentTurn) (e : Event) : agentTurn :=
  match started_turn a e with
  | None => a
  | Some (r, turnID) =>
    let a := if decide (turnID = at_receiptTurnID a) then a
             else MkAgentTurn (at_receipts a) turnID fresh_latch in
    let t := at_turn a in
    if tl_armed t && negb (bool_decide (rr_RequestID r = ""))
    then MkAgentTurn (at_receipts a) (at_receiptTurnID a)
           (MkLatch true (tl_text t) (tl_terminal t) (tl_err t) ({[rr_RequestID r]} ∪ tl_requests t))
    else a
  end.

(** The second part: the event is folded into the armed turn. *)
Definition fold_event (t : turnLatch) (e : Event) : turnLatch :=
  if negb (tl_armed t) then t
  else if ev_IsError e then
    match tl_err t with
    | None => MkLatch true (tl_text t) (tl_terminal t) (Some (error_message e)) (tl_requests t)
    | Some _ => t
    end
  else if negb (bool_decide (ev_Type e = "assistant")) then t
  else MkLatch true (Some (appendTurnText (default "" (tl_text t)) e))
         (tl_terminal t || IsTerminalStop e) (tl_err t) (tl_requests t).

Definition recordTurnEvent (a : agentTurn) (e : Event) : agentTurn :=
  let a := note_receipt a e in
  MkAgentTurn (at_receipts a) (at_receiptTurnID a) (fold_event (at_turn a) e).

(** [takeTurnLocked]: one waiter gets the turn. *)
Definition takeTurn (a : agentTurn) : turnSoFar * agentTurn :=
  let t := at_turn a in
  if negb (tl_armed t) then (MkSoFar "" false None, a)
  else (MkSoFar (default "" (tl_text t)) (tl_terminal t) (tl_err t),
        MkAgentTurn (at_receipts a) (at_receiptTurnID a) no_latch).

(** [SendWithRequestID] on the latch: what it does before the write and, for an
    identified request with receipts, again after admission. *)
Definition send_begins (requestID : string) (a : agentTurn) : agentTurn :=
  if bool_decide (requestID = "") || negb (at_receipts a) then beginTurn a
  else retireEndedTurnFor requestID a.

Definition send_returns (requestID : string) (a : agentTurn) : agentTurn :=
  if bool_decide (requestID = "") || negb (at_receipts a) then a
  else retireEndedTurnFor requestID a.

(** ** The wait *)

(** How a wait ends: with the turn's text; with its failure, named an overflow
    or not; because the agent died, went silent, or the caller gave up. *)
Inductive result :=
  | Answer (text : string)
  | TurnFailed (overflow : bool) (msg : string)
  | AgentGone
  | TurnAbandoned
  | CtxDone.

Definition waitSettleDuration : Duration := 250 * 1000000.

(** One call of [WaitForResponse]. [wt_out] is what was emitted, [wt_settle] the
    settle timer, [wt_sawTerminal] and [wt_lastEvent] the witness's record,
    [wt_started] when the call began. *)
Record waiter := MkWaiter {
  wt_text : string; wt_seenTerminal : bool; wt_settle : option Time; wt_out : option result;
  wt_sawTerminal : bool; wt_lastEvent : Time; wt_started : Time }.

#[export] Instance eta_waiter : Eta waiter := fun w =>
  MkWaiter (wt_text w) (wt_seenTerminal w) (wt_settle w) (wt_out w) (wt_sawTerminal w)
    (wt_lastEvent w) (wt_started w).
#[export] Hint Extern 1 (@Setter waiter _ _) => setter_of eta_waiter : typeclass_instances.

(** [emitOnce]: the first outcome stands, and stops the timer. *)
Definition emitOnce (out : result) (w : waiter) : waiter :=
  match wt_out w with
  | Some _ => w
  | None => w <| wt_out := Some out |> <| wt_settle := None |>
  end.

Definition emitOK (w : waiter) : waiter :=
  match wt_out w with
  | Some _ => w
  | None => w <| wt_out := Some (Answer (wt_text w)) |>
  end.

(** The settle timer fires when it is due by [t]. *)
Definition fire_settle (t : Time) (w : waiter) : waiter :=
  match wt_settle w with
  | Some due => if (due <=? t)%Z then (emitOK w) <| wt_settle := None |> else w
  | None => w
  end.

(** [turnWitness.note]. *)
Definition note (t : Time) (e : Event) (w : waiter) : waiter :=
  w <| wt_lastEvent := t |> <| wt_sawTerminal := wt_sawTerminal w || IsTerminalStop e |>.

(** The subscriber [onEvent], at time [t]. *)
Definition onEvent (t : Time) (e : Event) (w : waiter) : waiter :=
  let w := note t e w in
  if ev_IsError e then
    emitOnce (TurnFailed (bool_decide (ev_Reason e = ReasonContextOverflow)) (error_message e)) w
  else if negb (bool_decide (ev_Type e = "assistant")) then w
  else
    let w := w <| wt_text := appendTurnText (wt_text w) e |>
               <| wt_seenTerminal := wt_seenTerminal w || IsTerminalStop e |> in
    if wt_seenTerminal w then w <| wt_settle := Some (Add t waitSettleDuration) |> else w.

(** Subscribing at [t], seeded with the turn recorded so far. *)
Definition subscribe (t : Time) (prior : turnSoFar) : waiter :=
  let w := MkWaiter "" false None None false 0 t in
  match ts_err prior with
  | Some err => emitOnce (TurnFailed false err) w
  | None =>
    w <| wt_text := ts_text prior |> <| wt_seenTerminal := ts_terminal prior |>
      <| wt_settle := if ts_terminal prior then Some (Add t waitSettleDuration) else None |>
  end.

(** What can wake the wait: an event, the death of the agent (for a wait that
    began while it lived), the silence timer (with the last terminal activity),
    the caller's context. *)
Inductive stimulus :=
  | Hear (t : Time) (e : Event)
  | Die (t : Time)
  | Silence (t lastTerm : Time)
  | Cancel (t : Time).

Definition at_time (s : stimulus) : Time :=
  match s with Hear t _ | Die t | Silence t _ | Cancel t => t end.

Definition lastActivity (lastTerm : Time) (w : waiter) : Time :=
  Z.max (wt_started w) (Z.max (wt_lastEvent w) lastTerm).

(** One pass of the loop, under the silence bound [bound]: the wait goes on, or
    ends. *)
Definition wait_pass (bound : Duration) (s : stimulus) (w : waiter) : waiter * option result :=
  let w := fire_settle (at_time s) w in
  match wt_out w with
  | Some out => (w, Some out)
  | None =>
    match s with
    | Hear t e => let w := onEvent t e w in (w, wt_out w)
    | Die _ => if wt_sawTerminal w then (emitOK w, Some (Answer (wt_text w))) else (w, Some AgentGone)
    | Silence t lastTerm =>
      if (Sub t (lastActivity lastTerm w) <? bound)%Z then (w, None) else (w, Some TurnAbandoned)
    | Cancel _ => (w, Some CtxDone)
    end
  end.

(** The whole wait. [None]: it is still waiting when nothing more happens and no
    timer is set. *)
Fixpoint WaitForResponse (bound : Duration) (ss : list stimulus) (w : waiter) : option result :=
  match ss with
  | [] =>
    match wt_out w with
    | Some out => Some out
    | None => match wt_settle w with Some _ => Some (Answer (wt_text w)) | None => None end
    end
  | s :: ss' =>
    match wait_pass bound s w with
    | (_, Some out) => Some out
    | (w, None) => WaitForResponse bound ss' w
    end
  end.

(** ** The silence bound *)

Definition turnSilenceBound : Duration := 30 * Minute.

Definition silenceBound (configured : Duration) : Duration :=
  if (configured <=? 0)%Z then turnSilenceBound else configured.

Definition boundUnderDeadline (bound : Duration) (now deadline : Time) : Duration :=
  let left := Sub deadline now in
  if (left <=? 0)%Z then 0%Z
  else
    let budget := Z.quot left 2 in
    if (budget <? bound)%Z then budget else bound.

(** [turnBound]: the bound a wait runs under, what was configured, and the
    deadline that cut it. *)
Record turnBound := MkBound {
  tb_effective : Duration; tb_configured : Duration; tb_deadline : option Time }.

Definition cut (b : turnBound) : bool := (tb_effective b <? tb_configured b)%Z.

(** [waitBound]: [deadline] is what [waitDeadline] gives. *)
Definition waitBound (configured : Duration) (deadline : option Time) (started : Time) : turnBound :=
  let c := silenceBound configured in
  match deadline with
  | None => MkBound c c None
  | Some d => MkBound (boundUnderDeadline c started d) c (Some d)
  end.
