(* ===== verification/TurnWaitTheorems.v ===== *)
(** * TurnWaitTheorems: a late wait hears what an early one heard

    The properties of [TurnWait]. *)

From S2P Require Import Prelude GoLib TurnWait.

(** ** What a turn comes to *)

Definition is_assistant (e : Event) : bool := bool_decide (ev_Type e = "assistant").

(** The answer or the failure a turn's events add up to, after [text]. *)
Fixpoint verdict (text : string) (ended : bool) (evs : list (Time * Event)) : option result :=
  match evs with
  | [] => if ended then Some (Answer text) else None
  | (_, e) :: evs' =>
    if ev_IsError e
    then Some (TurnFailed (bool_decide (ev_Reason e = ReasonContextOverflow)) (error_message e))
    else if is_assistant e then verdict (appendTurnText text e) (ended || IsTerminalStop e) evs'
    else verdict text ended evs'
  end.

(** When a turn ended, after its block [e] at [t]. *)
Definition ends_by (ended : option Time) (t : Time) (e : Event) : option Time :=
  if bool_decide (is_Some ended) || IsTerminalStop e then Some t else None.

(** Once the turn ended at [ended], what follows it comes before it settles. *)
Fixpoint settles (ended : option Time) (evs : list (Time * Event)) : Prop :=
  match evs with
  | [] => True
  | (t, e) :: evs' =>
    match ended with Some last => (t < last + waitSettleDuration)%Z | None => True end
    /\ settles (if ev_IsError e then ended
                else if is_assistant e then ends_by ended t e else ended) evs'
  end.

Definition heard (evs : list (Time * Event)) : list stimulus :=
  (fun te => Hear te.1 te.2) <$> evs.

(** A wait with this text, that knows when the turn ended. *)
Record hears (text : string) (ended : option Time) (w : waiter) : Prop := {
  hr_text : wt_text w = text;
  hr_seen : wt_seenTerminal w = bool_decide (is_Some ended);
  hr_settle : wt_settle w = (fun t => Add t waitSettleDuration) <$> ended;
  hr_out : wt_out w = None }.

Lemma ends_by_some ended t e :
  bool_decide (is_Some (ends_by ended t e)) = bool_decide (is_Some ended) || IsTerminalStop e.
Proof. unfold ends_by. by destruct (_ || _). Qed.

(** A stimulus that comes before the settle timer is due. *)
Lemma not_due text ended w t :
  hears text ended w ->
  match ended with Some last => (t < last + waitSettleDuration)%Z | None => True end ->
  fire_settle t w = w.
Proof.
  intros [_ _ He _] Hl. unfold fire_settle. rewrite He. destruct ended; [|done].
  cbn. unfold Add. by rewrite (proj2 (Z.leb_gt _ _)).
Qed.

Lemma hears_pass bound text ended w t e :
  hears text ended w ->
  match ended with Some last => (t < last + waitSettleDuration)%Z | None => True end ->
  wait_pass bound (Hear t e) w = (onEvent t e w, wt_out (onEvent t e w)).
Proof.
  intros H Hl. unfold wait_pass. cbn [at_time]. by rewrite (not_due _ _ _ _ H Hl), (hr_out _ _ _ H).
Qed.

Lemma hears_error t e w :
  wt_out w = None -> ev_IsError e = true ->
  wt_out (onEvent t e w)
  = Some (TurnFailed (bool_decide (ev_Reason e = ReasonContextOverflow)) (error_message e)).
Proof.
  intros Ho Er. unfold onEvent, emitOnce. rewrite Er.
  change (wt_out (note t e w)) with (wt_out w). by rewrite Ho.
Qed.

Lemma hears_block text ended w t e :
  hears text ended w -> ev_IsError e = false -> is_assistant e = true ->
  hears (appendTurnText text e) (ends_by ended t e) (onEvent t e w)
  /\ wt_sawTerminal (onEvent t e w) = wt_sawTerminal w || IsTerminalStop e.
Proof.
  destruct w as [x seen settle out saw last begun]. intros [Ht Hs He Ho] Er As. cbn in Ht, Hs, He, Ho.
  subst x seen settle out. unfold onEvent. rewrite Er. fold (is_assistant e). rewrite As.
  cbn -[IsTerminalStop appendTurnText waitSettleDuration].
  unfold ends_by. destruct (bool_decide (is_Some ended) || IsTerminalStop e) eqn:T; [done|].
  apply orb_false_iff in T as [T1 T2]. apply bool_decide_eq_false in T1.
  destruct ended; [by contradict T1|done].
Qed.

Lemma hears_other text ended w t e :
  hears text ended w -> ev_IsError e = false -> is_assistant e = false ->
  hears text ended (onEvent t e w)
  /\ wt_sawTerminal (onEvent t e w) = wt_sawTerminal w.
Proof.
  destruct w as [x seen settle out saw last begun]. intros [Ht Hs He Ho] Er As. cbn in Ht, Hs, He, Ho.
  subst x seen settle out. unfold onEvent. rewrite Er. fold (is_assistant e). rewrite As.
  split; [done|]. cbn. unfold IsTerminalStop. unfold is_assistant in As. by rewrite As, orb_false_r.
Qed.

(** The rest of a turn that settles gives its verdict. *)
Lemma hears_verdict bound evs text ended w :
  hears text ended w -> settles ended evs ->
  WaitForResponse bound (heard evs) w = verdict text (bool_decide (is_Some ended)) evs.
Proof.
  revert text ended w. induction evs as [|[t e] evs IH]; intros text ended w H.
  - intros _. destruct H as [Ht Hs He Ho]. cbn. rewrite Ho, He, Ht. by destruct ended.
  - intros [Hl Hr]. change (heard ((t, e) :: evs)) with (Hear t e :: heard evs).
    cbn [WaitForResponse verdict]. rewrite (hears_pass _ _ _ _ _ _ H Hl).
    destruct (ev_IsError e) eqn:Er; [by rewrite (hears_error _ _ _ (hr_out _ _ _ H) Er)|].
    destruct (is_assistant e) eqn:As.
    + destruct (hears_block _ _ _ t _ H Er As) as [H2 _].
      rewrite (hr_out _ _ _ H2), (IH _ _ _ H2 Hr). by rewrite ends_by_some.
    + destruct (hears_other _ _ _ t _ H Er As) as [H2 _].
      rewrite (hr_out _ _ _ H2). exact (IH _ _ _ H2 Hr).
Qed.

Lemma settles_later la s evs :
  (la <= s)%Z -> settles (Some la) evs -> settles (Some s) evs.
Proof.
  revert la s. induction evs as [|[t e] evs IH]; intros la s Hle; [done|]. intros [Ht Hr].
  split; [lia|]. destruct (ev_IsError e); [by eapply IH|].
  destruct (is_assistant e); [exact Hr|by eapply IH].
Qed.

(** ** What the latch holds *)

Definition folded (t : turnLatch) (evs : list (Time * Event)) : turnLatch :=
  foldl (fun t te => fold_event t te.2) t evs.

Definition recorded (a : agentTurn) (evs : list (Time * Event)) : agentTurn :=
  foldl (fun a te => recordTurnEvent a te.2) a evs.

Lemma folded_err t evs msg :
  tl_armed t = true -> tl_err t = Some msg ->
  tl_armed (folded t evs) = true /\ tl_err (folded t evs) = Some msg.
Proof.
  revert t. induction evs as [|[u e] evs IH]; intros t Ha He; [done|]. cbn. apply IH.
  - unfold fold_event. rewrite Ha, He. cbn. by repeat case_match.
  - unfold fold_event. rewrite Ha, He. cbn. by repeat case_match.
Qed.

Lemma recorded_folded a evs :
  Forall (fun te => started_turn a te.2 = None) evs ->
  at_turn (recorded a evs) = folded (at_turn a) evs
  /\ at_receipts (recorded a evs) = at_receipts a.
Proof.
  revert a. induction evs as [|[u e] evs IH]; intros a F; [done|].
  apply list.Forall_cons in F as [H F]. cbn [snd] in H.
  assert (recordTurnEvent a e
          = MkAgentTurn (at_receipts a) (at_receiptTurnID a) (fold_event (at_turn a) e)) as E.
  { unfold recordTurnEvent, note_receipt. by rewrite H. }
  change (recorded a ((u, e) :: evs)) with (recorded (recordTurnEvent a e) evs).
  change (folded (at_turn a) ((u, e) :: evs)) with (folded (fold_event (at_turn a) e) evs).
  rewrite E. exact (IH (MkAgentTurn _ _ _) F).
Qed.

(** The latch follows a turn: it holds its first failure, or its text and
    whether it ended, from which the rest gives the same verdict. *)
Lemma latch_follows pre suf s t x ended :
  tl_armed t = true -> tl_err t = None -> default "" (tl_text t) = x ->
  tl_terminal t = bool_decide (is_Some ended) -> (forall la, ended = Some la -> (la <= s)%Z) ->
  Forall (fun te => (te.1 <= s)%Z) pre -> settles ended (pre ++ suf) ->
  let t' := folded t pre in
  tl_armed t' = true
  /\ ((exists ov msg, tl_err t' = Some msg
         /\ verdict x (bool_decide (is_Some ended)) (pre ++ suf) = Some (TurnFailed ov msg))
      \/ (tl_err t' = None /\ exists ended', tl_terminal t' = bool_decide (is_Some ended')
         /\ (forall la, ended' = Some la -> (la <= s)%Z) /\ settles ended' suf
         /\ verdict x (bool_decide (is_Some ended)) (pre ++ suf)
            = verdict (default "" (tl_text t')) (bool_decide (is_Some ended')) suf)).
Proof.
  revert t x ended. induction pre as [|[u e] pre IH]; intros t x ended Ha He Hx Ht Hs F S.
  - cbn. split; [done|]. right. split; [done|]. exists ended. by rewrite Hx.
  - apply list.Forall_cons in F as [Hu F]. destruct S as [_ S]. cbn [fst] in Hu.
    change (folded t ((u, e) :: pre)) with (folded (fold_event t e) pre). cbn [app verdict].
    unfold fold_event at 1 2 3 4 5. rewrite Ha. cbn [negb].
    destruct (ev_IsError e) eqn:Er.
    + rewrite He. destruct (folded_err (MkLatch true (tl_text t) (tl_terminal t)
        (Some (error_message e)) (tl_requests t)) pre (error_message e)) as [A E]; [done..|].
      split; [done|]. left. by do 2 eexists.
    + fold (is_assistant e). destruct (is_assistant e) eqn:As; cbn [negb].
      * rewrite <-(ends_by_some ended u e), Hx. apply (IH _ _ (ends_by ended u e)); cbn; try done.
        -- by rewrite Ht, ends_by_some.
        -- unfold ends_by. intros la. destruct (_ || _); [|done]. by intros [= <-].
      * by apply (IH _ _ ended).
Qed.

Lemma latch_follows_fresh pre suf s :
  Forall (fun te => (te.1 <= s)%Z) pre -> settles None (pre ++ suf) ->
  tl_armed (folded fresh_latch pre) = true
  /\ ((exists ov msg, tl_err (folded fresh_latch pre) = Some msg
         /\ verdict "" false (pre ++ suf) = Some (TurnFailed ov msg))
      \/ (tl_err (folded fresh_latch pre) = None /\ exists ended,
         tl_terminal (folded fresh_latch pre) = bool_decide (is_Some ended)
         /\ (forall la, ended = Some la -> (la <= s)%Z) /\ settles ended suf
         /\ verdict "" false (pre ++ suf)
            = verdict (default "" (tl_text (folded fresh_latch pre))) (bool_decide (is_Some ended)) suf)).
Proof. intros Hs S. by apply (latch_follows pre suf s fresh_latch "" None). Qed.

(** A wait seeded with a turn that has not failed. *)
Lemma seeded_hears (s : Time) text (ended : bool) :
  hears text (if ended then Some s else None) (subscribe s (MkSoFar text ended None)).
Proof. by destruct ended. Qed.

(** A death while the answer settles. *)
Lemma death_in_settle bound s t text :
  (t < s + waitSettleDuration)%Z ->
  WaitForResponse bound [Die t] (subscribe s (MkSoFar text true None)) = Some AgentGone.
Proof.
  intros Ht. cbn [WaitForResponse]. unfold wait_pass. cbn [at_time].
  by rewrite (not_due text (Some s)).
Qed.

(** A wait that heard its turn end gives the answer, however the agent fares. *)
Lemma death_after_hearing bound evs text ended w t :
  hears text ended w -> settles ended evs -> wt_sawTerminal w = bool_decide (is_Some ended) ->
  forall answer, verdict text (bool_decide (is_Some ended)) evs = Some (Answer answer) ->
  WaitForResponse bound (heard evs ++ [Die t]) w = Some (Answer answer).
Proof.
  revert text ended w. induction evs as [|[u e] evs IH]; intros text ended w H S Sw answer V.
  - destruct H as [Ht Hs He Ho]. destruct ended as [la|]; [|done]. injection V as <-.
    cbn in Sw. cbn [heard fmap list_fmap app WaitForResponse]. unfold wait_pass. cbn [at_time].
    unfold fire_settle. rewrite He. cbn. destruct (_ <=? _)%Z.
    + unfold emitOK. rewrite Ho. cbn. by rewrite Ht.
    + rewrite Ho, Sw. by rewrite Ht.
  - destruct S as [Hl Hr].
    change (heard ((u, e) :: evs) ++ [Die t]) with (Hear u e :: heard evs ++ [Die t]).
    cbn [WaitForResponse verdict] in V |- *. rewrite (hears_pass _ _ _ _ _ _ H Hl).
    destruct (ev_IsError e) eqn:Er; [done|]. destruct (is_assistant e) eqn:As.
    + destruct (hears_block _ _ _ u _ H Er As) as [H2 S2]. rewrite (hr_out _ _ _ H2).
      apply (IH _ _ _ H2 Hr); rewrite ends_by_some; [by rewrite S2, Sw|done].
    + destruct (hears_other _ _ _ u _ H Er As) as [H2 S2]. rewrite (hr_out _ _ _ H2).
      apply (IH _ _ _ H2 Hr); [by rewrite S2|done].
Qed.

Lemma settles_app_l ended pre suf : settles ended (pre ++ suf) -> settles ended pre.
Proof.
  revert ended. induction pre as [|[t e] pre IH]; intros ended; [done|].
  intros [H S]. split; [exact H|by apply IH].
Qed.

Lemma takeTurn_armed a :
  tl_armed (at_turn a) = true ->
  takeTurn a = (MkSoFar (default "" (tl_text (at_turn a))) (tl_terminal (at_turn a)) (tl_err (at_turn a)),
                MkAgentTurn (at_receipts a) (at_receiptTurnID a) no_latch).
Proof. intros A. unfold takeTurn. by rewrite A. Qed.

(** A wait seeded at [s] hears the rest of a turn that ended by then, if it did. *)
Lemma late_hears bound s text ended suf :
  (forall la, ended = Some la -> (la <= s)%Z) -> settles ended suf ->
  WaitForResponse bound (heard suf) (subscribe s (MkSoFar text (bool_decide (is_Some ended)) None))
  = verdict text (bool_decide (is_Some ended)) suf.
Proof.
  intros Hle S. destruct ended as [la|].
  - apply (hears_verdict bound suf text (Some s)); [done|].
    apply (settles_later la); [by apply Hle|done].
  - by apply (hears_verdict bound suf text None).
Qed.

(** C21: a wait that subscribes at [s], anywhere in an armed turn or after its
    end, returns, when the turn settles with no death, silence or cancellation
    first, what a wait that heard the whole turn returns: the text of all its
    blocks or its first failure, but for the name of an overflow, which the latch
    does not keep. The turn is taken: another wait is handed nothing. And the
    late wait falls short of the early one when the agent dies before it has
    settled: the early wait still gives the answer, the late one gives none. *)
Theorem late_wait_hears_the_same_turn bound a begin s pre suf :
  at_turn a = fresh_latch ->
  Forall (fun te => started_turn a te.2 = None) pre ->
  Forall (fun te => (te.1 <= s)%Z) pre -> settles None (pre ++ suf) ->
  let a' := recorded a pre in
  let early ss := WaitForResponse bound ss (subscribe begin (MkSoFar "" false None)) in
  let late ss := WaitForResponse bound ss (subscribe s (takeTurn a').1) in
  early (heard (pre ++ suf)) = verdict "" false (pre ++ suf)
  /\ late (heard suf) = match tl_err (at_turn a') with
                        | Some msg => Some (TurnFailed false msg)
                        | None => early (heard (pre ++ suf))
                        end
  /\ (forall msg, tl_err (at_turn a') = Some msg ->
      exists overflow, early (heard (pre ++ suf)) = Some (TurnFailed overflow msg))
  /\ (takeTurn (takeTurn a').2).1 = MkSoFar "" false None
  /\ (forall t text, verdict "" false pre = Some (Answer text) -> (t < s + waitSettleDuration)%Z ->
      early (heard pre ++ [Die t]) = Some (Answer text) /\ late [Die t] = Some AgentGone).
Proof.
  intros Hf Hr Hs S a' early late.
  destruct (recorded_folded a pre Hr) as [Et _]. fold a' in Et. rewrite Hf in Et.
  assert (early (heard (pre ++ suf)) = verdict "" false (pre ++ suf)) as Ev.
  { exact (hears_verdict bound _ _ _ _ (seeded_hears begin "" false) S). }
  pose proof (fun suf' => latch_follows_fresh pre suf' s Hs) as L.
  rewrite <-Et in L. destruct (L suf S) as [A L1].
  split; [exact Ev|]. unfold late. rewrite (takeTurn_armed _ A). cbn [fst snd]. split_and!; [| |done|].
  - destruct L1 as [(ov & msg & -> & _)|(-> & ended' & Ht & Hle & Hsuf & V)].
    + by destruct suf.
    + rewrite Ht, Ev, V. by apply (late_hears bound s _ ended' suf).
  - intros msg Hm. rewrite Ev. destruct L1 as [(ov & m & Hm' & V)|(Hn & _)]; [|congruence].
    exists ov. rewrite Hm in Hm'. injection Hm' as <-. exact V.
  - intros t text V Ht. pose proof (settles_app_l _ _ _ S) as S0. split.
    { by apply (death_after_hearing _ _ _ _ _ _ (seeded_hears begin "" false) S0). }
    rewrite <-(app_nil_r pre) in S0. destruct (L [] S0) as [_ L0]. rewrite app_nil_r in L0.
    rewrite V in L0.
    destruct L0 as [(ov & msg & _ & [=])|(-> & ended' & -> & _ & _ & V')].
    cbn in V'. destruct (bool_decide _); [|done]. by apply death_in_settle.
Qed.

(** A late wait that takes an ended turn, with more of its text to come, and one
    that takes a failed one. *)
Lemma late_wait_hears_the_same_turn_witness :
  let says text stop := MkEvent "assistant" "" "" None None text stop "" "" false "" in
  let a := MkAgentTurn true "" fresh_latch in
  let pre := [(1, says "thinking" ""); (2, says "pong" "end_turn")]%Z in
  let suf := [(3, says "more" "end_turn")]%Z in
  let late := WaitForResponse turnSilenceBound (heard suf)
                (subscribe 2 (takeTurn (recorded a pre)).1) in
  late = verdict "" false (pre ++ suf).
Proof.
  intros says a pre suf late.
  destruct (late_wait_hears_the_same_turn turnSilenceBound a 0 2 pre suf) as (E & L & _).
  - reflexivity.
  - repeat constructor.
  - constructor; [cbn; lia|constructor; [cbn; lia|constructor]].
  - vm_compute. repeat split.
  - assert (tl_err (at_turn (recorded a pre)) = None) as N by (vm_compute; reflexivity).
    cbv zeta in L. rewrite N, E in L. exact L.
Defined.
