(* ===== verification/Requests.v ===== *)
(** * Requests: which request a turn answers, and how text is delivered

    Models [request_correlation.go], [delivery.go], [turn_caps.go] and the send
    of [agent.go]. A local agent keeps the requests that were sent and not yet
    taken by a turn, and the request of every turn it has seen. A delivery is a
    pass over what the agent can do; what the provider's operation answers, and
    what else happens to the agent while it runs, are arguments. *)

From S2P Require Import Prelude GoLib Resolve TurnWait.

(** ** Requests and turns *)

Record requests := MkRequests {
  rq_Pending : list string; rq_ByTurn : gmap string string; rq_Retired : gmap string string;
  rq_ActiveTurn : string }.

#[export] Instance eta_requests : Eta requests := fun s =>
  MkRequests (rq_Pending s) (rq_ByTurn s) (rq_Retired s) (rq_ActiveTurn s).
#[export] Hint Extern 1 (@Setter requests _ _) => setter_of eta_requests : typeclass_instances.

Definition no_requests : requests := MkRequests [] ∅ ∅ "".

Definition ProgressPromptAccepted : string := "prompt_accepted".

Definition queueRequestID (id : string) (s : requests) : requests :=
  s <| rq_Pending ::= fun l => l ++ [id] |>.

(** The list without the first [id], if it is there. *)
Fixpoint remove_first (id : string) (l : list string) : list string :=
  match l with
  | [] => []
  | x :: l' => if decide (x = id) then l' else x :: remove_first id l'
  end.

Definition discardPendingRequestID (id : string) (s : requests) : requests :=
  s <| rq_Pending ::= remove_first id |>.

Definition bindSameTurnSteer (id : string) (s : requests) : requests :=
  if bool_decide (id ∈ rq_Pending s) then
    let s := s <| rq_Pending ::= remove_first id |> in
    if decide (rq_ActiveTurn s = "") then s else s <| rq_ByTurn ::= <[rq_ActiveTurn s := id]> |>
  else s.

Definition isUserPromptLine (raw : option raw_line) : bool :=
  match raw with
  | None => false
  | Some l =>
    bool_decide (rl_Type l = "user")
    && match rl_Content l with
       | ContentString => true
       | ContentBlocks types => bool_decide ("text" ∈ types)
       | ContentOther => false
       end
  end.

Definition eventAcceptsRequest (e : Event) : bool :=
  bool_decide (ev_ProgressType e = ProgressPromptAccepted) || isUserPromptLine (ev_Raw e).

Definition retireRequestTurn (turnID : string) (s : requests) : requests :=
  if decide (turnID = rq_ActiveTurn s)
  then MkRequests (rq_Pending s) ∅ (rq_ByTurn s ∪ rq_Retired s) ""
  else match rq_ByTurn s !! turnID with
       | Some id => s <| rq_Retired ::= <[turnID := id]> |> <| rq_ByTurn ::= delete turnID |>
       | None => s
       end.

(** The request written on an event, and what is kept. *)
Definition stamp (e : Event) (id : string) : Event :=
  MkEvent (ev_Type e) (ev_TurnID e) id (ev_Receipt e) (ev_Raw e) (ev_Text e) (ev_StopReason e)
    (ev_ProgressType e) (ev_PreviewUpdate e) (ev_IsError e) (ev_Reason e).

Definition closes (e : Event) : bool := IsTerminalStop e || ev_IsError e.

Definition correlateExplicit (e : Event) (s : requests) : Event * requests :=
  let turn := ev_TurnID e in
  if decide (turn = "") then (e, s)
  else
    let '(e, s) :=
      if decide (ev_RequestID e = "")
      then match rq_Retired s !! turn, rq_ByTurn s !! turn with
           | Some id, _ => (stamp e id, s)
           | None, Some id => (stamp e id, s)
           | None, None => (e, s)
           end
      else match rq_Retired s !! turn with
           | Some id => (stamp e id, s)
           | None => (e, s <| rq_ByTurn ::= <[turn := ev_RequestID e]> |> <| rq_ActiveTurn := turn |>)
           end in
    (e, if negb (bool_decide (ev_RequestID e = "")) && closes e then retireRequestTurn turn s else s).

(** The request an unseen turn takes, and what that leaves. *)
Definition bind_turn (e : Event) (s : requests) : string * requests :=
  let turn := ev_TurnID e in
  match rq_ByTurn s !! turn, rq_Pending s with
  | Some id, _ => (id, s)
  | None, id :: rest =>
    if eventAcceptsRequest e then
      (id, MkRequests rest (<[turn := id]> (rq_ByTurn s)) (rq_Retired s) turn)
    else ("", s)
  | None, [] => ("", s)
  end.

(** A reissue of Cursor inherits the request of the active turn. *)
Definition reissue_turn (e : Event) (s : requests) : string * requests :=
  let id := default "" (rq_ByTurn s !! rq_ActiveTurn s) in
  (id, s <| rq_ByTurn ::= <[ev_TurnID e := id]> |> <| rq_ActiveTurn := ev_TurnID e |>).

Definition takes_pending (e : Event) (s : requests) : bool :=
  negb (bool_decide (rq_Pending s = [])) && eventAcceptsRequest e.

Definition reissues (cursor : bool) (e : Event) (s : requests) : bool :=
  negb (bool_decide (is_Some (rq_ByTurn s !! ev_TurnID e))) && negb (takes_pending e s)
  && cursor && bool_decide (ev_ProgressType e = ProgressPromptAccepted)
  && negb (bool_decide (rq_ActiveTurn s = "")).

Definition correlateRequest (explicit brokered cursor : bool) (e : Event) (s : requests)
    : Event * requests :=
  if explicit then correlateExplicit e s
  else if negb (bool_decide (ev_RequestID e = "")) then (e, s)
  else if brokered || bool_decide (ev_TurnID e = "") then (e, s)
  else
    match rq_Retired s !! ev_TurnID e with
    | Some id => (stamp e id, s)
    | None =>
      let '(id, s) := if reissues cursor e s then reissue_turn e s else bind_turn e s in
      (stamp e id, if closes e then retireRequestTurn (ev_TurnID e) s else s)
    end.

(** ** What an agent can do to a turn *)

Inductive TurnPhase := TurnIdle | TurnInTurn.

Inductive SteerPolicy := SteerBreakpoint | SteerFinishSlice | SteerQueueUntilIdle | SteerNone.

#[export] Instance SteerPolicy_eq : EqDecision SteerPolicy.
Proof. solve_decision. Defined.

Record TurnCaps := MkTurnCaps {
  tc_CanInterrupt : bool; tc_CanSteer : bool; tc_SteerPolicy : SteerPolicy;
  tc_BusyOnSecondSubmit : string }.

Definition BusySubmitReject : string := "reject".
Definition BusySubmitQueue : string := "queue".

Definition ProviderTurnCaps (p : string) : TurnCaps :=
  let p := if decide (p = "") then ProviderClaude else p in
  if decide (p = ProviderClaude) then MkTurnCaps true false SteerQueueUntilIdle BusySubmitQueue
  else if decide (p = ProviderCursor) then MkTurnCaps true true SteerBreakpoint BusySubmitReject
  else if decide (p = ProviderGrok) then MkTurnCaps true true SteerFinishSlice BusySubmitReject
  else if decide (p = ProviderCodex) then MkTurnCaps true true SteerFinishSlice BusySubmitReject
  else MkTurnCaps false false SteerNone "".

Definition withoutSteer (c : TurnCaps) : TurnCaps :=
  MkTurnCaps (tc_CanInterrupt c) false
    (if decide (tc_SteerPolicy c = SteerNone) then SteerNone else SteerQueueUntilIdle)
    (tc_BusyOnSecondSubmit c).

(** ** An agent, as a delivery sees it *)

Record PromptCause := MkCause {
  pc_Cause : string; pc_Detail : string; pc_Resume : string; pc_SessionID : string; pc_TurnID : string }.

(** [ds_hasSend] and its like say which operations the provider gave,
    [ds_turnCaps] what its own [turnCaps] returns. *)
Record delivery_seat := MkDeliverySeat {
  dl_Provider : string; dl_brokered : bool; dl_explicit : bool; dl_readyErr : option string;
  dl_alive : bool; dl_hasSend : bool; dl_hasSteer : bool; dl_hasInterrupt : bool;
  dl_turnCaps : option TurnCaps; dl_turn : agentTurn; dl_requests : requests;
  dl_cause : option PromptCause; dl_armed : option PromptCause }.

#[export] Instance eta_delivery_seat : Eta delivery_seat := fun s =>
  MkDeliverySeat (dl_Provider s) (dl_brokered s) (dl_explicit s) (dl_readyErr s) (dl_alive s)
    (dl_hasSend s) (dl_hasSteer s) (dl_hasInterrupt s) (dl_turnCaps s) (dl_turn s) (dl_requests s)
    (dl_cause s) (dl_armed s).
#[export] Hint Extern 1 (@Setter delivery_seat _ _) => setter_of eta_delivery_seat : typeclass_instances.

(** What a delivery finds outside: the provider's phase, if it says one, and
    whether its prompt is in flight; what its operations answer, a steer with
    its mechanism and the turn it superseded; and what happens to the agent
    while an operation runs and while the seat settles after an interrupt. *)
Record delivery_outside := MkDeliveryOutside {
  dv_phase : option string; dv_promptInFlight : bool; dv_interrupt : option string;
  dv_send : option string; dv_steer : string * string * option string;
  dv_during : delivery_seat -> delivery_seat; dv_settles : delivery_seat -> delivery_seat }.

Inductive delivery_error :=
  | NotReady (err : string)
  | ErrProcessNotRunning
  | UnsupportedOp (op : string)
  | OpFailed (err : string)
  | InterruptFirst (e : delivery_error)
  | ErrSteerUnsupported (knows : bool)
  | ErrTurnIdle
  | ErrQueueHostSide
  | ErrUnknownDeliveryMode (mode : string).

(** What reaches the provider. *)
Inductive wire := WireSend (text id : string) | WireSteer (text id : string) | WireInterrupt.

Definition turn_phase (o : delivery_outside) : TurnPhase :=
  match dv_phase o with
  | Some p => if decide (p = "in_turn") then TurnInTurn else TurnIdle
  | None => if dv_promptInFlight o then TurnInTurn else TurnIdle
  end.

Definition turn_caps (s : delivery_seat) : TurnCaps :=
  let c := default (ProviderTurnCaps (dl_Provider s)) (dl_turnCaps s) in
  let c := if dl_hasSteer s then c else withoutSteer c in
  if dl_hasInterrupt s then c
  else MkTurnCaps false (tc_CanSteer c) (tc_SteerPolicy c) (tc_BusyOnSecondSubmit c).

Definition deliverable (s : delivery_seat) : option delivery_error :=
  match dl_readyErr s with
  | Some err => Some (NotReady err)
  | None => if dl_alive s then None else Some ErrProcessNotRunning
  end.

(** The cause of the next prompt goes with this one, or is dropped. *)
Definition dropPromptCause (s : delivery_seat) : delivery_seat := s <| dl_cause := None |>.
Definition arm_cause (s : delivery_seat) : delivery_seat :=
  s <| dl_armed := dl_cause s |> <| dl_cause := None |>.

Definition queue_request (id : string) (s : delivery_seat) : delivery_seat :=
  if dl_brokered s || dl_explicit s then s else s <| dl_requests ::= queueRequestID id |>.

Definition discard_request (id : string) (s : delivery_seat) : delivery_seat :=
  if dl_brokered s then s else s <| dl_requests ::= discardPendingRequestID id |>.

(** ** Sending, steering, interrupting *)

Definition SendWithRequestID (o : delivery_outside) (text id : string) (s : delivery_seat)
    : option delivery_error * delivery_seat * list wire :=
  match deliverable s with
  | Some e => (Some e, dropPromptCause s, [])
  | None =>
    if negb (dl_hasSend s) then (Some (UnsupportedOp "send"), dropPromptCause s, [])
    else
      let s := arm_cause (s <| dl_turn ::= send_begins id |>) in
      let s := dv_during o (queue_request id s) in
      let s := match dv_send o with Some _ => discard_request id s | None => s end in
      (OpFailed <$> dv_send o, s <| dl_turn ::= send_returns id |>, [WireSend text id])
  end.

Definition Interrupt (o : delivery_outside) (s : delivery_seat) : option delivery_error * list wire :=
  if negb (dl_alive s) then (Some ErrProcessNotRunning, [])
  else if negb (dl_hasInterrupt s) then (Some (UnsupportedOp "interrupt"), [])
  else (OpFailed <$> dv_interrupt o, [WireInterrupt]).

Definition DeliverySubmit : string := "submit".
Definition DeliverySteer : string := "steer".
Definition DeliveryInterrupt : string := "interrupt".
Definition DeliveryQueue : string := "queue".

Definition MechanismSubmit : string := "submit".
Definition MechanismInterruptThenSubmit : string := "interrupt+submit".
Definition MechanismClientQueue : string := "client_queue".
Definition MechanismCodexTurnSteer : string := "codex_turn_steer".
Definition MechanismSteerUnsupported : string := "steer_unsupported".
Definition MechanismNone : string := "".

Record DeliveryOutcome := MkOutcome {
  do_Mode : string; do_PhaseBefore : TurnPhase; do_Mechanism : string;
  do_SupersededTurnID : string; do_Err : option delivery_error }.

Definition steerWithRequestID (o : delivery_outside) (text : string) (phase : TurnPhase) (id : string)
    (s : delivery_seat) : DeliveryOutcome * delivery_seat * list wire :=
  let refused mech err := (MkOutcome DeliverySteer phase mech "" (Some err), dropPromptCause s, []) in
  if negb (dl_hasSteer s) then
    refused MechanismSteerUnsupported
      (ErrSteerUnsupported (tc_CanSteer (ProviderTurnCaps (dl_Provider s))))
  else
    match deliverable s, phase with
    | Some err, _ => refused MechanismNone err
    | None, TurnIdle => refused MechanismNone ErrTurnIdle
    | None, TurnInTurn =>
      let s := dv_during o (queue_request id (arm_cause s)) in
      let '(mech, superseded, err) := dv_steer o in
      match err with
      | Some err => (MkOutcome DeliverySteer phase mech superseded (Some (OpFailed err)),
                     discard_request id s, [WireSteer text id])
      | None =>
        (MkOutcome DeliverySteer phase mech superseded None,
         if negb (dl_brokered s) && bool_decide (mech = MechanismCodexTurnSteer)
         then s <| dl_requests ::= bindSameTurnSteer id |> else s,
         [WireSteer text id])
      end
    end.

Definition SendModeWithRequestID (o : delivery_outside) (text mode id : string) (s : delivery_seat)
    : DeliveryOutcome * delivery_seat * list wire :=
  let mode := if decide (mode = "") then DeliverySubmit else mode in
  let phase := turn_phase o in
  let submit mech before s :=
    let '(err, s, w) := SendWithRequestID o text id s in
    (MkOutcome mode phase mech "" err, s, before ++ w) in
  if decide (mode = DeliverySubmit) then submit MechanismSubmit [] s
  else if decide (mode = DeliverySteer) then
    match phase with
    | TurnIdle => submit MechanismSubmit [] s
    | TurnInTurn =>
      let '(out, s, w) := steerWithRequestID o text phase id s in
      (MkOutcome mode phase (do_Mechanism out) (do_SupersededTurnID out) (do_Err out), s, w)
    end
  else if decide (mode = DeliveryInterrupt) then
    match phase with
    | TurnIdle =>
      if decide (text = "") then (MkOutcome mode phase MechanismSubmit "" None, s, [])
      else submit MechanismSubmit [] s
    | TurnInTurn =>
      match Interrupt o s with
      | (Some e, w) =>
        (MkOutcome mode phase MechanismInterruptThenSubmit "" (Some (InterruptFirst e)), s, w)
      | (None, w) =>
        let s := dv_settles o s in
        if decide (text = "") then (MkOutcome mode phase MechanismInterruptThenSubmit "" None, s, w)
        else submit MechanismInterruptThenSubmit w s
      end
    end
  else if decide (mode = DeliveryQueue)
  then (MkOutcome mode phase MechanismClientQueue "" (Some ErrQueueHostSide), s, [])
  else (MkOutcome mode phase MechanismNone "" (Some (ErrUnknownDeliveryMode mode)), s, []).
