(* ===== verification/RequestsTheorems.v ===== *)
(** * RequestsTheorems: a turn keeps its request, a delivery reaches the wire once

    The properties of [Requests]. *)

From S2P Require Import Prelude GoLib Resolve TurnWait Requests.

(** ** The request of a turn *)

Inductive request_op := OpQueue (id : string) | OpDiscard (id : string) | OpSteer (id : string)
  | OpEvent (e : Event).

Definition apply_op (explicit brokered cursor : bool) (s : requests) (op : request_op) : requests :=
  match op with
  | OpQueue id => queueRequestID id s
  | OpDiscard id => discardPendingRequestID id s
  | OpSteer id => bindSameTurnSteer id s
  | OpEvent e => (correlateRequest explicit brokered cursor e s).2
  end.

(** What any sequence of operations leaves. *)
Definition requests_after (explicit brokered cursor : bool) (ops : list request_op) : requests :=
  foldl (apply_op explicit brokered cursor) no_requests ops.

Definition request_of (s : requests) (turn : string) : option string :=
  match rq_Retired s !! turn with Some id => Some id | None => rq_ByTurn s !! turn end.

(** ** The invariant: no turn is both open and closed, the active one is open *)

Record requests_ok (s : requests) : Prop := {
  ro_disjoint : forall t, is_Some (rq_Retired s !! t) -> rq_ByTurn s !! t = None;
  ro_active : rq_ActiveTurn s <> "" -> is_Some (rq_ByTurn s !! rq_ActiveTurn s) }.

(** An open or unseen turn is bound. *)
Lemma bind_ok pending turn id s :
  requests_ok s -> rq_Retired s !! turn = None ->
  requests_ok (MkRequests pending (<[turn := id]> (rq_ByTurn s)) (rq_Retired s) turn).
Proof.
  intros [D A] Hr. split; cbn.
  - intros t Ht. rewrite lookup_insert_ne; [by apply D|]. intros <-. rewrite Hr in Ht. by destruct Ht.
  - intros _. by rewrite lookup_insert_eq.
Qed.

Lemma bind_known pending turn id s t id' :
  requests_ok s -> rq_ByTurn s !! turn = None \/ turn <> t -> request_of s t = Some id' ->
  request_of (MkRequests pending (<[turn := id]> (rq_ByTurn s)) (rq_Retired s) turn) t = Some id'.
Proof.
  intros _ Hb. unfold request_of. cbn. destruct (rq_Retired s !! t); [done|]. intros H.
  rewrite lookup_insert_ne; [done|]. intros <-. destruct Hb; congruence.
Qed.

Lemma retire_ok turn s : requests_ok s -> requests_ok (retireRequestTurn turn s).
Proof.
  intros [D A]. unfold retireRequestTurn. case_decide as E; [by split|].
  destruct (rq_ByTurn s !! turn) as [id|] eqn:Hb; [|by split]. split; cbn.
  - intros t [x Ht]. destruct (decide (turn = t)) as [->|Ne]; [by rewrite lookup_delete_eq|].
    rewrite lookup_delete_ne by done. apply D. rewrite lookup_insert_ne in Ht by done. eauto.
  - intros Ha. rewrite lookup_delete_ne by done. by apply A.
Qed.

Lemma retire_known turn s t : requests_ok s -> request_of (retireRequestTurn turn s) t = request_of s t.
Proof.
  intros [D A]. unfold retireRequestTurn, request_of. case_decide as E; cbn.
  - rewrite lookup_empty. destruct (rq_Retired s !! t) as [id|] eqn:Hr.
    + rewrite lookup_union_r; [by rewrite Hr|]. apply D. by rewrite Hr.
    + destruct (rq_ByTurn s !! t) as [id|] eqn:Hb.
      * by rewrite (lookup_union_Some_l _ _ _ _ Hb).
      * rewrite lookup_union_r by done. by rewrite Hr.
  - destruct (rq_ByTurn s !! turn) as [id|] eqn:Hb; [cbn|done].
    destruct (decide (turn = t)) as [->|Ne].
    + rewrite lookup_insert_eq, Hb. destruct (rq_Retired s !! t) eqn:Hr; [|done].
      rewrite D in Hb; [done|by rewrite Hr].
    + by rewrite lookup_insert_ne, lookup_delete_ne by done.
Qed.

Lemma retire_retired turn s t id :
  requests_ok s -> rq_Retired s !! t = Some id -> rq_Retired (retireRequestTurn turn s) !! t = Some id.
Proof.
  intros [D _] Hr. assert (rq_ByTurn s !! t = None) as Hb by (apply D; eauto).
  unfold retireRequestTurn. case_decide; cbn; [by rewrite lookup_union_r|].
  destruct (rq_ByTurn s !! turn) eqn:E; [cbn|done]. rewrite lookup_insert_ne; [done|congruence].
Qed.

Lemma retire_pending turn s : rq_Pending (retireRequestTurn turn s) = rq_Pending s.
Proof. unfold retireRequestTurn. by repeat case_match. Qed.

(** ** One operation *)

Lemma steer_ok id s : requests_ok s -> requests_ok (bindSameTurnSteer id s).
Proof.
  intros O. unfold bindSameTurnSteer. case_bool_decide; [|done].
  change (rq_ActiveTurn (s <| rq_Pending ::= remove_first id |>)) with (rq_ActiveTurn s).
  destruct (decide (rq_ActiveTurn s = "")) as [Ea|Ea]; [by destruct O|].
  apply (bind_ok (remove_first id (rq_Pending s)) (rq_ActiveTurn s) id s O).
  destruct (rq_Retired s !! rq_ActiveTurn s) eqn:Hr; [|done].
  destruct (ro_active s O Ea) as [x Hx]. rewrite (ro_disjoint s O) in Hx; [done|eauto].
Qed.

Lemma steer_known id s t id' :
  request_of s t = Some id' -> t <> rq_ActiveTurn s -> request_of (bindSameTurnSteer id s) t = Some id'.
Proof.
  unfold bindSameTurnSteer, request_of. intros H Ne. case_bool_decide; [|done].
  case_decide; cbn; [done|]. by rewrite lookup_insert_ne by congruence.
Qed.

Lemma steer_retired id s : rq_Retired (bindSameTurnSteer id s) = rq_Retired s.
Proof. unfold bindSameTurnSteer. by repeat case_match. Qed.

(** What an event does to a turn's request, short of closing a turn: nothing, or
    it binds an unseen one, or names the request of an open one itself. *)
Inductive binding (explicit : bool) (e : Event) (s : requests) : requests -> Prop :=
  | binds_none : binding explicit e s s
  | binds_new pending id :
      explicit = false -> rq_Retired s !! ev_TurnID e = None -> rq_ByTurn s !! ev_TurnID e = None ->
      binding explicit e s
        (MkRequests pending (<[ev_TurnID e := id]> (rq_ByTurn s)) (rq_Retired s) (ev_TurnID e))
  | binds_named :
      explicit = true -> rq_Retired s !! ev_TurnID e = None -> ev_RequestID e <> "" ->
      binding explicit e s (MkRequests (rq_Pending s) (<[ev_TurnID e := ev_RequestID e]> (rq_ByTurn s))
                              (rq_Retired s) (ev_TurnID e)).

Lemma correlate_binding explicit brokered cursor e s :
  exists s1, binding explicit e s s1
    /\ ((correlateRequest explicit brokered cursor e s).2 = s1
        \/ (correlateRequest explicit brokered cursor e s).2 = retireRequestTurn (ev_TurnID e) s1).
Proof.
  unfold correlateRequest. destruct explicit.
  - unfold correlateExplicit. case_decide; [by eexists; split; [constructor|left]|].
    destruct (decide (ev_RequestID e = "")) as [Hq|Hq];
      destruct (rq_Retired s !! ev_TurnID e) eqn:Hr;
      try destruct (rq_ByTurn s !! ev_TurnID e) eqn:Hb;
      lazymatch goal with
      | |- context [<[_ := ev_RequestID e]>] => exists (MkRequests (rq_Pending s)
          (<[ev_TurnID e := ev_RequestID e]> (rq_ByTurn s)) (rq_Retired s) (ev_TurnID e))
      | _ => exists s
      end; (split; [by constructor|]); cbn; case_match; auto.
  - case_match; [by eexists; split; [constructor|left]|].
    case_match; [by eexists; split; [constructor|left]|].
    destruct (rq_Retired s !! ev_TurnID e) eqn:Hr; [by eexists; split; [constructor|left]|].
    destruct (reissues cursor e s) eqn:Re.
    + eexists. split; [apply binds_new; [done..|]|cbn; case_match; auto].
      unfold reissues in Re. repeat (apply andb_true_iff in Re as [Re _]).
      apply negb_true_iff, bool_decide_eq_false, eq_None_not_Some in Re. exact Re.
    + unfold bind_turn. destruct (rq_ByTurn s !! ev_TurnID e) eqn:Hb.
      { eexists. split; [apply binds_none|cbn; case_match; auto]. }
      destruct (rq_Pending s) as [|id rest];
        [eexists; split; [apply binds_none|cbn; case_match; auto]|].
      destruct (eventAcceptsRequest e);
        [eexists; split; [by apply binds_new|cbn; case_match; auto]|].
      eexists. split; [apply binds_none|cbn; case_match; auto].
Qed.

Lemma binding_ok explicit e s s1 : requests_ok s -> binding explicit e s s1 -> requests_ok s1.
Proof. intros O [|pending id _ Hr Hb|_ Hr _]; [done|by apply bind_ok|by apply bind_ok]. Qed.

Lemma event_ok explicit brokered cursor e s :
  requests_ok s -> requests_ok (correlateRequest explicit brokered cursor e s).2.
Proof.
  intros O. destruct (correlate_binding explicit brokered cursor e s) as (s1 & B & [->| ->]);
    [|apply retire_ok]; by eapply binding_ok.
Qed.

Lemma event_known explicit brokered cursor e s t id :
  requests_ok s -> request_of s t = Some id ->
  (explicit = true -> ev_TurnID e = t -> ev_RequestID e = "") ->
  request_of (correlateRequest explicit brokered cursor e s).2 t = Some id.
Proof.
  intros O H Hx. destruct (correlate_binding explicit brokered cursor e s) as (s1 & B & E).
  assert (request_of s1 t = Some id) as H1.
  { destruct B as [|pending id' _ Hr Hb|Ex Hr Hq]; [done| |].
    - by apply bind_known; [done|left|].
    - apply bind_known; [done| |done]. right. intros Et. by apply Hq, Hx. }
  destruct E as [->| ->]; [done|]. rewrite retire_known; [done|]. by eapply binding_ok.
Qed.

Lemma event_retired explicit brokered cursor e s t id :
  requests_ok s -> rq_Retired s !! t = Some id ->
  rq_Retired (correlateRequest explicit brokered cursor e s).2 !! t = Some id.
Proof.
  intros O H. destruct (correlate_binding explicit brokered cursor e s) as (s1 & B & E).
  assert (rq_Retired s1 !! t = Some id) as H1 by (by destruct B).
  destruct E as [->| ->]; [done|]. apply retire_retired; [|done]. by eapply binding_ok.
Qed.

Lemma op_ok explicit brokered cursor s op :
  requests_ok s -> requests_ok (apply_op explicit brokered cursor s op).
Proof.
  intros O. destruct op; cbn; [by destruct O|by destruct O|by apply steer_ok|by apply event_ok].
Qed.

Lemma after_ok explicit brokered cursor ops : requests_ok (requests_after explicit brokered cursor ops).
Proof.
  unfold requests_after. assert (requests_ok no_requests) as O.
  { split; cbn; [|done]. intros t [x Hx]. done. }
  revert O. generalize no_requests. induction ops as [|op ops IH]; intros s O; [done|].
  cbn. by apply IH, op_ok.
Qed.

Lemma run_retired explicit brokered cursor ops s t id :
  requests_ok s -> rq_Retired s !! t = Some id ->
  rq_Retired (foldl (apply_op explicit brokered cursor) s ops) !! t = Some id.
Proof.
  revert s. induction ops as [|op ops IH]; intros s O H; [done|]. cbn. apply IH; [by apply op_ok|].
  destruct op; cbn; [done|done|by rewrite steer_retired|by apply event_retired].
Qed.

(** ** Events of a turn that has its request *)

Lemma known_event explicit brokered cursor e s id :
  request_of s (ev_TurnID e) = Some id -> ev_TurnID e <> "" -> ev_RequestID e = "" ->
  (explicit = false -> brokered = false) ->
  ev_RequestID (correlateRequest explicit brokered cursor e s).1 = id
  /\ rq_Pending (correlateRequest explicit brokered cursor e s).2 = rq_Pending s.
Proof.
  unfold request_of, correlateRequest. intros K Ht Hq Hl. destruct explicit.
  - unfold correlateExplicit. rewrite decide_False, decide_True by done.
    destruct (rq_Retired s !! ev_TurnID e) as [id'|]; [|rewrite K]; simplify_eq/=;
      (split; [done|]); by case_match; rewrite ?retire_pending.
  - rewrite (Hl eq_refl), bool_decide_eq_true_2, bool_decide_eq_false_2 by done. cbn [negb orb].
    destruct (rq_Retired s !! ev_TurnID e) as [id'|]; [by simplify_eq/=|].
    unfold reissues, bind_turn. rewrite K, bool_decide_eq_true_2 by eauto. cbn.
    split; [done|]. by case_match; rewrite ?retire_pending.
Qed.

(** What an event of a local agent does to the requests sent and not taken yet. *)
Lemma event_pending brokered cursor e s :
  let r := correlateRequest false brokered cursor e s in
  rq_Pending r.2 = rq_Pending s
  \/ (eventAcceptsRequest e = true /\ request_of s (ev_TurnID e) = None
      /\ exists id, rq_Pending s = id :: rq_Pending r.2 /\ ev_RequestID r.1 = id
                    /\ request_of r.2 (ev_TurnID e) = Some id).
Proof.
  cbn zeta. unfold correlateRequest. case_match; [by left|]. case_match; [by left|].
  destruct (rq_Retired s !! ev_TurnID e) eqn:Hr; [by left|].
  destruct (reissues cursor e s) eqn:Re.
  { left. cbn. by case_match; rewrite ?retire_pending. }
  unfold bind_turn. destruct (rq_ByTurn s !! ev_TurnID e) eqn:Hb.
  { left. cbn. by case_match; rewrite ?retire_pending. }
  destruct (rq_Pending s) as [|id rest] eqn:Hp; [left; cbn; by case_match; rewrite ?retire_pending|].
  destruct (eventAcceptsRequest e) eqn:Ac; [|left; cbn; by case_match; rewrite ?retire_pending].
  right. split; [done|]. split; [unfold request_of; by rewrite Hr|]. exists id. cbn.
  set (s1 := MkRequests rest _ _ _).
  assert (request_of s1 (ev_TurnID e) = Some id) as K1.
  { unfold request_of, s1. cbn. by rewrite Hr, lookup_insert_eq. }
  case_match; [|done]. rewrite retire_pending. split_and!; [done..|].
  unfold request_of, retireRequestTurn, s1. cbn. rewrite decide_True by done. cbn.
  rewrite (lookup_union_Some_l _ _ _ id) by by rewrite lookup_insert_eq. done.
Qed.

(** ** The property *)

(** C18: whatever was sent, discarded, steered and published, a turn that has its
    request keeps it: its events without a request of their own are stamped with
    it and take none of those sent; only a steer into the active turn, or where
    events name their requests such an event of the open turn, gives it another;
    and a turn that has closed keeps its last for ever. An event of a local agent
    takes a sent request only as the acceptance of a turn not seen before, and
    then the oldest, which is the turn's from then on. *)
Theorem a_turn_keeps_its_request explicit brokered cursor ops :
  let s := requests_after explicit brokered cursor ops in
  let correlate e := correlateRequest explicit brokered cursor e s in
  (forall t id, request_of s t = Some id ->
     (forall e, ev_TurnID e = t -> t <> "" -> ev_RequestID e = "" ->
        (explicit = false -> brokered = false) ->
        ev_RequestID (correlate e).1 = id /\ rq_Pending (correlate e).2 = rq_Pending s)
     /\ (forall op, (forall i, op = OpSteer i -> t <> rq_ActiveTurn s) ->
          (forall e, op = OpEvent e -> explicit = true -> ev_TurnID e = t -> ev_RequestID e = "") ->
          request_of (apply_op explicit brokered cursor s op) t = Some id))
  /\ (forall t id ops', rq_Retired s !! t = Some id ->
       rq_Retired (requests_after explicit brokered cursor (ops ++ ops')) !! t = Some id)
  /\ (forall e, explicit = false ->
       rq_Pending (correlate e).2 = rq_Pending s
       \/ (eventAcceptsRequest e = true /\ request_of s (ev_TurnID e) = None
           /\ exists id, rq_Pending s = id :: rq_Pending (correlate e).2
                /\ ev_RequestID (correlate e).1 = id
                /\ request_of (correlate e).2 (ev_TurnID e) = Some id)).
Proof.
  intros s correlate. pose proof (after_ok explicit brokered cursor ops) as O. fold s in O. split_and!.
  - intros t id K. split.
    + intros e <- Ht Hq Hl. by apply known_event.
    + intros op Hs He. destruct op as [i|i|i|e]; cbn; [done|done| |].
      * apply steer_known; [done|]. by apply (Hs i).
      * apply event_known; [done..|]. by apply He.
  - intros t id ops' Hr. unfold requests_after. rewrite foldl_app. by apply run_retired.
  - intros e ->. by apply event_pending.
Qed.

Definition demo_event (turn text progress stop : string) : Event :=
  MkEvent "assistant" turn "" None None text stop progress "" false "".

(** The second of two turns closes, and the first still has its request. *)
Lemma a_turn_keeps_its_request_witness :
  let ops := [OpQueue "r1"; OpQueue "r2"; OpEvent (demo_event "t1" "" "prompt_accepted" "");
              OpEvent (demo_event "t2" "" "prompt_accepted" "");
              OpEvent (demo_event "t2" "done" "" "end_turn")] in
  ev_RequestID (correlateRequest false false false (demo_event "t1" "late" "" "end_turn")
                  (requests_after false false false ops)).1 = "r1".
Proof.
  intros ops. destruct (a_turn_keeps_its_request false false false ops) as (K & _).
  apply (K "t1" "r1"); [vm_compute; reflexivity|reflexivity|discriminate|reflexivity|reflexivity].
Defined.

(** A send that fails takes back the first request of its name: after a send
    without one, a second that fails shifts the requests of the turns. *)
Lemma failed_send_shifts_the_requests :
  let ops := [OpQueue ""; OpQueue "r1"; OpQueue ""; OpDiscard ""] in
  ev_RequestID (correlateRequest false false false (demo_event "t0" "" "prompt_accepted" "")
                  (requests_after false false false ops)).1 = "r1".
Proof. reflexivity. Qed.

(** ** Deliveries *)

Lemma send_wire o text id s :
  let r := SendWithRequestID o text id s in
  (r.1.1 <> None /\ r.2 = []) \/ r.2 = [WireSend text id].
Proof. unfold SendWithRequestID. repeat case_match; cbn; auto. Qed.

Lemma steer_wire o text id s :
  let r := steerWithRequestID o text TurnInTurn id s in
  (do_Err r.1.1 <> None /\ r.2 = []) \/ (dl_hasSteer s = true /\ r.2 = [WireSteer text id]).
Proof.
  unfold steerWithRequestID. destruct (dl_hasSteer s) eqn:H; cbn; [|by left].
  destruct (deliverable s); cbn; [by left|]. destruct (dv_steer o) as [[m t] [e|]]; cbn; auto.
Qed.

(** A submit that had no error. *)
Ltac by_send o text id s :=
  let W := fresh "W" in
  pose proof (send_wire o text id s) as W;
  destruct (SendWithRequestID o text id s) as [[? ?] ?]; cbn in *;
  destruct W as [[W _]| ->]; [done|auto].

(** A delivery without an error put its text on the wire exactly once: as a send,
    after the interrupt of an open turn if that was asked for, or as a steer of
    an open turn by an agent that can steer; only an interrupt without text sends
    none. Queueing and unknown modes reach nothing and change nothing. *)
Theorem deliveries_reach_the_wire_once o text mode id s :
  let r := SendModeWithRequestID o text mode id s in
  (do_Err r.1.1 = None ->
     r.2 = [WireSend text id]
     \/ (r.2 = [WireSteer text id] /\ turn_phase o = TurnInTurn /\ mode = DeliverySteer
         /\ dl_hasSteer s = true)
     \/ (mode = DeliveryInterrupt /\ turn_phase o = TurnInTurn /\ r.2 = [WireInterrupt; WireSend text id])
     \/ (mode = DeliveryInterrupt /\ text = "" /\ (r.2 = [] \/ r.2 = [WireInterrupt])))
  /\ (mode ∉ [""; DeliverySubmit; DeliverySteer; DeliveryInterrupt] ->
      do_Err r.1.1 <> None /\ r.1.2 = s /\ r.2 = [])
  /\ (tc_CanSteer (turn_caps s) = true -> mode = DeliverySteer -> turn_phase o = TurnInTurn ->
      deliverable s = None -> r.2 = [WireSteer text id]).
Proof.
  unfold SendModeWithRequestID. split_and!.
  - destruct (decide (mode = "")) as [->|Hm]; rewrite ?decide_True by done.
    + by_send o text id s.
    + repeat case_decide; subst; try done.
      * by_send o text id s.
      * destruct (turn_phase o) eqn:Ph.
        -- by_send o text id s.
        -- pose proof (steer_wire o text id s) as W.
           destruct (steerWithRequestID o text TurnInTurn id s) as [[out s'] w]. cbn in *.
           destruct W as [[W _]|[W ->]]; [done|]. right. left. auto.
      * destruct (turn_phase o) eqn:Ph; [by auto 8|].
        unfold Interrupt. repeat case_match; simplify_eq/=; auto 8.
      * destruct (turn_phase o) eqn:Ph.
        -- by_send o text id s.
        -- destruct (Interrupt o s) as [[e|] w0] eqn:I; [done|].
           pose proof (send_wire o text id (dv_settles o s)) as W.
           destruct (SendWithRequestID o text id (dv_settles o s)) as [[e s'] w]. cbn in *.
           destruct W as [[W _]| ->]; [done|]. right. right. left. split_and!; [done..|].
           unfold Interrupt in I. repeat case_match; simplify_eq/=; done.
  - intros H. rewrite !not_elem_of_cons in H. destruct H as (H1 & H2 & H3 & H4 & _).
    rewrite !(decide_False (P := mode = _)) by done. case_decide; done.
  - intros Hc -> Ph Hd. cbn. rewrite Ph. unfold steerWithRequestID.
    assert (dl_hasSteer s = true) as ->.
    { unfold turn_caps in Hc. destruct (dl_hasSteer s); [done|]. by destruct (dl_hasInterrupt s). }
    cbn. rewrite Hd. by destruct (dv_steer o) as [[m t] [e|]].
Qed.
