(* ===== verification/Escalation.v ===== *)
(** * Escalation: ladders that press a busy seat

    Models [escalation.go]: which ladders are allowed, which send runs one, and the
    goroutine that climbs it, cut where it can be interleaved with other sends, with
    events, with the seat's death and with time. A select that has several channels
    ready takes any; one that waits takes the first to be. [a_ladder_presses_in_time]
    is about every interleaving. *)

From Stdlib Require Import Sorted.
From S2P Require Import Prelude GoLib TurnWait Requests.

(** ** Ladders *)

Record EscalationStep := MkStep { es_Mode : string; es_After : Duration }.
Definition maxEscalationSteps : nat := 4.
Definition ProgressDeliveryAbsorbed : string := "delivery_absorbed".
Definition ProgressDeliveryEscalated : string := "delivery_escalated".

(** [Escalation.Validate]; rung [i], after one at [prev]. *)
Fixpoint valid_rungs (i : nat) (prev : Duration) (e : list EscalationStep) : bool :=
  match e with
  | [] => true
  | s :: e =>
    negb (es_After s <? prev)%Z
    && (match i with
        | O => contains [DeliverySubmit; DeliverySteer] (es_Mode s)
        | S _ => bool_decide (es_Mode s = DeliveryInterrupt)
        end)
    && valid_rungs (S i) (es_After s) e
  end.
Definition Validate (e : list EscalationStep) : bool := (length e <=? maxEscalationSteps)%nat && valid_rungs 0 0 e.

(** [absorbs]. *)
Definition absorbs (e : Event) (text : string) : bool :=
  if bool_decide (ev_Type e = "progress") && bool_decide (ev_ProgressType e = ProgressDeliveryAbsorbed)
  then bool_decide (ev_Text e = text) else IsTerminalStop e.

(** What [SendEscalatingWithRequestID] does; [hook] is whether the backend runs the
    ladder itself. *)
Inductive send_route := BadLadder | ByBackend | PlainSubmit | OneRung | Laddered.
Definition route (hook busy : bool) (e : list EscalationStep) : send_route :=
  if negb (Validate e) then BadLadder
  else if hook then ByBackend
  else if bool_decide (length e = 0%nat) || negb busy then PlainSubmit
  else if bool_decide (length e = 1%nat) then OneRung else Laddered.

(** ** The goroutines of a seat's sends *)

Inductive wake := Absorbed | Superseded | SeatDead | TimerFired.

Inductive ladder_phase :=
| LSuperseding (prev : option nat)   (* it has swapped itself in, and closes the one before *)
| LSending                           (* its first rung is being sent *)
| LTop                               (* at the loop's head *)
| LParked                            (* in the select *)
| LChose (c : wake)
| LFiring                            (* it has said so, and interrupts next *)
| LEnded.

(** A send that registered a ladder, by the number of its channel: [ld_all] are the
    rungs after the first, [ld_rungs] those left, [ld_fired] those it interrupted for. *)
Record ladder := MkLadder {
  ld_text : string; ld_all : list EscalationStep; ld_rungs : list EscalationStep; ld_start : Time;
  ld_absorbed : bool; ld_superseded : bool; ld_phase : ladder_phase; ld_fired : list (EscalationStep * Time) }.
#[export] Instance eta_ladder : Eta ladder := fun l =>
  MkLadder (ld_text l) (ld_all l) (ld_rungs l) (ld_start l) (ld_absorbed l) (ld_superseded l) (ld_phase l) (ld_fired l).
#[export] Hint Extern 1 (@Setter ladder _ _) => setter_of eta_ladder : typeclass_instances.

(** A seat: [ew_current] is its entry of [ladders], [ew_said] what was published. *)
Record seat := MkSeat {
  ew_now : Time; ew_busy : bool; ew_dead : bool; ew_current : option nat; ew_ladders : list ladder;
  ew_said : list string; ew_panicked : bool }.
#[export] Instance eta_seat : Eta seat := fun w =>
  MkSeat (ew_now w) (ew_busy w) (ew_dead w) (ew_current w) (ew_ladders w) (ew_said w) (ew_panicked w).
#[export] Hint Extern 1 (@Setter seat _ _) => setter_of eta_seat : typeclass_instances.

Definition new_seat : seat := MkSeat 0 false false None [] [] false.

Definition on_ladder (i : nat) (f : ladder -> ladder) (w : seat) : seat := w <| ew_ladders ::= alter f i |>.

(** A channel of the select becomes ready: one that waits takes it. *)
Definition woken (c : wake) (l : ladder) : ladder :=
  match ld_phase l with LParked => l <| ld_phase := LChose c |> | _ => l end.

(** [supersedeLadder]: the swap, and then the close. *)
Definition registers (text : string) (rungs : list EscalationStep) (w : seat) : seat :=
  w <| ew_ladders ::= fun ls => ls ++ [MkLadder text rungs rungs 0 false false (LSuperseding (ew_current w)) []] |>
    <| ew_current := Some (length (ew_ladders w)) |>.
Definition closes (p : nat) (w : seat) : seat :=
  match ew_ladders w !! p with
  | Some l => if ld_superseded l then w <| ew_panicked := true |>
              else on_ladder p (fun l => woken Superseded (l <| ld_superseded := true |>)) w
  | None => w
  end.
Definition supersedes (i : nat) (prev : option nat) (w : seat) : seat :=
  on_ladder i (fun l => l <| ld_phase := LSending |> <| ld_start := ew_now w |>)
    (match prev with Some p => closes p w | None => w end).

(** The goroutine's deferred calls. *)
Definition ends (i : nat) (w : seat) : seat :=
  on_ladder i (fun l => l <| ld_phase := LEnded |>) (w <| ew_current ::= fun c => if decide (c = Some i) then None else c |>).

Definition deadline (l : ladder) (s : EscalationStep) : Time := ld_start l + es_After s.

(** Whether the select can take this channel now. *)
Definition ready (w : seat) (l : ladder) (s : EscalationStep) (c : wake) : bool :=
  match c with
  | Absorbed => ld_absorbed l
  | Superseded => ld_superseded l
  | SeatDead => ew_dead w
  | TimerFired => (deadline l s <=? ew_now w)%Z
  end.

(** The first rung is with the seat, or is not; and an event that absorbs is heard. *)
Definition first_sent (ok : bool) (l : ladder) : ladder :=
  l <| ld_phase := match ok, ld_rungs l with true, _ :: _ => LTop | _, _ => LEnded end |>.
Definition absorbed (l : ladder) : ladder := woken Absorbed (l <| ld_absorbed := true |>).

Inductive ladder_step :=
| SendBegins (hook : bool) (text : string) (e : list EscalationStep)
| Supersedes (i : nat)
| SendEnds (i : nat) (ok : bool)
| Selects (i : nat) (c : option wake)   (* [None]: it waits *)
| TimerFires (i : nat)
| Acts (i : nat)
| Interrupts (i : nat)
| LoopEnds (i : nat)
| Hears (i : nat) (e : Event)
| SeatDies
| TurnIs (busy : bool)
| TimePasses (t : Time).

Definition ladder_exec (s : ladder_step) (w : seat) : option seat :=
  let at_ladder i (f : ladder -> option seat) := mbind f (ew_ladders w !! i) in
  match s with
  | SendBegins hook text e =>
    Some match route hook (ew_busy w) e with
         | OneRung | Laddered => registers text (tail e) w
         | BadLadder | ByBackend | PlainSubmit => w
         end
  | Supersedes i => at_ladder i (fun l => match ld_phase l with LSuperseding prev => Some (supersedes i prev w) | _ => None end)
  | SendEnds i ok =>
    at_ladder i (fun l => match ld_phase l with
                          | LSending => Some (on_ladder i (first_sent ok) w)
                          | _ => None
                          end)
  | Selects i c =>
    at_ladder i (fun l => match ld_phase l, ld_rungs l with
                          | LTop, s :: _ =>
                            match c with
                            | Some c => if ready w l s c then Some (on_ladder i (fun l => l <| ld_phase := LChose c |>) w) else None
                            | None => if ready w l s Absorbed || ready w l s Superseded || ready w l s SeatDead then None
                                      else Some (on_ladder i (fun l => l <| ld_phase := LParked |>) w)
                            end
                          | _, _ => None
                          end)
  | TimerFires i =>
    at_ladder i (fun l => match ld_phase l, ld_rungs l with
                          | LParked, s :: _ => if ready w l s TimerFired then Some (on_ladder i (woken TimerFired) w) else None
                          | _, _ => None
                          end)
  | Acts i =>
    at_ladder i (fun l => match ld_phase l, ld_rungs l with
                          | LChose TimerFired, s :: _ =>
                            Some (if ew_busy w then on_ladder i (fun l => l <| ld_phase := LFiring |>) (w <| ew_said ::= fun m => m ++ [es_Mode s] |>)
                                  else ends i w)
                          | LChose _, _ => Some (ends i w)
                          | _, _ => None
                          end)
  | Interrupts i =>
    at_ladder i (fun l => match ld_phase l, ld_rungs l with
                          | LFiring, s :: rest =>
                            Some (on_ladder i (fun l => l <| ld_phase := LTop |> <| ld_rungs := rest |> <| ld_fired ::= fun m => m ++ [(s, ew_now w)] |>) w)
                          | _, _ => None
                          end)
  | LoopEnds i => at_ladder i (fun l => match ld_phase l, ld_rungs l with LTop, [] => Some (ends i w) | _, _ => None end)
  | Hears i e =>
    at_ladder i (fun l => match ld_phase l with
                          | LSuperseding _ => None   (* not subscribed yet *)
                          | _ => Some (if absorbs e (ld_text l) then on_ladder i absorbed w else w)
                          end)
  | SeatDies => Some (w <| ew_dead := true |> <| ew_ladders ::= fmap (woken SeatDead) |>)
  | TurnIs busy => Some (w <| ew_busy := busy |>)
  | TimePasses t => if (ew_now w <=? t)%Z then Some (w <| ew_now := t |>) else None
  end.

Inductive ladder_reachable : seat -> Prop :=
| seat_starts : ladder_reachable new_seat
| seat_goes w s w' : ladder_reachable w -> ladder_exec s w = Some w' -> ladder_reachable w'.

(** ** What holds in every reachable state *)

(** Interrupts no earlier than their rungs ask, in order. *)
Definition on_time (now : Time) (l : ladder) : Prop :=
  Forall (fun f : EscalationStep * Time => (deadline l f.1 <= f.2 <= now)%Z) (ld_fired l)
  /\ StronglySorted Z.le (ld_fired l).*2.

Definition phase_ok (now : Time) (dead : bool) (l : ladder) : Prop :=
  match ld_phase l with
  | LSuperseding _ | LSending => ld_fired l = []
  | LParked => ld_absorbed l = false /\ ld_superseded l = false /\ dead = false /\ ld_rungs l <> []
  | LChose TimerFired | LFiring => exists s rest, ld_rungs l = s :: rest /\ (deadline l s <= now)%Z
  | _ => True
  end.

Record ladder_ok (now : Time) (dead : bool) (l : ladder) : Prop := {
  lk_split : ld_all l = (ld_fired l).*1 ++ ld_rungs l;
  lk_valid : Forall (fun s => es_Mode s = DeliveryInterrupt /\ 0 <= es_After s)%Z (ld_all l);
  lk_few : length (ld_all l) < maxEscalationSteps;
  lk_time : on_time now l;
  lk_phase : phase_ok now dead l }.

(** Who is about to close the channel of a ladder. *)
Definition closing (w : seat) (p : nat) : Prop := exists i l, ew_ladders w !! i = Some l /\ ld_phase l = LSuperseding (Some p).

Record seat_inv (w : seat) : Prop := {
  si_ladders : Forall (ladder_ok (ew_now w) (ew_dead w)) (ew_ladders w);
  si_live : forall i l, ew_ladders w !! i = Some l -> ld_phase l <> LEnded ->
    ew_current w = Some i \/ ld_superseded l = true \/ closing w i;
  si_closing : forall i l p, ew_ladders w !! i = Some l -> ld_phase l = LSuperseding (Some p) ->
    p < i /\ exists m, ew_ladders w !! p = Some m /\ ld_superseded m = false;
  si_once : forall i j l m p, ew_ladders w !! i = Some l -> ew_ladders w !! j = Some m ->
    ld_phase l = LSuperseding (Some p) -> ld_phase m = LSuperseding (Some p) -> i = j;
  si_current : forall c, ew_current w = Some c -> exists l, ew_ladders w !! c = Some l /\ ld_superseded l = false /\ ~ closing w c;
  si_panic : ew_panicked w = false }.

(** A ladder that neither is nor becomes one that closes another's channel. *)
Definition calm (p : ladder_phase) : Prop := match p with LSuperseding _ => False | _ => True end.

Lemma kept_on i l f w cur said : seat_inv w -> ew_ladders w !! i = Some l -> calm (ld_phase l) -> calm (ld_phase (f l)) ->
  ld_superseded (f l) = ld_superseded l -> ladder_ok (ew_now w) (ew_dead w) (f l) ->
  (ld_phase (f l) <> LEnded -> ld_phase l <> LEnded) ->
  (cur = ew_current w \/ cur = None /\ ew_current w = Some i /\ ld_phase (f l) = LEnded) ->
  seat_inv (on_ladder i f (w <| ew_current := cur |> <| ew_said := said |>)).
Proof.
  intros I L C C' Su Ok Li Cur. set (w' := on_ladder i f _).
  assert (forall j m, ew_ladders w' !! j = Some m -> j = i /\ m = f l \/ j <> i /\ ew_ladders w !! j = Some m) as Lk.
  { intros j m M. apply alter_lookup in M as [[-> (l' & L' & ->)]|M]; [left|by right]. change (ew_ladders w !! i = Some l') in L'. split; [done|congruence]. }
  assert (ew_ladders w' !! i = Some (f l)) as Li'
    by (change (alter f i (ew_ladders w) !! i = Some (f l)); by rewrite list_lookup_alter_eq, L).
  assert (forall j m, j <> i -> ew_ladders w !! j = Some m -> ew_ladders w' !! j = Some m) as Lo
    by (intros j m N M; change (alter f i (ew_ladders w) !! j = Some m); by rewrite list_lookup_alter_ne).
  assert (forall p, closing w' p <-> closing w p) as Cl.
  { intros p. split; intros (j & m & M & P).
    - apply Lk in M as [[-> ->]|[N M]]; [by rewrite P in C'|by exists j, m].
    - destruct (decide (j = i)) as [->|N]; [rewrite L in M; injection M as <-; by rewrite P in C|]. exists j, m. split; [by apply Lo|done]. }
  split.
  - change (Forall (ladder_ok (ew_now w) (ew_dead w)) (ew_ladders w')). apply Forall_lookup. intros j m M.
    apply Lk in M as [[-> ->]|[N M]]; [done|]. pose proof (si_ladders w I) as F. rewrite Forall_lookup in F. by apply (F j).
  - intros j m M P. change (cur = Some j \/ ld_superseded m = true \/ closing w' j). rewrite Cl. apply Lk in M as [[-> ->]|[N M]].
    + rewrite Su. destruct Cur as [->|(_ & _ & E)]; [by apply (si_live w I i l L), Li|congruence].
    + destruct (si_live w I j m M P) as [E|E]; [|by right]. destruct Cur as [->|(_ & X & _)]; [by left|congruence].
  - intros j m p M P. apply Lk in M as [[-> ->]|[N M]]; [by rewrite P in C'|]. destruct (si_closing w I j m p M P) as [Lt (q & Q & S)].
    split; [done|]. destruct (decide (p = i)) as [->|Np]; [exists (f l); split; [done|congruence]|]. exists q. split; [by apply Lo|done].
  - intros j k m n p M N P Q. apply Lk in M as [[-> ->]|[_ M]]; [by rewrite P in C'|]. apply Lk in N as [[-> ->]|[_ N]]; [by rewrite Q in C'|].
    by apply (si_once w I j k m n p).
  - intros c E. change (cur = Some c) in E. destruct Cur as [->|(-> & _)]; [|done]. destruct (si_current w I c E) as (m & M & S & Nc).
    assert (~ closing w' c) as Nc' by (by rewrite Cl). destruct (decide (c = i)) as [->|N]; [exists (f l); split_and!; [done|congruence|done]|exists m; split_and!; [by apply Lo|done|done]].
  - exact (si_panic w I).
Qed.

Lemma ladder_at w i l : seat_inv w -> ew_ladders w !! i = Some l -> ladder_ok (ew_now w) (ew_dead w) l.
Proof. intros I L. pose proof (si_ladders w I) as F. rewrite Forall_lookup in F. by apply (F i). Qed.

(** Only the phase changes. *)
Lemma kept_phase i l w p : seat_inv w -> ew_ladders w !! i = Some l -> calm (ld_phase l) -> calm p ->
  (p <> LEnded -> ld_phase l <> LEnded) -> phase_ok (ew_now w) (ew_dead w) (l <| ld_phase := p |>) ->
  seat_inv (on_ladder i (fun l => l <| ld_phase := p |>) w).
Proof.
  intros I L C C' E P. apply (kept_on i l (fun l => l <| ld_phase := p |>) w (ew_current w) (ew_said w)); auto.
  destruct (ladder_at w i l I L). by split.
Qed.

Lemma kept_ends i l w : seat_inv w -> ew_ladders w !! i = Some l -> calm (ld_phase l) -> seat_inv (ends i w).
Proof.
  intros I L C. unfold ends. apply (kept_on i l (fun l => l <| ld_phase := LEnded |>) w _ (ew_said w)); try done.
  - destruct (ladder_at w i l I L). by split.
  - case_decide; [by right|by left].
Qed.

(** The rungs after the first are interrupts, and fewer than four. *)
Lemma valid_later i prev e : valid_rungs (S i) prev e = true -> (0 <= prev)%Z ->
  Forall (fun s => es_Mode s = DeliveryInterrupt /\ 0 <= es_After s)%Z e.
Proof.
  revert i prev. induction e as [|s e IH]; intros i prev V P; [constructor|]. cbn in V.
  apply andb_prop in V as [V R]. apply andb_prop in V as [A M]. apply negb_true_iff, Z.ltb_ge in A. apply bool_decide_eq_true in M.
  constructor; [split; [done|lia]|]. apply (IH _ _ R). lia.
Qed.
Lemma valid_tail e : Validate e = true -> e <> [] ->
  Forall (fun s => es_Mode s = DeliveryInterrupt /\ 0 <= es_After s)%Z (tail e) /\ length (tail e) < maxEscalationSteps.
Proof.
  intros V N. apply andb_prop in V as [L V]. apply Nat.leb_le in L. destruct e as [|s e]; [done|]. cbn in V, L |- *.
  apply andb_prop in V as [V R]. apply andb_prop in V as [A _]. apply negb_true_iff, Z.ltb_ge in A. split; [|lia]. by apply (valid_later 0 (es_After s)).
Qed.

Lemma kept_registers text e w : seat_inv w -> Validate e = true -> e <> [] -> seat_inv (registers text (tail e) w).
Proof.
  intros I V N. destruct (valid_tail e V N) as [Va Fe]. unfold registers. set (new := MkLadder _ _ _ _ _ _ _ _).
  assert (forall j m, (ew_ladders w ++ [new]) !! j = Some m -> ew_ladders w !! j = Some m \/ j = length (ew_ladders w) /\ m = new) as Lk.
  { intros j m [M|[Le M]]%lookup_app_Some; [by left|right]. apply list_lookup_singleton_Some in M as [Z0 <-]. split; [lia|done]. }
  assert (forall j m, ew_ladders w !! j = Some m -> (ew_ladders w ++ [new]) !! j = Some m) as Mo by (intros; by apply lookup_app_l_Some).
  set (w' := w <| ew_ladders ::= _ |> <| ew_current := _ |>).
  assert (forall p, closing w' p <-> closing w p \/ ew_current w = Some p) as Cl.
  { intros p. split.
    - intros (j & m & M & P). apply Lk in M as [M|[-> ->]]; [left; by exists j, m|right; by injection P].
    - intros [(j & m & M & P)|E]; [exists j, m; split; [by apply Mo|done]|]. exists (length (ew_ladders w)), new.
      split; [by apply list_lookup_middle|cbn; by rewrite E]. }
  split.
  - change (Forall (ladder_ok (ew_now w) (ew_dead w)) (ew_ladders w ++ [new])). apply Forall_app. split; [apply I|]. constructor; [|constructor].
    split; try done. split; constructor.
  - intros j m M P. change (Some (length (ew_ladders w)) = Some j \/ ld_superseded m = true \/ closing w' j). rewrite Cl.
    apply Lk in M as [M|[-> ->]]; [|by left]. destruct (si_live w I j m M P) as [E|[E|E]]; auto.
  - intros j m p M P. apply Lk in M as [M|[-> ->]].
    + destruct (si_closing w I j m p M P) as [Lt (q & Q & S)]. split; [done|]. exists q. split; [by apply Mo|done].
    + injection P as P. destruct (si_current w I p P) as (q & Q & S & _). split; [by apply lookup_lt_Some in Q|]. exists q. split; [by apply Mo|done].
  - intros j k m n p M K P Q. apply Lk in M as [M|[-> ->]]; apply Lk in K as [K|[-> ->]].
    + by apply (si_once w I j k m n p).
    + injection Q as Q. destruct (si_current w I p Q) as (_ & _ & _ & Nc). destruct Nc. by exists j, m.
    + injection P as P. destruct (si_current w I p P) as (_ & _ & _ & Nc). destruct Nc. by exists k, n.
    + done.
  - intros c [= <-]. exists new. split; [by apply list_lookup_middle|]. split; [done|]. rewrite Cl. intros [(j & m & M & P)|E].
    + destruct (si_closing w I j m _ M P) as [Lt _]. apply lookup_lt_Some in M. lia.
    + destruct (si_current w I _ E) as (m & M & _). apply lookup_lt_Some in M. lia.
  - exact (si_panic w I).
Qed.

Definition told (m : ladder) : ladder := woken Superseded (m <| ld_superseded := true |>).
Definition sending (now : Time) (l : ladder) : ladder := l <| ld_phase := LSending |> <| ld_start := now |>.

Lemma woken_ok c now dead (l : ladder) : ladder_ok now dead l -> c <> TimerFired -> ladder_ok now dead (woken c l).
Proof. intros [A B C D E] N. unfold woken. destruct (ld_phase l) eqn:P; try done. split; try done. unfold phase_ok. cbn. by destruct c. Qed.
Lemma woken_calm c l : calm (ld_phase l) -> calm (ld_phase (woken c l)).
Proof. unfold woken. destruct (ld_phase l) eqn:E; cbn; by rewrite ?E. Qed.
Lemma woken_super c l p : ld_phase (woken c l) = LSuperseding p <-> ld_phase l = LSuperseding p.
Proof. unfold woken. destruct (ld_phase l) eqn:E; split; intros X; cbn in X; congruence. Qed.
Lemma woken_ended c l : ld_phase (woken c l) <> LEnded -> ld_phase l <> LEnded.
Proof. unfold woken. by destruct (ld_phase l) eqn:E. Qed.
Lemma woken_superseded c l : ld_superseded (woken c l) = ld_superseded l.
Proof. unfold woken. by destruct (ld_phase l). Qed.

Lemma told_ok now dead l : ladder_ok now dead l -> ladder_ok now dead (told l).
Proof.
  intros [A B C D E]. unfold told, woken. cbn. destruct (ld_phase l) eqn:P; split; try done; unfold phase_ok in *; cbn; rewrite ?P in *; done.
Qed.

Lemma kept_supersedes i l prev w : seat_inv w -> ew_ladders w !! i = Some l -> ld_phase l = LSuperseding prev -> seat_inv (supersedes i prev w).
Proof.
  intros I L P. assert (forall p, prev = Some p -> p <> i /\ exists m, ew_ladders w !! p = Some m /\ ld_superseded m = false) as Pr.
  { intros p ->. destruct (si_closing w I i l p L P) as [Lt M]. split; [lia|done]. }
  assert (supersedes i prev w = w <| ew_ladders := alter (sending (ew_now w)) i
            (match prev with Some p => alter told p (ew_ladders w) | None => ew_ladders w end) |>) as ->.
  { unfold supersedes, closes. destruct prev as [p|]; [|done]. destruct (Pr p eq_refl) as (_ & m & M & S). by rewrite M, S. }
  set (ls := alter _ i _).
  assert (forall j m, ls !! j = Some m -> j = i /\ m = sending (ew_now w) l
            \/ j <> i /\ ((exists m0, prev = Some j /\ ew_ladders w !! j = Some m0 /\ m = told m0) \/ prev <> Some j /\ ew_ladders w !! j = Some m)) as Lk.
  { intros j m M. apply alter_lookup in M as [[-> (l' & L' & ->)]|[N M]].
    - left. split; [done|]. destruct prev as [p|]; [|congruence]. destruct (Pr p eq_refl) as [N _].
      rewrite list_lookup_alter_ne in L' by done. congruence.
    - right. split; [done|]. destruct prev as [p|]; [|by right]. apply alter_lookup in M as [[-> (m0 & M & ->)]|[Np M]]; [left; by exists m0|right; split; [congruence|done]]. }
  assert (ls !! i = Some (sending (ew_now w) l)) as Li.
  { unfold ls. rewrite list_lookup_alter_eq. destruct prev as [p|]; [|by rewrite L]. destruct (Pr p eq_refl) as [N _].
    rewrite list_lookup_alter_ne by done. by rewrite L. }
  assert (forall j m, j <> i -> prev <> Some j -> ew_ladders w !! j = Some m -> ls !! j = Some m) as Lo.
  { intros j m N Np M. unfold ls. rewrite list_lookup_alter_ne by done. destruct prev as [p|]; [|done]. rewrite list_lookup_alter_ne; [done|congruence]. }
  assert (forall j m, prev = Some j -> ew_ladders w !! j = Some m -> ls !! j = Some (told m)) as Lt.
  { intros j m Pj M. destruct (Pr j Pj) as [N _]. unfold ls. rewrite list_lookup_alter_ne by done. rewrite Pj, list_lookup_alter_eq, M. done. }
  set (w' := w <| ew_ladders := ls |>).
  assert (forall q, closing w' q <-> closing w q /\ prev <> Some q) as Cl.
  { intros q. split.
    - intros (j & m & M & Q). apply Lk in M as [[-> ->]|[N [(m0 & Pj & M & ->)|[Np M]]]]; [done| |].
      + unfold told in Q. rewrite woken_super in Q. split; [by exists j, m0|]. intros ->. apply N. by apply (si_once w I j i m0 l q).
      + split; [by exists j, m|]. intros ->. apply N. by apply (si_once w I j i m l q).
    - intros [(j & m & M & Q) Np]. assert (j <> i) as N by (intros ->; rewrite L in M; injection M as <-; congruence).
      destruct (decide (prev = Some j)) as [Pj|Nj]; [exists j, (told m)|exists j, m]; split; [by apply Lt| |by apply Lo|done].
      unfold told. by rewrite woken_super. }
  split.
  - change (Forall (ladder_ok (ew_now w) (ew_dead w)) ls). apply Forall_lookup. intros j m M. apply Lk in M as [[-> ->]|[N [(m0 & Pj & M & ->)|[Np M]]]].
    + destruct (ladder_at w i l I L) as [A B C D E]. unfold phase_ok in E. rewrite P in E. split; try done; unfold on_time; cbn; rewrite E; split; constructor.
    + by apply told_ok, (ladder_at w j).
    + by apply (ladder_at w j).
  - intros j m M Q. change (ew_current w = Some j \/ ld_superseded m = true \/ closing w' j). rewrite Cl.
    apply Lk in M as [[-> ->]|[N [(m0 & Pj & M & ->)|[Np M]]]].
    + destruct (si_live w I i l L ltac:(congruence)) as [E|[E|E]]; auto. right. right. split; [done|]. intros X. by destruct (Pr i X).
    + right. left. unfold told. by rewrite woken_superseded.
    + destruct (si_live w I j m M Q) as [E|[E|E]]; auto.
  - intros j m p M Q. assert (exists m0, ew_ladders w !! j = Some m0 /\ ld_phase m0 = LSuperseding (Some p) /\ j <> i) as (m0 & M0 & Q0 & N).
    { apply Lk in M as [[-> ->]|[N [(m0 & Pj & M & ->)|[Np M]]]]; [done| |by exists m]. exists m0. unfold told in Q. by rewrite woken_super in Q. }
    destruct (si_closing w I j m0 p M0 Q0) as [Le (q & Mq & S)]. split; [done|].
    assert (prev <> Some p) as Np by (intros ->; apply N; by apply (si_once w I j i m0 l p)).
    destruct (decide (p = i)) as [->|Ni]; [rewrite L in Mq; injection Mq as <-; by exists (sending (ew_now w) l)|]. exists q. split; [by apply Lo|done].
  - intros j k m n p M K Q R.
    assert (forall j m, ls !! j = Some m -> ld_phase m = LSuperseding (Some p) -> exists m0, ew_ladders w !! j = Some m0 /\ ld_phase m0 = LSuperseding (Some p)) as Back.
    { intros j' m' M' Q'. apply Lk in M' as [[-> ->]|[N [(m0 & Pj & M' & ->)|[Np M']]]]; [done| |by exists m']. exists m0. unfold told in Q'. by rewrite woken_super in Q'. }
    destruct (Back j m M Q) as (m0 & M0 & Q0), (Back k n K R) as (n0 & N0 & R0). by apply (si_once w I j k m0 n0 p).
  - intros c E. change (ew_current w = Some c) in E. destruct (si_current w I c E) as (m & M & S & Nc).
    assert (~ closing w' c) as Nc' by (rewrite Cl; tauto).
    assert (prev <> Some c) as Np by (intros ->; apply Nc; by exists i, l).
    destruct (decide (c = i)) as [->|N]; [|exists m; split_and!; [by apply Lo|done|done]].
    rewrite L in M. injection M as <-. exists (sending (ew_now w) l). done.
  - exact (si_panic w I).
Qed.

(** Every ladder hears of the seat's death. *)
Lemma kept_dies w : seat_inv w -> seat_inv (w <| ew_dead := true |> <| ew_ladders ::= fmap (woken SeatDead) |>).
Proof.
  intros I. set (w' := w <| ew_dead := true |> <| ew_ladders ::= _ |>).
  assert (forall j m, ew_ladders w' !! j = Some m -> exists m0, ew_ladders w !! j = Some m0 /\ m = woken SeatDead m0) as Lk.
  { intros j m M. apply list_lookup_fmap_Some in M as (m0 & E & M). by exists m0. }
  assert (forall j m, ew_ladders w !! j = Some m -> ew_ladders w' !! j = Some (woken SeatDead m)) as Lo.
  { intros j m M. apply list_lookup_fmap_Some. by exists m. }
  assert (forall p, closing w' p <-> closing w p) as Cl.
  { intros p. split; intros (j & m & M & Q).
    - apply Lk in M as (m0 & M & ->). rewrite woken_super in Q. by exists j, m0.
    - exists j, (woken SeatDead m). split; [by apply Lo|by rewrite woken_super]. }
  split.
  - change (Forall (ladder_ok (ew_now w) true) (fmap (woken SeatDead) (ew_ladders w))). apply Forall_fmap, Forall_lookup. intros j m M.
    destruct (ladder_at w j m I M) as [A B C D E]. unfold woken. cbn. destruct (ld_phase m) eqn:P; split; try done; unfold phase_ok in *; cbn; rewrite ?P in *; done.
  - intros j m M Q. change (ew_current w = Some j \/ ld_superseded m = true \/ closing w' j). rewrite Cl.
    apply Lk in M as (m0 & M & ->). rewrite woken_superseded. by apply (si_live w I j m0 M), (woken_ended SeatDead).
  - intros j m p M Q. apply Lk in M as (m0 & M & ->). rewrite woken_super in Q. destruct (si_closing w I j m0 p M Q) as [Le (q & Mq & S)].
    split; [done|]. exists (woken SeatDead q). split; [by apply Lo|by rewrite woken_superseded].
  - intros j k m n p M K Q R. apply Lk in M as (m0 & M & ->). apply Lk in K as (n0 & K & ->). rewrite woken_super in Q, R.
    by apply (si_once w I j k m0 n0 p).
  - intros c E. change (ew_current w = Some c) in E. destruct (si_current w I c E) as (m & M & S & Nc).
    assert (~ closing w' c) as Nc' by (by rewrite Cl). exists (woken SeatDead m). split_and!; [by apply Lo|by rewrite woken_superseded|done].
  - exact (si_panic w I).
Qed.

Lemma later_ok now t dead l : (now <= t)%Z -> ladder_ok now dead l -> ladder_ok t dead l.
Proof.
  intros Le [A B C [D1 D2] E]. split; try done.
  - split; [|done]. apply (list.Forall_impl _ _ _ D1). intros f [X Y]. lia.
  - unfold phase_ok in *. destruct (ld_phase l) as [| | | |[]| |]; try done; destruct E as (s & rest & R & X); exists s, rest; (split; [done|lia]).
Qed.

Lemma sorted_snoc (l : list Z) x : StronglySorted Z.le l -> Forall (fun y => y <= x)%Z l -> StronglySorted Z.le (l ++ [x]).
Proof.
  induction 1 as [|y l S IH F]; intros A; [repeat constructor|]. inversion A; subst. cbn. constructor; [by apply IH|].
  apply Forall_app. split; [done|by constructor].
Qed.

Lemma kept_interrupts i l w s rest : seat_inv w -> ew_ladders w !! i = Some l -> ld_phase l = LFiring -> ld_rungs l = s :: rest ->
  seat_inv (on_ladder i (fun l => l <| ld_phase := LTop |> <| ld_rungs := rest |> <| ld_fired ::= fun m => m ++ [(s, ew_now w)] |>) w).
Proof.
  intros I L P R. destruct (ladder_at w i l I L) as [A B C [D1 D2] E].
  apply (kept_on i l (fun l => l <| ld_phase := LTop |> <| ld_rungs := rest |> <| ld_fired ::= fun m => m ++ [(s, ew_now w)] |>) w (ew_current w) (ew_said w));
    try done; [by rewrite P| |by rewrite P|by left].
  unfold phase_ok in E. rewrite P in E. destruct E as (s' & rest' & R' & Due). rewrite R in R'. injection R' as <- <-. split; try done.
  - cbn. rewrite A, R, fmap_app, <- app_assoc. done.
  - split; cbn.
    + apply Forall_app. split; [exact D1|]. constructor; [|constructor]. cbn. split; [exact Due|done].
    + rewrite fmap_app. apply sorted_snoc; [done|]. apply Forall_fmap. apply (list.Forall_impl _ _ _ D1). intros f [_ X]. done.
Qed.

Lemma ladder_kept_exec s w w' : seat_inv w -> ladder_exec s w = Some w' -> seat_inv w'.
Proof.
  intros I. destruct s; cbn [ladder_exec]; intros X; try (destruct (ew_ladders w !! i) as [l|] eqn:L; [cbn in X|done]; pose proof (ladder_at w i l I L) as Ok).
  - injection X as <-. unfold route. destruct (Validate e) eqn:V; [|done]. cbn [negb]. destruct hook; [done|].
    destruct (bool_decide_reflect (length e = 0%nat)); cbn [orb]; [done|]. destruct (ew_busy w); [|done]. cbn [negb].
    assert (e <> []) by (by intros ->). destruct (bool_decide (length e = 1%nat)); by apply kept_registers.
  - destruct (ld_phase l) eqn:P; try done. injection X as <-. by apply kept_supersedes with l.
  - destruct (ld_phase l) eqn:P; try done. injection X as <-.
    apply (kept_on i l (first_sent ok) w (ew_current w) (ew_said w)); try done; try (by rewrite P); [| |by left].
    + unfold first_sent. cbn. destruct ok; [|done]. by destruct (ld_rungs l).
    + destruct Ok as [A B C D E]. split; try done. unfold phase_ok, first_sent. cbn. destruct ok; [|done]. by destruct (ld_rungs l).
  - destruct (ld_phase l) eqn:P; try done. destruct (ld_rungs l) as [|s rest] eqn:R; [done|]. destruct c as [c|].
    + destruct (ready w l s c) eqn:Rd; [|done]. injection X as <-. apply (kept_phase i l w (LChose c)); try done; try (by rewrite P).
      unfold phase_ok. cbn. destruct c; try done. exists s, rest. split; [done|]. by apply Z.leb_le.
    + destruct (ld_absorbed l) eqn:R1; [done|]. destruct (ld_superseded l) eqn:R2; [done|]. destruct (ew_dead w) eqn:R3; [done|].
      injection X as <-. apply (kept_phase i l w LParked); [done|done|by rewrite P|done|by rewrite P|].
      unfold phase_ok. cbn. rewrite R. by split_and!.
  - destruct (ld_phase l) eqn:P; try done. destruct (ld_rungs l) as [|s rest] eqn:R; [done|]. destruct (Z.leb_spec (deadline l s) (ew_now w)) as [Due|]; [|done].
    injection X as <-. apply (kept_on i l (woken TimerFired) w (ew_current w) (ew_said w)); try done; try (by rewrite P); try (unfold woken; by rewrite P); [|by left].
    unfold woken. rewrite P. destruct Ok as [A B C D E]. split; try done. by exists s, rest.
  - assert (forall p, ld_phase l = LChose p -> seat_inv (ends i w)) as En by (intros p P; apply kept_ends with l; [done..|by rewrite P]).
    destruct (ld_phase l) as [| | | |c| |] eqn:P; try done; [|by destruct (ld_rungs l)..].
    destruct c; try (injection X as <-; by apply (En _ eq_refl)); try (by destruct (ld_rungs l); injection X as <-; apply (En _ eq_refl)).
    destruct (ld_rungs l) as [|s rest] eqn:R; [injection X as <-; by apply (En _ eq_refl)|]. destruct (ew_busy w); injection X as <-; [|by apply (En _ eq_refl)].
    apply (kept_on i l (fun l => l <| ld_phase := LFiring |>) w (ew_current w) (ew_said w ++ [es_Mode s])); try done; try (by rewrite P); [|by left].
    destruct Ok as [A B C D E]. unfold phase_ok in E. rewrite P in E. by split.
  - destruct (ld_phase l) eqn:P; try done. destruct (ld_rungs l) as [|s rest] eqn:R; [done|]. injection X as <-. by apply kept_interrupts with l.
  - destruct (ld_phase l) eqn:P; try done. destruct (ld_rungs l); [|done]. injection X as <-. apply kept_ends with l; [done..|by rewrite P].
  - assert (calm (ld_phase l) /\ w' = (if absorbs e (ld_text l) then on_ladder i absorbed w else w)) as [C ->]
      by (destruct (ld_phase l); try done; by injection X as <-).
    destruct (absorbs e (ld_text l)); [|done]. apply (kept_on i l absorbed w (ew_current w) (ew_said w)); try done; [by apply woken_calm|..|by left].
    + unfold absorbed. by rewrite woken_superseded.
    + destruct Ok as [A B D F E]. unfold absorbed, woken. cbn. destruct (ld_phase l) eqn:P; split; try done; unfold phase_ok in *; cbn; rewrite ?P in *; done.
    + exact (woken_ended Absorbed (l <| ld_absorbed := true |>)).
  - injection X as <-. by apply kept_dies.
  - injection X as <-. destruct I as [A B C D E F]. by split.
  - destruct (Z.leb_spec (ew_now w) t); [|done]. injection X as <-. destruct I as [A B C D E F]. split; try done.
    cbn. apply (list.Forall_impl _ _ _ A). intros l. by apply later_ok.
Qed.

Lemma reachable_ok w : ladder_reachable w -> seat_inv w.
Proof.
  induction 1 as [|w s w' R IH E]; [|by apply (ladder_kept_exec s w w')].
  split; try done; intros i l; by rewrite lookup_nil.
Qed.


(** ** What a ladder does *)

(** It has been told to stop, or has stopped. *)
Definition stopped (p : ladder_phase) : bool := match p with LChose TimerFired => false | LChose _ | LEnded => true | _ => false end.

Lemma stopped_stays w s w' i l : seat_inv w -> ladder_exec s w = Some w' -> ew_ladders w !! i = Some l -> stopped (ld_phase l) = true ->
  exists l', ew_ladders w' !! i = Some l' /\ stopped (ld_phase l') = true /\ ld_fired l' = ld_fired l.
Proof.
  intros I E L S.
  assert (forall j f v, ew_ladders v = ew_ladders w -> (j = i -> stopped (ld_phase (f l)) = true /\ ld_fired (f l) = ld_fired l) ->
    exists l', ew_ladders (on_ladder j f v) !! i = Some l' /\ stopped (ld_phase l') = true /\ ld_fired l' = ld_fired l) as On.
  { intros j f v V F. change (ew_ladders (on_ladder j f v)) with (alter f j (ew_ladders v)). rewrite V. destruct (decide (j = i)) as [->|N].
    - exists (f l). rewrite list_lookup_alter_eq, L. split; [done|by apply F].
    - exists l. by rewrite list_lookup_alter_ne. }
  assert (forall c m, stopped (ld_phase m) = true -> woken c m = m) as Wk by (intros c m; unfold woken; by destruct (ld_phase m)).
  assert (forall j, exists l', ew_ladders (ends j w) !! i = Some l' /\ stopped (ld_phase l') = true /\ ld_fired l' = ld_fired l) as En
    by (intros j; by apply (On j)).
  assert (exists l', ew_ladders w !! i = Some l' /\ stopped (ld_phase l') = true /\ ld_fired l' = ld_fired l) as Same by by exists l.
  destruct s as [hook text e|j|j ok|j c|j|j|j|j|j e| |busy|t]; cbn [ladder_exec] in E;
    try (destruct (ew_ladders w !! j) as [m|] eqn:M; [cbn in E|done]; assert (j = i -> m = l) as Eq by (intros ->; congruence)).
  - injection E as <-. assert (exists l', ew_ladders (registers text (tail e) w) !! i = Some l' /\ stopped (ld_phase l') = true /\ ld_fired l' = ld_fired l) as R
      by (exists l; split; [by apply lookup_app_l_Some|done]). by destruct (route hook (ew_busy w) e).
  - destruct (ld_phase m) as [prev| | | | | |] eqn:P; try done. injection E as <-.
    assert (j <> i) as N by (intros X; rewrite (Eq X) in P; by rewrite P in S). unfold supersedes.
    assert (exists l', ew_ladders (match prev with Some p => closes p w | None => w end) !! i = Some l' /\ stopped (ld_phase l') = true /\ ld_fired l' = ld_fired l) as (l' & L' & Q).
    { destruct prev as [p|]; [|done]. unfold closes. destruct (ew_ladders w !! p) as [q|] eqn:Pq; [|done]. destruct (ld_superseded q); [done|].
      apply (On p); [done|]. intros _. rewrite Wk by done. done. }
    exists l'. split; [|done]. change (alter (sending (ew_now w)) j (ew_ladders (match prev with Some p => closes p w | None => w end)) !! i = Some l').
    by rewrite list_lookup_alter_ne.
  - destruct (ld_phase m) eqn:P; try done. injection E as <-. apply (On j); [done|]. intros X. rewrite (Eq X) in P. by rewrite P in S.
  - destruct (ld_phase m) eqn:P; try done. assert (j <> i) as N by (intros X; rewrite (Eq X) in P; by rewrite P in S).
    destruct (ld_rungs m); [done|]. destruct c as [c|].
    + destruct (ready w m _ c); [|done]. injection E as <-. by apply (On j).
    + destruct (ld_absorbed m); [done|]. destruct (ld_superseded m); [done|]. destruct (ew_dead w); [done|]. injection E as <-. by apply (On j).
  - destruct (ld_phase m) eqn:P; try done. assert (j <> i) as N by (intros X; rewrite (Eq X) in P; by rewrite P in S).
    destruct (ld_rungs m); [done|]. destruct (Z.leb _ _); [|done]. injection E as <-. by apply (On j).
  - destruct (ld_phase m) as [| | | |c| |] eqn:P; try done; [|by destruct (ld_rungs m)..].
    destruct c; try (injection E as <-; apply En). destruct (ld_rungs m); [injection E as <-; apply En|].
    assert (j <> i) as N by (intros X; rewrite (Eq X) in P; by rewrite P in S). destruct (ew_busy w); injection E as <-; [by apply (On j)|apply En].
  - destruct (ld_phase m) eqn:P; try done. assert (j <> i) as N by (intros X; rewrite (Eq X) in P; by rewrite P in S).
    destruct (ld_rungs m); [done|]. injection E as <-. by apply (On j).
  - destruct (ld_phase m) eqn:P; try done. destruct (ld_rungs m); [|done]. injection E as <-. apply En.
  - assert (w' = (if absorbs e (ld_text m) then on_ladder j absorbed w else w)) as -> by (destruct (ld_phase m); try done; by injection E as <-).
    destruct (absorbs _ _); [|done]. apply (On j); [done|]. intros X. unfold absorbed. rewrite Wk; done.
  - injection E as <-. exists l. split; [|done]. apply list_lookup_fmap_Some. exists l. by rewrite Wk.
  - by injection E as <-.
  - destruct (Z.leb _ _); [|done]. by injection E as <-.
Qed.

(** The steps of a ladder's goroutine. *)
Definition own (i : nat) (s : ladder_step) : bool :=
  match s with Selects j _ | TimerFires j | Acts j | Interrupts j | LoopEnds j => Nat.eqb j i | _ => false end.

(** A ladder whose first rung is sent and that has not ended can go on, unless it waits
    for its time and nothing has told it to stop. *)
Lemma ladder_goes w i l : seat_inv w -> ew_ladders w !! i = Some l -> calm (ld_phase l) -> ld_phase l <> LSending -> ld_phase l <> LEnded ->
  (exists s w', own i s = true /\ ladder_exec s w = Some w')
  \/ exists s rest, ld_phase l = LParked /\ ld_rungs l = s :: rest /\ (ew_now w < deadline l s)%Z
       /\ ld_absorbed l = false /\ ld_superseded l = false /\ ew_dead w = false.
Proof.
  intros I L C Ns Ne. destruct (ladder_at w i l I L) as [_ _ _ _ E]. unfold phase_ok in E.
  assert (forall s w', own i s = true -> ladder_exec s w = Some w' -> exists s w', own i s = true /\ ladder_exec s w = Some w') as Go by eauto.
  destruct (ld_phase l) as [p| | | |c| |] eqn:P; try done.
  - left. destruct (ld_rungs l) as [|s rest] eqn:R.
    + eapply (Go (LoopEnds i)); [apply Nat.eqb_refl|]. cbn. rewrite L. cbn. by rewrite P, R.
    + destruct (ld_absorbed l) eqn:A; [|destruct (ld_superseded l) eqn:S; [|destruct (ew_dead w) eqn:D]].
      * eapply (Go (Selects i (Some Absorbed))); [apply Nat.eqb_refl|]. cbn. rewrite L. cbn. by rewrite P, R, A.
      * eapply (Go (Selects i (Some Superseded))); [apply Nat.eqb_refl|]. cbn. rewrite L. cbn. by rewrite P, R, S.
      * eapply (Go (Selects i (Some SeatDead))); [apply Nat.eqb_refl|]. cbn. rewrite L. cbn. by rewrite P, R, D.
      * eapply (Go (Selects i None)); [apply Nat.eqb_refl|]. cbn. rewrite L. cbn. by rewrite P, R, A, S, D.
  - destruct E as (A & S & D & R). destruct (ld_rungs l) as [|s rest] eqn:Ru; [done|].
    destruct (Z.leb_spec (deadline l s) (ew_now w)) as [Due|Not]; [left|right; by exists s, rest].
    eapply (Go (TimerFires i)); [apply Nat.eqb_refl|]. cbn. rewrite L. cbn. rewrite P, Ru. by rewrite (proj2 (Z.leb_le _ _) Due).
  - left. assert (exists w', ladder_exec (Acts i) w = Some w') as [w' X].
    { cbn. rewrite L. cbn. rewrite P. destruct c, (ld_rungs l); by eexists. }
    apply (Go (Acts i) w'); [apply Nat.eqb_refl|done].
  - left. destruct E as (s & rest & R & _). eapply (Go (Interrupts i)); [apply Nat.eqb_refl|]. cbn. rewrite L. cbn. by rewrite P, R.
Qed.

(** C35: Whatever sends, events, turns and deaths come in whatever order, a ladder
    interrupts for its later rungs in their order, each once, at most three times and
    none before its time; it interrupts no more once it has been told to stop while it
    waited; while it waits nothing has told it to, and it can go on otherwise. Of the
    ladders of a seat that have not ended all but the latest have been told to stop or
    are about to be, and none is told twice. *)
Theorem a_ladder_presses_in_time w :
  ladder_reachable w ->
  ew_panicked w = false
  /\ (forall i l, ew_ladders w !! i = Some l ->
        ld_all l = (ld_fired l).*1 ++ ld_rungs l /\ length (ld_fired l) < maxEscalationSteps /\ on_time (ew_now w) l
        /\ Forall (fun s => es_Mode s = DeliveryInterrupt) (ld_all l))
  /\ (forall i l s w', ew_ladders w !! i = Some l -> stopped (ld_phase l) = true -> ladder_exec s w = Some w' ->
        exists l', ew_ladders w' !! i = Some l' /\ stopped (ld_phase l') = true /\ ld_fired l' = ld_fired l)
  /\ (forall i l, ew_ladders w !! i = Some l -> calm (ld_phase l) -> ld_phase l <> LSending -> ld_phase l <> LEnded ->
        (exists s w', own i s = true /\ ladder_exec s w = Some w')
        \/ exists s rest, ld_phase l = LParked /\ ld_rungs l = s :: rest /\ (ew_now w < deadline l s)%Z
             /\ ld_absorbed l = false /\ ld_superseded l = false /\ ew_dead w = false)
  /\ (forall i l, ew_ladders w !! i = Some l -> ld_phase l <> LEnded -> ew_current w <> Some i -> ld_superseded l = true \/ closing w i).
Proof.
  intros R. pose proof (reachable_ok w R) as I. split_and!; [apply I| | | |].
  - intros i l L. destruct (ladder_at w i l I L) as [A B C D _]. split_and!; [done| |done|].
    + apply (f_equal length) in A. rewrite length_app, length_fmap in A. lia.
    + apply (list.Forall_impl _ _ _ B). by intros s [M _].
  - intros i l s w' L S E. by apply (stopped_stays w s w' i l).
  - intros i l. by apply ladder_goes.
  - intros i l L N Nc. destruct (si_live w I i l L N) as [E|E]; [done|exact E].
Qed.

(** ** Runs *)

Module Pressing.

Abbreviation ladder_runs := (run_steps ladder_exec).
Lemma ladder_runs_reachable steps w w' : ladder_reachable w -> ladder_runs steps w = Some w' -> ladder_reachable w'.
Proof. apply run_steps_keep. intros s v v' R E. by apply (seat_goes v s v'). Qed.

Definition urgent : list EscalationStep := [MkStep DeliverySteer 0; MkStep DeliveryInterrupt 10; MkStep DeliveryInterrupt 10].
Definition absorbed_event (text : string) : Event := MkEvent "progress" "" "" None None text "" ProgressDeliveryAbsorbed "" false "".

(** A ladder that interrupts once, and is then superseded. *)
Definition pressed : list ladder_step :=
  [TurnIs true; SendBegins false "stop" urgent; Supersedes 0; SendEnds 0 true; Selects 0 None; TimePasses 10; TimerFires 0; Acts 0;
   Interrupts 0; SendBegins false "now" urgent; Supersedes 1].
Definition after_pressed : seat := default new_seat (ladder_runs pressed new_seat).
Lemma after_pressed_reachable : ladder_reachable after_pressed.
Proof. apply (ladder_runs_reachable pressed new_seat); [constructor|vm_compute; reflexivity]. Qed.

Theorem a_ladder_presses_in_time_witness :
  ew_panicked after_pressed = false
  /\ exists l, ew_ladders after_pressed !! 0 = Some l /\ ld_fired l = [(MkStep DeliveryInterrupt 10, 10%Z)] /\ ld_superseded l = true /\ on_time 10 l.
Proof.
  destruct (a_ladder_presses_in_time after_pressed after_pressed_reachable) as (P & T & _). split; [exact P|].
  destruct (ew_ladders after_pressed !! 0) as [l|] eqn:L; [|vm_compute in L; discriminate L]. exists l. split; [reflexivity|].
  destruct (T 0 l L) as (_ & _ & O & _). split; [vm_compute in L; injection L as <-; reflexivity|].
  split; [vm_compute in L; injection L as <-; reflexivity|]. exact O.
Defined.

(** A send without a ladder leaves the ladder before it in place. *)
Example an_empty_ladder_supersedes_nothing :
  ew_current <$> ladder_runs [TurnIs true; SendBegins false "stop" urgent; Supersedes 0; SendEnds 0 true; SendBegins false "never mind" []] new_seat
  = Some (Some 0%nat).
Proof. vm_compute. reflexivity. Qed.

(** A send that fails has superseded the ladder before it, whose message is pressed no
    more; its own entry stays. *)
Example a_failed_send_supersedes :
  (fun w => (ew_current w, ld_phase <$> ew_ladders w)) <$>
    ladder_runs [TurnIs true; SendBegins false "stop" urgent; Supersedes 0; SendEnds 0 true; Selects 0 None;
                 SendBegins false "now" urgent; Supersedes 1; SendEnds 1 false; Acts 0] new_seat
  = Some (Some 1%nat, [LEnded; LEnded]).
Proof. vm_compute. reflexivity. Qed.

(** The message is absorbed while its ladder interrupts; the select may still take the
    timer of the next rung, and the turn that took the message is interrupted. *)
Example an_absorbed_message_is_interrupted :
  (fun w => (fun l => (ld_absorbed l, length (ld_fired l))) <$> ew_ladders w) <$>
    ladder_runs [TurnIs true; SendBegins false "stop" urgent; Supersedes 0; SendEnds 0 true; Selects 0 None; TimePasses 10; TimerFires 0;
                 Acts 0; Interrupts 0; Hears 0 (absorbed_event "stop"); Selects 0 (Some TimerFired); Acts 0; Interrupts 0] new_seat
  = Some [(true, 2%nat)].
Proof. vm_compute. reflexivity. Qed.

End Pressing.
