(* ===== verification/RegistryTypes.v ===== *)
(** * RegistryTypes: the seats a registry knows

    Models the data of [registry.go] and [registry_lifecycle.go]: definitions,
    processes, reservations and the registry's own state. A Go slice is [None]
    when it is nil, which [reflect.DeepEqual] tells from an empty one. Values
    are immutable here, so the copies of [cloneAgentDef] are the values
    themselves. *)

From S2P Require Import Prelude GoLib Resolve.

Abbreviation slice A := (option (list A)) (only parsing).
Abbreviation gomap A := (option (gmap string A)) (only parsing).

(** ** Definitions *)

Record MCPServer := MkServer {
  v_Name : string; v_Type : string; v_URL : string; v_Command : string; v_Args : slice string;
  v_Env : gomap string; v_DurableTools : slice string; v_Headers : gomap string;
  v_HeadersHelper : string; v_BearerTokenEnv : string; v_Auth : string;
  v_Providers : slice string }.

Record ProtectedPathRule := MkRule { pp_Pattern : string; pp_Reason : string }.

#[export] Instance MCPServer_eq_dec : EqDecision MCPServer.
Proof. solve_decision. Defined.
#[export] Instance ProtectedPathRule_eq_dec : EqDecision ProtectedPathRule.
Proof. solve_decision. Defined.

Record AgentDef := MkDef {
  d_Name : string; d_WorkDir : string; d_SessionID : string; d_Materialized : bool;
  d_Provider : string; d_PreferProvider : string; d_AllowedProviders : slice string;
  d_ExcludeProviders : slice string; d_HostMayInterrupt : bool; d_HostNeverPark : bool;
  d_Model : string; d_AutoStart : bool; d_Parent : string; d_Purpose : string; d_Role : string;
  d_Description : string; d_TargetID : string; d_DisallowTools : slice string;
  d_ConnectURL : string; d_ConnectPID : Z; d_GrokConnect : bool; d_SandboxMode : string;
  d_ApprovalPolicy : string; d_SandboxWritableRoots : slice string; d_SandboxNetworkAccess : bool;
  d_SandboxGitWrite : bool; d_ProtectedPaths : slice ProtectedPathRule; d_Goal : string;
  d_MCPServers : slice MCPServer; d_MCPExclusive : bool; d_PermissionMode : string;
  d_MCPConfig : string; d_ExtraArgs : slice string; d_TermLogPath : string; d_OMP : bool;
  d_ContextPreserve : string; d_ContextPins : slice string }.

#[export] Instance AgentDef_eq_dec : EqDecision AgentDef.
Proof. solve_decision. Defined.

#[export] Instance eta_def : Eta AgentDef := fun d =>
  MkDef (d_Name d) (d_WorkDir d) (d_SessionID d) (d_Materialized d) (d_Provider d)
    (d_PreferProvider d) (d_AllowedProviders d) (d_ExcludeProviders d) (d_HostMayInterrupt d)
    (d_HostNeverPark d) (d_Model d) (d_AutoStart d) (d_Parent d) (d_Purpose d) (d_Role d)
    (d_Description d) (d_TargetID d) (d_DisallowTools d) (d_ConnectURL d) (d_ConnectPID d)
    (d_GrokConnect d) (d_SandboxMode d) (d_ApprovalPolicy d) (d_SandboxWritableRoots d)
    (d_SandboxNetworkAccess d) (d_SandboxGitWrite d) (d_ProtectedPaths d) (d_Goal d)
    (d_MCPServers d) (d_MCPExclusive d) (d_PermissionMode d) (d_MCPConfig d) (d_ExtraArgs d)
    (d_TermLogPath d) (d_OMP d) (d_ContextPreserve d) (d_ContextPins d).
#[export] Hint Extern 1 (@Setter AgentDef _ _) => setter_of eta_def : typeclass_instances.

(** The zero definition. *)
Definition no_def : AgentDef :=
  MkDef "" "" "" false "" "" None None false false "" false "" "" "" "" "" None "" 0 false "" ""
    None false false None "" None false "" "" None "" false "" None.

(** [sameLaunchDefinition]: equal up to what does not reach the process. *)
Definition launch_part (d : AgentDef) : AgentDef :=
  d <| d_AutoStart := false |> <| d_Parent := "" |> <| d_Purpose := "" |> <| d_Role := "" |>
    <| d_Description := "" |> <| d_TargetID := "" |> <| d_PreferProvider := "" |>
    <| d_AllowedProviders := None |> <| d_ExcludeProviders := None |>
    <| d_HostMayInterrupt := false |> <| d_HostNeverPark := false |>.

Definition sameLaunchDefinition (a b : AgentDef) : bool :=
  bool_decide (launch_part a = launch_part b).

(** ** What a start is asked for: [registryConfig] *)

Record Config := MkConfig {
  c_Def : AgentDef; c_RequireResume : bool; c_AdoptOnly : bool; c_MCPServers : slice MCPServer }.

Definition registryConfig (d : AgentDef) (requireResume : bool) : Config :=
  MkConfig (d <| d_GrokConnect ::= fun g => g || negb (bool_decide (d_ConnectURL d = "")) |>)
    requireResume false (d_MCPServers d).

(** ** Processes *)

(** What the registry asks of an [Agent]. *)
Record proc := MkProc {
  pr_Alive : bool; pr_Provider : string; pr_Model : string; pr_SessionID : string;
  pr_ConnectURL : string; pr_PID : Z }.

(** What a start's error is, by [errors.Is]. *)
Record start_error := MkStartError {
  se_NoSessionWindow : bool; se_GrantHeld : bool; se_IdentityMismatch : bool;
  se_CursorResumeDenied : bool; se_NoBroker : bool; se_Text : string }.

Inductive registry_error :=
| ErrLifecycleInProgress
| ErrNotRegistered (name : string)
| ErrSessionRequired (name : string)
| ErrContext
| ErrCanceled
| ErrNotOwned (text : string)
| ErrStart (e : start_error)
| ErrNoProcess (name : string)
| ErrRemint (name from to : string)
| ErrPersist
| ErrUnsupportedProvider (p : string)
| ErrSwitchCannotMove (name from to : string)
| ErrSwitchNotAttached (name : string)
| ErrSwitchStarted (name : string)
| ErrNotThisProcess (name : string).

(** ** Reservations and the registry *)

(** [registryLifecycle]; [lc_held] is the gate. *)
Record registryLifecycle := MkLifecycle {
  lc_refs : Z; lc_stops : Z; lc_epoch : N; lc_held : bool }.

#[export] Instance eta_lifecycle : Eta registryLifecycle := fun l =>
  MkLifecycle (lc_refs l) (lc_stops l) (lc_epoch l) (lc_held l).
#[export] Hint Extern 1 (@Setter registryLifecycle _ _) => setter_of eta_lifecycle : typeclass_instances.

(** [Registry]: processes are held by handle; [rg_file] is what was last
    written. *)
Record Registry := MkRegistry {
  rg_agents : gmap string AgentDef; rg_procs : gmap string nat;
  rg_resumeDenied : gmap string start_error; rg_freshSession : gmap string string;
  rg_lifecycle : gmap string registryLifecycle; rg_direct : bool;
  rg_handles : gmap nat proc; rg_file : option (gmap string AgentDef) }.

#[export] Instance eta_registry : Eta Registry := fun r =>
  MkRegistry (rg_agents r) (rg_procs r) (rg_resumeDenied r) (rg_freshSession r) (rg_lifecycle r)
    (rg_direct r) (rg_handles r) (rg_file r).
#[export] Hint Extern 1 (@Setter Registry _ _) => setter_of eta_registry : typeclass_instances.

(** [NewRegistry] from what reading the file gave: nothing, or a parse. *)
Definition NewRegistry (file : option (option (list AgentDef))) : option Registry :=
  match file with
  | Some None => None
  | None => Some (MkRegistry ∅ ∅ ∅ ∅ ∅ false ∅ None)
  | Some (Some defs) =>
    let agents := foldl (fun m d => <[d_Name d := d]> m) ∅ defs in
    Some (MkRegistry agents ∅ ∅ ∅ ∅ false ∅ (Some agents))
  end.

(** [save], when the file can be written or not. *)
Definition rg_save (ok : bool) (r : Registry) : Registry * bool :=
  (if ok then r <| rg_file := Some (rg_agents r) |> else r, ok).

Definition live (r : Registry) (name : string) : option proc :=
  match rg_procs r !! name ≫= fun h => rg_handles r !! h with
  | Some p => if pr_Alive p then Some p else None
  | None => None
  end.
