(* ===== verification/Registry.v ===== *)
(** * Registry: registering, starting, stopping and switching seats

    Models [registry.go], [registry_lifecycle.go] and the parts of
    [registry_switch.go] and [registry_seats.go] that write the table. A
    definition is one stretch under [Registry.mu], or one channel operation on
    a reservation's gate, or the calls to a provider in between; what a
    provider, the daemon, the file or a random id gives is an argument. *)

From S2P Require Import Prelude GoLib Resolve RegistryTypes.

(** ** Providers *)

Definition isClaudeProvider (p : string) : bool := bool_decide (p = "" \/ p = ProviderClaude).

Definition ompProviderID (p : string) : string :=
  if decide (p ∈ [""; "anthropic"; ProviderClaude]) then "anthropic"
  else if decide (p ∈ ["openai-codex"; ProviderCodex]) then "openai-codex"
  else if decide (p = ProviderCursor) then "cursor"
  else if decide (p ∈ ["xai-oauth"; ProviderGrok]) then "xai-oauth"
  else "".

Definition useOMP (p : string) : bool := negb (bool_decide (ompProviderID p = "")).

Definition SubscriptionSeatProvider (p : string) : string :=
  if decide (PlanProvider p = ProviderClaude) then "anthropic"
  else if decide (PlanProvider p = ProviderCodex) then "openai-codex"
  else if decide (PlanProvider p = ProviderGrok) then "xai-oauth"
  else p.

(** ** Reservations *)

Definition no_lifecycle : registryLifecycle := MkLifecycle 0 0 0 false.

Definition op_of (r : Registry) (name : string) : registryLifecycle :=
  default no_lifecycle (rg_lifecycle r !! name).

Definition set_op (name : string) (l : registryLifecycle) (r : Registry) : Registry :=
  r <| rg_lifecycle ::= <[name := l]> |>.

(** The first stretch of [beginLifecycle]: a start is refused while a stop is
    wanted; a stop outdates the starts already waiting. The epoch is the one
    before the stop's own. *)
Definition begin_lifecycle (name : string) (stop : bool) (r : Registry) : option (Registry * N) :=
  let op := op_of r name in
  if negb stop && (0 <? lc_stops op)%Z then None
  else
    let op' := op <| lc_refs ::= fun n => (n + 1)%Z |> in
    let op' := if stop then op' <| lc_stops ::= fun n => (n + 1)%Z |> <| lc_epoch ::= N.succ |>
               else op' in
    Some (set_op name op' r, lc_epoch op).

(** [op.gate <- struct{}{}] and [<-op.gate]. *)
Definition take_gate (name : string) (r : Registry) : option Registry :=
  if lc_held (op_of r name) then None
  else Some (set_op name ((op_of r name) <| lc_held := true |>) r).

Definition free_gate (name : string) (r : Registry) : Registry :=
  set_op name ((op_of r name) <| lc_held := false |>) r.

(** The second stretch of [beginLifecycle]: may the holder of the gate go on? *)
Definition gate_check (name : string) (stop : bool) (epoch : N) (r : Registry) : bool :=
  stop || negb ((0 <? lc_stops (op_of r name))%Z || negb (epoch =? lc_epoch (op_of r name))%N).

(** [release]. *)
Definition release (name : string) (stop : bool) (r : Registry) : Registry :=
  let op := (op_of r name) <| lc_refs ::= fun n => (n - 1)%Z |> in
  let op := if stop then op <| lc_stops ::= fun n => (n - 1)%Z |> else op in
  if (lc_refs op =? 0)%Z then r <| rg_lifecycle ::= delete name |> else set_op name op r.

(** ** Definitions *)

Definition registerLocked (save_ok : bool) (d : AgentDef) (r : Registry)
    : Registry * option registry_error :=
  let name := d_Name d in
  if decide (d_SessionID d = "") then (r, Some (ErrSessionRequired name))
  else
    let old := rg_agents r !! name in
    if bool_decide (is_Some (rg_lifecycle r !! name)) &&
       match old with Some o => negb (sameLaunchDefinition o d) | None => true end
    then (r, Some ErrLifecycleInProgress)
    else
      let fresh_session :=
        match old with Some o => negb (bool_decide (d_SessionID o = d_SessionID d)) | None => true end in
      let r := if bool_decide (is_Some old) && fresh_session
               then r <| rg_resumeDenied ::= delete name |> else r in
      let r := if fresh_session then r <| rg_freshSession ::= <[name := d_SessionID d]> |> else r in
      let s := rg_save save_ok (r <| rg_agents ::= <[name := d]> |>) in
      (s.1, if s.2 then None else Some ErrPersist).

(** [EnsureAgentWithParent]; [EnsureAgent] has no parent. *)
Definition EnsureAgentWithParent (save_ok : bool) (uuid name workDir model parent : string)
    (autoStart : bool) (r : Registry) : Registry * (AgentDef + registry_error) :=
  match rg_agents r !! name with
  | Some d => (r, inl d)
  | None =>
    let d := no_def <| d_Name := name |> <| d_WorkDir := workDir |> <| d_SessionID := uuid |>
               <| d_Model := model |> <| d_AutoStart := autoStart |> <| d_Parent := parent |> in
    match registerLocked save_ok d r with
    | (r, Some e) => (r, inr e)
    | (r, None) => (r, inl d)
    end
  end.

(** The providers a seat may be moved to. *)
Definition policy_providers : list string :=
  cm_Provider <$> List.filter (fun row => bool_decide (cm_Access row = ModelAccessPlan) && cm_Session row)
                    ModelCatalog.

(** [PlanProvider] of each, or the first the catalog has no session plan of. *)
Fixpoint plan_providers (l : list string) : list string + string :=
  match l with
  | [] => inl []
  | p :: l' =>
    if contains policy_providers (PlanProvider p) then
      match plan_providers l' with inl l' => inl (PlanProvider p :: l') | inr p => inr p end
    else inr p
  end.

Definition plan_providers_slice (l : slice string) : slice string + string :=
  match l with
  | None => inl None
  | Some l => match plan_providers l with inl l => inl (Some l) | inr p => inr p end
  end.

Definition SetSeatPlanPolicy (save_ok : bool) (name prefer : string) (allowed excluded : slice string)
    (mayInterrupt neverPark : bool) (r : Registry) : Registry * option registry_error :=
  let prefer := PlanProvider prefer in
  if negb (bool_decide (prefer = "")) && negb (contains policy_providers prefer)
  then (r, Some (ErrUnsupportedProvider prefer))
  else
    match plan_providers_slice allowed, plan_providers_slice excluded with
    | inr p, _ => (r, Some (ErrUnsupportedProvider p))
    | _, inr p => (r, Some (ErrUnsupportedProvider p))
    | inl allowed, inl excluded =>
      match rg_agents r !! name with
      | None => (r, Some (ErrNotRegistered name))
      | Some current =>
        let next := current <| d_PreferProvider := prefer |> <| d_AllowedProviders := allowed |>
                      <| d_ExcludeProviders := excluded |> <| d_HostMayInterrupt := mayInterrupt |>
                      <| d_HostNeverPark := neverPark |> in
        let s := rg_save save_ok (r <| rg_agents ::= <[name := next]> |>) in
        if s.2 then (s.1, None) else (r, Some ErrPersist)
      end
    end.

Definition MarkMaterialized (save_ok : bool) (name : string) (r : Registry)
    : Registry * option registry_error :=
  match rg_agents r !! name with
  | None => (r, Some (ErrNotRegistered name))
  | Some d =>
    if d_Materialized d then (r, None)
    else
      let s := rg_save save_ok (r <| rg_agents ::= <[name := d <| d_Materialized := true |>]> |>) in
      (s.1, if s.2 then None else Some ErrPersist)
  end.

(** [remintSeat], between the reading of the definition and its writing. *)
Definition reminted (uuid : string) (d : AgentDef) : AgentDef :=
  d <| d_SessionID := uuid |> <| d_Materialized := false |> <| d_ConnectURL := "" |>
    <| d_ConnectPID := 0%Z |>.

(** ** Starting *)

Definition requireResumeLocked (r : Registry) (d : AgentDef) : bool :=
  if d_Materialized d then true
  else if decide (d_SessionID d = "") then false
  else useOMP (d_Provider d)
       && negb (bool_decide (default "" (rg_freshSession r !! d_Name d) = d_SessionID d)).

Inductive start_read :=
| ReadErr (e : registry_error)
| ReadLive (p : proc)
| ReadGo (d : AgentDef) (wantResume : bool).

(** The first stretch of [startHeld]; [owned] is what [ensureOwned] says of a
    live process. *)
Definition start_begins (name : string) (ctx_done : bool) (owned : option string) (r : Registry)
    : start_read :=
  match rg_agents r !! name with
  | None => ReadErr (ErrNotRegistered name)
  | Some d =>
    if ctx_done then ReadErr ErrContext
    else
      match live r name with
      | Some p => match owned with Some text => ReadErr (ErrNotOwned text) | None => ReadLive p end
      | None =>
        match rg_resumeDenied r !! name with
        | Some e => ReadErr (ErrStart e)
        | None => ReadGo d (requireResumeLocked r d)
        end
      end
  end.

(** What a call outside gives: a process, an error, both or neither. *)
Abbreviation ext := (option proc * option start_error)%type (only parsing).

(** What the calls of a start end with. *)
Record called := MkCalled { cl_got : ext; cl_brokerAnswered : bool; cl_started : bool }.

Section Calls.
Variable broker : option (Config -> ext).
Variable attach : option (slice MCPServer -> slice MCPServer).
Variables adoptProc startProc : Config -> ext.

(** The daemon is asked first, unless the registry is direct or none runs. *)
Definition ask_broker (direct : bool) (cfg : Config) : option ext :=
  match broker with
  | None => None
  | Some b =>
    if direct then None
    else match (b cfg).2 with
         | Some e => if se_NoBroker e then None else Some (b cfg)
         | None => Some (b cfg)
         end
  end.

Definition no_window (d : AgentDef) : start_error :=
  MkStartError true false false false false (d_SessionID d).

(** The switch of [startHeld] over how a provider is adopted. *)
Definition adopt_call (d : AgentDef) (cfg : Config) : ext :=
  let connected := negb (bool_decide (d_ConnectURL d = "")) in
  if isClaudeProvider (d_Provider d) then adoptProc cfg
  else if useOMP (d_Provider d) && negb connected && (d_ConnectPID d =? 0)%Z
  then startProc (MkConfig (c_Def cfg) (c_RequireResume cfg) true (c_MCPServers cfg))
  else if bool_decide (d_Provider d = ProviderGrok) && (connected || (0 <? d_ConnectPID d)%Z)
  then startProc cfg
  else (None, Some (no_window d)).

(** May a launch follow what adopting gave? *)
Definition may_launch (adopt fallback ctx_done : bool) (got : ext) : bool :=
  bool_decide (got.1 = None) &&
  (negb adopt
   || match got.2 with
      | Some e => fallback && negb ctx_done && negb (se_GrantHeld e) && negb (se_IdentityMismatch e)
      | None => false
      end).

Definition start_calls (d : AgentDef) (wantResume adopt fallback ctx_done : bool) (r : Registry)
    : called :=
  let cfg := registryConfig d wantResume in
  match ask_broker (rg_direct r) cfg with
  | Some got => MkCalled got true true
  | None =>
    let cfg := match attach with
               | Some f => MkConfig (c_Def cfg) (c_RequireResume cfg) (c_AdoptOnly cfg) (f (c_MCPServers cfg))
               | None => cfg
               end in
    let got := if adopt then adopt_call d cfg else (None, None) in
    if may_launch adopt fallback ctx_done got then MkCalled (startProc cfg) false true
    else MkCalled got false (negb adopt)
  end.
End Calls.

(** What a published process leaves of its definition. *)
Definition merge_proc (switched evidence : bool) (p : proc) (d : AgentDef) : AgentDef :=
  let d := if switched then d <| d_Provider := pr_Provider p |> <| d_Model := pr_Model p |> else d in
  let d := if decide (pr_SessionID p = "") then d else d <| d_SessionID := pr_SessionID p |> in
  let d := d <| d_ConnectURL := pr_ConnectURL p |> <| d_ConnectPID := pr_PID p |> in
  if isClaudeProvider (d_Provider d) && negb (bool_decide (d_SessionID d = ""))
     && negb (bool_decide (d_WorkDir d = "")) && evidence
  then d <| d_Materialized := true |> else d.

Definition add_handle (name : string) (p : proc) (r : Registry) : Registry :=
  let h := fresh (dom (rg_handles r)) in
  r <| rg_handles ::= <[h := p]> |> <| rg_procs ::= <[name := h]> |>.

(** The last stretch of [startHeld]: publish what the calls gave. [None] is the
    panic of a definition that is gone. *)
Definition start_publish (save_ok evidence : bool) (name : string) (d : AgentDef)
    (wantResume requestedAdopt : bool) (c : called) (r : Registry)
    : option (Registry * (proc + registry_error)) :=
  if (0 <? lc_stops (op_of r name))%Z then Some (r, inr ErrCanceled)
  else
    match cl_got c with
    | (_, Some e) =>
      Some (if se_CursorResumeDenied e then r <| rg_resumeDenied ::= <[name := e]> |> else r,
            inr (ErrStart e))
    | (None, None) => Some (r, inr (ErrNoProcess name))
    | (Some p, None) =>
      match rg_agents r !! name with
      | None => None
      | Some current =>
        if negb (bool_decide (pr_SessionID p = "")) && negb (bool_decide (pr_SessionID p = d_SessionID d))
           && (wantResume || d_Materialized current)
        then Some (r, inr (ErrRemint name (d_SessionID d) (pr_SessionID p)))
        else
          let switched := cl_brokerAnswered c && requestedAdopt
            && negb (bool_decide (PlanProvider (pr_Provider p) = PlanProvider (d_Provider d))) in
          let current' := merge_proc switched evidence p current in
          let r := r <| rg_resumeDenied ::= delete name |> <| rg_agents ::= <[name := current']> |> in
          let r := if switched || negb (bool_decide (current' = current))
                   then (rg_save save_ok r).1 else r in
          Some (add_handle name p r, inl p)
      end
    end.

(** ** Stopping *)

Inductive stopKind := stopOnly | removeKeep | removeDiscard.
#[export] Instance stopKind_eq_dec : EqDecision stopKind.
Proof. solve_decision. Defined.

(** Between the stretches of [stopHeld]: the process is told to stop. *)
Definition stop_reaps (name : string) (r : Registry) : Registry :=
  match rg_procs r !! name with
  | Some h => r <| rg_handles ::= alter (fun p => MkProc false (pr_Provider p) (pr_Model p)
                    (pr_SessionID p) (pr_ConnectURL p) (pr_PID p)) h |>
  | None => r
  end.

(** The last stretch of [stopHeld]. *)
Definition stop_ends (save_ok : bool) (name : string) (kind : stopKind) (r : Registry)
    : Registry * option registry_error :=
  let r := r <| rg_procs ::= delete name |> in
  if decide (kind = stopOnly) then
    match rg_agents r !! name with
    | Some d =>
      if negb (bool_decide (d_ConnectURL d = "")) || negb (d_ConnectPID d =? 0)%Z then
        let d := d <| d_ConnectURL := "" |> <| d_ConnectPID := 0%Z |> in
        let s := rg_save save_ok (r <| rg_agents ::= <[name := d]> |>) in
        (s.1, if s.2 then None else Some ErrPersist)
      else (r, None)
    | None => (r, None)
    end
  else
    let r := r <| rg_agents ::= delete name |> <| rg_resumeDenied ::= delete name |>
               <| rg_freshSession ::= delete name |> in
    let s := rg_save save_ok r in
    (s.1, if s.2 then None else Some ErrPersist).

(** ** Switching *)

(** [recordSwitch]: the process [h] switched to [p]'s provider and model. *)
Definition recordSwitch (save_ok : bool) (name : string) (h : nat) (p : proc) (r : Registry)
    : Registry * option registry_error :=
  match rg_agents r !! name with
  | Some d =>
    if decide (rg_procs r !! name = Some h) then
      let next := d <| d_Provider := pr_Provider p |> <| d_Model := pr_Model p |> in
      let s := rg_save save_ok (r <| rg_agents ::= <[name := next]> |>) in
      if s.2 then (s.1, None) else (r, Some ErrPersist)
    else (r, Some (ErrNotThisProcess name))
  | None => (r, Some (ErrNotThisProcess name))
  end.

(** [SwitchModel] of a seat that is not running, up to its last stretch: where
    the seat moves, [None] when it is there already. [elsewhere] says that the
    daemon runs the seat. *)
Definition switch_checks (name provider model : string) (elsewhere : bool) (d : AgentDef)
    : option (string * string) + registry_error :=
  let to := if decide (TrimSpace provider = "") then d_Provider d else SubscriptionSeatProvider provider in
  if bool_decide (PlanProvider (d_Provider d) = PlanProvider to) && bool_decide (d_Model d = model)
  then inl None
  else if negb (bool_decide (PlanProvider (d_Provider d) = PlanProvider to))
          && (negb (useOMP (d_Provider d)) || negb (useOMP to))
  then inr (ErrSwitchCannotMove name (d_Provider d) to)
  else if elsewhere then inr (ErrSwitchNotAttached name)
  else inl (Some (to, model)).

(** The last stretch of [SwitchModel]. *)
Definition switch_commits (save_ok : bool) (name to model : string) (r : Registry)
    : Registry * option registry_error :=
  match rg_agents r !! name with
  | None => (r, Some (ErrNotRegistered name))
  | Some cur =>
    match live r name with
    | Some _ => (r, Some (ErrSwitchStarted name))
    | None =>
      let s := rg_save save_ok (r <| rg_agents ::= <[name := cur <| d_Provider := to |> <| d_Model := model |>]> |>) in
      if s.2 then (s.1, None) else (r, Some ErrPersist)
    end
  end.

(** ** Parents *)

(** [IsAncestor]: up the parent links until one repeats. *)
Fixpoint climb (fuel : nat) (agents : gmap string AgentDef) (ancestor cur : string)
    (seen : gset string) : bool :=
  match fuel with
  | O => false
  | S fuel =>
    if bool_decide (cur = "") || bool_decide (cur ∈ seen) then false
    else
      match agents !! cur with
      | None => false
      | Some d =>
        if decide (d_Parent d = "") then false
        else if decide (d_Parent d = ancestor) then true
        else climb fuel agents ancestor (d_Parent d) ({[cur]} ∪ seen)
      end
  end.

Definition IsAncestor (agents : gmap string AgentDef) (ancestor name : string) : bool :=
  if decide (ancestor = "" \/ name = "" \/ ancestor = name) then false
  else climb (S (S (size agents))) agents ancestor name ∅.

(** The children of a seat, in the order [order] that the range over the map
    took. *)
Definition children (order : list (string * AgentDef)) (parent : string) : list string :=
  fst <$> List.filter (fun nd => bool_decide (d_Parent nd.2 = parent)) order.

Fixpoint all_some {A} (l : list (option A)) : option (list A) :=
  match l with
  | [] => Some []
  | x :: l => a ← x; l ← all_some l; Some (a :: l)
  end.

(** [Descendants]'s [walk]; [None] when the fuel, which the code does not
    have, is spent. *)
Fixpoint walk (fuel : nat) (order : list (string * AgentDef)) (parent : string) : option (list string) :=
  match fuel with
  | O => None
  | S fuel =>
    @concat string <$> all_some ((fun name => cons name <$> walk fuel order name) <$> children order parent)
  end.
