(* ===== verification/RegistryWorld.v ===== *)
(** * RegistryWorld: concurrent operations on a registry

    The operations of [Registry] as the steps of concurrent calls, each on a
    reservation of its seat's name, and the invariant their interleavings keep.
    The code keeps a reservation's record until its last user leaves, so a
    record is found by its name. *)

From S2P Require Import Prelude GoLib Resolve RegistryTypes Registry.

(** ** Calls in flight *)

Inductive phase :=
| Waiting                                       (* for the gate *)
| Gated                                         (* has the gate, not checked yet *)
| Holding                                       (* may go on *)
| Calling (d : AgentDef) (wantResume : bool)    (* a start, outside the mutex *)
| Reaping                                       (* a stop, outside the mutex *)
| Closing                                       (* about to give the gate back *)
| Leaving.                                      (* about to release its reference *)

Record thread := MkThread {
  th_name : string; th_stop : option stopKind; th_adopt : bool; th_fallback : bool;
  th_epoch : N; th_phase : phase }.

Definition at_phase (t : thread) (p : phase) : thread :=
  MkThread (th_name t) (th_stop t) (th_adopt t) (th_fallback t) (th_epoch t) p.

Definition stopping (t : thread) : bool := bool_decide (is_Some (th_stop t)).

(** A call that waits may give up when its context ends; a stop has none. *)
Inductive thread_step : Registry * thread -> Registry * option thread -> Prop :=
| takes r r' t :
    th_phase t = Waiting -> take_gate (th_name t) r = Some r' ->
    thread_step (r, t) (r', Some (at_phase t Gated))
| gives_up r t :
    th_phase t = Waiting -> th_stop t = None -> thread_step (r, t) (r, Some (at_phase t Leaving))
| checks r t :
    th_phase t = Gated ->
    thread_step (r, t)
      (r, Some (at_phase t (if gate_check (th_name t) (stopping t) (th_epoch t) r then Holding else Closing)))
| reads r t ctx_done owned :
    th_phase t = Holding -> th_stop t = None ->
    thread_step (r, t)
      (r, Some (at_phase t (match start_begins (th_name t) ctx_done owned r with
                            | ReadGo d wantResume => Calling d wantResume
                            | _ => Closing
                            end)))
| publishes r r' t d wantResume broker attach adopt start ctx_done direct save_ok evidence res :
    th_phase t = Calling d wantResume -> th_stop t = None ->
    start_publish save_ok evidence (th_name t) d wantResume (th_adopt t)
      (start_calls broker attach adopt start d wantResume (th_adopt t) (th_fallback t) ctx_done
         (r <| rg_direct := direct |>)) r = Some (r', res) ->
    thread_step (r, t) (r', Some (at_phase t Closing))
| reaps r t kind :
    th_phase t = Holding -> th_stop t = Some kind ->
    thread_step (r, t) (stop_reaps (th_name t) r, Some (at_phase t Reaping))
| stops r t kind save_ok :
    th_phase t = Reaping -> th_stop t = Some kind ->
    thread_step (r, t) ((stop_ends save_ok (th_name t) kind r).1, Some (at_phase t Closing))
| frees r t :
    th_phase t = Closing -> thread_step (r, t) (free_gate (th_name t) r, Some (at_phase t Leaving))
| releases r t :
    th_phase t = Leaving -> thread_step (r, t) (release (th_name t) (stopping t) r, None).

(** The operations that are one stretch under the mutex, and what happens
    outside: a process changes, the registry is made direct. *)
Inductive table_step : Registry -> Registry -> Prop :=
| registers save_ok d r : table_step r (registerLocked save_ok d r).1
| ensures save_ok uuid name workDir model parent autoStart r :
    table_step r (EnsureAgentWithParent save_ok uuid name workDir model parent autoStart r).1
| sets_policy save_ok name prefer allowed excluded may never r :
    table_step r (SetSeatPlanPolicy save_ok name prefer allowed excluded may never r).1
| marks save_ok name r : table_step r (MarkMaterialized save_ok name r).1
| records save_ok name h p r : table_step r (recordSwitch save_ok name h p r).1
| commits save_ok name to model r : table_step r (switch_commits save_ok name to model r).1
| process_changes h p p' r :
    rg_handles r !! h = Some p -> table_step r (r <| rg_handles ::= <[h := p']> |>)
| made_direct b r : table_step r (r <| rg_direct := b |>).

Record world := MkWorld { w_reg : Registry; w_threads : list thread }.

Inductive step : world -> world -> Prop :=
| step_table r r' ts : table_step r r' -> step (MkWorld r ts) (MkWorld r' ts)
| step_begin name kind adopt fallback r r' e ts :
    begin_lifecycle name (bool_decide (is_Some kind)) r = Some (r', e) ->
    step (MkWorld r ts) (MkWorld r' (MkThread name kind adopt fallback e Waiting :: ts))
| step_thread r r' t t' l1 l2 :
    thread_step (r, t) (r', t') ->
    step (MkWorld r (l1 ++ t :: l2)) (MkWorld r' (l1 ++ option_list t' ++ l2)).

Inductive reachable : world -> Prop :=
| reach_new file r : NewRegistry file = Some r -> reachable (MkWorld r [])
| reach_step w w' : reachable w -> step w w' -> reachable w'.

(** ** Counting the calls on a name *)

Fixpoint cnt (f : thread -> bool) (ts : list thread) : Z :=
  match ts with [] => 0 | t :: ts => Z.b2z (f t) + cnt f ts end.

Lemma cnt_app f l1 l2 : cnt f (l1 ++ l2) = (cnt f l1 + cnt f l2)%Z.
Proof. induction l1 as [|t l1 IH]; cbn; [done|]. rewrite IH. lia. Qed.

Lemma cnt_nonneg f l : (0 <= cnt f l)%Z.
Proof. induction l as [|t l IH]; cbn; [lia|]. destruct (f t); cbn; lia. Qed.

Lemma cnt_pos f l t : t ∈ l -> f t = true -> (0 < cnt f l)%Z.
Proof.
  intros Ht Hf. induction l as [|x l IH]; [set_solver|]. cbn. pose proof (cnt_nonneg f l).
  apply elem_of_cons in Ht as [->|Ht]; [rewrite Hf; cbn; lia|].
  specialize (IH Ht). destruct (f x); cbn; lia.
Qed.

Definition on (n : string) (t : thread) : bool := bool_decide (th_name t = n).
Definition stops_on (n : string) (t : thread) : bool := on n t && stopping t.

Definition has_gate (p : phase) : bool :=
  match p with Waiting | Leaving => false | _ => true end.
Definition gates_on (n : string) (t : thread) : bool := on n t && has_gate (th_phase t).

(** What the reservations say is what the calls in flight are. *)
Definition accounted (r : Registry) (ts : list thread) : Prop :=
  forall n, lc_refs (op_of r n) = cnt (on n) ts
  /\ lc_stops (op_of r n) = cnt (stops_on n) ts
  /\ Z.b2z (lc_held (op_of r n)) = cnt (gates_on n) ts
  /\ (is_Some (rg_lifecycle r !! n) <-> (0 < cnt (on n) ts)%Z).

Lemma op_of_set_op n m l r : op_of (set_op n l r) m = if decide (n = m) then l else op_of r m.
Proof.
  unfold op_of, set_op. cbn. case_decide as E.
  - subst. by rewrite lookup_insert_eq.
  - by rewrite lookup_insert_ne.
Qed.

Lemma set_op_some n m l r :
  is_Some (rg_lifecycle (set_op n l r) !! m) <-> n = m \/ is_Some (rg_lifecycle r !! m).
Proof.
  unfold set_op. cbn. destruct (decide (n = m)) as [->|E].
  - rewrite lookup_insert_eq. split; [by left|eauto].
  - rewrite lookup_insert_ne by done. split; [by right|intros [?|?]; done].
Qed.

(** Counting a list in which one call changed. *)
Lemma cnt_mid f l1 t l2 : cnt f (l1 ++ t :: l2) = (Z.b2z (f t) + cnt f (l1 ++ l2))%Z.
Proof. rewrite !cnt_app. cbn. lia. Qed.

Lemma cnt_option f l1 t l2 :
  cnt f (l1 ++ option_list t ++ l2)
  = (match t with Some t => Z.b2z (f t) | None => 0 end + cnt f (l1 ++ l2))%Z.
Proof. destruct t; cbn; [apply cnt_mid|done]. Qed.

(** ** What each operation leaves alone *)

Lemma rg_save_same ok r :
  rg_agents (rg_save ok r).1 = rg_agents r /\ rg_procs (rg_save ok r).1 = rg_procs r
  /\ rg_lifecycle (rg_save ok r).1 = rg_lifecycle r /\ rg_handles (rg_save ok r).1 = rg_handles r.
Proof. by destruct ok. Qed.

Lemma same_launch a b :
  sameLaunchDefinition a b = true ->
  d_SessionID a = d_SessionID b /\ d_Materialized a = d_Materialized b.
Proof.
  unfold sameLaunchDefinition. intros E%bool_decide_eq_true. split.
  - exact (f_equal d_SessionID E).
  - exact (f_equal d_Materialized E).
Qed.

(** Every definition is under its own name. *)
Definition named (r : Registry) : Prop := forall n d, rg_agents r !! n = Some d -> d_Name d = n.

(** The conversation of [d] goes on in [d']. *)
Definition goes_on (d d' : AgentDef) : Prop :=
  d_SessionID d' = d_SessionID d /\ (d_Materialized d = true -> d_Materialized d' = true).

Lemma goes_on_refl d : goes_on d d.
Proof. done. Qed.

(** Definitions outlive an operation, with their conversations, unless [r'] is
    what registering one left. *)
Definition definitions_kept (r r' : Registry) : Prop :=
  forall n d, rg_agents r !! n = Some d -> exists d', rg_agents r' !! n = Some d'
    /\ (goes_on d d' \/ rg_lifecycle r !! n = None /\ exists ok, r' = (registerLocked ok d' r).1).

(** Nothing but definitions and processes changed. *)
Record table_same (r r' : Registry) : Prop := {
  same_lifecycle : rg_lifecycle r' = rg_lifecycle r;
  same_procs : rg_procs r' = rg_procs r;
  same_handles : forall h, is_Some (rg_handles r !! h) -> is_Some (rg_handles r' !! h);
  same_named : named r -> named r' }.

Lemma definitions_kept_refl r : definitions_kept r r.
Proof. intros n d Hd. exists d. split; [done|by left]. Qed.

(** An update of the definition of [n] with what goes on. *)
Lemma definitions_update r r' n d d' :
  rg_agents r !! n = Some d -> rg_agents r' = <[n := d']> (rg_agents r) -> goes_on d d' ->
  definitions_kept r r'.
Proof.
  intros Hd Hr G m e He. rewrite Hr. destruct (decide (n = m)) as [->|Ne].
  - exists d'. rewrite lookup_insert_eq. split; [done|left]. by simplify_eq.
  - exists e. rewrite lookup_insert_ne by done. split; [done|by left].
Qed.

Lemma named_update r r' n d' :
  rg_agents r' = <[n := d']> (rg_agents r) -> d_Name d' = n -> named r -> named r'.
Proof.
  intros Hr Hn N m e. rewrite Hr. destruct (decide (n = m)) as [->|Ne].
  - rewrite lookup_insert_eq. congruence.
  - rewrite lookup_insert_ne by done. apply N.
Qed.

Lemma table_same_refl r : table_same r r.
Proof. by split. Qed.

Lemma table_same_save ok r r0 n d :
  rg_lifecycle r = rg_lifecycle r0 -> rg_procs r = rg_procs r0 -> rg_handles r = rg_handles r0 ->
  rg_agents r = <[n := d]> (rg_agents r0) -> (named r0 -> d_Name d = n) ->
  table_same r0 (rg_save ok r).1.
Proof.
  intros E1 E2 E3 E4 N. destruct (rg_save_same ok r) as (S1 & S2 & S3 & S4).
  split; rewrite ?S2, ?S3, ?S4, ?E1, ?E2, ?E3; try done.
  intros N0. eapply named_update; [by rewrite S1, E4|auto|done].
Qed.

(** What registering does, on every branch. *)
Lemma registerLocked_cases ok d r :
  (registerLocked ok d r).1 = r
  \/ rg_agents (registerLocked ok d r).1 = <[d_Name d := d]> (rg_agents r)
     /\ table_same r (registerLocked ok d r).1
     /\ (is_Some (rg_lifecycle r !! d_Name d) ->
         exists o, rg_agents r !! d_Name d = Some o /\ sameLaunchDefinition o d = true).
Proof.
  unfold registerLocked. case_decide; [by left|].
  destruct (_ && _) eqn:G; [by left|]. right. cbv zeta. cbn [fst].
  match goal with |- context [rg_save ok ?x] => set (r2 := x) end.
  assert (rg_agents r2 = <[d_Name d := d]> (rg_agents r) /\ rg_lifecycle r2 = rg_lifecycle r
          /\ rg_procs r2 = rg_procs r /\ rg_handles r2 = rg_handles r) as (E1 & E2 & E3 & E4).
  { subst r2. repeat case_match; done. }
  split_and!.
  - by rewrite (proj1 (rg_save_same _ _)).
  - by eapply table_same_save.
  - intros L. rewrite (bool_decide_true _ L) in G. cbn in G.
    destruct (rg_agents r !! d_Name d) as [o|]; [|done]. exists o. split; [done|].
    by apply negb_false_iff in G.
Qed.

Lemma registerLocked_kept ok d r : definitions_kept r (registerLocked ok d r).1.
Proof.
  destruct (registerLocked_cases ok d r) as [->|(A & _ & L)]; [apply definitions_kept_refl|].
  intros n e He. rewrite A. destruct (decide (d_Name d = n)) as [<-|Ne].
  - exists d. rewrite lookup_insert_eq. split; [done|].
    destruct (rg_lifecycle r !! d_Name d) as [op|]; [|right; split; [done|by exists ok]].
    destruct L as (o & Ho & S); [by eexists|]. left. simplify_eq.
    unfold goes_on.
    destruct (same_launch _ _ S) as [-> ->]. done.
  - exists e. rewrite lookup_insert_ne by done. split; [done|by left].
Qed.

Lemma registerLocked_same ok d r : table_same r (registerLocked ok d r).1.
Proof. destruct (registerLocked_cases ok d r) as [->|(_ & S & _)]; [apply table_same_refl|done]. Qed.

Ltac by_save :=
  repeat case_match; try apply table_same_refl; cbn [fst];
  (eapply table_same_save; [done..|reflexivity|let N := fresh in intros N; cbn; by apply N]).

(** Every table operation. *)
Lemma table_step_same r r' : table_step r r' -> table_same r r'.
Proof.
  destruct 1; try apply registerLocked_same.
  - unfold EnsureAgentWithParent. destruct (rg_agents r !! name); [apply table_same_refl|].
    match goal with |- context [registerLocked ?o ?d ?x] =>
      pose proof (registerLocked_same o d x) as S; destruct (registerLocked o d x) as [r' [e|]] end;
      exact S.
  - unfold SetSeatPlanPolicy. by_save.
  - unfold MarkMaterialized. by_save.
  - unfold recordSwitch. by_save.
  - unfold switch_commits. by_save.
  - split; try done. intros h' Hh. cbn. destruct (decide (h = h')) as [->|]; [|by rewrite lookup_insert_ne].
    rewrite lookup_insert_eq. by eexists.
  - by split.
Qed.

Lemma definitions_save ok r r0 n d d' :
  rg_agents r0 !! n = Some d -> rg_agents r = <[n := d']> (rg_agents r0) -> goes_on d d' ->
  definitions_kept r0 (rg_save ok r).1.
Proof.
  intros Hd E G. eapply definitions_update; [done|by rewrite (proj1 (rg_save_same _ _)), E|done].
Qed.

Ltac by_kept :=
  repeat case_match; try apply definitions_kept_refl; cbn [fst]; by eapply definitions_save.

Lemma table_step_kept r r' : table_step r r' -> definitions_kept r r'.
Proof.
  destruct 1; try apply registerLocked_kept.
  - unfold EnsureAgentWithParent. destruct (rg_agents r !! name); [apply definitions_kept_refl|].
    match goal with |- context [registerLocked ?o ?d ?x] =>
      pose proof (registerLocked_kept o d x) as S; destruct (registerLocked o d x) as [r' [e|]] end;
      exact S.
  - unfold SetSeatPlanPolicy. by_kept.
  - unfold MarkMaterialized. by_kept.
  - unfold recordSwitch. by_kept.
  - unfold switch_commits. by_kept.
  - intros n d Hd. exists d. split; [done|by left].
  - intros n d Hd. exists d. split; [done|by left].
Qed.

(** ** The books balance *)

(** What a call counts for on [n]. *)
Lemma on_at n t p : on n (at_phase t p) = on n t /\ stops_on n (at_phase t p) = stops_on n t.
Proof. done. Qed.

Lemma gates_at n t p : gates_on n (at_phase t p) = on n t && has_gate p.
Proof. done. Qed.

Lemma accounted_same r r' l1 l2 t p :
  rg_lifecycle r' = rg_lifecycle r -> has_gate p = has_gate (th_phase t) ->
  accounted r (l1 ++ t :: l2) -> accounted r' (l1 ++ at_phase t p :: l2).
Proof.
  intros E G A n. specialize (A n). unfold op_of in *. rewrite E. revert A.
  rewrite !cnt_mid, gates_at, G. done.
Qed.

Lemma accounted_begin name kind adopt fallback r r' e ts :
  begin_lifecycle name (bool_decide (is_Some kind)) r = Some (r', e) ->
  accounted r ts -> accounted r' (MkThread name kind adopt fallback e Waiting :: ts).
Proof.
  unfold begin_lifecycle. destruct (_ && _); [done|]. intros [= <- _] A n.
  destruct (A n) as (A1 & A2 & A3 & A4). rewrite set_op_some, op_of_set_op.
  set (t := MkThread name kind adopt fallback e Waiting).
  change (cnt ?f (t :: ts)) with (Z.b2z (f t) + cnt f ts)%Z.
  change (gates_on n t) with (on n t && false).
  change (stops_on n t) with (on n t && bool_decide (is_Some kind)).
  change (on n t) with (bool_decide (name = n)).
  pose proof (cnt_nonneg (on n) ts). rewrite andb_false_r. cbn [Z.b2z].
  destruct (decide (name = n)) as [->|Ne].
  - rewrite (bool_decide_true (n = n)) by done. cbn [andb Z.b2z].
    destruct (bool_decide (is_Some kind)); cbn; split_and!; try lia; split; auto; lia.
  - rewrite (bool_decide_false (name = n)) by done. cbn [andb Z.b2z]. split_and!; try lia.
    rewrite A4. split; [intros [?|?]; [done|lia]|right; lia].
Qed.

Lemma accounted_take r r' l1 l2 t :
  th_phase t = Waiting -> take_gate (th_name t) r = Some r' ->
  accounted r (l1 ++ t :: l2) -> accounted r' (l1 ++ at_phase t Gated :: l2).
Proof.
  unfold take_gate. destruct (lc_held _) eqn:Hd; [done|]. intros P [= <-] A n.
  destruct (A n) as (A1 & A2 & A3 & A4). revert A1 A2 A3 A4. rewrite set_op_some, op_of_set_op, !cnt_mid, gates_at.
  rewrite !(proj1 (on_at _ _ _)), !(proj2 (on_at _ _ _)). unfold gates_on at 1. rewrite P. cbn [has_gate].
  intros A1 A2 A3 A4. pose proof (cnt_nonneg (on n) (l1 ++ l2)).
  destruct (decide (th_name t = n)) as [<-|Ne].
  - rewrite Hd in A3. cbn. unfold on in *. rewrite bool_decide_true in * by done. cbn in *.
    split_and!; try lia. rewrite A4. split; [lia|auto].
  - unfold on in *. rewrite bool_decide_false in * by done. cbn in *. split_and!; try lia.
    rewrite A4. split; [intros [?|?]; done|auto].
Qed.

Lemma accounted_free r l1 l2 t :
  th_phase t = Closing -> accounted r (l1 ++ t :: l2) ->
  accounted (free_gate (th_name t) r) (l1 ++ at_phase t Leaving :: l2).
Proof.
  intros P A n. unfold free_gate.
  destruct (A n) as (A1 & A2 & A3 & A4). revert A1 A2 A3 A4. rewrite set_op_some, op_of_set_op, !cnt_mid, gates_at.
  rewrite !(proj1 (on_at _ _ _)), !(proj2 (on_at _ _ _)). unfold gates_on at 1. rewrite P. cbn [has_gate].
  intros A1 A2 A3 A4. pose proof (cnt_nonneg (on n) (l1 ++ l2)). pose proof (cnt_nonneg (gates_on n) (l1 ++ l2)).
  destruct (decide (th_name t = n)) as [<-|Ne].
  - cbn. unfold on in *. rewrite bool_decide_true in * by done. cbn in *.
    destruct (lc_held (op_of r (th_name t))); cbn in A3; split_and!; try lia. rewrite A4. split; [lia|auto].
  - unfold on in *. rewrite bool_decide_false in * by done. cbn in *. split_and!; try lia.
    rewrite A4. split; [intros [?|?]; done|auto].
Qed.

Lemma accounted_release r l1 l2 t :
  th_phase t = Leaving -> accounted r (l1 ++ t :: l2) ->
  accounted (release (th_name t) (stopping t) r) (l1 ++ l2).
Proof.
  intros P A n.
  destruct (A n) as (A1 & A2 & A3 & A4). revert A1 A2 A3 A4. rewrite !cnt_mid.
  unfold gates_on at 1. rewrite P. cbn [has_gate]. rewrite andb_false_r.
  unfold stops_on at 1. intros A1 A2 A3 A4. unfold release.
  set (op := op_of r (th_name t)) in *. set (op' := if stopping t then _ else _).
  assert (lc_refs op' = lc_refs op - 1 /\ lc_stops op' = lc_stops op - Z.b2z (stopping t)
          /\ lc_held op' = lc_held op)%Z as (R1 & R2 & R3).
  { subst op'. destruct (stopping t); cbn; split_and!; (done || lia). }
  pose proof (cnt_nonneg (on n) (l1 ++ l2)). pose proof (cnt_nonneg (stops_on n) (l1 ++ l2)).
  destruct (decide (th_name t = n)) as [E|Ne].
  - assert (on n t = true) as On by (by apply bool_decide_eq_true). rewrite On in *. cbn in A1, A2, A3.
    subst n. fold op in A1, A2, A3. destruct (lc_refs op' =? 0)%Z eqn:Z0.
    + apply Z.eqb_eq in Z0. unfold op_of. cbn. rewrite lookup_delete_eq. cbn.
      assert (forall f, (forall x, f x = true -> on (th_name t) x = true) -> cnt f (l1 ++ l2) = 0)%Z as None0.
      { intros f Hf. assert (cnt f (l1 ++ l2) <= cnt (on (th_name t)) (l1 ++ l2))%Z as Le.
        { clear -Hf. induction (l1 ++ l2) as [|x l IH]; cbn; [lia|].
          specialize (Hf x). destruct (f x); [rewrite Hf by done|destruct (on _ x)]; cbn; lia. }
        pose proof (cnt_nonneg f (l1 ++ l2)). lia. }
      rewrite !None0; try (intros x [? _]%andb_true_iff; done); try done.
    + apply Z.eqb_neq in Z0. rewrite set_op_some, op_of_set_op, decide_True by done.
      rewrite R1, R2, R3. split_and!; try lia. split; [lia|auto].
  - assert (on n t = false) as On by (by apply bool_decide_eq_false). rewrite On in *. cbn in A1, A2, A3, A4.
    destruct (lc_refs op' =? 0)%Z.
    + unfold op_of in *. cbn. rewrite lookup_delete_ne by done. split_and!; try lia. rewrite A4. done.
    + rewrite set_op_some, op_of_set_op, decide_False by done. split_and!; try lia.
      rewrite A4. split; [intros [?|?]; done|auto].
Qed.

Lemma accounted_table r r' ts : rg_lifecycle r' = rg_lifecycle r -> accounted r ts -> accounted r' ts.
Proof. intros E A n. specialize (A n). unfold op_of in *. by rewrite E. Qed.

(** ** What starting and stopping do *)

(** [start_publish] publishes the process it was given, or changes no more than
    the latch of a refused resume. *)
Lemma publish_cases ok ev name d want requested c r r' res :
  start_publish ok ev name d want requested c r = Some (r', res) ->
  (rg_agents r' = rg_agents r /\ rg_procs r' = rg_procs r /\ rg_lifecycle r' = rg_lifecycle r
   /\ rg_handles r' = rg_handles r /\ exists e, res = inr e)
  \/ exists p current h d', rg_agents r !! name = Some current
     /\ (lc_stops (op_of r name) <= 0)%Z /\ res = inl p /\ (cl_got c).1 = Some p
     /\ rg_agents r' = <[name := d']> (rg_agents r) /\ rg_procs r' = <[name := h]> (rg_procs r)
     /\ rg_handles r' = <[h := p]> (rg_handles r) /\ rg_handles r !! h = None
     /\ rg_lifecycle r' = rg_lifecycle r /\ d_Name d' = d_Name current
     /\ d_SessionID d' = (if decide (pr_SessionID p = "") then d_SessionID current else pr_SessionID p)
     /\ (d_Materialized current = true -> d_Materialized d' = true)
     /\ (want = true \/ d_Materialized current = true -> pr_SessionID p = "" \/ pr_SessionID p = d_SessionID d).
Proof.
  unfold start_publish. destruct (0 <? _)%Z eqn:St; [intros [= <- <-]; left; split_and!; eauto|].
  apply Z.ltb_ge in St. destruct (cl_got c) as [[p|] [e|]] eqn:G.
  1,3: destruct (se_CursorResumeDenied e); intros [= <- <-]; left; split_and!; eauto.
  2: intros [= <- <-]; left; split_and!; eauto.
  destruct (rg_agents r !! name) as [current|] eqn:Cur; [|done].
  destruct (_ && (want || _)) eqn:Rm; [intros [= <- <-]; left; split_and!; eauto|].
  set (switched := _ && _ && _). set (d' := merge_proc switched ev p current).
  intros [= <- <-]. right.
  match goal with |- context [add_handle name p ?x] => set (r2 := x) end.
  assert (rg_agents r2 = <[name := d']> (rg_agents r) /\ rg_procs r2 = rg_procs r
          /\ rg_lifecycle r2 = rg_lifecycle r /\ rg_handles r2 = rg_handles r) as (E1 & E2 & E3 & E4).
  { subst r2. destruct (switched || _); [|done]. by destruct ok. }
  exists p, current, (fresh (dom (rg_handles r2))), d'. unfold add_handle. cbn.
  rewrite E1, E2, E3, E4. split_and!; try done.
  - apply not_elem_of_dom, is_fresh.
  - subst d'. unfold merge_proc. repeat (case_match; try case_decide); done.
  - subst d'. unfold merge_proc. repeat (case_match; try case_decide); done.
  - subst d'. unfold merge_proc. repeat (case_match; try case_decide); done.
  - intros Hw. destruct (decide (pr_SessionID p = "")); [by left|]. right.
    rewrite (bool_decide_false _ n) in Rm. cbn in Rm.
    destruct (decide (pr_SessionID p = d_SessionID d)) as [|Ne]; [done|].
    rewrite (bool_decide_false _ Ne) in Rm. cbn in Rm. destruct Hw as [->|Hw]; [done|].
    rewrite Hw, orb_true_r in Rm. done.
Qed.

Lemma stop_ends_spec ok name kind r :
  let r' := (stop_ends ok name kind r).1 in
  rg_procs r' = delete name (rg_procs r) /\ rg_lifecycle r' = rg_lifecycle r
  /\ rg_handles r' = rg_handles r
  /\ (forall n, n <> name -> rg_agents r' !! n = rg_agents r !! n)
  /\ (kind <> stopOnly -> rg_agents r' !! name = None /\ rg_resumeDenied r' !! name = None
                          /\ rg_freshSession r' !! name = None)
  /\ (kind = stopOnly -> forall d, rg_agents r !! name = Some d ->
      exists d', rg_agents r' !! name = Some d' /\ d_Name d' = d_Name d /\ goes_on d d')
  /\ (rg_agents r !! name = None -> rg_agents r' !! name = None).
Proof.
  cbv zeta. unfold stop_ends. case_decide as K.
  - change (rg_agents (r <| rg_procs ::= delete name |>)) with (rg_agents r).
    destruct (rg_agents r !! name) as [d|] eqn:D; [|cbn; rewrite D; naive_solver].
    case_match; [|cbn; rewrite D; unfold goes_on; naive_solver].
    set (d1 := d <| d_ConnectURL := "" |> <| d_ConnectPID := 0%Z |>). cbn [fst].
    match goal with |- context [rg_save ok ?x] => set (r2 := x) end.
    destruct (rg_save_same ok r2) as (-> & -> & -> & ->). subst r2. cbn.
    rewrite lookup_insert_eq. split_and!; try done.
    + intros n Hn. by rewrite lookup_insert_ne.
    + intros _ e [= <-]. by exists d1.
  - cbn [fst]. match goal with |- context [rg_save ok ?x] => set (r2 := x) end.
    assert (rg_resumeDenied (rg_save ok r2).1 = rg_resumeDenied r2
            /\ rg_freshSession (rg_save ok r2).1 = rg_freshSession r2) as [-> ->] by (by destruct ok).
    destruct (rg_save_same ok r2) as (-> & -> & -> & ->). subst r2. cbn.
    rewrite !lookup_delete_eq. split_and!; try done. intros n Hn. by rewrite lookup_delete_ne.
Qed.

Lemma stop_reaps_spec name r :
  rg_agents (stop_reaps name r) = rg_agents r /\ rg_procs (stop_reaps name r) = rg_procs r
  /\ rg_lifecycle (stop_reaps name r) = rg_lifecycle r
  /\ forall h, is_Some (rg_handles r !! h) -> is_Some (rg_handles (stop_reaps name r) !! h).
Proof.
  unfold stop_reaps. destruct (rg_procs r !! name) as [h|]; [|done]. cbn. split_and!; try done.
  intros h' [p Hp]. destruct (decide (h = h')) as [->|].
  - rewrite lookup_alter_eq, Hp. by eexists.
  - rewrite lookup_alter_ne by done. eauto.
Qed.

(** * The invariant of a registry under concurrent calls *)

(** A start outside the mutex still finds its definition, with the
    conversation it read. *)
Definition calling_ok (r : Registry) (t : thread) : Prop :=
  forall d want, th_phase t = Calling d want ->
  exists cur, rg_agents r !! th_name t = Some cur /\ d_SessionID cur = d_SessionID d
              /\ (d_Materialized d = true -> d_Materialized cur = true).

(** A process belongs to a defined seat. *)
Definition procs_ok (r : Registry) : Prop :=
  forall n h, rg_procs r !! n = Some h -> is_Some (rg_handles r !! h) /\ is_Some (rg_agents r !! n).

Record Inv (w : world) : Prop := {
  inv_accounted : accounted (w_reg w) (w_threads w);
  inv_named : named (w_reg w);
  inv_calling : forall t, t ∈ w_threads w -> calling_ok (w_reg w) t;
  inv_procs : procs_ok (w_reg w) }.

Lemma NewRegistry_ok file r : NewRegistry file = Some r -> Inv (MkWorld r []).
Proof.
  assert (forall (defs : list AgentDef) (m : gmap string AgentDef), (forall n d, m !! n = Some d -> d_Name d = n) ->
    forall n d, foldl (fun m d => <[d_Name d := d]> m) m defs !! n = Some d -> d_Name d = n) as F.
  { induction defs as [|d defs IH]; [done|]. intros m Hm. cbn. apply IH. intros n e.
    destruct (decide (d_Name d = n)) as [<-|]; [rewrite lookup_insert_eq; congruence|].
    rewrite lookup_insert_ne by done. apply Hm. }
  unfold NewRegistry. intros Hr.
  assert (rg_lifecycle r = ∅ /\ rg_procs r = ∅ /\ named r) as (L & P & N).
  { destruct file as [[defs|]|]; [|done|]; injection Hr as <-; split_and!; try done.
    intros n d. cbn. by apply F. }
  split; cbn; [|done|set_solver|intros n h; by rewrite P].
  intros n. unfold op_of. rewrite L, lookup_empty. split_and!; done.
Qed.

(** Two calls cannot both have the gate of one name. *)
Lemma one_gate r l1 t l2 t0 :
  accounted r (l1 ++ t :: l2) -> has_gate (th_phase t) = true -> has_gate (th_phase t0) = true ->
  t0 ∈ l1 ++ l2 -> th_name t0 <> th_name t.
Proof.
  intros A G G0 Hin E. destruct (A (th_name t)) as (_ & _ & A3 & _). rewrite cnt_mid in A3.
  assert (gates_on (th_name t) t = true) as G1.
  { unfold gates_on, on. by rewrite bool_decide_true, G. }
  assert (gates_on (th_name t) t0 = true) as G2.
  { unfold gates_on, on. by rewrite bool_decide_true, G0. }
  pose proof (cnt_pos _ _ _ Hin G2) as Pos. rewrite G1 in A3. cbn in A3.
  destruct (lc_held _); cbn in A3; lia.
Qed.

(** A call in flight keeps its reservation's record. *)
Lemma in_flight r ts t : accounted r ts -> t ∈ ts -> is_Some (rg_lifecycle r !! th_name t).
Proof.
  intros A Ht. apply A. apply (cnt_pos _ _ t); [done|]. by apply bool_decide_eq_true.
Qed.

Lemma begin_lifecycle_same name stop r r' e :
  begin_lifecycle name stop r = Some (r', e) ->
  rg_agents r' = rg_agents r /\ rg_procs r' = rg_procs r /\ rg_handles r' = rg_handles r.
Proof. unfold begin_lifecycle. destruct (_ && _); [done|]. by intros [= <- _]. Qed.

Lemma take_gate_same name r r' :
  take_gate name r = Some r' ->
  rg_agents r' = rg_agents r /\ rg_procs r' = rg_procs r /\ rg_handles r' = rg_handles r.
Proof. unfold take_gate. destruct (lc_held _); [done|]. by intros [= <-]. Qed.

Lemma release_same name stop r :
  rg_agents (release name stop r) = rg_agents r /\ rg_procs (release name stop r) = rg_procs r
  /\ rg_handles (release name stop r) = rg_handles r.
Proof. unfold release. by case_match. Qed.

(** A step of one call leaves the seats of other names alone. *)
Record local_to (n : string) (r r' : Registry) : Prop := {
  local_agents : forall m, m <> n -> rg_agents r' !! m = rg_agents r !! m;
  local_procs : forall m, m <> n -> rg_procs r' !! m = rg_procs r !! m;
  local_handles : forall h, is_Some (rg_handles r !! h) -> is_Some (rg_handles r' !! h);
  local_named : named r -> named r';
  local_ok : procs_ok r -> procs_ok r' }.

Lemma local_same n r r' :
  rg_agents r' = rg_agents r -> rg_procs r' = rg_procs r ->
  (forall h, is_Some (rg_handles r !! h) -> is_Some (rg_handles r' !! h)) -> local_to n r r'.
Proof.
  intros E1 E2 E3. split; try (by intros; rewrite ?E1, ?E2); [done|..].
  - intros N m d. rewrite E1. apply N.
  - intros P m h. rewrite E1, E2. intros Hh. destruct (P m h Hh). eauto.
Qed.

Lemma local_publish ok ev name d want requested c r r' res :
  start_publish ok ev name d want requested c r = Some (r', res) -> local_to name r r'.
Proof.
  intros Hp. destruct (publish_cases _ _ _ _ _ _ _ _ _ _ Hp) as
    [(E1 & E2 & _ & E4 & _)|(p & cur & h & d' & Hc & _ & _ & _ & E1 & E2 & E3 & _ & _ & N & _)].
  - apply local_same; [done..|]. by rewrite E4.
  - split.
    + intros m Hm. rewrite E1. by rewrite lookup_insert_ne.
    + intros m Hm. rewrite E2. by rewrite lookup_insert_ne.
    + intros h' Hh. rewrite E3. destruct (decide (h = h')) as [->|]; [rewrite lookup_insert_eq; eauto|].
      by rewrite lookup_insert_ne.
    + intros Nm. eapply named_update; [done| |done]. rewrite N. by apply Nm.
    + intros P m h'. rewrite E1, E2, E3. destruct (decide (name = m)) as [<-|Ne].
      * rewrite !lookup_insert_eq. intros [= <-]. rewrite lookup_insert_eq. eauto.
      * rewrite !(lookup_insert_ne _ name) by done. intros Hh. destruct (P m h' Hh) as [? ?].
        split; [|done]. destruct (decide (h = h')) as [->|]; [rewrite lookup_insert_eq; eauto|].
        by rewrite lookup_insert_ne.
Qed.

Lemma local_stop ok name kind r : local_to name r (stop_ends ok name kind r).1.
Proof.
  destruct (stop_ends_spec ok name kind r) as (E1 & _ & E3 & E4 & E5 & E6 & E7). split.
  - done.
  - intros m Hm. rewrite E1. by rewrite lookup_delete_ne.
  - by rewrite E3.
  - intros N m d. destruct (decide (m = name)) as [->|Ne]; [|rewrite E4 by done; apply N].
    intros Hd. destruct (decide (kind = stopOnly)) as [K|K]; [|by rewrite (proj1 (E5 K)) in Hd].
    destruct (rg_agents r !! name) as [d0|] eqn:D0; [|by rewrite (E7 eq_refl) in Hd].
    destruct (E6 K d0 eq_refl) as (d' & Hd' & Nd & _). simplify_eq. rewrite Nd. by apply N.
  - intros P m h. rewrite E1, E3. intros [Ne Hh]%lookup_delete_Some. rewrite E4 by done. by apply P.
Qed.

(** What a step of a call changes is its own seat's. *)
Lemma thread_step_local r t r' t' : thread_step (r, t) (r', t') -> local_to (th_name t) r r'.
Proof.
  inversion 1; subst; try (apply local_same; done).
  - match goal with G : take_gate _ _ = Some _ |- _ => destruct (take_gate_same _ _ _ G) as (? & ? & E) end.
    apply local_same; [done..|]. by rewrite E.
  - by eapply local_publish.
  - destruct (stop_reaps_spec (th_name t) r) as (? & ? & _ & ?). by apply local_same.
  - apply local_stop.
  - destruct (release_same (th_name t) (stopping t) r) as (? & ? & E). apply local_same; [done..|]. by rewrite E.
Qed.

(** ** The invariant is kept *)

Lemma accounted_thread r t r' t' l1 l2 :
  thread_step (r, t) (r', t') -> accounted r (l1 ++ t :: l2) ->
  accounted r' (l1 ++ option_list t' ++ l2).
Proof.
  inversion 1; subst; cbn [option_list app]; intros A;
    match goal with P : th_phase _ = _ |- _ => rename P into Ph end;
    try (eapply accounted_same; [reflexivity| |exact A]; by rewrite Ph).
  - by eapply accounted_take.
  - eapply accounted_same; [reflexivity| |exact A]. rewrite Ph. by case_match.
  - eapply accounted_same; [reflexivity| |exact A]. rewrite Ph. by case_match.
  - eapply accounted_same; [|by rewrite Ph|exact A].
    match goal with P : start_publish _ _ _ _ _ _ _ _ = _ |- _ =>
      destruct (publish_cases _ _ _ _ _ _ _ _ _ _ P) as
        [(_ & _ & E & _)|(? & ? & ? & ? & _ & _ & _ & _ & _ & _ & _ & _ & E & _)] end; exact E.
  - eapply accounted_same; [|by rewrite Ph|exact A]. apply stop_reaps_spec.
  - eapply accounted_same; [|by rewrite Ph|exact A]. apply (stop_ends_spec save_ok (th_name t) kind r).
  - by apply accounted_free.
  - by apply accounted_release.
Qed.

Lemma calling_at r t p :
  (forall d want, p <> Calling d want) -> calling_ok r (at_phase t p).
Proof. intros Hp d want E. by destruct (Hp d want). Qed.

(** A call's own step leaves it calling only with a definition it just read. *)
Lemma calling_own r t r' t' t1 :
  thread_step (r, t) (r', t') -> t1 ∈ option_list t' -> calling_ok r' t1.
Proof.
  inversion 1; subst; cbn [option_list]; intros Ht; try (apply list_elem_of_singleton in Ht; subst t1);
    try (by apply calling_at).
  - apply calling_at. intros. by case_match.
  - intros d want. cbn. unfold start_begins.
    destruct (rg_agents r' !! th_name t) as [d0|] eqn:D; [|done].
    destruct ctx_done; [done|]. destruct (live r' (th_name t)); [by destruct owned|].
    destruct (rg_resumeDenied r' !! th_name t); [done|]. intros [= <- _]. by exists d0.
  - set_solver.
Qed.

(** The other calls' are not disturbed. *)
Lemma calling_others r t r' t' l1 l2 t0 :
  thread_step (r, t) (r', t') -> accounted r (l1 ++ t :: l2) -> t0 ∈ l1 ++ l2 ->
  calling_ok r t0 -> calling_ok r' t0.
Proof.
  intros S A Hin C d want Hp. destruct (C d want Hp) as (cur & Hc & R).
  destruct (decide (th_name t0 = th_name t)) as [E|Ne].
  - assert (has_gate (th_phase t) = false) as G.
    { destruct (has_gate (th_phase t)) eqn:G; [|done]. exfalso.
      by apply (one_gate r l1 t l2 t0 A G); [rewrite Hp| |]. }
    exists cur. split; [|done]. rewrite <-Hc.
    inversion S; subst; match goal with P : th_phase t = _ |- _ => rewrite P in G end; try done.
    + match goal with T : take_gate _ _ = Some _ |- _ => by rewrite (proj1 (take_gate_same _ _ _ T)) end.
    + by rewrite (proj1 (release_same _ _ _)).
  - exists cur. split; [|done]. by rewrite (local_agents _ _ _ (thread_step_local _ _ _ _ S)).
Qed.

Lemma Inv_table r r' ts : table_step r r' -> Inv (MkWorld r ts) -> Inv (MkWorld r' ts).
Proof.
  intros S [A N C P]. destruct (table_step_same _ _ S) as [E1 E2 E3 E4].
  pose proof (table_step_kept _ _ S) as K. split; cbn in *.
  - by eapply accounted_table.
  - by apply E4.
  - intros t Ht d want Hp. destruct (C t Ht d want Hp) as (cur & Hc & Hs & Hm).
    destruct (K _ _ Hc) as (d' & Hd' & G). exists d'. split; [done|].
    destruct G as [[G1 G2]|[L _]]; [rewrite G1; auto|].
    destruct (in_flight _ _ _ A Ht) as [op Hop]. congruence.
  - intros n h. rewrite E2. intros Hh. destruct (P n h Hh) as [Ph [d Hd]]. split; [auto|].
    destruct (K _ _ Hd) as (d' & Hd' & _). eauto.
Qed.

Lemma Inv_step w w' : step w w' -> Inv w -> Inv w'.
Proof.
  destruct 1 as [r r' ts S|name kind adopt fallback r r' e ts B|r r' t t' l1 l2 S].
  - by apply Inv_table.
  - intros [A N C P]. destruct (begin_lifecycle_same _ _ _ _ _ B) as (E1 & E2 & E3). split; cbn in *.
    + by eapply accounted_begin.
    + intros n d. rewrite E1. apply N.
    + intros t [->|Ht]%elem_of_cons d want Hp; [done|]. rewrite E1. by apply (C t Ht d want Hp).
    + intros n h. rewrite E1, E2, E3. apply P.
  - intros [A N C P]. pose proof (thread_step_local _ _ _ _ S) as L. split; cbn in *.
    + by eapply accounted_thread.
    + by apply L.
    + intros t0. rewrite !elem_of_app. intros Ht.
      assert (t0 ∈ option_list t' \/ t0 ∈ l1 ++ l2) as [Ht0|Ht0] by (rewrite elem_of_app; tauto).
      * by eapply calling_own.
      * eapply calling_others; [done..|]. apply C. rewrite elem_of_app, elem_of_cons.
        apply elem_of_app in Ht0. tauto.
    + by apply L.
Qed.

Lemma reachable_Inv w : reachable w -> Inv w.
Proof. induction 1; [by eapply NewRegistry_ok|by eapply Inv_step]. Qed.
