(* ===== verification/RegistryTheorems.v ===== *)
(** * RegistryTheorems: what a registry of seats promises

    The properties of [Registry] and of its interleavings in
    [RegistryWorld]. *)

From S2P Require Import Prelude GoLib Resolve RegistryTypes Registry RegistryWorld.

(** C25: the lifecycle operations of one name take turns, whatever calls are in
    flight: no two of them work on a seat at once; a start that comes back from
    its provider always finds its definition; a process always belongs to a
    defined seat; once a stop is wanted, no step gives its seat a process; and
    a removal leaves nothing of the name. *)
Theorem seat_operations_take_turns w :
  reachable w ->
  (forall l1 t1 l2 t2 l3, w_threads w = l1 ++ t1 :: l2 ++ t2 :: l3 ->
     has_gate (th_phase t1) = true -> has_gate (th_phase t2) = true -> th_name t1 <> th_name t2)
  /\ (forall t d want ok evidence c, t ∈ w_threads w -> th_phase t = Calling d want ->
      is_Some (start_publish ok evidence (th_name t) d want (th_adopt t) c (w_reg w)))
  /\ (forall n h, rg_procs (w_reg w) !! n = Some h ->
      exists p d, rg_handles (w_reg w) !! h = Some p /\ rg_agents (w_reg w) !! n = Some d /\ d_Name d = n)
  /\ (forall w' t h, step w w' -> t ∈ w_threads w -> stopping t = true ->
      rg_procs (w_reg w') !! th_name t = Some h -> rg_procs (w_reg w) !! th_name t = Some h)
  /\ (forall name kind ok, kind <> stopOnly ->
      let r := (stop_ends ok name kind (w_reg w)).1 in
      rg_procs r !! name = None /\ rg_agents r !! name = None /\ rg_resumeDenied r !! name = None
      /\ rg_freshSession r !! name = None).
Proof.
  intros [A N C P]%reachable_Inv. split_and!.
  - intros l1 t1 l2 t2 l3 E G1 G2 Eq. rewrite E in A.
    eapply (one_gate _ l1 t1 _ t2 A G1 G2); [|done]. set_solver.
  - intros t d want ok ev c Ht Hp. destruct (C t Ht d want Hp) as (cur & Hc & _).
    unfold start_publish. case_match; [by eexists|]. destruct (cl_got c) as [[p|] [e|]]; try by eexists.
    rewrite Hc. case_match; by eexists.
  - intros n h Hh. destruct (P n h Hh) as [[p Hp] [d Hd]]. exists p, d. split_and!; [done..|by apply N].
  - intros w' t h S Ht St. destruct S as [r r' ts S|name k ad fb r r' e ts B|r r' t0 t' l1 l2 S]; cbn in *.
    + by rewrite (same_procs _ _ (table_step_same _ _ S)).
    + by rewrite (proj1 (proj2 (begin_lifecycle_same _ _ _ _ _ B))).
    + destruct (decide (th_name t = th_name t0)) as [E|Ne];
        [|by rewrite (local_procs _ _ _ (thread_step_local _ _ _ _ S))].
      assert (0 < lc_stops (op_of r (th_name t0)))%Z as Pos.
      { rewrite <-E. destruct (A (th_name t)) as (_ & -> & _). eapply cnt_pos; [exact Ht|].
        unfold stops_on, on. by rewrite St, bool_decide_true. }
      rewrite E. inversion S; subst; try done.
      * match goal with T : take_gate _ _ = _ |- _ => by rewrite (proj1 (proj2 (take_gate_same _ _ _ T))) end.
      * match goal with T : start_publish _ _ _ _ _ _ _ _ = _ |- _ =>
          destruct (publish_cases _ _ _ _ _ _ _ _ _ _ T) as [(_ & -> & _)|(? & ? & ? & ? & _ & Le & _)] end;
          [done|lia].
      * by rewrite (proj1 (proj2 (stop_reaps_spec _ _))).
      * rewrite (proj1 (stop_ends_spec _ _ _ _)). by rewrite lookup_delete_eq.
      * by rewrite (proj1 (proj2 (release_same _ _ _))).
  - intros name kind ok K. destruct (stop_ends_spec ok name kind (w_reg w)) as (E1 & _ & _ & _ & E5 & _).
    cbv zeta. rewrite E1, lookup_delete_eq. by destruct (E5 K) as (-> & -> & ->).
Qed.

(** C26: a seat keeps its conversation: of a definition that has hosted one, no
    start, adoption, stop, switch, or change of policy alters the session, nor
    forgets that it is there; only registering another definition does, which
    is refused while an operation on the seat is in flight. A start that read a
    session of an earlier process publishes under that session or not at all. *)
Theorem seat_keeps_its_conversation w w' n d d' :
  reachable w -> step w w' ->
  rg_agents (w_reg w) !! n = Some d -> d_Materialized d = true -> rg_agents (w_reg w') !! n = Some d' ->
  (d_SessionID d' = d_SessionID d /\ d_Materialized d' = true
   \/ (forall t, t ∈ w_threads w -> th_name t <> n)
      /\ exists ok, w_reg w' = (registerLocked ok d' (w_reg w)).1)
  /\ forall t e ok evidence c r' res, t ∈ w_threads w -> th_phase t = Calling e true ->
     start_publish ok evidence (th_name t) e true (th_adopt t) c (w_reg w) = Some (r', res) ->
     exists cur cur', rg_agents (w_reg w) !! th_name t = Some cur
       /\ rg_agents r' !! th_name t = Some cur' /\ d_SessionID cur' = d_SessionID cur.
Proof.
  intros I%reachable_Inv S Hd Hm Hd'. pose proof I as [A N C P]. split.
  - destruct S as [r r' ts S|name k ad fb r r' e ts B|r r' t0 t' l1 l2 S]; cbn in *.
    + destruct (table_step_kept _ _ S n d Hd) as (d1 & Hd1 & [[G1 G2]|[L [ok R]]]); simplify_eq.
      * left. auto.
      * right. split; [|by exists ok]. intros t Ht <-.
        destruct (in_flight _ _ _ A Ht) as [op Hop]. congruence.
    + left. rewrite (proj1 (begin_lifecycle_same _ _ _ _ _ B)) in Hd'. by simplify_eq.
    + left. destruct (decide (n = th_name t0)) as [->|Ne];
        [|rewrite (local_agents _ _ _ (thread_step_local _ _ _ _ S)) in Hd' by done; by simplify_eq].
      inversion S; subst; try (unfold free_gate in Hd'; cbn in Hd'; by simplify_eq).
      * match goal with T : take_gate _ _ = _ |- _ => rewrite (proj1 (take_gate_same _ _ _ T)) in Hd' end.
        by simplify_eq.
      * match goal with T : start_publish _ _ _ _ _ _ _ _ = _ |- _ =>
          destruct (publish_cases _ _ _ _ _ _ _ _ _ _ T) as
            [(E & _)|(p & cur & h & d1 & Hc & _ & _ & _ & E & _ & _ & _ & _ & _ & Sid & Mat & Keep)] end;
          rewrite E in Hd'; [by simplify_eq|]. rewrite lookup_insert_eq in Hd'. simplify_eq.
        split; [|by apply Mat]. rewrite Sid. case_decide; [done|].
        match goal with Ph : th_phase t0 = Calling _ _ |- _ =>
          destruct (C t0 ltac:(set_solver) _ _ Ph) as (cur' & Hc' & Hs & _) end. simplify_eq.
        destruct Keep as [?|Eq]; [by right|done|]. by rewrite Eq.
      * rewrite (proj1 (stop_reaps_spec _ _)) in Hd'. by simplify_eq.
      * destruct (stop_ends_spec save_ok (th_name t0) kind r) as (_ & _ & _ & _ & E5 & E6 & _).
        destruct (decide (kind = stopOnly)) as [K|K]; [|rewrite (proj1 (E5 K)) in Hd'; done].
        destruct (E6 K d Hd) as (d1 & Hd1 & _ & G1 & G2). simplify_eq. auto.
      * rewrite (proj1 (release_same _ _ _)) in Hd'. by simplify_eq.
  - intros t e ok ev c r' res Ht Hp Pub. destruct (C t Ht e true Hp) as (cur & Hc & Hs & _).
    destruct (publish_cases _ _ _ _ _ _ _ _ _ _ Pub) as
      [(E & _)|(p & cur1 & h & d1 & Hc1 & _ & _ & _ & E & _ & _ & _ & _ & _ & Sid & _ & Keep)].
    + exists cur, cur. by rewrite E.
    + simplify_eq. exists cur, d1. rewrite E, lookup_insert_eq. split_and!; [done..|].
      rewrite Sid. case_decide; [done|]. destruct Keep as [?|Eq]; [by left|done|]. by rewrite Eq.
Qed.

(** ** A registry with one seat whose start is outside the mutex *)

Definition demo_new : Registry := MkRegistry ∅ ∅ ∅ ∅ ∅ false ∅ None.

Definition demo_seat : AgentDef :=
  no_def <| d_Name := "a" |> <| d_SessionID := "s1" |> <| d_Provider := "claude" |>
    <| d_Model := "m1" |> <| d_Materialized := true |>.

Definition demo_registered : Registry := (registerLocked true demo_seat demo_new).1.

Definition demo_begun : Registry := set_op "a" (MkLifecycle 1 0 0 false) demo_registered.
Definition demo_gated : Registry := set_op "a" (MkLifecycle 1 0 0 true) demo_begun.

Definition demo_start (p : phase) : thread := MkThread "a" None false false 0 p.
Definition demo_calling : thread := demo_start (Calling demo_seat true).

Lemma thread_step_one r t r' t' :
  thread_step (r, t) (r', Some t') -> step (MkWorld r [t]) (MkWorld r' [t']).
Proof. apply (step_thread r r' t (Some t') [] []). Qed.

Lemma demo_calling_reachable : reachable (MkWorld demo_gated [demo_calling]).
Proof.
  assert (reachable (MkWorld demo_registered [])) as R0.
  { eapply reach_step; [apply (reach_new None demo_new); reflexivity|].
    apply step_table. apply (registers true demo_seat demo_new). }
  assert (reachable (MkWorld demo_begun [demo_start Waiting])) as R1.
  { eapply reach_step; [exact R0|]. apply step_begin. vm_compute. reflexivity. }
  assert (reachable (MkWorld demo_gated [demo_start Gated])) as R2.
  { eapply reach_step; [exact R1|]. apply thread_step_one.
    apply (takes _ _ (demo_start Waiting)); [done|]. vm_compute. reflexivity. }
  assert (reachable (MkWorld demo_gated [demo_start Holding])) as R3.
  { eapply reach_step; [exact R2|]. apply thread_step_one.
    exact (checks demo_gated (demo_start Gated) eq_refl). }
  eapply reach_step; [exact R3|]. apply thread_step_one.
  exact (reads demo_gated (demo_start Holding) false None eq_refl eq_refl).
Qed.

Lemma seat_operations_take_turns_witness :
  reachable (MkWorld demo_gated [demo_calling])
  /\ is_Some (start_publish true false "a" demo_seat true false (MkCalled (None, None) false true) demo_gated).
Proof.
  split; [exact demo_calling_reachable|].
  apply (seat_operations_take_turns (MkWorld demo_gated [demo_calling]) demo_calling_reachable)
    with (t := demo_calling); [by left|reflexivity].
Defined.

Lemma seat_keeps_its_conversation_witness :
  exists w', step (MkWorld demo_gated [demo_calling]) w'
  /\ (exists d', rg_agents (w_reg w') !! "a" = Some d' /\ d_Model d' = "m2" /\ d_SessionID d' = "s1").
Proof.
  set (r' := (switch_commits true "a" "claude" "m2" demo_gated).1).
  assert (step (MkWorld demo_gated [demo_calling]) (MkWorld r' [demo_calling])) as S
    by (apply step_table, commits).
  eexists. split; [exact S|]. eexists. split; [reflexivity|]. split; [reflexivity|].
  destruct (seat_keeps_its_conversation _ _ "a" demo_seat
              (demo_seat <| d_Model := "m2" |>) demo_calling_reachable S) as [[[E _]|[No _]] _];
    [reflexivity..|exact E|].
  exfalso. apply (No demo_calling); [by left|reflexivity].
Defined.

(** A switch of a seat whose start is outside the mutex succeeds, and the seat
    then runs on the model it was to leave, against its definition: the table
    shows no live process until the start publishes, and [SwitchModel] does not
    look at the reservation. *)
Definition demo_old_model : proc := MkProc true "claude" "m1" "s1" "" 0.

Lemma switch_misses_a_start :
  exists w, reachable w /\ switch_commits true "a" "claude" "m2" demo_gated = (w_reg w, None)
  /\ exists w', step w w' /\ live (w_reg w') "a" = Some demo_old_model
     /\ (d_Model <$> rg_agents (w_reg w') !! "a") = Some "m2".
Proof.
  set (r1 := (switch_commits true "a" "claude" "m2" demo_gated).1).
  exists (MkWorld r1 [demo_calling]). split_and!.
  - eapply reach_step; [exact demo_calling_reachable|]. apply step_table, commits.
  - reflexivity.
  - set (c := start_calls None None (fun _ => (None, None)) (fun _ => (Some demo_old_model, None))
                demo_seat true false false false (r1 <| rg_direct := true |>)).
    destruct (start_publish true false "a" demo_seat true false c r1) as [[r2 res]|] eqn:P;
      [|vm_compute in P; discriminate].
    exists (MkWorld r2 [at_phase demo_calling Closing]). split.
    + apply thread_step_one. by eapply (publishes r1 r2 demo_calling demo_seat true).
    + vm_compute in P. injection P as <- _. split; reflexivity.
Qed.
