(* ===== verification/RegistryTree.v ===== *)
(** * RegistryTree: the parent links of a registry

    [IsAncestor] climbs them and stops where one repeats; [Descendants] goes
    down and has no such guard. *)

From S2P Require Import Prelude GoLib Resolve RegistryTypes Registry.

(** [n] is registered with [p] as its parent. *)
Definition child (agents : gmap string AgentDef) (p n : string) : Prop :=
  exists d, agents !! n = Some d /\ d_Parent d = p.

(** The first and the last step of a path. *)
Lemma tc_first {A} (R : relation A) x z : tc R x z -> exists y, R x y /\ rtc R y z.
Proof.
  induction 1 as [x y H|x y z H T (y' & H1 & H2)]; [by exists y|].
  exists y. split; [done|]. by apply tc_rtc.
Qed.

Lemma tc_last {A} (R : relation A) x z : tc R x z -> exists y, rtc R x y /\ R y z.
Proof.
  induction 1 as [x y H|x y z H T (y' & H1 & H2)]; [by exists x|].
  exists y'. split; [by eapply rtc_l|done].
Qed.

(** ** Going up *)

Lemma climb_sound agents a fuel cur seen : climb fuel agents a cur seen = true -> tc (child agents) a cur.
Proof.
  revert cur seen. induction fuel as [|fuel IH]; intros cur seen; [done|]. cbn [climb].
  destruct (_ || _); [done|]. destruct (agents !! cur) as [d|] eqn:D; [|done].
  case_decide; [done|]. case_decide as P.
  - intros _. apply tc_once. by exists d.
  - intros T%IH. eapply tc_r; [exact T|]. by exists d.
Qed.

(** A set of seats whose parents are in it too, [a] never among them. *)
Lemma closed_unreached agents a (C : gset string) :
  (forall s, s ∈ C -> exists d, agents !! s = Some d /\ d_Parent d <> a /\ d_Parent d ∈ C) ->
  forall s, tc (child agents) a s -> s ∉ C.
Proof.
  intros HC. apply (tc_ind_r (R := child agents) (fun s => s ∉ C)).
  - intros s (d & Hd & P) Hs. destruct (HC _ Hs) as (d' & Hd' & Na & In). by simplify_eq.
  - intros s s' _ (d & Hd & P) IH Hs. destruct (HC _ Hs) as (d' & Hd' & Na & In). by simplify_eq.
Qed.

Lemma climb_complete agents a fuel cur (seen : gset string) :
  agents !! "" = None -> a <> "" ->
  size (dom agents ∖ seen) < fuel ->
  (forall s, s ∈ seen -> exists d, agents !! s = Some d /\ d_Parent d <> a
     /\ (d_Parent d ∈ seen \/ d_Parent d = cur)) ->
  climb fuel agents a cur seen = false -> ~ tc (child agents) a cur.
Proof.
  intros Hroot Ha. revert cur seen. induction fuel as [|fuel IH]; intros cur seen Hf Hs; [lia|].
  cbn [climb]. destruct (bool_decide (cur = "") || bool_decide (cur ∈ seen)) eqn:G.
  - intros _ T. apply orb_true_iff in G as [->%bool_decide_eq_true|Hc%bool_decide_eq_true].
    + apply tc_last in T as (m & _ & d & Hd & _). congruence.
    + eapply (closed_unreached agents a seen); [|exact T|done].
      intros s Hin. destruct (Hs s Hin) as (d & Hd & Na & [?|Eq]); exists d; [done|].
      split_and!; [done..|by rewrite Eq].
  - apply orb_false_iff in G as [_ Nin%bool_decide_eq_false].
    destruct (agents !! cur) as [d|] eqn:D.
    2:{ intros _ T. apply tc_last in T as (m & _ & d & Hd & _). congruence. }
    assert (forall P : Prop, tc (child agents) a cur -> (d_Parent d = a -> P) ->
              (tc (child agents) a (d_Parent d) -> P) -> P) as Up.
    { intros P T H1 H2. apply tc_last in T as (m & M & d' & Hd' & <-). simplify_eq.
      apply rtc_tc in M as [M|M]; auto. }
    case_decide as P.
    { intros _ T. apply (Up False T); [congruence|]. rewrite P.
      intros (m & _ & d' & Hd' & _)%tc_last. congruence. }
    case_decide as Q; [done|]. intros Hc T. apply (Up False T); [done|]. apply (IH _ ({[cur]} ∪ seen)); [| |done].
    + assert (dom agents ∖ ({[cur]} ∪ seen) ⊂ dom agents ∖ seen) as Sub.
      { split; [set_solver|]. intros Hsub. assert (cur ∈ dom agents) by (apply elem_of_dom; eauto).
        set_solver. }
      apply subset_size in Sub. lia.
    + intros s [->%elem_of_singleton|Hin]%elem_of_union; [exists d; auto|].
      destruct (Hs s Hin) as (e & He & Na & [Hse|Hse]); exists e; [set_solver|rewrite Hse; set_solver].
Qed.

Lemma IsAncestor_spec agents a n :
  agents !! "" = None -> a <> "" -> n <> "" -> a <> n ->
  IsAncestor agents a n = true <-> tc (child agents) a n.
Proof.
  intros Hr Ha Hn Hne. unfold IsAncestor. rewrite decide_False by naive_solver. split.
  - apply climb_sound.
  - intros T. destruct (climb _ _ _ _ _) eqn:C; [done|]. exfalso. revert T.
    eapply climb_complete; [done..| | |exact C]; [|set_solver].
    rewrite difference_empty_L, size_dom. lia.
Qed.

(** ** Going down *)

Lemma all_some_spec {A} (l : list (option A)) r :
  all_some l = Some r <-> l = Some <$> r.
Proof.
  revert r. induction l as [|[x|] l IH]; intros r; cbn.
  - split; [by intros [= <-]|]. by destruct r.
  - destruct (all_some l) as [r'|]; cbn.
    + split; [intros [= <-]; cbn; f_equal; by apply IH|].
      destruct r as [|y r]; [done|]. cbn. intros [= <- E]. f_equal. f_equal.
      apply IH in E. congruence.
    + split; [done|]. destruct r as [|y r]; [done|]. cbn. intros [= _ E]. apply IH in E. congruence.
  - split; [done|]. by destruct r.
Qed.

Lemma all_some_none {A} (l : list (option A)) : None ∈ l -> all_some l = None.
Proof.
  intros Hn. destruct (all_some l) as [r|] eqn:E; [|done]. apply all_some_spec in E as ->.
  by apply list_elem_of_fmap in Hn as (? & ? & _).
Qed.

Section Tree.
Variables (agents : gmap string AgentDef) (order : list (string * AgentDef)).
Hypothesis Horder : order ≡ₚ map_to_list agents.

Lemma children_spec p n : n ∈ children order p <-> child agents p n.
Proof.
  unfold children, child. rewrite list_elem_of_fmap. split.
  - intros ([m d] & -> & [Hin Hp]%filter_iff). cbn in *. apply bool_decide_eq_true in Hp.
    rewrite Horder in Hin. apply elem_of_map_to_list in Hin. eauto.
  - intros (d & Hd & Hp). exists (n, d). split; [done|]. apply filter_iff. cbn.
    rewrite bool_decide_true by done. split; [|done]. rewrite Horder. by apply elem_of_map_to_list.
Qed.

Lemma walk_S fuel p :
  walk (S fuel) order p
  = @concat string <$> all_some ((fun n => cons n <$> walk fuel order n) <$> children order p).
Proof. done. Qed.

(** Where a cycle can be reached the recursion does not end. *)
Lemma walk_cycle fuel p n : rtc (child agents) p n -> tc (child agents) n n -> walk fuel order p = None.
Proof.
  revert p. induction fuel as [|fuel IH]; intros p R T; [done|]. rewrite walk_S.
  assert (exists c, child agents p c /\ rtc (child agents) c n) as (c & Hc & Rc).
  { apply rtc_inv in R as [->|(c & ? & ?)]; [by apply tc_first|eauto]. }
  rewrite all_some_none; [done|]. apply list_elem_of_fmap. exists c. split; [|by apply children_spec].
  by rewrite (IH c Rc T).
Qed.

(** What the recursion returns is the subtree. *)
Lemma walk_sound fuel p l : walk fuel order p = Some l -> forall n, n ∈ l <-> tc (child agents) p n.
Proof.
  revert p l. induction fuel as [|fuel IH]; intros p l; [done|]. rewrite walk_S.
  destruct (all_some _) as [ls|] eqn:E; [|done]. intros [= <-] n. apply all_some_spec in E.
  assert (forall k, k ∈ ls <-> exists c, child agents p c /\ cons c <$> walk fuel order c = Some k) as Hk.
  { intros k. transitivity (Some k ∈ Some <$> ls).
    - rewrite list_elem_of_fmap. split; [eauto|intros (? & [= ->] & ?); done].
    - rewrite <-E, list_elem_of_fmap. setoid_rewrite children_spec. naive_solver. }
  rewrite list_elem_of_In, in_concat. setoid_rewrite <-list_elem_of_In. setoid_rewrite Hk. split.
  - intros (k & (c & Hc & W) & Hin). destruct (walk fuel order c) as [l'|] eqn:Wc; [|done].
    injection W as <-. apply elem_of_cons in Hin as [->|Hin]; [by apply tc_once|].
    eapply tc_l; [done|]. by eapply IH.
  - intros T. assert (exists c, child agents p c /\ (n = c \/ tc (child agents) c n)) as (c & Hc & Hn).
    { apply tc_first in T as (c & ? & R). exists c. apply rtc_tc in R as [->|R]; auto. }
    assert (is_Some (walk fuel order c)) as [l' Wc].
    { assert (cons c <$> walk fuel order c ∈ (fun n => cons n <$> walk fuel order n) <$> children order p) as Hin.
      { apply list_elem_of_fmap. exists c. split; [done|by apply children_spec]. }
      rewrite E in Hin. apply list_elem_of_fmap in Hin as (k & Hk' & _).
      destruct (walk fuel order c); [by eexists|done]. }
    exists (c :: l'). split; [exists c; by rewrite Wc|]. apply elem_of_cons.
    destruct Hn as [->|Hn]; [by left|right; by eapply IH].
Qed.

(** A recursion that runs out of fuel has gone that deep. *)
Lemma walk_deep fuel p :
  walk fuel order p = None -> exists l, length l = fuel /\ (forall n, n ∈ l -> n ∈ dom agents)
    /\ forall l1 x l2, l = l1 ++ x :: l2 -> tc (child agents) p x /\ forall y, y ∈ l2 -> tc (child agents) x y.
Proof.
  revert p. induction fuel as [|fuel IH]; intros p.
  - intros _. exists []. split_and!; [done|set_solver|]. by intros [] ? ?.
  - rewrite walk_S. destruct (all_some _) as [ls|] eqn:E; [done|]. intros _.
    assert (exists c, child agents p c /\ walk fuel order c = None) as (c & Hc & Wc).
    { setoid_rewrite <-children_spec. clear -E. induction (children order p) as [|c l IHl]; [done|].
      cbn in E. destruct (walk fuel order c) eqn:W; [|exists c; split; [by left|done]].
      cbn in E. destruct (all_some _) eqn:E2; [done|]. destruct (IHl eq_refl) as (c' & ? & ?).
      exists c'. split; [by right|done]. }
    destruct (IH c Wc) as (l & Hl & Hd & Hp). exists (c :: l). split_and!.
    + cbn. by rewrite Hl.
    + intros n [->|Hn]%elem_of_cons; [|by apply Hd]. destruct Hc as (d & Hd' & _).
      apply elem_of_dom. eauto.
    + assert (forall y, y ∈ l -> tc (child agents) c y) as Hy.
      { intros y (l1 & l2 & ->)%list_elem_of_split. by apply (Hp l1 y l2). }
      intros [|x0 l1] x l2; cbn; intros [= <- ->].
      * split; [by apply tc_once|done].
      * destruct (Hp l1 x l2 eq_refl) as [T1 T2]. split; [|done]. by eapply tc_l.
Qed.

Lemma duplicate (l : list string) :
  ~ NoDup l -> exists l1 x l2, l = l1 ++ x :: l2 /\ x ∈ l2.
Proof.
  induction l as [|y l IH]; [intros []; constructor|]. intros Hn.
  destruct (decide (y ∈ l)) as [Hy|Hy]; [by exists [], y, l|].
  destruct IH as (l1 & x & l2 & -> & Hx).
  - intros Hl. apply Hn. by constructor.
  - by exists (y :: l1), x, l2.
Qed.

Lemma walk_ends p :
  (forall n, rtc (child agents) p n -> ~ tc (child agents) n n) ->
  is_Some (walk (S (size agents)) order p).
Proof.
  intros Hacyc. destruct (walk (S (size agents)) order p) eqn:W; [by eexists|]. exfalso.
  destruct (walk_deep _ _ W) as (l & Hl & Hd & Hp). destruct (decide (NoDup l)) as [Nd|Nd].
  - assert (length l <= size agents).
    { rewrite <-size_dom, <-(size_list_to_set (C := gset string) l Nd). apply subseteq_size.
      intros x Hx%elem_of_list_to_set. by apply Hd. }
    lia.
  - destruct (duplicate l Nd) as (l1 & x & l2 & E & Hx). destruct (Hp _ _ _ E) as [T1 T2].
    apply (Hacyc x); [by apply tc_rtc|by apply T2].
Qed.
End Tree.

(** C27: [Descendants] ends exactly when no cycle of parent links can be reached
    from its root, in any order the map is walked; from a cycle it recurses
    without end. What it returns is the seats below the root, and
    [IsAncestor], which ends on every table, agrees with it. *)
Theorem descendants_end_without_cycles agents order root :
  order ≡ₚ map_to_list agents ->
  (is_Some (walk (S (size agents)) order root)
     <-> ~ exists n, rtc (child agents) root n /\ tc (child agents) n n)
  /\ (forall n fuel, rtc (child agents) root n -> tc (child agents) n n -> walk fuel order root = None)
  /\ forall fuel l, walk fuel order root = Some l ->
     (forall n, n ∈ l <-> tc (child agents) root n)
     /\ forall n, agents !! "" = None -> root <> "" -> n <> "" -> n <> root ->
        (IsAncestor agents root n = true <-> n ∈ l).
Proof.
  intros Ho. split_and!.
  - split.
    + intros [l W] (n & R & T). by rewrite (walk_cycle _ _ Ho _ _ n R T) in W.
    + intros Hn. apply (walk_ends _ _ Ho). intros n R T. apply Hn. by exists n.
  - intros n fuel R T. by eapply walk_cycle.
  - intros fuel l W. pose proof (walk_sound _ _ Ho _ _ _ W) as Hl. split; [done|].
    intros n H0 Hr Hn Hne. rewrite (IsAncestor_spec agents root n); [|done..]. by rewrite Hl.
Qed.

(** Two seats under one, and two that are each other's parents. *)
Definition demo_child (n p : string) : string * AgentDef :=
  (n, no_def <| d_Name := n |> <| d_SessionID := "s" |> <| d_Parent := p |>).

Definition demo_tree : gmap string AgentDef :=
  list_to_map [demo_child "a" ""; demo_child "b" "a"; demo_child "c" "b"; demo_child "x" "y"; demo_child "y" "x"].

Lemma descendants_end_without_cycles_witness :
  (forall n, n ∈ ["b"; "c"] <-> tc (child demo_tree) "a" n)
  /\ walk 100 (map_to_list demo_tree) "x" = None.
Proof.
  split.
  - apply (descendants_end_without_cycles demo_tree (map_to_list demo_tree) "a" (reflexivity _))
      with (fuel := 100). vm_compute. reflexivity.
  - apply (descendants_end_without_cycles demo_tree (map_to_list demo_tree) "x" (reflexivity _))
      with (n := "x").
    + reflexivity.
    + apply (tc_l _ _ "y"); [eexists; split; vm_compute; reflexivity|].
      apply tc_once. eexists. split; vm_compute; reflexivity.
Defined.
