(* ===== verification/Control.v ===== *)
(** * Control: the shared tables and their reconciliation

    Models [controlplane/desired.go], [controlplane/reconcile.go] and the
    ownership rules of [controlplane/replicate.go] and [controlplane/sync.go].
    A table is a map from its unique key, an upsert an insertion. The database
    engine is outside: whether a statement runs is an argument, and so is the
    parsing of JSON. What reconciliation asks of the registry is the class
    [SeatHost]. *)

From S2P Require Import Prelude GoLib GoFloat GoJson Resolve RegistryTypes Registry.

(** ** Tables *)

Definition WriterClaudia : string := "claudia".
Definition WriterJevons : string := "jevons".

Definition UsageTable : string := "claudia_usage_fact".
Definition PlanUsageTable : string := "claudia_plan_usage".
Definition PlanUsageHistoryTable : string := "claudia_plan_usage_history".
Definition ReceiptTable : string := "claudia_request_receipt".
Definition StatusTable : string := "claudia_seat_status".
Definition OutcomeTable : string := "claudia_control_outcome".
Definition DesiredSeatTable : string := "jevons_desired_seat".
Definition GrantTable : string := "jevons_grant".
Definition IntentTable : string := "jevons_control_intent".

Definition ClaudiaTables : list string :=
  [UsageTable; ReceiptTable; StatusTable; OutcomeTable; PlanUsageTable; PlanUsageHistoryTable].
Definition Owns (name : string) : bool := contains ClaudiaTables name.
Definition JevonsOwns (name : string) : bool := contains [DesiredSeatTable; GrantTable; IntentTable] name.

(** [ApproveClaudia]: a peer's claim is some of Claudia's tables. *)
Definition ApproveClaudia (tables : gset string) : bool :=
  negb (bool_decide (tables = ∅)) && List.forallb Owns (elements tables).

Record DesiredSeat := MkDesired {
  ds_Seat : string; ds_Generation : Z; ds_Revision : Z; ds_Provider : string; ds_Model : string;
  ds_WorkDir : string; ds_ConfigJSON : string }.

Record Grant := MkGrant {
  gr_Seat : string; gr_GrantID : string; gr_Revision : Z; gr_Scope : string }.

Record ControlIntent := MkIntent {
  ci_OperationID : string; ci_Seat : string; ci_Generation : Z; ci_Kind : string;
  ci_PayloadJSON : string }.

Record SeatStatus := MkStatus {
  st_Seat : string; st_SessionID : string; st_Generation : Z; st_Revision : Z;
  st_RuntimeID : string; st_State : string; st_StatusJSON : string }.

Record ControlOutcome := MkOutcome {
  co_OperationID : string; co_Seat : string; co_Generation : Z; co_Outcome : string;
  co_Reason : string }.

(** The zero status, of a seat without a row. *)
Definition no_status : SeatStatus := MkStatus "" "" 0 0 "" "" "".

Record ControlDB := MkDB {
  db_desired : gmap string DesiredSeat; db_grants : gmap (string * string) Grant;
  db_status : gmap string SeatStatus; db_intents : gmap string ControlIntent;
  db_outcomes : gmap string ControlOutcome }.

#[export] Instance eta_db : Eta ControlDB := fun d =>
  MkDB (db_desired d) (db_grants d) (db_status d) (db_intents d) (db_outcomes d).
#[export] Hint Extern 1 (@Setter ControlDB _ _) => setter_of eta_db : typeclass_instances.

Inductive control_error :=
| ErrCrossWrite (writer table : string)
| ErrInvalid (what : string)
| ErrNotJSON
| ErrCredential
| ErrExec
| ErrQuery
| ErrCtx
| ErrRegistry
| ErrUnknownProvider (p : string)
| ErrReminted (seat : string).

(** ** Payloads: a member's name occurs once in an object *)

Definition secret_names : list string :=
  ["token"; "access_token"; "refresh_token"; "api_key"; "apikey"; "secret"; "password";
   "credential"; "credentials"; "authorization"].

Fixpoint secretKey `{Unicode} (v : json) : bool :=
  match v with
  | JObject l => List.existsb (fun kv => contains secret_names (ToLower kv.1) || secretKey kv.2) l
  | JArray l => List.existsb secretKey l
  | _ => false
  end.

Definition rejectSecrets `{Unicode, Json} (body : string) : option control_error :=
  match parse_json body with
  | None => if decide (TrimSpace body = "") then None else Some ErrNotJSON
  | Some v => if secretKey v then Some ErrCredential else None
  end.

(** ** Writing *)

(** [ExecOwned]: [exec] says whether the engine runs the statement. *)
Definition ExecOwned {DB} (writer table : string) (exec : bool) (write : DB -> DB) (db : DB)
    : DB * option control_error :=
  let owned := if decide (writer = WriterClaudia) then Owns table
               else if decide (writer = WriterJevons) then JevonsOwns table else false in
  if negb owned then (db, Some (ErrCrossWrite writer table))
  else if exec then (write db, None) else (db, Some ErrExec).

Definition blank (s : string) : bool := bool_decide (TrimSpace s = "").

Section Publish.
Context {UC : Unicode} {JS : Json}.

Definition validate_desired (s : DesiredSeat) : option control_error :=
  if blank (ds_Seat s) || (ds_Generation s <=? 0)%Z || (ds_Revision s <=? 0)%Z || blank (ds_Provider s)
     || blank (ds_WorkDir s)
  then Some (ErrInvalid "desired seat")
  else if decide (ds_ConfigJSON s = "") then Some (ErrInvalid "desired seat config")
  else rejectSecrets (ds_ConfigJSON s).

Definition PublishDesiredSeat (exec : bool) (s : DesiredSeat) (db : ControlDB)
    : ControlDB * option control_error :=
  match validate_desired s with
  | Some e => (db, Some e)
  | None => ExecOwned WriterJevons DesiredSeatTable exec (fun db => db <| db_desired ::= <[ds_Seat s := s]> |>) db
  end.

Definition PublishGrant (exec : bool) (g : Grant) (db : ControlDB) : ControlDB * option control_error :=
  if blank (gr_Seat g) || blank (gr_GrantID g) || (gr_Revision g <=? 0)%Z
  then (db, Some (ErrInvalid "grant"))
  else
    match rejectSecrets (gr_Scope g) with
    | Some e => (db, Some e)
    | None => ExecOwned WriterJevons GrantTable exec
                (fun db => db <| db_grants ::= <[(gr_Seat g, gr_GrantID g) := g]> |>) db
    end.

(** An intent without a payload has an empty object. *)
Definition with_payload (i : ControlIntent) : ControlIntent :=
  if decide (ci_PayloadJSON i = "")
  then MkIntent (ci_OperationID i) (ci_Seat i) (ci_Generation i) (ci_Kind i) "{}" else i.

Definition validate_intent (i : ControlIntent) : option control_error :=
  if blank (ci_OperationID i) || blank (ci_Seat i) || (ci_Generation i <=? 0)%Z || blank (ci_Kind i)
  then Some (ErrInvalid "control intent") else rejectSecrets (ci_PayloadJSON (with_payload i)).

Definition PublishControlIntent (exec : bool) (i : ControlIntent) (db : ControlDB)
    : ControlDB * option control_error :=
  match validate_intent i with
  | Some e => (db, Some e)
  | None => ExecOwned WriterJevons IntentTable exec
              (fun db => db <| db_intents ::= <[ci_OperationID i := with_payload i]> |>) db
  end.

Definition with_body (s : SeatStatus) : SeatStatus :=
  if decide (st_StatusJSON s = "")
  then MkStatus (st_Seat s) (st_SessionID s) (st_Generation s) (st_Revision s) (st_RuntimeID s)
         (st_State s) "{}" else s.

Definition PublishSeatStatus (exec : bool) (s : SeatStatus) (db : ControlDB)
    : ControlDB * option control_error :=
  if blank (st_Seat s) || blank (st_State s) || (st_Generation s <? 0)%Z || (st_Revision s <? 0)%Z
  then (db, Some (ErrInvalid "seat status"))
  else
    match rejectSecrets (st_StatusJSON (with_body s)) with
    | Some e => (db, Some e)
    | None => ExecOwned WriterClaudia StatusTable exec
                (fun db => db <| db_status ::= <[st_Seat s := with_body s]> |>) db
    end.

Definition PublishControlOutcome (exec : bool) (o : ControlOutcome) (db : ControlDB)
    : ControlDB * option control_error :=
  if blank (co_OperationID o) || blank (co_Seat o) || blank (co_Outcome o)
  then (db, Some (ErrInvalid "control outcome"))
  else ExecOwned WriterClaudia OutcomeTable exec
         (fun db => db <| db_outcomes ::= <[co_OperationID o := o]> |>) db.
End Publish.

(** ** What reconciliation asks of the registry *)

Class SeatHost (S : Type) := {
  host_live : S -> string -> option string;               (* a live process's session *)
  host_def : S -> string -> option AgentDef;
  host_stop : string -> S -> S;
  host_remove : string -> S -> S * bool;
  host_ensure : string -> string -> string -> S -> S * option AgentDef;
  host_register : AgentDef -> S -> S * bool;
  host_launch : string -> S -> S * (option string + unit)   (* an agent's session, or an error *)
}.

(** What a host keeps: a name that was removed is free. *)
Class SeatHostLaws (S : Type) `{SeatHost S} := {
  remove_frees : forall name s s', host_remove name s = (s', true) -> host_def s' name = None }.

(** ** Reconciliation *)

Definition statusRunning : string := "running".
Definition statusUngranted : string := "ungranted".
Definition statusReattachRefused : string := "reattach_refused".
Definition statusStopped : string := "stopped".
Definition outcomeAccepted : string := "accepted".
Definition outcomeStale : string := "stale".
Definition outcomeUncertain : string := "uncertain".
Definition outcomeRejected : string := "rejected".

Definition parseProvider (s : string) : string + control_error :=
  if contains [ProviderClaude; ProviderCodex; ProviderGrok; ProviderCursor] s then inl s
  else inr (ErrUnknownProvider s).

(** The rows of a table in the order of their keys. *)
Definition rows_by {A} (key : A -> string) (m : list A) : list A :=
  SliceStable (fun a b => String.ltb (key a) (key b)) m.

Definition DesiredSeats (db : ControlDB) : list DesiredSeat :=
  rows_by ds_Seat ((map_to_list (db_desired db)).*2).
Definition ControlIntents (db : ControlDB) : list ControlIntent :=
  rows_by ci_OperationID ((map_to_list (db_intents db)).*2).

Definition granted (db : ControlDB) (seat : string) : bool :=
  List.existsb (fun g => bool_decide (gr_Seat g = seat)) ((map_to_list (db_grants db)).*2).

Section Reconcile.
Context {UC : Unicode} {JS : Json} {S : Type} {SH : SeatHost S}.
(** Does a statement on the row of [key] run? *)
Variable exec : string -> string -> bool.
(** [json.Marshal] of a provider and a model. *)
Variable statusBody : string -> string -> string.

Definition publish_status (s : SeatStatus) (w : S * ControlDB) : (S * ControlDB) * (SeatStatus + control_error) :=
  let p := PublishSeatStatus (exec StatusTable (st_Seat s)) s w.2 in
  ((w.1, p.1), match p.2 with Some e => inr e | None => inl s end).

(** [alignDef]: the definition of a desired seat, and its session. *)
Definition alignDef (seat : DesiredSeat) (s : S) : S * (string + control_error) :=
  match parseProvider (ds_Provider seat) with
  | inr e => (s, inr e)
  | inl provider =>
    let got := match host_def s (ds_Seat seat) with
               | Some d => (s, Some d)
               | None => host_ensure (ds_Seat seat) (ds_WorkDir seat) (ds_Model seat) s
               end in
    match got.2 with
    | None => (got.1, inr ErrRegistry)
    | Some d =>
      let d := d <| d_Provider := provider |> <| d_Model := ds_Model seat |>
                 <| d_WorkDir := ds_WorkDir seat |> <| d_AutoStart := false |> in
      let r := host_register d got.1 in
      (r.1, if r.2 then inl (d_SessionID d) else inr ErrRegistry)
    end
  end.

(** The generation changed: what ran before goes. *)
Definition clear_generation (seat : DesiredSeat) (prev : SeatStatus) (s : S)
    : S * (SeatStatus + control_error) :=
  if negb (bool_decide (st_Seat prev = "")) && negb (st_Generation prev =? ds_Generation seat)%Z then
    let s := if bool_decide (is_Some (host_live s (ds_Seat seat))) then host_stop (ds_Seat seat) s else s in
    match host_def s (ds_Seat seat) with
    | None => (s, inl no_status)
    | Some _ => let r := host_remove (ds_Seat seat) s in
                (r.1, if r.2 then inl no_status else inr ErrRegistry)
    end
  else (s, inl prev).

(** The runtime of an aligned seat: attached to, or launched. *)
Definition attach_seat (seat : DesiredSeat) (session : string) (s : S)
    : S * ((string * string) + control_error) :=
  match host_live s (ds_Seat seat) with
  | Some runtime => (s, inl (runtime, statusRunning))
  | None =>
    let before := default "" (d_SessionID <$> host_def s (ds_Seat seat)) in
    let l := host_launch (ds_Seat seat) s in
    match host_def l.1 (ds_Seat seat) with
    | None => (l.1, inr (ErrReminted (ds_Seat seat)))
    | Some after =>
      if decide (d_SessionID after = before) then
        (l.1, inl (match l.2 with
                   | inr _ => (before, statusReattachRefused)
                   | inl (Some runtime) => (runtime, statusRunning)
                   | inl None => (session, statusRunning)
                   end))
      else (l.1, inr (ErrReminted (ds_Seat seat)))
    end
  end.

Definition reconcileSeat (seat : DesiredSeat) (granted stoodDown : bool) (prev : SeatStatus)
    (w : S * ControlDB) : (S * ControlDB) * (SeatStatus + control_error) :=
  let status session runtime state :=
    MkStatus (ds_Seat seat) session (ds_Generation seat) (ds_Revision seat) runtime state
      (statusBody (ds_Provider seat) (ds_Model seat)) in
  if negb granted || stoodDown then
    publish_status (status (st_SessionID prev) (st_RuntimeID prev) statusUngranted) w
  else
    match clear_generation seat prev w.1 with
    | (s, inr e) => ((s, w.2), inr e)
    | (s, inl _) =>
      match alignDef seat s with
      | (s, inr e) => ((s, w.2), inr e)
      | (s, inl session) =>
        match attach_seat seat session s with
        | (s, inr e) => ((s, w.2), inr e)
        | (s, inl (runtime, state)) => publish_status (status session runtime state) (s, w.2)
        end
      end
    end.

(** What an operation comes to, by the status of its seat. *)
Definition intent_outcome (i : ControlIntent) (status : SeatStatus) : string * string :=
  if negb (st_Generation status =? ci_Generation i)%Z || bool_decide (st_State status = "")
  then (outcomeStale, "generation")
  else if decide (ci_Kind i = "interrupt") then (outcomeAccepted, "recorded")
  else if decide (ci_Kind i = "stop") then (outcomeAccepted, "stopped")
  else if decide (ci_Kind i = "external") then (outcomeUncertain, "external effect")
  else (outcomeRejected, "unknown kind").

Definition reconcileIntent (i : ControlIntent) (status : SeatStatus) (w : S * ControlDB)
    : (S * ControlDB) * (ControlOutcome + control_error) :=
  let oc := intent_outcome i status in
  let outcome := MkOutcome (ci_OperationID i) (ci_Seat i) (ci_Generation i) oc.1 oc.2 in
  let stopped :=
    if decide (oc = (outcomeAccepted, "stopped")) then
      publish_status (MkStatus (st_Seat status) (st_SessionID status) (st_Generation status)
          (st_Revision status) (st_RuntimeID status) statusStopped (st_StatusJSON status))
        (host_stop (ci_Seat i) w.1, w.2)
    else (w, inl status) in
  match stopped with
  | (w, inr e) => (w, inr e)
  | (w, inl _) =>
    let p := PublishControlOutcome (exec OutcomeTable (ci_OperationID i)) outcome w.2 in
    ((w.1, p.1), match p.2 with Some e => inr e | None => inl outcome end)
  end.

(** The loops of [reconcile]; the statuses and the outcomes are the maps read at
    the start, kept up as it goes. *)
Fixpoint reconcile_seats (ctx_done : string -> bool) (is_granted stoodDown : string -> bool)
    (seats : list DesiredSeat) (statuses : gmap string SeatStatus) (w : S * ControlDB)
    : (S * ControlDB) * (gmap string SeatStatus + control_error) :=
  match seats with
  | [] => (w, inl statuses)
  | seat :: seats =>
    if ctx_done (ds_Seat seat) then (w, inr ErrCtx)
    else
      match reconcileSeat seat (is_granted (ds_Seat seat)) (stoodDown (ds_Seat seat))
              (default no_status (statuses !! ds_Seat seat)) w with
      | (w, inr e) => (w, inr e)
      | (w, inl status) =>
        reconcile_seats ctx_done is_granted stoodDown seats (<[ds_Seat seat := status]> statuses) w
      end
  end.

Fixpoint reconcile_intents (statuses : gmap string SeatStatus) (intents : list ControlIntent)
    (outcomes : gmap string ControlOutcome) (w : S * ControlDB)
    : (S * ControlDB) * option control_error :=
  match intents with
  | [] => (w, None)
  | i :: intents =>
    if bool_decide (is_Some (outcomes !! ci_OperationID i)) then reconcile_intents statuses intents outcomes w
    else
      match reconcileIntent i (default no_status (statuses !! ci_Seat i)) w with
      | (w, inr e) => (w, Some e)
      | (w, inl o) => reconcile_intents statuses intents (<[ci_OperationID i := o]> outcomes) w
      end
  end.

Definition reconcile (query_ok ctx_begun : bool) (ctx_done stoodDown : string -> bool)
    (w : S * ControlDB) : (S * ControlDB) * option control_error :=
  if ctx_begun then (w, Some ErrCtx)
  else if negb query_ok then (w, Some ErrQuery)
  else
    match reconcile_seats ctx_done (granted w.2) stoodDown (DesiredSeats w.2) (db_status w.2) w with
    | (w', inr e) => (w', Some e)
    | (w', inl statuses) => reconcile_intents statuses (ControlIntents w.2) (db_outcomes w.2) w'
    end.
End Reconcile.
