(* ===== verification/RegistryHost.v ===== *)
(** * RegistryHost: the registry as the host of reconciliation

    The whole operations [Launch], [Stop] and [Remove], when no other is in
    flight on the name, and the instance of the interface [SeatHost] they
    give. *)

From S2P Require Import Prelude GoLib GoFloat Resolve RegistryTypes Registry RegistryWorld Control.

(** ** The registry as a host *)

Section Host.
Variable save_ok : Registry -> bool.
Variable uuid : Registry -> string.
Variable evidence : Registry -> bool.
Variable broker : option (Config -> option proc * option start_error).
Variable attach : option (option (list MCPServer) -> option (list MCPServer)).
Variables adoptProc startProc : Config -> option proc * option start_error.

(** A whole lifecycle operation when no other is in flight. *)
Definition in_turn {A} (name : string) (stop : bool) (body : Registry -> Registry * A) (r : Registry)
    : Registry * option A :=
  match begin_lifecycle name stop r with
  | None => (r, None)
  | Some (r, epoch) =>
    match take_gate name r with
    | None => (r, None)
    | Some r =>
      if gate_check name stop epoch r then
        let b := body r in (release name stop (free_gate name b.1), Some b.2)
      else (release name stop (free_gate name r), None)
    end
  end.

(** [startHeld] without interruption. *)
Definition start_held (name : string) (adopt fallback : bool) (r : Registry)
    : Registry * (proc + registry_error) :=
  match start_begins name false None r with
  | ReadErr e => (r, inr e)
  | ReadLive p => (r, inl p)
  | ReadGo d want =>
    default (r, inr (ErrNoProcess name))
      (start_publish (save_ok r) (evidence r) name d want adopt
         (start_calls broker attach adoptProc startProc d want adopt fallback false r) r)
  end.

(** [Launch]. *)
Definition Launch (name : string) (r : Registry) : Registry * (option string + unit) :=
  match in_turn name false (start_held name false false) r with
  | (r, Some (inl p)) => (r, inl (Some (pr_SessionID p)))
  | (r, _) => (r, inr tt)
  end.

(** [stopHeld] without interruption. *)
Definition stop_held (name : string) (kind : stopKind) (r : Registry) : Registry * option registry_error :=
  stop_ends (save_ok r) name kind (stop_reaps name r).

Definition Stop_seat (name : string) (r : Registry) : Registry :=
  (in_turn name true (stop_held name stopOnly) r).1.

(** [Remove]. *)
Definition Remove (name : string) (r : Registry) : Registry * bool :=
  match in_turn name true (stop_held name removeDiscard) r with
  | (r, Some None) => (r, true)
  | (r, _) => (r, false)
  end.

#[export] Instance registry_host : SeatHost Registry := {|
  host_live r name := pr_SessionID <$> live r name;
  host_def r name := rg_agents r !! name;
  host_stop := Stop_seat;
  host_remove := Remove;
  host_ensure name workDir model r :=
    let e := EnsureAgentWithParent (save_ok r) (uuid r) name workDir model "" false r in
    (e.1, match e.2 with inl d => Some d | inr _ => None end);
  host_register d r :=
    let e := registerLocked (save_ok r) d r in (e.1, bool_decide (e.2 = None));
  host_launch := Launch |}.

#[export] Instance registry_host_laws : SeatHostLaws Registry.
Proof.
  split. intros name r r'. cbn. unfold Remove, in_turn.
  destruct (begin_lifecycle name true r) as [[r1 e]|] eqn:B; [|done].
  destruct (take_gate name r1) as [r2|]; [|done]. cbn [gate_check orb].
  destruct (stop_held name removeDiscard r2) as [r3 err] eqn:St. cbn. destruct err; [done|].
  intros [= <-]. rewrite (proj1 (release_same _ _ _)). change (rg_agents r3 !! name = None).
  destruct (stop_ends_spec (save_ok r2) name removeDiscard (stop_reaps name r2)) as (_ & _ & _ & _ & K & _).
  unfold stop_held in St. rewrite St in K. by apply K.
Qed.
End Host.
