(* ===== verification/ControlTheorems.v ===== *)
(** * ControlTheorems: what reconciliation reaches

    The properties of [Control], proved against the interface [SeatHost] of the
    registry. *)

From S2P Require Import Prelude GoLib GoFloat GoJson Resolve RegistryTypes Registry Control RegistryHost.

Section Facts.
Context {UC : Unicode} {JS : Json} {S : Type} {SH : SeatHost S}.
Variable exec : string -> string -> bool.
Variable statusBody : string -> string -> string.

(** A write by its owner, on every branch. *)
Lemma ExecOwned_cases writer table ex (f : ControlDB -> ControlDB) db :
  ExecOwned writer table ex f db = (f db, None)
  \/ exists e, ExecOwned writer table ex f db = (db, Some e).
Proof. unfold ExecOwned. case_match; [right; eauto|]. destruct ex; [by left|right; eauto]. Qed.

Lemma PublishSeatStatus_cases ex s db :
  PublishSeatStatus ex s db = (db <| db_status ::= <[st_Seat s := with_body s]> |>, None)
  \/ exists e, PublishSeatStatus ex s db = (db, Some e).
Proof.
  unfold PublishSeatStatus. case_match; [right; eauto|]. case_match; [right; eauto|]. apply ExecOwned_cases.
Qed.

Lemma PublishControlOutcome_cases ex o db :
  PublishControlOutcome ex o db = (db <| db_outcomes ::= <[co_OperationID o := o]> |>, None)
  \/ exists e, PublishControlOutcome ex o db = (db, Some e).
Proof. unfold PublishControlOutcome. case_match; [right; eauto|]. apply ExecOwned_cases. Qed.

(** Reconciliation writes its own tables only. *)
Definition jevons_same (db db' : ControlDB) : Prop :=
  db_desired db' = db_desired db /\ db_grants db' = db_grants db /\ db_intents db' = db_intents db.

(** What a status says of its seat. *)
Definition projects (seat : DesiredSeat) (held : bool) (st : SeatStatus) : Prop :=
  st_Seat st = ds_Seat seat /\ st_Generation st = ds_Generation seat /\ st_Revision st = ds_Revision seat
  /\ if held then st_State st = statusRunning \/ st_State st = statusReattachRefused
     else st_State st = statusUngranted.

Lemma reconcileSeat_ok seat granted stood prev w w' st :
  reconcileSeat exec statusBody seat granted stood prev w = (w', inl st) ->
  projects seat (granted && negb stood) st
  /\ w'.2 = w.2 <| db_status ::= <[ds_Seat seat := with_body st]> |>.
Proof.
  assert (forall s (x y : S * ControlDB) z, publish_status exec s x = (y, inl z) ->
            z = s /\ y.2 = x.2 <| db_status ::= <[st_Seat s := with_body s]> |>) as Pub.
  { intros s x y z. unfold publish_status.
    destruct (PublishSeatStatus_cases (exec StatusTable (st_Seat s)) s x.2) as [->|[e ->]]; [|done].
    by intros [= <- <-]. }
  unfold reconcileSeat. destruct (negb granted || stood) eqn:G.
  - intros [-> E]%Pub. split; [|exact E]. unfold projects. by destruct granted, stood.
  - destruct (clear_generation seat prev w.1) as [s [p|e]]; [|done].
    destruct (alignDef seat s) as [s1 [session|e]]; [|done].
    destruct (attach_seat seat session s1) as [s2 [[runtime state]|e]] eqn:At; [|done].
    intros [-> E]%Pub. split; [|exact E]. split_and!; [done..|].
    destruct granted, stood; try done. cbn. revert At. unfold attach_seat.
    repeat case_match; intros; simplify_eq; auto.
Qed.

(** Does an operation stop the seat of this status? *)
Definition stops (i : ControlIntent) (status : SeatStatus) : Prop :=
  ci_Kind i = "stop" /\ ci_Generation i = st_Generation status /\ st_State status <> "".

Lemma intent_outcome_stops i status :
  intent_outcome i status = (outcomeAccepted, "stopped") <-> stops i status.
Proof.
  unfold intent_outcome, stops. destruct (Z.eqb_spec (st_Generation status) (ci_Generation i)) as [E|E]; cbn [negb orb].
  2:{ split; [done|]. intros (_ & ? & _). congruence. }
  destruct (bool_decide_reflect (st_State status = "")) as [Es|Es]; [split; [done|tauto]|].
  destruct (decide (ci_Kind i = "interrupt")) as [->|]; [split; [done|by intros (? & _)]|].
  destruct (decide (ci_Kind i = "stop")) as [->|N]; [done|].
  case_decide; split; (done || tauto).
Qed.

Lemma reconcileIntent_ok i status w w' o :
  reconcileIntent exec i status w = (w', inl o) ->
  co_OperationID o = ci_OperationID i /\ (co_Outcome o, co_Reason o) = intent_outcome i status
  /\ db_outcomes w'.2 = <[ci_OperationID i := o]> (db_outcomes w.2) /\ jevons_same w.2 w'.2
  /\ ((~ stops i status /\ db_status w'.2 = db_status w.2)
      \/ (stops i status /\ exists st, db_status w'.2 = <[st_Seat status := st]> (db_status w.2)
         /\ st_State st = statusStopped /\ st_Generation st = st_Generation status
         /\ st_Revision st = st_Revision status)).
Proof.
  unfold reconcileIntent. set (oc := intent_outcome i status).
  set (out := MkOutcome _ _ _ _ _). set (stopped := MkStatus _ _ _ _ _ _ _).
  destruct (decide (oc = (outcomeAccepted, "stopped"))) as [E|E]; (unfold oc in E; rewrite intent_outcome_stops in E).
  - unfold publish_status. cbn [fst snd].
    destruct (PublishSeatStatus_cases (exec StatusTable (st_Seat stopped)) stopped w.2) as [->|[e' ->]]; [|done].
    cbn [fst snd]. match goal with |- context [PublishControlOutcome ?ex out ?db] =>
      destruct (PublishControlOutcome_cases ex out db) as [->|[e' ->]] end; [|done].
    intros [= <- <-]. split_and!; [done|by destruct oc|done|done|]. right. split; [done|]. exists (with_body stopped).
    unfold with_body. by case_decide.
  - match goal with |- context [PublishControlOutcome ?ex out ?db] =>
      destruct (PublishControlOutcome_cases ex out db) as [->|[e' ->]] end; [|done].
    intros [= <- <-]. split_and!; [done|by destruct oc|done|done|by left].
Qed.

Lemma jevons_same_trans a b c : jevons_same a b -> jevons_same b c -> jevons_same a c.
Proof. unfold jevons_same. intros (-> & -> & ->) (-> & -> & ->). done. Qed.

Lemma reconcile_seats_ok ctx_done is_granted stoodDown seats statuses w w' statuses' :
  NoDup (ds_Seat <$> seats) ->
  reconcile_seats exec statusBody ctx_done is_granted stoodDown seats statuses w = (w', inl statuses') ->
  jevons_same w.2 w'.2 /\ db_outcomes w'.2 = db_outcomes w.2
  /\ (forall seat, seat ∈ seats -> exists st, statuses' !! ds_Seat seat = Some st
      /\ projects seat (is_granted (ds_Seat seat) && negb (stoodDown (ds_Seat seat))) st
      /\ db_status w'.2 !! ds_Seat seat = Some (with_body st))
  /\ (forall n, n ∉ ds_Seat <$> seats ->
      statuses' !! n = statuses !! n /\ db_status w'.2 !! n = db_status w.2 !! n).
Proof.
  revert statuses w. induction seats as [|seat seats IH]; intros statuses w; cbn [reconcile_seats].
  - intros _ [= <- <-]. split_and!; [done|done|set_solver|done].
  - cbn [fmap list_fmap]. intros [Hnin Nd]%list.NoDup_cons. destruct (ctx_done _); [done|].
    destruct (reconcileSeat _ _ _ _ _ _ _) as [w1 [st|e]] eqn:R; [|done].
    apply reconcileSeat_ok in R as [Pr E]. intros H.
    destruct (IH _ _ Nd H) as (J & O & D & K). rewrite E in J, O, K. split_and!.
    + exact J.
    + exact O.
    + intros x [->|Hx]%elem_of_cons; [|by apply D]. destruct (K _ Hnin) as [K1 K2].
      exists st. rewrite K1, K2. cbn. rewrite !lookup_insert_eq. done.
    + intros n Hn. cbn in Hn. destruct (K n) as [K1 K2]; [set_solver|]. rewrite K1, K2. cbn.
      assert (ds_Seat seat <> n) by set_solver. by rewrite !lookup_insert_ne.
Qed.

(** Among the operations is one, without an outcome yet, that stops the seat [n]
    in this generation. *)
Definition open_stop (intents : list ControlIntent) (outcomes : gmap string ControlOutcome) (n : string) (gen : Z)
    : Prop :=
  exists i, i ∈ intents /\ outcomes !! ci_OperationID i = None
    /\ ci_Kind i = "stop" /\ ci_Seat i = n /\ ci_Generation i = gen.

Lemma open_stop_cons i intents outcomes o n gen :
  ci_OperationID i ∉ ci_OperationID <$> intents -> outcomes !! ci_OperationID i = None ->
  open_stop (i :: intents) outcomes n gen <->
  (ci_Kind i = "stop" /\ ci_Seat i = n /\ ci_Generation i = gen)
  \/ open_stop intents (<[ci_OperationID i := o]> outcomes) n gen.
Proof.
  intros N O. assert (forall x, x ∈ intents -> ci_OperationID i <> ci_OperationID x) as Ne.
  { intros x X E. apply N. rewrite E. by apply list_elem_of_fmap_2. }
  unfold open_stop. split.
  - intros (x & [->|X]%elem_of_cons & H & P); [by left|right]. exists x. split; [done|].
    split; [|done]. by rewrite lookup_insert_ne by auto.
  - intros [P|(x & X & H & P)]; [exists i; split; [left|done]|]. exists x. split; [by right|].
    split; [|done]. by rewrite lookup_insert_ne in H by auto.
Qed.

Lemma open_stop_done i intents outcomes n gen :
  is_Some (outcomes !! ci_OperationID i) ->
  open_stop (i :: intents) outcomes n gen <-> open_stop intents outcomes n gen.
Proof.
  intros [o O]. unfold open_stop. split; intros (x & X & P); exists x.
  - apply elem_of_cons in X as [->|X]; [|done]. destruct P as [P _]. congruence.
  - split; [by right|done].
Qed.

(** A row is stopped by an open stop of its seat and generation, and by nothing
    else. *)
Definition stopped_or (stop : Prop) (st : SeatStatus) (row row' : option SeatStatus) : Prop :=
  (~ stop /\ row' = row)
  \/ (stop /\ exists st', row' = Some st' /\ st_State st' = statusStopped
       /\ st_Generation st' = st_Generation st /\ st_Revision st' = st_Revision st).

Lemma reconcile_intents_ok statuses intents outcomes w w' :
  NoDup (ci_OperationID <$> intents) ->
  (forall n st, statuses !! n = Some st -> st_Seat st = n) -> outcomes = db_outcomes w.2 ->
  reconcile_intents exec statuses intents outcomes w = (w', None) ->
  jevons_same w.2 w'.2
  /\ (forall op o, outcomes !! op = Some o -> db_outcomes w'.2 !! op = Some o)
  /\ (forall i, i ∈ intents -> outcomes !! ci_OperationID i = None -> exists o,
       db_outcomes w'.2 !! ci_OperationID i = Some o
       /\ (co_Outcome o, co_Reason o) = intent_outcome i (default no_status (statuses !! ci_Seat i)))
  /\ (forall n st, statuses !! n = Some st -> st_State st <> "" ->
       stopped_or (open_stop intents outcomes n (st_Generation st)) st (db_status w.2 !! n) (db_status w'.2 !! n)).
Proof.
  intros Nd Hk. revert outcomes w. induction intents as [|i intents IH]; intros outcomes w Ho; cbn [reconcile_intents].
  - intros [= <-]. subst. split_and!; [done|done|set_solver|]. intros n st _ _. left. split; [|done].
    intros (x & []%elem_of_nil & _).
  - cbn [fmap list_fmap] in Nd. apply list.NoDup_cons in Nd as [Ni Nd]. destruct (bool_decide _) eqn:Done.
    + apply bool_decide_eq_true in Done as X. intros H. destruct (IH Nd _ _ Ho H) as (J & O & I & St).
      split_and!; [done|done| |].
      * intros x [->|Hx]%elem_of_cons E; [|by apply I]. rewrite E in X. by destruct X.
      * intros n st Hn Hs. destruct (St n st Hn Hs) as [[A B]|[A B]]; [left|right];
          rewrite open_stop_done by done; auto.
    + apply bool_decide_eq_false, eq_None_not_Some in Done. set (status := default no_status _).
      destruct (reconcileIntent _ _ _ _) as [w1 [o|e]] eqn:R; [|done].
      destruct (reconcileIntent_ok _ _ _ _ _ R) as (Eo & Er & Db & J1 & S1). intros H.
      destruct (IH Nd (<[ci_OperationID i := o]> outcomes) w1) as (J & O & I & St); [by rewrite Db, Ho|done|].
      split_and!.
      * by eapply jevons_same_trans.
      * intros op o' Hop. apply O. rewrite lookup_insert_ne; [done|]. congruence.
      * intros x [->|Hx]%elem_of_cons E; [exists o; split; [|exact Er]; apply O; by rewrite lookup_insert_eq|].
        apply I; [done|]. rewrite lookup_insert_ne; [done|]. intros Ex. apply Ni. rewrite Ex.
        by apply list_elem_of_fmap_2.
      * intros n st Hn Hs. unfold stopped_or. rewrite (open_stop_cons i intents outcomes o) by done.
        assert (ci_Seat i = n -> status = st) as Est by (intros <-; unfold status; by rewrite Hn).
        destruct (St n st Hn Hs) as [[A B]|[A B]]; [|right; split; [by right|exact B]].
        destruct S1 as [[Ns E1]|[Ys (st1 & E1 & T1 & T2 & T3)]].
        -- left. split; [|by rewrite B, E1]. intros [(K1 & K2 & K3)|]; [|done]. apply Ns.
           unfold stops. rewrite (Est K2). done.
        -- assert (st_Seat status = ci_Seat i) as Se.
           { destruct Ys as (_ & _ & Ys). unfold status in *. destruct (statuses !! ci_Seat i) as [x|] eqn:X; [|done].
             by apply Hk. }
           destruct (decide (ci_Seat i = n)) as [En|En].
           ++ right. rewrite (Est En) in *. split; [left; by destruct Ys as (K1 & K2 & _)|].
              exists st1. rewrite B, E1, Se, En, lookup_insert_eq. done.
           ++ left. split; [by intros [(_ & ? & _)|]|]. by rewrite B, E1, Se, lookup_insert_ne.
Qed.

(** Seats write no outcome, whatever comes of them. *)
Lemma reconcileSeat_outcomes seat granted stood prev w :
  let w' := (reconcileSeat exec statusBody seat granted stood prev w).1 in
  db_outcomes w'.2 = db_outcomes w.2 /\ jevons_same w.2 w'.2.
Proof.
  assert (forall s (x : S * ControlDB), db_outcomes (publish_status exec s x).1.2 = db_outcomes x.2
            /\ jevons_same x.2 (publish_status exec s x).1.2) as Pub.
  { intros s x. unfold publish_status. cbn.
    by destruct (PublishSeatStatus_cases (exec StatusTable (st_Seat s)) s x.2) as [->|[e ->]]. }
  cbv zeta. unfold reconcileSeat. case_match; [apply Pub|].
  destruct (clear_generation seat prev w.1) as [s [p|e]]; [|done].
  destruct (alignDef seat s) as [s1 [session|e]]; [|done].
  destruct (attach_seat seat session s1) as [s2 [[runtime state]|e]]; [|done].
  exact (Pub _ (s2, w.2)).
Qed.

Lemma reconcile_seats_outcomes ctx_done is_granted stoodDown seats statuses w :
  let w' := (reconcile_seats exec statusBody ctx_done is_granted stoodDown seats statuses w).1 in
  db_outcomes w'.2 = db_outcomes w.2 /\ jevons_same w.2 w'.2.
Proof.
  cbv zeta. revert statuses w. induction seats as [|seat seats IH]; intros statuses w; cbn [reconcile_seats]; [done|].
  destruct (ctx_done _); [done|].
  match goal with |- context [reconcileSeat exec statusBody seat ?g ?d ?p w] =>
    pose proof (reconcileSeat_outcomes seat g d p w) as [O J];
    destruct (reconcileSeat exec statusBody seat g d p w) as [w1 [st|e]] end; [|done].
  destruct (IH (<[ds_Seat seat := st]> statuses) w1) as [O' J'].
  split; [by rewrite O'|by eapply jevons_same_trans].
Qed.

Lemma reconcile_intents_done statuses intents outcomes (w : S * ControlDB) :
  (forall i, i ∈ intents -> is_Some (outcomes !! ci_OperationID i)) ->
  reconcile_intents exec statuses intents outcomes w = (w, None).
Proof.
  induction intents as [|i intents IH]; intros H; [done|]. cbn [reconcile_intents].
  rewrite bool_decide_true by (apply H; by left). apply IH. intros x Hx. apply H. by right.
Qed.
End Facts.

(** A row's key is a column of it. *)
Record well_keyed (db : ControlDB) : Prop := {
  wk_desired : forall n d, db_desired db !! n = Some d -> ds_Seat d = n;
  wk_status : forall n st, db_status db !! n = Some st -> st_Seat st = n;
  wk_intents : forall op i, db_intents db !! op = Some i -> ci_OperationID i = op }.

Lemma rows_elem {A} (key : A -> string) (m : gmap string A) x :
  x ∈ rows_by key ((map_to_list m).*2) <-> exists n, m !! n = Some x.
Proof.
  unfold rows_by. rewrite SliceStable_elem, list_elem_of_fmap. split.
  - intros ([n y] & -> & Hin%elem_of_map_to_list). eauto.
  - intros [n Hn]. exists (n, x). split; [done|by apply elem_of_map_to_list].
Qed.

Lemma rows_nodup {A} (key : A -> string) (m : gmap string A) :
  (forall n x, m !! n = Some x -> key x = n) -> NoDup (key <$> rows_by key ((map_to_list m).*2)).
Proof.
  intros Hk. unfold rows_by. rewrite SliceStable_perm, <-list_fmap_compose.
  replace ((key ∘ snd) <$> map_to_list m) with ((map_to_list m).*1); [apply NoDup_fst_map_to_list|].
  apply list_fmap_ext. intros i [n x] Hi. cbn. symmetry. apply Hk.
  apply elem_of_map_to_list. by eapply list_elem_of_lookup_2.
Qed.

(** What the table says of a desired seat afterwards: stopped exactly when an open
    operation stops it. *)
Definition reached (seat : DesiredSeat) (held : bool) (stop : Prop) (row : SeatStatus) : Prop :=
  st_Generation row = ds_Generation seat /\ st_Revision row = ds_Revision seat
  /\ ((stop /\ st_State row = statusStopped)
      \/ (~ stop /\ if held then st_State row = statusRunning \/ st_State row = statusReattachRefused
                    else st_State row = statusUngranted)).

(** An operation of the consumer's that had no outcome stops the seat [n] in the
    generation [gen]. *)
Definition stop_wanted (db : ControlDB) (n : string) (gen : Z) : Prop :=
  exists op i, db_intents db !! op = Some i /\ db_outcomes db !! op = None
    /\ ci_Kind i = "stop" /\ ci_Seat i = n /\ ci_Generation i = gen.

Lemma stop_wanted_open db n gen :
  (forall op i, db_intents db !! op = Some i -> ci_OperationID i = op) ->
  stop_wanted db n gen <-> open_stop (ControlIntents db) (db_outcomes db) n gen.
Proof.
  intros K. unfold stop_wanted, open_stop, ControlIntents. split.
  - intros (op & i & Hi & P). exists i. rewrite (K _ _ Hi). split; [|done]. apply rows_elem. eauto.
  - intros (i & (op & Hi)%rows_elem & P). exists op, i. split; [done|]. by rewrite (K _ _ Hi) in P.
Qed.

(** C28: a reconciliation that ends without an error has reached the desired
    state: every desired seat has a row of its generation and revision, which is
    stopped exactly when an operation that had no outcome stops that seat in that
    generation, and is otherwise running or refused when the seat is granted and
    not stood down, and ungranted when not; every operation has one outcome,
    those that had one keep it, that of such a stop is accepted, and no later
    reconciliation, whatever comes of it, changes an outcome; the consumer's
    tables are as they were; and with no desired seat and no open operation
    nothing happens at all. *)
Theorem reconcile_reaches_the_desired_state `{Unicode, Json, SeatHost T} exec statusBody ctx_done stoodDown
    (w w' : T * ControlDB) :
  well_keyed w.2 ->
  reconcile exec statusBody true false ctx_done stoodDown w = (w', None) ->
  jevons_same w.2 w'.2
  /\ (forall n seat, db_desired w.2 !! n = Some seat -> exists row, db_status w'.2 !! n = Some row
      /\ reached seat (granted w.2 n && negb (stoodDown n)) (stop_wanted w.2 n (ds_Generation seat)) row)
  /\ (forall op i, db_intents w.2 !! op = Some i -> is_Some (db_outcomes w'.2 !! op))
  /\ (forall op o, db_outcomes w.2 !! op = Some o -> db_outcomes w'.2 !! op = Some o)
  /\ (forall op i seat, db_intents w.2 !! op = Some i -> db_outcomes w.2 !! op = None ->
      db_desired w.2 !! ci_Seat i = Some seat -> ci_Generation i = ds_Generation seat -> ci_Kind i = "stop" ->
      exists o, db_outcomes w'.2 !! op = Some o /\ co_Outcome o = outcomeAccepted /\ co_Reason o = "stopped")
  /\ (forall exec' q c ctx stood, let r := reconcile exec' statusBody q c ctx stood w' in
      db_outcomes r.1.2 = db_outcomes w'.2)
  /\ (db_desired w.2 = ∅ ->
      (forall op i, db_intents w.2 !! op = Some i -> is_Some (db_outcomes w.2 !! op)) -> w' = w).
Proof.
  intros [Wd Ws Wi]. unfold reconcile at 1. cbn [negb].
  destruct (reconcile_seats _ _ _ _ _ _ _ _) as [w1 [statuses|e]] eqn:R; [|done]. intros I.
  pose proof R as R0. pose proof I as I0. apply reconcile_seats_ok in R as (J1 & O1 & D1 & K1); [|by apply rows_nodup].
  assert (forall n st, statuses !! n = Some st -> st_Seat st = n) as Hk.
  { intros n st Hn. destruct (decide (n ∈ ds_Seat <$> DesiredSeats w.2)) as [Hin|Hin].
    - apply list_elem_of_fmap in Hin as (seat & -> & Hseat).
      destruct (D1 _ Hseat) as (st' & Hst & (P & _) & _). congruence.
    - destruct (K1 n Hin) as [E _]. rewrite E in Hn. by apply Ws. }
  apply reconcile_intents_ok in I as (J2 & O2 & I2 & S2); [|by apply rows_nodup|done|done].
  assert (forall op i, db_intents w.2 !! op = Some i -> is_Some (db_outcomes w'.2 !! op)) as All.
  { intros op i Hi. destruct (db_outcomes w.2 !! op) as [o|] eqn:E; [exists o; by apply O2|].
    rewrite <-(Wi _ _ Hi) in *. destruct (I2 i) as (o & Ho & _); [apply rows_elem; eauto|done|eauto]. }
  split_and!.
  - by eapply jevons_same_trans.
  - intros n seat Hseat. pose proof (Wd _ _ Hseat) as <-.
    destruct (D1 seat) as (st & Hst & (P1 & P2 & P3 & P4) & Hrow); [apply rows_elem; eauto|].
    pose proof (stop_wanted_open _ (ds_Seat seat) (ds_Generation seat) Wi) as Sw. rewrite <-P2 in Sw at 2.
    assert (st_State st <> "") as Es.
    { intros Es. rewrite Es in P4. by destruct (_ && _); [destruct P4|]. }
    destruct (S2 (ds_Seat seat) st Hst Es) as [[A E]|(A & st' & E2 & E3 & E4 & E5)]; rewrite <-Sw in A.
    + exists (with_body st). rewrite E. split; [done|]. unfold reached, with_body.
      case_decide; split_and!; auto.
    + exists st'. split; [done|]. unfold reached. rewrite E4, E5. auto.
  - done.
  - exact O2.
  - intros op i seat Hi Ho Hseat Hg Hkind. pose proof (Wd _ _ Hseat) as Eseat.
    destruct (D1 seat) as (st & Hst & (P1 & P2 & P3 & P4) & _); [apply rows_elem; eauto|].
    rewrite <-(Wi _ _ Hi) in *. destruct (I2 i) as (o & Ho' & Eo); [apply rows_elem; eauto|done|].
    exists o. split; [done|]. rewrite <-Eseat, Hst in Eo. change (default no_status (Some st)) with st in Eo.
    rewrite (proj2 (intent_outcome_stops i st)) in Eo; [by injection Eo|]. split_and!; [done|congruence|].
    intros Es. rewrite Es in P4. by destruct (_ && _); [destruct P4|].
  - intros exec' q c ctx stood. cbv zeta. unfold reconcile. destruct c, q; try done. cbn [negb].
    match goal with |- context [reconcile_seats exec' statusBody ctx ?g stood ?l ?m w'] =>
      pose proof (reconcile_seats_outcomes exec' statusBody ctx g stood l m w') as [O3 J3];
      destruct (reconcile_seats exec' statusBody ctx g stood l m w') as [w2 [sts|e2]] end; [|exact O3].
    rewrite reconcile_intents_done; [exact O3|]. intros i Hi.
    destruct (jevons_same_trans _ _ _ J1 J2) as (_ & _ & Ei). unfold ControlIntents in Hi. rewrite Ei in Hi.
    apply rows_elem in Hi as [op Hi]. rewrite (Wi _ _ Hi). by eapply All.
  - intros De Ai. unfold DesiredSeats in R0. rewrite De, map_to_list_empty in R0. cbn in R0.
    injection R0 as <- <-. rewrite reconcile_intents_done in I0; [by injection I0|].
    intros i [op Hi]%rows_elem. rewrite (Wi _ _ Hi). by eapply Ai.
Qed.

Lemma publish_status_inl `{Unicode, Json} {T} exec s (w w' : T * ControlDB) st :
  publish_status exec s w = (w', inl st) -> st = s /\ w'.1 = w.1.
Proof. unfold publish_status. destruct (PublishSeatStatus _ _ _) as [db [e|]]; [done|]. by intros [= <- <-]. Qed.

(** The session of a granted seat's status is its definition's, once what an
    older generation left is cleared. *)
Lemma reconcileSeat_session `{Unicode, Json, SeatHost T} exec statusBody seat prev (w w' : T * ControlDB) st :
  reconcileSeat exec statusBody seat true false prev w = (w', inl st) ->
  exists s p, clear_generation seat prev w.1 = (s, inl p)
  /\ (forall d, host_def s (ds_Seat seat) = Some d -> st_SessionID st = d_SessionID d)
  /\ (host_def s (ds_Seat seat) = None -> exists d,
        (host_ensure (ds_Seat seat) (ds_WorkDir seat) (ds_Model seat) s).2 = Some d
        /\ st_SessionID st = d_SessionID d).
Proof.
  unfold reconcileSeat. cbn [negb orb].
  destruct (clear_generation seat prev w.1) as [s [p|e]]; [|done].
  destruct (alignDef seat s) as [s1 [session|e]] eqn:A; [|done].
  destruct (attach_seat seat session s1) as [s2 [[runtime state]|e]]; [|done].
  intros [-> _]%publish_status_inl. exists s, p. split; [done|]. cbn [st_SessionID].
  revert A. unfold alignDef. destruct (parseProvider _) as [provider|e]; [|done].
  destruct (host_def s (ds_Seat seat)) as [d|].
  - cbn [fst snd]. destruct (host_register _ _) as [s' []]; [|done]. intros [= _ <-].
    split; [by intros ? [= <-]|done].
  - destruct (host_ensure _ _ _ s) as [s0 [d|]]; [|done]. cbn [fst snd].
    destruct (host_register _ _) as [s' []]; [|done]. intros [= _ <-]. split; [done|]. intros _. by exists d.
Qed.

(** a change of generation while a seat is not granted is not a fence: the
    ungranted row already carries the new generation, so when the grant comes
    back the seat goes on in the old generation's session, where a granted seat
    would have been removed and given a new one. *)
Theorem ungranted_generation_keeps_the_session `{Unicode, Json, SeatHostLaws T} exec statusBody seat prev d
    (w w1 w2 : T * ControlDB) st1 st2 :
  host_def w.1 (ds_Seat seat) = Some d ->
  reconcileSeat exec statusBody seat false false prev w = (w1, inl st1) ->
  reconcileSeat exec statusBody seat true false st1 w1 = (w2, inl st2) ->
  st_Generation st2 = ds_Generation seat /\ st_SessionID st2 = d_SessionID d
  /\ (st_Seat prev <> "" -> st_Generation prev <> ds_Generation seat -> forall w' st',
      reconcileSeat exec statusBody seat true false prev w = (w', inl st') ->
      exists s0 d0, host_def s0 (ds_Seat seat) = None
        /\ (host_ensure (ds_Seat seat) (ds_WorkDir seat) (ds_Model seat) s0).2 = Some d0
        /\ st_SessionID st' = d_SessionID d0).
Proof.
  intros Hd R1 R2. split_and!.
  - apply reconcileSeat_ok in R2 as [(_ & -> & _) _]. done.
  - revert R1. unfold reconcileSeat at 1. cbn [negb orb]. intros [-> E]%publish_status_inl.
    destruct (reconcileSeat_session _ _ _ _ _ _ _ R2) as (s & p & C & S & _). apply S.
    unfold clear_generation in C. cbn [st_Generation] in C. rewrite Z.eqb_refl, andb_false_r in C.
    injection C as <- _. by rewrite E.
  - intros Hs Hg w' st' R. destruct (reconcileSeat_session _ _ _ _ _ _ _ R) as (s & p & C & _ & S).
    assert (host_def s (ds_Seat seat) = None) as Hn.
    { revert C. unfold clear_generation. rewrite (bool_decide_false _ Hs), (proj2 (Z.eqb_neq _ _) Hg). cbn [negb andb].
      set (s0 := if bool_decide _ then _ else _). destruct (host_def s0 (ds_Seat seat)) eqn:E; [|by intros [= <- _]].
      destruct (host_remove (ds_Seat seat) s0) as [s' []] eqn:Rm; [|done]. intros [= <- _]. by eapply remove_frees. }
    destruct (S Hn) as (d0 & ? & ?). by exists s, d0.
Qed.

(** ** A registry whose seats start on the session they ask for *)

#[local] Instance plain_unicode : Unicode := {| unicode_lower := id; unicode_alnum := fun _ => false |}.
#[local] Instance plain_json : Json := fun _ => Some JNull.

Definition demo_starts (c : Config) : option proc * option start_error :=
  (Some (MkProc true (d_Provider (c_Def c)) (d_Model (c_Def c)) (d_SessionID (c_Def c)) "" 0), None).

#[local] Instance demo_host : SeatHost Registry :=
  registry_host (fun _ => true) (fun r => "u" +:+ itoa (Z.of_nat (size (rg_handles r)))) (fun _ => false)
    None None demo_starts demo_starts.
#[local] Instance demo_host_laws : SeatHostLaws Registry :=
  registry_host_laws (fun _ => true) (fun r => "u" +:+ itoa (Z.of_nat (size (rg_handles r)))) (fun _ => false)
    None None demo_starts demo_starts.

Definition demo_desired (generation : Z) : DesiredSeat :=
  MkDesired "a" generation 1 "claude" "m" "/w" "{}".
Definition demo_other : DesiredSeat := MkDesired "b" 1 1 "claude" "m" "/w" "{}".

(** Two granted seats; an operation stops the second. *)
Definition demo_control : Registry * ControlDB :=
  (MkRegistry ∅ ∅ ∅ ∅ ∅ false ∅ None,
   MkDB {["a" := demo_desired 1; "b" := demo_other]}
     {[("a", "g") := MkGrant "a" "g" 1 "{}"; ("b", "g") := MkGrant "b" "g" 1 "{}"]} ∅
     {["op" := MkIntent "op" "b" 1 "stop" "{}"]} ∅).

Definition demo_exec (table key : string) : bool := true.
Definition demo_body (provider model : string) : string := "{}".

Definition demo_reconcile (w : Registry * ControlDB) : (Registry * ControlDB) * option control_error :=
  reconcile demo_exec demo_body true false (fun _ => false) (fun _ => false) w.

Lemma demo_keyed : well_keyed demo_control.2.
Proof.
  split; cbn; [intros n d|intros n d|intros n d].
  - intros [[<- <-]|[_ [<- <-]%lookup_singleton_Some]]%lookup_insert_Some; done.
  - done.
  - intros [<- <-]%lookup_singleton_Some. done.
Qed.

Lemma reconcile_reaches_the_desired_state_witness :
  exists w', demo_reconcile demo_control = (w', None)
  /\ (exists o, db_outcomes w'.2 !! "op" = Some o /\ co_Outcome o = outcomeAccepted)
  /\ (exists row, db_status w'.2 !! "a" = Some row
      /\ (st_State row = statusRunning \/ st_State row = statusReattachRefused))
  /\ exists row, db_status w'.2 !! "b" = Some row /\ st_State row = statusStopped.
Proof.
  destruct (demo_reconcile demo_control) as [w' [e|]] eqn:R; [vm_compute in R; discriminate|].
  destruct (reconcile_reaches_the_desired_state demo_exec demo_body (fun _ => false) (fun _ => false)
              demo_control w' demo_keyed R) as (_ & D & _ & _ & I & _).
  exists w'. split_and!; [reflexivity| | |].
  - destruct (I "op" (MkIntent "op" "b" 1 "stop" "{}") demo_other) as (o & Ho & Ao & _); [reflexivity..|].
    exists o. exact (conj Ho Ao).
  - destruct (D "a" (demo_desired 1)) as (row & Hr & _ & _ & [[(op & i & Hi & _ & _ & Es & _) _]|[_ St]]);
      [reflexivity| |exists row; split; [exact Hr|exact St]].
    change (({["op" := MkIntent "op" "b" 1 "stop" "{}"]} : gmap string ControlIntent) !! op = Some i) in Hi.
    apply lookup_singleton_Some in Hi as [_ <-]. discriminate Es.
  - destruct (D "b" demo_other) as (row & Hr & _ & _ & [[_ St]|[N _]]); [reflexivity|exists row; exact (conj Hr St)|].
    destruct (N (ex_intro _ "op" (ex_intro _ (MkIntent "op" "b" 1 "stop" "{}")
      (conj eq_refl (conj eq_refl (conj eq_refl (conj eq_refl eq_refl))))))).
Defined.

(** The seat of the first generation runs; then its grant goes, the generation
    changes, and the grant comes back. *)
Definition demo_granted : (Registry * ControlDB) * (SeatStatus + control_error) :=
  reconcileSeat demo_exec demo_body (demo_desired 1) true false no_status demo_control.

Lemma ungranted_generation_keeps_the_session_witness :
  exists st0 w1 st1 w2 st2, demo_granted.2 = inl st0
  /\ reconcileSeat demo_exec demo_body (demo_desired 2) false false st0 demo_granted.1 = (w1, inl st1)
  /\ reconcileSeat demo_exec demo_body (demo_desired 2) true false st1 w1 = (w2, inl st2)
  /\ st_Generation st0 = 1%Z /\ st_Generation st2 = 2%Z /\ st_SessionID st2 = st_SessionID st0.
Proof.
  destruct demo_granted as [w0 [st0|e]] eqn:G; [|vm_compute in G; discriminate].
  destruct (reconcileSeat demo_exec demo_body (demo_desired 2) false false st0 w0) as [w1 [st1|e]] eqn:R1;
    [|vm_compute in G; injection G as <- <-; vm_compute in R1; discriminate].
  destruct (reconcileSeat demo_exec demo_body (demo_desired 2) true false st1 w1) as [w2 [st2|e]] eqn:R2;
    [|vm_compute in G; injection G as <- <-; vm_compute in R1; injection R1 as <- <-;
      vm_compute in R2; discriminate].
  destruct (host_def w0.1 "a") as [d|] eqn:D; [|vm_compute in G; injection G as <- <-; vm_compute in D; discriminate].
  destruct (ungranted_generation_keeps_the_session demo_exec demo_body (demo_desired 2) st0 d w0 w1 w2 st1 st2
              D R1 R2) as (Gn & Se & _).
  exists st0, w1, st1, w2, st2. split_and!; [reflexivity|exact R1|exact R2| |exact Gn|].
  - vm_compute in G. injection G as <- <-. reflexivity.
  - rewrite Se. vm_compute in G. injection G as <- <-. vm_compute in D. injection D as <-. reflexivity.
Defined.
