(* ===== verification/UsageFacts.v ===== *)
(** * UsageFacts: what a provider's calls consumed, and receipts of requests

    Models [omp/usage.go], [omp/usage_transition.go], the validation in
    [omp/receipt.go] and [omp/generations.go], [usage_facts.go] with the part of
    [publishEvent] that counts, and the tables of facts and receipts in
    [controlplane/replicate.go]. A row keeps the tree of its JSON. Times in texts,
    and whether a statement runs, are arguments; an error is [None] or [false]. *)

From S2P Require Import Prelude GoLib GoFloat GoJson GoStruct WireResponses Wire.
From S2P Require FleetTypes Control.

(** [time.Parse] and [Format] with [RFC3339Nano]: of a time in UTC, and of a time in
    the zone of a text that was parsed. *)
Class Rfc3339Nano := {
  parse_nano : string -> option Time; format_nano : Time -> string; format_like : string -> Time -> string }.

Definition max_counter : Z := 2 ^ 53 - 1.

(** A list whose elements pass [ok] and differ. *)
Fixpoint distinct_ok {A} (key : A -> string) (ok : A -> bool) (seen : gset string) (l : list A) : bool :=
  match l with
  | [] => true
  | x :: l => ok x && negb (bool_decide (key x ∈ seen)) && distinct_ok key ok ({[key x]} ∪ seen) l
  end.

(** ** Facts *)

#[export] Instance UsageCounters_eq_dec : EqDecision UsageCounters.
Proof. solve_decision. Defined.
#[export] Instance UsageRequestRef_eq_dec : EqDecision UsageRequestRef.
Proof. solve_decision. Defined.

Section Facts.
Context `{Rfc3339Nano}.

(** The counters of a fact that are bounded. *)
Definition counters (f : UsageFact) : list (option Z) :=
  let c := fact_Counters f in
  [uc_TotalInputTokens c; uc_InputTokens c; uc_OutputTokens c; uc_CacheReadInputTokens c;
   uc_CacheCreationInputTokens c; uc_ReasoningTokens c; fact_ContextTokens f; fact_ProtocolTokenDeltaTotal f].

Definition valid_counter (n : option Z) : bool :=
  match n with Some n => (0 <=? n)%Z && (n <=? max_counter)%Z | None => true end.

Definition valid_state (f : UsageFact) (start : Time) : bool :=
  if decide (fact_State f = "started") then
    bool_decide (fact_FinishedAt f = "") && bool_decide (fact_Counters f = new_UsageCounters)
    && bool_decide (fact_ContextTokens f = None) && bool_decide (fact_ProtocolTokenDeltaTotal f = None)
    && match fact_APIEquivalentCostUSD f with None => true | Some _ => false end
  else if contains ["completed"; "failed"; "cancelled"; "unknown"] (fact_State f) then
    match parse_nano (fact_FinishedAt f) with Some finish => negb (Before finish start) | None => false end
  else false.

(** An observation of an engine's invocation, or of one attempt at a provider. *)
Definition valid_scope (f : UsageFact) : bool :=
  (bool_decide (fact_Coverage f = "engine_invocation") && bool_decide (fact_CounterSource f = "adapter_normalized_positive")
   && bool_decide (fact_InvocationID f = "") && bool_decide (fact_ProviderAttemptID f = ""))
  || (bool_decide (fact_Coverage f = "provider_attempt") && bool_decide (fact_CounterSource f = "provider_reported")
      && negb (blank (fact_InvocationID f)) && bool_decide (fact_ProviderAttemptID f = fact_CallID f)).

Definition valid_cost (f : UsageFact) : bool :=
  match fact_APIEquivalentCostUSD f with
  | Some c => negb (F.is_nan c) && GoStruct.finite c && negb (F.ltb c F.zero)
              && bool_decide (fact_CostSource f = "provider_adapter_estimate")
  | None => true
  end.

(** [UsageFact.ValidateIdentity]. *)
Definition ValidateIdentity (seat session : string) (f : UsageFact) : bool :=
  bool_decide (fact_Seat f = seat) && bool_decide (fact_SessionID f = session) && negb (blank seat) && negb (blank session)
  && negb (bool_decide (fact_Seq f = 0%Z)) && negb (bool_decide (fact_CallID f = "")) && negb (bool_decide (fact_Provider f = ""))
  && negb (bool_decide (fact_Model f = "")) && bool_decide (is_Some (fact_Requests f))
  && valid_scope f && contains ["model"; "compaction"] (fact_Kind f)
  && match parse_nano (fact_StartedAt f) with Some start => valid_state f start | None => false end
  && distinct_ok ur_RequestID (fun r => negb (bool_decide (ur_RequestID r = "")) && negb (bool_decide (ur_AttemptID r = ""))) ∅
       (default [] (fact_Requests f))
  && forallb valid_counter (counters f) && valid_cost f.

(** [UsagePage.Validate]; [Next] is a [uint64]. *)
Fixpoint valid_facts (seat session : string) (after : Z) (l : list UsageFact) : bool :=
  match l with
  | [] => true
  | f :: l => bool_decide (fact_Seq f = (after + 1)%Z) && ValidateIdentity seat session f && valid_facts seat session (after + 1) l
  end.

Definition valid_page (seat session : string) (after limit : Z) (p : UsagePage) : bool :=
  negb (blank seat) && negb (blank session) && (1 <=? limit)%Z && (limit <=? UsagePageLimit)%Z && (after <=? max_counter)%Z
  && bool_decide (up_Seat p = seat) && bool_decide (up_SessionID p = session)
  && match up_Facts p with
     | None => false
     | Some l => (Z.of_nat (length l) <=? limit)%Z && bool_decide (up_Next p = (after + Z.of_nat (length l)) mod 2 ^ 64)%Z
                 && negb (up_More p && bool_decide (l = [])) && valid_facts seat session after l
     end.

(** ** Transitions *)

(** [reflect.DeepEqual] of a cost: an equal number. *)
Definition cost_equal (c d : option float64) : bool :=
  match c, d with Some c, Some d => F.eqb c d | None, None => true | _, _ => false end.

(** Everything of a fact but its cost. *)
Definition fact_parts (f : UsageFact) :=
  ([fact_InvocationID f; fact_ProviderAttemptID f; fact_ProviderRequestID f; fact_ProviderResponseID f; fact_CallID f;
    fact_Seat f; fact_SessionID f; fact_Kind f; fact_State f; fact_Provider f; fact_Model f; fact_TurnID f; fact_Cause f;
    fact_StartedAt f; fact_FinishedAt f; fact_CounterSource f; fact_CostSource f; fact_Coverage f],
   fact_Seq f, fact_Requests f, fact_Counters f, fact_ContextTokens f, fact_ProtocolTokenDeltaTotal f).
Definition same_fact (f g : UsageFact) : bool :=
  bool_decide (fact_parts f = fact_parts g) && cost_equal (fact_APIEquivalentCostUSD f) (fact_APIEquivalentCostUSD g).

(** What of a fact never changes. *)
Definition identity (f : UsageFact) : UsageFact :=
  f <| fact_Seq := 0%Z |> <| fact_State := "" |> <| fact_FinishedAt := "" |> <| fact_Counters := new_UsageCounters |>
    <| fact_ContextTokens := None |> <| fact_ProtocolTokenDeltaTotal := None |> <| fact_APIEquivalentCostUSD := None |>
    <| fact_CostSource := "" |> <| fact_ProviderRequestID := "" |> <| fact_ProviderResponseID := "" |>.

(** A valid fact, whoever's it is. *)
Definition valid_fact (f : UsageFact) : bool := ValidateIdentity (fact_Seat f) (fact_SessionID f) f.

(** [ValidateUsageTransition]: whether the incoming fact replaces the previous. *)
Definition ValidateUsageTransition (previous incoming : option UsageFact) : option bool :=
  match incoming with
  | None => None
  | Some incoming =>
    if negb (valid_fact incoming) then None
    else match previous with
    | None => Some true
    | Some previous =>
      if negb (valid_fact previous) then None
      else if negb (same_fact (identity previous) (identity incoming)) then None
      else if decide (fact_Seq incoming = fact_Seq previous) then
        if same_fact previous incoming then Some false else None
      else if (fact_Seq incoming <? fact_Seq previous)%Z then
        if bool_decide (fact_State incoming = "started") && negb (bool_decide (fact_State previous = "started"))
        then Some false else None
      else if negb (bool_decide (fact_State previous = "started")) || bool_decide (fact_State incoming = "started") then None
      else Some true
    end
  end.

(** ** Pages, as they are asked for *)

(** The first answer to the call [rpc]; what came for others is left. *)
Record usage_answer := MkAnswer { ua_RPCID : string; ua_Type : string; ua_page : option UsagePage }.
Definition await_page (rpc seat session : string) (after limit : Z) (received : list usage_answer) : option UsagePage :=
  match List.find (fun a => bool_decide (ua_RPCID a = rpc)) received with
  | Some a =>
    if decide (ua_Type a = "usage_page") then
      match ua_page a with Some p => if valid_page seat session after limit p then Some p else None | None => None end
    else None
  | None => None
  end.

(** [queryUsage] as far as the question: none is a page of the largest size. *)
Definition query_limit (seat session : string) (limit : Z) : option Z :=
  let limit := if decide (limit = 0%Z) then UsagePageLimit else limit in
  if blank seat || blank session || (limit <? 1)%Z || (UsagePageLimit <? limit)%Z then None else Some limit.

(** [GenerationPage.Validate]. *)
Definition GenerationIdentityLimit : nat := 1024.
Definition GenerationIssueLimit : nat := 512.
Definition valid_generation (g : GenerationIdentity) : bool :=
  negb (blank (gi_Seat g)) && negb (blank (gi_SessionID g)) && (len (gi_Seat g) <=? GenerationIdentityLimit)%nat
  && (len (gi_SessionID g) <=? GenerationIdentityLimit)%nat.
Definition valid_issue (i : GenerationIssue) : bool :=
  negb (bool_decide (gis_Code i = "")) && (len (gis_Code i) <=? GenerationIssueLimit)%nat
  && (len (gis_Path i) <=? GenerationIssueLimit)%nat && (len (gis_Message i) <=? GenerationIssueLimit)%nat.
Definition valid_generation_page (cursor : string) (limit : Z) (p : GenerationPage) : bool :=
  (1 <=? limit)%Z && (limit <=? GenerationPageLimit)%Z && (len cursor <=? GenerationCursorLimit)%nat
  && match gp_Generations p, gp_Issues p with
     | Some gs, Some issues =>
       (Z.of_nat (length gs + length issues) <=? limit)%Z && (len (gp_Cursor p) <=? GenerationCursorLimit)%nat
       && Bool.eqb (gp_More p) (negb (bool_decide (gp_Cursor p = "")))
       && negb (gp_More p && (bool_decide (gp_Cursor p = cursor) || gp_Complete p))
       && negb (gp_Complete p && negb (bool_decide (issues = [])))
       && forallb valid_generation gs && forallb valid_issue issues
     | _, _ => false
     end.

(** ** Receipts *)

Definition ReceiptAccepted : string := "accepted".
Definition ReceiptStarted : string := "started".
Definition ReceiptCompleted : string := "completed".
Definition ReceiptCancelled : string := "cancelled".
Definition ReceiptFailed : string := "failed".
Definition ReceiptUnknown : string := "unknown".
Definition ReceiptCauseNone : string := "".
Definition ReceiptCauseAuth : string := "auth".
Definition ReceiptCauseCapacity : string := "capacity".
Definition ReceiptCauseCancellation : string := "cancellation".
Definition ReceiptCauseFailure : string := "failure".
Definition ReceiptCauseUnknown : string := "unknown".

(** [validateReceiptCause]. *)
Definition validateReceiptCause (state cause : string) : bool :=
  contains [ReceiptCauseNone; ReceiptCauseAuth; ReceiptCauseCapacity; ReceiptCauseCancellation; ReceiptCauseFailure;
            ReceiptCauseUnknown] cause
  && if contains [ReceiptAccepted; ReceiptStarted; ReceiptCompleted] state then bool_decide (cause = ReceiptCauseNone)
     else if decide (state = ReceiptCancelled) then contains [ReceiptCauseNone; ReceiptCauseCancellation] cause
     else if decide (state = ReceiptFailed)
     then contains [ReceiptCauseNone; ReceiptCauseAuth; ReceiptCauseCapacity; ReceiptCauseFailure] cause
     else if decide (state = ReceiptUnknown) then contains [ReceiptCauseNone; ReceiptCauseUnknown] cause
     else true.

(** [RequestReceipt.ValidateIdentity]. *)
Definition valid_receipt (seat session request : string) (r : RequestReceipt) : bool :=
  bool_decide (rr_Seat r = seat) && bool_decide (rr_SessionID r = session) && bool_decide (rr_RequestID r = request)
  && if decide (rr_State r = ReceiptUnknown) then validateReceiptCause (rr_State r) (rr_Cause r)
     else contains [ReceiptAccepted; ReceiptStarted; ReceiptCompleted; ReceiptCancelled; ReceiptFailed] (rr_State r)
       && negb (blank (rr_AttemptID r))
       && match parse_nano (rr_AcceptedAt r), parse_nano (rr_UpdatedAt r), rr_TurnIDs r with
          | Some accepted, Some updated, Some turns =>
            negb (Before updated accepted) && distinct_ok id (fun id => negb (blank id)) ∅ turns
            && Bool.eqb (bool_decide (rr_State r = ReceiptAccepted)) (bool_decide (turns = []))
          | _, _, _ => false
          end
       && validateReceiptCause (rr_State r) (rr_Cause r).

End Facts.

(** ** The tables of the control plane *)

Record fact_row := MkFactRow {
  fr_seat : string; fr_session : string; fr_seq : Z; fr_call : string; fr_kind : string; fr_json : json }.
Record receipt_row := MkReceiptRow { rw_state : string; rw_json : json }.

(** A table of facts by its rows, one of receipts by its key. *)
Record UsageDB := MkUsageDB { ud_facts : list fact_row; ud_receipts : gmap (string * string * string) receipt_row }.
#[export] Instance eta_UsageDB : Eta UsageDB := fun d => MkUsageDB (ud_facts d) (ud_receipts d).
#[export] Hint Extern 1 (@Setter UsageDB _ _) => setter_of eta_UsageDB : typeclass_instances.

(** [json.Unmarshal]; the rows are this program's, so no member is unknown. *)
Definition of_json {T} (c : codec T) (j : json) : option T :=
  let r := c_in c j (c_zero c) in match r.2 with None => Some r.1 | Some _ => None end.

Section Tables.
Context `{Rfc3339Nano, FloatText}.

Definition row_matches (f : UsageFact) (r : fact_row) : bool :=
  bool_decide (fr_seat r = fact_Seat f) && bool_decide (fr_session r = fact_SessionID f)
  && (bool_decide (fr_seq r = wrap64 (fact_Seq f)) || bool_decide (fr_call r = fact_CallID f)).

(** A fact against the rows of its sequence number and of its call: whether it is
    there, [None] when they contradict it. *)
Fixpoint check_rows (f : UsageFact) (rows : list fact_row) (duplicate : bool) : option bool :=
  match rows with
  | [] => Some duplicate
  | r :: rows =>
    match of_json UsageFact_json (fr_json r) with
    | None => None
    | Some stored =>
      let '(previous, incoming) := if (fact_Seq f <? fact_Seq stored)%Z then (f, stored) else (stored, f) in
      match ValidateUsageTransition (Some previous) (Some incoming) with
      | None => None
      | Some _ => check_rows f rows (duplicate || bool_decide (fact_Seq stored = fact_Seq f))
      end
    end
  end.

Definition same_place (f : UsageFact) (r : fact_row) : bool :=
  bool_decide (fr_seat r = fact_Seat f) && bool_decide (fr_session r = fact_SessionID f)
  && bool_decide (fr_seq r = wrap64 (fact_Seq f)).
Definition row_of (f : UsageFact) (j : json) : fact_row :=
  MkFactRow (fact_Seat f) (fact_SessionID f) (wrap64 (fact_Seq f)) (fact_CallID f) (fact_Kind f) j.

(** The insertion; the engine refuses a second row of one place. *)
Definition insert_fact (exec : bool) (f : UsageFact) (j : json) (db : UsageDB) : UsageDB * bool :=
  let r := Control.ExecOwned Control.WriterClaudia Control.UsageTable
             (exec && negb (existsb (same_place f) (ud_facts db))) (fun db => db <| ud_facts ::= (.++ [row_of f j]) |>) db in
  (r.1, match r.2 with None => true | Some _ => false end).

Definition publish_fact (query exec : bool) (f : UsageFact) (db : UsageDB) : UsageDB * bool :=
  if negb (valid_fact f) then (db, false)
  else if negb query then (db, false)
  else match check_rows f (List.filter (row_matches f) (ud_facts db)) false with
       | None => (db, false)
       | Some true => (db, true)
       | Some false =>
         match c_out UsageFact_json f with Some j => insert_fact exec f j db | None => (db, false) end
       end.

(** [PublishUsageFacts]: [runs i] says whether the engine runs the query and the
    insertion of the [i]-th fact. *)
Fixpoint publish_facts (runs : nat -> bool * bool) (i : nat) (facts : list UsageFact) (db : UsageDB) : UsageDB * bool :=
  match facts with
  | [] => (db, true)
  | f :: facts =>
    let r := publish_fact (runs i).1 (runs i).2 f db in
    if r.2 then publish_facts runs (S i) facts r.1 else r
  end.
Definition PublishUsageFacts (runs : nat -> bool * bool) (facts : list UsageFact) (db : UsageDB) : UsageDB * bool :=
  publish_facts runs 0 facts db.

Definition receipt_key (r : RequestReceipt) : string * string * string := (rr_Seat r, rr_SessionID r, rr_RequestID r).

(** [PublishReceipt]. *)
Definition PublishReceipt (exec : bool) (r : RequestReceipt) (db : UsageDB) : UsageDB * bool :=
  if negb (valid_receipt (rr_Seat r) (rr_SessionID r) (rr_RequestID r) r) then (db, false)
  else match c_out RequestReceipt_json r with
       | None => (db, false)
       | Some j =>
         let w := Control.ExecOwned Control.WriterClaudia Control.ReceiptTable exec
                    (fun db => db <| ud_receipts ::= <[receipt_key r := MkReceiptRow (rr_State r) j]> |>) db in
         (w.1, match w.2 with None => true | Some _ => false end)
       end.

Definition ShutdownReceiptReason : string := "broker shutdown".
Definition SidecarExitReceiptReason : string := "sidecar exited".

(** The receipt, cancelled now, and after it was last updated. *)
Definition cancelled (reason : string) (now : Time) (r : RequestReceipt) : RequestReceipt :=
  r <| rr_State := ReceiptCancelled |> <| rr_Cause := ReceiptCauseCancellation |> <| rr_Reason := reason |>
    <| rr_UpdatedAt := match parse_nano (rr_UpdatedAt r) with
                       | Some prev => if Before prev now then format_nano now else format_like (rr_UpdatedAt r) (prev + 1)%Z
                       | None => format_nano now
                       end |>.

(** The rows that were started when they were queried, in the query's order. *)
Fixpoint cancel_rows (exec : string * string * string -> bool) (reason : string) (now : Time) (rows : list receipt_row)
    (db : UsageDB) : UsageDB * bool :=
  match rows with
  | [] => (db, true)
  | r :: rows =>
    match of_json RequestReceipt_json (rw_json r) with
    | None => (db, false)
    | Some receipt =>
      if decide (rr_State receipt = ReceiptStarted) then
        let w := PublishReceipt (exec (receipt_key receipt)) (cancelled reason now receipt) db in
        if w.2 then cancel_rows exec reason now rows w.1 else w
      else cancel_rows exec reason now rows db
    end
  end.

(** [CancelStartedReceipts]; [rows] is what the query gives, [None] when it fails. *)
Definition CancelStartedReceipts (exec : string * string * string -> bool) (reason : string) (now : Time)
    (rows : option (list receipt_row)) (db : UsageDB) : UsageDB * bool :=
  let reason := if decide (reason = "") then ShutdownReceiptReason else reason in
  match rows with Some rows => cancel_rows exec reason now rows db | None => (db, false) end.

(** [SettleStartedObligations]. *)
Definition SettleStartedObligations := CancelStartedReceipts.

End Tables.

(** ** What a handle has counted *)

Import FleetTypes.

Definition no_usage : Usage := MkUsage 0 0 0 0.
(** [+=] on each counter; an [int] is 64 bits. *)
Definition add_usage (u v : Usage) : Usage :=
  MkUsage (wrap64 (InputTokens u + InputTokens v)) (wrap64 (OutputTokens u + OutputTokens v))
    (wrap64 (CacheCreationInputTokens u + CacheCreationInputTokens v))
    (wrap64 (CacheReadInputTokens u + CacheReadInputTokens v)).

(** What of an event is counted. *)
Record usage_event := MkUsageEvent { ue_type : string; ue_fact : option UsageFact; ue_usage : Usage }.

(** What of an [Agent] counts; [h_err] is whether [usageErr] is set. *)
Record handle := MkHandle {
  h_name : string; h_session : string; h_calls : gmap string UsageFact; h_usage : Usage; h_err : bool; h_cursor : Z }.
#[export] Instance eta_handle : Eta handle := fun h =>
  MkHandle (h_name h) (h_session h) (h_calls h) (h_usage h) (h_err h) (h_cursor h).
#[export] Hint Extern 1 (@Setter handle _ _) => setter_of eta_handle : typeclass_instances.

Definition new_handle (name session : string) : handle := MkHandle name session ∅ no_usage false 0.

Section Handle.
Context `{Rfc3339Nano, FloatText}.

Definition call_key (f : UsageFact) : string :=
  fact_Seat f +:+ String (byte 0) (fact_SessionID f +:+ String (byte 0) (fact_CallID f)).

(** The tokens of a fact, none while its call goes on. *)
Definition tokens (f : UsageFact) : Usage :=
  let c := fact_Counters f in
  if decide (fact_State f = "started") then no_usage
  else MkUsage (default 0%Z (uc_InputTokens c)) (default 0%Z (uc_OutputTokens c))
         (default 0%Z (uc_CacheCreationInputTokens c)) (default 0%Z (uc_CacheReadInputTokens c)).

(** [applyUsageFactLocked]: the tokens of a fresh fact, none of another, [None] when
    it is refused. What is kept is a copy by way of JSON. *)
Definition applyUsageFact (f : UsageFact) (h : handle) : option (handle * option Usage) :=
  if negb (ValidateIdentity (fact_Seat f) (h_session h) f) then None
  else if negb (bool_decide (h_name h = "")) && negb (bool_decide (h_name h = fact_Seat f)) then None
  else match ValidateUsageTransition (h_calls h !! call_key f) (Some f) with
       | None => None
       | Some false => Some (h, None)
       | Some true =>
         match mbind (of_json UsageFact_json) (c_out UsageFact_json f) with
         | None => None
         | Some saved => Some (h <| h_calls ::= <[call_key f := saved]> |>, Some (tokens f))
         end
       end.

Definition counts (u : Usage) : bool :=
  (0 <? InputTokens u)%Z || (0 <? OutputTokens u)%Z || (0 <? CacheCreationInputTokens u)%Z || (0 <? CacheReadInputTokens u)%Z.
Definition count_usage (u : Usage) (h : handle) : handle :=
  if counts u then h <| h_usage ::= fun v => add_usage v u |> else h.

(** [publishEvent], as far as it counts. *)
Definition publish (e : usage_event) (h : handle) : handle :=
  match ue_fact e with
  | Some f =>
    match applyUsageFact f h with
    | None => h <| h_err := true |>
    | Some (h, None) => h
    | Some (h, Some u) => count_usage u (if decide (ue_type e = "usage_error") then h <| h_err := true |> else h)
    end
  | None => count_usage (ue_usage e) (if decide (ue_type e = "usage_error") then h <| h_err := true |> else h)
  end.

Definition fact_event (f : UsageFact) : usage_event := MkUsageEvent "usage" (Some f) no_usage.
Definition publish_all (es : list usage_event) (h : handle) : handle := foldl (fun h e => publish e h) h es.

(** What others do to the handle: they publish, or [repoint] it to the seat's new
    process, whose session may be another; the cursor stays. *)
Inductive handle_act := Publishes (e : usage_event) | Repointed (session : string).
Definition act (h : handle) (a : handle_act) : handle :=
  match a with Publishes e => publish e h | Repointed session => h <| h_session := session |> end.
Definition act_all (l : list handle_act) (h : handle) : handle := foldl act h l.

(** [RefreshUsage]. [answer k] is what the [k]-th page asked for is, or that asking
    failed; [live k 0] is what others do until that page is there and [live k i] what
    they do before its [i]-th fact, from one, is published. *)
Variable answer : nat -> Z -> option UsagePage.
Variable live : nat -> nat -> list handle_act.

Fixpoint publish_page (k i : nat) (facts : list UsageFact) (h : handle) : handle * bool :=
  match facts with
  | [] => (h, true)
  | f :: facts =>
    let h := publish (fact_event f) (act_all (live k i) h) in
    if h_err h then (h, false) else publish_page k (S i) facts h
  end.

Fixpoint RefreshUsage (fuel k : nat) (h : handle) : option (handle * bool) :=
  match fuel with
  | O => None
  | S fuel =>
    let page := answer k (h_cursor h) in
    let h := act_all (live k 0) h in
    match page with
    | None => Some (h, false)
    | Some p =>
      if valid_page (h_name h) (h_session h) (h_cursor h) UsagePageLimit p then
        let r := publish_page k 1 (default [] (up_Facts p)) h in
        if r.2 then
          let h := r.1 <| h_cursor := up_Next p |> in
          if up_More p then RefreshUsage fuel (S k) h else Some (h, true)
        else Some r
      else Some (h, false)
    end
  end.

End Handle.
