(* ===== verification/UsageFactsTheorems.v ===== *)
(** * UsageFactsTheorems: usage is counted once, and a ledger is its journal

    A call is counted once whatever is published and replayed; a refresh of
    a handle that knows the journal up to its cursor catches up with it, and one after a
    usage error fails; the table of facts holds a journal's facts whatever order and
    however often they come; settling leaves no request started. *)

From S2P Require Import Prelude GoLib GoFloat GoJson GoStruct WireResponses Wire UsageFacts.
From S2P Require Import FleetTypes.
From Stdlib Require Import Ascii.

(** The parts of a conjunction of tests. *)
Ltac bools := repeat match goal with
  | H : _ && _ = true |- _ => apply andb_prop in H as [? H]
  | H : bool_decide _ = true |- _ => apply bool_decide_eq_true in H
  | H : negb _ = true |- _ => apply negb_true_iff in H
  | H : bool_decide _ = false |- _ => apply bool_decide_eq_false in H
  end.

(** ** Counting *)

Lemma add_usage_comm u v : add_usage u v = add_usage v u.
Proof. unfold add_usage. f_equal; f_equal; lia. Qed.
Lemma add_usage_assoc u v w : add_usage u (add_usage v w) = add_usage (add_usage u v) w.
Proof.
  unfold add_usage. cbn [InputTokens OutputTokens CacheCreationInputTokens CacheReadInputTokens].
  f_equal; rewrite wrap64_add_l, Z.add_comm, wrap64_add_l; f_equal; lia.
Qed.

(** A counter that an [int] holds. *)
Definition fits (u : Usage) : Prop := add_usage no_usage u = u.
Lemma fits_add u v : fits (add_usage u v).
Proof.
  unfold fits, add_usage, no_usage. cbn [InputTokens OutputTokens CacheCreationInputTokens CacheReadInputTokens].
  f_equal; rewrite Z.add_0_l; apply wrap64_eq, wrap64_mod.
Qed.
Lemma fits_none : fits no_usage. Proof. reflexivity. Qed.

Section Counting.
Context `{Rfc3339Nano, FloatText}.

(** The tokens of the calls that are known. *)
Definition total (calls : gmap string UsageFact) : Usage := map_fold (fun _ f u => add_usage (tokens f) u) no_usage calls.

Lemma add_tokens_comm (f g : UsageFact) u : add_usage (tokens f) (add_usage (tokens g) u) = add_usage (tokens g) (add_usage (tokens f) u).
Proof. by rewrite !add_usage_assoc, (add_usage_comm (tokens f)). Qed.

Lemma total_new calls k f : calls !! k = None -> total (<[k := f]> calls) = add_usage (tokens f) (total calls).
Proof.
  intros N. unfold total. rewrite map_fold_insert_L; [done| |done].
  intros j1 j2 z1 z2 y _ _ _. apply add_tokens_comm.
Qed.
Lemma total_fits calls : fits (total calls).
Proof.
  destruct (decide (calls = ∅)) as [-> |N]; [by unfold total; rewrite map_fold_empty|].
  apply map_choose in N as (k & f & E). rewrite <- (insert_delete_id calls k f E), total_new by apply lookup_delete_eq.
  apply fits_add.
Qed.
(** A call that goes on has no tokens yet, so what ends it is added. *)
Lemma total_ended calls k f g : calls !! k = Some g -> tokens g = no_usage ->
  total (<[k := f]> calls) = add_usage (tokens f) (total calls).
Proof.
  intros E Z. rewrite <- (insert_delete_id calls k g E) at 2. rewrite (total_new _ k g) by apply lookup_delete_eq.
  rewrite Z. rewrite <- insert_delete_eq, total_new by apply lookup_delete_eq. f_equal. symmetry. apply total_fits.
Qed.

(** *** What a transition says *)

Lemma transition_new p f : ValidateUsageTransition (Some p) (Some f) = Some true ->
  valid_fact p = true /\ valid_fact f = true /\ same_fact (identity p) (identity f) = true
  /\ (fact_Seq p < fact_Seq f)%Z /\ fact_State p = "started" /\ fact_State f <> "started".
Proof.
  unfold ValidateUsageTransition. destruct (valid_fact f), (valid_fact p), (same_fact (identity p) (identity f)); cbn [negb]; try done.
  destruct (decide _) as [|N]; [by destruct (same_fact p f)|]. destruct (Z.ltb_spec (fact_Seq f) (fact_Seq p)); [by destruct (_ && _)|].
  destruct (bool_decide_reflect (fact_State p = "started")); [|done]. destruct (bool_decide_reflect (fact_State f = "started")); [done|].
  intros _. split_and!; auto; lia.
Qed.

Lemma same_fact_sym p f : same_fact (identity p) (identity f) = true -> same_fact (identity f) (identity p) = true.
Proof.
  unfold same_fact. intros [E _]%andb_prop. apply bool_decide_eq_true in E. rewrite bool_decide_true by done. reflexivity.
Qed.

Lemma transition_first f : valid_fact f = true -> ValidateUsageTransition None (Some f) = Some true.
Proof. intros V. cbn. by rewrite V. Qed.
Lemma same_fact_refl f : valid_fact f = true -> same_fact f f = true.
Proof.
  intros V. unfold same_fact. rewrite bool_decide_true by done. unfold valid_fact, ValidateIdentity in V. bools.
  unfold valid_cost in V. unfold cost_equal. destruct (fact_APIEquivalentCostUSD f) as [c|]; [|done]. bools.
  by apply eqb_key.
Qed.
Lemma transition_again f : valid_fact f = true -> ValidateUsageTransition (Some f) (Some f) = Some false.
Proof.
  intros V. cbn. rewrite V. cbn [negb]. assert (same_fact (identity f) (identity f) = true) as ->.
  { unfold same_fact. by rewrite bool_decide_true. }
  cbn [negb]. by rewrite decide_True, same_fact_refl.
Qed.
(** A start that is replayed after the end of its call. *)
Lemma transition_older p f : ValidateUsageTransition (Some p) (Some f) = Some true -> ValidateUsageTransition (Some f) (Some p) = Some false.
Proof.
  intros T. destruct (transition_new p f T) as (Vp & Vf & S & L & Sp & Sf). cbn. rewrite Vp, Vf. cbn [negb].
  rewrite (same_fact_sym _ _ S). cbn [negb]. rewrite decide_False by lia. rewrite (proj2 (Z.ltb_lt _ _) L).
  by rewrite bool_decide_true, bool_decide_false.
Qed.

(** *** Publishing *)

Lemma saved_fact f : c_plain UsageFact_json f -> mbind (of_json UsageFact_json) (c_out UsageFact_json f) = Some f.
Proof. intros P. destruct (out_in (c := UsageFact_json) f P) as (j & -> & _ & I). cbn. unfold of_json. by rewrite I. Qed.

Lemma started_no_tokens f : fact_State f = "started" -> tokens f = no_usage.
Proof. intros S. unfold tokens. by rewrite decide_True. Qed.

(** Only tokens that count are added, and the others are none. *)
Lemma valid_tokens f : valid_fact f = true -> counts (tokens f) = false -> tokens f = no_usage.
Proof.
  intros V. unfold tokens. destruct (decide _); [done|]. unfold valid_fact, ValidateIdentity in V. bools.
  repeat match goal with H : forallb valid_counter (counters f) = true |- _ => revert H end.
  unfold counters, valid_counter, counts. cbn [forallb InputTokens OutputTokens CacheCreationInputTokens CacheReadInputTokens].
  intros C N. rewrite !andb_true_iff in C. destruct C as (_ & I & O & R & W & _). rewrite !orb_false_iff, !Z.ltb_ge in N.
  destruct N as (((Ni & No) & Nw) & Nr). unfold no_usage.
  f_equal; [destruct (uc_InputTokens _)|destruct (uc_OutputTokens _)|destruct (uc_CacheCreationInputTokens _)|destruct (uc_CacheReadInputTokens _)];
    cbn [default] in *; rewrite ?andb_true_iff, ?Z.leb_le in *; unfold default, id in *; lia.
Qed.

Definition plain_event (e : usage_event) : Prop :=
  match ue_fact e with Some f => c_plain UsageFact_json f | None => True end.

(** What events without facts add. *)
Definition other_usage (e : usage_event) : option Usage :=
  match ue_fact e with Some _ => None | None => if counts (ue_usage e) then Some (ue_usage e) else None end.
Definition others (es : list usage_event) : Usage := foldr add_usage no_usage (omap other_usage es).

Lemma count_usage_calls u h : h_calls (count_usage u h) = h_calls h.
Proof. unfold count_usage. by destruct (counts u). Qed.

(** The known calls are the facts of their keys; what was counted is theirs. *)
Record accounted (es : list usage_event) (h : handle) : Prop := {
  ac_usage : h_usage h = add_usage (others es) (total (h_calls h));
  ac_calls : forall k f, h_calls h !! k = Some f -> k = call_key f /\ valid_fact f = true
               /\ exists e, e ∈ es /\ ue_fact e = Some f }.

Lemma others_snoc es e : others (es ++ [e]) = match other_usage e with Some u => add_usage u (others es) | None => others es end.
Proof.
  unfold others. rewrite omap_app, foldr_app. cbn [omap list_omap]. destruct (other_usage e) as [u|]; [|done].
  cbn [foldr]. induction (omap other_usage es) as [|v l IH]; [done|]. cbn [foldr]. rewrite IH.
  by rewrite !add_usage_assoc, (add_usage_comm v).
Qed.
Lemma others_fits es : fits (others es).
Proof. unfold others. destruct (omap _ es); [done|apply fits_add]. Qed.

Lemma accounted_err es h b : accounted es h -> accounted es (h <| h_err := b |>).
Proof. by intros []. Qed.

(** What an event makes of a handle. *)
Lemma counting_cases e h : plain_event e ->
  match ue_fact e with
  | None => exists b, publish e h = (match other_usage e with
                                     | Some u => h <| h_usage ::= fun v => add_usage v u |>
                                     | None => h end) <| h_err := b |>
  | Some f => (exists b, publish e h = h <| h_err := b |>)
    \/ valid_fact f = true
       /\ (forall g, h_calls h !! call_key f = Some g -> fact_State g = "started" /\ (fact_Seq g < fact_Seq f)%Z)
       /\ exists b, publish e h = (count_usage (tokens f) (h <| h_calls ::= <[call_key f := f]> |>)) <| h_err := b |>
  end.
Proof.
  intros P. unfold publish, plain_event, other_usage in *. destruct (ue_fact e) as [f|].
  - unfold applyUsageFact. destruct (negb (ValidateIdentity _ _ _)); [left; by exists true|].
    destruct (negb (bool_decide (h_name h = "")) && _); [left; by exists true|].
    destruct (ValidateUsageTransition _ _) as [[]|] eqn:T; [|left; exists (h_err h); by destruct h|left; by exists true].
    rewrite saved_fact by done. right.
    assert (valid_fact f = true) as V.
    { destruct (h_calls h !! call_key f); [apply transition_new in T; tauto|]. cbn in T. by destruct (valid_fact f). }
    split_and!; [done| |].
    + intros g G. rewrite G in T. apply transition_new in T. tauto.
    + unfold count_usage. destruct (counts (tokens f)); [|]; destruct (decide (ue_type e = "usage_error"));
        [exists true|exists (h_err h)|exists true|exists (h_err h)]; by destruct h.
  - unfold count_usage. destruct (counts (ue_usage e)), (decide (ue_type e = "usage_error"));
      [exists true|exists (h_err h)|exists true|exists (h_err h)]; by destruct h.
Qed.

Lemma accounted_publish es e h : plain_event e -> accounted es h -> accounted (es ++ [e]) (publish e h).
Proof.
  intros P [U C]. pose proof (counting_cases e h P) as Q.
  assert (forall k f, h_calls h !! k = Some f -> k = call_key f /\ valid_fact f = true /\ exists x, x ∈ es ++ [e] /\ ue_fact x = Some f) as C'.
  { intros k f L. destruct (C k f L) as (E & V & x & X & F). split_and!; [done..|]. exists x. rewrite elem_of_app. auto. }
  assert (ue_fact e <> None -> other_usage e = None) as N by (unfold other_usage; by destruct (ue_fact e)).
  destruct (ue_fact e) as [f|] eqn:F.
  - specialize (N ltac:(done)). destruct Q as [[b ->]|(V & G & b & ->)].
    + apply accounted_err. split; [|done]. by rewrite others_snoc, N.
    + apply accounted_err.
      assert (total (<[call_key f := f]> (h_calls h)) = add_usage (tokens f) (total (h_calls h))) as T.
      { destruct (h_calls h !! call_key f) as [g|] eqn:L; [|by apply total_new]. destruct (G g eq_refl) as [S _].
        eapply total_ended; [done|by apply started_no_tokens]. }
      split.
      * rewrite others_snoc, N, count_usage_calls. cbn [h_calls upd]. unfold count_usage.
        change (h_calls (h <| h_calls ::= <[call_key f := f]> |>)) with (<[call_key f := f]> (h_calls h)). rewrite T.
        destruct (counts (tokens f)) eqn:Cf.
        -- change (h_usage _) with (add_usage (h_usage h) (tokens f)). rewrite U.
           by rewrite <- add_usage_assoc, (add_usage_comm (total _)).
        -- change (h_usage _) with (h_usage h). rewrite U. rewrite (valid_tokens f V Cf). f_equal. symmetry. apply total_fits.
      * rewrite count_usage_calls. change (h_calls (h <| h_calls ::= <[call_key f := f]> |>)) with (<[call_key f := f]> (h_calls h)).
        intros k g L. apply lookup_insert_Some in L as [[<- <-]|[_ L]]; [|by apply C'].
        split_and!; [done..|]. exists e. split; [|done]. rewrite elem_of_app. right. by apply list_elem_of_singleton.
  - destruct Q as [b ->]. apply accounted_err. unfold other_usage. rewrite F.
    split.
    + rewrite others_snoc. unfold other_usage. rewrite F. destruct (counts (ue_usage e)); [|done].
      change (add_usage (h_usage h) (ue_usage e) = add_usage (add_usage (ue_usage e) (others es)) (total (h_calls h))).
      rewrite U. rewrite (add_usage_comm _ (ue_usage e)). by rewrite add_usage_assoc.
    + destruct (counts (ue_usage e)); exact C'.
Qed.

(** C29: Whatever is published on a handle, in whatever order and however often, what it
    has counted is what the events without facts carried and, for each call it knows
    of, the tokens of the one fact it keeps of that call: none while the call goes on
    and, once, those of its end. *)
Theorem each_call_is_counted_once name session es :
  Forall plain_event es ->
  let h := publish_all es (new_handle name session) in
  h_usage h = add_usage (others es) (total (h_calls h))
  /\ forall k f, h_calls h !! k = Some f -> k = call_key f /\ valid_fact f = true /\ exists e, e ∈ es /\ ue_fact e = Some f.
Proof.
  intros P. cbn zeta.
  assert (accounted es (publish_all es (new_handle name session))) as []; [|done].
  induction es as [|e es IH] using rev_ind; [split; [done|by intros k f L]|].
  apply Forall_app in P as [P Pe]. unfold publish_all. rewrite foldl_app. apply accounted_publish; [by inversion Pe|by apply IH].
Qed.

(** ** Catching up with a journal *)

(** A seat's journal: its facts by their numbers, of which those of a call are one
    that starts it and at most one that ends it. *)
Record journal (seat session : string) (J : list UsageFact) : Prop := {
  j_facts : Forall (fun f => ValidateIdentity seat session f = true /\ c_plain UsageFact_json f) J;
  j_seqs : forall i f, J !! i = Some f -> fact_Seq f = Z.of_nat (S i);
  j_calls : forall f g, f ∈ J -> g ∈ J -> fact_CallID f = fact_CallID g -> (fact_Seq f < fact_Seq g)%Z ->
    ValidateUsageTransition (Some f) (Some g) = Some true;
  j_length : (Z.of_nat (length J) <= max_counter)%Z }.

Lemma identity_names seat session f : ValidateIdentity seat session f = true ->
  fact_Seat f = seat /\ fact_SessionID f = session /\ blank seat = false /\ blank session = false.
Proof. unfold ValidateIdentity. intros V. bools. auto. Qed.
Lemma identity_valid seat session f : ValidateIdentity seat session f = true -> valid_fact f = true.
Proof. intros V. unfold valid_fact. by destruct (identity_names _ _ _ V) as (-> & -> & _). Qed.

Lemma append_inj a b c : a +:+ b = a +:+ c -> b = c.
Proof. induction a as [|x a IH]; [done|]. cbn. intros [= E]. by apply IH. Qed.

Section Journal.
Variables (seat session : string) (J : list UsageFact).
Hypothesis Jn : journal seat session J.

Lemma journal_fact f : f ∈ J -> ValidateIdentity seat session f = true /\ c_plain UsageFact_json f.
Proof. exact (proj1 (list.Forall_forall _ _) (j_facts _ _ _ Jn) f). Qed.

Lemma journal_seq f g : f ∈ J -> g ∈ J -> fact_Seq f = fact_Seq g -> f = g.
Proof.
  intros [i I]%list_elem_of_lookup [k K]%list_elem_of_lookup E.
  rewrite (j_seqs _ _ _ Jn i f I), (j_seqs _ _ _ Jn k g K) in E. assert (i = k) as -> by lia. congruence.
Qed.
Lemma journal_key f g : f ∈ J -> g ∈ J -> call_key f = call_key g -> fact_CallID f = fact_CallID g.
Proof.
  intros F G. destruct (identity_names _ _ _ (proj1 (journal_fact f F))) as (Sf & Tf & _).
  destruct (identity_names _ _ _ (proj1 (journal_fact g G))) as (Sg & Tg & _).
  unfold call_key. rewrite Sf, Tf, Sg, Tg. intros E. apply append_inj in E. injection E as E. apply append_inj in E. by injection E.
Qed.

(** What the contract says of two facts of one call of the journal. *)
Lemma journal_transition f g : f ∈ J -> g ∈ J -> fact_CallID f = fact_CallID g ->
  ValidateUsageTransition (Some f) (Some g) = Some (bool_decide (fact_Seq f < fact_Seq g)%Z).
Proof.
  intros F G C. destruct (Z.lt_trichotomy (fact_Seq f) (fact_Seq g)) as [L|[E|L]].
  - rewrite bool_decide_true by done. by apply (j_calls _ _ _ Jn).
  - rewrite bool_decide_false by lia. rewrite (journal_seq f g F G E).
    apply transition_again. eapply identity_valid, (journal_fact g G).
  - rewrite bool_decide_false by lia. by apply transition_older, (j_calls _ _ _ Jn).
Qed.

(** A handle of the seat that knows only facts of the journal. *)
Record follows (h : handle) : Prop := {
  fo_err : h_err h = false; fo_name : h_name h = "" \/ h_name h = seat; fo_session : h_session h = session;
  fo_calls : forall k g, h_calls h !! k = Some g -> g ∈ J /\ k = call_key g }.

(** The handle has a fact of the call that is as new. *)
Definition knows (h : handle) (f : UsageFact) : Prop :=
  exists g, h_calls h !! call_key f = Some g /\ (fact_Seq f <= fact_Seq g)%Z.

(** An event of the journal, or one that is about something else. *)
Definition of_journal (e : usage_event) : Prop :=
  ue_type e <> "usage_error" /\ match ue_fact e with Some f => f ∈ J | None => True end.

Lemma count_usage_same u h : h_err (count_usage u h) = h_err h /\ h_name (count_usage u h) = h_name h
  /\ h_session (count_usage u h) = h_session h /\ h_cursor (count_usage u h) = h_cursor h.
Proof. unfold count_usage. by destruct (counts u). Qed.
Lemma follows_count u h : follows h -> follows (count_usage u h).
Proof.
  intros [E N S C]. destruct (count_usage_same u h) as (Ee & En & Es & _).
  split; rewrite ?Ee, ?En, ?Es, ?count_usage_calls; auto.
Qed.
Lemma knows_count u h f : knows (count_usage u h) f <-> knows h f.
Proof. unfold knows. by rewrite count_usage_calls. Qed.

Lemma publish_follows e h : of_journal e -> follows h ->
  follows (publish e h) /\ (h_cursor (publish e h) = h_cursor h /\ h_name (publish e h) = h_name h)
  /\ (forall f, knows h f -> knows (publish e h) f) /\ (forall f, ue_fact e = Some f -> knows (publish e h) f).
Proof.
  intros [T Q] Fo. pose proof Fo as [E N S C]. unfold publish. destruct (ue_fact e) as [f|]; rewrite ?(decide_False (P := ue_type e = _)) by done.
  - destruct (journal_fact f Q) as [V P]. destruct (identity_names _ _ _ V) as (Sf & Tf & _).
    assert (exists b, applyUsageFact f h = Some (if b : bool then (h <| h_calls ::= <[call_key f := f]> |>, Some (tokens f)) else (h, None))
      /\ if b then forall g, h_calls h !! call_key f = Some g -> (fact_Seq g < fact_Seq f)%Z else knows h f) as (b & -> & B).
    { unfold applyUsageFact. rewrite Sf, S, V. cbn [negb].
      assert (negb (bool_decide (h_name h = "")) && negb (bool_decide (h_name h = seat)) = false) as ->.
      { destruct N as [-> | ->]; [done|]. rewrite (bool_decide_true (seat = seat)) by done. apply andb_false_r. }
      destruct (h_calls h !! call_key f) as [g|] eqn:L.
      - destruct (C _ _ L) as [G K]. rewrite (journal_transition g f) by (try done; symmetry; by apply journal_key).
        destruct (bool_decide_reflect (fact_Seq g < fact_Seq f)%Z) as [O|O].
        + exists true. rewrite saved_fact by done. split; [done|]. by intros x [= <-].
        + exists false. split; [done|]. exists g. split; [done|lia].
      - rewrite transition_first by by eapply identity_valid. exists true. rewrite saved_fact by done. split; [done|]. by intros x X. }
    destruct b.
    + rewrite decide_False by done. assert (follows (h <| h_calls ::= <[call_key f := f]> |>)) as F'.
      { split; [exact E|exact N|exact S|]. intros k g. change (<[call_key f := f]> (h_calls h) !! k = Some g -> g ∈ J /\ k = call_key g).
        intros [[<- <-]|[_ L]]%lookup_insert_Some; [done|by apply C]. }
      destruct (count_usage_same (tokens f) (h <| h_calls ::= <[call_key f := f]> |>)) as (_ & En & _ & Ec).
      split_and!; [by apply follows_count|by rewrite Ec|by rewrite En| |]; intros x X; apply knows_count.
      * destruct X as (g & L & O). unfold knows. change (h_calls (h <| h_calls ::= <[call_key f := f]> |>)) with (<[call_key f := f]> (h_calls h)).
        destruct (decide (call_key f = call_key x)) as [K|K].
        -- exists f. rewrite K, lookup_insert_eq. split; [done|]. rewrite <- K in L. specialize (B g L). lia.
        -- exists g. by rewrite lookup_insert_ne.
      * injection X as <-. exists f. split; [|lia]. apply lookup_insert_eq.
    + split_and!; [done..|]. by intros x [= <-].
  - destruct (count_usage_same (ue_usage e) h) as (_ & En & _ & Ec).
    split_and!; [by apply follows_count|done|done| |done]. intros x X. by apply knows_count.
Qed.

(** What others do while the handle keeps its session. *)
Definition of_session (a : handle_act) : Prop := match a with Publishes e => of_journal e | Repointed s => s = session end.

Lemma act_follows a h : of_session a -> follows h ->
  follows (act h a) /\ (h_cursor (act h a) = h_cursor h /\ h_name (act h a) = h_name h) /\ (forall f, knows h f -> knows (act h a) f).
Proof.
  destruct a as [e|s]; cbn [of_session act]; intros A Fo; [by destruct (publish_follows e h A Fo) as (F & C & K & _)|].
  subst s. destruct Fo as [E N S C]. by split.
Qed.

Lemma act_all_follows l h : Forall of_session l -> follows h ->
  follows (act_all l h) /\ (h_cursor (act_all l h) = h_cursor h /\ h_name (act_all l h) = h_name h)
  /\ (forall f, knows h f -> knows (act_all l h) f).
Proof.
  intros P. revert h. induction P as [|a l P _ IH]; intros h Fo; [done|].
  destruct (act_follows a h P Fo) as (F & (Cu & Na) & K).
  destruct (IH _ F) as (F' & (Cu' & Na') & K'). cbn [act_all foldl]. fold (act_all l (act h a)).
  rewrite Cu', Na'. auto.
Qed.

Lemma publish_page_follows (live : nat -> nat -> list handle_act) k facts : (forall k i, Forall of_session (live k i)) ->
  (forall f, f ∈ facts -> f ∈ J) -> forall i h, follows h ->
  exists h', publish_page live k i facts h = (h', true) /\ follows h' /\ (h_cursor h' = h_cursor h /\ h_name h' = h_name h)
    /\ (forall f, knows h f -> knows h' f) /\ (forall f, f ∈ facts -> knows h' f).
Proof.
  intros Li. induction facts as [|f facts IH]; intros I i h Fo.
  - exists h. split_and!; try done. intros f F. by apply elem_of_nil in F.
  - destruct (act_all_follows (live k i) h (Li k i) Fo) as (F1 & (C1 & N1) & K1).
    assert (of_journal (fact_event f)) as Of by (split; [done|]; apply I; by left).
    destruct (publish_follows _ _ Of F1) as (F2 & (C2 & N2) & K2 & K3).
    destruct (IH (fun g G => I g (list_elem_of_further _ _ _ G)) (S i) _ F2) as (h' & R & F' & (C' & N') & K' & L').
    exists h'. cbn [publish_page]. rewrite (fo_err _ F2). split_and!; [done|done|congruence|congruence|auto|].
    intros g [-> |G]%elem_of_cons; [apply K', K3; done|by apply L'].
Qed.

(** A page that a journal gives: the facts after a number, at most so many. *)
Definition page_of (after : Z) (m : nat) : UsagePage :=
  let l := take m (drop (Z.to_nat after) J) in
  MkUsagePage seat session (Some l) (after + Z.of_nat (length l))
    (bool_decide (after + Z.of_nat (length l) < Z.of_nat (length J))%Z).

(** Answers that are pages of the journal, none empty before its end. *)
Definition honest (answer : nat -> Z -> option UsagePage) : Prop :=
  forall k after, (0 <= after <= Z.of_nat (length J))%Z -> exists m, answer k after = Some (page_of after m)
    /\ (Z.of_nat m <= UsagePageLimit)%Z /\ ((after < Z.of_nat (length J))%Z -> (0 < m)%nat).

Lemma valid_facts_at after l : (forall i f, l !! i = Some f -> fact_Seq f = (after + Z.of_nat (S i))%Z /\ ValidateIdentity seat session f = true) ->
  valid_facts seat session after l = true.
Proof.
  revert after. induction l as [|f l IH]; intros after A; [done|]. cbn [valid_facts].
  destruct (A 0%nat f eq_refl) as [Sq V]. rewrite V, bool_decide_true, IH; [done| |lia].
  intros i g G. destruct (A (S i) g G). split; [lia|done].
Qed.

Lemma page_valid after m : blank seat = false -> blank session = false ->
  (0 <= after <= Z.of_nat (length J))%Z -> (Z.of_nat m <= UsagePageLimit)%Z ->
  ((after < Z.of_nat (length J))%Z -> (0 < m)%nat) -> valid_page seat session after UsagePageLimit (page_of after m) = true.
Proof.
  intros Bs Bt A M P. pose proof (j_length _ _ _ Jn) as N. unfold valid_page, page_of. cbn [up_Seat up_SessionID up_Facts up_Next up_More].
  rewrite Bs, Bt, !bool_decide_true by done. cbn [negb andb].
  rewrite (proj2 (Z.leb_le after max_counter)) by lia. cbn [andb].
  set (l := take m (drop (Z.to_nat after) J)).
  assert (length l <= m)%nat by (unfold l; rewrite length_take; lia).
  assert (Z.of_nat (length l) + after <= Z.of_nat (length J))%Z by (unfold l; rewrite length_take, length_drop; lia).
  rewrite (proj2 (Z.leb_le (Z.of_nat (length l)) UsagePageLimit)) by lia.
  rewrite (bool_decide_true (_ = _)) by (rewrite Z.mod_small; [done|unfold max_counter in N; lia]). cbn [andb].
  rewrite valid_facts_at.
  - destruct (bool_decide_reflect (l = [])) as [E|]; [|by rewrite andb_false_r].
    rewrite bool_decide_false; [done|]. rewrite E. cbn. rewrite Z.add_0_r. intros L. specialize (P L).
    apply (f_equal length) in E. unfold l in E. rewrite length_take, length_drop in E. cbn in E. lia.
  - intros i f F. apply lookup_take_Some in F as [F _]. rewrite lookup_drop in F. split; [rewrite (j_seqs _ _ _ Jn _ _ F); lia|].
    eapply (proj1 (journal_fact f _)). Unshelve. by eapply list_elem_of_lookup_2.
Qed.

Lemma journal_ended f g h : f ∈ J -> fact_State f <> "started" -> follows h -> h_calls h !! call_key f = Some g ->
  (fact_Seq f <= fact_Seq g)%Z -> g = f.
Proof.
  intros F E Fo L O. destruct (fo_calls _ Fo _ _ L) as [G K].
  destruct (decide (fact_Seq f = fact_Seq g)) as [|N]; [symmetry; by apply journal_seq|]. exfalso.
  pose proof (j_calls _ _ _ Jn f g F G (journal_key f g F G K) ltac:(lia)) as T. apply transition_new in T. tauto.
Qed.

Section Refresh.
Variable answer : nat -> Z -> option UsagePage.
Hypothesis Hon : honest answer.

(** The handle knows the journal up to its cursor. *)
Record caught_up (h : handle) : Prop := {
  cu_follows : follows h; cu_name : h_name h = seat; cu_cursor : (0 <= h_cursor h <= Z.of_nat (length J))%Z;
  cu_knows : forall f, f ∈ J -> (fact_Seq f <= h_cursor h)%Z -> knows h f }.

Lemma refresh_loop live fuel k h : (forall k i, Forall of_session (live k i)) -> blank seat = false -> blank session = false ->
  caught_up h -> (Z.of_nat (length J) - h_cursor h < Z.of_nat fuel)%Z ->
  exists h', RefreshUsage answer live fuel k h = Some (h', true) /\ caught_up h' /\ h_cursor h' = Z.of_nat (length J).
Proof.
  intros Li Bs Bt. revert k h. induction fuel as [|fuel IH]; intros k h Cu Fl; [destruct (cu_cursor _ Cu); lia|].
  destruct Cu as [Fo Na Cr Kn]. destruct (Hon k (h_cursor h) Cr) as (m & A & M & P). cbn [RefreshUsage]. rewrite A.
  destruct (act_all_follows (live k 0%nat) h (Li k 0%nat) Fo) as (F0 & (C0 & N0) & K0). set (g := act_all _ h) in *.
  rewrite N0, C0, Na, (fo_session _ F0). rewrite page_valid by done. cbn [up_Facts page_of default up_More up_Next].
  set (l := take m (drop (Z.to_nat (h_cursor h)) J)).
  assert (forall f, f ∈ l -> f ∈ J) as I.
  { intros f [i F]%list_elem_of_lookup. apply lookup_take_Some in F as [F _]. rewrite lookup_drop in F. by eapply list_elem_of_lookup_2. }
  destruct (publish_page_follows live k l Li I 1 g F0) as (h' & R & F' & (C' & N') & K' & L'). unfold id. rewrite R. cbn [fst snd].
  set (next := (h_cursor h + Z.of_nat (length l))%Z).
  assert (caught_up (h' <| h_cursor := next |>)) as Cu.
  { split.
    - destruct F' as [E N S C]. by split.
    - change (h_name h' = seat). congruence.
    - change (0 <= next <= Z.of_nat (length J))%Z. unfold next, l. rewrite length_take, length_drop. lia.
    - intros f F O. change (knows h' f). change (fact_Seq f <= next)%Z in O.
      destruct (decide (fact_Seq f <= h_cursor h)%Z) as [Q|Q]; [by apply K', K0, Kn|]. apply L'.
      apply list_elem_of_lookup in F as [i F]. pose proof (j_seqs _ _ _ Jn i f F) as Sq. unfold next in O.
      apply (list_elem_of_lookup_2 _ (i - Z.to_nat (h_cursor h))). unfold l. rewrite lookup_take_lt, lookup_drop.
      + rewrite <- F. f_equal. lia.
      + assert (length l <= m)%nat by (unfold l; rewrite length_take; lia). lia. }
  destruct (bool_decide_reflect (next < Z.of_nat (length J))%Z) as [Lt|Ge].
  - apply IH; [done|]. change (Z.of_nat (length J) - next < Z.of_nat fuel)%Z.
    assert (0 < length l)%nat; [|unfold next; lia]. unfold l. rewrite length_take, length_drop. unfold next in Lt. lia.
  - eexists. split; [done|]. split; [done|]. change (next = Z.of_nat (length J)). destruct (cu_cursor _ Cu) as [_ U].
    change (next <= Z.of_nat (length J))%Z in U. lia.
Qed.

(** A usage error stays. *)
Lemma act_keeps_error a h : h_err h = true -> h_err (act h a) = true.
Proof.
  destruct a as [e|s]; [|done]. intros E. cbn [act]. unfold publish.
  assert (forall u g, h_err g = true -> h_err (count_usage u g) = true) as Cu.
  { intros u g. by rewrite (proj1 (count_usage_same u g)). }
  destruct (ue_fact e) as [f|]; [|apply Cu; by destruct (decide _)]. destruct (applyUsageFact f h) as [[g [u|]]|] eqn:A; [| |done].
  1: apply Cu; destruct (decide _); [done|].
  all: unfold applyUsageFact in A; repeat (destruct (negb _ && _) in A || destruct (negb _) in A); try done;
    destruct (ValidateUsageTransition _ _) as [[]|]; try done; try (destruct (mbind _ _); [|done]); by injection A as <-.
Qed.
Lemma act_all_keeps_error l h : h_err h = true -> h_err (act_all l h) = true.
Proof. revert h. induction l as [|a l IH]; intros h E; [done|]. by apply IH, act_keeps_error. Qed.

Lemma refresh_after_error live fuel k h : h_err h = true -> (0 <= h_cursor h < Z.of_nat (length J))%Z ->
  exists h', RefreshUsage answer live (S fuel) k h = Some (h', false).
Proof.
  intros E Cr. destruct (Hon k (h_cursor h) ltac:(lia)) as (m & A & _ & P). cbn [RefreshUsage]. rewrite A.
  destruct (valid_page _ _ _ _ _); [|by eexists]. cbn [up_Facts page_of default]. unfold id.
  destruct (take m (drop (Z.to_nat (h_cursor h)) J)) as [|f l] eqn:T.
  - apply (f_equal length) in T. rewrite length_take, length_drop in T. cbn in T. lia.
  - cbn [publish_page]. pose proof (act_keeps_error (Publishes (fact_event f)) (act_all (live k 1%nat) (act_all (live k 0%nat) h))) as Er.
    cbn [act] in Er. rewrite Er by by do 2 apply act_all_keeps_error. by eexists.
Qed.
End Refresh.
End Journal.

(** C30: A handle that has had no usage error, that is of the journal's seat and
    session, keeps that session meanwhile, and knows the journal up to its cursor,
    catches up: a refresh whose pages are all answered, as the journal has them, ends
    without an error at the end of the journal, whatever of the journal reaches the
    handle meanwhile in whatever order and however often, and after at most as many
    pages as there are facts and one; the handle then has, of each call in the journal,
    a fact as new as any, and for one that ended its end. A handle that has had a usage
    error and is behind the journal fails its refresh, whatever else reaches it. *)
Theorem a_refresh_catches_up seat session J answer live h :
  journal seat session J -> blank seat = false -> blank session = false -> honest seat session J answer ->
  (forall k i, Forall (of_session session J) (live k i)) ->
  (caught_up seat session J h ->
     exists h', RefreshUsage answer live (S (length J)) 0 h = Some (h', true)
       /\ h_err h' = false /\ h_cursor h' = Z.of_nat (length J)
       /\ (forall k g, h_calls h' !! k = Some g -> g ∈ J)
       /\ forall f, f ∈ J -> knows h' f /\ (fact_State f <> "started" -> h_calls h' !! call_key f = Some f))
  /\ (h_err h = true -> (0 <= h_cursor h < Z.of_nat (length J))%Z ->
        forall live k, exists h', RefreshUsage answer live (S (length J)) k h = Some (h', false)).
Proof.
  intros Jn Bs Bt Hon Li. split; [|by intros E C live' k; apply (refresh_after_error seat session J)].
  intros Cu. destruct (cu_cursor _ _ _ _ Cu) as [C0 C1].
  destruct (refresh_loop seat session J Jn answer Hon live (S (length J)) 0 h Li Bs Bt Cu ltac:(lia)) as (h' & R & Cu' & E).
  exists h'. split; [done|]. split; [apply (cu_follows _ _ _ _ Cu')|]. split; [done|].
  split; [intros k g G; apply (fo_calls _ _ _ _ (cu_follows _ _ _ _ Cu') _ _ G)|].
  intros f F. assert (knows h' f) as K.
  { apply (cu_knows _ _ _ _ Cu' f F). rewrite E. apply list_elem_of_lookup in F as [i F].
    rewrite (j_seqs _ _ _ Jn i f F). apply lookup_lt_Some in F. lia. }
  split; [done|]. intros N. destruct K as (g & L & O). by rewrite <- (journal_ended seat session J Jn f g h' F N (cu_follows _ _ _ _ Cu') L O) at 2.
Qed.

End Counting.

(** ** The ledger *)

Section Ledger.
Context `{Rfc3339Nano, FloatText}.

(** A row is the fact's. *)
Definition holds (f : UsageFact) (r : fact_row) : Prop :=
  valid_fact f = true /\ c_plain UsageFact_json f /\ exists j, c_out UsageFact_json f = Some j /\ r = row_of f j.
Definition ledger (L : list UsageFact) (db : UsageDB) : Prop := Forall2 holds L (ud_facts db).

Definition same_session (f g : UsageFact) : Prop := fact_Seat f = fact_Seat g /\ fact_SessionID f = fact_SessionID g.

(** Two facts that may stand beside each other: of one session they have different
    numbers and, of one call, the older starts what the newer ends. *)
Definition compatible (f g : UsageFact) : Prop :=
  same_session f g -> fact_Seq f <> fact_Seq g
  /\ (fact_CallID f = fact_CallID g ->
      (fact_Seq f < fact_Seq g)%Z /\ ValidateUsageTransition (Some f) (Some g) = Some true
      \/ (fact_Seq g < fact_Seq f)%Z /\ ValidateUsageTransition (Some g) (Some f) = Some true).
Definition coherent (L : list UsageFact) : Prop := ForallOrdPairs compatible L.

Lemma plain_seq f : c_plain UsageFact_json f -> (0 <= fact_Seq f < 2 ^ 64)%Z.
Proof.
  intros P. assert (must "seq" uint64 fact_Seq ∈ UsageFact_fields) as I by (unfold UsageFact_fields; rewrite !elem_of_cons; tauto).
  pose proof (proj1 (list.Forall_forall _ _) P _ I) as Q. cbn in Q. lia.
Qed.

Lemma row_read f r : holds f r -> of_json UsageFact_json (fr_json r) = Some f.
Proof.
  intros (_ & P & j & O & ->). cbn [fr_json row_of]. pose proof (saved_fact f P) as S. by rewrite O in S.
Qed.

Lemma transition_older_first p f : (fact_Seq p < fact_Seq f)%Z -> ValidateUsageTransition (Some p) (Some f) <> None ->
  ValidateUsageTransition (Some p) (Some f) = Some true.
Proof.
  intros L. cbn. destruct (valid_fact f); [|done]. destruct (valid_fact p); [|done]. cbn [negb].
  destruct (same_fact (identity p) (identity f)); [|done]. cbn [negb].
  rewrite decide_False by lia. rewrite (proj2 (Z.ltb_ge _ _)) by lia. by destruct (_ || _).
Qed.

(** What a fact that is checked against some rows may stand beside. *)
Lemma check_rows_spec f L rows dup b : Forall2 holds L rows -> check_rows f rows dup = Some b ->
  (b = false -> dup = false /\ forall g, g ∈ L -> fact_Seq f <> fact_Seq g
     /\ ((fact_Seq f < fact_Seq g)%Z /\ ValidateUsageTransition (Some f) (Some g) = Some true
         \/ (fact_Seq g < fact_Seq f)%Z /\ ValidateUsageTransition (Some g) (Some f) = Some true))
  /\ (b = true -> dup = true \/ exists g, g ∈ L /\ fact_Seq g = fact_Seq f).
Proof.
  intros Fa. revert dup. induction Fa as [|g r L rows Ho _ IH]; intros dup; cbn [check_rows].
  - intros [= <-]. split; [|auto]. intros D. split; [done|]. intros g G. by apply elem_of_nil in G.
  - rewrite (row_read g r Ho). destruct (Z.ltb_spec (fact_Seq f) (fact_Seq g)) as [Lt|Ge];
      (destruct (ValidateUsageTransition _ _) as [t|] eqn:T; [|done]); intros C; destruct (IH _ C) as [If It]; split; intros ->.
    + destruct (If eq_refl) as [[D _]%orb_false_iff A]. split; [done|]. intros x [-> |X]%elem_of_cons; [|by apply A].
      split; [lia|]. left. split; [lia|]. apply transition_older_first; [lia|by rewrite T].
    + destruct (It eq_refl) as [[D|D%bool_decide_eq_true]%orb_true_iff|(x & X & E)]; [by left|lia|right].
      exists x. rewrite elem_of_cons. auto.
    + destruct (If eq_refl) as [[D N%bool_decide_eq_false]%orb_false_iff A]. split; [done|]. intros x [-> |X]%elem_of_cons; [|by apply A].
      split; [lia|]. right. split; [lia|]. apply transition_older_first; [lia|by rewrite T].
    + destruct (It eq_refl) as [[D|D%bool_decide_eq_true]%orb_true_iff|(x & X & E)]; [by left| |].
      * right. exists g. rewrite elem_of_cons. auto.
      * right. exists x. rewrite elem_of_cons. auto.
Qed.

(** The rows that match, with their facts. *)
Lemma matching f L rows : Forall2 holds L rows ->
  exists M, Forall2 holds M (List.filter (row_matches f) rows)
    /\ (forall g, g ∈ M -> g ∈ L /\ same_session f g)
    /\ forall g, g ∈ L -> same_session f g -> fact_Seq f = fact_Seq g \/ fact_CallID f = fact_CallID g -> g ∈ M.
Proof.
  intros Fa. induction Fa as [|g r L rows Ho _ (M & FM & Sub & Sup)].
  - exists []. split_and!; [done|intros g G; by apply elem_of_nil in G|intros g G; by apply elem_of_nil in G].
  - cbn [List.filter]. pose proof Ho as (_ & _ & j & _ & E). destruct (row_matches f r) eqn:R.
    + exists (g :: M). split_and!; [by constructor| |].
      * intros x [-> |X]%elem_of_cons; [|destruct (Sub x X); split; [by right|done]]. split; [by left|].
        rewrite E in R. unfold row_matches in R. cbn in R. bools. by split.
      * intros x [-> |X]%elem_of_cons Se Q; [by left|right; by apply Sup].
    + exists M. split_and!; [done|intros x X; destruct (Sub x X); split; [by right|done]|].
      intros x [-> |X]%elem_of_cons Se Q; [|by apply Sup]. exfalso. rewrite E in R. unfold row_matches in R. cbn in R.
      destruct Se as [S1 S2]. rewrite S1, S2, !bool_decide_true in R by done. cbn [andb] in R.
      apply orb_false_iff in R as [R1%bool_decide_eq_false R2%bool_decide_eq_false].
      destruct Q as [Q|Q]; [apply R1; by rewrite Q|by apply R2].
Qed.

Lemma compatible_sym f g : compatible f g -> compatible g f.
Proof. intros C [S1 S2]. destruct (C (conj (eq_sym S1) (eq_sym S2))) as [N Q]. split; [done|]. intros E. specialize (Q (eq_sym E)). tauto. Qed.

Lemma coherent_snoc L f : coherent L -> (forall g, g ∈ L -> compatible g f) -> coherent (L ++ [f]).
Proof.
  intros C A. induction C as [|g L G C IH]; [by repeat constructor|]. cbn. constructor.
  - apply Forall_app. split; [done|]. constructor; [|done]. apply A. by left.
  - apply IH. intros x X. apply A. by right.
Qed.

Lemma insert_fact_free L db f : ledger L db -> c_plain UsageFact_json f ->
  (forall g, g ∈ L -> same_session f g -> fact_Seq f <> fact_Seq g) -> existsb (same_place f) (ud_facts db) = false.
Proof.
  intros Fa P N. apply not_true_is_false. intros (r & R & S)%existsb_exists. apply list_elem_of_In in R.
  apply list_elem_of_lookup in R as [i R]. destruct (Forall2_lookup_r _ _ _ _ _ Fa R) as (g & G & V & Pg & k & _ & ->).
  apply list_elem_of_lookup_2 in G. unfold same_place in S. cbn in S. bools.
  apply (N g G); [by split|]. symmetry. apply wrap64_inj; [by apply plain_seq|by apply plain_seq|done].
Qed.

(** What one fact makes of the table. *)
Lemma publish_fact_spec query exec f L db : ledger L db -> coherent L -> c_plain UsageFact_json f ->
  let r := publish_fact query exec f db in
  ud_receipts r.1 = ud_receipts db
  /\ (ledger L r.1 /\ (r.2 = true -> exists g, g ∈ L /\ same_session f g /\ fact_Seq g = fact_Seq f)
      \/ r.2 = true /\ ledger (L ++ [f]) r.1 /\ coherent (L ++ [f])).
Proof.
  intros Fa C P. cbn zeta. unfold publish_fact. destruct (valid_fact f) eqn:V; cbn [negb]; [|by (split; [done|left])].
  destruct query; cbn [negb]; [|by (split; [done|left])].
  destruct (matching f L _ Fa) as (M & FM & Sub & Sup).
  destruct (check_rows f _ false) as [b|] eqn:Ch; [|by (split; [done|left])].
  destruct (check_rows_spec f M _ false b FM Ch) as [If It]. destruct b.
  - split; [done|]. left. split; [done|]. intros _. destruct (It eq_refl) as [|(g & G & E)]; [done|].
    exists g. destruct (Sub g G). auto.
  - destruct (If eq_refl) as [_ A]. destruct (out_in (c := UsageFact_json) f P) as (j & O & _ & _). rewrite O.
    assert (forall g, g ∈ L -> same_session f g -> fact_Seq f <> fact_Seq g) as Fr.
    { intros g G Se E. apply (A g); [apply Sup; auto|done]. }
    unfold insert_fact. rewrite (insert_fact_free L db f Fa P Fr). cbn [negb]. rewrite andb_true_r.
    unfold Control.ExecOwned. cbn [fst snd]. change (negb _) with false. cbv iota.
    destruct exec; cbn [fst snd]; [|by (split; [done|left])]. split; [done|]. right. split; [done|]. split.
    + apply Forall2_app; [exact Fa|]. constructor; [|constructor]. split; [done|]. split; [done|]. by exists j.
    + apply coherent_snoc; [done|]. intros g G. apply compatible_sym. intros Se. split; [by apply Fr|]. intros E.
      apply A. apply Sup; auto.
Qed.

Lemma publish_facts_spec runs facts : Forall (c_plain UsageFact_json) facts -> forall i L db, ledger L db -> coherent L ->
  let r := publish_facts runs i facts db in
  exists new, ledger (L ++ new) r.1 /\ coherent (L ++ new) /\ (forall f, f ∈ new -> f ∈ facts)
    /\ (r.2 = true -> forall f, f ∈ facts -> exists g, g ∈ L ++ new /\ same_session f g /\ fact_Seq g = fact_Seq f).
Proof.
  intros P. induction P as [|f facts Pf P IH]; intros i L db Fa C; cbn zeta; cbn [publish_facts].
  - exists []. rewrite app_nil_r. split_and!; [done..|]. intros _ f F. by apply elem_of_nil in F.
  - destruct (publish_fact_spec (runs i).1 (runs i).2 f L db Fa C Pf) as [_ [[Fa' K]|(E & Fa' & C')]].
    + destruct (publish_fact (runs i).1 (runs i).2 f db) as [db' []]; cbn [fst snd] in *.
      * destruct (IH (S i) L db' Fa' C) as (new & A & B & I & Q). exists new. split_and!; [done|done| |].
        -- intros x X. right. by apply I.
        -- intros R x [-> |X]%elem_of_cons; [|by apply Q]. destruct (K eq_refl) as (g & G & Se). exists g. rewrite elem_of_app. auto.
      * exists []. rewrite app_nil_r. split_and!; [done|done|intros x X; by apply elem_of_nil in X|done].
    + destruct (publish_fact (runs i).1 (runs i).2 f db) as [db' b]; cbn [fst snd] in *. subst b.
      destruct (IH (S i) _ db' Fa' C') as (new & A & B & I & Q). exists (f :: new). rewrite <- app_assoc in A, B, Q. split_and!; [done|done| |].
      * intros x [-> |X]%elem_of_cons; [by left|right; by apply I].
      * intros R x [-> |X]%elem_of_cons; [|by apply Q]. exists f. rewrite elem_of_app. split; [right; by left|by repeat split].
Qed.

(** *** The facts of one journal *)

Section OneJournal.
Variables (seat session : string) (J : list UsageFact).
Hypothesis Jn : journal seat session J.

Lemma journal_session f g : f ∈ J -> g ∈ J -> same_session f g.
Proof.
  intros F G. destruct (identity_names _ _ _ (proj1 (journal_fact _ _ _ Jn f F))) as (Sf & Tf & _).
  destruct (identity_names _ _ _ (proj1 (journal_fact _ _ _ Jn g G))) as (Sg & Tg & _). split; congruence.
Qed.

Lemma check_rows_journal f M rows dup : Forall2 holds M rows -> f ∈ J ->
  (forall g, g ∈ M -> g ∈ J /\ (fact_Seq f = fact_Seq g \/ fact_CallID f = fact_CallID g)) -> check_rows f rows dup <> None.
Proof.
  intros Fa F. revert dup. induction Fa as [|g r M rows Ho _ IH]; intros dup A; [done|]. cbn [check_rows].
  rewrite (row_read g r Ho). destruct (A g ltac:(by left)) as [G Q].
  assert (fact_CallID f = fact_CallID g) as E by (destruct Q as [Q|Q]; [by rewrite (journal_seq _ _ _ Jn f g F G Q)|done]).
  destruct (fact_Seq f <? fact_Seq g)%Z; rewrite (journal_transition seat session J Jn) by done; apply IH; intros x X; apply A; by right.
Qed.

Lemma publish_fact_journal f L db : ledger L db -> coherent L -> (forall g, g ∈ L -> g ∈ J) -> f ∈ J ->
  (publish_fact true true f db).2 = true.
Proof.
  intros Fa C Sub F. destruct (journal_fact _ _ _ Jn f F) as [V P]. unfold publish_fact.
  rewrite (identity_valid _ _ _ V). cbn [negb].
  assert (exists M, Forall2 holds M (List.filter (row_matches f) (ud_facts db))
    /\ forall g, g ∈ M -> g ∈ J /\ (fact_Seq f = fact_Seq g \/ fact_CallID f = fact_CallID g)) as (M & FM & A).
  { clear C. unfold ledger in Fa. induction Fa as [|g r L rows Ho _ IH]; [exists []; split; [done|intros x X; by apply elem_of_nil in X]|].
    destruct IH as (M & FM & A); [intros x X; apply Sub; by right|]. cbn [List.filter]. destruct (row_matches f r) eqn:R; [|by exists M].
    exists (g :: M). split; [by constructor|]. intros x [-> |X]%elem_of_cons; [|by apply A]. split; [apply Sub; by left|].
    pose proof (Sub g ltac:(by left)) as G. destruct Ho as (_ & Pg & j & _ & ->). unfold row_matches in R. cbn in R. bools.
    apply orb_true_iff in R as [R|R]; bools; [left|by right]. symmetry. by apply wrap64_inj; [apply plain_seq..|]. }
  destruct (check_rows f _ false) as [b|] eqn:Ch; [|by apply (check_rows_journal f M _ false FM F A) in Ch].
  destruct b; [done|]. destruct (out_in (c := UsageFact_json) f P) as (j & -> & _). unfold insert_fact.
  rewrite (insert_fact_free L db f Fa P); [done|]. intros g G _ E.
  pose proof (journal_seq _ _ _ Jn f g F (Sub g G) E) as <-.
  destruct (matching f L _ Fa) as (M' & FM' & _ & Sup).
  destruct (check_rows_spec f M' _ false false FM' Ch) as [If _]. destruct (If eq_refl) as [_ N].
  destruct (N f) as [N' _]; [apply Sup; [done|by split|by left]|done].
Qed.

Lemma publish_facts_journal facts : (forall f, f ∈ facts -> f ∈ J) -> forall i L db, ledger L db -> coherent L -> (forall g, g ∈ L -> g ∈ J) ->
  (publish_facts (fun _ => (true, true)) i facts db).2 = true.
Proof.
  intros I. induction facts as [|f facts IH]; intros i L db Fa C Sub; [done|]. cbn [publish_facts fst snd].
  pose proof (I f ltac:(by left)) as F. rewrite (publish_fact_journal f L db) by done.
  destruct (publish_fact_spec true true f L db Fa C (proj2 (journal_fact _ _ _ Jn f F))) as [_ [[Fa' _]|(_ & Fa' & C')]].
  - by apply (IH (fun g G => I g (list_elem_of_further _ _ _ G)) (S i) L).
  - apply (IH (fun g G => I g (list_elem_of_further _ _ _ G)) (S i) (L ++ [f])); [done|done|].
    intros g [G|G%list_elem_of_singleton]%elem_of_app; [by apply Sub|by subst].
Qed.
End OneJournal.

(** What batches make of an empty table. *)
Definition batch : Type := (nat -> bool * bool) * list UsageFact.
Definition publish_batches (bs : list batch) (db : UsageDB) : UsageDB := foldl (fun db b => (PublishUsageFacts b.1 b.2 db).1) db bs.
Definition no_rows : UsageDB := MkUsageDB [] ∅.

Lemma batches_ledger (bs : list batch) : Forall (fun b : batch => Forall (c_plain UsageFact_json) b.2) bs ->
  exists L, ledger L (publish_batches bs no_rows) /\ coherent L /\ (forall f, f ∈ L -> exists b, b ∈ bs /\ f ∈ b.2).
Proof.
  intros P. induction bs as [|b bs IH] using rev_ind; [exists []; split_and!; [by constructor|by constructor|intros f F; by apply elem_of_nil in F]|].
  apply Forall_app in P as [P Pb]. destruct (IH P) as (L & Fa & C & I). inversion_clear Pb as [|x y Pb' _].
  destruct (publish_facts_spec b.1 b.2 Pb' 0 L _ Fa C) as (new & Fa' & C' & I' & _).
  exists (L ++ new). unfold publish_batches in *. rewrite foldl_app. split_and!; [done|done|].
  intros f [F|F]%elem_of_app.
  - destruct (I f F) as (x & X & Y). exists x. rewrite elem_of_app. auto.
  - exists b. split; [|by apply I']. rewrite elem_of_app. right. by apply list_elem_of_singleton.
Qed.

Lemma coherent_nodup L : coherent L -> NoDup L.
Proof.
  intros C. induction C as [|f L F C IH]; [constructor|]. constructor; [|done]. intros I.
  by destruct (proj1 (list.Forall_forall _ _) F f I (conj eq_refl eq_refl)).
Qed.

Definition always : nat -> bool * bool := fun _ => (true, true).

Lemma journal_ledger seat session J (bs : list batch) : journal seat session J ->
  (forall b, b ∈ bs -> b.1 = always /\ forall f, f ∈ b.2 -> f ∈ J) ->
  exists L, ledger L (publish_batches bs no_rows) /\ coherent L /\ forall f, f ∈ L <-> exists b, b ∈ bs /\ f ∈ b.2.
Proof.
  intros Jn. induction bs as [|b bs IH] using rev_ind; intros A.
  - exists []. split_and!; [by constructor|by constructor|]. intros f. split; [intros F; by apply elem_of_nil in F|].
    intros (b & B & _). by apply elem_of_nil in B.
  - destruct IH as (L & Fa & C & I); [intros x X; apply A; rewrite elem_of_app; by left|].
    destruct (A b) as [R Sub]; [rewrite elem_of_app; right; by apply list_elem_of_singleton|].
    assert (forall g, g ∈ L -> g ∈ J) as SubL.
    { intros g (x & X & G)%I. apply (A x); [rewrite elem_of_app; by left|done]. }
    assert (Forall (c_plain UsageFact_json) b.2) as P.
    { apply list.Forall_forall. intros f F. by apply (journal_fact _ _ _ Jn f (Sub f F)). }
    destruct (publish_facts_spec b.1 b.2 P 0 L _ Fa C) as (new & Fa' & C' & I' & Q).
    exists (L ++ new). unfold publish_batches in *. rewrite foldl_app. split_and!; [done|done|]. intros f. split.
    + intros [F|F]%elem_of_app; [destruct (proj1 (I f) F) as (x & X & Y); exists x; rewrite elem_of_app; auto|].
      exists b. split; [rewrite elem_of_app; right; by apply list_elem_of_singleton|by apply I'].
    + intros (x & [X|X%list_elem_of_singleton]%elem_of_app & F); [rewrite elem_of_app; left; apply I; eauto|]. subst x.
      rewrite R in Q. destruct (Q (publish_facts_journal _ _ _ Jn b.2 Sub 0 L _ Fa C SubL) f F) as (g & G & _ & E).
      assert (g ∈ J) as Gj by (apply elem_of_app in G as [G|G]; [by apply SubL|by apply Sub, I']).
      by rewrite <- (journal_seq _ _ _ Jn g f Gj (Sub f F) E).
Qed.

(** C31: Whatever is published to the table of usage facts, in whatever batches and
    whatever of it fails, its rows are valid facts that were published, no two of one
    session have one number, and of a call there is at most one that starts it and one,
    later, that ends it. Of what is published of one journal, in whatever order and
    however often, the table holds each fact once, and none of it is ever refused. *)
Theorem a_ledger_is_its_journal (bs : list batch) :
  Forall (fun b : batch => Forall (c_plain UsageFact_json) b.2) bs ->
  let db := publish_batches bs no_rows in
  (exists L, ledger L db /\ coherent L /\ forall f, f ∈ L -> exists b, b ∈ bs /\ f ∈ b.2)
  /\ forall seat session J, journal seat session J -> (forall b, b ∈ bs -> b.1 = always /\ forall f, f ∈ b.2 -> f ∈ J) ->
     exists L, ledger L db /\ NoDup L /\ (forall f, f ∈ L <-> exists b, b ∈ bs /\ f ∈ b.2)
       /\ forall facts, (forall f, f ∈ facts -> f ∈ J) -> (PublishUsageFacts always facts db).2 = true.
Proof.
  intros P. cbn zeta. split; [by apply batches_ledger|]. intros seat session J Jn A.
  destruct (journal_ledger seat session J bs Jn A) as (L & Fa & C & I). exists L.
  split_and!; [done|by apply coherent_nodup|done|]. intros facts Sub.
  apply (publish_facts_journal _ _ _ Jn facts Sub 0 L); [done|done|]. intros g (b & B & G)%I. by apply (A b B).
Qed.

End Ledger.

(** ** Settling *)

(** Times of the years 1 to 9999, but for two days at each end, have texts in every
    zone and are read from them. *)
Definition has_text (t : Time) : Prop := (172800 * Second <= t < (315537897600 - 172800) * Second)%Z.
Class Rfc3339NanoLaws `{Rfc3339Nano} := {
  nano_text t : to_utf8 (format_nano t) = format_nano t;
  nano_some t : format_nano t <> "";
  like_text s t : to_utf8 (format_like s t) = format_like s t;
  nano_back t : has_text t -> parse_nano (format_nano t) = Some t;
  like_back s u t : parse_nano s = Some u -> has_text t -> parse_nano (format_like s t) = Some t }.

Section Settling.
Context `{Rfc3339NanoLaws, FloatText}.

(** A row is of a valid receipt, under its key and in its state. *)
Definition receipt_held (k : string * string * string) (r : receipt_row) : Prop :=
  exists x, k = receipt_key x /\ rw_state r = rr_State x /\ valid_receipt (rr_Seat x) (rr_SessionID x) (rr_RequestID x) x = true
    /\ c_plain RequestReceipt_json x /\ c_out RequestReceipt_json x = Some (rw_json r).
Definition receipts_held (db : UsageDB) : Prop := map_Forall receipt_held (ud_receipts db).

Lemma receipt_read k r : receipt_held k r -> exists x, of_json RequestReceipt_json (rw_json r) = Some x /\ k = receipt_key x
  /\ rw_state r = rr_State x /\ valid_receipt (rr_Seat x) (rr_SessionID x) (rr_RequestID x) x = true /\ c_plain RequestReceipt_json x.
Proof.
  intros (x & K & S & V & P & O). exists x. split; [|done]. destruct (out_in (c := RequestReceipt_json) x P) as (j & Oj & _ & I).
  unfold of_json. rewrite O in Oj. injection Oj as <-. by rewrite I.
Qed.

(** Publishing a receipt: it is the row of its key, or nothing changes. *)
Lemma PublishReceipt_spec exec x db : c_plain RequestReceipt_json x -> receipts_held db ->
  let r := PublishReceipt exec x db in
  receipts_held r.1
  /\ if r.2 then exists j, r.1 = db <| ud_receipts ::= <[receipt_key x := MkReceiptRow (rr_State x) j]> |> else r.1 = db.
Proof.
  intros P Hd. cbn zeta. unfold PublishReceipt. destruct (valid_receipt _ _ _ x) eqn:V; cbn [negb]; [|done].
  destruct (out_in (c := RequestReceipt_json) x P) as (j & O & _ & _). rewrite O. unfold Control.ExecOwned.
  change (negb _) with false. cbv iota. destruct exec; cbn [fst snd]; [|done]. split; [|by exists j].
  intros k r. change (<[receipt_key x := MkReceiptRow (rr_State x) j]> (ud_receipts db) !! k = Some r -> receipt_held k r).
  intros [[<- <-]|[_ L]]%lookup_insert_Some; [|by apply Hd]. by exists x.
Qed.

Lemma plain_cancelled reason now x : c_plain RequestReceipt_json x -> to_utf8 reason = reason ->
  c_plain RequestReceipt_json (cancelled reason now x).
Proof.
  intros P R. assert (to_utf8 (rr_UpdatedAt (cancelled reason now x)) = rr_UpdatedAt (cancelled reason now x)) as U.
  { unfold cancelled. cbn. destruct (parse_nano (rr_UpdatedAt x)); [destruct (Before _ _)|]; first [apply nano_text|apply like_text]. }
  revert P. unfold RequestReceipt_json, struct, c_plain, RequestReceipt_fields.
  rewrite !list.Forall_cons. intros (P1 & P2 & P3 & _ & P5 & P6 & _ & _ & P9 & _ & _).
  split_and!; [exact P1|exact P2|exact P3|reflexivity|exact P5|exact P6|reflexivity| |exact P9| |constructor];
    cbn [may fd_omit fd_get fd_codec andb c_empty text c_plain c_zero].
  - change (rr_Reason (cancelled reason now x)) with reason. destruct (bool_decide_reflect (reason = "")); [done|exact R].
  - destruct (bool_decide_reflect (rr_UpdatedAt (cancelled reason now x) = "")); [done|exact U].
Qed.

(** When a receipt was last updated, and when its cancellation says it was. *)
Definition updated (x : RequestReceipt) (t : Time) : Prop := parse_nano (rr_UpdatedAt x) = Some t.

Lemma cancelled_later reason now x t : updated x t -> has_text now -> has_text (t + 1)%Z ->
  exists u, updated (cancelled reason now x) u /\ (t < u)%Z.
Proof.
  unfold updated, cancelled. intros T N Nt. cbn. rewrite T. unfold Before. destruct (Z.ltb_spec t now).
  - exists now. by rewrite nano_back.
  - exists (t + 1)%Z. rewrite (like_back _ t) by done. split; [done|lia].
Qed.

Lemma valid_started x t : rr_State x = ReceiptStarted -> valid_receipt (rr_Seat x) (rr_SessionID x) (rr_RequestID x) x = true ->
  updated x t -> has_text (t + 1)%Z -> forall reason now, has_text now ->
  let y := cancelled reason now x in valid_receipt (rr_Seat y) (rr_SessionID y) (rr_RequestID y) y = true.
Proof.
  intros S V T Nt reason now N. destruct (cancelled_later reason now x t T N Nt) as (u & U & L). cbn zeta.
  unfold valid_receipt in *. rewrite S in V. rewrite (bool_decide_true (rr_Seat x = _)), (bool_decide_true (rr_SessionID x = _)),
    (bool_decide_true (rr_RequestID x = _)) in V by done. rewrite !bool_decide_true by done.
  cbn [andb decide ReceiptStarted ReceiptUnknown] in *. rewrite decide_False in V by done. unfold updated in T, U. rewrite T in V. rewrite U.
  cbn in V. rewrite decide_False by done. cbn. destruct (blank (rr_AttemptID x)); [done|]. cbn in *.
  destruct (parse_nano (rr_AcceptedAt x)) as [a|]; [|done]. destruct (rr_TurnIDs x) as [turns|]; [|done].
  unfold Before in *. destruct (Z.ltb_spec t a); [done|]. destruct (Z.ltb_spec u a); [lia|]. cbn in *.
  destruct (distinct_ok _ _ _ turns); [|done]. cbn in *. by destruct (bool_decide (turns = [])).
Qed.

(** A receipt that was started, and its cancellation: of the same request, with the
    reason, and later than both the last update and now, where these times have texts. *)
Record cancellation (reason : string) (now : Time) (x y : RequestReceipt) : Prop := {
  cl_state : rr_State y = "cancelled"; cl_cause : rr_Cause y = "cancellation"; cl_reason : rr_Reason y = reason;
  cl_request : rr_Seat y = rr_Seat x /\ rr_SessionID y = rr_SessionID x /\ rr_RequestID y = rr_RequestID x;
  cl_attempt : rr_AttemptID y = rr_AttemptID x /\ rr_TurnIDs y = rr_TurnIDs x /\ rr_AcceptedAt y = rr_AcceptedAt x;
  cl_later : exists t, updated x t /\ (has_text now -> has_text (t + 1)%Z -> updated y (Z.max now (t + 1))) }.

Definition settled (reason : string) (now : Time) (r r' : receipt_row) : Prop :=
  rw_state r' = "cancelled" /\ exists x y, of_json RequestReceipt_json (rw_json r) = Some x
    /\ of_json RequestReceipt_json (rw_json r') = Some y /\ cancellation reason now x y.

Lemma started_updated x : rr_State x = ReceiptStarted -> valid_receipt (rr_Seat x) (rr_SessionID x) (rr_RequestID x) x = true ->
  exists t, updated x t.
Proof.
  intros S V. unfold valid_receipt in V. rewrite (decide_False (P := rr_State x = ReceiptUnknown)) in V by by rewrite S. unfold updated.
  destruct (parse_nano (rr_UpdatedAt x)) as [t|]; [by exists t|]. bools. by destruct (parse_nano (rr_AcceptedAt x)).
Qed.

Lemma cancelled_is reason now x : rr_State x = ReceiptStarted -> valid_receipt (rr_Seat x) (rr_SessionID x) (rr_RequestID x) x = true ->
  cancellation reason now x (cancelled reason now x).
Proof.
  intros S V. split; [done..|]. destruct (started_updated x S V) as [t T]. exists t. split; [done|]. intros N Nt.
  unfold updated, cancelled in *. cbn. rewrite T. unfold Before. destruct (Z.ltb_spec t now).
  - rewrite Z.max_l by lia. by rewrite nano_back.
  - rewrite Z.max_r by lia. by rewrite (like_back _ t).
Qed.

Lemma lookup_receipt (k : string * string * string) r db k' :
  ud_receipts (db <| ud_receipts ::= <[k := r]> |>) !! k' = if decide (k = k') then Some r else ud_receipts db !! k'.
Proof.
  change (<[k := r]> (ud_receipts db) !! k' = if decide (k = k') then Some r else ud_receipts db !! k').
  destruct (decide (k = k')) as [-> |N]; [apply lookup_insert_eq|by apply lookup_insert_ne].
Qed.

(** One row: it is settled, or the call ends there with an error. *)
Lemma settle_one exec reason now k r x db : receipts_held db -> to_utf8 reason = reason -> receipt_held k r -> rw_state r = ReceiptStarted ->
  of_json RequestReceipt_json (rw_json r) = Some x -> ud_receipts db !! k = Some r ->
  let w := PublishReceipt (exec (receipt_key x)) (cancelled reason now x) db in
  receipts_held w.1 /\ (forall k', k' <> k -> ud_receipts w.1 !! k' = ud_receipts db !! k')
  /\ (if w.2 then exists r', ud_receipts w.1 !! k = Some r' /\ settled reason now r r' else w.1 = db).
Proof.
  intros Hd R Hr Sr X L. cbn zeta. destruct (receipt_read k r Hr) as (y & Y & -> & S & V & P). rewrite X in Y. injection Y as <-.
  pose proof (plain_cancelled reason now x P R) as Pc.
  destruct (PublishReceipt_spec (exec (receipt_key x)) _ db Pc Hd) as [Hd' Q]. split; [done|].
  destruct (PublishReceipt _ _ db) as [db' []] eqn:E; cbn [fst snd] in *; [|by subst].
  destruct Q as [j ->]. change (receipt_key (cancelled reason now x)) with (receipt_key x) in *.
  change (rr_State (cancelled reason now x)) with ReceiptCancelled in *. split.
  - intros k' N. by rewrite lookup_receipt, decide_False.
  - eexists. split; [by rewrite lookup_receipt, decide_True|]. split; [done|]. exists x, (cancelled reason now x). split; [done|].
    split; [|apply cancelled_is; [congruence|done]].
    unfold PublishReceipt in E. destruct (negb _); [done|].
    destruct (out_in (c := RequestReceipt_json) _ Pc) as (j' & O & _ & I). rewrite O in E. unfold Control.ExecOwned in E.
    change (negb _) with false in E. cbv iota in E. destruct (exec (receipt_key x)); [|done]. cbn [fst snd] in E.
    injection E as E. apply (f_equal (fun m => m !! receipt_key x)) in E. rewrite !lookup_insert_eq in E. injection E as <-.
    cbn [rw_json]. unfold of_json. by rewrite I.
Qed.

Lemma cancel_rows_spec exec reason now kl : NoDup kl.*1 -> to_utf8 reason = reason -> forall db, receipts_held db ->
  (forall k r, (k, r) ∈ kl -> ud_receipts db !! k = Some r /\ rw_state r = ReceiptStarted) ->
  let w := cancel_rows exec reason now kl.*2 db in
  receipts_held w.1 /\ (forall k, k ∉ kl.*1 -> ud_receipts w.1 !! k = ud_receipts db !! k)
  /\ (forall k r, (k, r) ∈ kl -> exists r', ud_receipts w.1 !! k = Some r' /\ (r' = r /\ w.2 = false \/ settled reason now r r')).
Proof.
  intros Nd R. induction kl as [|[k r] kl IH]; intros db Hd A; cbn zeta.
  - split_and!; [done|done|]. intros k r I. by apply elem_of_nil in I.
  - cbn [fmap list_fmap fst snd cancel_rows]. destruct (A k r ltac:(by left)) as [L S].
    pose proof (Hd k r L) as Hr. destruct (receipt_read k r Hr) as (x & X & Kx & Sx & V & P). rewrite X.
    rewrite decide_True by congruence. apply list.NoDup_cons in Nd as [Nk Nd].
    destruct (settle_one exec reason now k r x db Hd R Hr S X L) as (Hd' & O & Q).
    destruct (PublishReceipt _ _ db) as [db' []]; cbn [fst snd] in *.
    + destruct Q as (r' & L' & St). destruct (IH Nd db' Hd') as (K1 & K2 & K3).
      { intros k' q I. destruct (A k' q ltac:(by right)) as [Lq Sq]. split; [|done]. rewrite O; [done|].
        intros ->. apply Nk. apply list_elem_of_fmap. by exists (k, q). }
      split_and!; [done| |].
      * intros k' N'. rewrite elem_of_cons in N'. rewrite K2 by tauto. apply O. tauto.
      * intros k' q [[= -> ->]|I]%elem_of_cons; [|by apply K3]. exists r'. rewrite K2 by done. auto.
    + subst db'. split_and!; [done|done|]. intros k' q I. destruct (A k' q I) as [Lq _]. exists q. auto.
Qed.

(** With an engine that runs, and times that have texts, nothing fails. *)
Lemma cancel_rows_run exec reason now kl : NoDup kl.*1 -> to_utf8 reason = reason -> (forall k, exec k = true) -> has_text now ->
  forall db, receipts_held db -> (forall k r, (k, r) ∈ kl -> ud_receipts db !! k = Some r /\ rw_state r = ReceiptStarted) ->
  (forall k r x t, (k, r) ∈ kl -> of_json RequestReceipt_json (rw_json r) = Some x -> updated x t -> has_text (t + 1)%Z) ->
  (cancel_rows exec reason now kl.*2 db).2 = true.
Proof.
  intros Nd R Ex N. induction kl as [|[k r] kl IH]; intros db Hd A T; [done|].
  cbn [fmap list_fmap fst snd cancel_rows]. destruct (A k r ltac:(by left)) as [L S].
  pose proof (Hd k r L) as Hr. destruct (receipt_read k r Hr) as (x & X & Kx & Sx & V & P). rewrite X.
  rewrite decide_True by congruence. apply list.NoDup_cons in Nd as [Nk Nd].
  destruct (settle_one exec reason now k r x db Hd R Hr S X L) as (Hd' & O & _).
  destruct (started_updated x) as [t Ut]; [congruence|done|].
  pose proof (valid_started x t ltac:(congruence) V Ut (T k r x t ltac:(by left) X Ut) reason now N) as Vc. cbn zeta in Vc.
  destruct (out_in (c := RequestReceipt_json) _ (plain_cancelled reason now x P R)) as (j & Oj & _ & _).
  unfold PublishReceipt in *. rewrite Vc, Oj in *. cbn [negb] in *. unfold Control.ExecOwned in *. change (negb _) with false in *. cbv iota in *.
  rewrite Ex in *. cbn [fst snd] in *. apply (IH Nd _ Hd').
  - intros k' q I. destruct (A k' q ltac:(by right)) as [Lq Sq]. split; [|done]. rewrite O; [done|].
    intros ->. apply Nk. apply list_elem_of_fmap. by exists (k, q).
  - intros k' q y u I. apply (T k' q y u). by right.
Qed.

Definition started_keys (db : UsageDB) : list (string * string * string * receipt_row) :=
  filter (fun kr => rw_state kr.2 = ReceiptStarted) (map_to_list (ud_receipts db)).
Lemma started_keys_in db k r : (k, r) ∈ started_keys db <-> ud_receipts db !! k = Some r /\ rw_state r = ReceiptStarted.
Proof. unfold started_keys. rewrite list_elem_of_filter, elem_of_map_to_list. cbn. tauto. Qed.

Lemma NoDup_keys_filter {K A} (P : K * A -> Prop) `{forall x, Decision (P x)} l : NoDup l.*1 -> NoDup (filter P l).*1.
Proof.
  induction l as [|x l IH]; [constructor|]. rewrite fmap_cons, list.NoDup_cons. intros [N D]. rewrite filter_cons.
  destruct (decide (P x)); [|by apply IH]. rewrite fmap_cons, list.NoDup_cons. split; [|by apply IH].
  intros (y & E & I)%list_elem_of_fmap. apply N. apply list_elem_of_filter in I as [_ I]. rewrite E. by apply list_elem_of_fmap_2.
Qed.

(** The reason that is written. *)
Definition settle_reason (reason : string) : string := if decide (reason = "") then ShutdownReceiptReason else reason.

(** C32: When the requests that were started are settled, in whatever order the engine
    gives them, each has the state cancelled, the cause cancellation, the reason, the
    identity, attempt and turns it had, and as its time the later of now and the
    nanosecond after its last update, where these have texts, or is left as it was by a
    call that fails; the others stay as they are and every row stays valid. A
    call that does not fail leaves no request started, and one whose statements run and
    whose times have texts does not fail. *)
Theorem settling_leaves_nothing_started exec reason now rows db :
  receipts_held db -> to_utf8 reason = reason -> rows ≡ₚ (started_keys db).*2 ->
  let w := SettleStartedObligations exec reason now (Some rows) db in
  receipts_held w.1
  /\ (forall k, (forall r, ud_receipts db !! k = Some r -> rw_state r <> ReceiptStarted) -> ud_receipts w.1 !! k = ud_receipts db !! k)
  /\ (forall k r, ud_receipts db !! k = Some r -> rw_state r = ReceiptStarted ->
        exists r', ud_receipts w.1 !! k = Some r' /\ (r' = r /\ w.2 = false \/ settled (settle_reason reason) now r r'))
  /\ (w.2 = true -> forall k r, ud_receipts w.1 !! k = Some r -> rw_state r <> ReceiptStarted)
  /\ ((forall k, exec k = true) -> has_text now ->
      (forall k r x t, ud_receipts db !! k = Some r -> of_json RequestReceipt_json (rw_json r) = Some x -> updated x t -> has_text (t + 1)%Z) ->
      w.2 = true).
Proof.
  intros Hd R Pm. apply Permutation_map_inv in Pm as (kl & -> & Pk). cbn zeta.
  unfold SettleStartedObligations, CancelStartedReceipts. fold (settle_reason reason).
  assert (to_utf8 (settle_reason reason) = settle_reason reason) as R' by (unfold settle_reason; by destruct (decide _)).
  assert (NoDup kl.*1) as Nd.
  { rewrite <- Pk. apply NoDup_keys_filter, NoDup_fst_map_to_list. }
  assert (forall k r, (k, r) ∈ kl <-> ud_receipts db !! k = Some r /\ rw_state r = ReceiptStarted) as In.
  { intros k r. by rewrite <- started_keys_in, Pk. }
  destruct (cancel_rows_spec exec (settle_reason reason) now kl Nd R' db Hd (fun k r => proj1 (In k r))) as (A & B & C).
  change (map snd kl) with kl.*2. split; [done|].
  assert (forall k, (forall r, ud_receipts db !! k = Some r -> rw_state r <> ReceiptStarted) -> k ∉ kl.*1) as Out.
  { intros k N I. apply list_elem_of_fmap in I as ([k' r] & -> & I). apply In in I as [L S]. by apply (N r L). }
  split; [intros k N; apply B, Out, N|]. split; [intros k r L S; by apply C, In|]. split.
  - intros W k r L S. destruct (ud_receipts db !! k) as [q|] eqn:Q.
    + destruct (decide (rw_state q = ReceiptStarted)) as [Sq|Nq].
      * destruct (C k q (proj2 (In k q) (conj Q Sq))) as (r' & L' & [[_ F]|(St & _)]); [congruence|].
        rewrite L in L'. injection L' as <-. by rewrite S in St.
      * rewrite B in L by (apply Out; intros y; rewrite Q; by intros [= <-]). congruence.
    + rewrite B in L by (apply Out; intros y; by rewrite Q). congruence.
  - intros Ex N T. apply cancel_rows_run; try done; [by intros k r ?%In|]. intros k r x t [L _]%In. by apply (T k r x t).
Qed.
End Settling.

(** ** Runs *)

Module UsageRuns.

(** Times by their numbers; none of the facts has a cost. *)
#[export] Instance number_times : Rfc3339Nano := {| parse_nano := parse_int; format_nano := itoa; format_like _ := itoa |}.
#[export] Instance number_times_laws : Rfc3339NanoLaws.
Proof.
  split; [exact itoa_utf8| |by intros; apply itoa_utf8|by intros; apply parse_int_itoa..].
  intros t E. pose proof (parse_int_itoa t) as P. change (itoa t = "") in E. by rewrite E in P.
Qed.
#[export] Instance no_floats : FloatText := {| float_text _ := "0"; text_float _ := None |}.

Definition a_fact (seq : Z) (call state finished : string) (c : UsageCounters) : UsageFact :=
  new_UsageFact <| fact_Seq := seq |> <| fact_CallID := call |> <| fact_State := state |> <| fact_FinishedAt := finished |>
    <| fact_Counters := c |> <| fact_Seat := "lead" |> <| fact_SessionID := "s-1" |> <| fact_Kind := "model" |>
    <| fact_Provider := "claude" |> <| fact_Model := "m" |> <| fact_Requests := Some [] |> <| fact_StartedAt := "1" |>
    <| fact_CounterSource := "adapter_normalized_positive" |> <| fact_Coverage := "engine_invocation" |>.
Definition a_start : UsageFact := a_fact 1 "c-1" "started" "" new_UsageCounters.
Definition an_end : UsageFact := a_fact 2 "c-1" "completed" "5" (MkUsageCounters None (Some 7%Z) (Some 3%Z) None None None).
Definition a_journal : list UsageFact := [a_start; an_end].

Ltac plain :=
  repeat (constructor; [first [assumption | vm_compute;
    first [reflexivity | exact I | by split | apply list.Forall_nil; exact I | split; [split; discriminate|done]]]|]);
  constructor.

Lemma start_plain : c_plain UsageFact_json a_start.
Proof.
  assert (c_plain UsageCounters_json new_UsageCounters) by plain. unfold UsageFact_json, struct, c_plain, UsageFact_fields. plain.
Qed.
Lemma end_plain : c_plain UsageFact_json an_end.
Proof.
  assert (c_plain UsageCounters_json (fact_Counters an_end)) by plain. unfold UsageFact_json, struct, c_plain, UsageFact_fields. plain.
Qed.

Lemma a_journal_is : journal "lead" "s-1" a_journal.
Proof.
  split.
  - constructor; [split; [vm_compute; reflexivity|exact start_plain]|]. constructor; [split; [vm_compute; reflexivity|exact end_plain]|constructor].
  - intros [|[|i]] f F; [by injection F as <-..|done].
  - intros f g F G _ L. unfold a_journal in F, G. rewrite !elem_of_cons in F, G.
    destruct F as [-> |[-> |F]]; [| |by apply elem_of_nil in F]; (destruct G as [-> |[-> |G]]; [| |by apply elem_of_nil in G]);
      first [vm_compute in L; discriminate L | vm_compute; reflexivity].
  - vm_compute. discriminate.
Qed.

Definition some_events : list usage_event :=
  [fact_event an_end; fact_event a_start; fact_event an_end; MkUsageEvent "system" None (MkUsage 5 1 0 0)].

Theorem each_call_is_counted_once_witness :
  let h := publish_all some_events (new_handle "lead" "s-1") in
  h_usage h = add_usage (others some_events) (total (h_calls h)) /\ h_usage h = MkUsage 12 4 0 0.
Proof.
  split; [|vm_compute; reflexivity]. apply (each_call_is_counted_once "lead" "s-1" some_events).
  constructor; [exact end_plain|]. constructor; [exact start_plain|]. constructor; [exact end_plain|]. constructor; [exact I|constructor].
Defined.

Definition by_one : nat -> Z -> option UsagePage := fun _ after => Some (page_of "lead" "s-1" a_journal after 1).
Definition meanwhile : nat -> nat -> list handle_act := fun _ _ => [Publishes (fact_event an_end); Repointed "s-1"].
Definition a_failed_handle : handle := (new_handle "lead" "s-1") <| h_err := true |>.

Theorem a_refresh_catches_up_witness :
  (exists h', RefreshUsage by_one meanwhile 3 0 (new_handle "lead" "s-1") = Some (h', true)
    /\ h_err h' = false /\ h_calls h' !! call_key an_end = Some an_end)
  /\ exists h', RefreshUsage by_one (fun _ _ => []) 3 0 a_failed_handle = Some (h', false).
Proof.
  assert (honest "lead" "s-1" a_journal by_one) as Hon.
  { intros k after _. exists 1%nat. split; [reflexivity|]. split; [vm_compute; discriminate|lia]. }
  assert (forall k i, Forall (of_session "s-1" a_journal) (meanwhile k i)) as Li.
  { intros k i. constructor; [split; [discriminate|]; right; left|]. constructor; [reflexivity|constructor]. }
  split.
  - destruct (a_refresh_catches_up "lead" "s-1" a_journal by_one meanwhile (new_handle "lead" "s-1") a_journal_is eq_refl eq_refl Hon Li)
      as [(h' & R & E & _ & _ & K) _].
    { split; [split; [reflexivity|by right|reflexivity|intros k g L; discriminate L]|reflexivity|split; vm_compute; discriminate|].
      intros f F L. unfold a_journal in F. rewrite !elem_of_cons in F. destruct F as [-> |[-> |F]]; [by vm_compute in L..|by apply elem_of_nil in F]. }
    exists h'. split; [exact R|]. split; [exact E|]. destruct (K an_end) as [_ Q]; [right; left|]. apply Q. discriminate.
  - destruct (a_refresh_catches_up "lead" "s-1" a_journal by_one meanwhile a_failed_handle a_journal_is eq_refl eq_refl Hon Li) as [_ B].
    apply (B eq_refl); split; vm_compute; [discriminate|reflexivity].
Defined.

(** A handle that was repointed to a new session after it read two facts of the old one
    skips as many of the new, without an error. *)
Definition of_the_next (f : UsageFact) : UsageFact := f <| fact_SessionID := "s-2" |>.
Example a_moved_handle_misses_calls :
  let asks : nat -> Z -> option UsagePage := fun _ after => Some (page_of "lead" "s-2" (of_the_next <$> a_journal) after 256) in
  let r := h ← fst <$> RefreshUsage by_one (fun _ _ => []) 3 0 (new_handle "lead" "s-1");
           RefreshUsage asks (fun _ _ => []) 3 0 (act h (Repointed "s-2")) in
  (fun r => (r.2, h_calls r.1 !! call_key (of_the_next a_start), h_cursor r.1)) <$> r = Some (true, None, 2%Z).
Proof. vm_compute. reflexivity. Qed.

Definition some_batches : list batch := [(always, [an_end]); (always, [a_start; an_end])].

Theorem a_ledger_is_its_journal_witness :
  exists L, ledger L (publish_batches some_batches no_rows) /\ NoDup L /\ a_start ∈ L /\ an_end ∈ L.
Proof.
  destruct (a_ledger_is_its_journal some_batches) as [_ J].
  - constructor; [constructor; [exact end_plain|constructor]|]. constructor; [|constructor].
    constructor; [exact start_plain|]. constructor; [exact end_plain|constructor].
  - destruct (J "lead" "s-1" a_journal a_journal_is) as (L & Fa & Nd & I & _).
    + intros b [-> |[-> |B]%elem_of_cons]%elem_of_cons; [..|by apply elem_of_nil in B]; (split; [reflexivity|]); intros f F.
      * apply list_elem_of_singleton in F as ->. right. left.
      * exact F.
    + exists L. split; [exact Fa|]. split; [exact Nd|]. split; apply I; (exists (always, [a_start; an_end]); split; [right; left|]); [left|right; left].
Defined.

Definition a_receipt : RequestReceipt :=
  MkRequestReceipt "r-1" "s-1" "lead" ReceiptStarted "a-1" (Some ["t-1"]) "" "" "1" "5".
Definition a_table : UsageDB := (PublishReceipt true a_receipt no_rows).1.

Theorem settling_leaves_nothing_started_witness :
  let w := SettleStartedObligations (fun _ => true) SidecarExitReceiptReason 9 (Some ((started_keys a_table).*2)) a_table in
  w.2 = true /\ (forall k r, ud_receipts w.1 !! k = Some r -> rw_state r <> ReceiptStarted)
  /\ exists r r', ud_receipts a_table !! receipt_key a_receipt = Some r /\ ud_receipts w.1 !! receipt_key a_receipt = Some r'
       /\ settled SidecarExitReceiptReason 9 r r'.
Proof.
  assert (c_plain RequestReceipt_json a_receipt) as P.
  { assert (c_plain (slice text) (Some ["t-1"])) by (constructor; [reflexivity|constructor]).
    unfold RequestReceipt_json, struct, c_plain, RequestReceipt_fields. plain. }
  assert (receipts_held a_table) as Hd by (apply PublishReceipt_spec; [exact P|]; intros k r L; discriminate L).
  assert (to_utf8 SidecarExitReceiptReason = SidecarExitReceiptReason) as U by (vm_compute; reflexivity).
  destruct (settling_leaves_nothing_started (fun _ => true) SidecarExitReceiptReason 9 _ a_table Hd U (Permutation_refl _)) as (_ & _ & C & D & R).
  cbv zeta. assert ((SettleStartedObligations (fun _ => true) SidecarExitReceiptReason 9 (Some ((started_keys a_table).*2)) a_table).2 = true) as W
    by (vm_compute; reflexivity).
  split; [exact W|]. split; [exact (D W)|].
  destruct (ud_receipts a_table !! receipt_key a_receipt) as [r|] eqn:L; [|vm_compute in L; discriminate L].
  assert (rw_state r = ReceiptStarted) as S by (vm_compute in L; injection L as <-; reflexivity).
  destruct (C _ _ L S) as (r' & L' & [[_ F]|St]); [rewrite W in F; discriminate F|].
  exists r, r'. split; [reflexivity|]. split; [exact L'|exact St].
Defined.

(** The receipt after it was settled at 9, and by a clock that is behind its last update. *)
Example a_settled_receipt :
  (fun now => (ud_receipts (SettleStartedObligations (fun _ => true) SidecarExitReceiptReason now (Some ((started_keys a_table).*2)) a_table).1
     !! receipt_key a_receipt) ≫= (fun r => of_json RequestReceipt_json (rw_json r))) <$> [9%Z; 2%Z]
  = [Some (MkRequestReceipt "r-1" "s-1" "lead" "cancelled" "a-1" (Some ["t-1"]) "cancellation" "sidecar exited" "1" "9");
     Some (MkRequestReceipt "r-1" "s-1" "lead" "cancelled" "a-1" (Some ["t-1"]) "cancellation" "sidecar exited" "1" "6")].
Proof. vm_compute. reflexivity. Qed.

(** A receipt replaces whatever is stored: that of a start, observed after the request
    was settled, is stored as started again. *)
Example a_late_start_reopens :
  let settled := (SettleStartedObligations (fun _ => true) SidecarExitReceiptReason 9 (Some ((started_keys a_table).*2)) a_table).1 in
  rw_state <$> ud_receipts settled !! receipt_key a_receipt = Some ReceiptCancelled
  /\ rw_state <$> ud_receipts (PublishReceipt true a_receipt settled).1 !! receipt_key a_receipt = Some ReceiptStarted.
Proof. vm_compute. split; reflexivity. Qed.

End UsageRuns.
