(* ===== verification/PlanPoll.v ===== *)
(** * PlanPoll: the daemon's paced polls of plan usage

    Models [plan_usage_observation.go] and [controlplane/plan_usage.go], and the two
    test seams over them, [plan_usage_override.go] and [plan_usage_fixture.go]. The
    daemon asks one provider after another; each request is reserved in the control
    file before it is sent, and its outcome is committed there. The process can die
    at any point. Whether a statement runs, the clock and what a fetch gave are
    arguments. *)

From S2P Require Import Prelude GoLib GoFloat PlanBand PlanThrottle Resolve PlanRead GoJson GoStruct Control UsageFacts UsageFactsTheorems.

(** ** Readings as JSON *)

#[export] Instance eta_PlanWindow : Eta PlanWindow := fun w =>
  MkWindow (w_Band w) (w_Pressure w) (w_Name w) (w_UsedPercent w) (w_RemainingPercent w) (w_ResetsAt w) (w_LimitWindow w) (w_Model w).
#[export] Hint Extern 1 (@Setter PlanWindow _ _) => setter_of eta_PlanWindow : typeclass_instances.
#[export] Instance eta_PlanMoney : Eta PlanMoney := fun m => MkMoney (mo_AmountMinor m) (mo_Exponent m) (mo_Currency m).
#[export] Hint Extern 1 (@Setter PlanMoney _ _) => setter_of eta_PlanMoney : typeclass_instances.
#[export] Instance eta_PlanCredits : Eta PlanCredits := fun c => MkCredits (pc_HasCredits c) (pc_Unlimited c) (pc_Balance c).
#[export] Hint Extern 1 (@Setter PlanCredits _ _) => setter_of eta_PlanCredits : typeclass_instances.
#[export] Instance eta_PlanSpend : Eta PlanSpend := fun s =>
  MkSpend (ps_Enabled s) (ps_Used s) (ps_Limit s) (ps_Percent s) (ps_LimitReached s) (ps_Balance s).
#[export] Hint Extern 1 (@Setter PlanSpend _ _) => setter_of eta_PlanSpend : typeclass_instances.
#[export] Instance eta_PlanUsage : Eta PlanUsage := fun u =>
  MkPlanUsage (u_Provider u) (u_Status u) (u_Reason u) (u_Windows u) (u_FetchedAt u) (u_PlanType u) (u_HTTPStatus u) (u_RawBody u)
    (u_Credits u) (u_Spend u).
#[export] Hint Extern 1 (@Setter PlanUsage _ _) => setter_of eta_PlanUsage : typeclass_instances.

Definition PlanWindow_fields `{FloatText, TimeText} : list (field PlanWindow) :=
  [may "band" text w_Band; may "pressure" (pointer number) w_Pressure; must "name" text w_Name;
   may "used_percent" (pointer number) w_UsedPercent; may "remaining_percent" (pointer number) w_RemainingPercent;
   may "resets_at" (pointer timestamp) w_ResetsAt; may "limit_window" int64 w_LimitWindow; may "model" text w_Model].
Definition new_PlanWindow : PlanWindow := MkWindow "" None "" None None None 0 "".
Definition PlanMoney_fields : list (field PlanMoney) :=
  [must "amount_minor" int64 mo_AmountMinor; must "exponent" int64 mo_Exponent; must "currency" text mo_Currency].
Definition new_PlanMoney : PlanMoney := MkMoney 0 0 "".
Definition PlanCredits_fields `{FloatText} : list (field PlanCredits) :=
  [must "has_credits" boolean pc_HasCredits; may "unlimited" boolean pc_Unlimited; must "balance" number pc_Balance].
Definition new_PlanCredits : PlanCredits := MkCredits false false F.zero.
Definition PlanSpend_fields `{FloatText} : list (field PlanSpend) :=
  [must "enabled" boolean ps_Enabled; may "used" (pointer (loose new_PlanMoney PlanMoney_fields)) ps_Used;
   may "limit" (pointer (loose new_PlanMoney PlanMoney_fields)) ps_Limit; may "percent" (pointer number) ps_Percent;
   may "limit_reached" boolean ps_LimitReached; may "balance" (pointer (loose new_PlanMoney PlanMoney_fields)) ps_Balance].
Definition new_PlanSpend : PlanSpend := MkSpend false None None None false None.
Definition PlanUsage_fields `{FloatText, TimeText} : list (field PlanUsage) :=
  [must "provider" text u_Provider; must "status" text u_Status; may "reason" text u_Reason;
   may "windows" (listed (loose new_PlanWindow PlanWindow_fields)) u_Windows; must "fetched_at" timestamp u_FetchedAt;
   may "plan_type" text u_PlanType; may "http_status" int64 u_HTTPStatus; may "raw_body" text u_RawBody;
   may "credits" (pointer (loose new_PlanCredits PlanCredits_fields)) u_Credits;
   may "spend" (pointer (loose new_PlanSpend PlanSpend_fields)) u_Spend].
Definition new_PlanUsage : PlanUsage := MkPlanUsage "" "" "" [] 0 "" 0 "" None None.
Definition PlanUsage_json `{FloatText, TimeText} : codec PlanUsage := loose new_PlanUsage PlanUsage_fields.

#[export] Instance PlanWindow_struct `{FloatText, TimeText} : LawfulStruct new_PlanWindow PlanWindow_fields.
Proof. lawful_struct. Qed.
#[export] Instance PlanMoney_struct : LawfulStruct new_PlanMoney PlanMoney_fields.
Proof. lawful_struct. Qed.
#[export] Instance PlanCredits_struct `{FloatText} : LawfulStruct new_PlanCredits PlanCredits_fields.
Proof. lawful_struct. Qed.
#[export] Instance PlanSpend_struct `{FloatText} : LawfulStruct new_PlanSpend PlanSpend_fields.
Proof. lawful_struct. Qed.
#[export] Instance PlanUsage_struct `{FloatText, TimeText} : LawfulStruct new_PlanUsage PlanUsage_fields.
Proof. lawful_struct. Qed.
#[export] Instance PlanUsage_lawful `{FloatText, TimeText} : Lawful PlanUsage_json.
Proof. unfold PlanUsage_json. apply _. Qed.

(** ** The table *)

(** [PlanUsageObservation]; a zero time is 0. *)
Record PlanUsageObservation := MkObservation {
  po_Provider : string; po_Status : string; po_Reason : string; po_AttemptedAt : Time; po_SuccessAt : Time;
  po_NextAttemptAt : Time; po_Refusals : Z; po_Reading : option PlanUsage }.
#[export] Instance eta_PlanUsageObservation : Eta PlanUsageObservation := fun o =>
  MkObservation (po_Provider o) (po_Status o) (po_Reason o) (po_AttemptedAt o) (po_SuccessAt o) (po_NextAttemptAt o) (po_Refusals o)
    (po_Reading o).
#[export] Hint Extern 1 (@Setter PlanUsageObservation _ _) => setter_of eta_PlanUsageObservation : typeclass_instances.

Definition no_observation (p : string) : PlanUsageObservation := MkObservation p "" "" 0 0 0 0 None.

(** A row of [claudia_plan_usage] under its provider, and the history under provider
    and time. *)
Record poll_row := MkPlanRow {
  pr_status : string; pr_reason : string; pr_attempted : string; pr_success : string; pr_next : string; pr_refusals : Z; pr_reading : json }.
Record plan_tables := MkPlanTables { pt_usage : gmap string poll_row; pt_history : gmap (string * string) json }.
#[export] Instance eta_plan_tables : Eta plan_tables := fun t => MkPlanTables (pt_usage t) (pt_history t).
#[export] Hint Extern 1 (@Setter plan_tables _ _) => setter_of eta_plan_tables : typeclass_instances.

Section Tables.
Context `{Rfc3339Nano, FloatText, TimeText}.

Definition planTime (t : Time) : string := if IsZero t then "" else format_nano t.
Definition read_time (s : string) : option Time := if decide (s = "") then Some 0%Z else parse_nano s.

Definition read_row (p : string) (r : poll_row) : option PlanUsageObservation :=
  if (pr_refusals r <? 0)%Z then None
  else
    attempted ← read_time (pr_attempted r); success ← read_time (pr_success r); next ← read_time (pr_next r);
    reading ← unmarshal (pointer PlanUsage_json) (pr_reading r);
    Some (MkObservation p (pr_status r) (pr_reason r) attempted success next (pr_refusals r) reading).

(** [readPlanUsage]: the rows by provider; one that cannot be read fails it. *)
Definition providers_of (db : plan_tables) : list string := SliceStable String.ltb (elements (dom (pt_usage db))).
Definition readPlanUsage (query : bool) (db : plan_tables) : option (list PlanUsageObservation) :=
  if query then mapM (fun p => r ← pt_usage db !! p; read_row p r) (providers_of db) else None.

Definition row_of (o : PlanUsageObservation) (reading : json) : poll_row :=
  MkPlanRow (po_Status o) (po_Reason o) (planTime (po_AttemptedAt o)) (planTime (po_SuccessAt o)) (planTime (po_NextAttemptAt o))
    (po_Refusals o) reading.

(** [writePlanUsage]; [None] is an error. *)
Definition writePlanUsage (exec : bool) (o : PlanUsageObservation) (db : plan_tables) : option plan_tables :=
  if decide (po_Provider o = "") then None
  else
    reading ← c_out (pointer PlanUsage_json) (drop_body <$> po_Reading o);
    match ExecOwned WriterClaudia PlanUsageTable exec (fun db => db <| pt_usage ::= <[po_Provider o := row_of o reading]> |>) db with
    | (db, None) => Some db
    | (_, Some _) => None
    end.

(** [ReservePlanUsage]: [None] is an error. *)
Definition pending (previous : PlanUsageObservation) (now next : Time) : PlanUsageObservation :=
  let o := if decide (po_Status previous = "")
           then previous <| po_Status := PlanUsageUnavailable |> <| po_Reason := "usage poll in progress" |> else previous in
  o <| po_AttemptedAt := now |> <| po_NextAttemptAt := next |>.
Definition ReservePlanUsage (query exec : bool) (p : string) (now next : Time) (db : plan_tables)
    : plan_tables * option (PlanUsageObservation * bool) :=
  match readPlanUsage query db with
  | None => (db, None)
  | Some rows =>
    let previous := default (no_observation p) (List.find (fun o => bool_decide (po_Provider o = p)) rows) in
    if Before now (po_NextAttemptAt previous) then (db, Some (previous, false))
    else match writePlanUsage exec (pending previous now next) db with
         | Some db => (db, Some (previous, true))
         | None => (db, None)
         end
  end.

(** [CommitFixturePlanUsage], one transaction: which of its statements run, those of
    row [i] by [io_exec i]. A transaction that does not commit leaves nothing. *)
Record commit_io := MkCommitIO { io_begin : bool; io_exec : nat -> bool * bool; io_commit : bool }.

Definition commit_row (exec : bool * bool) (o : PlanUsageObservation) (db : plan_tables) : option plan_tables :=
  db ← writePlanUsage exec.1 o db;
  match po_Reading o with
  | Some r =>
    if decide (po_Status o = PlanUsageAvailable) then
      body ← c_out PlanUsage_json (drop_body r);
      match ExecOwned WriterClaudia PlanUsageHistoryTable exec.2
              (fun db => db <| pt_history ::= <[(po_Provider o, planTime (po_SuccessAt o)) := body]> |>) db with
      | (db, None) => Some db
      | (_, Some _) => None
      end
    else Some db
  | None => Some db
  end.
Fixpoint commit_rows (exec : nat -> bool * bool) (i : nat) (rows : list PlanUsageObservation) (db : plan_tables) : option plan_tables :=
  match rows with
  | [] => Some db
  | o :: rows => db ← commit_row (exec i) o db; commit_rows exec (S i) rows db
  end.
Definition CommitFixturePlanUsage (io : commit_io) (rows : list PlanUsageObservation) (db : plan_tables) : plan_tables * bool :=
  if io_begin io then
    match commit_rows (io_exec io) 0 rows db with
    | Some db' => if io_commit io then (db', true) else (db, false)
    | None => (db, false)
    end
  else (db, false).
Definition CompletePlanUsage (io : commit_io) (o : PlanUsageObservation) (db : plan_tables) : plan_tables * bool :=
  CommitFixturePlanUsage io [o] db.

(** [ReadBrokerPlanUsage]: the backends and the time of the latest success. *)
Definition backend (o : PlanUsageObservation) : PlanUsage :=
  match po_Reading o with
  | Some r => if decide (po_Status o = PlanUsageAvailable) then r
              else new_PlanUsage <| u_Provider := po_Provider o |> <| u_Status := po_Status o |> <| u_Reason := po_Reason o |> <| u_FetchedAt := po_SuccessAt o |>
  | None => new_PlanUsage <| u_Provider := po_Provider o |> <| u_Status := po_Status o |> <| u_Reason := po_Reason o |> <| u_FetchedAt := po_SuccessAt o |>
  end.
Definition ReadBrokerPlanUsage (linked query : bool) (db : plan_tables) : option (list PlanUsage * Time) :=
  if linked then
    (fun rows => (backend <$> rows, foldl (fun t o => if Before t (po_SuccessAt o) then po_SuccessAt o else t) 0%Z rows)) <$> readPlanUsage query db
  else None.

End Tables.

(** ** What an answer leaves *)

Definition BrokerPlanRetryInterval : Duration := Minute.
Definition polled : list string := [ProviderClaude; ProviderCodex; ProviderGrok; ProviderCursor; ProviderBedrock].

Definition refused (u : PlanUsage) : bool := (u_HTTPStatus u =? 429)%Z || (u_HTTPStatus u =? 529)%Z.
Definition is_available (u : PlanUsage) : bool := bool_decide (u_Status u = PlanUsageAvailable).

(** The reading of one request; an error is a reading that says so. *)
Definition answer_of (p : string) (now : Time) (fetched : PlanUsage + string) : PlanUsage :=
  match fetched with inl u => u | inr err => unavailablePlan p now err end
    <| u_Provider := p |> <| u_FetchedAt := now |> <| u_RawBody := "" |>.

(** The next request and the refusals in a row; [None] is the panic of a negative
    shift. *)
Definition next_attempt (previous : Z) (now : Time) (u : PlanUsage) : option (Time * Z) :=
  if refused u then
    let refusals := if (previous <? 5)%Z then (previous + 1)%Z else previous in
    (fun penalty => (Add now (if (PlanThrottleMaxPenalty <? penalty)%Z then PlanThrottleMaxPenalty else penalty), refusals))
      <$> shl64 PlanThrottleFirstPenalty (refusals - 1)
  else if is_available u then Some (Add now PlanThrottleMinInterval, 0%Z)
  else Some (Add now BrokerPlanRetryInterval, if (u_HTTPStatus u =? 0)%Z then previous else 0%Z).

Section Outcome.
Context `{MathLog}.

Definition classify_window (now : Time) (w : PlanWindow) : PlanWindow :=
  let w := w <| w_Band := ClassifyWindow w now DefaultPlanThresholds |> in
  match usedPercent w, remainingTimePercent w now with
  | Some used, Some remaining =>
    let pressure := Pressure used (F.sub hundred remaining) DefaultPlanThresholds in
    if finite pressure then w <| w_Pressure := Some pressure |> else w
  | _, _ => w
  end.
Definition classified (now : Time) (u : PlanUsage) : PlanUsage := u <| u_Windows ::= fmap (classify_window now) |>.

Definition outcome (previous : PlanUsageObservation) (p : string) (now : Time) (u : PlanUsage) : option PlanUsageObservation :=
  '(next, refusals) ← next_attempt (po_Refusals previous) now u;
  let o := previous <| po_Provider := p |> <| po_Status := u_Status u |> <| po_Reason := u_Reason u |>
             <| po_AttemptedAt := now |> <| po_NextAttemptAt := next |> <| po_Refusals := refusals |> in
  Some (if is_available u then o <| po_Reading := Some (classified now u) |> <| po_SuccessAt := now |> else o).

End Outcome.

(** ** The seams of tests *)

Inductive seam_error :=
| SeamEmpty | SeamNotLinked | SeamUnknown (p : string) | SeamDuplicate (p : string) | SeamNotAllowed (p : string) | SeamNotInstalled
| SeamStatus | SeamNoWindows | SeamWindows | SeamRefused | SeamWindow | SeamPercent | SeamStore.

Definition valid_percent (x : float64) : bool := finite x && negb (F.ltb x F.zero) && negb (F.ltb hundred x).

Section Fixture.
Context `{Rfc3339Nano, FloatText, TimeText, MathLog}.

Fixpoint fixture_windows (now : Time) (ws : list PlanWindow) : list PlanWindow + seam_error :=
  match ws with
  | [] => inl []
  | w :: ws =>
    if bool_decide (w_Name w = "") || (bool_decide (w_UsedPercent w = None) && bool_decide (w_RemainingPercent w = None)) then inr SeamWindow
    else if negb (List.forallb (fun pct => match pct with Some x => valid_percent x | None => true end) [w_UsedPercent w; w_RemainingPercent w])
    then inr SeamPercent
    else match fixture_windows now ws with
         | inl ws => inl (w <| w_Band := ClassifyWindow w now DefaultPlanThresholds |> :: ws)
         | inr e => inr e
         end
  end.

Definition fixture_row (now : Time) (u : PlanUsage) : PlanUsageObservation + seam_error :=
  if negb (contains [PlanUsageAvailable; PlanUsageUnavailable] (u_Status u)) then inr SeamStatus
  else if is_available u && bool_decide (length (u_Windows u) = 0%nat) then inr SeamNoWindows
  else if bool_decide (u_Status u = PlanUsageUnavailable) && negb (bool_decide (length (u_Windows u) = 0%nat)) then inr SeamWindows
  else if (u_HTTPStatus u =? 429)%Z && negb (bool_decide (u_Status u = PlanUsageUnavailable)) then inr SeamRefused
  else match fixture_windows now (u_Windows u) with
       | inr e => inr e
       | inl ws =>
         let u := u <| u_Windows := ws |> <| u_FetchedAt := now |> <| u_RawBody := "" |> in
         let o := MkObservation (u_Provider u) (u_Status u) (u_Reason u) now 0 (Add now PlanThrottleMinInterval) 0 None in
         inl (if is_available u then o <| po_Reading := Some u |> <| po_SuccessAt := now |> else o)
       end.

Fixpoint fixture_rows (now : Time) (seen : gset string) (readings : list PlanUsage) : list PlanUsageObservation + seam_error :=
  match readings with
  | [] => inl []
  | u :: readings =>
    if negb (contains polled (u_Provider u)) then inr (SeamUnknown (u_Provider u))
    else if decide (u_Provider u ∈ seen) then inr (SeamDuplicate (u_Provider u))
    else match fixture_row now u with
         | inr e => inr e
         | inl o => match fixture_rows now ({[u_Provider u]} ∪ seen) readings with inl rows => inl (o :: rows) | inr e => inr e end
         end
  end.

(** A generation of readings, all of them or none. *)
Definition CommitBrokerUsageFixture (linked : bool) (now : Time) (io : commit_io) (readings : list PlanUsage) (db : plan_tables)
    : plan_tables * option seam_error :=
  if bool_decide (length readings = 0%nat) then (db, Some SeamEmpty)
  else if negb linked then (db, Some SeamNotLinked)
  else match fixture_rows now ∅ readings with
       | inr e => (db, Some e)
       | inl rows => let c := CommitFixturePlanUsage io rows db in (c.1, if c.2 then None else Some SeamStore)
       end.

End Fixture.

(** The readings that stand for a provider's own. *)
Record usage_override := MkOverride { ov_allow : gset string; ov_readings : gmap string PlanUsage }.
Definition no_override : usage_override := MkOverride ∅ ∅.

Fixpoint override_allow (allow : gset string) (providers : list string) : gset string + seam_error :=
  match providers with
  | [] => inl allow
  | p :: providers =>
    if negb (contains polled p) then inr (SeamUnknown p)
    else if decide (p ∈ allow) then inr (SeamDuplicate p)
    else override_allow ({[p]} ∪ allow) providers
  end.
Definition InstallBrokerUsageOverride (providers : list string) (ov : usage_override) : usage_override * option seam_error :=
  match override_allow ∅ providers with
  | inr e => (ov, Some e)
  | inl allow => if decide (allow = ∅) then (ov, Some SeamEmpty) else (MkOverride allow ∅, None)
  end.

Fixpoint override_next (allow : gset string) (next : gmap string PlanUsage) (readings : list PlanUsage) : gmap string PlanUsage + seam_error :=
  match readings with
  | [] => inl next
  | u :: readings =>
    if decide (u_Provider u ∉ allow) then inr (SeamNotAllowed (u_Provider u))
    else match next !! u_Provider u with
         | Some _ => inr (SeamDuplicate (u_Provider u))
         | None => override_next allow (<[u_Provider u := u]> next) readings
         end
  end.
Definition StoreBrokerUsageOverride (readings : list PlanUsage) (ov : usage_override) : usage_override * option seam_error :=
  if bool_decide (length readings = 0%nat) then (ov, Some SeamEmpty)
  else if decide (ov_allow ov = ∅) then (ov, Some SeamNotInstalled)
  else match override_next (ov_allow ov) ∅ readings with
       | inr e => (ov, Some e)
       | inl next => (MkOverride (ov_allow ov) (next ∪ ov_readings ov), None)
       end.
Definition lookupBrokerUsageOverride (p : string) (ov : usage_override) : option PlanUsage :=
  if decide (p ∈ ov_allow ov) then ov_readings ov !! p else None.

(** The fetch of [PollBrokerPlanUsageWithOverride]; [vendor] is the one it wraps. *)
Definition override_fetch (ov : usage_override) (now : Time) (vendor : string -> PlanUsage + string) (p : string) : PlanUsage + string :=
  if decide (p ∈ ov_allow ov) then
    inl (default (unavailablePlan p now "usage override idle") (lookupBrokerUsageOverride p ov))
  else vendor p.

(** ** A process that polls, and dies *)

(** A request that was sent: what came of it, if its outcome was committed. *)
Record attempt := MkAttempt { at_provider : string; at_time : Time; at_end : option PlanUsage }.

Inductive poll_phase :=
| PollIdle
| PollAt (rest : list string)
| PollFetching (p : string) (now : Time) (previous : PlanUsageObservation) (rest : list string).

(** The file, whether a process owns it and where its poll is; a daemon polls once at a
    time. [pw_attempts] are the requests, the latest first. *)
Record poll_world := MkPollWorld {
  pw_db : plan_tables; pw_open : bool; pw_phase : poll_phase; pw_attempts : list attempt; pw_panicked : bool }.
#[export] Instance eta_poll_world : Eta poll_world := fun w =>
  MkPollWorld (pw_db w) (pw_open w) (pw_phase w) (pw_attempts w) (pw_panicked w).
#[export] Hint Extern 1 (@Setter poll_world _ _) => setter_of eta_poll_world : typeclass_instances.

Definition no_polls : poll_world := MkPollWorld (MkPlanTables ∅ ∅) false PollIdle [] false.

Inductive poll_step :=
| OwnerOpens
| OwnerGone                       (* it died, or closed its file *)
| PollBegins
| PollCancelled
| PollReserves (now : Time) (query exec : bool)
| PollSettles (fetched : PlanUsage + string) (io : commit_io)
| PollEnds.

Section Steps.
Context `{Rfc3339Nano, FloatText, TimeText, MathLog}.

(** [PollBrokerPlanUsage] is cut at its two calls of the store. *)
Definition poll_exec (s : poll_step) (w : poll_world) : option poll_world :=
  match s with
  | OwnerOpens => if pw_open w then None else Some (w <| pw_open := true |>)
  | OwnerGone => if pw_open w then Some (w <| pw_open := false |> <| pw_phase := PollIdle |>) else None
  | PollBegins =>
    match pw_phase w with PollIdle => if pw_open w then Some (w <| pw_phase := PollAt polled |>) else None | _ => None end
  | PollCancelled =>
    match pw_phase w with PollAt (_ :: _) => Some (w <| pw_phase := PollIdle |>) | _ => None end
  | PollReserves now query exec =>
    match pw_phase w with
    | PollAt (p :: rest) =>
      let r := ReservePlanUsage query exec p now (Add now PlanThrottleMinInterval) (pw_db w) in
      let w := w <| pw_db := r.1 |> in
      Some match r.2 with
           | None => w <| pw_phase := PollIdle |>
           | Some (previous, false) => w <| pw_phase := PollAt rest |>
           | Some (previous, true) =>
             w <| pw_phase := PollFetching p now previous rest |> <| pw_attempts ::= cons (MkAttempt p now None) |>
           end
    | _ => None
    end
  | PollSettles fetched io =>
    match pw_phase w with
    | PollFetching p now previous rest =>
      let u := answer_of p now fetched in
      Some match outcome previous p now u with
           | None => w <| pw_panicked := true |>
           | Some o =>
             let c := CompletePlanUsage io o (pw_db w) in
             let w := w <| pw_db := c.1 |> in
             if c.2 then w <| pw_phase := PollAt rest |>
                           <| pw_attempts ::= fun l => match l with a :: l => MkAttempt (at_provider a) (at_time a) (Some u) :: l | [] => [] end |>
             else w <| pw_phase := PollIdle |>
           end
    | _ => None
    end
  | PollEnds => match pw_phase w with PollAt [] => Some (w <| pw_phase := PollIdle |>) | _ => None end
  end.

(** Clocks are of the years that have texts; a reading comes back from its JSON, or has
    none. *)
Definition sane (s : poll_step) (w : poll_world) : Prop :=
  match s with
  | PollReserves now _ _ => has_text now /\ has_text (Add now PlanThrottleMaxPenalty)
  | PollSettles fetched _ =>
    match pw_phase w with
    | PollFetching p now _ _ =>
      let u := classified now (answer_of p now fetched) in c_plain PlanUsage_json u \/ c_out PlanUsage_json u = None
    | _ => True
    end
  | _ => True
  end.

Inductive poll_reachable : poll_world -> Prop :=
| polls_start : poll_reachable no_polls
| polls_go s w w' : poll_reachable w -> sane s w -> poll_exec s w = Some w' -> poll_reachable w'.

End Steps.

(** ** What the requests to one provider amount to, the latest first *)

Definition history (p : string) (w : poll_world) : list attempt := List.filter (fun a => bool_decide (at_provider a = p)) (pw_attempts w).

(** Refusals in a row, five at most; an answer that is no refusal ends them, an
    error without one does not. *)
Fixpoint refusals_of (h : list attempt) : Z :=
  match h with
  | [] => 0
  | a :: h =>
    match at_end a with
    | None => refusals_of h
    | Some u => if refused u then Z.min 5 (refusals_of h + 1)
                else if is_available u || negb (u_HTTPStatus u =? 0)%Z then 0%Z else refusals_of h
    end
  end.

(** How long a provider is left alone after [a], which came after [h]. *)
Definition gap (a : attempt) (h : list attempt) : Duration :=
  match at_end a with
  | None => PlanThrottleMinInterval
  | Some u => if refused u then Z.min PlanThrottleMaxPenalty (PlanThrottleFirstPenalty * 2 ^ (refusals_of (a :: h) - 1))
              else if is_available u then PlanThrottleMinInterval else BrokerPlanRetryInterval
  end.

Fixpoint keeps_distance (h : list attempt) : Prop :=
  match h with
  | a :: ((b :: h') as t) => (at_time b + gap b h' <= at_time a)%Z /\ keeps_distance t
  | _ => True
  end.

(** Whether a request may go out at [now]. *)
Definition due (h : list attempt) (now : Time) : Prop := match h with [] => True | a :: h => (at_time a + gap a h <= now)%Z end.
#[export] Instance due_decision h now : Decision (due h now).
Proof. destruct h as [|a h]; cbn; apply _. Defined.

(** The latest answer that was committed, and the latest reading. *)
Definition last_end (h : list attempt) : option PlanUsage := head (omap at_end h).
Definition last_success (h : list attempt) : option (Time * PlanUsage) :=
  head (omap (fun a => match at_end a with Some u => if is_available u then Some (at_time a, u) else None | None => None end) h).

(** ** Requests and gaps *)

Lemma refusals_bound h : (0 <= refusals_of h <= 5)%Z.
Proof. induction h as [|a h IH]; cbn; [lia|]. destruct (at_end a) as [u|]; [|done]. destruct (refused u); [lia|]. by destruct (_ || _). Qed.

Lemma gap_bounds a h : (BrokerPlanRetryInterval <= gap a h <= PlanThrottleMaxPenalty)%Z.
Proof.
  unfold gap. destruct (at_end a) as [u|] eqn:E; [|vm_compute; split; discriminate]. destruct (refused u) eqn:R.
  - cbn [refusals_of]. rewrite E, R. pose proof (refusals_bound h) as B. split; [|lia]. apply Z.min_glb; [vm_compute; discriminate|].
    transitivity (PlanThrottleFirstPenalty * 1)%Z; [vm_compute; discriminate|]. apply Z.mul_le_mono_nonneg_l; [vm_compute; discriminate|].
    pose proof (Z.pow_pos_nonneg 2 (Z.min 5 (refusals_of h + 1) - 1)). lia.
  - destruct (is_available u); vm_compute; split; discriminate.
Qed.

Lemma paced_later a h b : keeps_distance (a :: h) -> b ∈ h -> (at_time b < at_time a)%Z.
Proof.
  revert a. induction h as [|c h IH]; intros a P B; [by apply elem_of_nil in B|]. destruct P as [L P].
  pose proof (gap_bounds c h) as G. unfold BrokerPlanRetryInterval, Minute, Second in G. apply elem_of_cons in B as [->|B]; [lia|].
  pose proof (IH c P B). lia.
Qed.

(** The penalties of one to five refusals. *)
Lemma penalty_shift r : (1 <= r <= 5)%Z ->
  (fun p => if (PlanThrottleMaxPenalty <? p)%Z then PlanThrottleMaxPenalty else p) <$> shl64 PlanThrottleFirstPenalty (r - 1)
  = Some (Z.min PlanThrottleMaxPenalty (PlanThrottleFirstPenalty * 2 ^ (r - 1))).
Proof.
  intros B. assert (r = 1 \/ r = 2 \/ r = 3 \/ r = 4 \/ r = 5)%Z as [-> |[-> |[-> |[-> | ->]]]] by lia; vm_compute; reflexivity.
Qed.

Lemma next_is_gap p t u h :
  next_attempt (refusals_of h) t u = Some (t + gap (MkAttempt p t (Some u)) h, refusals_of (MkAttempt p t (Some u) :: h))%Z.
Proof.
  pose proof (refusals_bound h) as B. unfold next_attempt, gap, Add. cbn [at_end refusals_of]. destruct (refused u).
  - set (r := if (refusals_of h <? 5)%Z then _ else _).
    assert (r = Z.min 5 (refusals_of h + 1)) as -> by (unfold r; destruct (Z.ltb_spec (refusals_of h) 5); lia).
    pose proof (penalty_shift (Z.min 5 (refusals_of h + 1)) ltac:(lia)) as P.
    destruct (shl64 _ _) as [x|]; [|done]. cbn in P |- *. injection P as P. by rewrite P.
  - destruct (is_available u); [done|]. cbn [orb]. by destruct (u_HTTPStatus u =? 0)%Z.
Qed.

Lemma last_end_available h u : last_end h = Some u -> is_available u = true -> exists t, last_success h = Some (t, u).
Proof.
  induction h as [|a h IH]; [done|]. unfold last_end, last_success in *. cbn. destruct (at_end a) as [v|]; [|apply IH].
  cbn. intros [= ->] A. rewrite A. by eexists.
Qed.
Lemma no_end_no_success h : last_end h = None -> last_success h = None.
Proof. induction h as [|a h IH]; [done|]. unfold last_end, last_success in *. cbn. by destruct (at_end a). Qed.

(** ** What the tables hold *)

Section Held.
Context `{Rfc3339NanoLaws, FloatText, TimeText, MathLog}.

Definition time_ok (t : Time) : Prop := t = 0%Z \/ has_text t.
Lemma has_text_positive t : has_text t -> (0 < t)%Z.
Proof. unfold has_text, Second. lia. Qed.

Lemma read_planTime t : time_ok t -> read_time (planTime t) = Some t.
Proof.
  intros [->|T]; [done|]. unfold planTime, IsZero. pose proof (has_text_positive t T). rewrite (proj2 (Z.eqb_neq t 0)) by lia.
  unfold read_time. rewrite decide_False by apply nano_some. by apply nano_back.
Qed.
Lemma planTime_inj t u : time_ok t -> time_ok u -> planTime t = planTime u -> t = u.
Proof. intros T U E. apply read_planTime in T, U. congruence. Qed.

Definition reading_ok (r : option PlanUsage) : Prop :=
  match r with Some u => c_plain PlanUsage_json u /\ u_RawBody u = "" | None => True end.
Record held (o : PlanUsageObservation) : Prop := {
  hd_refusals : (0 <= po_Refusals o)%Z; hd_attempted : time_ok (po_AttemptedAt o); hd_success : time_ok (po_SuccessAt o);
  hd_next : time_ok (po_NextAttemptAt o); hd_reading : reading_ok (po_Reading o) }.

Lemma body_dropped u : u_RawBody u = "" -> drop_body u = u.
Proof. destruct u. cbn. by intros ->. Qed.
Lemma usage_object u : c_out PlanUsage_json u <> Some JNull.
Proof. cbn [PlanUsage_json loose c_out struct]. by destruct (struct_out _ _). Qed.

Lemma reading_written r : reading_ok r -> exists j, c_out (pointer PlanUsage_json) (drop_body <$> r) = Some j
  /\ unmarshal (pointer PlanUsage_json) j = Some r.
Proof.
  intros R. assert (drop_body <$> r = r) as -> by (destruct r as [u|]; [|done]; cbn; f_equal; apply body_dropped, R).
  apply unmarshal_written; [apply _|]. destruct r as [u|]; [|done]. split; [apply R|apply usage_object].
Qed.

Lemma poll_row_read o j : held o -> c_out (pointer PlanUsage_json) (drop_body <$> po_Reading o) = Some j ->
  read_row (po_Provider o) (row_of o j) = Some o.
Proof.
  intros [A B C D E] W. destruct (reading_written _ E) as (k & K & U). rewrite W in K. injection K as <-.
  unfold read_row, row_of. cbn [pr_refusals pr_attempted pr_success pr_next pr_reading pr_status pr_reason].
  rewrite (proj2 (Z.ltb_ge _ _) A), !read_planTime by done. cbn. rewrite U. by destruct o.
Qed.

Lemma row_written exec o db : held o -> po_Provider o <> "" ->
  exists j, c_out (pointer PlanUsage_json) (drop_body <$> po_Reading o) = Some j
    /\ writePlanUsage exec o db = if exec then Some (db <| pt_usage ::= <[po_Provider o := row_of o j]> |>) else None.
Proof.
  intros O N. destruct (reading_written _ (hd_reading o O)) as (j & J & _). exists j. split; [done|].
  unfold writePlanUsage. rewrite decide_False by done. rewrite J. cbn. by destruct exec.
Qed.

(** Reading the table, row by row. *)
Lemma rows_read db f : (forall p r, pt_usage db !! p = Some r -> read_row p r = Some (f p)) ->
  readPlanUsage true db = Some (f <$> providers_of db).
Proof.
  intros R. unfold readPlanUsage.
  assert (forall p, p ∈ providers_of db -> is_Some (pt_usage db !! p)) as K.
  { intros p. unfold providers_of. by rewrite SliceStable_elem, elem_of_elements, elem_of_dom. }
  induction (providers_of db) as [|p l IH]; [done|]. cbn. destruct (K p) as [r P]; [by left|]. rewrite P. cbn. rewrite (R p r P). cbn.
  rewrite IH; [done|]. intros q Q. apply K. by right.
Qed.

Lemma find_row (f : string -> PlanUsageObservation) p l : (forall q, q ∈ l -> po_Provider (f q) = q) ->
  List.find (fun o => bool_decide (po_Provider o = p)) (f <$> l) = if decide (p ∈ l) then Some (f p) else None.
Proof.
  intros F. induction l as [|q l IH]; [done|]. cbn. rewrite F by by left. case_bool_decide as E.
  - subst. by rewrite decide_True by by left.
  - rewrite IH by (intros x X; apply F; by right). destruct (decide (p ∈ l)); [by rewrite decide_True by by right|].
    rewrite decide_False; [done|]. rewrite elem_of_cons. naive_solver.
Qed.

(** What the row of a provider says after these requests. *)
Fixpoint observed (p : string) (h : list attempt) : PlanUsageObservation :=
  match h with
  | [] => no_observation p
  | a :: h =>
    let o := observed p h in
    let waits := pending o (at_time a) (Add (at_time a) PlanThrottleMinInterval) in
    match at_end a with None => waits | Some u => default waits (outcome o p (at_time a) u) end
  end.

Definition attempt_ok (a : attempt) : Prop :=
  has_text (at_time a) /\ has_text (Add (at_time a) PlanThrottleMaxPenalty)
  /\ match at_end a with
     | Some u => u_Provider u = at_provider a /\ if is_available u then reading_ok (Some (classified (at_time a) u)) else True
     | None => True
     end.

Definition next_due (h : list attempt) : Time := match h with [] => 0%Z | a :: h => (at_time a + gap a h)%Z end.

Record observed_as (p : string) (h : list attempt) (o : PlanUsageObservation) : Prop := {
  oa_held : held o; oa_provider : po_Provider o = p; oa_refusals : po_Refusals o = refusals_of h; oa_next : po_NextAttemptAt o = next_due h;
  oa_success : (po_SuccessAt o, po_Reading o) = match last_success h with Some (t, u) => (t, Some (classified t u)) | None => (0%Z, None) end;
  oa_status : po_Status o = PlanUsageAvailable <-> exists u, last_end h = Some u /\ is_available u = true }.

Lemma within_gap a h : attempt_ok a -> time_ok (at_time a + gap a h)%Z.
Proof.
  intros (T & U & _). right. pose proof (gap_bounds a h) as G. unfold has_text, Add in *.
  assert (0 <= gap a h)%Z by (unfold BrokerPlanRetryInterval, Minute, Second in G; lia). lia.
Qed.

Lemma pending_held p h o a : observed_as p h o -> attempt_ok a -> at_end a = None -> at_provider a = p ->
  observed_as p (a :: h) (pending o (at_time a) (Add (at_time a) PlanThrottleMinInterval)).
Proof.
  intros [[A B C D E] P R N S T] K En Pa. pose proof (within_gap a h K) as W. destruct K as (K & _ & _).
  assert (gap a h = PlanThrottleMinInterval) as G by (unfold gap; by rewrite En). rewrite G in W. unfold pending.
  assert (last_success (a :: h) = last_success h) as Ls by (unfold last_success; cbn; by rewrite En).
  assert (last_end (a :: h) = last_end h) as Le by (unfold last_end; cbn; by rewrite En).
  assert (refusals_of (a :: h) = refusals_of h) as Rf by (cbn; by rewrite En).
  destruct (decide (po_Status o = "")) as [Em|Em].
  - split; [split|..]; try done; [by right|by cbn; rewrite R|by cbn; rewrite G|by rewrite Ls|].
    change (PlanUsageUnavailable = PlanUsageAvailable <-> exists v, last_end (a :: h) = Some v /\ is_available v = true). rewrite Le, <- T, Em.
    split; [intros X; vm_compute in X; discriminate X|intros X; vm_compute in X; discriminate X].
  - split; [split|..]; try done; [by right|by rewrite Rf|by cbn; rewrite G|by rewrite Ls|by rewrite Le].
Qed.

Lemma settled_held p h o a u : observed_as p h o -> attempt_ok a -> at_end a = Some u -> at_provider a = p ->
  exists o', outcome o p (at_time a) u = Some o' /\ observed_as p (a :: h) o'.
Proof.
  intros [[A B C D E] P R N S T] K En Pa. pose proof (within_gap a h K) as W. destruct K as (K & _ & Ok). rewrite En in Ok. destruct Ok as [_ Ok].
  assert (a = MkAttempt p (at_time a) (Some u)) as Ea by (destruct a; cbn in *; by subst).
  unfold outcome. rewrite R, (next_is_gap p), <- Ea. cbn [mbind option_bind]. eexists. split; [done|].
  pose proof (refusals_bound (a :: h)) as Rb.
  assert (last_end (a :: h) = Some u) as Le by (unfold last_end; cbn; by rewrite En).
  assert (last_success (a :: h) = if is_available u then Some (at_time a, u) else last_success h) as Ls.
  { unfold last_success. cbn. rewrite En. by destruct (is_available u). }
  assert (u_Status u = PlanUsageAvailable <-> is_available u = true) as Av by (unfold is_available; by rewrite bool_decide_eq_true).
  destruct (is_available u) eqn:V.
  - split; [split|..]; try done; [apply Rb|by right|by right| |].
    + by rewrite Ls.
    + rewrite Le. change (u_Status u = PlanUsageAvailable <-> exists v, Some u = Some v /\ is_available v = true). rewrite Av. split; [intros _; by exists u|done].
  - split; [split|..]; try done; [apply Rb|by right| |].
    + by rewrite Ls.
    + rewrite Le. change (u_Status u = PlanUsageAvailable <-> exists v, Some u = Some v /\ is_available v = true). rewrite Av. split; [done|].
      intros (v & [= <-] & X). congruence.
Qed.

Lemma observed_holds p h : Forall attempt_ok h -> Forall (fun a => at_provider a = p) h -> observed_as p h (observed p h).
Proof.
  induction h as [|a h IH]; intros K P.
  - split; [split; cbn; try done; by left|done..|]. split; [intros X; vm_compute in X; discriminate X|by intros (u & U & _)].
  - apply list.Forall_cons in K as [Ka K]. apply list.Forall_cons in P as [Pa P]. specialize (IH K P). cbn [observed].
    destruct (at_end a) as [u|] eqn:E; [|by apply pending_held].
    destruct (settled_held p h _ a u IH Ka E Pa) as (o' & -> & O). exact O.
Qed.
End Held.

(** ** Every reachable state *)

Section Reached.
Context `{Rfc3339NanoLaws, FloatText, TimeText, MathLog}.

Definition phase_ok (w : poll_world) : Prop :=
  match pw_phase w with
  | PollIdle => True
  | PollAt rest => Forall (fun p => p <> "") rest
  | PollFetching p now previous rest =>
    p <> "" /\ Forall (fun p => p <> "") rest
    /\ exists l, pw_attempts w = MkAttempt p now None :: l /\ previous = observed p (List.filter (fun a => bool_decide (at_provider a = p)) l)
  end.

(** A success of the history table. *)
Definition a_success (w : poll_world) (p s : string) (j : json) : Prop :=
  exists a u, a ∈ history p w /\ at_end a = Some u /\ is_available u = true /\ s = planTime (at_time a)
    /\ c_out PlanUsage_json (classified (at_time a) u) = Some j.

Record poll_inv (w : poll_world) : Prop := {
  pi_good : Forall attempt_ok (pw_attempts w);
  pi_paced p : keeps_distance (history p w);
  pi_rows p : match pt_usage (pw_db w) !! p with
              | Some r => history p w <> [] /\ read_row p r = Some (observed p (history p w))
              | None => history p w = []
              end;
  pi_history p s j : pt_history (pw_db w) !! (p, s) = Some j <-> a_success w p s j;
  pi_phase : phase_ok w;
  pi_fine : pw_panicked w = false }.

Lemma history_of p w : Forall attempt_ok (pw_attempts w) -> observed_as p (history p w) (observed p (history p w)).
Proof.
  intros G. apply observed_holds.
  - apply list.Forall_forall. intros a A. rewrite list.Forall_forall in G. apply G. apply list_elem_of_In, filter_In in A as [A _]. by apply list_elem_of_In.
  - apply list.Forall_forall. intros a A. apply list_elem_of_In, filter_In in A as [_ A]. by apply bool_decide_eq_true in A.
Qed.

(** The rows are readable, and give each provider what is known of it. *)
Lemma table_read w : poll_inv w -> readPlanUsage true (pw_db w) = Some ((fun p => observed p (history p w)) <$> providers_of (pw_db w)).
Proof.
  intros I. apply rows_read. intros p r P. pose proof (pi_rows w I p) as R. rewrite P in R. apply R.
Qed.

Lemma polled_row w p : poll_inv w -> p ∈ providers_of (pw_db w) <-> history p w <> [].
Proof.
  intros I. unfold providers_of. rewrite SliceStable_elem, elem_of_elements, elem_of_dom. pose proof (pi_rows w I p) as R.
  destruct (pt_usage _ !! p) as [r|]; [split; [intros _; apply R|by eexists]|]. rewrite R. split; [by intros [? ?]|done].
Qed.

Lemma found_row w p : poll_inv w ->
  default (no_observation p) (List.find (fun o => bool_decide (po_Provider o = p)) ((fun p => observed p (history p w)) <$> providers_of (pw_db w)))
  = observed p (history p w).
Proof.
  intros I. rewrite find_row by (intros q _; apply (history_of q w (pi_good w I))).
  destruct (decide _) as [E|E]; [done|]. rewrite (polled_row w p I) in E. destruct (history p w) as [|a h]; [done|]. exfalso. by apply E.
Qed.

(** What a reservation finds, and leaves. *)
Lemma reserves w p now exec : poll_inv w -> p <> "" -> has_text now -> has_text (Add now PlanThrottleMaxPenalty) ->
  let o := observed p (history p w) in
  let r := ReservePlanUsage true exec p now (Add now PlanThrottleMinInterval) (pw_db w) in
  if decide (due (history p w) now) then
    if exec then exists j, r = ((pw_db w) <| pt_usage ::= <[p := row_of (pending o now (Add now PlanThrottleMinInterval)) j]> |>, Some (o, true))
                           /\ read_row p (row_of (pending o now (Add now PlanThrottleMinInterval)) j) = Some (pending o now (Add now PlanThrottleMinInterval))
    else r = (pw_db w, None)
  else r = (pw_db w, Some (o, false)).
Proof.
  intros I N T U o. cbn zeta. unfold ReservePlanUsage. rewrite table_read, found_row by done. fold o.
  pose proof (history_of p w (pi_good w I)) as O. fold o in O. unfold Before. rewrite (oa_next _ _ _ O).
  assert ((now <? next_due (history p w))%Z = negb (bool_decide (due (history p w) now))) as ->.
  { unfold due, next_due. destruct (history p w) as [|a h].
    - rewrite bool_decide_true by done. apply Z.ltb_ge. pose proof (has_text_positive now T). lia.
    - destruct (Z.ltb_spec now (at_time a + gap a h)); [rewrite bool_decide_false by lia|rewrite bool_decide_true by done]; done. }
  destruct (decide (due (history p w) now)) as [D|D]; [|by rewrite bool_decide_false by done].
  rewrite bool_decide_true by done. cbn [negb].
  pose proof (pending_held p _ o (MkAttempt p now None) O) as Ph. cbn [at_time at_end at_provider] in Ph.
  specialize (Ph ltac:(by split_and!) eq_refl eq_refl). set (po := pending o now _) in *.
  destruct (row_written exec po (pw_db w)) as (j & J & ->); [apply Ph|by rewrite (oa_provider _ _ _ Ph)|].
  destruct exec; [|done]. exists j. rewrite (oa_provider _ _ _ Ph). split; [done|].
  pose proof (poll_row_read po j (oa_held _ _ _ Ph) J) as R. by rewrite (oa_provider _ _ _ Ph) in R.
Qed.

Lemma polls_same w w' : poll_inv w -> pw_db w' = pw_db w -> pw_attempts w' = pw_attempts w -> pw_panicked w' = pw_panicked w -> phase_ok w' -> poll_inv w'.
Proof.
  intros [A B C D _ F] Ed Ea Ep Ph. assert (forall p, history p w' = history p w) as Eh by (intros p; unfold history; by rewrite Ea).
  split; try done; [by rewrite Ea|intros p; by rewrite Eh|intros p; rewrite Ed, Eh; apply C| |by rewrite Ep].
  intros p s j. rewrite Ed, D. unfold a_success. by rewrite Eh.
Qed.

(** A new request, at the head of what came before. *)
Lemma history_cons p a l db open ph pan :
  history p (MkPollWorld db open ph (a :: l) pan)
  = if decide (at_provider a = p) then a :: history p (MkPollWorld db open ph l pan) else history p (MkPollWorld db open ph l pan).
Proof. unfold history. cbn. case_bool_decide; [by rewrite decide_True|by rewrite decide_False]. Qed.

Lemma kept_sent w p now j rest : poll_inv w -> p <> "" -> Forall (fun p => p <> "") rest -> has_text now -> has_text (Add now PlanThrottleMaxPenalty) ->
  due (history p w) now ->
  let o := observed p (history p w) in
  read_row p (row_of (pending o now (Add now PlanThrottleMinInterval)) j) = Some (pending o now (Add now PlanThrottleMinInterval)) ->
  poll_inv (MkPollWorld ((pw_db w) <| pt_usage ::= <[p := row_of (pending o now (Add now PlanThrottleMinInterval)) j]> |>) (pw_open w)
              (PollFetching p now o rest) (MkAttempt p now None :: pw_attempts w) (pw_panicked w)).
Proof.
  intros I N Nr T U D o R.
  assert (forall q, history q (MkPollWorld ((pw_db w) <| pt_usage ::= <[p := row_of (pending o now (Add now PlanThrottleMinInterval)) j]> |>) (pw_open w)
    (PollFetching p now o rest) (MkAttempt p now None :: pw_attempts w) (pw_panicked w))
    = if decide (p = q) then MkAttempt p now None :: history q w else history q w) as Eh by (intros q; by rewrite history_cons).
  split.
  - constructor; [by split_and!|apply I].
  - intros q. rewrite Eh. destruct (decide (p = q)) as [<-|]; [|apply I]. pose proof (pi_paced w I p) as P.
    destruct (history p w) as [|a h]; [done|]. by split.
  - intros q. rewrite Eh. change (pt_usage _) with (<[p := row_of (pending o now (Add now PlanThrottleMinInterval)) j]> (pt_usage (pw_db w))).
    destruct (decide (p = q)) as [<-|E]; [by rewrite lookup_insert_eq|]. rewrite lookup_insert_ne by done. apply I.
  - intros q s k. etransitivity; [exact (pi_history w I q s k)|]. unfold a_success. rewrite Eh.
    destruct (decide (p = q)) as [<-|]; [|done]. split; intros (a & u & A & B).
    + exists a, u. split; [by right|done].
    + apply elem_of_cons in A as [->|A]; [by destruct B|]. by exists a, u.
  - split; [done|]. split; [done|]. by exists (pw_attempts w).
  - apply I.
Qed.

(** The outcome of the request that is under way. *)
Lemma settles w p now rest l u exec : poll_inv w -> pw_phase w = PollFetching p now (observed p (List.filter (fun a => bool_decide (at_provider a = p)) l)) rest ->
  pw_attempts w = MkAttempt p now None :: l -> u_RawBody u = "" -> u_Provider u = p ->
  c_plain PlanUsage_json (classified now u) \/ c_out PlanUsage_json (classified now u) = None ->
  let h := List.filter (fun a => bool_decide (at_provider a = p)) l in
  exists o, outcome (observed p h) p now u = Some o
    /\ (attempt_ok (MkAttempt p now (Some u)) /\ observed_as p h (observed p h) /\ observed_as p (MkAttempt p now (Some u) :: h) o
        \/ commit_row exec o (pw_db w) = None).
Proof.
  intros I Ph At Rb Up Pl h. assert (Forall attempt_ok h /\ Forall (fun a => at_provider a = p) h) as [Gh Ph'].
  { pose proof (pi_good w I) as G. rewrite At in G. apply list.Forall_cons in G as [_ G]. split; apply list.Forall_forall; intros a A;
      apply list_elem_of_In, filter_In in A as [A E]; [rewrite list.Forall_forall in G; by apply G, list_elem_of_In|by apply bool_decide_eq_true in E]. }
  pose proof (observed_holds p h Gh Ph') as O. assert (has_text now /\ has_text (Add now PlanThrottleMaxPenalty)) as [T U].
  { pose proof (pi_good w I) as G. rewrite At in G. apply list.Forall_cons in G as [G _]. split; apply G. }
  assert (exists o, outcome (observed p h) p now u = Some o) as [o E].
  { unfold outcome. rewrite (oa_refusals _ _ _ O), (next_is_gap p). by eexists. }
  exists o. split; [done|].
  assert (attempt_ok (MkAttempt p now (Some u)) \/ is_available u = true /\ c_out PlanUsage_json (classified now u) = None) as [K|[V W]].
  { destruct (is_available u) eqn:V; [|left; split_and!; [done..|]; cbn; by rewrite V].
    destruct Pl as [Pl|W]; [left; split_and!; [done..|]|by right]. cbn [at_end at_time at_provider]. by rewrite V. }
  - left. split_and!; [done..|]. destruct (settled_held p h _ _ u O K eq_refl eq_refl) as (o' & E' & Oa).
    change (outcome (observed p h) p now u = Some o') in E'. congruence.
  - right.
    revert E. unfold outcome. rewrite (oa_refusals _ _ _ O), (next_is_gap p), V. cbn [mbind option_bind]. intros [= <-].
    unfold commit_row, writePlanUsage. destruct (decide (po_Provider _ = "")) as [E|E]; [done|].
    assert (c_out (pointer PlanUsage_json) (Some (drop_body (classified now u))) = None) as X.
    { rewrite body_dropped by done. exact W. }
    match goal with |- context [c_out ?c (drop_body <$> ?r)] => change (c_out c (drop_body <$> r)) with (c_out c (Some (drop_body (classified now u)))) end.
    by rewrite X.
Qed.

(** What a commit that runs writes. *)
Definition settled_tables (p : string) (now : Time) (u : PlanUsage) (row : poll_row) (body : json) (db : plan_tables) : plan_tables :=
  let db := db <| pt_usage ::= <[p := row]> |> in
  if is_available u then db <| pt_history ::= <[(p, planTime now) := body]> |> else db.

Lemma committed p h now u o exec db : observed_as p (MkAttempt p now (Some u) :: h) o -> outcome (observed p h) p now u = Some o ->
  observed_as p h (observed p h) -> p <> "" -> u_RawBody u = "" ->
  exists j body, read_row p (row_of o j) = Some o /\ (is_available u = true -> c_out PlanUsage_json (classified now u) = Some body)
    /\ (commit_row exec o db = None \/ commit_row exec o db = Some (settled_tables p now u (row_of o j) body db)).
Proof.
  intros O E Oh N Rb. destruct (row_written exec.1 o db) as (j & J & W); [apply O|by rewrite (oa_provider _ _ _ O)|].
  pose proof (poll_row_read o j (oa_held _ _ _ O) J) as R. rewrite (oa_provider _ _ _ O) in R, W.
  revert E. unfold outcome. rewrite (oa_refusals _ _ _ Oh), (next_is_gap p). cbn [mbind option_bind]. intros [= Eo].
  unfold settled_tables. destruct (is_available u) eqn:V.
  - assert (po_Reading o = Some (classified now u)) as Er by by rewrite <- Eo.
    assert (exists body, c_out PlanUsage_json (classified now u) = Some body) as [body B].
    { pose proof (hd_reading o (oa_held _ _ _ O)) as P. rewrite Er in P. destruct P as [P _]. destruct (out_in (c := PlanUsage_json) _ P) as (b & B & _). by exists b. }
    exists j, body. split; [done|]. split; [done|]. unfold commit_row. rewrite W. destruct exec.1; [|by left]. cbn [mbind option_bind].
    assert (po_Status o = PlanUsageAvailable) as Es. { rewrite <- Eo. unfold is_available in V. by apply bool_decide_eq_true in V. }
    rewrite Er, decide_True, body_dropped, B by done. cbn [mbind option_bind]. destruct exec.2; [|by left]. right.
    assert (po_SuccessAt o = now) as -> by by rewrite <- Eo. by rewrite (oa_provider _ _ _ O).
  - exists j, JNull. split; [done|]. split; [done|]. unfold commit_row. rewrite W. destruct exec.1; [|by left]. cbn [mbind option_bind]. right.
    assert (po_Status o <> PlanUsageAvailable) as Es. { rewrite <- Eo. unfold is_available in V. by apply bool_decide_eq_false in V. }
    destruct (po_Reading o); [by rewrite decide_False|done].
Qed.

(** The successes after an answer to the latest request to [p], which came after [h]. *)
Lemma history_settled w w' p now u body h : (forall q, history q w' = if decide (p = q) then MkAttempt p now (Some u) :: h else history q w) ->
  history p w = MkAttempt p now None :: h -> keeps_distance (MkAttempt p now None :: h) -> Forall attempt_ok h -> has_text now ->
  (is_available u = true -> c_out PlanUsage_json (classified now u) = Some body) ->
  (forall q s j, pt_history (pw_db w) !! (q, s) = Some j <-> a_success w q s j) ->
  pt_history (pw_db w') = (if is_available u then <[(p, planTime now) := body]> (pt_history (pw_db w)) else pt_history (pw_db w)) ->
  forall q s j, pt_history (pw_db w') !! (q, s) = Some j <-> a_success w' q s j.
Proof.
  intros Eh Ew P G T B Old Ht q s k. rewrite Ht. specialize (Old q s k). unfold a_success in *. rewrite Eh.
  destruct (decide (p = q)) as [<-|N].
  - rewrite Ew in Old. destruct (is_available u) eqn:V; [destruct (decide (s = planTime now)) as [->|Ns]|].
    + rewrite lookup_insert_eq. split.
      * intros [= <-]. exists (MkAttempt p now (Some u)), u. split; [by left|]. split_and!; auto.
      * intros (a & v & [->|A]%elem_of_cons & Ea & Va & Es & O).
        -- injection Ea as <-. change (c_out PlanUsage_json (classified now u) = Some k) in O. rewrite B in O by done. congruence.
        -- exfalso. pose proof (paced_later _ _ a P A) as Lt. cbn in Lt. apply planTime_inj in Es; [lia|by right|right].
           rewrite list.Forall_forall in G. by apply G.
    + rewrite lookup_insert_ne by congruence. rewrite Old. split; intros (a & v & A & Ea & Va & Es & O).
      * apply elem_of_cons in A as [->|A]; [done|]. exists a, v. split; [by right|done].
      * apply elem_of_cons in A as [->|A]; [by rewrite Es in Ns|]. exists a, v. split; [by right|done].
    + rewrite Old. split; intros (a & v & A & Ea & Va & Es & O).
      * apply elem_of_cons in A as [->|A]; [done|]. exists a, v. split; [by right|done].
      * apply elem_of_cons in A as [->|A]; [cbn in Ea; congruence|]. exists a, v. split; [by right|done].
  - rewrite <- Old. destruct (is_available u); [|done]. rewrite lookup_insert_ne by congruence. done.
Qed.

Lemma kept_settled w p now rest l u o j body : poll_inv w -> pw_attempts w = MkAttempt p now None :: l -> Forall (fun p => p <> "") rest ->
  let h := List.filter (fun a => bool_decide (at_provider a = p)) l in
  outcome (observed p h) p now u = Some o -> attempt_ok (MkAttempt p now (Some u)) -> read_row p (row_of o j) = Some o ->
  (is_available u = true -> c_out PlanUsage_json (classified now u) = Some body) ->
  poll_inv (MkPollWorld (settled_tables p now u (row_of o j) body (pw_db w)) (pw_open w) (PollAt rest) (MkAttempt p now (Some u) :: l) (pw_panicked w)).
Proof.
  intros I At Nr h E K R B. pose proof (pi_good w I) as G. rewrite At in G. apply list.Forall_cons in G as [_ G].
  assert (forall q, history q w = if decide (p = q) then MkAttempt p now None :: h else List.filter (fun a => bool_decide (at_provider a = q)) l) as Ew.
  { intros q. unfold history. rewrite At. cbn. case_bool_decide as X; [by subst; rewrite decide_True|by rewrite decide_False]. }
  set (w' := MkPollWorld _ _ _ _ _).
  assert (forall q, history q w' = if decide (p = q) then MkAttempt p now (Some u) :: h else history q w) as Eh.
  { intros q. unfold w'. rewrite history_cons, Ew. cbn [at_provider]. destruct (decide (p = q)) as [<-|]; done. }
  assert (pt_usage (pw_db w') = <[p := row_of o j]> (pt_usage (pw_db w))) as Eu by (unfold w', settled_tables; by destruct (is_available u)).
  specialize (Ew p). rewrite decide_True in Ew by done. pose proof (pi_paced w I p) as P. rewrite Ew in P.
  split; [by constructor| | | |exact Nr|apply I].
  - intros q. rewrite Eh. destruct (decide (p = q)) as [<-|]; [|apply I]. by destruct h.
  - intros q. rewrite Eu, Eh. destruct (decide (p = q)) as [<-|N]; [|rewrite lookup_insert_ne by done; apply I].
    rewrite lookup_insert_eq. split; [done|]. cbn [observed at_end at_time]. by rewrite E.
  - apply (history_settled w w' p now u body h Eh Ew P); [|apply K|done|apply I|unfold w', settled_tables; by destruct (is_available u)].
    apply list.Forall_forall. intros a A. rewrite list.Forall_forall in G. apply G. apply list_elem_of_In, filter_In in A as [A _]. by apply list_elem_of_In.
Qed.

Lemma commits io o db : CompletePlanUsage io o db = (db, false)
  \/ exists db', commit_row (io_exec io 0) o db = Some db' /\ CompletePlanUsage io o db = (db', true).
Proof.
  unfold CompletePlanUsage, CommitFixturePlanUsage. destruct (io_begin io); [|by left]. cbn [commit_rows].
  destruct (commit_row _ o db) as [db'|]; [|by left]. cbn. destruct (io_commit io); [right; by exists db'|by left].
Qed.

Lemma poll_kept s w w' : poll_inv w -> sane s w -> poll_exec s w = Some w' -> poll_inv w'.
Proof.
  intros I S E. pose proof (pi_phase w I) as Ph. unfold phase_ok in Ph.
  destruct s as [| | | |now query exec|fetched io|]; cbn in E.
  - destruct (pw_open w); [done|]. injection E as <-. by apply (polls_same w).
  - destruct (pw_open w); [|done]. injection E as <-. by apply (polls_same w).
  - destruct (pw_phase w); try done. destruct (pw_open w); [|done]. injection E as <-. apply (polls_same w); try done.
    cbn. repeat constructor; discriminate.
  - destruct (pw_phase w) as [|[|p rest]|]; try done. injection E as <-. by apply (polls_same w).
  - destruct (pw_phase w) as [|[|p rest]|] eqn:Pw; try done. apply list.Forall_cons in Ph as [N Nr]. destruct S as [T U].
    destruct query; [|injection E as <-; by apply (polls_same w)].
    pose proof (reserves w p now exec I N T U) as R. cbn zeta in R.
    destruct (decide (due (history p w) now)) as [D|D]; [destruct exec|].
    + destruct R as (j & R & Rd). rewrite R in E. injection E as <-. by apply (kept_sent w p now j rest I N Nr T U D).
    + rewrite R in E. injection E as <-. by apply (polls_same w).
    + rewrite R in E. injection E as <-. by apply (polls_same w).
  - destruct (pw_phase w) as [| |p now previous rest] eqn:Pw; try done. destruct Ph as (N & Nr & l & At & ->).
    cbn in S. rewrite Pw in S. set (u := answer_of p now fetched) in *.
    destruct (settles w p now rest l u (io_exec io 0) I Pw At eq_refl eq_refl S) as (o & Eo & Res). rewrite Eo in E.
    destruct (commits io o (pw_db w)) as [C|(db' & Cr & C)]; rewrite C in E; [injection E as <-; by apply (polls_same w)|].
    destruct Res as [(K & Oh & O)|Bad]; [|congruence].
    destruct (committed p _ now u o (io_exec io 0) (pw_db w) O Eo Oh N eq_refl) as (j & body & R & B & [X|X]); [congruence|].
    rewrite X in Cr. injection Cr as <-. injection E as <-. pose proof (kept_settled w p now rest l u o j body I At Nr Eo K R B) as Kp.
    assert (match pw_attempts w with a :: l => MkAttempt (at_provider a) (at_time a) (Some u) :: l | [] => [] end = MkAttempt p now (Some u) :: l)
      as X2 by by rewrite At.
    rewrite <- X2 in Kp. exact Kp.
  - destruct (pw_phase w) as [|[|p rest]|]; try done. injection E as <-. by apply (polls_same w).
Qed.

Lemma polls_inv w : poll_reachable w -> poll_inv w.
Proof.
  induction 1 as [|s w w' R IH S E]; [|by apply (poll_kept s w)]. split; try done.
  intros p s j. cbn. rewrite lookup_empty. split; [done|]. intros (a & u & A & _). by apply elem_of_nil in A.
Qed.

(** C37: Whenever a process dies, whatever the vendors answer and the clock says, and
    whichever statements fail, the requests to one provider keep their distance: after
    a reading five minutes, after one that was refused a quarter of an hour, doubled
    with each refusal in a row up to two hours, after any other answer one minute, and
    five after one whose outcome was not committed. A provider is asked in a poll
    exactly when that time has passed since its last request. *)
Theorem polls_are_paced w : poll_reachable w ->
  pw_panicked w = false
  /\ (forall p, keeps_distance (history p w))
  /\ (forall a h, BrokerPlanRetryInterval <= gap a h <= PlanThrottleMaxPenalty)%Z
  /\ forall p rest now w', pw_phase w = PollAt (p :: rest) -> sane (PollReserves now true true) w ->
       poll_exec (PollReserves now true true) w = Some w' ->
       if decide (due (history p w) now)
       then exists previous, pw_phase w' = PollFetching p now previous rest /\ po_Refusals previous = refusals_of (history p w)
              /\ pw_attempts w' = MkAttempt p now None :: pw_attempts w
       else pw_phase w' = PollAt rest /\ pw_attempts w' = pw_attempts w /\ pw_db w' = pw_db w.
Proof.
  intros R. pose proof (polls_inv w R) as I. split_and!; [apply I|apply I|apply gap_bounds|].
  intros p rest now w' Ph [T U] E. pose proof (pi_phase w I) as Pk. unfold phase_ok in Pk. rewrite Ph in Pk.
  apply list.Forall_cons in Pk as [N _]. pose proof (reserves w p now true I N T U) as Rs. cbn zeta in Rs.
  cbn in E. rewrite Ph in E. destruct (decide (due (history p w) now)).
  - destruct Rs as (j & Rs & _). rewrite Rs in E. injection E as <-. exists (observed p (history p w)). split; [done|]. split; [|done].
    apply (history_of p w (pi_good w I)).
  - rewrite Rs in E. injection E as <-. done.
Qed.

Lemma success_in h t u : last_success h = Some (t, u) -> exists a, a ∈ h /\ at_time a = t /\ at_end a = Some u.
Proof.
  induction h as [|a h IH]; [done|]. unfold last_success in *. cbn. destruct (at_end a) as [v|] eqn:E.
  - destruct (is_available v).
    + cbn. intros [= <- <-]. exists a. split; [by left|done].
    + intros L. destruct (IH L) as (b & B & X). exists b. split; [by right|done].
  - intros L. destruct (IH L) as (b & B & X). exists b. split; [by right|done].
Qed.

Lemma latest_of (rows : list PlanUsageObservation) t o : o ∈ rows ->
  (po_SuccessAt o <= foldl (fun t o => if Before t (po_SuccessAt o) then po_SuccessAt o else t) t rows)%Z.
Proof.
  assert (forall l t, t <= foldl (fun t o => if Before t (po_SuccessAt o) then po_SuccessAt o else t) t l)%Z as G.
  { induction l as [|x l IH]; intros u; cbn; [lia|]. unfold Before at 2. destruct (Z.ltb_spec u (po_SuccessAt x)); [|apply IH].
    specialize (IH (po_SuccessAt x)). lia. }
  revert t. induction rows as [|x l IH]; intros t I; [by apply elem_of_nil in I|]. apply elem_of_cons in I as [->|I]; [|by apply IH].
  cbn. unfold Before at 2. destruct (Z.ltb_spec t (po_SuccessAt x)); [apply G|]. specialize (G l t). lia.
Qed.

(** What is published of one provider. *)
Definition published (h : list attempt) (u : PlanUsage) : Prop :=
  match last_end h with
  | Some v => if is_available v then exists t, last_success h = Some (t, v) /\ u = classified t v
              else u_Windows u = [] /\ u_Status u <> PlanUsageAvailable /\ u_FetchedAt u = match last_success h with Some (t, _) => t | None => 0%Z end
  | None => u_Windows u = [] /\ u_Status u <> PlanUsageAvailable /\ u_FetchedAt u = 0%Z
  end.

Lemma backend_published p h : Forall attempt_ok h -> Forall (fun a => at_provider a = p) h ->
  u_Provider (backend (observed p h)) = p /\ published h (backend (observed p h)).
Proof.
  intros K P. pose proof (observed_holds p h K P) as O. set (o := observed p h) in *. pose proof (oa_success _ _ _ O) as S. pose proof (oa_status _ _ _ O) as T.
  assert (forall u, last_end h = Some u -> is_available u = true -> exists t, last_success h = Some (t, u) /\ u_Provider u = p
            /\ backend o = classified t u) as Good.
  { intros u L V. destruct (last_end_available h u L V) as [t Ls]. exists t. split; [done|]. rewrite Ls in S. injection S as _ Sr.
    destruct (success_in h t u Ls) as (a & A & At & Ae). rewrite list.Forall_forall in K, P. specialize (K a A). specialize (P a A).
    destruct K as (_ & _ & K). rewrite Ae in K. split; [by destruct K as [-> _]|]. unfold backend. rewrite Sr, decide_True; [done|]. apply T. by exists u. }
  unfold published. destruct (last_end h) as [v|] eqn:L; [destruct (is_available v) eqn:V|].
  - destruct (Good v eq_refl V) as (t & Ls & Pv & ->). split; [done|]. by exists t.
  - assert (po_Status o <> PlanUsageAvailable) as Ns by (intros X%T; destruct X as (u & [= <-] & X); congruence).
    assert (backend o = new_PlanUsage <| u_Provider := po_Provider o |> <| u_Status := po_Status o |> <| u_Reason := po_Reason o |> <| u_FetchedAt := po_SuccessAt o |>)
      as -> by (unfold backend; destruct (po_Reading o); [by rewrite decide_False|done]).
    split; [apply O|]. split_and!; [done|done|]. cbn. destruct (last_success h) as [[t u]|]; by injection S.
  - assert (po_Status o <> PlanUsageAvailable) as Ns by (intros X%T; destruct X as (u & X & _); congruence).
    assert (backend o = new_PlanUsage <| u_Provider := po_Provider o |> <| u_Status := po_Status o |> <| u_Reason := po_Reason o |> <| u_FetchedAt := po_SuccessAt o |>)
      as -> by (unfold backend; destruct (po_Reading o); [by rewrite decide_False|done]).
    split; [apply O|]. split_and!; [done|done|]. rewrite (no_end_no_success h L) in S. by injection S.
Qed.

(** C38: Whatever happened, the table can be read, and of each provider that was ever
    asked it publishes one backend: the reading of the latest request whose outcome was
    committed when that was available, as it was classified then, and otherwise no
    window, with the time of the last success. The history holds the successes, each
    under its provider and time, and nothing else. *)
Theorem stale_success_is_not_health w : poll_reachable w ->
  (exists backends fetched, ReadBrokerPlanUsage true true (pw_db w) = Some (backends, fetched)
     /\ NoDup (u_Provider <$> backends)
     /\ (forall p, p ∈ u_Provider <$> backends <-> history p w <> [])
     /\ (forall u, u ∈ backends -> published (history (u_Provider u) w) u)
     /\ forall p t u, last_success (history p w) = Some (t, u) -> (t <= fetched)%Z)
  /\ forall p s j, pt_history (pw_db w) !! (p, s) = Some j <-> a_success w p s j.
Proof.
  intros R. pose proof (polls_inv w R) as I. split; [|apply I].
  unfold ReadBrokerPlanUsage. rewrite table_read by done. eexists _, _. split; [reflexivity|].
  assert (forall p, u_Provider (backend (observed p (history p w))) = p /\ published (history p w) (backend (observed p (history p w)))) as B.
  { intros p. apply backend_published; apply list.Forall_forall; intros a A; apply list_elem_of_In, filter_In in A as [A E]; apply list_elem_of_In in A.
    - pose proof (pi_good w I) as G. rewrite list.Forall_forall in G. by apply G.
    - by apply bool_decide_eq_true in E. }
  assert (u_Provider <$> (backend <$> ((fun p => observed p (history p w)) <$> providers_of (pw_db w))) = providers_of (pw_db w)) as Ep.
  { rewrite <- !list_fmap_compose. rewrite <- (list_fmap_id (providers_of (pw_db w))) at 2. apply list_fmap_ext. intros _ p _. apply B. }
  rewrite Ep. split_and!.
  - unfold providers_of. rewrite SliceStable_perm. apply NoDup_elements.
  - intros p. by apply polled_row.
  - intros u U. apply list_elem_of_fmap in U as (o & -> & U). apply list_elem_of_fmap in U as (p & -> & _).
    destruct (B p) as [Bp Bq]. by rewrite Bp.
  - intros p t u L. assert (po_SuccessAt (observed p (history p w)) = t) as <-.
    { pose proof (oa_success _ _ _ (history_of p w (pi_good w I))) as S. rewrite L in S. by injection S. }
    apply latest_of. apply (list_elem_of_fmap_2 (fun p => observed p (history p w))), polled_row; [done|]. by intros X; rewrite X in L.
Qed.
End Reached.

(** ** Runs *)

Module Polls.
Import UsageRuns.

#[export] Instance number_times_json : TimeText := {| time_text t := Some (itoa t); text_time := parse_int |}.
#[export] Instance no_log : MathLog := fun x => x.

Definition noon : Time := (63900000000 * Second)%Z.
Definition all_run : commit_io := MkCommitIO true (fun _ => (true, true)) true.
Definition a_window : PlanWindow := MkWindow "" None PlanWindowWeekly None None None 0 "".
Definition a_reading : PlanUsage := MkPlanUsage "" PlanUsageAvailable "" [a_window] 0 "" 200 "" None None.
Definition a_refusal : PlanUsage := MkPlanUsage "" PlanUsageUnavailable "429" [] 0 "" 429 "" None None.

(** Claude answers, Codex refuses, and the daemon dies while Grok is asked. *)
Definition a_morning : list poll_step :=
  [OwnerOpens; PollBegins; PollReserves noon true true; PollSettles (inl a_reading) all_run;
   PollReserves (noon + Second) true true; PollSettles (inl a_refusal) all_run;
   PollReserves (noon + 2 * Second) true true; OwnerGone; OwnerOpens; PollBegins].

Fixpoint poll_runs (steps : list poll_step) (w : poll_world) : option poll_world :=
  match steps with [] => Some w | s :: steps => poll_exec s w ≫= poll_runs steps end.
Fixpoint all_sane (steps : list poll_step) (w : poll_world) : Prop :=
  match steps with [] => True | s :: steps => sane s w /\ match poll_exec s w with Some w' => all_sane steps w' | None => True end end.
Lemma poll_runs_reachable steps w w' : poll_reachable w -> all_sane steps w -> poll_runs steps w = Some w' -> poll_reachable w'.
Proof.
  revert w. induction steps as [|s steps IH]; intros w R S; cbn in *; [by intros [= <-]|]. destruct S as [S Ss].
  destruct (poll_exec s w) as [v|] eqn:E; [|done]. cbn. apply IH; [by apply (polls_go s w v)|done].
Qed.

Definition rebooted : poll_world := default no_polls (poll_runs a_morning no_polls).

Example claude_is_left_alone :
  (fun w => (pw_phase w, at_time <$> pw_attempts w)) <$> poll_runs (a_morning ++ [PollReserves (noon + 299 * Second) true true]) no_polls
  = Some (PollAt [ProviderCodex; ProviderGrok; ProviderCursor; ProviderBedrock], [noon + 2 * Second; noon + Second; noon]%Z).
Proof. vm_compute. reflexivity. Qed.

Ltac plain :=
  repeat (constructor; [first [assumption | vm_compute;
    first [reflexivity | exact I | by split | apply list.Forall_nil; exact I | split; [split; discriminate|done]
          | split; discriminate | eexists; split_and!; vm_compute; reflexivity]]|]);
  constructor.

Definition the_reading : PlanUsage := classified noon (answer_of ProviderClaude noon (inl a_reading)).
Definition the_refusal : PlanUsage := classified (noon + Second) (answer_of ProviderCodex (noon + Second) (inl a_refusal)).
Lemma window_plain : c_plain (loose new_PlanWindow PlanWindow_fields) (classify_window noon a_window).
Proof. unfold loose, struct, c_plain, PlanWindow_fields. plain. Qed.
Lemma the_reading_plain : c_plain PlanUsage_json the_reading.
Proof.
  assert (Forall (c_plain (loose new_PlanWindow PlanWindow_fields)) (u_Windows the_reading)) by (constructor; [exact window_plain|constructor]).
  unfold PlanUsage_json, loose, struct, c_plain, PlanUsage_fields. plain.
Qed.
Lemma the_refusal_plain : c_plain PlanUsage_json the_refusal.
Proof. unfold PlanUsage_json, loose, struct, c_plain, PlanUsage_fields. plain. Qed.

Ltac next_step :=
  match goal with |- context [poll_exec ?s ?w] =>
    let x := eval vm_compute in (poll_exec s w) in replace (poll_exec s w) with x by (vm_compute; reflexivity) end.
Lemma morning_sane : all_sane a_morning no_polls.
Proof.
  assert (forall t, (noon <= t <= noon + Hour)%Z -> has_text t /\ has_text (Add t PlanThrottleMaxPenalty)) as T.
  { intros t B. unfold has_text, Add, PlanThrottleMaxPenalty, noon, Hour, Minute, Second in *. lia. }
  unfold a_morning. cbn [all_sane sane].
  repeat first [split; [first [exact I | apply T; vm_compute; split; discriminate
                               | left; exact the_reading_plain | left; exact the_refusal_plain]|next_step; cbn [all_sane sane pw_phase]] | exact I].
Qed.
Lemma rebooted_reachable : poll_reachable rebooted.
Proof. apply (poll_runs_reachable a_morning no_polls); [constructor|exact morning_sane|vm_compute; reflexivity]. Qed.

Theorem polls_are_paced_witness :
  keeps_distance (history ProviderClaude rebooted)
  /\ exists w', poll_exec (PollReserves (noon + 299 * Second) true true) rebooted = Some w' /\ pw_attempts w' = pw_attempts rebooted.
Proof.
  destruct (polls_are_paced rebooted rebooted_reachable) as (_ & P & _ & D). split; [apply P|].
  destruct (poll_exec (PollReserves (noon + 299 * Second) true true) rebooted) as [w'|] eqn:E; [|vm_compute in E; discriminate E].
  exists w'. split; [reflexivity|]. specialize (D ProviderClaude (tail polled) (noon + 299 * Second)%Z w').
  destruct (decide (due (history ProviderClaude rebooted) (noon + 299 * Second)%Z)) as [X|X]; [vm_compute in X; exfalso; by apply X|].
  apply D; [vm_compute; reflexivity| |exact E]. split; vm_compute; split; [discriminate|reflexivity|discriminate|reflexivity].
Defined.

Theorem stale_success_is_not_health_witness :
  exists backends fetched, ReadBrokerPlanUsage true true (pw_db rebooted) = Some (backends, fetched)
    /\ (forall u, u ∈ backends -> published (history (u_Provider u) rebooted) u) /\ ProviderClaude ∈ u_Provider <$> backends.
Proof.
  destruct (stale_success_is_not_health rebooted rebooted_reachable) as [(backends & fetched & R & _ & A & P & _) _].
  exists backends, fetched. split; [exact R|]. split; [exact P|]. apply A. vm_compute. discriminate.
Defined.

(** Codex is asked again a quarter of an hour later, and its plan is unknown until then. *)
Example codex_waits_for_its_penalty :
  let asked t := option_map (fun w => option_map at_provider (head (pw_attempts w)))
                   (poll_runs [PollReserves (noon + 298 * Second) true true; PollReserves t true true] rebooted) in
  (asked (noon + 900 * Second)%Z, asked (noon + 901 * Second)%Z) = (Some (Some ProviderGrok), Some (Some ProviderCodex))
  /\ option_map (fun r : list PlanUsage * Time => List.map u_Status r.1) (ReadBrokerPlanUsage true true (pw_db rebooted))
     = Some [PlanUsageAvailable; PlanUsageUnavailable; PlanUsageUnavailable].
Proof. split; vm_compute; reflexivity. Qed.

(** A generation with one bad reading leaves the table as it was. *)
Example a_generation_is_whole :
  CommitBrokerUsageFixture true noon all_run [a_refusal <| u_Provider := ProviderCodex |>; a_reading <| u_Provider := ProviderClaude |>] (pw_db no_polls)
  = (pw_db no_polls, Some SeamWindow).
Proof. vm_compute. reflexivity. Qed.

(** A provider that is overridden is never asked, also before it has a reading. *)
Example an_override_answers_for_the_vendor :
  let ov := (InstallBrokerUsageOverride [ProviderGrok] no_override).1 in
  (override_fetch ov noon (fun _ => inr "asked") ProviderGrok, override_fetch ov noon (fun _ => inr "asked") ProviderClaude,
   (StoreBrokerUsageOverride [a_reading <| u_Provider := ProviderClaude |>] ov).2)
  = (inl (unavailablePlan ProviderGrok noon "usage override idle"), inr "asked", Some (SeamNotAllowed ProviderClaude)).
Proof. vm_compute. reflexivity. Qed.
End Polls.
