(* ===== verification/ControlLink.v ===== *)
(** * ControlLink: the links between the control files, a replica, and the owner's closing

    Models [controlplane/link.go], [controlplane/replica.go],
    [controlplane/query_subscription.go], [control_observe.go], and the links and the
    closing of [controlplane/observe.go]. What sqlpipe does over a link, the sockets,
    and which process lives are arguments. A function that holds a mutex is one step;
    goroutines are cut where they wait or release it. *)

From Stdlib Require Import Ascii.
From S2P Require Import Prelude GoLib GoFloat GoJson GoStruct WireResponses Wire UsageFacts UsageFactsTheorems.

(** ** Frames *)

Definition maxFrame : Z := Z.shiftl 64 20.

(** [binary.BigEndian.PutUint32] and [Uint32]. *)
Definition put_uint32 (n : Z) : string :=
  bytes (Z.to_nat <$> [Z.land (Z.shiftr n 24) 255; Z.land (Z.shiftr n 16) 255; Z.land (Z.shiftr n 8) 255; Z.land n 255]).
Definition get_uint32 (s : string) : Z := fold_left (fun n a => 256 * n + Z.of_nat (nat_of_ascii a))%Z (String.list_ascii_of_string s) 0%Z.

Inductive frame_error := FrameEOF | FrameCut | FrameSize (n : Z).

(** [io.ReadFull] of [n] bytes of what the peer sent before the stream ended. *)
Definition ReadFull (n : nat) (s : string) : (string * string) + frame_error :=
  if (n <=? len s)%nat then inl (take_bytes n s, drop_bytes n s)
  else inr (if bool_decide (s = "") then FrameEOF else FrameCut).

Definition readFrame (s : string) : (string * string) + frame_error :=
  match ReadFull 4 s with
  | inr e => inr e
  | inl (hdr, s) =>
    let n := get_uint32 hdr in
    if (n =? 0)%Z || (maxFrame <? n)%Z then inr (FrameSize n) else ReadFull (Z.to_nat n) s
  end.

(** What is written, when the connection takes it. *)
Definition writeFrame (b : string) : string + frame_error :=
  if bool_decide (len b = 0%nat) || (maxFrame <? Z.of_nat (len b))%Z then inr (FrameSize (Z.of_nat (len b)))
  else inl (put_uint32 (Z.of_nat (len b)) +:+ b).

(** ** The slot of the one consumer *)

(** Of [gen], a uint64; a connection is its number. *)
Record consumerLinkSlot := MkSlot { cs_gen : Z; cs_busy : bool; cs_conn : option nat; cs_pid : Z }.
#[export] Instance eta_consumerLinkSlot : Eta consumerLinkSlot := fun s => MkSlot (cs_gen s) (cs_busy s) (cs_conn s) (cs_pid s).
#[export] Hint Extern 1 (@Setter consumerLinkSlot _ _) => setter_of eta_consumerLinkSlot : typeclass_instances.

(** [linkPeerAlive] at one moment. *)
Abbreviation peers := (Z -> bool) (only parsing).

(** [evictStale]: the connection it closes. *)
Definition evictStale (alive : peers) (s : consumerLinkSlot) : option nat :=
  if negb (cs_busy s) then None else if (0 <? cs_pid s)%Z && alive (cs_pid s) then None else cs_conn s.

(** [begin]: the slot, and the generation and the connection it closes, or a refusal. *)
Definition held_by_another (alive : peers) (pid : Z) (s : consumerLinkSlot) : bool :=
  cs_busy s && ((0 <? cs_pid s)%Z && alive (cs_pid s)) && (0 <? pid)%Z && (0 <? cs_pid s)%Z && negb (pid =? cs_pid s)%Z.
Definition begin_link (alive : peers) (conn : nat) (pid : Z) (s : consumerLinkSlot) : consumerLinkSlot * option (Z * option nat) :=
  if held_by_another alive pid s then (s, None)
  else
    let gen := ((cs_gen s + 1) mod 2 ^ 64)%Z in
    (MkSlot gen true (Some conn) pid, Some (gen, if cs_busy s then cs_conn s else None)).
Definition end_link (gen : Z) (s : consumerLinkSlot) : consumerLinkSlot :=
  if (cs_gen s =? gen)%Z then s <| cs_busy := false |> <| cs_conn := None |> <| cs_pid := 0%Z |> else s.

(** ** [serve] and its workers *)

Inductive link_phase :=
| LNew              (* accepted *)
| LRefused
| LWaiting          (* for the worker before it *)
| LRunning          (* in [runLink] *)
| LEnding           (* it has returned *)
| LLeft             (* out of the slot *)
| LFinished.
#[export] Instance link_phase_eq : EqDecision link_phase.
Proof. solve_decision. Defined.

Record link_conn := MkLinkConn { lc_pid : Z; lc_gen : Z; lc_waits : option nat; lc_closed : bool; lc_phase : link_phase }.
#[export] Instance eta_link_conn : Eta link_conn := fun c => MkLinkConn (lc_pid c) (lc_gen c) (lc_waits c) (lc_closed c) (lc_phase c).
#[export] Hint Extern 1 (@Setter link_conn _ _) => setter_of eta_link_conn : typeclass_instances.

Inductive serve_phase := SAccepting | SEvicting (i : nat) | SBeginning (i : nat) | SDraining | SServed.

Record link_world := MkLinkWorld {
  lw_slot : consumerLinkSlot; lw_conns : list link_conn; lw_prev : option nat; lw_loop : serve_phase; lw_done : bool }.
#[export] Instance eta_link_world : Eta link_world := fun w => MkLinkWorld (lw_slot w) (lw_conns w) (lw_prev w) (lw_loop w) (lw_done w).
#[export] Hint Extern 1 (@Setter link_world _ _) => setter_of eta_link_world : typeclass_instances.

Definition no_links : link_world := MkLinkWorld (MkSlot 0 false None 0) [] None SAccepting false.

Definition on_conn (i : nat) (f : link_conn -> link_conn) (w : link_world) : link_world := w <| lw_conns ::= alter f i |>.
Definition close_conn (c : link_conn) : link_conn := c <| lc_closed := true |>.
Definition close_all (o : option nat) (w : link_world) : link_world := match o with Some i => on_conn i close_conn w | None => w end.

(** A connection [serve] started a worker for. *)
Definition launched (c : link_conn) : bool := match lc_phase c with LNew | LRefused => false | _ => true end.
Definition finished (c : link_conn) : bool := bool_decide (lc_phase c = LFinished).

Inductive link_step :=
| Accepts (pid : Z)
| AcceptFails
| Evicts (alive : peers)
| Begins (alive : peers)
| WaitEnds (i : nat)
| LinkEnds (i : nat) (peer : bool)   (* [peer]: by the other end, or an error *)
| SlotEnds (i : nat)
| Finishes (i : nat)
| LinksStop                          (* [close(done)] *)
| Serves.

Definition begins (alive : peers) (i : nat) (c : link_conn) (w : link_world) : link_world :=
  let b := begin_link alive i (lc_pid c) (lw_slot w) in
  match b.2 with
  | None => on_conn i (fun c => c <| lc_closed := true |> <| lc_phase := LRefused |>) (w <| lw_loop := SAccepting |>)
  | Some (gen, old) =>
    on_conn i (fun c => c <| lc_gen := gen |> <| lc_waits := lw_prev w |> <| lc_phase := LWaiting |>)
      (close_all old (w <| lw_slot := b.1 |> <| lw_prev := Some i |> <| lw_loop := SAccepting |>))
  end.

Definition link_exec (s : link_step) (w : link_world) : option link_world :=
  let at_conn i (f : link_conn -> option link_world) := mbind f (lw_conns w !! i) in
  match s with
  | Accepts pid =>
    match lw_loop w with
    | SAccepting => Some (w <| lw_conns ::= fun l => l ++ [MkLinkConn pid 0 None false LNew] |> <| lw_loop := SEvicting (length (lw_conns w)) |>)
    | _ => None
    end
  | AcceptFails => match lw_loop w with SAccepting => Some (w <| lw_loop := SDraining |>) | _ => None end
  | Evicts alive =>
    match lw_loop w with SEvicting i => Some (close_all (evictStale alive (lw_slot w)) (w <| lw_loop := SBeginning i |>)) | _ => None end
  | Begins alive => match lw_loop w with SBeginning i => at_conn i (fun c => Some (begins alive i c w)) | _ => None end
  | WaitEnds i =>
    at_conn i (fun c => match lc_phase c with
                        | LWaiting =>
                          if match lc_waits c with None => true | Some j => match lw_conns w !! j with Some d => finished d | None => false end end
                          then Some (on_conn i (fun c => c <| lc_phase := LRunning |>) w) else None
                        | _ => None
                        end)
  | LinkEnds i peer =>
    at_conn i (fun c => match lc_phase c with
                        | LRunning => if peer || lc_closed c || lw_done w
                                      then Some (on_conn i (fun c => c <| lc_closed := true |> <| lc_phase := LEnding |>) w) else None
                        | _ => None
                        end)
  | SlotEnds i =>
    at_conn i (fun c => match lc_phase c with
                        | LEnding => Some (on_conn i (fun c => c <| lc_phase := LLeft |>) (w <| lw_slot ::= end_link (lc_gen c) |>))
                        | _ => None
                        end)
  | Finishes i =>
    at_conn i (fun c => match lc_phase c with LLeft => Some (on_conn i (fun c => c <| lc_phase := LFinished |>) w) | _ => None end)
  | LinksStop => Some (w <| lw_done := true |>)
  | Serves =>
    match lw_loop w with
    | SDraining => if forallb (fun c => negb (launched c) || finished c) (lw_conns w) then Some (w <| lw_loop := SServed |>) else None
    | _ => None
    end
  end.

Inductive link_reachable : link_world -> Prop :=
| links_start : link_reachable no_links
| links_go s w w' : link_reachable w -> link_exec s w = Some w' -> link_reachable w'.

(** *** What is written is read *)

Lemma byte_value n : (0 <= n < 256)%Z -> Z.of_nat (nat_of_ascii (byte (Z.to_nat n))) = n.
Proof. intros B. unfold byte. rewrite nat_ascii_embedding by lia. lia. Qed.

Lemma uint32_back n : (0 <= n < 2 ^ 32)%Z -> get_uint32 (put_uint32 n) = n.
Proof.
  intros B. unfold get_uint32, put_uint32, bytes. rewrite String.list_ascii_of_string_of_list_ascii. cbn [fmap list_fmap fold_left].
  change 255%Z with (Z.ones 8). rewrite !Z.land_ones, !Z.shiftr_div_pow2 by lia. change (2 ^ 8)%Z with 256%Z.
  rewrite !byte_value by (apply Z.mod_pos_bound; lia). change (2 ^ 24)%Z with 16777216%Z. change (2 ^ 16)%Z with 65536%Z. change (2 ^ 32)%Z with 4294967296%Z in B.
  Z.to_euclidean_division_equations. lia.
Qed.
Lemma uint32_len n : len (put_uint32 n) = 4%nat.
Proof. done. Qed.

(** A frame that is written is read as it was, whatever follows; of one that is cut
    short no frame is read. *)
Theorem a_frame_is_read_back b s : writeFrame b = inl s ->
  (forall rest, readFrame (s +:+ rest) = inl (b, rest)) /\ forall n, n < len s -> exists e, readFrame (take_bytes n s) = inr e.
Proof.
  unfold writeFrame. destruct (bool_decide_reflect (len b = 0%nat)) as [|Ne]; [done|]. destruct (Z.ltb_spec maxFrame (Z.of_nat (len b))) as [|Le]; [done|].
  intros [= <-]. assert (get_uint32 (put_uint32 (Z.of_nat (len b))) = Z.of_nat (len b)) as Gu
    by (apply uint32_back; change maxFrame with 67108864%Z in Le; change (2 ^ 32)%Z with 4294967296%Z; lia).
  set (hdr := put_uint32 (Z.of_nat (len b))) in *. assert (len hdr = 4%nat) as Lh by done.
  assert ((Z.of_nat (len b) =? 0)%Z || (maxFrame <? Z.of_nat (len b))%Z = false) as Sz
    by (apply orb_false_iff; split; [apply Z.eqb_neq; lia|apply Z.ltb_ge; lia]).
  assert (forall t, readFrame (hdr +:+ t) = ReadFull (len b) t) as Rd.
  { intros t. unfold readFrame, ReadFull at 1. rewrite len_app, Lh. cbn [Nat.leb Nat.add]. rewrite <- Lh, take_bytes_app, drop_bytes_app.
    cbv iota. by rewrite Gu, Sz, Nat2Z.id. }
  split.
  - intros rest. rewrite <- str_app_assoc, Rd. unfold ReadFull. rewrite len_app, (proj2 (Nat.leb_le _ _)) by lia.
    by rewrite take_bytes_app, drop_bytes_app.
  - intros n N. rewrite len_app, Lh in N. destruct (Nat.leb_spec 4 n) as [L|L].
    + rewrite take_bytes_past, Rd by (rewrite Lh; lia). unfold ReadFull. rewrite Lh, len_take_bytes by lia.
      rewrite (proj2 (Nat.leb_gt _ _)) by lia. by eexists.
    + unfold readFrame, ReadFull at 1. rewrite len_take_bytes by (rewrite len_app; lia). rewrite (proj2 (Nat.leb_gt _ _)) by lia. by eexists.
Qed.

(** ** What holds in every reachable state *)

(** In [runLink] or past it; past it; in the slot. *)
Definition active (c : link_conn) : bool := match lc_phase c with LRunning | LEnding | LLeft | LFinished => true | _ => false end.
Definition ended (c : link_conn) : bool := match lc_phase c with LEnding | LLeft | LFinished => true | _ => false end.
Definition holds_slot (c : link_conn) : bool := match lc_phase c with LWaiting | LRunning | LEnding => true | _ => false end.

(** [o] is the last connection before [n] that was launched. *)
Definition last_launched (conns : list link_conn) (n : nat) (o : option nat) : Prop :=
  (forall i, o = Some i -> i < n /\ exists c, conns !! i = Some c /\ launched c = true)
  /\ forall j d, j < n -> conns !! j = Some d -> launched d = true -> exists i, o = Some i /\ j <= i.

Record conn_ok (w : link_world) (i : nat) (c : link_conn) : Prop := {
  co_waits : launched c = true -> last_launched (lw_conns w) i (lc_waits c);
  co_turn : active c = true -> forall j d, j < i -> lw_conns w !! j = Some d -> launched d = true -> lc_phase d = LFinished;
  co_old : launched c = true -> lw_prev w <> Some i -> lc_closed c = true /\ (lc_gen c < cs_gen (lw_slot w))%Z;
  co_now : lw_prev w = Some i -> lc_gen c = cs_gen (lw_slot w);
  co_ended : ended c = true -> lc_closed c = true }.

Definition slot_ok (w : link_world) : Prop :=
  if cs_busy (lw_slot w)
  then exists i c, lw_prev w = Some i /\ lw_conns w !! i = Some c /\ cs_conn (lw_slot w) = Some i /\ cs_pid (lw_slot w) = lc_pid c /\ holds_slot c = true
  else forall i c, lw_prev w = Some i -> lw_conns w !! i = Some c -> holds_slot c = false.

Definition loop_ok (w : link_world) : Prop :=
  match lw_loop w with
  | SEvicting i | SBeginning i => S i = length (lw_conns w) /\ exists c, lw_conns w !! i = Some c /\ lc_phase c = LNew
  | SServed => forall i c, lw_conns w !! i = Some c -> launched c = true -> lc_phase c = LFinished
  | _ => True
  end.

(** A connection that was accepted and has not been tried. *)
Definition untried (w : link_world) : Z := match lw_loop w with SEvicting _ | SBeginning _ => 1 | _ => 0 end.

Record link_inv (w : link_world) : Prop := {
  li_conns i c : lw_conns w !! i = Some c -> conn_ok w i c;
  li_prev : last_launched (lw_conns w) (length (lw_conns w)) (lw_prev w);
  li_gen : (0 <= cs_gen (lw_slot w) <= Z.of_nat (length (lw_conns w)) - untried w)%Z;
  li_slot : slot_ok w;
  li_loop : loop_ok w }.

(** Who was launched is all that matters. *)
Lemma last_launched_below l l' n o : (forall j, j < n -> launched <$> l' !! j = launched <$> l !! j) -> last_launched l n o -> last_launched l' n o.
Proof.
  intros E [A B]. split.
  - intros i O. destruct (A i O) as (L & c & C & X). split; [done|]. specialize (E i L). rewrite C in E. destruct (l' !! i) as [d|]; [|done].
    exists d. split; [done|]. cbn in E. congruence.
  - intros j d J D X. specialize (E j J). rewrite D in E. destruct (l !! j) as [c|] eqn:C; [|done]. apply (B j c J C). cbn in E. congruence.
Qed.

Lemma last_launched_same l l' n o : (forall j, launched <$> l' !! j = launched <$> l !! j) -> last_launched l n o -> last_launched l' n o.
Proof. intros E. apply last_launched_below. auto. Qed.

Lemma launched_alter i f (l : list link_conn) : (forall c, l !! i = Some c -> launched (f c) = launched c) ->
  forall j, launched <$> alter f i l !! j = launched <$> l !! j.
Proof.
  intros F j. destruct (decide (j = i)) as [->|N]; [|by rewrite list_lookup_alter_ne].
  rewrite list_lookup_alter_eq. destruct (l !! i) as [c|] eqn:C; [|done]. cbn. by rewrite F.
Qed.

(** A worker goes on, or its connection is closed. *)
Lemma kept_moves w w' i c f : link_inv w -> lw_conns w !! i = Some c -> launched c = true -> launched (f c) = true ->
  lc_gen (f c) = lc_gen c -> lc_waits (f c) = lc_waits c -> lc_pid (f c) = lc_pid c -> (lc_closed c = true -> lc_closed (f c) = true) ->
  (active (f c) = true -> forall j d, j < i -> lw_conns w !! j = Some d -> launched d = true -> lc_phase d = LFinished) ->
  (ended (f c) = true -> lc_closed (f c) = true) -> (lc_phase c = LFinished -> lc_phase (f c) = LFinished) ->
  lw_conns w' = alter f i (lw_conns w) -> lw_prev w' = lw_prev w -> cs_gen (lw_slot w') = cs_gen (lw_slot w) -> untried w' = untried w ->
  slot_ok w' -> loop_ok w' -> link_inv w'.
Proof.
  intros I C Lc Lf Eg Ew Ep Cl Ac En Fi Ec Epv Egs Eu Sl Lo.
  assert (forall j, launched <$> lw_conns w' !! j = launched <$> lw_conns w !! j) as Same.
  { rewrite Ec. apply launched_alter. intros d D. rewrite C in D. injection D as <-. congruence. }
  split; [|rewrite Ec, length_alter, <- Ec, Epv; apply (last_launched_same _ _ _ _ Same), I|rewrite Egs, Eu, Ec, length_alter; apply I|done|done].
  assert (forall j d, lw_conns w' !! j = Some d -> launched d = true ->
            (forall e, lw_conns w !! j = Some e -> launched e = true -> lc_phase e = LFinished) -> lc_phase d = LFinished) as Fin.
  { intros j d D Ld Old. rewrite Ec in D. apply alter_lookup in D as [[-> (x & X & ->)]|[N D]]; [|by apply Old].
    rewrite C in X. injection X as <-. by apply Fi, Old. }
  rewrite Ec. apply alter_all.
  - intros j d D N. destruct (li_conns w I j d D) as [A B E F G]. split; try done; [|..].
    + intros L. by apply (last_launched_same _ _ _ _ Same), A.
    + intros X k e K E' L. apply (Fin k e E' L). intros y Y Ly. by apply (B X k y).
    + rewrite Epv, Egs. exact E.
    + rewrite Epv, Egs. exact F.
  - intros x X. rewrite C in X. injection X as <-. destruct (li_conns w I i c C) as [A B E F G]. split; try done; [..].
    + intros _. rewrite Ew. by apply (last_launched_same _ _ _ _ Same), A.
    + intros Y k e K E' L. apply (Fin k e E' L). intros y Yk Ly. by apply (Ac Y k y).
    + intros _ N. rewrite Epv in N. rewrite Egs, Eg. destruct (E Lc N) as [X1 X2]. split; [by apply Cl|done].
    + rewrite Epv, Egs, Eg. exact F.
Qed.

Lemma slot_moves w w' i c f : slot_ok w -> lw_conns w !! i = Some c -> lc_pid (f c) = lc_pid c -> holds_slot (f c) = holds_slot c ->
  lw_conns w' = alter f i (lw_conns w) -> lw_prev w' = lw_prev w -> lw_slot w' = lw_slot w -> slot_ok w'.
Proof.
  intros S C P H Ec Ep Es. unfold slot_ok in *. rewrite Ec, Ep, Es. destruct (cs_busy (lw_slot w)).
  - destruct S as (k & d & Pv & D & Cn & Pd & Hd). destruct (decide (k = i)) as [->|N].
    + rewrite C in D. injection D as <-. exists i, (f c). rewrite list_lookup_alter_eq, C. split_and!; try done; congruence.
    + exists k, d. rewrite list_lookup_alter_ne by done. done.
  - intros k d Pv [[-> (x & X & ->)]|[N D]]%alter_lookup; [|by apply (S k d)]. rewrite C in X. injection X as <-. rewrite H. by apply (S i c).
Qed.

Lemma loop_moves w w' i c f : loop_ok w -> lw_conns w !! i = Some c -> launched c = true -> (lc_phase c = LFinished -> lc_phase (f c) = LFinished) ->
  lw_conns w' = alter f i (lw_conns w) -> lw_loop w' = lw_loop w -> loop_ok w'.
Proof.
  intros L C Lc Fi Ec El. unfold loop_ok in *. rewrite Ec, El, ?length_alter.
  assert (forall k, (exists d, lw_conns w !! k = Some d /\ lc_phase d = LNew) -> exists d, alter f i (lw_conns w) !! k = Some d /\ lc_phase d = LNew) as New.
  { intros k (d & D & P). assert (k <> i) as N. { intros ->. rewrite C in D. injection D as <-. unfold launched in Lc. by rewrite P in Lc. }
    exists d. by rewrite list_lookup_alter_ne. }
  destruct (lw_loop w); try done; [destruct L as [? L]; split; [done|by apply New]..|].
  intros k d [[-> (x & X & ->)]|[N D]]%alter_lookup Ld; [|by apply (L k d)]. rewrite C in X. injection X as <-. apply Fi. by apply (L i c).
Qed.

(** The one at [n] is not launched. *)
Lemma last_launched_skip l n o c : l !! n = Some c -> launched c = false -> last_launched l n o <-> last_launched l (S n) o.
Proof.
  intros C L. split; intros [A B]; split.
  - intros i O. destruct (A i O) as (X & Y). split; [lia|done].
  - intros j d J D X. destruct (decide (j = n)) as [->|]; [congruence|]. apply (B j d); [lia|done..].
  - intros i O. destruct (A i O) as (X & d & D & Y). split; [|by exists d]. destruct (decide (i = n)) as [->|]; [congruence|lia].
  - intros j d J D X. apply (B j d); [lia|done..].
Qed.

Section Kept.
Variable w : link_world.
Hypothesis I : link_inv w.

Lemma prev_bound i : lw_prev w = Some i -> i < length (lw_conns w) /\ exists c, lw_conns w !! i = Some c /\ launched c = true.
Proof. intros P. by apply (proj1 (li_prev w I)). Qed.

Lemma kept_accepts pid : lw_loop w = SAccepting ->
  link_inv (w <| lw_conns ::= fun l => l ++ [MkLinkConn pid 0 None false LNew] |> <| lw_loop := SEvicting (length (lw_conns w)) |>).
Proof.
  intros Lo. set (new := MkLinkConn pid 0 None false LNew). match goal with |- link_inv ?x => set (w' := x) end.
  assert (lw_conns w' = lw_conns w ++ [new]) as Ec by done.
  assert (forall j c, j < length (lw_conns w) -> lw_conns w' !! j = Some c -> lw_conns w !! j = Some c) as Old.
  { intros j c J C. by rewrite Ec, lookup_app_l in C. }
  assert (forall n o, n <= length (lw_conns w) -> last_launched (lw_conns w) n o -> last_launched (lw_conns w') n o) as Ll.
  { intros n o N. apply last_launched_below. intros j J. rewrite Ec, lookup_app_l; [done|lia]. }
  assert (lw_conns w' !! length (lw_conns w) = Some new) as New by by rewrite Ec, list_lookup_middle.
  split.
  - intros i c C. destruct (decide (i < length (lw_conns w))) as [L|L].
    + apply (Old i c L) in C. destruct (li_conns w I i c C) as [A B E F G]. split; try done.
      * intros X. apply Ll; [lia|]. by apply A.
      * intros X j d J D. apply (B X j d J), Old; [lia|done].
    + assert (i = length (lw_conns w)) as ->. { apply lookup_lt_Some in C. rewrite Ec, length_app in C. cbn in C. lia. }
      rewrite New in C. injection C as <-. split; try done. change (lw_prev w') with (lw_prev w). intros P. destruct (prev_bound _ P). lia.
  - replace (length (lw_conns w')) with (S (length (lw_conns w))) by (rewrite Ec, length_app; cbn; lia).
    apply (last_launched_skip _ _ _ new New eq_refl). apply Ll; [done|apply I].
  - pose proof (li_gen w I) as G. unfold untried in G |- *. rewrite Lo in G. rewrite Ec, length_app. cbn [length].
    change (lw_slot w') with (lw_slot w). change (lw_loop w') with (SEvicting (length (lw_conns w))). cbv iota. lia.
  - pose proof (li_slot w I) as S. unfold slot_ok in *. change (lw_slot w') with (lw_slot w). change (lw_prev w') with (lw_prev w).
    destruct (cs_busy (lw_slot w)).
    + destruct S as (i & c & P & C & X). exists i, c. split; [done|]. split; [|done]. rewrite Ec. by apply lookup_app_l_Some.
    + intros i c P C. apply (S i c P), Old; [|done]. by apply prev_bound.
  - unfold loop_ok. change (lw_loop w') with (SEvicting (length (lw_conns w))). cbv iota. rewrite Ec, length_app. cbn. split; [lia|].
    exists new. by rewrite <- Ec.
Qed.

(** Nothing but the loop, or the stop, is new. *)
Lemma kept_loop w' : lw_conns w' = lw_conns w -> lw_prev w' = lw_prev w -> lw_slot w' = lw_slot w -> (untried w' <= untried w)%Z -> loop_ok w' -> link_inv w'.
Proof.
  intros Ec Ep Es Eu L. split; [|by rewrite Ec, Ep; apply I| | |done].
  - intros i c. rewrite Ec. intros C. destruct (li_conns w I i c C). split; by rewrite ?Ec, ?Ep, ?Es.
  - rewrite Ec, Es. pose proof (li_gen w I). lia.
  - pose proof (li_slot w I) as S. unfold slot_ok in *. by rewrite Ec, Ep, Es.
Qed.

Lemma kept_refuses i c : lw_loop w = SBeginning i -> lw_conns w !! i = Some c ->
  link_inv (on_conn i (fun c => c <| lc_closed := true |> <| lc_phase := LRefused |>) (w <| lw_loop := SAccepting |>)).
Proof.
  intros Lo C. pose proof (li_loop w I) as L. unfold loop_ok in L. rewrite Lo in L. destruct L as (Len & x & X & Ph). rewrite C in X. injection X as <-.
  set (f := fun c : link_conn => _). set (w' := on_conn i f _). assert (lw_conns w' = alter f i (lw_conns w)) as Ec by done.
  assert (launched c = false) as Lc by (unfold launched; by rewrite Ph).
  assert (forall j, launched <$> lw_conns w' !! j = launched <$> lw_conns w !! j) as Same.
  { rewrite Ec. apply launched_alter. intros d D. rewrite C in D. injection D as <-. by rewrite Lc. }
  assert (lw_prev w <> Some i) as Np. { intros P. destruct (prev_bound i P) as (_ & d & D & Ld). congruence. }
  split.
  - rewrite Ec. apply alter_all.
    + intros j d D N. destruct (li_conns w I j d D) as [A B E F G]. split; try done.
      * intros X. by apply (last_launched_same _ _ _ _ Same), A.
      * intros X k e K E' Le. rewrite Ec in E'. apply alter_lookup in E' as [[-> (y & Y & ->)]|[Nk E']]; [done|by apply (B X k e)].
    + intros y Y. rewrite C in Y. injection Y as <-. split; try done.
  - rewrite Ec, length_alter, <- Ec. apply (last_launched_same _ _ _ _ Same), I.
  - rewrite Ec, length_alter. pose proof (li_gen w I) as G. unfold untried in *. rewrite Lo in G. change (lw_slot w') with (lw_slot w).
    change (lw_loop w') with SAccepting. cbv iota. lia.
  - pose proof (li_slot w I) as S. unfold slot_ok in *. change (lw_slot w') with (lw_slot w). change (lw_prev w') with (lw_prev w). rewrite Ec.
    destruct (cs_busy (lw_slot w)).
    + destruct S as (k & d & P & D & Y). exists k, d. split; [done|]. split; [|done]. rewrite list_lookup_alter_ne; [done|]. intros ->. congruence.
    + intros k d P. rewrite list_lookup_alter_ne by (intros ->; congruence). apply (S k d P).
  - done.
Qed.

Lemma kept_launches i c pid : (Z.of_nat (length (lw_conns w)) < 2 ^ 64)%Z -> lw_loop w = SBeginning i -> lw_conns w !! i = Some c -> pid = lc_pid c ->
  (forall k d, lw_prev w = Some k -> lw_conns w !! k = Some d -> lc_closed d = true) ->
  link_inv (on_conn i (fun c => c <| lc_gen := ((cs_gen (lw_slot w) + 1) mod 2 ^ 64)%Z |> <| lc_waits := lw_prev w |> <| lc_phase := LWaiting |>)
              (w <| lw_slot := MkSlot ((cs_gen (lw_slot w) + 1) mod 2 ^ 64)%Z true (Some i) pid |> <| lw_prev := Some i |> <| lw_loop := SAccepting |>)).
Proof.
  intros Few Lo C -> Closed. pose proof (li_loop w I) as L. unfold loop_ok in L. rewrite Lo in L. destruct L as (Len & x & X & Ph).
  rewrite C in X. injection X as <-. pose proof (li_gen w I) as G. unfold untried in G. rewrite Lo in G.
  assert (((cs_gen (lw_slot w) + 1) mod 2 ^ 64)%Z = (cs_gen (lw_slot w) + 1)%Z) as -> by (apply Z.mod_small; lia).
  set (f := fun c : link_conn => _). set (w' := on_conn i f _). assert (lw_conns w' = alter f i (lw_conns w)) as Ec by done.
  assert (launched c = false) as Lc by (unfold launched; by rewrite Ph).
  assert (forall n o, n <= i -> last_launched (lw_conns w) n o -> last_launched (lw_conns w') n o) as Ll.
  { intros n o N. apply last_launched_below. intros j J. rewrite Ec, list_lookup_alter_ne by lia. done. }
  assert (forall j d, lw_conns w' !! j = Some d -> j <> i -> lw_conns w !! j = Some d) as Old.
  { intros j d D N. by rewrite Ec, list_lookup_alter_ne in D. }
  split.
  - rewrite Ec. apply alter_all.
    + intros j d D N. assert (j < i) as J by (apply lookup_lt_Some in D; lia). destruct (li_conns w I j d D) as [A B E F H]. split; try done.
      * intros Y. apply Ll; [lia|]. by apply A.
      * intros Y k e K E' Le. apply (B Y k e K); [|done]. apply Old; [done|lia].
      * intros Y _. change (cs_gen (lw_slot w')) with (cs_gen (lw_slot w) + 1)%Z. destruct (decide (lw_prev w = Some j)) as [P|P].
        -- split; [by apply (Closed j d)|]. rewrite F by done. lia.
        -- destruct (E Y P). split; [done|lia].
      * intros [= Y]. lia.
    + intros y Y. rewrite C in Y. injection Y as <-. split; try done. intros _. apply Ll; [done|].
      apply (proj2 (last_launched_skip (lw_conns w) i (lw_prev w) c C Lc)). rewrite Len. exact (li_prev w I).
  - rewrite Ec, length_alter. change (lw_prev w') with (Some i). split.
    + intros k [= <-]. split; [lia|]. exists (f c). by rewrite list_lookup_alter_eq, C.
    + intros j d J _ _. exists i. split; [done|lia].
  - rewrite Ec, length_alter. change (cs_gen (lw_slot w')) with (cs_gen (lw_slot w) + 1)%Z. change (untried w') with 0%Z. lia.
  - exists i, (f c). rewrite Ec, list_lookup_alter_eq, C. done.
  - done.
Qed.
End Kept.

Section Steps.
Variable w : link_world.
Hypothesis I : link_inv w.

(** The phase or the connection of a launched one is new, and no other. *)
Ltac moves_on i c f :=
  apply (kept_moves w _ i c f);
  [exact I|done|try done|try done|try done|try done|try done|try done|try done|try done|try done|try done|try done|try done|try done| |].

Lemma kept_closed i c : lw_conns w !! i = Some c -> launched c = true -> link_inv (on_conn i close_conn w).
Proof.
  intros C L. moves_on i c close_conn.
  - intros A. apply (co_turn w i c (li_conns w I i c C) A).
  - by apply (slot_moves w _ i c close_conn (li_slot w I)).
  - by apply (loop_moves w _ i c close_conn (li_loop w I)).
Qed.

Lemma busy_holder : cs_busy (lw_slot w) = true -> exists i c, lw_prev w = Some i /\ lw_conns w !! i = Some c
  /\ cs_conn (lw_slot w) = Some i /\ cs_pid (lw_slot w) = lc_pid c /\ holds_slot c = true.
Proof. intros B. pose proof (li_slot w I) as S. unfold slot_ok in S. by rewrite B in S. Qed.

Lemma holds_launched c : holds_slot c = true -> launched c = true.
Proof. unfold holds_slot, launched. by destruct (lc_phase c). Qed.

Lemma kept_close_all o : (o = None \/ cs_busy (lw_slot w) = true /\ o = cs_conn (lw_slot w)) -> link_inv (close_all o w).
Proof.
  intros [->|[B ->]]; [exact I|]. destruct (busy_holder B) as (i & c & _ & C & -> & _ & H). apply (kept_closed i c C). by apply holds_launched.
Qed.

(** The slot is of the latest: one before it does not matter. *)
Lemma slot_other w' i f : lw_prev w <> Some i -> lw_conns w' = alter f i (lw_conns w) -> lw_prev w' = lw_prev w -> lw_slot w' = lw_slot w -> slot_ok w'.
Proof.
  intros N Ec Ep Es. pose proof (li_slot w I) as S. unfold slot_ok in *. rewrite Ec, Ep, Es. destruct (cs_busy (lw_slot w)).
  - destruct S as (k & d & P & D & X). exists k, d. split; [done|]. split; [|done]. rewrite list_lookup_alter_ne; [done|congruence].
  - intros k d P. rewrite list_lookup_alter_ne by congruence. by apply S.
Qed.

(** All before one that waits for a finished worker, or for none, have finished. *)
Lemma turn_comes i c : lw_conns w !! i = Some c -> launched c = true ->
  match lc_waits c with None => true | Some j => match lw_conns w !! j with Some d => finished d | None => false end end = true ->
  forall j d, j < i -> lw_conns w !! j = Some d -> launched d = true -> lc_phase d = LFinished.
Proof.
  intros C L W j d J D Ld. destruct (co_waits w i c (li_conns w I i c C) L) as [_ B]. destruct (B j d J D Ld) as (k & K & Le). rewrite K in W.
  destruct (lw_conns w !! k) as [e|] eqn:E; [|done]. unfold finished in W. apply bool_decide_eq_true in W.
  destruct (decide (j = k)) as [->|N]; [congruence|]. apply (co_turn w k e (li_conns w I k e E)) with j; [unfold active; by rewrite W|lia|done..].
Qed.

Lemma kept_waits i c : lw_conns w !! i = Some c -> lc_phase c = LWaiting ->
  match lc_waits c with None => true | Some j => match lw_conns w !! j with Some d => finished d | None => false end end = true ->
  link_inv (on_conn i (fun c => c <| lc_phase := LRunning |>) w).
Proof.
  intros C P W. assert (launched c = true) as L by (unfold launched; by rewrite P). moves_on i c (fun c : link_conn => c <| lc_phase := LRunning |>).
  - intros _. by apply (turn_comes i c).
  - congruence.
  - apply (slot_moves w _ i c (fun c => c <| lc_phase := LRunning |>) (li_slot w I)); try done. unfold holds_slot. by rewrite P.
  - apply (loop_moves w _ i c (fun c => c <| lc_phase := LRunning |>) (li_loop w I)); try done. congruence.
Qed.

Lemma ends_kept i c : lw_conns w !! i = Some c -> lc_phase c = LRunning ->
  link_inv (on_conn i (fun c => c <| lc_closed := true |> <| lc_phase := LEnding |>) w).
Proof.
  intros C P. assert (launched c = true) as L by (unfold launched; by rewrite P).
  moves_on i c (fun c : link_conn => c <| lc_closed := true |> <| lc_phase := LEnding |>).
  - intros _. apply (co_turn w i c (li_conns w I i c C)). unfold active. by rewrite P.
  - congruence.
  - apply (slot_moves w _ i c (fun c => c <| lc_closed := true |> <| lc_phase := LEnding |>) (li_slot w I)); try done. unfold holds_slot. by rewrite P.
  - apply (loop_moves w _ i c (fun c => c <| lc_closed := true |> <| lc_phase := LEnding |>) (li_loop w I)); try done. congruence.
Qed.

Lemma kept_slot_ends i c : lw_conns w !! i = Some c -> lc_phase c = LEnding ->
  link_inv (on_conn i (fun c => c <| lc_phase := LLeft |>) (w <| lw_slot ::= end_link (lc_gen c) |>)).
Proof.
  intros C P. assert (launched c = true) as L by (unfold launched; by rewrite P). pose proof (li_conns w I i c C) as K.
  moves_on i c (fun c : link_conn => c <| lc_phase := LLeft |>).
  - intros _. apply (co_turn w i c K). unfold active. by rewrite P.
  - intros _. apply (co_ended w i c K). unfold ended. by rewrite P.
  - congruence.
  - cbn. unfold end_link. by destruct (Z.eqb_spec (cs_gen (lw_slot w)) (lc_gen c)).
  - destruct (decide (lw_prev w = Some i)) as [Pv|Pv].
    + pose proof (co_now w i c K Pv) as G. unfold slot_ok. cbn. unfold end_link. rewrite G, Z.eqb_refl. cbn.
      intros k d Pk. rewrite Pv in Pk. injection Pk as <-. rewrite list_lookup_alter_eq, C. by intros [= <-].
    + apply (slot_other _ i (fun c => c <| lc_phase := LLeft |>)); try done. cbn. unfold end_link.
      destruct (co_old w i c K L Pv) as [_ G]. rewrite (proj2 (Z.eqb_neq _ _)) by lia. done.
  - apply (loop_moves w _ i c (fun c => c <| lc_phase := LLeft |>) (li_loop w I)); try done. congruence.
Qed.

Lemma kept_finishes i c : lw_conns w !! i = Some c -> lc_phase c = LLeft -> link_inv (on_conn i (fun c => c <| lc_phase := LFinished |>) w).
Proof.
  intros C P. assert (launched c = true) as L by (unfold launched; by rewrite P). pose proof (li_conns w I i c C) as K.
  moves_on i c (fun c : link_conn => c <| lc_phase := LFinished |>).
  - intros _. apply (co_turn w i c K). unfold active. by rewrite P.
  - intros _. apply (co_ended w i c K). unfold ended. by rewrite P.
  - apply (slot_moves w _ i c (fun c => c <| lc_phase := LFinished |>) (li_slot w I)); try done. unfold holds_slot. by rewrite P.
  - by apply (loop_moves w _ i c (fun c => c <| lc_phase := LFinished |>) (li_loop w I)).
Qed.
End Steps.

(** The connection before the one that begins is closed by then. *)
Lemma displaced_closed w alive i pid gen old : link_inv w -> lw_loop w = SBeginning i -> (begin_link alive i pid (lw_slot w)).2 = Some (gen, old) ->
  link_inv (close_all old w) /\ (forall k d, lw_prev w = Some k -> lw_conns (close_all old w) !! k = Some d -> lc_closed d = true).
Proof.
  intros I Lo B. unfold begin_link in B. destruct (held_by_another _ _ _); [done|]. injection B as _ <-.
  destruct (cs_busy (lw_slot w)) eqn:Bs.
  - destruct (busy_holder w I Bs) as (k & c & P & C & Cn & _). rewrite Cn. split.
    + apply kept_close_all; [done|right; by rewrite Cn].
    + intros k' d. rewrite P. intros [= <-]. cbn. rewrite list_lookup_alter_eq, C. by intros [= <-].
  - split; [exact I|]. intros k d P D. pose proof (li_slot w I) as S. unfold slot_ok in S. rewrite Bs in S. specialize (S k d P D).
    destruct (prev_bound w I k P) as (_ & x & X & L). cbn in D. rewrite D in X. injection X as <-. apply (co_ended w k d (li_conns w I k d D)).
    unfold ended, holds_slot, launched in *. by destruct (lc_phase d).
Qed.

Lemma begins_kept w alive i c : link_inv w -> (Z.of_nat (length (lw_conns w)) < 2 ^ 64)%Z -> lw_loop w = SBeginning i -> lw_conns w !! i = Some c ->
  link_inv (begins alive i c w).
Proof.
  intros I Few Lo C. unfold begins. destruct (begin_link alive i (lc_pid c) (lw_slot w)).2 as [[gen old]|] eqn:B; [|by apply (kept_refuses w I i c)].
  destruct (displaced_closed w alive i (lc_pid c) gen old I Lo B) as [I1 Cl].
  assert ((begin_link alive i (lc_pid c) (lw_slot w)).1 = MkSlot gen true (Some i) (lc_pid c) /\ gen = ((cs_gen (lw_slot w) + 1) mod 2 ^ 64)%Z
          /\ old = if cs_busy (lw_slot w) then cs_conn (lw_slot w) else None) as (-> & -> & Eo).
  { unfold begin_link in *. destruct (held_by_another _ _ _); [done|]. by injection B as <- <-. }
  pose proof (li_loop w I) as L. unfold loop_ok in L. rewrite Lo in L. destruct L as (_ & x & X & Ph). rewrite C in X. injection X as <-.
  assert (lw_conns (close_all old w) !! i = Some c) as C1.
  { destruct old as [k|]; [|done]. cbn. rewrite list_lookup_alter_ne; [done|]. intros ->. destruct (cs_busy (lw_slot w)) eqn:Bs; [|done].
    destruct (busy_holder w I Bs) as (k & d & _ & D & Cn & _ & H). rewrite Cn in Eo. injection Eo as <-. rewrite C in D. injection D as <-.
    unfold holds_slot in H. by rewrite Ph in H. }
  assert (lw_slot (close_all old w) = lw_slot w /\ lw_prev (close_all old w) = lw_prev w /\ lw_loop (close_all old w) = lw_loop w
          /\ length (lw_conns (close_all old w)) = length (lw_conns w)) as (Es & Ep & El & En).
  { destruct old; [|done]. split_and!; try done. cbn. apply length_alter. }
  pose proof (kept_launches (close_all old w) I1 i c (lc_pid c)) as K. rewrite Es, Ep, El, En in K. specialize (K Few Lo C1 eq_refl Cl).
  destruct old; exact K.
Qed.

Lemma link_kept s w w' : link_inv w -> (Z.of_nat (length (lw_conns w)) < 2 ^ 64)%Z -> link_exec s w = Some w' -> link_inv w'.
Proof.
  intros I Few E. destruct s as [pid| |alive|alive|i|i peer|i|i| |]; cbn in E.
  - destruct (lw_loop w) eqn:Lo; try done. injection E as <-. by apply kept_accepts.
  - destruct (lw_loop w) eqn:Lo; try done. injection E as <-. apply (kept_loop w I); try done. unfold untried. by rewrite Lo.
  - destruct (lw_loop w) as [|i| | |] eqn:Lo; try done. injection E as <-. apply kept_close_all.
    + pose proof (li_loop w I) as L. unfold loop_ok in L. rewrite Lo in L. apply (kept_loop w I); try done. unfold untried. by rewrite Lo.
    + cbn. unfold evictStale. destruct (cs_busy (lw_slot w)); [|by left]. cbn. destruct (_ && _); [by left|by right].
  - destruct (lw_loop w) as [| |i| |] eqn:Lo; try done. destruct (lw_conns w !! i) as [c|] eqn:C; [|done]. injection E as <-. by apply begins_kept.
  - destruct (lw_conns w !! i) as [c|] eqn:C; [|done]. cbn in E. destruct (lc_phase c) eqn:P; try done.
    destruct (match lc_waits c with None => true | Some j => _ end) eqn:W; [|done]. injection E as <-. by apply (kept_waits w I i c).
  - destruct (lw_conns w !! i) as [c|] eqn:C; [|done]. cbn in E. destruct (lc_phase c) eqn:P; try done.
    destruct (_ || _); [|done]. injection E as <-. by apply (ends_kept w I i c).
  - destruct (lw_conns w !! i) as [c|] eqn:C; [|done]. cbn in E. destruct (lc_phase c) eqn:P; try done. injection E as <-. by apply (kept_slot_ends w I i c).
  - destruct (lw_conns w !! i) as [c|] eqn:C; [|done]. cbn in E. destruct (lc_phase c) eqn:P; try done. injection E as <-. by apply (kept_finishes w I i c).
  - injection E as <-. apply (kept_loop w I); try done. apply I.
  - destruct (lw_loop w) eqn:Lo; try done. destruct (forallb _ _) eqn:F; [|done]. injection E as <-. apply (kept_loop w I); try done.
    + unfold untried. by rewrite Lo.
    + intros i c C L. rewrite forallb_forall in F. specialize (F c). rewrite <- list_elem_of_In in F.
      specialize (F (list_elem_of_lookup_2 _ _ _ C)). rewrite L in F. cbn in F. unfold finished in F. by apply bool_decide_eq_true in F.
Qed.

Lemma conns_grow s w w' : link_exec s w = Some w' -> length (lw_conns w) <= length (lw_conns w').
Proof.
  assert (forall o v, length (lw_conns (close_all o v)) = length (lw_conns v)) as Ca by (intros [k|] v; [apply length_alter|done]).
  intros E. destruct s as [pid| |alive|alive|i|i peer|i|i| |]; cbn in E;
    repeat match type of E with
    | (match ?x with _ => _ end) = _ => destruct x; try done
    | mbind _ ?x = _ => destruct x; try done; cbn in E
    | (if ?x then _ else _) = _ => destruct x; try done
    end; injection E as <-;
    first [by rewrite Ca | cbn; rewrite ?length_alter, ?length_app; lia | unfold begins].
  destruct (begin_link _ _ _ _).2 as [[gen old]|]; cbn; rewrite length_alter; [|done]. by rewrite Ca.
Qed.

Lemma links_inv w : link_reachable w -> (Z.of_nat (length (lw_conns w)) < 2 ^ 64)%Z -> link_inv w.
Proof.
  induction 1 as [|s w w' R IH E]; intros Few.
  - by split.
  - pose proof (conns_grow s w w' E). apply (link_kept s w w'); [apply IH; lia|lia|done].
Qed.

(** ** What a consumer's link can rely on *)

(** A known process other than [pid], and that lives, has the latest link and has not
    left it. *)
Definition linked_by_another (alive : peers) (pid : Z) (w : link_world) : Prop :=
  exists k d, lw_prev w = Some k /\ lw_conns w !! k = Some d /\ holds_slot d = true
    /\ (0 < lc_pid d)%Z /\ alive (lc_pid d) = true /\ (0 < pid)%Z /\ lc_pid d <> pid.

Lemma held_linked w alive pid : link_inv w -> held_by_another alive pid (lw_slot w) = true <-> linked_by_another alive pid w.
Proof.
  intros I. unfold held_by_another. rewrite !andb_true_iff, negb_true_iff, Z.eqb_neq, !Z.ltb_lt. split.
  - intros ((((B & P & A) & Q) & _) & N). destruct (busy_holder w I B) as (k & d & Pk & D & _ & E & H).
    exists k, d. rewrite <- E. split_and!; try done; by intros F; apply N.
  - intros (k & d & P & D & H & Po & A & Q & N). pose proof (li_slot w I) as S. unfold slot_ok in S.
    destruct (cs_busy (lw_slot w)); [|by rewrite (S k d P D) in H].
    destruct S as (k' & d' & P' & D' & _ & E & _). rewrite P in P'. injection P' as <-. rewrite D in D'. injection D' as <-.
    rewrite E. split_and!; try done; by intros F; apply N.
Qed.

Lemma begun_phase alive i c w : lw_conns w !! i = Some c ->
  if held_by_another alive (lc_pid c) (lw_slot w)
  then lw_slot (begins alive i c w) = lw_slot w /\ lc_phase <$> lw_conns (begins alive i c w) !! i = Some LRefused
       /\ forall j, j <> i -> lw_conns (begins alive i c w) !! j = lw_conns w !! j
  else lw_prev (begins alive i c w) = Some i /\ lc_phase <$> lw_conns (begins alive i c w) !! i = Some LWaiting.
Proof.
  intros C. unfold begins, begin_link. destruct (held_by_another alive (lc_pid c) (lw_slot w)).
  - cbn. rewrite list_lookup_alter_eq, C. split_and!; [done..|]. intros j N. by rewrite list_lookup_alter_ne.
  - cbn. split; [by destruct (if cs_busy _ then _ else _)|]. rewrite list_lookup_alter_eq.
    assert (forall o v, is_Some (lw_conns v !! i) -> is_Some (lw_conns (close_all o v) !! i)) as Is.
    { intros [k|] v [x X]; [|by exists x]. cbn. destruct (decide (i = k)) as [->|N]; [rewrite list_lookup_alter_eq, X; by eexists|].
      rewrite list_lookup_alter_ne by done. by exists x. }
    match goal with |- context [close_all ?o ?v] => destruct (Is o v (ex_intro _ c C)) as [x X]; by rewrite X end.
Qed.

(** C39: Whatever connections come, whichever processes live, and however links end, at
    most one worker at a time is in its link or on its way out of it; the connection
    of every worker but the latest has been closed; the slot is taken exactly while the
    latest worker has not left it, so none before it clears its place. A connection
    is refused exactly when both processes are known, they differ, and the process of
    the latest link lives and has not left it; then neither the slot nor any other
    connection is touched. Any other connection, so one of an unknown process too, gets
    the next place, and the one it displaces is closed. A slot is evicted exactly when
    its holder is not known to live. *)
Theorem links_take_turns w : link_reachable w -> (Z.of_nat (length (lw_conns w)) < 2 ^ 64)%Z ->
  (forall i j c d, lw_conns w !! i = Some c -> lw_conns w !! j = Some d -> active c = true -> active d = true ->
     lc_phase c <> LFinished -> lc_phase d <> LFinished -> i = j)
  /\ (forall i c, lw_conns w !! i = Some c -> launched c = true -> lw_prev w <> Some i -> lc_closed c = true)
  /\ (cs_busy (lw_slot w) = true <-> exists i c, lw_prev w = Some i /\ lw_conns w !! i = Some c /\ holds_slot c = true)
  /\ (forall alive i c w', lw_loop w = SBeginning i -> lw_conns w !! i = Some c -> link_exec (Begins alive) w = Some w' ->
        (linked_by_another alive (lc_pid c) w ->
           lc_phase <$> lw_conns w' !! i = Some LRefused /\ lw_slot w' = lw_slot w /\ forall j, j <> i -> lw_conns w' !! j = lw_conns w !! j)
        /\ (~ linked_by_another alive (lc_pid c) w -> lc_phase <$> lw_conns w' !! i = Some LWaiting /\ lw_prev w' = Some i))
  /\ (forall alive i w', lw_loop w = SEvicting i -> link_exec (Evicts alive) w = Some w' ->
        ((0 < cs_pid (lw_slot w))%Z /\ alive (cs_pid (lw_slot w)) = true -> lw_conns w' = lw_conns w)
        /\ (~ ((0 < cs_pid (lw_slot w))%Z /\ alive (cs_pid (lw_slot w)) = true) -> cs_busy (lw_slot w) = true ->
            exists k d, lw_prev w = Some k /\ lw_conns w' !! k = Some d /\ lc_closed d = true)).
Proof.
  intros R Few. pose proof (links_inv w R Few) as I. split_and!.
  - intros i j c d C D Ac Ad Nc Nd. assert (launched c = true /\ launched d = true) as [Lc Ld]
      by (unfold active, launched in *; by destruct (lc_phase c), (lc_phase d)).
    destruct (lt_eq_lt_dec i j) as [[L|E]|L]; [|done|]; exfalso.
    + apply Nc. by apply (co_turn w j d (li_conns w I j d D) Ad i c).
    + apply Nd. by apply (co_turn w i c (li_conns w I i c C) Ac j d).
  - intros i c C L P. by apply (co_old w i c (li_conns w I i c C)).
  - split.
    + intros B. destruct (busy_holder w I B) as (i & c & P & C & _ & _ & H). by exists i, c.
    + intros (i & c & P & C & H). pose proof (li_slot w I) as S. unfold slot_ok in S. destruct (cs_busy (lw_slot w)); [done|].
      rewrite (S i c P C) in H. done.
  - intros alive i c w' Lo C E. cbn in E. rewrite Lo, C in E. cbn in E. injection E as <-.
    pose proof (begun_phase alive i c w C) as B. pose proof (held_linked w alive (lc_pid c) I) as Hl.
    destruct (held_by_another alive (lc_pid c) (lw_slot w)); split; intros L; [tauto|destruct L; by apply Hl|by apply Hl in L|tauto].
  - intros alive i w' Lo E. cbn in E. rewrite Lo in E. injection E as <-. unfold evictStale. cbn. split.
    + intros [P%Z.ltb_lt A]. destruct (cs_busy (lw_slot w)); [|done]. cbn. by rewrite A, P.
    + intros N B. destruct (busy_holder w I B) as (k & d & P & D & -> & _ & _). rewrite B. cbn [negb].
      destruct ((0 <? cs_pid (lw_slot w))%Z && alive (cs_pid (lw_slot w))) eqn:L.
      { destruct N. by apply andb_true_iff in L as [L%Z.ltb_lt A]. }
      exists k, (close_conn d). split; [done|]. cbn. by rewrite list_lookup_alter_eq, D.
Qed.

(** ** Work that is left *)

Definition link_work (c : link_conn) : nat := match lc_phase c with LWaiting => 4 | LRunning => 3 | LEnding => 2 | LLeft => 1 | _ => 0 end.
Definition links_left (w : link_world) : nat := sum_list_with link_work (lw_conns w).

(** A step of a worker that needs nothing of the other end. *)
Definition of_worker (s : link_step) : bool := match s with WaitEnds _ | LinkEnds _ false | SlotEnds _ | Finishes _ => true | _ => false end.

Lemma worker_lowers s w w' : of_worker s = true -> link_exec s w = Some w' -> links_left w' < links_left w.
Proof.
  intros O E. destruct s as [| | | |i|i [|]|i|i| |]; try done; cbn in E;
    (destruct (lw_conns w !! i) as [c|] eqn:C; [|done]); cbn in E; destruct (lc_phase c) eqn:P; try done;
    try (destruct (match lc_waits c with None => true | Some j => _ end); [|done]); try (destruct (_ || _); [|done]); injection E as <-;
    match goal with |- context [on_conn i ?f _] => pose proof (sum_alter link_work f i (lw_conns w) c C) as Su end;
    unfold links_left; cbn in *; unfold link_work in *; cbn in *; rewrite P in *; lia.
Qed.

Lemma others_add_nothing s w w' : link_exec s w = Some w' -> (forall alive, s <> Begins alive) -> links_left w' <= links_left w.
Proof.
  intros E N. destruct (of_worker s) eqn:O; [pose proof (worker_lowers s w w' O E); lia|].
  assert (forall o v, links_left (close_all o v) = links_left v) as Ca.
  { intros [k|] v; [|done]. unfold links_left. cbn. induction (lw_conns v) as [|x l IH] in k |- *; [by destruct k|].
    destruct k as [|k]; cbn; [done|]. specialize (IH k). change (list_alter close_conn k l) with (alter close_conn k l). lia. }
  destruct s as [pid| |alive|alive|i|i [|]|i|i| |]; try done; cbn in E.
  - destruct (lw_loop w); try done. injection E as <-. unfold links_left. cbn. rewrite sum_list_with_app. cbn. lia.
  - destruct (lw_loop w); try done. by injection E as <-.
  - destruct (lw_loop w); try done. injection E as <-. by rewrite Ca.
  - by destruct (N alive).
  - destruct (lw_conns w !! i) as [c|] eqn:C; [|done]. cbn in E. destruct (lc_phase c) eqn:P; try done. injection E as <-.
    match goal with |- context [on_conn i ?f _] => pose proof (sum_alter link_work f i (lw_conns w) c C) as Su end.
    unfold links_left; cbn in *; unfold link_work in *; cbn in *; rewrite P in *; lia.
  - by injection E as <-.
  - destruct (lw_loop w); try done. destruct (forallb _ _); [|done]. by injection E as <-.
Qed.

Lemma worker_goes w i c : link_inv w -> lw_conns w !! i = Some c -> launched c = true -> lc_phase c <> LFinished ->
  lw_done w = true \/ lc_phase c = LWaiting \/ lw_prev w <> Some i -> exists s w', of_worker s = true /\ link_exec s w = Some w'.
Proof.
  intros I. revert c. induction (lt_wf i) as [i _ IH]. intros c C L N D. destruct (lc_phase c) eqn:P; [by unfold launched in L; rewrite P in L..| | | | |done].
  - destruct (lc_waits c) as [j|] eqn:W.
    + destruct (co_waits w i c (li_conns w I i c C) L) as [A _]. destruct (A j W) as (J & d & Dj & Ld).
      destruct (decide (lc_phase d = LFinished)) as [F|F].
      * exists (WaitEnds i). eexists. split; [done|]. cbn. rewrite C. cbn. rewrite P, W, Dj. unfold finished. by rewrite F.
      * apply (IH j J d Dj Ld F). right. right. intros Pj. destruct (li_prev w I) as [_ B].
        assert (i < length (lw_conns w)) as Li by by apply lookup_lt_Some in C. destruct (B i c Li C L) as (k & K & Le). rewrite Pj in K. injection K as ->. lia.
    + exists (WaitEnds i). eexists. split; [done|]. cbn. rewrite C. cbn. by rewrite P, W.
  - exists (LinkEnds i false). eexists. split; [done|]. cbn. rewrite C. cbn. rewrite P. cbn.
    assert (lc_closed c || lw_done w = true) as ->; [|done]. destruct D as [->|[D|D]]; [by rewrite orb_true_r|done|].
    destruct (co_old w i c (li_conns w I i c C) L D) as [-> _]. done.
  - exists (SlotEnds i). eexists. split; [done|]. cbn. rewrite C. cbn. by rewrite P.
  - exists (Finishes i). eexists. split; [done|]. cbn. rewrite C. cbn. by rewrite P.
Qed.

(** A link never waits for the other end of the one before it: while a worker waits,
    one of the workers can go on whatever their peers do, each such step lowers the
    number of steps that are left, and nothing but a new connection raises it; once the
    links are to stop, that holds while any worker has not finished. *)
Theorem a_new_link_gets_its_turn w : link_reachable w -> (Z.of_nat (length (lw_conns w)) < 2 ^ 64)%Z ->
  (forall i c, lw_conns w !! i = Some c -> lc_phase c = LWaiting \/ lw_done w = true /\ launched c = true /\ lc_phase c <> LFinished ->
     exists s w', of_worker s = true /\ link_exec s w = Some w')
  /\ forall s w', link_exec s w = Some w' ->
       (of_worker s = true -> links_left w' < links_left w) /\ ((forall alive, s <> Begins alive) -> links_left w' <= links_left w).
Proof.
  intros R Few. pose proof (links_inv w R Few) as I. split.
  - intros i c C [P|(D & L & N)].
    + apply (worker_goes w i c I C); [unfold launched; by rewrite P|by rewrite P|by right; left].
    + apply (worker_goes w i c I C L N). by left.
  - intros s w' E. split; [intros O; by apply (worker_lowers s)|intros N; by apply (others_add_nothing s)].
Qed.

(** ** A consumer's replica *)

(** A subscription: its channel of one place, the latest result of its query and what
    the reader took last. *)
Record query_sub := MkSub { sb_id : Z; sb_buf : option string; sb_closed : bool; sb_latest : string; sb_taken : option string }.
#[export] Instance eta_query_sub : Eta query_sub := fun s => MkSub (sb_id s) (sb_buf s) (sb_closed s) (sb_latest s) (sb_taken s).
#[export] Hint Extern 1 (@Setter query_sub _ _) => setter_of eta_query_sub : typeclass_instances.

(** [Replica]: its link and its queries are numbers of the world's links and
    subscriptions. *)
Record Replica := MkReplica { rp_open : bool; rp_watch : bool; rp_link : option nat; rp_closing : bool; rp_queries : gmap Z nat }.
#[export] Instance eta_Replica : Eta Replica := fun r => MkReplica (rp_open r) (rp_watch r) (rp_link r) (rp_closing r) (rp_queries r).
#[export] Hint Extern 1 (@Setter Replica _ _) => setter_of eta_Replica : typeclass_instances.

Inductive closer := CloseWaits (link : option nat) | CloseDone.

(** A replica with the links that run, whether each is cancelled, and the calls of
    [Close]. *)
Record replica_world := MkReplicaWorld {
  rw_replica : Replica; rw_links : list (bool * bool);   (* runs, cancelled *)
  rw_closers : list closer; rw_subs : list query_sub; rw_panicked : bool }.
#[export] Instance eta_replica_world : Eta replica_world := fun w =>
  MkReplicaWorld (rw_replica w) (rw_links w) (rw_closers w) (rw_subs w) (rw_panicked w).
#[export] Hint Extern 1 (@Setter replica_world _ _) => setter_of eta_replica_world : typeclass_instances.

Definition OpenReplica : replica_world := MkReplicaWorld (MkReplica true false None false ∅) [] [] [] false.

Inductive replica_step :=
| LinkCalled
| LinkApplies (results : list (Z * string))   (* a change of the peer's *)
| LinkReturns (i : nat)
| WriteCalled (results : list (Z * string))
| SubscribeCalled (cancelled : bool) (id : Z) (initial : string)
| SubscribeFails                               (* sqlpipe refuses the query *)
| ContextEnds (j : nat)
| Receives (j : nat)
| CloseStarts
| CloseFinishes (k : nat).

(** [notifyQueriesLocked], of one result; a send on a closed channel panics. *)
Definition notify (r : Z * string) (w : replica_world) : replica_world :=
  match rp_queries (rw_replica w) !! r.1 with
  | None => w
  | Some j =>
    match rw_subs w !! j with
    | Some s => if sb_closed s then w <| rw_panicked := true |>
                else w <| rw_subs ::= alter (fun s => s <| sb_buf := Some r.2 |> <| sb_latest := r.2 |>) j |>
    | None => w
    end
  end.
Definition notifyQueries (results : list (Z * string)) (w : replica_world) : replica_world :=
  if rp_watch (rw_replica w) then foldl (fun w r => notify r w) w results else w.

(** [close(sub.updates)], which panics the second time. *)
Definition close_sub (j : nat) (w : replica_world) : replica_world :=
  match rw_subs w !! j with
  | Some s => if sb_closed s then w <| rw_panicked := true |> else w <| rw_subs ::= alter (fun s => s <| sb_closed := true |>) j |>
  | None => w
  end.

Definition link_over (w : replica_world) (o : option nat) : bool :=
  match o with None => true | Some i => match rw_links w !! i with Some l => negb l.1 | None => true end end.

Definition replica_exec (s : replica_step) (w : replica_world) : option replica_world :=
  let r := rw_replica w in
  match s with
  | LinkCalled =>
    Some (if negb (rp_open r) || rp_closing r || bool_decide (is_Some (rp_link r)) then w
          else w <| rw_replica ::= fun r => r <| rp_link := Some (length (rw_links w)) |> |> <| rw_links ::= fun l => l ++ [(true, false)] |>)
  | LinkApplies results =>
    match rp_link r with
    | Some _ => Some (if rp_open r then notifyQueries results w else w <| rw_panicked := true |>)
    | None => None
    end
  | LinkReturns i =>
    match rw_links w !! i with
    | Some (true, c) => Some (w <| rw_replica ::= fun r => r <| rp_link := None |> |> <| rw_links ::= alter (fun l => (false, l.2)) i |>)
    | _ => None
    end
  | WriteCalled results => Some (if rp_open r then notifyQueries results w else w)
  | SubscribeCalled cancelled id initial =>
    if cancelled || negb (rp_open r) || rp_closing r then Some w
    else if decide (id ∈ dom (rp_queries r)) then None   (* ids of live queries differ *)
    else Some (w <| rw_replica ::= fun r => r <| rp_watch := true |> <| rp_queries ::= <[id := length (rw_subs w)]> |> |>
                 <| rw_subs ::= fun l => l ++ [MkSub id (Some initial) false initial None] |>)
  | SubscribeFails => Some (if negb (rp_open r) || rp_closing r then w else w <| rw_replica ::= fun r => r <| rp_watch := true |> |>)
  | ContextEnds j =>
    s ← rw_subs w !! j;
    Some (if decide (rp_queries r !! sb_id s = Some j)
          then close_sub j (w <| rw_replica ::= fun r => r <| rp_queries ::= delete (sb_id s) |> |>) else w)
  | Receives j =>
    s ← rw_subs w !! j;
    match sb_buf s with
    | Some v => Some (w <| rw_subs ::= alter (fun s => s <| sb_buf := None |> <| sb_taken := Some v |>) j |>)
    | None => None
    end
  | CloseStarts =>
    Some (w <| rw_replica ::= fun r => r <| rp_closing := true |> |>
            <| rw_links ::= match rp_link r with Some i => alter (fun l => (l.1, true)) i | None => fun l => l end |>
            <| rw_closers ::= fun l => l ++ [CloseWaits (rp_link r)] |>)
  | CloseFinishes k =>
    match rw_closers w !! k with
    | Some (CloseWaits o) =>
      if link_over w o then
        let w := w <| rw_closers ::= alter (fun _ => CloseDone) k |> in
        Some (if rp_open r then
                (foldl (fun w j => close_sub j w) w ((map_to_list (rp_queries r)).*2))
                  <| rw_replica ::= fun r => r <| rp_open := false |> <| rp_watch := false |> <| rp_queries := ∅ |> |>
              else w)
      else None
    | _ => None
    end
  end.

Inductive replica_reachable : replica_world -> Prop :=
| replica_starts : replica_reachable OpenReplica
| replica_goes s w w' : replica_reachable w -> replica_exec s w = Some w' -> replica_reachable w'.

Record replica_inv (w : replica_world) : Prop := {
  ri_link i : rp_link (rw_replica w) = Some i <-> exists c, rw_links w !! i = Some (true, c);
  ri_open i : rp_link (rw_replica w) = Some i -> rp_open (rw_replica w) = true;
  ri_closers k o : rw_closers w !! k = Some (CloseWaits o) -> rp_closing (rw_replica w) = true
    /\ (forall i, rp_link (rw_replica w) = Some i -> o = Some i /\ rw_links w !! i = Some (true, true));
  ri_queries id j : rp_queries (rw_replica w) !! id = Some j -> exists s, rw_subs w !! j = Some s /\ sb_id s = id /\ sb_closed s = false;
  ri_subs j s : rw_subs w !! j = Some s -> sb_closed s = false -> rp_queries (rw_replica w) !! sb_id s = Some j;
  ri_latest j s : rw_subs w !! j = Some s -> match sb_buf s with Some v => v = sb_latest s | None => sb_taken s = Some (sb_latest s) end;
  ri_shut : rp_open (rw_replica w) = false -> rp_queries (rw_replica w) = ∅ /\ rp_closing (rw_replica w) = true;
  ri_watch : rp_queries (rw_replica w) <> ∅ -> rp_watch (rw_replica w) = true;
  ri_fine : rw_panicked w = false }.

(** *** Each step keeps it *)

Section Replicas.
Variable w : replica_world.
Hypothesis I : replica_inv w.

(** Only a subscription's place, or what it was told, is new. *)
Lemma sub_changes j f s : rw_subs w !! j = Some s -> sb_id (f s) = sb_id s -> sb_closed (f s) = sb_closed s ->
  match sb_buf (f s) with Some v => v = sb_latest (f s) | None => sb_taken (f s) = Some (sb_latest (f s)) end ->
  replica_inv (w <| rw_subs ::= alter f j |>).
Proof.
  intros S Ei Ec El. destruct I as [A B C D E F G H K]. split; try done.
  - intros id k Q. destruct (D id k Q) as (x & X & Xi & Xc). cbn. destruct (decide (k = j)) as [->|N].
    + rewrite S in X. injection X as <-. exists (f s). rewrite list_lookup_alter_eq, S. split_and!; [done|congruence..].
    + exists x. by rewrite list_lookup_alter_ne.
  - intros k x. cbn. intros [[-> (y & Y & ->)]|[N X]]%alter_lookup; [|by apply E]. rewrite S in Y. injection Y as <-.
    rewrite Ei, Ec. by apply E.
  - intros k x. cbn. intros [[-> (y & Y & ->)]|[N X]]%alter_lookup; [|by apply (F k x)]. rewrite S in Y. by injection Y as <-.
Qed.
End Replicas.

Lemma notify_kept r w : replica_inv w -> replica_inv (notify r w) /\ rw_replica (notify r w) = rw_replica w
  /\ rw_links (notify r w) = rw_links w /\ rw_closers (notify r w) = rw_closers w.
Proof.
  intros I. unfold notify. destruct (rp_queries (rw_replica w) !! r.1) as [j|] eqn:Q; [|done].
  destruct (ri_queries w I _ j Q) as (s & S & _ & C). rewrite S, C. split; [|done]. by apply (sub_changes w I j _ s).
Qed.

Lemma notifyQueries_kept results w : replica_inv w -> replica_inv (notifyQueries results w).
Proof.
  intros I. unfold notifyQueries. destruct (rp_watch (rw_replica w)); [|done].
  induction results as [|r l IH] in w, I |- *; [done|]. cbn. apply IH. by apply notify_kept.
Qed.

(** A channel whose query is gone is closed. *)
Lemma closes_query w j s : replica_inv w -> rw_subs w !! j = Some s -> rp_queries (rw_replica w) !! sb_id s = Some j ->
  replica_inv (close_sub j (w <| rw_replica ::= fun r => r <| rp_queries ::= delete (sb_id s) |> |>)).
Proof.
  intros I S Q. unfold close_sub. cbn. rewrite S. destruct (ri_queries w I _ j Q) as (x & X & _ & C). rewrite S in X. injection X as <-. rewrite C.
  destruct I as [A B Cl D E F G H K]. split; try done.
  - intros id k. cbn. intros [N L]%lookup_delete_Some. destruct (D id k L) as (x & X & Xi & Xc). exists x.
    assert (k <> j) by (intros ->; rewrite S in X; injection X as <-; congruence). by rewrite list_lookup_alter_ne.
  - intros k x. cbn. intros [[-> (y & Y & ->)]|[N X]]%alter_lookup Xc; [done|]. specialize (E k x X Xc).
    rewrite lookup_delete_ne; [done|]. intros Eq. rewrite <- Eq in E. congruence.
  - intros k x. cbn. intros [[-> (y & Y & ->)]|[N X]]%alter_lookup; [|by apply (F k x)]. rewrite S in Y. injection Y as <-. exact (F j s S).
  - cbn. intros O. destruct (G O) as [Em Cg]. rewrite Em in Q. by rewrite lookup_empty in Q.
  - cbn. intros N. apply H. intros Em. rewrite Em in Q. by rewrite lookup_empty in Q.
Qed.

(** [Close] closes each channel once. *)
Lemma close_subs js w : NoDup js -> (forall j, j ∈ js -> exists s, rw_subs w !! j = Some s /\ sb_closed s = false) ->
  let w' := foldl (fun w j => close_sub j w) w js in
  rw_replica w' = rw_replica w /\ rw_links w' = rw_links w /\ rw_closers w' = rw_closers w /\ rw_panicked w' = rw_panicked w
  /\ forall j, rw_subs w' !! j = (fun s => if decide (j ∈ js) then s <| sb_closed := true |> else s) <$> rw_subs w !! j.
Proof.
  revert w. induction js as [|k js IH]; intros w N Op; cbn.
  - split_and!; try done. intros j. destruct (rw_subs w !! j); [|done]. cbn. by rewrite decide_False by apply not_elem_of_nil.
  - apply list.NoDup_cons in N as [Nk N]. destruct (Op k) as (s & S & C); [by left|].
    assert (close_sub k w = w <| rw_subs ::= alter (fun s => s <| sb_closed := true |>) k |>) as Ec by (unfold close_sub; by rewrite S, C).
    rewrite Ec. destruct (IH (w <| rw_subs ::= alter (fun s => s <| sb_closed := true |>) k |>) N) as (A & B & Cl & D & E).
    { intros j J. destruct (Op j) as (x & X & Xc); [by right|]. exists x. cbn. rewrite list_lookup_alter_ne; [done|]. by intros ->. }
    split_and!; try done. intros j. rewrite E. cbn. destruct (decide (j = k)) as [->|Nj].
    + rewrite list_lookup_alter_eq, S. cbn. rewrite decide_False by done. by rewrite decide_True by by left.
    + rewrite list_lookup_alter_ne by done. destruct (rw_subs w !! j) as [x|]; [|done]. cbn.
      destruct (decide (j ∈ js)); [by rewrite decide_True by by right|]. rewrite decide_False; [done|]. rewrite elem_of_cons. naive_solver.
Qed.

Lemma query_js w : replica_inv w -> NoDup ((map_to_list (rp_queries (rw_replica w))).*2)
  /\ forall j, j ∈ (map_to_list (rp_queries (rw_replica w))).*2 -> exists s, rw_subs w !! j = Some s /\ sb_closed s = false.
Proof.
  intros I. split.
  - apply list.NoDup_fmap_2_strong; [|apply NoDup_map_to_list]. intros [a i] [b j] A B E. cbn in E. subst.
    apply elem_of_map_to_list in A, B. destruct (ri_queries w I a j A) as (s & S & Es & _), (ri_queries w I b j B) as (t & T & Et & _). congruence.
  - intros j J. apply list_elem_of_fmap in J as ([id k] & -> & J). apply elem_of_map_to_list in J.
    destruct (ri_queries w I id k J) as (s & S & _ & C). by exists s.
Qed.

Lemma close_kept w k : replica_inv w -> rw_closers w !! k <> None -> (forall o, rw_closers w !! k = Some (CloseWaits o) -> rp_link (rw_replica w) = None) ->
  rp_closing (rw_replica w) = true -> rp_open (rw_replica w) = true ->
  (exists o, rw_closers w !! k = Some (CloseWaits o)) ->
  replica_inv ((foldl (fun w j => close_sub j w) (w <| rw_closers ::= alter (fun _ => CloseDone) k |>) ((map_to_list (rp_queries (rw_replica w))).*2))
                 <| rw_replica ::= fun r => r <| rp_open := false |> <| rp_watch := false |> <| rp_queries := ∅ |> |>).
Proof.
  intros I _ Nl Cg Op [o K]. specialize (Nl o K). set (w1 := w <| rw_closers ::= alter (fun _ => CloseDone) k |>).
  destruct (query_js w I) as [Nd Js]. destruct (close_subs _ w1 Nd Js) as (Er & El & Ec & Ep & Es). set (w2 := foldl _ w1 _) in *.
  destruct I as [A B C D E F G H P]. split.
  - intros i. change (rp_link (rw_replica w2) = Some i <-> exists c, rw_links w2 !! i = Some (true, c)). rewrite Er, El. apply A.
  - intros i. change (rp_link (rw_replica w2) = Some i -> false = true). rewrite Er. change (rp_link (rw_replica w) = Some i -> false = true). congruence.
  - intros k' o'. change (rw_closers w2 !! k' = Some (CloseWaits o') -> rp_closing (rw_replica w2) = true
      /\ forall i, rp_link (rw_replica w2) = Some i -> o' = Some i /\ rw_links w2 !! i = Some (true, true)).
    rewrite Ec, Er. change (rw_replica w1) with (rw_replica w). intros _. split; [done|]. intros i. congruence.
  - intros id j X. change ((∅ : gmap Z nat) !! id = Some j) in X. by rewrite lookup_empty in X.
  - intros j s. change (rw_subs w2 !! j = Some s -> sb_closed s = false -> (∅ : gmap Z nat) !! sb_id s = Some j). rewrite Es. change (rw_subs w1) with (rw_subs w).
    destruct (rw_subs w !! j) as [x|] eqn:X; [|done]. cbn. intros [= <-]. destruct (decide _) as [M|M]; [done|]. intros Xc. exfalso. apply M.
    apply list_elem_of_fmap. exists (sb_id x, j). split; [done|]. apply elem_of_map_to_list. by apply E.
  - intros j s. change (rw_subs w2 !! j = Some s -> match sb_buf s with Some v => v = sb_latest s | None => sb_taken s = Some (sb_latest s) end). rewrite Es.
    change (rw_subs w1) with (rw_subs w). destruct (rw_subs w !! j) as [x|] eqn:X; [|done]. cbn. intros [= <-]. specialize (F j x X). by destruct (decide _).
  - intros _. split; [done|]. change (rp_closing (rw_replica w2) = true). by rewrite Er.
  - done.
  - change (rw_panicked w2 = false). by rewrite Ep.
Qed.

Lemma link_called_kept w w' : replica_inv w -> replica_exec LinkCalled w = Some w' -> replica_inv w'.
Proof.
  intros I E. cbn in E.
  injection E as <-. destruct (_ || _) eqn:G; [done|]. apply orb_false_iff in G as [G Nl]. apply orb_false_iff in G as [Op Cg].
  apply negb_false_iff in Op. apply bool_decide_eq_false in Nl.
  assert (rp_link (rw_replica w) = None) as L by (destruct (rp_link _); [exfalso; apply Nl; by eexists|done]).
  destruct I as [A B C D F H K M P]. split; try done.
  + intros i. cbn. split.
    * intros [= <-]. exists false. by rewrite list_lookup_middle.
    * intros [c X]. apply lookup_app_Some in X as [X|[Le X]]; [|apply list_lookup_singleton_Some in X as [? _]; f_equal; lia].
      assert (rp_link (rw_replica w) = Some i) by (apply A; by exists c). congruence.
  + intros k o X. destruct (C k o X). congruence.
Qed.

Lemma link_returns_kept w w' i : replica_inv w -> replica_exec (LinkReturns i) w = Some w' -> replica_inv w'.
Proof.
  intros I E. cbn in E.
  destruct (rw_links w !! i) as [[[] c]|] eqn:L; try done. injection E as <-. destruct I as [A B C D F H K M P].
  assert (rp_link (rw_replica w) = Some i) as Li by (apply A; by exists c). split; try done.
  + intros k. cbn. split; [done|]. intros [d [[-> (x & _ & [=])]|[N X]]%alter_lookup].
    assert (rp_link (rw_replica w) = Some k) by (apply A; by exists d). congruence.
  + intros k o X. destruct (C k o X) as [X1 _]. done.
Qed.

Lemma subscribe_kept w w' cancelled id v : replica_inv w -> replica_exec (SubscribeCalled cancelled id v) w = Some w' -> replica_inv w'.
Proof.
  intros I E. cbn in E.
  destruct (cancelled || negb (rp_open (rw_replica w)) || rp_closing (rw_replica w)) eqn:G; [by injection E as <-|].
  destruct (decide _) as [|Nid]; [done|]. injection E as <-. apply orb_false_iff in G as [G Cg]. apply orb_false_iff in G as [_ Op].
  apply negb_false_iff in Op. apply not_elem_of_dom in Nid. destruct I as [A B C D F H K M P]. split; try done.
  + intros id' j'. cbn. intros [[<- <-]|[N X]]%lookup_insert_Some; [by exists (MkSub id (Some v) false v None); rewrite list_lookup_middle|].
    destruct (D id' j' X) as (s & S & Si & Sc). exists s. by rewrite (lookup_app_l_Some _ _ _ _ S).
  + intros j' s. cbn. intros X Sc. apply lookup_app_Some in X as [X|[Le X]].
    * specialize (F j' s X Sc). rewrite lookup_insert_ne; [done|]. intros Eq. rewrite <- Eq in F. congruence.
    * apply list_lookup_singleton_Some in X as [Ej <-]. cbn. rewrite lookup_insert_eq. f_equal. lia.
  + intros j' s. cbn. intros X. apply lookup_app_Some in X as [X|[Le X]]; [by apply (H j' s)|]. by apply list_lookup_singleton_Some in X as [_ <-].
  + cbn. congruence.
Qed.

Lemma close_starts_kept w w' : replica_inv w -> replica_exec CloseStarts w = Some w' -> replica_inv w'.
Proof.
  intros I E. cbn in E.
  injection E as <-. destruct I as [A B C D F H K M P]. split; try done.
  + intros i. cbn. rewrite A. destruct (rp_link (rw_replica w)) as [l|]; [|done]. split; intros [c X].
    * destruct (decide (i = l)) as [->|N]; [exists true; by rewrite list_lookup_alter_eq, X|exists c; by rewrite list_lookup_alter_ne].
    * apply alter_lookup in X as [[-> (x & X & [= Ex])]|[N X]]; [|by exists c]. destruct x as [x1 x2]. cbn in Ex. subst. by exists x2.
  + intros k o X. cbn in X. split; [done|]. intros i Li. cbn in Li. cbn. rewrite Li. apply A in Li as Lx. destruct Lx as [c Lx]. rewrite list_lookup_alter_eq, Lx.
    split; [|done]. apply lookup_app_Some in X as [X|[Le X]]; [by apply (C k o X)|]. apply list_lookup_singleton_Some in X as [_ [= <-]]. done.
  + intros O. destruct (K O). done.
Qed.

Lemma close_finishes_kept w w' k : replica_inv w -> replica_exec (CloseFinishes k) w = Some w' -> replica_inv w'.
Proof.
  intros I E. cbn in E.
  destruct (rw_closers w !! k) as [[o|]|] eqn:Ck; try done. destruct (link_over w o) eqn:Ov; [|done]. injection E as <-.
  destruct (ri_closers w I k o Ck) as [Cg Li].
  assert (rp_link (rw_replica w) = None) as Nl.
  { destruct (rp_link (rw_replica w)) as [i|] eqn:L; [|done]. destruct (Li i eq_refl) as [-> Lx]. unfold link_over in Ov. by rewrite Lx in Ov. }
  destruct (rp_open (rw_replica w)) eqn:Op.
  + apply close_kept; try done; [congruence|by exists o].
  + destruct I as [A B C D F H K M P]. split; try done. intros k' o'. cbn. intros [[_ (x & _ & [=])]|[N X]]%alter_lookup. by apply (C k' o').
Qed.

Lemma replica_kept s w w' : replica_inv w -> replica_exec s w = Some w' -> replica_inv w'.
Proof.
  intros I E. destruct s as [|results|i|results|cancelled id v| |j|j| |k].
  - by apply (link_called_kept w).
  - cbn in E. destruct (rp_link (rw_replica w)) as [i|] eqn:L; [|done]. rewrite (ri_open w I i L) in E. injection E as <-. by apply notifyQueries_kept.
  - by apply (link_returns_kept w w' i).
  - cbn in E. injection E as <-. destruct (rp_open _); [by apply notifyQueries_kept|done].
  - by apply (subscribe_kept w w' cancelled id v).
  - cbn in E. injection E as <-. destruct (_ || _); [done|]. destruct I as [A B C D F H K M P]. by split.
  - cbn in E. destruct (rw_subs w !! j) as [s|] eqn:S; [|done]. cbn in E. injection E as <-. destruct (decide _) as [Q|Q]; [by apply closes_query|done].
  - cbn in E. destruct (rw_subs w !! j) as [s|] eqn:S; [|done]. cbn in E. destruct (sb_buf s) as [v|] eqn:Bf; [|done]. injection E as <-.
    apply (sub_changes w I j _ s S); [done..|]. cbn. pose proof (ri_latest w I j s S) as X. rewrite Bf in X. by rewrite X.
  - by apply (close_starts_kept w).
  - by apply (close_finishes_kept w w' k).
Qed.

Lemma replicas_inv w : replica_reachable w -> replica_inv w.
Proof.
  induction 1 as [|s w w' R IH E]; [|by apply (replica_kept s w)]. split; try done; cbn.
  intros i. split; [done|]. by intros [c C].
Qed.

(** C40: Whatever links, writes, subscriptions and calls of [Close] come, and however
    links end, a replica has one link at most, and its file is open while the link
    runs; no channel is closed twice or sent on after; a subscription is open exactly
    while its query is kept, and its reader has the latest result or has taken it. Once
    the file is closed no link runs and every subscription is closed. A call of
    [Close] waits for nothing but a link that has been cancelled, and then closes. *)
Theorem closing_leaves_nothing_open w : replica_reachable w ->
  rw_panicked w = false
  /\ (forall i c, rw_links w !! i = Some (true, c) -> rp_link (rw_replica w) = Some i /\ rp_open (rw_replica w) = true)
  /\ (forall j s, rw_subs w !! j = Some s -> (sb_closed s = false <-> rp_queries (rw_replica w) !! sb_id s = Some j)
        /\ match sb_buf s with Some v => v = sb_latest s | None => sb_taken s = Some (sb_latest s) end)
  /\ (rp_open (rw_replica w) = false ->
        (forall i l, rw_links w !! i = Some l -> l.1 = false) /\ forall j s, rw_subs w !! j = Some s -> sb_closed s = true)
  /\ forall k o, rw_closers w !! k = Some (CloseWaits o) ->
       (exists i, o = Some i /\ rw_links w !! i = Some (true, true))
       \/ exists w', replica_exec (CloseFinishes k) w = Some w' /\ rp_open (rw_replica w') = false.
Proof.
  intros R. pose proof (replicas_inv w R) as I. assert (forall i c, rw_links w !! i = Some (true, c) -> rp_link (rw_replica w) = Some i) as Li
    by (intros i c L; apply (ri_link w I); by exists c).
  split_and!; [apply I| | | |].
  - intros i c L. split; [by apply (Li i c)|]. apply (ri_open w I i). by apply (Li i c).
  - intros j s S. split; [|by apply (ri_latest w I j)]. split; [by apply (ri_subs w I j)|]. intros Q.
    destruct (ri_queries w I _ j Q) as (x & X & _ & C). congruence.
  - intros O. destruct (ri_shut w I O) as [Q _]. split.
    + intros i [[] c] L; [|done]. pose proof (ri_open w I i (Li i c L)). congruence.
    + intros j s S. destruct (sb_closed s) eqn:C; [done|]. pose proof (ri_subs w I j s S C) as X. by rewrite Q, lookup_empty in X.
  - intros k o K. destruct (link_over w o) eqn:Ov.
    + right. eexists. split; [cbn; by rewrite K, Ov|]. destruct (rp_open (rw_replica w)) eqn:Op; [done|exact Op].
    + left. unfold link_over in Ov. destruct o as [i|]; [|done]. destruct (rw_links w !! i) as [[[] c]|] eqn:L; try done.
      destruct (ri_closers w I k _ K) as [_ Cl]. destruct (Cl i (Li i c L)) as [_ X]. exists i. split; [done|congruence].
Qed.

(** ** The owner's closing *)

(** What the file holds, whether it is open, the observer, the receipts whose observer
    was read and has not yet run, and how far [closeOwned] is. *)
Inductive owner_phase := OServing | OSettled | OUnbound | OClosed.
Record owner := MkOwner { ow_rows : UsageDB; ow_bound : bool; ow_taken : list RequestReceipt; ow_phase : owner_phase }.
#[export] Instance eta_owner : Eta owner := fun w => MkOwner (ow_rows w) (ow_bound w) (ow_taken w) (ow_phase w).
#[export] Hint Extern 1 (@Setter owner _ _) => setter_of eta_owner : typeclass_instances.

Section Owner.
Context `{Rfc3339Nano, FloatText}.

Definition file_open (w : owner) : bool := match ow_phase w with OClosed => false | _ => true end.
(** [withDB]. *)
Definition withDB (f : UsageDB -> UsageDB * bool) (w : owner) : owner := if file_open w then w <| ow_rows ::= fun d => (f d).1 |> else w.
(** The query gives the rows that are started, or fails. *)
Definition settle_now (reason : string) (query : bool) (exec : string * string * string -> bool) (now : Time) (d : UsageDB) : UsageDB * bool :=
  SettleStartedObligations exec reason now (if query then Some ((started_keys d).*2) else None) d.

Inductive owner_step :=
| ReceiptObserved (r : RequestReceipt)      (* [RecordObservedReceipt] reads the observer *)
| ObserverRuns (i : nat) (exec : bool)
(* the hook runs, at any time: it may have been read before it was cleared *)
| SidecarExits (query : bool) (exec : string * string * string -> bool) (now : Time)
| ClosingSettles (query : bool) (exec : string * string * string -> bool) (now : Time)
| ObserversCleared
| OwnerFileCloses.                          (* once the links are over *)

Definition owner_exec (s : owner_step) (w : owner) : option owner :=
  match s with
  | ReceiptObserved r => Some (if ow_bound w then w <| ow_taken ::= fun l => l ++ [r] |> else w)
  | ObserverRuns i exec => r ← ow_taken w !! i; Some (withDB (PublishReceipt exec r) (w <| ow_taken ::= delete i |>))
  | SidecarExits query exec now => Some (withDB (settle_now SidecarExitReceiptReason query exec now) w)
  | ClosingSettles query exec now =>
    match ow_phase w with OServing => Some (withDB (settle_now ShutdownReceiptReason query exec now) w <| ow_phase := OSettled |>) | _ => None end
  | ObserversCleared => match ow_phase w with OSettled => Some (w <| ow_bound := false |> <| ow_phase := OUnbound |>) | _ => None end
  | OwnerFileCloses => match ow_phase w with OUnbound => Some (w <| ow_phase := OClosed |>) | _ => None end
  end.
End Owner.

Module OwnerCloses.
Import UsageRuns.

Definition serving : owner := MkOwner no_rows true [] OServing.
Definition settles : owner_step := ClosingSettles true (fun _ => true) 9%Z.
Definition left_at_the_end (steps : list owner_step) : option (option string) :=
  (fun w => rw_state <$> ud_receipts (ow_rows w) !! receipt_key a_receipt) <$> run_steps owner_exec steps serving.

(** A start that is recorded before the closing settles it is cancelled in the file
    that is left. *)
Example a_start_is_settled :
  left_at_the_end [ReceiptObserved a_receipt; ObserverRuns 0 true; settles; ObserversCleared; OwnerFileCloses] = Some (Some ReceiptCancelled).
Proof. vm_compute. reflexivity. Qed.

(** One that is observed as the broker closes, or whose observer runs a little late,
    is left started, before the observers are cleared or after. *)
Example a_start_outlives_the_closing :
  left_at_the_end [settles; ReceiptObserved a_receipt; ObserverRuns 0 true; ObserversCleared; OwnerFileCloses] = Some (Some ReceiptStarted)
  /\ left_at_the_end [ReceiptObserved a_receipt; settles; ObserversCleared; ObserverRuns 0 true; OwnerFileCloses] = Some (Some ReceiptStarted).
Proof. vm_compute. split; reflexivity. Qed.

End OwnerCloses.

(** ** Runs *)

Module Linking.

Abbreviation link_runs := (run_steps link_exec).
Lemma link_runs_reachable steps w w' : link_reachable w -> link_runs steps w = Some w' -> link_reachable w'.
Proof. apply run_steps_keep. intros s v v' R E. by apply (links_go s v v'). Qed.
Abbreviation replica_runs := (run_steps replica_exec).
Lemma replica_runs_reachable steps w w' : replica_reachable w -> replica_runs steps w = Some w' -> replica_reachable w'.
Proof. apply run_steps_keep. intros s v v' R E. by apply (replica_goes s v v'). Qed.

Example a_frame_of_three_bytes : writeFrame "abc" = inl (put_uint32 3 +:+ "abc") /\ readFrame (put_uint32 3 +:+ "abc" +:+ "d") = inl ("abc", "d")
  /\ readFrame (put_uint32 0) = inr (FrameSize 0) /\ readFrame (put_uint32 (maxFrame + 1)) = inr (FrameSize (maxFrame + 1)).
Proof. vm_compute. done. Qed.

Definition all_live : Z -> bool := fun _ => true.
Definition dials (alive : Z -> bool) (pid : Z) : list link_step := [Accepts pid; Evicts alive; Begins alive].

(** A consumer is linked and links again; another dials. *)
Definition relinked : list link_step := dials all_live 7 ++ [WaitEnds 0] ++ dials all_live 7 ++ [Accepts 8; Evicts all_live].
Definition after_relinked : link_world := default no_links (link_runs relinked no_links).
Lemma after_relinked_reachable : link_reachable after_relinked.
Proof. apply (link_runs_reachable relinked no_links); [constructor|vm_compute; reflexivity]. Qed.

Theorem links_take_turns_witness :
  lc_phase <$> lw_conns after_relinked = [LRunning; LWaiting; LNew] /\ lc_closed <$> lw_conns after_relinked !! 0 = Some true
  /\ exists w', link_exec (Begins all_live) after_relinked = Some w' /\ lw_slot w' = lw_slot after_relinked
       /\ lc_phase <$> lw_conns w' !! 2 = Some LRefused.
Proof.
  destruct (links_take_turns after_relinked after_relinked_reachable) as (_ & Old & _ & B & _); [vm_compute; reflexivity|].
  split; [vm_compute; reflexivity|]. split.
  - destruct (lw_conns after_relinked !! 0) as [c|] eqn:C; [|vm_compute in C; discriminate C]. cbn. f_equal.
    apply (Old 0 c C); vm_compute in C; injection C as <-; [reflexivity|]. vm_compute. discriminate.
  - destruct (lw_conns after_relinked !! 2) as [c|] eqn:C; [|vm_compute in C; discriminate C].
    destruct (link_exec (Begins all_live) after_relinked) as [w'|] eqn:E; [|vm_compute in E; discriminate E].
    exists w'. split; [reflexivity|]. specialize (B all_live 2 c w' ltac:(vm_compute; reflexivity) C E).
    assert (linked_by_another all_live (lc_pid c) after_relinked) as H.
    { exists 1. eexists. vm_compute in C; injection C as <-. vm_compute. split_and!; [reflexivity..|discriminate]. }
    destruct (proj1 B H) as (P & S & _). split; [exact S|exact P].
Defined.

Theorem a_new_link_gets_its_turn_witness :
  (exists s w', of_worker s = true /\ link_exec s after_relinked = Some w')
  /\ exists w', link_exec (LinkEnds 0 false) after_relinked = Some w' /\ links_left w' < links_left after_relinked.
Proof.
  destruct (a_new_link_gets_its_turn after_relinked after_relinked_reachable) as [G L]; [vm_compute; reflexivity|]. split.
  - destruct (lw_conns after_relinked !! 1) as [c|] eqn:C; [|vm_compute in C; discriminate C]. apply (G 1 c C).
    left. vm_compute in C. injection C as <-. reflexivity.
  - destruct (link_exec (LinkEnds 0 false) after_relinked) as [w'|] eqn:E; [|vm_compute in E; discriminate E].
    exists w'. split; [reflexivity|]. exact (proj1 (L _ w' E) eq_refl).
Defined.

(** The dead holder's place is taken by another, and the late end of its worker leaves
    the new place alone. *)
Example a_dead_consumer_gives_way :
  (fun w => (lc_phase <$> lw_conns w, cs_pid (lw_slot w), cs_busy (lw_slot w))) <$>
    link_runs (dials all_live 7 ++ [WaitEnds 0] ++ dials (fun p => negb (p =? 7)%Z) 8 ++ [LinkEnds 0 false; SlotEnds 0; Finishes 0; WaitEnds 1]) no_links
  = Some ([LFinished; LRunning], 8%Z, true).
Proof. vm_compute. reflexivity. Qed.

(** A peer whose process is not known displaces the holder, though it lives. *)
Example an_unknown_peer_is_not_refused :
  (fun w => (lc_phase <$> lw_conns w, lc_closed <$> lw_conns w)) <$> link_runs (dials all_live 7 ++ [WaitEnds 0] ++ dials all_live 0) no_links
  = Some ([LRunning; LWaiting], [true; false]).
Proof. vm_compute. reflexivity. Qed.

(** A reader that is slow, and [Close] while the link runs. *)
Definition closing_replica : list replica_step :=
  [SubscribeCalled false 1 "none"; LinkCalled; LinkApplies [(1%Z, "one")]; SubscribeCalled false 2 "all"; LinkApplies [(1%Z, "two"); (2%Z, "more")];
   Receives 0; ContextEnds 1; CloseStarts; LinkApplies [(1%Z, "last")]].
Definition half_closed : replica_world := default OpenReplica (replica_runs closing_replica OpenReplica).
Lemma half_closed_reachable : replica_reachable half_closed.
Proof. apply (replica_runs_reachable closing_replica OpenReplica); [constructor|vm_compute; reflexivity]. Qed.
Definition link_gone : replica_world := default OpenReplica (replica_exec (LinkReturns 0) half_closed).
Lemma link_gone_reachable : replica_reachable link_gone.
Proof. apply (replica_goes (LinkReturns 0) half_closed); [exact half_closed_reachable|vm_compute; reflexivity]. Qed.

Theorem closing_leaves_nothing_open_witness :
  rw_panicked link_gone = false
  /\ (exists s, rw_subs link_gone !! 0 = Some s /\ sb_closed s = false /\ sb_buf s = Some "last" /\ sb_latest s = "last")
  /\ exists w', replica_exec (CloseFinishes 0) link_gone = Some w' /\ rp_open (rw_replica w') = false /\ sb_closed <$> rw_subs w' = [true; true].
Proof.
  destruct (closing_leaves_nothing_open link_gone link_gone_reachable) as (P & _ & S & _ & C). split; [exact P|]. split.
  - destruct (rw_subs link_gone !! 0) as [s|] eqn:E; [|vm_compute in E; discriminate E]. exists s. split; [reflexivity|].
    destruct (S 0 s E) as [Q L]. split; [apply Q; vm_compute in E; injection E as <-; vm_compute; reflexivity|].
    assert (sb_buf s = Some "last") as B by (vm_compute in E; injection E as <-; reflexivity). rewrite B in L. split; [exact B|symmetry; exact L].
  - destruct (C 0 (Some 0%nat)) as [(i & [= <-] & X)|(w' & E & O)]; [vm_compute; reflexivity|vm_compute in X; discriminate X|].
    exists w'. split; [exact E|]. split; [exact O|]. vm_compute in E. injection E as <-. reflexivity.
Defined.

End Linking.
