(* ===== verification/Ephemeral.v ===== *)
(** * Ephemeral: short-lived plumbing seats

    Models [ephemeral_seat.go]: which names are plumbing seats, what a definition
    of one must be, and the directory it runs in; with what it uses of
    [path/filepath] on Unix. *)

From Stdlib Require Import Ascii.
From S2P Require Import Prelude GoLib RegistryTypes.

(** ** [path/filepath] *)

Definition slash : ascii := "/"%char.
Definition path_elems (p : string) : list string := split_byte slash p.
Definition path_is_abs (p : string) : bool := has_prefix p "/".

(** One element of a path onto those kept, the last one first. *)
Definition clean_step (rooted : bool) (kept : list string) (e : string) : list string :=
  if decide (e = "" \/ e = ".") then kept
  else if decide (e = "..") then
    match kept with
    | [] => if rooted then [] else [".."]
    | k :: kept' => if decide (k = "..") then ".." :: kept else kept'
    end
  else e :: kept.

Definition Clean (p : string) : string :=
  let rooted := path_is_abs p in
  let kept := rev (foldl (clean_step rooted) [] (path_elems p)) in
  if rooted then "/" +:+ Join kept "/"
  else match kept with [] => "." | _ => Join kept "/" end.

(** [filepath.Join] of two elements: empty ones are left out. *)
Definition JoinPath (a b : string) : string :=
  if decide (a = "") then (if decide (b = "") then "" else Clean b)
  else if decide (b = "") then Clean a else Clean (a +:+ "/" +:+ b).

(** What the host gives: the temporary directory, the working directory, and
    where symbolic links lead. *)
Class Host := { temp_dir : string; cwd : option string; eval_symlinks : string -> option string }.

Section Ephemeral.
Context {OS : Host}.

Definition Abs (p : string) : option string :=
  if path_is_abs p then Some (Clean p) else (fun d => JoinPath d p) <$> cwd.

(** ** Directories *)

Definition underDir (path root : string) : bool :=
  let path := Clean path in let root := Clean root in
  bool_decide (path = root) || has_prefix path (root +:+ "/").

Definition hasPathElem (p elem : string) : bool := contains (path_elems (Clean p)) elem.

Definition resolvedPath (p : string) : string :=
  match eval_symlinks p with Some r => Clean r | None => Clean p end.

Definition EphemeralWorkRoot : string := JoinPath temp_dir "claudia-pimp".

Definition ephemeralWorkDirOK (abs : string) : bool :=
  match Abs temp_dir with
  | Some tmp => underDir abs (Clean tmp) || underDir (resolvedPath abs) (resolvedPath tmp)
  | None => false
  end || hasPathElem abs "_scratchpad".

Definition defaultEphemeralWorkDir (name : string) : option string :=
  let name := TrimSpace name in
  if decide (name = "") then None
  else match Abs EphemeralWorkRoot with
       | None => None
       | Some root =>
         let root := Clean root in
         let dir := JoinPath root name in
         if underDir dir root then Some dir else None
       end.

Definition IsolateEphemeralWorkDir (name workDir : string) : option string :=
  let workDir := TrimSpace workDir in
  if decide (workDir = "" \/ workDir = ".") then defaultEphemeralWorkDir name
  else match Abs workDir with
       | None => None
       | Some abs =>
         let abs := Clean abs in
         if ephemeralWorkDirOK abs then Some abs else defaultEphemeralWorkDir name
       end.

(** ** Names *)

Definition ParentPimp : string := "pimp".
Definition EphemeralSmokePrefix : string := "pimp-smoke-".
Definition EphemeralHandoffPrefix : string := "pimp-handoff-".
Definition EphemeralGrantTTL : Duration := 2 * Minute.
Definition PurposeWork : string := "work".
Definition PurposeAside : string := "aside".
Definition PurposeOverseer : string := "overseer".

Definition validEphemeralID (id : string) : bool :=
  negb (contains [""; "."; ".."] id) && negb (Contains id "/") && negb (Contains id "\").

(** [strings.CutPrefix]. *)
Definition CutPrefix (s p : string) : option string :=
  if has_prefix s p then Some (drop_bytes (len p) s) else None.

Inductive EphemeralKind := EphemeralSmoke | EphemeralHandoff.
Definition prefix (k : EphemeralKind) : string :=
  match k with EphemeralSmoke => EphemeralSmokePrefix | EphemeralHandoff => EphemeralHandoffPrefix end.

Definition ephemeralID (name : string) : option (EphemeralKind * string) :=
  let try_ k := match CutPrefix name (prefix k) with
                | Some rest => if validEphemeralID rest then Some (k, rest) else None
                | None => None
                end in
  match try_ EphemeralHandoff with
  | Some r => Some r
  | None => try_ EphemeralSmoke
  end.

Definition EphemeralSeatName (name : string) : bool := bool_decide (is_Some (ephemeralID name)).

Definition validPurpose (p : string) : bool := contains [""; PurposeWork; PurposeAside; PurposeOverseer] p.

(** ** Definitions *)

Definition IsEphemeralGrant (d : AgentDef) : bool :=
  EphemeralSeatName (d_Name d) && contains [""; ParentPimp] (d_Parent d).

Definition or_else (x dflt : string) : string := if decide (x = "") then dflt else x.

Definition PrepareEphemeralGrant (d : AgentDef) : option AgentDef :=
  if EphemeralSeatName (d_Name d) then
    if contains [""; ParentPimp] (d_Parent d) && validPurpose (d_Purpose d) then
      match IsolateEphemeralWorkDir (d_Name d) (d_WorkDir d) with
      | None => None
      | Some wd => Some (d <| d_WorkDir := wd |> <| d_Parent := or_else (d_Parent d) ParentPimp |>
                           <| d_Purpose := or_else (d_Purpose d) PurposeWork |>)
      end
    else None
  else Some d.

Definition EphemeralSeatDef (uuid : string) (kind : EphemeralKind) (id purpose : string) : option AgentDef :=
  if validEphemeralID id then
    let purpose := or_else purpose PurposeWork in
    if validPurpose purpose then
      let name := prefix kind +:+ id in
      (fun wd => no_def <| d_Name := name |> <| d_Parent := ParentPimp |> <| d_Purpose := purpose |>
                        <| d_WorkDir := wd |> <| d_SessionID := uuid |>) <$> IsolateEphemeralWorkDir name ""
    else None
  else None.
End Ephemeral.
