(* ===== verification/TranscriptRewind.v ===== *)
(** * TranscriptRewind: rolling a transcript back by user turns

    Models [rewind.go], with [SessionJSONLPath] and [escapeWorkDir] of [agent.go]. The
    files are a map from paths; which call of the operating system fails, and how much
    of a write that fails was done, are arguments. [a_rewind_can_be_undone] says what is
    cut and that it comes back. *)

From Stdlib Require Import Ascii Sorted.
From S2P Require Import Prelude GoLib FleetNames TurnWait Requests GoJson GoStruct Ephemeral.

(** ** Which lines are prompts *)

(** The structs of [isUserPromptLine]. *)
Record promptMessage := MkPromptMessage { pm_Content : option json }.
#[export] Instance eta_promptMessage : Eta promptMessage := fun m => MkPromptMessage (pm_Content m).
#[export] Hint Extern 1 (@Setter promptMessage _ _) => setter_of eta_promptMessage : typeclass_instances.
Record promptLine := MkPromptLine { pl_Type : string; pl_Message : promptMessage }.
#[export] Instance eta_promptLine : Eta promptLine := fun l => MkPromptLine (pl_Type l) (pl_Message l).
#[export] Hint Extern 1 (@Setter promptLine _ _) => setter_of eta_promptLine : typeclass_instances.
Record promptBlock := MkPromptBlock { pb_Type : string }.
#[export] Instance eta_promptBlock : Eta promptBlock := fun b => MkPromptBlock (pb_Type b).
#[export] Hint Extern 1 (@Setter promptBlock _ _) => setter_of eta_promptBlock : typeclass_instances.

Definition promptMessage_json : codec promptMessage := loose (MkPromptMessage None) [must "content" raw pm_Content].
Definition promptLine_json : codec promptLine :=
  loose (MkPromptLine "" (MkPromptMessage None)) [must "type" text pl_Type; must "message" promptMessage_json pl_Message].
Definition promptBlock_json : codec promptBlock := loose (MkPromptBlock "") [must "type" text pb_Type].

(** What a rewind did. *)
Record RewindResult := MkRewindResult {
  rr_SessionID : string; rr_JSONLPath : string; rr_TurnsRemoved : Z; rr_LinesRemoved : nat; rr_BytesRemoved : nat;
  rr_BackupPath : string }.
#[export] Instance eta_RewindResult : Eta RewindResult := fun r =>
  MkRewindResult (rr_SessionID r) (rr_JSONLPath r) (rr_TurnsRemoved r) (rr_LinesRemoved r) (rr_BytesRemoved r) (rr_BackupPath r).
#[export] Hint Extern 1 (@Setter RewindResult _ _) => setter_of eta_RewindResult : typeclass_instances.

Section Rewinding.
Context `{Json, OS : Host}.

Definition isUserPromptLine (line : string) : bool :=
  match parse_json line ≫= unmarshal promptLine_json with
  | None => false
  | Some e =>
    bool_decide (pl_Type e = "user")
    && match pm_Content (pl_Message e) with
       | None => false
       | Some content =>
         match unmarshal text content with
         | Some _ => true
         | None => match unmarshal (slice promptBlock_json) content with
                   | Some blocks => existsb (fun b => bool_decide (pb_Type b = "text")) (default [] blocks)
                   | None => false
                   end
         end
       end
  end.

(** What the events of a provider carry of such a line. *)
Definition line_view (line : string) : option raw_line :=
  e ← parse_json line ≫= unmarshal promptLine_json;
  Some (MkLine (pl_Type e)
    match pm_Content (pl_Message e) with
    | None => ContentOther
    | Some content =>
      match unmarshal text content, unmarshal (slice promptBlock_json) content with
      | Some _, _ => ContentString
      | None, Some blocks => ContentBlocks (pb_Type <$> default [] blocks)
      | None, None => ContentOther
      end
    end).

(** ** Where they start *)

(** The loop over the bytes: [line] is what is between [lineStart] and [i]. *)
Fixpoint user_offsets (data : string) (i lineStart : nat) (line : string) : list nat :=
  let found := if negb (bool_decide (line = "")) && isUserPromptLine line then [lineStart] else [] in
  match data with
  | EmptyString => found
  | String a data =>
    if Ascii.eqb a (byte 10) then found ++ user_offsets data (S i) (S i) ""
    else user_offsets data (S i) lineStart (line +:+ String a "")
  end.
Definition userOffsets (data : string) : list nat := user_offsets data 0 0 "".

Fixpoint newlines (s : string) : nat :=
  match s with EmptyString => 0 | String a s => (if Ascii.eqb a (byte 10) then 1 else 0) + newlines s end.
Definition linesRemoved (removed : string) : nat :=
  newlines removed
  + if negb (bool_decide (removed = "")) && negb (bool_decide (String.get (len removed - 1) removed = Some (byte 10))) then 1 else 0.

(** ** Files *)

#[local] Notation files := (gmap string string).

(** How a write ends: done, refused, or after so many bytes of the new content. *)
Inductive write_result := Wrote | WriteRefused | WrotePart (n : nat).
Definition WriteFile (w : write_result) (path data : string) (fs : files) : files * bool :=
  match w with
  | Wrote => (<[path := data]> fs, true)
  | WriteRefused => (fs, false)
  | WrotePart n => (<[path := take_bytes n data]> fs, false)
  end.
Definition ReadFile (ok : bool) (path : string) (fs : files) : option string := if ok then fs !! path else None.
Definition Truncate (ok : bool) (path : string) (size : nat) (fs : files) : files * bool :=
  match fs !! path with Some data => if ok then (<[path := take_bytes size data]> fs, true) else (fs, false) | None => (fs, false) end.
Definition Remove (ok : bool) (path : string) (fs : files) : files * bool :=
  match fs !! path with Some _ => if ok then (delete path fs, true) else (fs, false) | None => (fs, false) end.

(** ** Rewinding *)

Inductive rewind_error := BadTurns (n : Z) | NoTranscript | TooFewTurns (n : Z) (turns : nat) | NoBackup | NotTruncated.

Definition rewindBackupSuffix : string := ".rewind-bak".

(** What the operating system does with one rewind's calls. *)
Record rewind_io := MkRewindIO { io_read : bool; io_backup : write_result; io_truncate : bool }.
Definition all_well : rewind_io := MkRewindIO true Wrote true.

(** [rewindJSONL]; [n] is in range where the offset is looked up. *)
Definition rewindJSONL (io : rewind_io) (path : string) (n : Z) (fs : files) : files * (RewindResult + rewind_error) :=
  if (n <? 1)%Z then (fs, inr (BadTurns n))
  else match ReadFile (io_read io) path fs with
  | None => (fs, inr NoTranscript)
  | Some data =>
    let turns := length (userOffsets data) in
    if (Z.of_nat turns <? n)%Z then (fs, inr (TooFewTurns n turns))
    else
      let cut := List.nth (turns - Z.to_nat n) (userOffsets data) 0%nat in
      let removed := drop_bytes cut data in
      let backup := path +:+ rewindBackupSuffix in
      let w := WriteFile (io_backup io) backup data fs in
      if negb w.2 then (w.1, inr NoBackup)
      else let t := Truncate (io_truncate io) path cut w.1 in
           if negb t.2 then (t.1, inr NotTruncated)
           else (t.1, inl (MkRewindResult "" path n (linesRemoved removed) (len removed) backup))
  end.

(** [Unrewind]: whether it was done. *)
Record unrewind_io := MkUnrewindIO { io_reads : bool; io_restores : write_result; io_removes : bool }.
Definition undone_well : unrewind_io := MkUnrewindIO true Wrote true.
Definition Unrewind (io : unrewind_io) (path : string) (fs : files) : files * bool :=
  let backup := path +:+ rewindBackupSuffix in
  match ReadFile (io_reads io) backup fs with
  | None => (fs, false)
  | Some data =>
    let w := WriteFile (io_restores io) path data fs in
    if w.2 then Remove (io_removes io) backup w.1 else w
  end.

(** ** Sessions *)

Definition plain_rune (r : string) : bool :=
  match r with
  | String a EmptyString =>
    between 97 122 (nat_of_ascii a) || between 65 90 (nat_of_ascii a) || between 48 57 (nat_of_ascii a) || Ascii.eqb a "-"%char
  | _ => false
  end.
Definition escapeWorkDir (workDir : string) : string := Join ((fun r => if plain_rune r then r else "-") <$> runes workDir) "".

(** [filepath.Join]: the first elements that are empty are left out. *)
Fixpoint JoinAll (elems : list string) : string :=
  match elems with
  | [] => ""
  | e :: rest => if decide (e = "") then JoinAll rest else Clean (Join elems "/")
  end.
Definition projectDir (home workDir : string) : string := JoinAll [home; ".claude"; "projects"; escapeWorkDir workDir].
Definition SessionJSONLPath (home sessionID workDir : string) : string := JoinAll [projectDir home workDir; sessionID +:+ ".jsonl"].

Definition RewindSession (io : rewind_io) (home sessionID workDir : string) (n : Z) (fs : files) : files * (RewindResult + rewind_error) :=
  let resolved := default workDir (eval_symlinks workDir) in
  let r := rewindJSONL io (SessionJSONLPath home sessionID resolved) n fs in
  (r.1, match r.2 with inl res => inl (res <| rr_SessionID := sessionID |>) | inr e => inr e end).

(** Events and transcripts agree on what a prompt is. *)
Lemma line_view_prompt line : Requests.isUserPromptLine (line_view line) = isUserPromptLine line.
Proof.
  unfold Requests.isUserPromptLine, isUserPromptLine, line_view. destruct (parse_json line ≫= unmarshal promptLine_json) as [e|]; [|done].
  cbn. f_equal. destruct (pm_Content (pl_Message e)) as [c|]; [|done]. destruct (unmarshal text c); [done|].
  destruct (unmarshal (slice promptBlock_json) c) as [o|]; [|done]. cbn. generalize (default [] o). intros blocks.
  induction blocks as [|b blocks IH]; [done|]. cbn. rewrite <- IH. repeat case_bool_decide; set_solver.
Qed.

(** ** Cutting at a prompt *)

(** What ends where a line starts. *)
Definition ends_line (s : string) : Prop := s = "" \/ exists a, s = a +:+ nl.

Lemma uo_shift d i s line k : user_offsets d (i + k) (s + k) line = (fun o => (o + k)%nat) <$> user_offsets d i s line.
Proof.
  revert i s line. induction d as [|a d IH]; intros i s line; cbn [user_offsets].
  - by destruct (negb (bool_decide (line = "")) && isUserPromptLine line).
  - destruct (Ascii.eqb a (byte 10)); [|apply (IH (S i) s)]. rewrite fmap_app. f_equal; [by destruct (_ && _)|apply (IH (S i) (S i))].
Qed.

Lemma uo_app a b i s line :
  user_offsets (a +:+ nl +:+ b) i s line = user_offsets (a +:+ nl) i s line ++ user_offsets b (i + len a + 1) (i + len a + 1) "".
Proof.
  revert i s line. induction a as [|c a IH]; intros i s line.
  - change ("" +:+ nl +:+ b) with (String (byte 10) b). change ("" +:+ nl) with (String (byte 10) ""). cbn [user_offsets].
    change (Ascii.eqb (byte 10) (byte 10)) with true. cbv iota. cbn. rewrite app_nil_r. do 2 f_equal; lia.
  - rewrite !str_app_cons. cbn [user_offsets String.length]. replace (i + S (len a) + 1) with (S i + len a + 1) by lia.
    destruct (Ascii.eqb c (byte 10)); [|apply IH]. rewrite <- app_assoc. f_equal. apply IH.
Qed.

(** An offset is where the line began or past a line feed. *)
Lemma uo_split o d i s line : o ∈ user_offsets d i s line -> o = s \/ exists a b, d = a +:+ nl +:+ b /\ o = (i + len a + 1)%nat.
Proof.
  revert i s line. induction d as [|c d IH]; intros i s line; cbn [user_offsets].
  - destruct (_ && _); [intros ->%list_elem_of_singleton; by left|by intros X%elem_of_nil].
  - destruct (Ascii.eqb_spec c (byte 10)) as [->|N].
    + intros [X|X]%elem_of_app; [left; destruct (_ && _); [by apply list_elem_of_singleton in X|by apply elem_of_nil in X]|]. right.
      destruct (IH _ _ _ X) as [->|(a & b & -> & ->)]; [exists "", d; split; [done|cbn; lia]|].
      exists (String (byte 10) a), b. split; [done|]. cbn. lia.
    + intros X. destruct (IH _ _ _ X) as [->|(a & b & -> & ->)]; [by left|]. right. exists (String c a), b. split; [done|]. cbn. lia.
Qed.

Lemma uo_from o d i s line : s <= i -> o ∈ user_offsets d i s line -> s <= o.
Proof. intros L X. destruct (uo_split o d i s line X) as [->|(a & b & _ & ->)]; lia. Qed.

Lemma uo_before o a i s line : s <= i -> o ∈ user_offsets (a +:+ nl) i s line -> o < i + len a + 1.
Proof.
  revert i s line. induction a as [|c a IH]; intros i s line L.
  - change ("" +:+ nl) with (String (byte 10) ""). cbn [user_offsets]. change (Ascii.eqb (byte 10) (byte 10)) with true. cbv iota.
    intros [X|X]%elem_of_app; [|by apply elem_of_nil in X]. destruct (_ && _); [apply list_elem_of_singleton in X; cbn; lia|by apply elem_of_nil in X].
  - rewrite str_app_cons. cbn [user_offsets String.length]. destruct (Ascii.eqb c (byte 10)).
    + intros [X|X]%elem_of_app; [destruct (_ && _); [apply list_elem_of_singleton in X; lia|by apply elem_of_nil in X]|]. apply IH in X; lia.
    + intros X. apply IH in X; lia.
Qed.

(** The offsets increase. *)
Lemma uo_sorted d i s line : s <= i -> StronglySorted lt (user_offsets d i s line).
Proof.
  revert i s line. induction d as [|c d IH]; intros i s line L; cbn [user_offsets].
  - destruct (_ && _); repeat constructor.
  - destruct (Ascii.eqb c (byte 10)); [|apply IH; lia]. destruct (_ && _); [|by apply IH]. constructor; [by apply IH|].
    apply list.Forall_forall. intros o X. apply uo_from in X; lia.
Qed.
Lemma offsets_increase d j k o q : j < k -> userOffsets d !! j = Some o -> userOffsets d !! k = Some q -> o < q.
Proof.
  intros L J K. pose proof (uo_sorted d 0 0 "" ltac:(lia)) as S. fold (userOffsets d) in S. revert j k L J K.
  induction S as [|x l S IH F]; intros [|j] [|k] L J K; try done; try lia.
  - injection J as <-. rewrite list.Forall_forall in F. apply F. apply list_elem_of_lookup. by exists k.
  - apply (IH j k); [lia|done|done].
Qed.

(** At the [k]-th offset the transcript falls in two, and so do its prompts. *)
Lemma cut_at_prompt data k o : userOffsets data !! k = Some o ->
  exists kept removed, data = kept +:+ removed /\ len kept = o /\ ends_line kept
    /\ userOffsets kept = take k (userOffsets data)
    /\ (fun q => (q + o)%nat) <$> userOffsets removed = drop k (userOffsets data).
Proof.
  intros K. pose proof (list_elem_of_lookup_2 _ _ _ K) as X. destruct (uo_split _ _ _ _ _ X) as [->|(a & b & -> & ->)].
  - exists "", data. assert (k = 0) as ->.
    { destruct k as [|k]; [done|]. destruct (userOffsets data) as [|q l] eqn:U; [done|].
      assert (q < 0); [|lia]. apply (offsets_increase data 0 (S k)); [lia|by rewrite U|by rewrite U]. }
    split_and!; [done|done|by left|done|]. rewrite drop_0. rewrite (list_fmap_ext _ id), list_fmap_id; [done|]. intros. cbn. lia.
  - exists (a +:+ nl), b. pose proof (uo_app a b 0 0 "") as E. fold (userOffsets (a +:+ nl +:+ b)) in E. fold (userOffsets (a +:+ nl)) in E.
    set (P := userOffsets (a +:+ nl)) in *. set (Q := user_offsets b (0 + len a + 1) (0 + len a + 1) "") in *.
    assert (length P <= k) as Lk.
    { destruct (decide (length P <= k)) as [|N]; [done|]. rewrite E, lookup_app_l in K by lia.
      apply list_elem_of_lookup_2, uo_before in K; lia. }
    assert (k = length P) as ->.
    { destruct (decide (k = length P)) as [|N]; [done|]. rewrite E, lookup_app_r in K by done.
      destruct (Q !! 0) as [q|] eqn:Q0.
      - assert (q < 0 + len a + 1).
        { apply (offsets_increase (a +:+ nl +:+ b) (length P) k); [lia|by rewrite E, lookup_app_r, Nat.sub_diag by lia|by rewrite E, lookup_app_r]. }
        apply list_elem_of_lookup_2, uo_from in Q0; lia.
      - apply lookup_ge_None in Q0. apply lookup_lt_Some in K. lia. }
    split_and!; [by rewrite str_app_assoc|rewrite str_app_len; cbn; lia|by right; exists a|by rewrite E, take_app_length|].
    rewrite E, drop_app_length. unfold Q. rewrite <- (uo_shift b 0 0 ""). f_equal; lia.
Qed.

(** ** Lines *)

(** The lines of a transcript; the last need not be ended. *)
Fixpoint transcript_lines (s line : string) : list string :=
  match s with
  | EmptyString => if decide (line = "") then [] else [line]
  | String a s => if Ascii.eqb a (byte 10) then line :: transcript_lines s "" else transcript_lines s (line +:+ String a "")
  end.

(** Whether a last line is not ended. *)
Definition open_end (s line : string) : nat :=
  match s with
  | EmptyString => if decide (line = "") then 0 else 1
  | _ => if bool_decide (String.get (len s - 1) s = Some (byte 10)) then 0 else 1
  end.
Lemma open_end_cons a s line line' : s <> "" -> open_end (String a s) line = open_end s line'.
Proof. destruct s as [|b s]; [done|]. intros _. unfold open_end. cbn [String.length]. rewrite !Nat.sub_succ, !Nat.sub_0_r. done. Qed.

Lemma lines_counted s line : length (transcript_lines s line) = newlines s + open_end s line.
Proof.
  revert line. induction s as [|a s IH]; intros line; cbn [transcript_lines newlines]; [cbn; by destruct (decide (line = ""))|].
  destruct (Ascii.eqb_spec a (byte 10)) as [->|N].
  - cbn [length]. rewrite IH. destruct (decide (s = "")) as [->|E]; [done|]. rewrite (open_end_cons _ s line "") by done. lia.
  - rewrite IH. destruct (decide (s = "")) as [->|E]; [|by rewrite (open_end_cons _ s line (line +:+ String a ""))].
    cbn. rewrite decide_False by (by destruct line). rewrite bool_decide_false; [done|congruence].
Qed.

Lemma linesRemoved_spec s : linesRemoved s = length (transcript_lines s "").
Proof.
  rewrite lines_counted. unfold linesRemoved. destruct s as [|a s]; [done|].
  rewrite (bool_decide_false (String a s = "")) by done. unfold open_end. by destruct (bool_decide _).
Qed.

(** ** Rewinding and undoing it *)

Lemma backup_other path : path +:+ rewindBackupSuffix <> path.
Proof. intros E. apply (f_equal String.length) in E. rewrite str_app_len in E. cbn in E. lia. Qed.

(** A rewind that is asked for something it can do, and that the system lets it do. *)
Lemma rewind_done path n data fs : fs !! path = Some data -> (1 <= n <= Z.of_nat (length (userOffsets data)))%Z ->
  let k := (length (userOffsets data) - Z.to_nat n)%nat in
  exists kept removed, data = kept +:+ removed /\ len kept = List.nth k (userOffsets data) 0%nat /\ ends_line kept
    /\ userOffsets kept = take k (userOffsets data)
    /\ (exists rest, userOffsets removed = 0%nat :: rest /\ Z.of_nat (S (length rest)) = n)
    /\ rewindJSONL all_well path n fs
       = (<[path := kept]> (<[path +:+ rewindBackupSuffix := data]> fs),
          inl (MkRewindResult "" path n (length (transcript_lines removed "")) (len removed) (path +:+ rewindBackupSuffix))).
Proof.
  intros F N k. destruct (userOffsets data !! k) as [o|] eqn:K; [|apply lookup_ge_None in K; lia].
  destruct (cut_at_prompt data k o K) as (kept & removed & E & Lo & En & Pk & Pr). exists kept, removed. split_and!; [done|by rewrite Lo, (nth_lookup_Some _ _ _ _ K)|done..| |].
  - assert (length (userOffsets removed) = Z.to_nat n) as Ln by (rewrite <- (length_fmap (fun q => (q + o)%nat)), Pr, length_drop; lia).
    destruct (userOffsets removed) as [|q rest] eqn:U; [cbn in Ln; lia|]. exists rest. cbn in Ln. split; [|lia]. f_equal.
    assert (((fun q => (q + o)%nat) <$> q :: rest) !! 0%nat = Some o) as X by (by rewrite Pr, lookup_drop, Nat.add_0_r).
    cbn in X. injection X. lia.
  - unfold rewindJSONL. destruct (Z.ltb_spec n 1); [lia|]. unfold all_well. cbn [io_read io_backup io_truncate ReadFile]. rewrite F.
    destruct (Z.ltb_spec (Z.of_nat (length (userOffsets data))) n); [lia|]. fold k.
    rewrite (nth_lookup_Some _ _ _ _ K). cbn [WriteFile fst snd negb]. unfold Truncate.
    rewrite lookup_insert_ne by apply backup_other. rewrite F. cbn [fst snd negb]. rewrite linesRemoved_spec.
    assert (take_bytes o data = kept) as -> by (by rewrite E, <- Lo, take_bytes_app).
    assert (drop_bytes o data = removed) as -> by (by rewrite E, <- Lo, drop_bytes_app). done.
Qed.

(** What a write can leave at a path. *)
Lemma WriteFile_other w path data fs q : q <> path -> (WriteFile w path data fs).1 !! q = fs !! q.
Proof. intros N. destruct w; cbn; [by rewrite lookup_insert_ne|done|by rewrite lookup_insert_ne]. Qed.
Lemma WriteFile_done w path data fs : (WriteFile w path data fs).2 = true -> (WriteFile w path data fs).1 = <[path := data]> fs.
Proof. by destruct w. Qed.

(** A rewind leaves the transcript at its path or in the backup; if it fails, at its
    path. *)
Lemma rewind_keeps io path n data fs : fs !! path = Some data ->
  let r := rewindJSONL io path n fs in
  (r.1 !! path = Some data \/ r.1 !! (path +:+ rewindBackupSuffix) = Some data)
  /\ ((exists e, r.2 = inr e) -> r.1 !! path = Some data)
  /\ (forall q, q <> path -> q <> path +:+ rewindBackupSuffix -> r.1 !! q = fs !! q).
Proof.
  intros F. cbn zeta. unfold rewindJSONL, ReadFile. destruct (n <? 1)%Z; [by auto|]. destruct (io_read io); [|by auto]. rewrite F.
  destruct (Z.of_nat _ <? n)%Z; [by auto|]. pose proof (WriteFile_other (io_backup io) (path +:+ rewindBackupSuffix) data fs) as O.
  pose proof (O path ltac:(intros X; by apply (backup_other path))) as Op. rewrite F in Op.
  destruct ((WriteFile (io_backup io) (path +:+ rewindBackupSuffix) data fs).2) eqn:W; cbn [negb].
  2: { cbn [fst snd]. split_and!; [by left|done|]. intros q _ Nq. by apply O. }
  apply WriteFile_done in W. unfold Truncate. rewrite Op. destruct (io_truncate io); cbn [fst snd negb].
  - split_and!; [right|by intros [e X]|].
    + rewrite lookup_insert_ne by (intros X; by apply (backup_other path)). rewrite W. apply lookup_insert_eq.
    + intros q N1 N2. rewrite lookup_insert_ne by done. by apply O.
  - split_and!; [by left|done|]. intros q _ Nq. by apply O.
Qed.

(** An undoing leaves what the backup held there or at the path, and does no more than
    put it back. *)
Lemma unrewind_keeps io path data fs : fs !! (path +:+ rewindBackupSuffix) = Some data ->
  let u := Unrewind io path fs in
  (u.1 !! path = Some data \/ u.1 !! (path +:+ rewindBackupSuffix) = Some data)
  /\ (u.2 = true -> u.1 = <[path := data]> (delete (path +:+ rewindBackupSuffix) fs)).
Proof.
  intros F. cbn zeta. unfold Unrewind, ReadFile. destruct (io_reads io); [|split; [by right|done]]. rewrite F.
  pose proof (WriteFile_other (io_restores io) path data fs _ (backup_other path)) as O. rewrite F in O.
  destruct ((WriteFile (io_restores io) path data fs).2) eqn:W; [|split; [by right|congruence]].
  apply WriteFile_done in W. unfold Remove. rewrite O. destruct (io_removes io); cbn [fst snd]; [|split; [by right|done]].
  rewrite W. split; [left; rewrite lookup_delete_ne by apply backup_other; apply lookup_insert_eq|]. intros _.
  apply delete_insert_ne. intros X. by apply (backup_other path).
Qed.

(** C36: A transcript can be rolled back by one to as many turns as it has prompts. What
    goes starts with a prompt, has that many of them, and is counted as it is in the
    result; what stays ends with a whole line and has the other prompts; rolling that
    back further is rolling the whole back by both. Undoing brings the transcript back
    as it was and takes the backup away. Whatever calls of the system fail, in a rewind
    or in undoing it, the whole transcript is at its path or in the backup, at its path
    when a rewind fails, and no other file is touched. *)
Theorem a_rewind_can_be_undone path n data fs :
  fs !! path = Some data -> (1 <= n <= Z.of_nat (length (userOffsets data)))%Z ->
  (exists kept removed rest fs',
     rewindJSONL all_well path n fs
       = (fs', inl (MkRewindResult "" path n (length (transcript_lines removed "")) (len removed) (path +:+ rewindBackupSuffix)))
     /\ data = kept +:+ removed /\ ends_line kept /\ fs' !! path = Some kept
     /\ userOffsets removed = 0%nat :: rest /\ Z.of_nat (S (length rest)) = n
     /\ Z.of_nat (length (userOffsets kept)) = (Z.of_nat (length (userOffsets data)) - n)%Z
     /\ Unrewind undone_well path fs' = (<[path := data]> (delete (path +:+ rewindBackupSuffix) fs), true)
     /\ forall m, (1 <= m <= Z.of_nat (length (userOffsets kept)))%Z ->
          (rewindJSONL all_well path m fs').1 !! path = (rewindJSONL all_well path (n + m) fs).1 !! path)
  /\ (forall io m,
        let r := rewindJSONL io path m fs in
        (r.1 !! path = Some data \/ r.1 !! (path +:+ rewindBackupSuffix) = Some data)
        /\ ((exists e, r.2 = inr e) -> r.1 !! path = Some data)
        /\ (forall q, q <> path -> q <> path +:+ rewindBackupSuffix -> r.1 !! q = fs !! q)
        /\ forall io', r.1 !! (path +:+ rewindBackupSuffix) = Some data ->
             let u := Unrewind io' path r.1 in u.1 !! path = Some data \/ u.1 !! (path +:+ rewindBackupSuffix) = Some data).
Proof.
  intros F N. split.
  - destruct (rewind_done path n data fs F N) as (kept & removed & E & Lo & En & Pk & (rest & U & Ln) & R).
    assert (length (userOffsets kept) = length (userOffsets data) - Z.to_nat n) as Lk by (rewrite Pk, length_take; lia).
    exists kept, removed, rest. eexists. split_and!; [exact R|done|done|apply lookup_insert_eq|done|done|lia| |].
    + unfold Unrewind, ReadFile, undone_well. cbn [io_reads io_restores io_removes].
      rewrite lookup_insert_ne by (intros X; by apply (backup_other path)). rewrite lookup_insert_eq. cbn [WriteFile fst snd]. unfold Remove.
      rewrite !lookup_insert_ne by (intros X; by apply (backup_other path)). rewrite lookup_insert_eq. f_equal.
      rewrite insert_insert_eq, delete_insert_ne by (intros X; by apply (backup_other path)). by rewrite delete_insert_eq.
    + intros m M. destruct (rewind_done path m kept (<[path := kept]> (<[path +:+ rewindBackupSuffix := data]> fs)))
        as (k1 & r1 & E1 & L1 & _ & _ & _ & R1); [apply lookup_insert_eq|done|].
      destruct (rewind_done path (n + m) data fs F) as (k2 & r2 & E2 & L2 & _ & _ & _ & R2); [lia|].
      rewrite R1, R2. cbn [fst]. rewrite !lookup_insert_eq. f_equal.
      assert (len k1 = len k2) as L.
      { rewrite L1, L2, Lk, Pk, !nth_lookup, lookup_take_lt by lia. do 2 f_equal. lia. }
      rewrite E, E1 in E2. rewrite <- str_app_assoc in E2. apply (f_equal (take_bytes (len k1))) in E2.
      rewrite take_bytes_app, L, take_bytes_app in E2. done.
  - intros io m. cbn zeta. destruct (rewind_keeps io path m data fs F) as (A & B & C). split_and!; [done..|].
    intros io' X. by apply unrewind_keeps.
Qed.

End Rewinding.

(** ** Runs *)

Module Rewinds.

Definition user_message (content : json) : json :=
  JObject [("type", JString "user"); ("uuid", JString "u"); ("message", JObject [("role", JString "user"); ("content", content)])].
(** Lines by one letter: a prompt, a reply, a tool's result, a message without content. *)
#[export] Instance letters : Json := fun s =>
  if decide (s = "p") then Some (user_message (JString "go on"))
  else if decide (s = "r") then Some (JObject [("type", JString "assistant")])
  else if decide (s = "t") then Some (user_message (JArray [JObject [("type", JString "tool_result")]]))
  else if decide (s = "n") then Some (user_message JNull)
  else None.

Definition a_transcript : string := Join ["p"; "r"; "t"; "r"; "p"; "r"; ""; "p"; "r"] nl.
Definition some_files : gmap string string := {["a.jsonl" := a_transcript]}.

Theorem a_rewind_can_be_undone_witness :
  userOffsets a_transcript = [0; 8; 13]%nat
  /\ (rewindJSONL all_well "a.jsonl" 2 some_files).1 !! "a.jsonl" = Some (Join ["p"; "r"; "t"; "r"; ""] nl)
  /\ Unrewind undone_well "a.jsonl" (rewindJSONL all_well "a.jsonl" 2 some_files).1
     = (<["a.jsonl" := a_transcript]> (delete ("a.jsonl" +:+ rewindBackupSuffix) some_files), true).
Proof.
  destruct (a_rewind_can_be_undone "a.jsonl" 2 a_transcript some_files) as [(kept & removed & rest & fs' & R & _ & _ & K & _ & _ & _ & Un & _) _].
  - vm_compute. reflexivity.
  - split; vm_compute; discriminate.
  - split; [vm_compute; reflexivity|]. rewrite R. cbn [fst]. split; [|exact Un]. rewrite K.
    assert ((rewindJSONL all_well "a.jsonl" 2 some_files).1 !! "a.jsonl" = Some (Join ["p"; "r"; "t"; "r"; ""] nl)) as X by (vm_compute; reflexivity).
    rewrite R in X. cbn [fst] in X. rewrite K in X. exact X.
Defined.

(** A message whose content is null is taken for a prompt. *)
Example null_content_is_a_prompt : isUserPromptLine "n" = true /\ isUserPromptLine "t" = false.
Proof. vm_compute. split; reflexivity. Qed.

(** A rewind that could write only part of the backup fails and leaves that part; an
    undoing then puts it in the place of the whole transcript. *)
Example a_failed_rewind_leaves_a_trap :
  let r := rewindJSONL (MkRewindIO true (WrotePart 4) true) "a.jsonl" 1 some_files in
  r.2 = inr NoBackup /\ r.1 !! "a.jsonl" = Some a_transcript
  /\ (Unrewind undone_well "a.jsonl" r.1).2 = true
  /\ (Unrewind undone_well "a.jsonl" r.1).1 !! "a.jsonl" = Some (Join ["p"; "r"; ""] nl).
Proof. vm_compute. repeat split; reflexivity. Qed.

(** Directories that differ only where a letter is not plain share a transcript. *)
Example escaped_directories_collide : escapeWorkDir "/src/my.app" = "-src-my-app" /\ escapeWorkDir "/src/my-app" = "-src-my-app".
Proof. vm_compute. split; reflexivity. Qed.

End Rewinds.
