(* ===== verification/SeatClaims.v ===== *)
(** * SeatClaims: which seats a restart brings back

    Models [daemon/claims.go] (the ledger of when each grant last had a
    consumer), [daemon/consumer_intent.go] with the readers of the consumer's two
    files ([consumer_intent.go], [policy_hold.go], [consumer_state_file.go]), and
    the part of [resumeSeats] in [daemon/daemon.go] that chooses the seats. *)

From S2P Require Import Prelude GoLib GoFloat GoJson RegistryTypes Control.

(** ** The ledger: [daemon/claims.go] *)

Record seatClaim := MkClaim { sc_Held : Time; sc_Seen : Time; sc_StoodDown : Time }.

#[export] Instance eta_claim : Eta seatClaim := fun c => MkClaim (sc_Held c) (sc_Seen c) (sc_StoodDown c).
#[export] Hint Extern 1 (@Setter seatClaim _ _) => setter_of eta_claim : typeclass_instances.

(** What a Go map gives for a name without an entry. *)
Definition no_claim : seatClaim := MkClaim 0 0 0.

Abbreviation ledger := (gmap string seatClaim) (only parsing).

(** [seatClaims]: [cl_file] is the document last renamed into place. *)
Record seatClaims := MkClaims { cl_seats : ledger; cl_file : option ledger }.

#[export] Instance eta_claims : Eta seatClaims := fun c => MkClaims (cl_seats c) (cl_file c).
#[export] Hint Extern 1 (@Setter seatClaims _ _) => setter_of eta_claims : typeclass_instances.

Definition claim_of (seats : ledger) (name : string) : seatClaim := default no_claim (seats !! name).

Definition claimsVersion : Z := 1.
Definition DefaultResumeUnclaimedAfter : Duration := 24 * Hour.
Definition claimRefreshInterval : Duration := 10 * Minute.

(** [loadSeatClaims], from the file: absent, unreadable, not a document, or a
    document with its version. *)
Inductive claims_on_disk := NoClaims | ClaimsUnreadable | ClaimsNotJSON | ClaimsDoc (version : Z) (seats : ledger).

Definition loadSeatClaims (f : claims_on_disk) : option seatClaims :=
  match f with
  | NoClaims => Some (MkClaims ∅ None)
  | ClaimsUnreadable | ClaimsNotJSON => None
  | ClaimsDoc v seats => if (v =? claimsVersion)%Z then Some (MkClaims seats (Some seats)) else None
  end.

(** [saveLocked]: [ok] when the file was written, synced and renamed. *)
Definition saveLocked (ok : bool) (c : seatClaims) : seatClaims * bool :=
  (if ok then c <| cl_file := Some (cl_seats c) |> else c, ok).

(** Put [f] on the entry of each name, an absent entry being the zero one. *)
Definition stamp_each (f : seatClaim -> seatClaim) (names : list string) (seats : ledger) : ledger :=
  foldl (fun m name => <[name := f (claim_of m name)]> m) seats names.

Definition stamped (ok : bool) (f : seatClaim -> seatClaim) (names : list string) (c : seatClaims)
    : seatClaims * bool :=
  match names with
  | [] => (c, true)
  | _ => saveLocked ok (c <| cl_seats ::= stamp_each f names |>)
  end.

Definition held_at (at_ : Time) (c : seatClaim) : seatClaim :=
  if (sc_Held c <? at_)%Z then c <| sc_Held := at_ |> else c.

(** [held] lifts a stand-down; [touchHeld] does not. *)
Definition held (ok : bool) (at_ : Time) : list string -> seatClaims -> seatClaims * bool :=
  stamped ok (fun c => (held_at at_ c) <| sc_StoodDown := 0%Z |>).
Definition touchHeld (ok : bool) (at_ : Time) : list string -> seatClaims -> seatClaims * bool :=
  stamped ok (held_at at_).

Definition stood_down_at (at_ : Time) (c : seatClaim) : seatClaim :=
  if IsZero (sc_StoodDown c) || (sc_StoodDown c <? at_)%Z then c <| sc_StoodDown := at_ |> else c.
Definition standDown (ok : bool) (at_ : Time) : list string -> seatClaims -> seatClaims * bool :=
  stamped ok (stood_down_at at_).

(** [reconcile]: the ledger names exactly the registered grants. *)
Definition reconcile (ok : bool) (at_ : Time) (registered : list string) (c : seatClaims)
    : seatClaims * bool :=
  let seen := foldl (fun m name => match m !! name with
                                   | Some _ => m
                                   | None => <[name := MkClaim 0 at_ 0]> m
                                   end) (cl_seats c) registered in
  saveLocked ok (c <| cl_seats := filter (fun kv => kv.1 ∈ registered) seen |>).

(** [resumeOrder]. *)
Definition last_known (c : seatClaim) : Time := if IsZero (sc_Held c) then sc_Seen c else sc_Held c.

Definition left_out (seats : ledger) (now : Time) (unclaimedAfter : Duration) (name : string) : bool :=
  let c := claim_of seats name in
  negb (IsZero (sc_StoodDown c))
  || ((0 <=? unclaimedAfter)%Z && negb (IsZero (last_known c))
      && (unclaimedAfter <? Sub now (last_known c))%Z).

Definition ever_held (seats : ledger) (name : string) : bool := negb (IsZero (sc_Held (claim_of seats name))).

Definition held_less (seats : ledger) (a b : string) : bool :=
  let x := sc_Held (claim_of seats a) in let y := sc_Held (claim_of seats b) in
  if (x =? y)%Z then String.ltb a b else (y <? x)%Z.

(** [sort.Strings]. *)
Definition Strings (l : list string) : list string := SliceStable String.ltb l.

Definition resumeOrder (seats : ledger) (now : Time) (unclaimedAfter : Duration) (names : list string)
    : list string * list string :=
  let out := left_out seats now unclaimedAfter in
  let back := List.filter (fun n => negb (out n)) names in
  (SliceStable (held_less seats) (List.filter (ever_held seats) back)
     ++ Strings (List.filter (fun n => negb (ever_held seats n)) back),
   Strings (List.filter out names)).

(** ** The consumer's files *)

(** What opening and reading a state file meets ([readBoundedStateFile]): no
    file, an error, or a file with its kind, its size by [Stat] and what it reads
    as. *)
Record state_file := MkStateFile { sf_regular : bool; sf_size : Z; sf_read : option string }.
Inductive opened := NotExist | OpenFailed | StatFailed | Opened (f : state_file).

Inductive file_error :=
| FE_Open | FE_Stat | FE_NotRegular | FE_Size | FE_Read | FE_Grew
| FE_NotJSON | FE_Missing (key : string) | FE_Type (key : string) | FE_Value (key : string)
| FE_TooMany | FE_EmptyName (i : nat) | FE_EmptyReason (i : nat) | FE_Reason (i : nat)
| FE_Duplicate (i : nat) (name : string).

(** A snapshot is missing, refused, or there. *)
Inductive snapshot (A : Type) := Missing | Refused (e : file_error) | There (a : A).
Arguments Missing {A}.
Arguments Refused {A} e.
Arguments There {A} a.

Definition bind_snapshot {A B} (s : snapshot A) (f : A -> snapshot B) : snapshot B :=
  match s with Missing => Missing | Refused e => Refused e | There a => f a end.
Notation "'let!' x ':=' s 'in' k" := (bind_snapshot s (fun x => k))
  (at level 200, x pattern, s at level 100, k at level 200).
Definition require (b : bool) (e : file_error) : snapshot unit := if b then There tt else Refused e.

(** The limited read asks for one byte more than the limit. *)
Definition readBoundedStateFile (maxBytes : Z) (f : opened) : snapshot string :=
  match f with
  | NotExist => Missing
  | OpenFailed => Refused FE_Open
  | StatFailed => Refused FE_Stat
  | Opened f =>
    let! _ := require (sf_regular f) FE_NotRegular in
    let! _ := require (sf_size f <=? maxBytes)%Z FE_Size in
    match sf_read f with
    | None => Refused FE_Read
    | Some raw =>
      let! _ := require (Z.of_nat (len raw) <=? maxBytes)%Z FE_Grew in There raw
    end
  end.

(** *** Decoding into Go's types

    A struct's field takes the last member whose name folds to its own; [Kelvin]
    and the long [s] fold to ASCII letters. *)
Definition fold_rune (r : string) : string :=
  if decide (r = bytes [226; 132; 170]) then "k"
  else if decide (r = bytes [197; 191]) then "s" else ascii_lower r.
Definition foldName (s : string) : string := Join (fold_rune <$> runes s) "".

Definition struct_member (key : string) (l : list (string * json)) : option json :=
  snd <$> list.last (List.filter (fun kv => String.eqb (foldName kv.1) (foldName key)) l).

(** A string field: absent or null leaves it empty. *)
Definition string_field (key : string) (l : list (string * json)) : snapshot string :=
  match struct_member key l with
  | None | Some JNull => There ""
  | Some (JString s) => There s
  | Some _ => Refused (FE_Type key)
  end.

(** A struct: null leaves the zero value. *)
Definition struct_of (what : string) (v : json) : snapshot (list (string * json)) :=
  match v with
  | JObject l => There l
  | JNull => There []
  | _ => Refused (FE_Type what)
  end.

(** A raw field that must be there and not null. *)
Definition require_field (key : string) (l : list (string * json)) : snapshot json :=
  match struct_member key l with
  | None | Some JNull => Refused (FE_Missing key)
  | Some v => There v
  end.

Fixpoint decode_all {A B} (f : nat -> A -> snapshot B) (i : nat) (l : list A) : snapshot (list B) :=
  match l with
  | [] => There []
  | x :: l => let! y := f i x in let! ys := decode_all f (S i) l in There (y :: ys)
  end.

(** *** [consumer_intent.go] *)

Definition ConsumerIntentMaxBytes : Z := 2 ^ 20.

Definition consumerIntentStoodDown `{Unicode} (state : string) : bool :=
  contains ["parked"; "reaped"] (ToLower (TrimSpace state)).

(** The rows of [agents], by name; the last row of a repeated name wins. *)
Definition ConsumerIntentSnapshot `{Unicode, Json} (f : opened) : snapshot (gset string) :=
  let! raw := readBoundedStateFile ConsumerIntentMaxBytes f in
  match parse_json raw with
  | None => Refused FE_NotJSON
  | Some (JObject fields) =>
    match list.last (List.filter (fun kv => String.eqb kv.1 "agents") fields) with
    | None | Some (_, JNull) => Refused (FE_Missing "agents")
    | Some (_, JObject agents) =>
      let! states := decode_all (fun _ kv => let! row := struct_of "agents" kv.2 in
                                             let! st := string_field "state" row in
                                             There (kv.1, st)) 0 agents in
      There (dom (filter (fun kv => consumerIntentStoodDown kv.2 = true)
                    (foldl (fun m kv => <[kv.1 := kv.2]> m) (∅ : gmap string string) states)))
    | Some _ => Refused (FE_Type "agents")
    end
  | Some JNull => Refused (FE_Missing "agents")
  | Some _ => Refused FE_NotJSON
  end.

(** *** [policy_hold.go] *)

Definition PolicyHoldMaxBytes : Z := 2 ^ 20.
Definition PolicyHoldMaxEntries : nat := 4096.
Definition PolicyHoldVersion : string := "1".
Definition PolicyHoldKind : string := "policy_hold".
Definition PolicyHoldReasonFrontierConsumeDisabled : string := "frontier_consume_disabled".
Definition PolicyHoldReasonTargetAchieved : string := "target_achieved".
Definition PolicyHoldKnownReason (reason : string) : bool :=
  contains [PolicyHoldReasonFrontierConsumeDisabled; PolicyHoldReasonTargetAchieved] reason.

Record policyHoldEntry := MkHold { ph_Name : string; ph_Reason : string }.

(** A JSON number is the int 1 only when it is written so. *)
Definition requireJSONNumberEquals (key want : string) (l : list (string * json)) : snapshot unit :=
  let! v := require_field key l in
  match v with
  | JNumber t => require (String.eqb t want) (FE_Value key)
  | _ => Refused (FE_Type key)
  end.
Definition requireJSONStringEquals (key want : string) (l : list (string * json)) : snapshot unit :=
  let! v := require_field key l in
  match v with
  | JString t => require (String.eqb t want) (FE_Value key)
  | _ => Refused (FE_Type key)
  end.

Definition hold_entry (v : json) : snapshot policyHoldEntry :=
  let! l := struct_of "holds" v in
  let! name := string_field "name" l in
  let! reason := string_field "reason" l in
  There (MkHold name reason).

(** The loop over the entries, from the [i]-th. *)
Fixpoint collect_holds (i : nat) (es : list policyHoldEntry) (out : gmap string string)
    : snapshot (gmap string string) :=
  match es with
  | [] => There out
  | e :: es =>
    let name := TrimSpace (ph_Name e) in
    let! _ := require (negb (String.eqb name "")) (FE_EmptyName i) in
    let! _ := require (negb (String.eqb (TrimSpace (ph_Reason e)) "")) (FE_EmptyReason i) in
    let! _ := require (PolicyHoldKnownReason (ph_Reason e)) (FE_Reason i) in
    match out !! name with
    | Some _ => Refused (FE_Duplicate i name)
    | None => collect_holds (S i) es (<[name := ph_Reason e]> out)
    end
  end.

(** [PolicyHoldSnapshot]; [rfc3339] says whether [time.Parse] takes the text. *)
Definition PolicyHoldSnapshot `{Json} (rfc3339 : string -> bool) (f : opened) : snapshot (gmap string string) :=
  let! raw := readBoundedStateFile PolicyHoldMaxBytes f in
  match parse_json raw with
  | None => Refused FE_NotJSON
  | Some v =>
    let! doc := struct_of "document" v in
    let! _ := requireJSONNumberEquals "version" PolicyHoldVersion doc in
    let! _ := requireJSONStringEquals "kind" PolicyHoldKind doc in
    let! at_ := require_field "updated_at" doc in
    let! _ := match at_ with
              | JString t => require (rfc3339 t) (FE_Value "updated_at")
              | _ => Refused (FE_Type "updated_at")
              end in
    let! holds := require_field "holds" doc in
    match holds with
    | JArray l =>
      let! es := decode_all (fun _ => hold_entry) 0 l in
      let! _ := require (length es <=? PolicyHoldMaxEntries)%nat FE_TooMany in
      collect_holds 0 es ∅
    | _ => Refused (FE_Type "holds")
    end
  end.

(** ** The daemon's holds: [daemon/consumer_intent.go] *)

(** [consumerStatePath] up to the file's name: the option, or the environment. *)
Definition consumerStateDir (opt env : string) : string :=
  let root := TrimSpace opt in if decide (root = "") then TrimSpace env else root.

(** What the two files are when they are read; [None] without a state
    directory. *)
Abbreviation consumer_files := (option (opened * opened)) (only parsing).

Section Holds.
Context {UC : Unicode} {JS : Json} (rfc3339 : string -> bool).

(** [consumerHoldLiveSnapshot]; [None] fails closed. *)
Definition consumerHoldLiveSnapshot (files : consumer_files) : option (gset string) :=
  match files with
  | None => Some ∅
  | Some (intent, hold) =>
    match ConsumerIntentSnapshot intent with
    | Missing | Refused _ => None
    | There stood =>
      match PolicyHoldSnapshot rfc3339 hold with
      | Refused _ => None
      | Missing => Some stood
      | There policyHeld => Some (stood ∪ dom policyHeld)
      end
    end
  end.

(** [consumerPolicyHold]: whether the name is denied, and whether because
    nothing could be read. *)
Definition consumerPolicyHold (files : consumer_files) (name : string) : bool * bool :=
  match consumerHoldLiveSnapshot files with
  | None => (true, true)
  | Some held => (bool_decide (name ∈ held), false)
  end.

(** [mergeConsumerIntentStandDown] at construction. *)
Definition mergeConsumerIntentStandDown (ok : bool) (now : Time) (files : consumer_files) (c : seatClaims)
    : seatClaims :=
  match consumerHoldLiveSnapshot files with
  | None => c
  | Some held => (standDown ok now (elements held) c).1
  end.

(** ** What a restart brings back: [resumeSeats] *)

(** The [Select] of [resumeSeats], on the names of the seats that start by
    themselves. *)
Definition Select (files : consumer_files) (seats : ledger) (now : Time) (unclaimedAfter : Duration)
    (names : list string) : list string :=
  match consumerHoldLiveSnapshot files with
  | None => []
  | Some held => (resumeOrder seats now unclaimedAfter (List.filter (fun n => negb (bool_decide (n ∈ held))) names)).1
  end.

(** [ResumeAll] keeps of the chosen names those that start by themselves, once
    each. *)
Fixpoint keep_autostart (autoStart : gset string) (chosen : list string) : list string :=
  match chosen with
  | [] => []
  | n :: chosen =>
    if decide (n ∈ autoStart) then n :: keep_autostart (autoStart ∖ {[n]}) chosen
    else keep_autostart autoStart chosen
  end.

(** The names of [ResumeAll] under a [Select]. *)
Definition resume_names (select : list string -> list string) (defs : list AgentDef) : list string :=
  let auto := d_Name <$> List.filter d_AutoStart defs in
  match Strings auto with
  | [] => []
  | names => keep_autostart (list_to_set auto) (select names)
  end.

(** [resumeSeats] up to the call of [ResumeAll]: the ledger is reconciled with
    what is registered, then the names are chosen from what the files say now. *)
Definition unclaimed_after (opt : Duration) : Duration :=
  if decide (opt = 0%Z) then DefaultResumeUnclaimedAfter else opt.

Definition resume_choice (ok : bool) (files : consumer_files) (now : Time) (opt : Duration)
    (defs : list AgentDef) (c : seatClaims) : seatClaims * list string :=
  let c := (reconcile ok now (d_Name <$> defs) c).1 in
  (c, resume_names (Select files (cl_seats c) now (unclaimed_after opt)) defs).
End Holds.
