(* ===== verification/SeatClaimsTheorems.v ===== *)
(** * SeatClaimsTheorems: which seats a restart brings back, and in which order

    The choice of [resumeSeats] is characterised completely: what is brought back
    is exactly what the files, the ledger and the registry allow, in the order the
    ledger gives; and the policy-hold file is taken whole or not at all. *)

From S2P Require Import Prelude GoLib GoFloat GoJson RegistryTypes Control ResolveFacts SeatClaims.
From Stdlib Require Import Sorted.
From stdpp Require Import sorting.

(** ** The orders *)

Definition claim_key (seats : ledger) (n : string) : list Z := (- sc_Held (claim_of seats n))%Z :: string_key n.

Lemma string_less_key a b : String.ltb a b = key_less string_key a b.
Proof. unfold String.ltb, key_less. by rewrite string_compare. Qed.

Lemma held_less_key seats a b : held_less seats a b = key_less (claim_key seats) a b.
Proof.
  unfold held_less, key_less, claim_key. cbn [lcmp].
  set (x := sc_Held (claim_of seats a)). set (y := sc_Held (claim_of seats b)).
  destruct (Z.compare_spec (- x) (- y)) as [E|L|L].
  - assert (x = y) as -> by lia. rewrite Z.eqb_refl. apply string_less_key.
  - rewrite (proj2 (Z.eqb_neq _ _)) by lia. lia.
  - rewrite (proj2 (Z.eqb_neq _ _)) by lia. lia.
Qed.

Lemma held_less_weak seats : weak_order (held_less seats) (fun _ => True).
Proof. apply (key_less_weak (claim_key seats)). intros. apply held_less_key. Qed.
Lemma string_less_weak : weak_order String.ltb (fun _ => True).
Proof. apply (key_less_weak string_key). intros. apply string_less_key. Qed.

Lemma everything {A} (l : list A) : Forall (fun _ => True) l.
Proof. by apply Forall_true. Qed.

Lemma sorted_stable {A} (less : A -> A -> bool) l :
  weak_order less (fun _ => True) -> StronglySorted (fun a b => less b a = false) (SliceStable less l).
Proof. intros W. by apply (SliceStable_sorted _ (fun _ => True)), everything. Qed.

Lemma StronglySorted_impl {A} (R Q : A -> A -> Prop) l :
  (forall x y, x ∈ l -> y ∈ l -> R x y -> Q x y) -> StronglySorted R l -> StronglySorted Q l.
Proof.
  induction l as [|x l IH]; intros I S; [constructor|]. apply StronglySorted_inv in S as [S F].
  constructor; [apply IH; [|done]; intros; apply I; [by right|by right|done]|].
  rewrite list.Forall_forall in *. intros y Y. apply I; [by left|by right|by apply F].
Qed.

Lemma StronglySorted_app_2 {A} (R : A -> A -> Prop) l1 l2 :
  StronglySorted R l1 -> StronglySorted R l2 -> (forall x y, x ∈ l1 -> y ∈ l2 -> R x y) ->
  StronglySorted R (l1 ++ l2).
Proof.
  induction l1 as [|x l1 IH]; cbn; intros S1 S2 X; [done|]. apply StronglySorted_inv in S1 as [S F].
  constructor; [apply IH; [done|done|]; intros; apply X; [by right|done]|].
  rewrite list.Forall_forall in *. intros y [Y|Y]%elem_of_app; [by apply F|apply X; [by left|done]].
Qed.

Lemma StronglySorted_sublist {A} (R : A -> A -> Prop) l k :
  l `sublist_of` k -> StronglySorted R k -> StronglySorted R l.
Proof.
  induction 1 as [|x l k S IH|x l k S IH]; intros H; [constructor| |]; apply StronglySorted_inv in H as [H F].
  - constructor; [by apply IH|]. rewrite list.Forall_forall in *. intros y Y. apply F. by eapply elem_of_sublist.
  - by apply IH.
Qed.

(** ** [resumeOrder] *)

(** The seat that comes back first: held before never held, then the most
    recently held, then by name. *)
Definition resumes_before (seats : ledger) (a b : string) : Prop :=
  if ever_held seats a
  then ever_held seats b = true -> held_less seats b a = false
  else ever_held seats b = false /\ String.ltb b a = false.

Lemma resumeOrder_elem seats now u names n :
  n ∈ (resumeOrder seats now u names).1 <-> n ∈ names /\ left_out seats now u n = false.
Proof.
  cbn [resumeOrder fst]. unfold Strings. rewrite elem_of_app, !SliceStable_elem.
  rewrite !list_elem_of_In, !filter_In, negb_true_iff, negb_true_iff. destruct (ever_held seats n); naive_solver.
Qed.

Lemma resumeOrder_sorted seats now u names : StronglySorted (resumes_before seats) (resumeOrder seats now u names).1.
Proof.
  cbn [resumeOrder fst]. set (back := List.filter _ names). unfold Strings.
  assert (forall n, n ∈ SliceStable (held_less seats) (List.filter (ever_held seats) back) -> ever_held seats n = true)
    as H1.
  { intros n. rewrite SliceStable_elem, list_elem_of_In, filter_In. tauto. }
  assert (forall n, n ∈ SliceStable String.ltb (List.filter (fun n => negb (ever_held seats n)) back) ->
                    ever_held seats n = false) as H2.
  { intros n. rewrite SliceStable_elem, list_elem_of_In, filter_In, negb_true_iff. tauto. }
  unfold resumes_before. apply StronglySorted_app_2.
  - eapply StronglySorted_impl, sorted_stable, held_less_weak. intros x y X Y E. rewrite (H1 x X). done.
  - eapply StronglySorted_impl, sorted_stable, string_less_weak. intros x y X Y E. by rewrite (H2 x X), (H2 y Y).
  - intros x y X Y. rewrite (H1 x X), (H2 y Y). done.
Qed.

(** ** [ResumeAll]'s choice *)

Lemma keep_autostart_sublist auto l : keep_autostart auto l `sublist_of` l.
Proof.
  revert auto. induction l as [|n l IH]; intros auto; cbn; [constructor|].
  destruct (decide _); constructor; apply IH.
Qed.

Lemma keep_autostart_elem auto l n : n ∈ keep_autostart auto l <-> n ∈ l /\ n ∈ auto.
Proof.
  revert auto. induction l as [|m l IH]; intros auto; cbn; [set_solver|].
  destruct (decide (m ∈ auto)).
  - rewrite elem_of_cons, IH. destruct (decide (n = m)); set_solver.
  - rewrite IH. set_solver.
Qed.

Lemma keep_autostart_once auto l : NoDup (keep_autostart auto l).
Proof.
  revert auto. induction l as [|m l IH]; intros auto; cbn; [constructor|].
  destruct (decide (m ∈ auto)); [|apply IH]. constructor; [|apply IH]. rewrite keep_autostart_elem. set_solver.
Qed.

Lemma resume_names_elem select defs n :
  (forall l m, m ∈ select l -> m ∈ l) ->
  n ∈ resume_names select defs <-> n ∈ select (Strings (d_Name <$> List.filter d_AutoStart defs)).
Proof.
  intros Sub. unfold resume_names. set (auto := _ <$> _). assert (forall m, m ∈ Strings auto <-> m ∈ auto) as S.
  { intros m. apply SliceStable_elem. }
  destruct (Strings auto) as [|m l] eqn:E.
  - split; [set_solver|]. intros X%Sub. set_solver.
  - rewrite keep_autostart_elem, elem_of_list_to_set, <-S. split; [tauto|]. intros X. split; [done|]. by apply Sub.
Qed.

Section Restart.
Context {UC : Unicode} {JS : Json} (rfc3339 : string -> bool).

Lemma Select_sub files seats now u l n : n ∈ Select rfc3339 files seats now u l -> n ∈ l.
Proof.
  unfold Select. destruct (consumerHoldLiveSnapshot _ files); [|set_solver].
  rewrite resumeOrder_elem, list_elem_of_In, filter_In, <-list_elem_of_In. tauto.
Qed.

Lemma resume_names_sorted files seats now u defs :
  StronglySorted (resumes_before seats) (resume_names (Select rfc3339 files seats now u) defs).
Proof.
  unfold resume_names. destruct (Strings _) as [|m l]; [constructor|].
  eapply StronglySorted_sublist; [apply keep_autostart_sublist|]. unfold Select.
  destruct (consumerHoldLiveSnapshot rfc3339 files); [apply resumeOrder_sorted|constructor].
Qed.

(** ** Stand-downs *)

(** Reconciling makes and lifts no stand-down of a registered seat. *)
Lemma reconcile_stood ok at_ registered c n :
  n ∈ registered ->
  sc_StoodDown (claim_of (cl_seats (reconcile ok at_ registered c).1) n)
  = sc_StoodDown (claim_of (cl_seats c) n).
Proof.
  intros R. assert (forall l seats, sc_StoodDown (claim_of (foldl (fun m name => match m !! name with
      | Some _ => m | None => <[name := MkClaim 0 at_ 0]> m end) seats l) n)
      = sc_StoodDown (claim_of seats n)) as F.
  { induction l as [|m l IH]; intros seats; [done|]. cbn [foldl]. rewrite IH.
    destruct (seats !! m) eqn:E; [done|]. unfold claim_of.
    destruct (decide (n = m)) as [->|N]; [by rewrite lookup_insert_eq, E|by rewrite lookup_insert_ne]. }
  unfold reconcile. transitivity (sc_StoodDown (claim_of (foldl (fun m name => match m !! name with
      | Some _ => m | None => <[name := MkClaim 0 at_ 0]> m end) (cl_seats c) registered) n)); [|apply F].
  unfold saveLocked. destruct ok; cbn [fst cl_seats upd eta_claims]; unfold claim_of;
    rewrite map_lookup_filter; destruct (_ !! n); cbn; by rewrite ?option_guard_True.
Qed.

(** A stand-down is of the names given, and lifts none. *)
Lemma stand_down_stood at_ names seats n :
  at_ <> 0%Z ->
  sc_StoodDown (claim_of (stamp_each (stood_down_at at_) names seats) n) = 0%Z <->
  sc_StoodDown (claim_of seats n) = 0%Z /\ n ∉ names.
Proof.
  intros A. revert seats. induction names as [|m names IH]; intros seats; [set_solver|].
  cbn [stamp_each foldl]. unfold stamp_each in IH. rewrite IH. clear IH. rewrite not_elem_of_cons.
  unfold claim_of at 1. destruct (decide (n = m)) as [->|N].
  - rewrite lookup_insert_eq. cbn [default]. unfold stood_down_at, IsZero.
    destruct (Z.eqb_spec (sc_StoodDown (claim_of seats m)) 0) as [E|E]; cbn [orb].
    + split; [intros [X _]; by cbn in X|tauto].
    + destruct (_ <? _)%Z; cbn; tauto.
  - rewrite lookup_insert_ne by done. unfold claim_of. tauto.
Qed.

Lemma merge_stood ok made files c n :
  made <> 0%Z ->
  sc_StoodDown (claim_of (cl_seats (mergeConsumerIntentStandDown rfc3339 ok made files c)) n) = 0%Z <->
  sc_StoodDown (claim_of (cl_seats c) n) = 0%Z
  /\ forall held, consumerHoldLiveSnapshot rfc3339 files = Some held -> n ∉ held.
Proof.
  intros A. unfold mergeConsumerIntentStandDown.
  destruct (consumerHoldLiveSnapshot rfc3339 files) as [held|]; [|naive_solver].
  assert ((forall held', Some held = Some held' -> n ∉ held') <-> n ∉ elements held) as ->.
  { rewrite elem_of_elements. naive_solver. }
  rewrite <-(stand_down_stood made (elements held)) by done. unfold standDown, stamped.
  destruct (elements held); [done|]. unfold saveLocked. by destruct ok.
Qed.

(** C8: A restart resumes a seat exactly when it is registered to start by itself,
    the consumer's files can be read and hold it neither parked nor by policy now,
    the ledger has no stand-down of it, and it has not gone without a consumer for
    longer than the limit. Each such seat is resumed once: the most recently held
    first, ties by name, and the seats no consumer ever held after them, by name.
    What the ledger has for a stand-down: making the daemon lifts none and adds
    those of the seats the files held at that moment, parked or by policy, so
    such a seat stays behind even when its hold is gone by the time of the
    resume. *)
Theorem a_restart_resumes_exactly_the_wanted_seats ok files now opt defs c :
  let r := resume_choice rfc3339 ok files now opt defs c in
  NoDup r.2
  /\ StronglySorted (resumes_before (cl_seats r.1)) r.2
  /\ (forall n, n ∈ r.2 <->
       (exists d, d ∈ defs /\ d_Name d = n /\ d_AutoStart d = true)
       /\ (exists held, consumerHoldLiveSnapshot rfc3339 files = Some held /\ n ∉ held)
       /\ sc_StoodDown (claim_of (cl_seats c) n) = 0%Z
       /\ (let e := claim_of (cl_seats r.1) n in
           (0 <= unclaimed_after opt)%Z -> last_known e <> 0%Z ->
           (Sub now (last_known e) <= unclaimed_after opt)%Z))
  /\ (forall ok0 made files0 c0 n,
       c = mergeConsumerIntentStandDown rfc3339 ok0 made files0 c0 -> made <> 0%Z ->
       sc_StoodDown (claim_of (cl_seats c) n) = 0%Z <->
       sc_StoodDown (claim_of (cl_seats c0) n) = 0%Z
       /\ forall held0, consumerHoldLiveSnapshot rfc3339 files0 = Some held0 -> n ∉ held0).
Proof.
  cbv zeta. unfold resume_choice. cbn [fst snd]. set (seats := cl_seats _).
  set (u := unclaimed_after opt). clearbody u.
  split_and!; [|apply resume_names_sorted| |by intros ok0 made files0 c0 n -> ?; apply merge_stood].
  { unfold resume_names. destruct (Strings _); [constructor|apply keep_autostart_once]. }
  intros n. rewrite resume_names_elem by (intros; by eapply Select_sub).
  assert (n ∈ Strings (d_Name <$> List.filter d_AutoStart defs) <->
          exists d, d ∈ defs /\ d_Name d = n /\ d_AutoStart d = true) as A.
  { unfold Strings. rewrite SliceStable_elem, list_elem_of_fmap. split.
    - intros (d & -> & D). apply list_elem_of_In, filter_In in D as [D%list_elem_of_In Y]. eauto.
    - intros (d & D & <- & Y). exists d. split; [done|]. apply list_elem_of_In, filter_In. by rewrite <-list_elem_of_In. }
  rewrite <-A. unfold Select. destruct (consumerHoldLiveSnapshot rfc3339 files) as [held|]; [|set_solver].
  rewrite resumeOrder_elem, list_elem_of_In, filter_In, <-list_elem_of_In, negb_true_iff, bool_decide_eq_false.
  assert (left_out seats now u n = false <->
          sc_StoodDown (claim_of seats n) = 0%Z
          /\ ((0 <= u)%Z -> last_known (claim_of seats n) <> 0%Z -> (Sub now (last_known (claim_of seats n)) <= u)%Z)) as L.
  { unfold left_out, IsZero. set (e := claim_of seats n). destruct (Z.eqb_spec (sc_StoodDown e) 0); cbn; [|naive_solver].
    destruct (Z.leb_spec 0 u); cbn; [|naive_solver lia]. destruct (Z.eqb_spec (last_known e) 0); cbn; [naive_solver|].
    rewrite Z.ltb_ge. naive_solver. }
  assert (n ∈ Strings (d_Name <$> List.filter d_AutoStart defs) ->
          sc_StoodDown (claim_of seats n) = sc_StoodDown (claim_of (cl_seats c) n)) as St.
  { intros (d & D & <- & _)%A. apply reconcile_stood, list_elem_of_fmap. by exists d. }
  rewrite L. split.
  - intros ((M & M1) & M2 & M3). rewrite <-St by done. split_and!; [done|by exists held|done|done].
  - intros (M & (held' & E & H) & M2 & M3). injection E as <-. rewrite St by done. tauto.
Qed.

End Restart.

(** ** The policy-hold file *)

Definition hold_ok (e : policyHoldEntry) : Prop :=
  TrimSpace (ph_Name e) <> "" /\ TrimSpace (ph_Reason e) <> "" /\ PolicyHoldKnownReason (ph_Reason e) = true.
Definition hold_pair (e : policyHoldEntry) : string * string := (TrimSpace (ph_Name e), ph_Reason e).

Lemma collect_holds_cons i e es out m :
  collect_holds i (e :: es) out = There m <->
  hold_ok e /\ out !! TrimSpace (ph_Name e) = None
  /\ collect_holds (S i) es (<[TrimSpace (ph_Name e) := ph_Reason e]> out) = There m.
Proof.
  unfold hold_ok. set (k := TrimSpace (ph_Name e)) in *.
  change (collect_holds i (e :: es) out) with
    (let! _ := require (negb (String.eqb k "")) (FE_EmptyName i) in
     let! _ := require (negb (String.eqb (TrimSpace (ph_Reason e)) "")) (FE_EmptyReason i) in
     let! _ := require (PolicyHoldKnownReason (ph_Reason e)) (FE_Reason i) in
     match out !! k with
     | Some _ => Refused (FE_Duplicate i k)
     | None => collect_holds (S i) es (<[k := ph_Reason e]> out)
     end).
  destruct (String.eqb_spec k ""); cbn [negb require bind_snapshot]; [split; [done|tauto]|].
  destruct (String.eqb_spec (TrimSpace (ph_Reason e)) ""); cbn [negb require bind_snapshot]; [split; [done|tauto]|].
  destruct (PolicyHoldKnownReason (ph_Reason e)); cbn [negb require bind_snapshot]; [|split; [done|intros ((_ & _ & X) & _); done]].
  destruct (out !! k); split; tauto || done || (intros (_ & X & _); done).
Qed.

(** The entries are taken whole or not at all: every one is good and no two name
    the same grant. *)
Lemma collect_holds_whole i es out m :
  collect_holds i es out = There m <->
  Forall hold_ok es /\ NoDup (fst <$> (hold_pair <$> es))
  /\ (forall n, n ∈ fst <$> (hold_pair <$> es) -> out !! n = None)
  /\ m = list_to_map (hold_pair <$> es) ∪ out.
Proof.
  revert i out. induction es as [|e es IH]; intros i out.
  - cbn. split; [intros [= <-]|intros (_ & _ & _ & ->)]; rewrite (left_id_L ∅ (∪)); [|done].
    split_and!; [constructor|constructor|set_solver|done].
  - rewrite collect_holds_cons, IH, list.Forall_cons. cbn [fmap list_fmap fst hold_pair]. rewrite NoDup_cons.
    change (list_to_map (_ :: ?l)) with (<[TrimSpace (ph_Name e) := ph_Reason e]> (list_to_map l : gmap string string)).
    set (k := TrimSpace (ph_Name e)). set (ns := fst <$> (hold_pair <$> es)).
    assert (k ∉ ns -> list_to_map (hold_pair <$> es) ∪ <[k := ph_Reason e]> out
                      = <[k := ph_Reason e]> (list_to_map (hold_pair <$> es)) ∪ out) as U.
    { intros X. rewrite <-insert_union_r, insert_union_l; [done|]. by apply not_elem_of_list_to_map. }
    split.
    + intros (E & O & F & N & D & ->). assert (k ∉ ns) as NI.
      { intros X%D. by rewrite lookup_insert_eq in X. }
      split_and!; try done; [|by apply U]. intros n [->|X]%elem_of_cons; [done|].
      specialize (D n X). apply lookup_insert_None in D as [D _]. done.
    + intros ((E & F) & (NI & N) & D & ->). split_and!; try done; [apply D; by left| |by symmetry; apply U].
      intros n X. rewrite lookup_insert_ne; [|set_solver]. apply D. by right.
Qed.

(** ** Runs *)

Module Restarts.
#[local] Instance plain_unicode : Unicode := {| unicode_lower := id; unicode_alnum := fun _ => false |}.

(** Texts standing for the consumer's documents: no agents, a hold of the seat
    [s], and no hold. *)
Definition hold_doc (holds : list json) : json :=
  JObject [("version", JNumber "1"); ("kind", JString "policy_hold"); ("updated_at", JString "t");
           ("holds", JArray holds)].
#[local] Instance documents : Json := fun text =>
  if String.eqb text "intent" then Some (JObject [("agents", JObject [])])
  else if String.eqb text "held" then
    Some (hold_doc [JObject [("name", JString "s"); ("reason", JString "target_achieved")]])
  else if String.eqb text "free" then Some (hold_doc [])
  else None.

Definition text (s : string) : opened := Opened (MkStateFile true 1 (Some s)).
Definition files (hold : opened) : option (opened * opened) := Some (text "intent", hold).
Definition seat : AgentDef := no_def <| d_Name := "s" |> <| d_AutoStart := true |>.
Definition owned_before : seatClaims := MkClaims {["s" := MkClaim Second 0 0]} None.
Abbreviation choice fs := (resume_choice (fun _ => true) true fs Minute 0 [seat]).

(** The intent file must be there; the policy-hold file may be missing, and one
    that cannot be read holds everything back. *)
Lemma the_two_files_fail_differently :
  (choice (files NotExist) owned_before).2 = ["s"]
  /\ (choice (Some (NotExist, NotExist)) owned_before).2 = []
  /\ (choice (files OpenFailed) owned_before).2 = []
  /\ (choice (files (text "held")) owned_before).2 = []
  /\ (choice None owned_before).2 = ["s"].
Proof. split_and!; vm_compute; reflexivity. Qed.

(** A policy hold seen when the daemon is made and lifted before the seats are
    resumed still keeps its seat back: it has become a stand-down. *)
Lemma a_lifted_hold_is_not_honoured :
  let made := mergeConsumerIntentStandDown (fun _ => true) true Second (files (text "held")) owned_before in
  (choice (files (text "free")) made).2 = [] /\ (choice (files (text "free")) owned_before).2 = ["s"].
Proof. cbv zeta. split; vm_compute; reflexivity. Qed.
End Restarts.
