(* ===== verification/Grants.v ===== *)
(** * Grants: who holds which seat, and where its events go

    Models the ownership core of [daemon/daemon.go]: [brokerGrant], [handleGrant],
    [handleRelease], [ConnClosed], the orphan timers, [seatFor] and
    [handleAgentOp]'s use of it, [forwarder], [runPump] and [onSeatEvent]. The
    state is a heap of grant records, as in the code: a record lives on after it
    leaves the table, and a goroutine may still hold it. A step is what runs
    between two moments at which another goroutine may run: a stretch under the
    daemon's lock, one write to a connection, one call of the registry or of the
    ledger. A connection handles its requests one after the other, and its close
    after them, as [internal/broker/server.go] has it.

    Pooled seats are left out: [daemonAcquire] refuses every one, so no grant has
    [pool] or [returning] set. So are the terminal stream, and the errors of the
    frames of which only the kind matters. *)

From Stdlib Require Import Ascii.
From S2P Require Import Prelude GoLib GoJson WireTypes RegistryTypes Registry Control RegistryHost Ephemeral SeatClaims.
From S2P Require TurnWait Resolve.
From S2P Require Import FleetNames.

(** ** Data *)

Abbreviation Conn := nat (only parsing).

(** What a connection is written. *)
Inductive frame :=
| AgentEvent (name raw : string)
| Granted (id name session : string) (reclaimed : bool) (replayed : nat) (lagged : bool)
| Released (id name disposition : string)
| AgentDetached (name reason : string)
| AgentGone (name reason : string)
| OpDone (id name : string)
| Failed (id code field value : string).

Definition brokerUnownedRingCap : nat := Z.to_nat 100000.

(** [brokerGrant]; a channel is its place among the pumps, a process its
    handle in the registry, and no subscription is 0. *)
Record brokerGrant := MkGrant {
  bg_fleet : bool; bg_name : string; bg_owner : option Conn; bg_pump : option nat;
  bg_proc : option nat; bg_sub : N; bg_ring : list string; bg_lag : bool;
  bg_stopping : bool; bg_ephemeral : bool; bg_orphanGen : N }.

#[export] Instance eta_grant : Eta brokerGrant := fun g =>
  MkGrant (bg_fleet g) (bg_name g) (bg_owner g) (bg_pump g) (bg_proc g) (bg_sub g) (bg_ring g)
    (bg_lag g) (bg_stopping g) (bg_ephemeral g) (bg_orphanGen g).
#[export] Hint Extern 1 (@Setter brokerGrant _ _) => setter_of eta_grant : typeclass_instances.

Definition new_grant (fleet : bool) (name : string) : brokerGrant :=
  MkGrant fleet name None None None 0 [] false false false 0.

(** A channel with the goroutine that drains it to one connection. *)
Inductive pump_phase := PWaiting | PWriting (raw : string) | PFailed (raw : string) | PEnded.
Inductive settled := Written (raw : string) | Dropped (raw : string) | Returned (raw : string).
Definition settled_raw (s : settled) : string :=
  match s with Written r | Dropped r | Returned r => r end.

(** [pu_from] is how many events the seat's record had accepted when the channel
    was made, [pu_put] everything ever sent on it and [pu_settled] what became of
    what the goroutine took; the code keeps none of them. *)
Record pump := MkPump {
  pu_grant : nat; pu_conn : Conn; pu_cap : nat; pu_queue : list string; pu_closed : bool;
  pu_phase : pump_phase; pu_from : nat; pu_put : list string; pu_settled : list settled }.

#[export] Instance eta_pump : Eta pump := fun p =>
  MkPump (pu_grant p) (pu_conn p) (pu_cap p) (pu_queue p) (pu_closed p) (pu_phase p) (pu_from p)
    (pu_put p) (pu_settled p).
#[export] Hint Extern 1 (@Setter pump _ _) => setter_of eta_pump : typeclass_instances.

Definition in_hand (ph : pump_phase) : list string :=
  match ph with PWriting r | PFailed r => [r] | _ => [] end.

(** An armed orphan timer; [ot_grant] is the record it was armed for, which the
    code does not keep. *)
Record orphan_timer := MkTimer {
  ot_name : string; ot_gen : N; ot_at : Time; ot_grant : nat }.

(** What became of the events of a record besides the pumps: all it accepted,
    those cut from its ring, how many of these the connections that reclaimed it
    were told of, and those given to a reclaiming connection. *)
Record history := MkHistory {
  hi_in : list string; hi_cut : list string; hi_told : nat; hi_replay : list string }.
#[export] Instance eta_history : Eta history := fun h =>
  MkHistory (hi_in h) (hi_cut h) (hi_told h) (hi_replay h).
#[export] Hint Extern 1 (@Setter history _ _) => setter_of eta_history : typeclass_instances.
Definition no_history : history := MkHistory [] [] 0 [].

(** What a connection's goroutine is about to do. *)
Inductive handling :=
| Idle
| Registering (id : string) (def : AgentDef) (adopt fallback : bool)
| Launching (id : string) (def : AgentDef) (adopt fallback : bool)
| Committing (id : string) (def : AgentDef) (h : nat)
| Noting (id name : string) (h : nat) (reclaimed lagged : bool) (ring : list string)
| Replaying (id name : string) (h : nat) (reclaimed lagged : bool) (total : nat) (rest : list string)
| Settling (id name : string) (g : nat) (discard : bool)
| Parking (id name : string) (displaced : option Conn)
| Standing (id name : string) (kind : stopKind)
| Removing (id name : string) (kind : stopKind)
| Operating (id name : string) (g h : nat) (rewind : bool)
| Replying (f : frame)
| Closing (names : list string)
| Closed.

(** The daemon. [dm_panic] is set by a send on a closed channel or a second
    close of one; [dm_refresh] are the names [refreshClaims] has collected, and
    [dm_reaping] the seats whose timer has fired and that the registry still has. *)
Record daemon := MkDaemon {
  dm_now : Time; dm_heap : list brokerGrant; dm_grants : gmap string nat; dm_pumps : list pump;
  dm_timers : list orphan_timer; dm_notices : list (Conn * frame); dm_wire : gmap nat (list frame);
  dm_conns : gmap nat handling; dm_reg : Registry; dm_claims : seatClaims;
  dm_refresh : option (list string); dm_reaping : list string; dm_hist : list history; dm_sub : N;
  dm_panic : bool }.

#[export] Instance eta_daemon : Eta daemon := fun d =>
  MkDaemon (dm_now d) (dm_heap d) (dm_grants d) (dm_pumps d) (dm_timers d) (dm_notices d) (dm_wire d)
    (dm_conns d) (dm_reg d) (dm_claims d) (dm_refresh d) (dm_reaping d) (dm_hist d) (dm_sub d) (dm_panic d).
#[export] Hint Extern 1 (@Setter daemon _ _) => setter_of eta_daemon : typeclass_instances.

(** ** Records and channels *)

Definition on_grant (i : nat) (f : brokerGrant -> brokerGrant) (d : daemon) : daemon :=
  d <| dm_heap ::= alter f i |>.
Definition on_pump (p : nat) (f : pump -> pump) (d : daemon) : daemon :=
  d <| dm_pumps ::= alter f p |>.
Definition on_hist (i : nat) (f : history -> history) (d : daemon) : daemon :=
  d <| dm_hist ::= alter f i |>.
Definition serve (c : Conn) (h : handling) (d : daemon) : daemon := d <| dm_conns ::= <[c := h]> |>.

(** The record of a name, with its place. [liveGrantLocked] is this, since no
    grant is on its way back to a pool. *)
Definition liveGrant (name : string) (d : daemon) : option (nat * brokerGrant) :=
  match dm_grants d !! name with
  | Some i => (fun g => (i, g)) <$> dm_heap d !! i
  | None => None
  end.

(** [close] on a channel and a send on it. *)
Definition close_pump (p : nat) (d : daemon) : daemon :=
  match dm_pumps d !! p with
  | Some pu => if pu_closed pu then d <| dm_panic := true |> else on_pump p (fun pu => pu <| pu_closed := true |>) d
  | None => d
  end.
Definition send_pump (p : nat) (raw : string) (d : daemon) : daemon :=
  match dm_pumps d !! p with
  | Some pu =>
    if pu_closed pu then d <| dm_panic := true |>
    else on_pump p (fun pu => pu <| pu_queue ::= fun q => q ++ [raw] |> <| pu_put ::= fun q => q ++ [raw] |>) d
  | None => d
  end.

(** [detachLocked]. *)
Definition detachLocked (i : nat) (d : daemon) : daemon :=
  match dm_heap d !! i with
  | Some g =>
    let d := match bg_pump g with Some p => close_pump p d | None => d end in
    on_grant i (fun g => g <| bg_owner := None |> <| bg_pump := None |>) d
  | None => d
  end.

(** [armEphemeralOrphanLocked] and [noteUnownedLocked]. *)
Definition armEphemeralOrphan (i : nat) (g : brokerGrant) (d : daemon) : daemon :=
  let gen := (bg_orphanGen g + 1)%N in
  (on_grant i (fun g => g <| bg_orphanGen := gen |>) d)
    <| dm_timers ::= fun ts => ts ++ [MkTimer (bg_name g) gen (dm_now d + EphemeralGrantTTL) i] |>.

Definition noteUnowned (name : string) (d : daemon) : daemon :=
  match liveGrant name d with
  | Some (i, g) =>
    if bool_decide (bg_owner g = None) && bg_ephemeral g then armEphemeralOrphan i g d else d
  | None => d
  end.

(** [retainUnowned]: the ring keeps the newest. *)
Definition retained (ring : list string) (raw : string) : list string * list string :=
  let ring := ring ++ [raw] in
  let over := length ring - brokerUnownedRingCap in
  (take over ring, drop over ring).

Definition retainUnowned (i : nat) (raw : string) (d : daemon) : daemon :=
  match dm_heap d !! i with
  | Some g =>
    let r := retained (bg_ring g) raw in
    let d := on_grant i (fun g => g <| bg_ring := r.2 |>
                                    <| bg_lag ::= fun l => l || negb (bool_decide (r.1 = [])) |>) d in
    on_hist i (fun h => h <| hi_cut ::= fun c => c ++ r.1 |>) d
  | None => d
  end.

(** [notifyDetached]: another goroutine writes it. *)
Definition notifyDetached (owner : option Conn) (name reason : string) (d : daemon) : daemon :=
  match owner with
  | Some c => d <| dm_notices ::= fun l => l ++ [(c, AgentDetached name reason)] |>
  | None => d
  end.

(** [bindSeatLocked]. *)
Definition bindSeat (i h : nat) (d : daemon) : daemon :=
  let sub := (dm_sub d + 1)%N in
  (on_grant i (fun g => g <| bg_proc := Some h |> <| bg_sub := sub |>) d) <| dm_sub := sub |>.

(** The record of a name, made when there is none. *)
Definition ensureGrant (fleet : bool) (name : string) (d : daemon) : nat * daemon :=
  match dm_grants d !! name with
  | Some i => (i, d)
  | None =>
    let i := length (dm_heap d) in
    (i, d <| dm_heap ::= fun l => l ++ [new_grant fleet name] |> <| dm_hist ::= fun l => l ++ [no_history] |>
          <| dm_grants ::= <[name := i]> |>)
  end.

(** A record leaves the table, detached. *)
Definition dropGrant (i : nat) (name : string) (d : daemon) : daemon :=
  (detachLocked i d) <| dm_grants ::= delete name |>.

(** One write to a connection. *)
Inductive write_result := WroteOK | WroteTooLarge | WroteBroken.

Definition put_frame (c : Conn) (f : frame) (r : write_result) (d : daemon) : daemon :=
  match r with
  | WroteOK => d <| dm_wire ::= fun m => <[c := default [] (m !! c) ++ [f]]> m |>
  | _ => d
  end.

(** [consumer not reading] and the others. *)
Definition reason_not_reading : string := "consumer not reading; event queue full".
Definition reason_released : string := "released by an operator on another connection".
Definition reason_not_alive : string := "process not alive".

(** ** Requests *)

(** A grant request; [gr_Def] is what [DecodeGrantDefinition] gave. *)
Record grantRequest := MkGrantRequest {
  gr_ID : string; gr_Name : string; gr_Def : option AgentDef; gr_RequireResume : bool;
  gr_Pool : bool; gr_Pick : string; gr_Adopt : bool; gr_Fallback : bool }.

Record releaseRequest := MkReleaseRequest {
  rr_ID : string; rr_Name : string; rr_Disposition : string; rr_Force : bool; rr_Discard : bool }.


Definition codexSandboxWorkspaceWrite : string := "workspace-write".

(** [ApplyBrokerGrantWriteDefault]; [git_roots] says whether the working directory
    has git directories to write to. *)
Definition ApplyBrokerGrantWriteDefault (git_roots : string -> bool) (d : AgentDef) : AgentDef :=
  if negb (bool_decide (d_Provider d = Resolve.ProviderCodex)) then d
  else if negb (bool_decide (default [] (d_DisallowTools d) = [])) then d
  else if negb (bool_decide (d_SandboxMode d = "")) || d_SandboxGitWrite d
          || negb (bool_decide (default [] (d_SandboxWritableRoots d) = [])) || d_SandboxNetworkAccess d then d
  else let d := d <| d_SandboxMode := codexSandboxWorkspaceWrite |> in
       if git_roots (d_WorkDir d) then d <| d_SandboxGitWrite := true |> else d.

(** [resolveGrantPick]: [remaining] is what [pickByRemaining] gives. *)
Definition PickRemaining : string := "remaining".
Definition resolveGrantPick (existing : option AgentDef) (provider pick : string)
    (remaining : string + string) : string + string :=
  if negb (bool_decide (pick = PickRemaining)) then inr CodeUnsupportedValue
  else if negb (bool_decide (provider = "")) then inr CodeUnsupportedValue
  else match existing with
       | Some e => inl (d_Provider e)
       | None => remaining
       end.

(** The definition the daemon starts from: named, with a session and a working
    directory. *)
Definition named_definition (uuid : string) (req : grantRequest) (def : AgentDef) : AgentDef :=
  let def := def <| d_Name := gr_Name req |> in
  let def := if gr_RequireResume req then def <| d_Materialized := true |> else def in
  let def := if decide (d_SessionID def = "") then def <| d_SessionID := uuid |> else def in
  if decide (d_WorkDir def = "") then def <| d_WorkDir := "." |> else def.

(** Merging the daemon's record of a seat onto the consumer's definition;
    [running] says whether the registry has a process for it. *)
Definition merge_identity (adopt : bool) (existing def : AgentDef) : AgentDef :=
  let def := def <| d_ConnectURL := d_ConnectURL existing |> <| d_ConnectPID := d_ConnectPID existing |>
                 <| d_Materialized ::= fun m => m || d_Materialized existing |>
                 <| d_GrokConnect ::= fun m => m || d_GrokConnect existing |> in
  if adopt then def <| d_Model := d_Model existing |> else def.

Definition moved_seat (existing def : AgentDef) : AgentDef :=
  def <| d_Provider := d_Provider existing |> <| d_SessionID := d_SessionID existing |>
      <| d_Model := d_Model existing |> <| d_ConnectURL := d_ConnectURL existing |>
      <| d_ConnectPID := d_ConnectPID existing |> <| d_Materialized := d_Materialized existing |>
      <| d_GrokConnect := d_GrokConnect existing |> <| d_OMP := d_OMP existing |>
      <| d_TermLogPath := d_TermLogPath existing |>.

Definition merge_definition (adopt running : bool) (existing : option AgentDef) (def : AgentDef)
    : AgentDef + string :=
  match existing with
  | None => inl def
  | Some existing =>
    if adopt && negb (bool_decide (d_Provider def = d_Provider existing)) then
      if negb (bool_decide (d_SessionID def = d_SessionID existing)) then inl (moved_seat existing def)
      else if negb running then inl def
      else inr CodeProviderMismatch
    else if bool_decide (d_SessionID def = d_SessionID existing) then inl (merge_identity adopt existing def)
    else inl def
  end.

(** ** Steps *)

Section Steps.
Context {UC : Unicode} {JS : Json} {OS : Host} (rfc3339 : string -> bool).
Variable EncodeEventWire : TurnWait.Event -> option string.
Variable pumpSize : Z.
Variable git_roots : string -> bool.
(** The registry's outside. *)
Variable save_ok : Registry -> bool.
Variable evidence : Registry -> bool.
Variable broker : option (Config -> option proc * option start_error).
Variable attach : option (option (list MCPServer) -> option (list MCPServer)).
Variables adoptProc startProc : Config -> option proc * option start_error.

Definition brokerPumpSize : nat := brokerUnownedRingCap.
Definition pumpCap : nat := if (0 <? pumpSize)%Z then Z.to_nat pumpSize else brokerPumpSize.

Definition fail (c : Conn) (id code field value : string) (d : daemon) : daemon :=
  serve c (Replying (Failed id code field value)) d.

(** *** [handleGrant]

    Up to the first look at the grants, with the registration still to come.
    [files] are the consumer's files at the time, [mkdir] says whether the working
    directory could be made. *)
Definition grant_begins (c : Conn) (req : grantRequest) (files : consumer_files) (uuid : string)
    (remaining : string + string) (mkdir : bool) (d : daemon) : daemon :=
  let name := gr_Name req in let id := gr_ID req in
  if (consumerPolicyHold rfc3339 files name).1 then fail c id CodeConsumerPolicyHold "name" name d
  else match gr_Def req with
  | None => fail c id CodeMalformed "def" "" d
  | Some def0 =>
    if gr_Pool req then
      if negb (bool_decide (gr_Pick req = "")) then fail c id CodeUnsupportedValue "pick" (gr_Pick req) d
      else if bool_decide (is_Some (liveGrant name d)) then fail c id CodeGrantHeld "name" name d
      else fail c id CodeAgentFailed "" "" d
    else
      let def := named_definition uuid req def0 in
      match (if decide (gr_Pick req = "") then inl def
             else match resolveGrantPick (rg_agents (dm_reg d) !! name) (d_Provider def) (gr_Pick req) remaining with
                  | inl p => inl (def <| d_Provider := p |>)
                  | inr code => inr code
                  end) with
      | inr code => fail c id code "pick" (gr_Pick req) d
      | inl def =>
        let def := (ApplyBrokerGrantWriteDefault git_roots def) <| d_AutoStart := true |> in
        let held := match liveGrant name d with
                    | Some (_, g) => bg_stopping g
                        || match bg_owner g with Some c' => negb (bool_decide (c' = c)) | None => false end
                    | None => false
                    end in
        if held then fail c id CodeGrantHeld "name" name d
        else match PrepareEphemeralGrant def with
             | None => fail c id CodeUnsupportedValue "def" "" d
             | Some def =>
               if IsEphemeralGrant def && negb mkdir then fail c id CodeMalformed "workdir" "" d
               else serve c (Registering id def (gr_Adopt req) (gr_Fallback req)) d
             end
      end
  end.

(** The definition is merged and registered. *)
Definition grant_registers (c : Conn) (id : string) (def : AgentDef) (adopt fallback : bool) (d : daemon)
    : daemon :=
  let name := d_Name def in
  match merge_definition adopt (bool_decide (is_Some (rg_procs (dm_reg d) !! name)))
          (rg_agents (dm_reg d) !! name) def with
  | inr code => fail c id code "provider" (d_Provider def) d
  | inl def =>
    let e := registerLocked (save_ok (dm_reg d)) def (dm_reg d) in
    let d := d <| dm_reg := e.1 |> in
    match e.2 with
    | None | Some ErrLifecycleInProgress => serve c (Launching id def adopt fallback) d
    | Some _ => fail c id CodeAgentFailed "" "" d
    end
  end.

(** The seat is adopted, launched, or one and then the other. *)
Definition grant_launches (c : Conn) (id : string) (def : AgentDef) (adopt fallback : bool) (d : daemon)
    : daemon :=
  let name := d_Name def in
  let e := in_turn name false
             (start_held save_ok evidence broker attach adoptProc startProc name adopt (adopt && fallback))
             (dm_reg d) in
  let d := d <| dm_reg := e.1 |> in
  match e.2, rg_procs (dm_reg d) !! name with
  | Some (inl _), Some h => serve c (Committing id def h) d
  | _, _ => fail c id CodeAgentFailed "" "" d
  end.

(** The second look, and the seat becomes the connection's. *)
Definition take_over (c : Conn) (i : nat) (d : daemon) : daemon :=
  let p := length (dm_pumps d) in
  let from := length (hi_in (default no_history (dm_hist d !! i))) in
  let d := d <| dm_pumps ::= fun l => l ++ [MkPump i c pumpCap [] false PWaiting from [] []] |> in
  on_grant i (fun g => g <| bg_orphanGen ::= N.succ |> <| bg_owner := Some c |> <| bg_pump := Some p |>) d.

Definition empty_ring (i : nat) (d : daemon) : daemon :=
  match dm_heap d !! i with
  | Some g => on_hist i (fun h => h <| hi_replay ::= fun l => l ++ bg_ring g |> <| hi_told := length (hi_cut h) |>)
                (on_grant i (fun g => g <| bg_ring := [] |> <| bg_lag := false |>) d)
  | None => d
  end.

(** A record that another connection holds is taken from it. *)
Definition displace (c : Conn) (i : nat) (d : daemon) : daemon :=
  match dm_heap d !! i ≫= bg_owner with
  | Some c' => if decide (c' = c) then d else detachLocked i d
  | None => d
  end.

Definition grant_commits (c : Conn) (id : string) (def : AgentDef) (h : nat) (d : daemon) : daemon :=
  let name := d_Name def in
  if match liveGrant name d with Some (_, g) => bg_stopping g | None => false end
  then fail c id CodeGrantHeld "name" name d
  else
    let e := ensureGrant false name d in let i := e.1 in let d := e.2 in
    match dm_heap d !! i with
    | None => d
    | Some g =>
      let reclaimed := bool_decide (bg_proc g = Some h) in
      let d := if reclaimed then d else bindSeat i h d in
      let d := if IsEphemeralGrant def then on_grant i (fun g => g <| bg_ephemeral := true |>) d else d in
      let d := displace c i d in
      let alreadyOwned := match dm_heap d !! i with
                          | Some g => bool_decide (bg_owner g = Some c) && bool_decide (is_Some (bg_pump g))
                          | None => false
                          end in
      let d := empty_ring i d in
      let d := if alreadyOwned then d else take_over c i d in
      serve c (Noting id name h reclaimed (bg_lag g) (bg_ring g)) d
    end.

(** The ledger is stamped, the ring is replayed one write at a time, and the
    grant is confirmed. The result of a replay's write is dropped. *)
Definition grant_notes (c : Conn) (ok : bool) (id name : string) (h : nat) (reclaimed lagged : bool)
    (ring : list string) (d : daemon) : daemon :=
  serve c (Replaying id name h reclaimed lagged (length ring) ring)
    (d <| dm_claims ::= fun cl => (held ok (dm_now d) [name] cl).1 |>).

Definition grant_replays (c : Conn) (r : write_result) (id name : string) (h : nat) (reclaimed lagged : bool)
    (total : nat) (rest : list string) (d : daemon) : daemon :=
  match rest with
  | raw :: rest =>
    serve c (Replaying id name h reclaimed lagged total rest) (put_frame c (AgentEvent name raw) r d)
  | [] =>
    let session := match rg_handles (dm_reg d) !! h with Some p => pr_SessionID p | None => "" end in
    serve c (Replying (Granted id name session reclaimed total lagged)) d
  end.

(** *** [handleRelease] *)

Definition release_checks (c : Conn) (req : releaseRequest) (d : daemon) : option (string * string * string) :=
  let name := rr_Name req in
  match liveGrant name d with
  | None => if bool_decide (rg_agents (dm_reg d) !! name = None) then Some (CodeUnknownGrant, "name", name) else None
  | Some (_, g) =>
    match bg_owner g with
    | Some c' => if negb (bool_decide (c' = c)) && negb (rr_Force req)
                 then Some (CodeNotOwner, "name", name) else None
    | None => None
    end
  end.

Definition remove_kind (discard : bool) : stopKind := if discard then removeDiscard else removeKeep.

(** The first stretch; [busy] says whether the seat's turn is in flight. *)
Definition release_begins (c : Conn) (req : releaseRequest) (busy : bool) (d : daemon) : daemon :=
  let name := rr_Name req in let id := rr_ID req in
  match release_checks c req d with
  | Some (code, field, value) => fail c id code field value d
  | None =>
    if decide (rr_Disposition req = DispositionDetach) then
      match liveGrant name d with
      | Some (i, g) =>
        let displaced := if decide (bg_owner g = Some c) then None else bg_owner g in
        serve c (Parking id name displaced) (noteUnowned name (detachLocked i d))
      | None => serve c (Parking id name None) d
      end
    else if decide (rr_Disposition req = DispositionStop) then
      match liveGrant name d with
      | Some (i, g) =>
        if bg_stopping g then fail c id CodeReleaseFailed "name" name d
        else
          let d := on_grant i (fun g => g <| bg_stopping := true |>) d in
          if bool_decide (is_Some (bg_proc g)) && busy then serve c (Settling id name i (rr_Discard req)) d
          else serve c (Standing id name (remove_kind (rr_Discard req))) (dropGrant i name d)
      | None => serve c (Standing id name (remove_kind (rr_Discard req))) d
      end
    else fail c id CodeUnsupportedValue "disposition" (rr_Disposition req) d
  end.

(** The interrupted turn has settled, or not: then the seat is discarded. *)
Definition release_settles (c : Conn) (settled : bool) (id name : string) (i : nat) (discard : bool) (d : daemon)
    : daemon :=
  if bool_decide (dm_grants d !! name = Some i) then
    serve c (Standing id name (remove_kind (discard || negb settled))) (dropGrant i name d)
  else fail c id CodeReleaseFailed "name" name (on_grant i (fun g => g <| bg_stopping := false |>) d).

Definition release_parks (c : Conn) (ok : bool) (id name : string) (displaced : option Conn) (d : daemon) : daemon :=
  serve c (Replying (Released id name DispositionDetach))
    (notifyDetached displaced name reason_released
      (d <| dm_claims ::= fun cl => (standDown ok (dm_now d) [name] cl).1 |>)).

Definition release_stands (c : Conn) (ok : bool) (id name : string) (kind : stopKind) (d : daemon) : daemon :=
  serve c (Removing id name kind) (d <| dm_claims ::= fun cl => (standDown ok (dm_now d) [name] cl).1 |>).

(** The registry's removal; its error is only logged. *)
Definition release_removes (c : Conn) (id name : string) (kind : stopKind) (d : daemon) : daemon :=
  serve c (Replying (Released id name DispositionStop))
    (d <| dm_reg ::= fun r => (in_turn name true (stop_held save_ok name kind) r).1 |>).

(** *** [ConnClosed] *)

Definition owned_places (c : Conn) (d : daemon) : list (string * nat) :=
  List.filter (fun kv => match dm_heap d !! kv.2 with
                         | Some g => bool_decide (bg_owner g = Some c)
                         | None => false
                         end) (map_to_list (dm_grants d)).

Definition close_one (d : daemon) (kv : string * nat) : daemon :=
  match dm_heap d !! kv.2 with
  | Some g => let d := detachLocked kv.2 d in if bg_ephemeral g then noteUnowned kv.1 d else d
  | None => d
  end.

Definition conn_closes (c : Conn) (d : daemon) : daemon :=
  let owned := owned_places c d in
  serve c (Closing (fst <$> owned)) (foldl close_one d owned).

(** *** The orphan timer: [stopEphemeralOrphan] *)

Definition orphan_fires (t : orphan_timer) (d : daemon) : daemon :=
  match liveGrant (ot_name t) d with
  | Some (i, g) =>
    if bool_decide (bg_orphanGen g = ot_gen t) && bool_decide (bg_owner g = None) && bg_ephemeral g then
      (dropGrant i (ot_name t) (on_grant i (fun g => g <| bg_sub := 0%N |>) d))
        <| dm_reaping ::= fun l => l ++ [ot_name t] |>
    else d
  | None => d
  end.

(** *** [forwarder]: an event of a seat *)

Definition ProgressStuck : string := "stuck".

Definition accept (i : nat) (raw : string) (d : daemon) : daemon :=
  on_hist i (fun h => h <| hi_in ::= fun l => l ++ [raw] |>) d.

Definition room (p : nat) (d : daemon) : bool :=
  match dm_pumps d !! p with
  | Some pu => bool_decide (length (pu_queue pu) < pu_cap pu)%nat
  | None => false
  end.

Definition publish (name : string) (ev : TurnWait.Event) (d : daemon) : daemon :=
  if bool_decide (TurnWait.ev_Type ev = "system") && bool_decide (TurnWait.ev_ProgressType ev = ProgressStuck) then d
  else match EncodeEventWire ev with
  | None => d
  | Some raw =>
    match liveGrant name d with
    | None => d
    | Some (i, g) =>
      if bg_fleet g then d
      else
        let d := accept i raw d in
        match bg_pump g with
        | Some p =>
          if room p d then send_pump p raw d
          else retainUnowned i raw
                 (notifyDetached (bg_owner g) name reason_not_reading (noteUnowned name (detachLocked i d)))
        | None => retainUnowned i raw d
        end
    end
  end.

(** *** [runPump] *)

Definition pump_takes (p : nat) (d : daemon) : option daemon :=
  match dm_pumps d !! p with
  | Some pu =>
    match pu_phase pu, pu_queue pu with
    | PWaiting, raw :: q => Some (on_pump p (fun pu => pu <| pu_phase := PWriting raw |> <| pu_queue := q |>) d)
    | PWaiting, [] => if pu_closed pu then Some (on_pump p (fun pu => pu <| pu_phase := PEnded |>) d) else None
    | _, _ => None
    end
  | None => None
  end.

Definition settle (s : settled) (ph : pump_phase) (pu : pump) : pump :=
  pu <| pu_phase := ph |> <| pu_settled ::= fun l => l ++ [s] |>.

Definition pump_writes (p : nat) (r : write_result) (d : daemon) : option daemon :=
  match dm_pumps d !! p with
  | Some pu =>
    match pu_phase pu, dm_heap d !! pu_grant pu with
    | PWriting raw, Some g =>
      Some match r with
           | WroteOK => on_pump p (settle (Written raw) PWaiting)
                          (put_frame (pu_conn pu) (AgentEvent (bg_name g) raw) r d)
           | WroteTooLarge => on_pump p (settle (Dropped raw) PWaiting) d
           | WroteBroken => on_pump p (fun pu => pu <| pu_phase := PFailed raw |>) d
           end
    | _, _ => None
    end
  | None => None
  end.

(** A write failed: the owner loses the seat and the event goes to the ring. *)
Definition pump_fails (p : nat) (d : daemon) : option daemon :=
  match dm_pumps d !! p with
  | Some pu =>
    match pu_phase pu, dm_heap d !! pu_grant pu with
    | PFailed raw, Some g =>
      let d := if decide (bg_owner g = Some (pu_conn pu))
               then noteUnowned (bg_name g) (detachLocked (pu_grant pu) d) else d in
      Some (on_pump p (settle (Returned raw) PEnded) (retainUnowned (pu_grant pu) raw d))
    | _, _ => None
    end
  | None => None
  end.

(** *** [onSeatEvent], [seatFor], [handleAgentOp], [refreshClaims] *)

Definition seat_resumed (name : string) (h : nat) (d : daemon) : daemon :=
  let e := ensureGrant false name d in let i := e.1 in let d := e.2 in
  let d := match dm_heap d !! i with
           | Some g => if decide (bg_proc g = Some h) then d else bindSeat i h d
           | None => d
           end in
  let d := match rg_agents (dm_reg d) !! name with
           | Some def => if IsEphemeralGrant def then on_grant i (fun g => g <| bg_ephemeral := true |>) d else d
           | None => d
           end in
  noteUnowned name d.

Definition seat_gone (name : string) (h : nat) (d : daemon) : daemon :=
  match liveGrant name d with
  | Some (_, g) =>
    if decide (bg_proc g = Some h) then
      match bg_owner g with
      | Some c => d <| dm_notices ::= fun l => l ++ [(c, AgentGone name reason_not_alive)] |>
      | None => d
      end
    else d
  | None => d
  end.

Definition seatFor (c : Conn) (name : string) (needOwner : bool) (d : daemon) : nat * nat + string :=
  match liveGrant name d with
  | Some (i, g) =>
    match bg_proc g with
    | Some h => if needOwner && negb (bool_decide (bg_owner g = Some c)) then inr CodeNotOwner else inl (i, h)
    | None => inr CodeUnknownGrant
    end
  | None => inr CodeUnknownGrant
  end.

Definition op_begins (c : Conn) (id name : string) (needOwner rewind : bool) (d : daemon) : daemon :=
  match seatFor c name needOwner d with
  | inl (i, h) => serve c (Operating id name i h rewind) d
  | inr code => fail c id code "name" name d
  end.

(** The operation's end; a rewind may give a new process. *)
Definition op_ends (c : Conn) (id name : string) (i h : nat) (rewind : bool) (next : option nat) (ok : bool)
    (d : daemon) : daemon :=
  let d := match next with
           | Some n => if rewind && negb (bool_decide (n = h)) then bindSeat i n d else d
           | None => d
           end in
  if ok then serve c (Replying (OpDone id name)) d else fail c id CodeAgentFailed "" "" d.

Definition refresh_collects (d : daemon) : daemon :=
  let owned kv := match dm_heap d !! kv.2 with
                  | Some g => bool_decide (is_Some (bg_owner g))
                  | None => false
                  end in
  d <| dm_refresh := Some (fst <$> List.filter owned (map_to_list (dm_grants d))) |>.

(** *** Fleet seats: [startFleetSeat] and [removeFleetSeat] of [daemon/fleet.go]

    Their looks at the grants; a removal holds the record it found earlier. *)
Definition fleet_binds (name : string) (h : nat) (d : daemon) : daemon :=
  let e := ensureGrant true name d in let i := e.1 in let d := e.2 in
  match dm_heap d !! i with
  | Some g => if decide (bg_proc g = Some h) then d else bindSeat i h d
  | None => d
  end.

Definition fleet_drops (name : string) (i : nat) (d : daemon) : daemon :=
  match dm_heap d !! i with
  | Some g => if decide (bg_name g = name) then dropGrant i name d else d
  | None => d
  end.

(** *** The steps of the daemon *)

Inductive label :=
| LConnect (c : Conn)
| LGrant (c : Conn) (req : grantRequest) (files : consumer_files) (uuid : string)
    (remaining : string + string) (mkdir : bool)
| LRelease (c : Conn) (req : releaseRequest) (busy : bool)
| LOperate (c : Conn) (id name : string) (needOwner rewind : bool)
| LHandle (c : Conn) (ok : bool) (r : write_result) (next : option nat)
| LClose (c : Conn)
| LPublish (name : string) (ev : TurnWait.Event)
| LTake (p : nat)
| LWrite (p : nat) (r : write_result)
| LFail (p : nat)
| LTime (by_ : Duration)
| LTimer (k : nat)
| LReap (name : string)
| LNotice (k : nat) (r : write_result)
| LResumed (name : string) (h : nat)
| LGone (name : string) (h : nat)
| LFleetStart (name : string) (h : nat)
| LFleetStop (name : string) (i : nat)
| LCollect
| LStamp (ok : bool).

(** A connection's goroutine goes on; [ok] says whether a file was written, a turn
    settled or an operation succeeded. *)
Definition handles (c : Conn) (ok : bool) (r : write_result) (next : option nat) (h : handling) (d : daemon)
    : option daemon :=
  match h with
  | Idle | Closed => None
  | Registering id def adopt fallback => Some (grant_registers c id def adopt fallback d)
  | Launching id def adopt fallback => Some (grant_launches c id def adopt fallback d)
  | Committing id def h => Some (grant_commits c id def h d)
  | Noting id name h reclaimed lagged ring => Some (grant_notes c ok id name h reclaimed lagged ring d)
  | Replaying id name h reclaimed lagged total rest =>
    Some (grant_replays c r id name h reclaimed lagged total rest d)
  | Settling id name i discard => Some (release_settles c ok id name i discard d)
  | Parking id name displaced => Some (release_parks c ok id name displaced d)
  | Standing id name kind => Some (release_stands c ok id name kind d)
  | Removing id name kind => Some (release_removes c id name kind d)
  | Operating id name i h rewind => Some (op_ends c id name i h rewind next ok d)
  | Replying f => Some (serve c Idle (put_frame c f r d))
  | Closing names =>
    Some (serve c Closed (d <| dm_claims ::= fun cl => (touchHeld ok (dm_now d) names cl).1 |>))
  end.

Definition idle (c : Conn) (d : daemon) : bool :=
  match dm_conns d !! c with Some Idle => true | _ => false end.

Definition exec (l : label) (d : daemon) : option daemon :=
  match l with
  | LConnect c => match dm_conns d !! c with None => Some (serve c Idle d) | Some _ => None end
  | LGrant c req files uuid remaining mkdir =>
    if idle c d then
      Some (if isFleetGrantName (gr_Name req) then fail c (gr_ID req) CodeGrantHeld "name" (gr_Name req) d
            else grant_begins c req files uuid remaining mkdir d)
    else None
  | LRelease c req busy =>
    if idle c d then
      Some (if isFleetGrantName (rr_Name req) then fail c (rr_ID req) CodeGrantHeld "name" (rr_Name req) d
            else release_begins c req busy d)
    else None
  | LOperate c id name needOwner rewind =>
    if idle c d then Some (op_begins c id name needOwner rewind d) else None
  | LHandle c ok r next => match dm_conns d !! c with Some h => handles c ok r next h d | None => None end
  | LClose c => if idle c d then Some (conn_closes c d) else None
  | LPublish name ev => Some (publish name ev d)
  | LTake p => pump_takes p d
  | LWrite p r => pump_writes p r d
  | LFail p => pump_fails p d
  | LTime dt => if (0 <=? dt)%Z then Some (d <| dm_now ::= Z.add dt |>) else None
  | LTimer k =>
    match dm_timers d !! k with
    | Some t =>
      if (ot_at t <=? dm_now d)%Z then Some (orphan_fires t (d <| dm_timers ::= delete k |>)) else None
    | None => None
    end
  | LReap name =>
    if contains (dm_reaping d) name then
      Some (d <| dm_reaping ::= List.filter (fun n => negb (String.eqb n name)) |>
              <| dm_reg ::= fun r => (in_turn name true (stop_held save_ok name removeDiscard) r).1 |>)
    else None
  | LNotice k r =>
    match dm_notices d !! k with
    | Some (c, f) => Some (put_frame c f r (d <| dm_notices ::= delete k |>))
    | None => None
    end
  | LResumed name h => Some (seat_resumed name h d)
  | LGone name h => Some (seat_gone name h d)
  | LFleetStart name h => if isFleetGrantName name then Some (fleet_binds name h d) else None
  | LFleetStop name i => if isFleetGrantName name then Some (fleet_drops name i d) else None
  | LCollect => match dm_refresh d with None => Some (refresh_collects d) | Some _ => None end
  | LStamp ok =>
    match dm_refresh d with
    | Some names => Some (d <| dm_refresh := None |>
                            <| dm_claims ::= fun cl => (held ok (dm_now d) names cl).1 |>)
    | None => None
    end
  end.

Inductive step (d d' : daemon) : Prop :=
| step_exec l : exec l d = Some d' -> step d d'.

(** The daemon starts with no grants; what the registry and the ledger hold comes
    from disk. *)
Definition started (now : Time) (r : Registry) (cl : seatClaims) : daemon :=
  MkDaemon now [] ∅ [] [] [] ∅ ∅ r cl None [] [] 0 false.

Inductive reachable : daemon -> Prop :=
| reach_start now r cl : reachable (started now r cl)
| reach_step d d' : reachable d -> step d d' -> reachable d'.

Definition runs (ls : list label) (d : daemon) : option daemon :=
  foldl (fun d l => d ≫= exec l) (Some d) ls.

Lemma runs_none ls : foldl (fun d l => d ≫= exec l) None ls = None.
Proof. by induction ls. Qed.

Lemma runs_reachable ls d d' : reachable d -> runs ls d = Some d' -> reachable d'.
Proof.
  unfold runs. revert d. induction ls as [|l ls IH]; cbn; intros d R; [by intros [= <-]|].
  destruct (exec l d) as [d1|] eqn:E; [|by rewrite runs_none].
  apply IH. eapply reach_step; [done|]. by econstructor.
Qed.
End Steps.
