(* ===== verification/GrantsFacts.v ===== *)
(** * GrantsFacts: what every step of the daemon keeps

    The invariant of the grant records and their channels, over the part of the
    state it speaks of, and that each step keeps it. *)

From S2P Require Import Prelude GoLib GoJson WireTypes RegistryTypes Registry Control RegistryHost Ephemeral SeatClaims Grants.
From S2P Require Import FleetNames.

(** ** The part of the state that says who holds what *)

Record holding := MkHolding { ho_name : string; ho_owner : option nat; ho_pump : option nat }.
Record channel := MkChannel { ch_grant : nat; ch_conn : nat; ch_closed : bool }.

Definition holding_of (g : brokerGrant) : holding := MkHolding (bg_name g) (bg_owner g) (bg_pump g).
Definition channel_of (p : pump) : channel := MkChannel (pu_grant p) (pu_conn p) (pu_closed p).
Definition holdings (d : daemon) : list holding := holding_of <$> dm_heap d.
Definition channels (d : daemon) : list channel := channel_of <$> dm_pumps d.

Lemma fmap_alter_same {A B} (f : A -> B) (g : A -> A) i (l : list A) :
  (forall x, f (g x) = f x) -> f <$> alter g i l = f <$> l.
Proof. intros H. revert i. induction l as [|x l IH]; intros [|i]; cbn; f_equal; auto. Qed.

Lemma fmap_alter_comm {A B} (f : A -> B) (g : A -> A) (h : B -> B) i (l : list A) :
  (forall x, f (g x) = h (f x)) -> f <$> alter g i l = alter h i (f <$> l).
Proof. intros H. revert i. induction l as [|x l IH]; intros [|i]; cbn; f_equal; auto. Qed.

Lemma alter_past {A} (f : A -> A) i (l : list A) : l !! i = None -> alter f i l = l.
Proof. revert i. induction l as [|x l IH]; intros [|i]; cbn; intros H; f_equal; auto. done. Qed.

Lemma lookup_alter_some {A} (f : A -> A) i j (l : list A) x :
  alter f i l !! j = Some x ->
  exists y, l !! j = Some y /\ x = if decide (i = j) then f y else y.
Proof.
  rewrite list_lookup_alter. case_decide; [|eauto]. rewrite fmap_Some. naive_solver.
Qed.

Definition alive (h : handling) : Prop :=
  match h with Closing _ | Closed => False | _ => True end.
Definition connected (cs : gmap nat handling) (c : nat) : Prop :=
  match cs !! c with Some h => alive h | None => False end.

(** What a connection's goroutine carries from one step to the next. *)
Definition carries (hs : list holding) (h : handling) : Prop :=
  match h with
  | Registering _ def _ _ | Launching _ def _ _ | Committing _ def _ => isFleetGrantName (d_Name def) = false
  | Settling _ name i _ => exists o, hs !! i = Some o /\ ho_name o = name
  | Operating _ _ i _ _ => i < length hs
  | _ => True
  end.

Record wf_parts (hs : list holding) (gs : gmap string nat) (chs : list channel) (cs : gmap nat handling)
    (panic : bool) : Prop := {
  wf_table : forall n i, gs !! n = Some i -> exists o, hs !! i = Some o /\ ho_name o = n;
  wf_pump : forall i o p, hs !! i = Some o -> ho_pump o = Some p ->
      exists ch, chs !! p = Some ch /\ ch_grant ch = i /\ ch_closed ch = false
                 /\ ho_owner o = Some (ch_conn ch);
  wf_owner : forall i o c, hs !! i = Some o -> ho_owner o = Some c ->
      is_Some (ho_pump o) /\ gs !! ho_name o = Some i /\ isFleetGrantName (ho_name o) = false
      /\ connected cs c;
  wf_open : forall p ch, chs !! p = Some ch ->
      exists o, hs !! ch_grant ch = Some o /\ (ch_closed ch = false -> ho_pump o = Some p);
  wf_carry : forall c h, cs !! c = Some h -> carries hs h;
  wf_panic : panic = false }.

Definition wf (d : daemon) : Prop :=
  wf_parts (holdings d) (dm_grants d) (channels d) (dm_conns d) (dm_panic d).

(** Two states in which the same connections hold the same seats. *)
Record same_holders (d d' : daemon) : Prop := {
  sh_holdings : holdings d' = holdings d;
  sh_grants : dm_grants d' = dm_grants d;
  sh_channels : channels d' = channels d;
  sh_conns : dm_conns d' = dm_conns d;
  sh_panic : dm_panic d' = dm_panic d }.

#[export] Instance same_holders_refl : Reflexive same_holders.
Proof. done. Qed.
#[export] Instance same_holders_trans : Transitive same_holders.
Proof. intros a b c [] []. split; congruence. Qed.

Lemma wf_same d d' : same_holders d d' -> wf d -> wf d'.
Proof. intros [A B C D E]. unfold wf. by rewrite A, B, C, D, E. Qed.

Lemma holdings_lookup d i g : dm_heap d !! i = Some g -> holdings d !! i = Some (holding_of g).
Proof. intros H. unfold holdings. by rewrite list_lookup_fmap, H. Qed.

Lemma holdings_inv d i o : holdings d !! i = Some o -> exists g, dm_heap d !! i = Some g /\ o = holding_of g.
Proof. unfold holdings. rewrite list_lookup_fmap, fmap_Some. naive_solver. Qed.

Lemma channels_lookup d p pu : dm_pumps d !! p = Some pu -> channels d !! p = Some (channel_of pu).
Proof. intros H. unfold channels. by rewrite list_lookup_fmap, H. Qed.

(** *** Steps that leave the holders alone *)

Lemma same_on_grant i f d : (forall g, holding_of (f g) = holding_of g) -> same_holders d (on_grant i f d).
Proof. intros H. split; try done. by apply fmap_alter_same. Qed.

Lemma same_on_pump p f d : (forall g, channel_of (f g) = channel_of g) -> same_holders d (on_pump p f d).
Proof. intros H. split; try done. by apply fmap_alter_same. Qed.

Lemma same_on_hist i f d : same_holders d (on_hist i f d).
Proof. done. Qed.

Lemma same_arm i g d : same_holders d (armEphemeralOrphan i g d).
Proof. unfold armEphemeralOrphan. transitivity (on_grant i (fun g' => g' <| bg_orphanGen := (bg_orphanGen g + 1)%N |>) d); [by apply same_on_grant|by split]. Qed.

Lemma same_noteUnowned name d : same_holders d (noteUnowned name d).
Proof. unfold noteUnowned. destruct (liveGrant name d) as [[i g]|]; [|done]. case_match; [apply same_arm|done]. Qed.

Lemma same_retain i raw d : same_holders d (retainUnowned i raw d).
Proof.
  unfold retainUnowned. destruct (dm_heap d !! i); [|done]. cbv zeta.
  etransitivity; [|apply same_on_hist]. by apply same_on_grant.
Qed.

Lemma same_bind i h d : same_holders d (bindSeat i h d).
Proof.
  unfold bindSeat. cbv zeta. set (f := fun g : brokerGrant => _).
  transitivity (on_grant i f d); [by apply same_on_grant|by split].
Qed.

Lemma same_notify o n r d : same_holders d (notifyDetached o n r d).
Proof. by destruct o. Qed.

Lemma same_put_frame c f r d : same_holders d (put_frame c f r d).
Proof. by destruct r. Qed.

Lemma same_empty_ring i d : same_holders d (empty_ring i d).
Proof.
  unfold empty_ring. destruct (dm_heap d !! i); [|done].
  etransitivity; [|apply same_on_hist]. by apply same_on_grant.
Qed.

Create HintDb holders.
#[export] Hint Resolve same_on_hist same_arm same_noteUnowned same_retain same_bind same_notify
  same_put_frame same_empty_ring : holders.

(** *** Detaching, making and dropping a record *)

Definition unheld (o : holding) : holding := MkHolding (ho_name o) None None.
Definition shut (ch : channel) : channel := MkChannel (ch_grant ch) (ch_conn ch) true.

Lemma detach_parts i d :
  wf d ->
  holdings (detachLocked i d) = alter unheld i (holdings d)
  /\ dm_grants (detachLocked i d) = dm_grants d
  /\ channels (detachLocked i d)
     = match holdings d !! i ≫= ho_pump with Some p => alter shut p (channels d) | None => channels d end
  /\ dm_conns (detachLocked i d) = dm_conns d /\ dm_panic (detachLocked i d) = false.
Proof.
  intros W. unfold detachLocked. destruct (dm_heap d !! i) as [g|] eqn:G.
  - rewrite (holdings_lookup _ _ _ G). cbn [mbind option_bind holding_of ho_pump].
    assert (forall d1, dm_heap d1 = dm_heap d ->
              holdings (on_grant i (fun g => g <| bg_owner := None |> <| bg_pump := None |>) d1)
              = alter unheld i (holdings d)) as A.
    { intros d1 E. unfold holdings, on_grant. cbn. rewrite E. by apply fmap_alter_comm. }
    destruct (bg_pump g) as [p|] eqn:P.
    + destruct (wf_pump _ _ _ _ _ W i _ p (holdings_lookup _ _ _ G) P) as (ch & C & _ & Cl & _).
      unfold channels in C. rewrite list_lookup_fmap, fmap_Some in C. destruct C as (pu & Pu & ->).
      unfold close_pump. rewrite Pu. cbn in Cl. rewrite Cl.
      split_and!; try done; [by apply A|by apply fmap_alter_comm|apply (wf_panic _ _ _ _ _ W)].
    + split_and!; try done; [by apply A|apply (wf_panic _ _ _ _ _ W)].
  - assert (holdings d !! i = None) as N.
    { unfold holdings. by rewrite list_lookup_fmap, G. }
    rewrite N. cbn. split_and!; try done; [|apply (wf_panic _ _ _ _ _ W)].
    symmetry. by apply alter_past.
Qed.

(** What a record is after another, or itself, was detached. *)
Lemma detach_lookup i j d o :
  wf d -> holdings (detachLocked i d) !! j = Some o ->
  exists o', holdings d !! j = Some o' /\ ho_name o = ho_name o' /\ (i = j -> o = unheld o') /\ (i <> j -> o = o').
Proof.
  intros W. rewrite (proj1 (detach_parts i d W)). intros H.
  apply lookup_alter_some in H as (o' & H & ->). exists o'. by case_decide.
Qed.

Lemma wf_detach i d : wf d -> wf (detachLocked i d).
Proof.
  intros W. destruct (detach_parts i d W) as (A & B & C & D & E).
  unfold wf. rewrite A, B, C, D, E.
  assert (forall p ch, match holdings d !! i ≫= ho_pump with
                       | Some p => alter shut p (channels d) | None => channels d end !! p = Some ch ->
            exists ch', channels d !! p = Some ch' /\ ch_grant ch = ch_grant ch' /\ ch_conn ch = ch_conn ch'
              /\ ch_closed ch = if decide (holdings d !! i ≫= ho_pump = Some p) then true else ch_closed ch') as Cs.
  { intros p ch. destruct (holdings d !! i ≫= ho_pump) as [q|]; [|naive_solver].
    intros (ch' & H & ->)%lookup_alter_some. exists ch'.
    destruct (decide (q = p)) as [<-|N]; case_decide; naive_solver. }
  split.
  - intros n j H. destruct (wf_table _ _ _ _ _ W n j H) as (o & Ho & Hn).
    destruct (alter unheld i (holdings d) !! j) as [o'|] eqn:L.
    + apply lookup_alter_some in L as (o1 & L & ->). exists (if decide (i = j) then unheld o1 else o1).
      split; [done|]. case_decide; naive_solver.
    + rewrite list_lookup_alter in L. case_decide; by simplify_option_eq.
  - intros j o p (o' & L & ->)%lookup_alter_some. case_decide as N; [done|]. intros P.
    destruct (wf_pump _ _ _ _ _ W j o' p L P) as (ch & H & G & Cl & O).
    exists ch. split_and!; try done.
    destruct (holdings d !! i ≫= ho_pump) as [q|] eqn:Q; [|done].
    rewrite list_lookup_alter_ne; [done|]. intros ->.
    destruct (holdings d !! i) as [oi|] eqn:Oi; [|done]. cbn in Q.
    destruct (wf_pump _ _ _ _ _ W i oi p Oi Q) as (ch' & H' & G' & _). congruence.
  - intros j o c (o' & L & ->)%lookup_alter_some. case_decide as N; [done|]. intros O.
    by apply (wf_owner _ _ _ _ _ W).
  - intros p ch (ch' & H & G & _ & Cl)%Cs. destruct (wf_open _ _ _ _ _ W p ch' H) as (o & Ho & Hp).
    rewrite G. destruct (decide (i = ch_grant ch')) as [->|N].
    + exists (unheld o). rewrite list_lookup_alter_eq, Ho. split; [done|]. intros F. rewrite F in Cl.
      case_decide as Q; [done|]. rewrite Ho in Q. cbn in Q. specialize (Hp (eq_sym Cl)). done.
    + exists o. rewrite list_lookup_alter_ne by done. split; [done|]. intros F. apply Hp.
      rewrite F in Cl. by case_decide.
  - intros c h H. pose proof (wf_carry _ _ _ _ _ W c h H) as K. destruct h; cbn in *; try done.
    + destruct K as (o & Ho & Hn). destruct (decide (i = g)) as [->|N].
      * exists (unheld o). by rewrite list_lookup_alter_eq, Ho.
      * exists o. by rewrite list_lookup_alter_ne.
    + by rewrite length_alter.
  - done.
Qed.

Lemma carries_app hs ks h : carries hs h -> carries (hs ++ ks) h.
Proof.
  destruct h; cbn; try done.
  - intros (o & H & N). exists o. split; [by apply lookup_app_l_Some|done].
  - rewrite length_app. lia.
Qed.

(** The record of a name is there after it was asked for; a new one is nobody's. *)
Lemma wf_ensure fleet name d :
  wf d ->
  let e := ensureGrant fleet name d in
  wf e.2 /\ dm_conns e.2 = dm_conns d /\ dm_grants e.2 !! name = Some e.1
  /\ exists o, holdings e.2 !! e.1 = Some o /\ ho_name o = name.
Proof.
  intros W. unfold ensureGrant. destruct (dm_grants d !! name) as [i|] eqn:G; cbn [fst snd].
  { split_and!; try done. by apply (wf_table _ _ _ _ _ W). }
  set (i := length (dm_heap d)).
  assert (i = length (holdings d)) as Li by (unfold holdings; by rewrite length_fmap).
  set (d1 := _ : daemon).
  assert (holdings d1 = holdings d ++ [MkHolding name None None]) as Hs.
  { unfold holdings, d1. cbn. by rewrite fmap_app. }
  split_and!; [|done|apply lookup_insert_eq|].
  - unfold wf. rewrite Hs. change (channels d1) with (channels d).
    change (dm_conns d1) with (dm_conns d). change (dm_panic d1) with (dm_panic d).
    change (dm_grants d1) with (<[name := i]> (dm_grants d)).
    assert (forall j o, (holdings d ++ [MkHolding name None None]) !! j = Some o ->
              holdings d !! j = Some o \/ j = i /\ o = MkHolding name None None) as App.
    { intros j o H. apply lookup_app_Some in H as [H|[Hl H]]; [by left|right].
      apply list_lookup_singleton_Some in H as [? <-]. split; [lia|done]. }
    split.
    + intros n j [[<- <-]|[N H]]%lookup_insert_Some.
      * exists (MkHolding name None None). rewrite lookup_app_r, Li, Nat.sub_diag by lia. done.
      * destruct (wf_table _ _ _ _ _ W n j H) as (o & Ho & Hn). exists o.
        split; [by apply lookup_app_l_Some|done].
    + intros j o p [H|[-> ->]]%App; [|done]. by apply (wf_pump _ _ _ _ _ W).
    + intros j o c [H|[-> ->]]%App O; [|done].
      destruct (wf_owner _ _ _ _ _ W j o c H O) as (A & B & C & D). split_and!; try done.
      rewrite lookup_insert_ne; [done|]. intros E. congruence.
    + intros p ch H. destruct (wf_open _ _ _ _ _ W p ch H) as (o & Ho & Hp).
      exists o. split; [by apply lookup_app_l_Some|done].
    + intros c h H. apply carries_app. by apply (wf_carry _ _ _ _ _ W c).
    + apply (wf_panic _ _ _ _ _ W).
  - exists (MkHolding name None None). rewrite Hs, lookup_app_r, Li, Nat.sub_diag by lia. done.
Qed.

(** A record leaves the table when it is the name's, or the name is the kernel's. *)
Lemma wf_drop i name d :
  wf d -> dm_grants d !! name = Some i \/ isFleetGrantName name = true -> wf (dropGrant i name d).
Proof.
  intros W K. pose proof (wf_detach i d W) as V. unfold dropGrant.
  set (d0 := detachLocked i d) in *. unfold wf.
  change (dm_grants (d0 <| dm_grants ::= delete name |>)) with (delete name (dm_grants d0)).
  split; try apply V.
  - intros n j [_ H]%lookup_delete_Some. by apply (wf_table _ _ _ _ _ V).
  - intros j o c H O. destruct (wf_owner _ _ _ _ _ V j o c H O) as (A & B & C & D).
    split_and!; try done. apply lookup_delete_Some. split; [|done]. intros ->.
    destruct K as [K|K]; [|congruence].
    destruct (detach_parts i d W) as (_ & E & _). unfold d0 in *. rewrite E in B.
    assert (i = j) as -> by congruence.
    destruct (detach_lookup j j d o W H) as (o' & _ & _ & U & _). specialize (U eq_refl). subst o. done.
Qed.

Lemma wf_serve c h d :
  wf d -> carries (holdings d) h ->
  (forall i o, holdings d !! i = Some o -> ho_owner o = Some c -> alive h) ->
  wf (serve c h d).
Proof.
  intros W K L. unfold wf. split; try apply W.
  - intros i o c' H O. destruct (wf_owner _ _ _ _ _ W i o c' H O) as (A & B & C & D). split_and!; try done.
    unfold connected. cbn [dm_conns serve].
    destruct (decide (c' = c)) as [->|N].
    + cbn. rewrite lookup_insert_eq. by apply (L i o).
    + cbn. by rewrite lookup_insert_ne.
  - intros c' h' H. change (dm_conns (serve c h d)) with (<[c := h]> (dm_conns d)) in H. apply lookup_insert_Some in H as [[<- <-]|[N H]]; [done|]. by apply (wf_carry _ _ _ _ _ W c').
Qed.

(** To a state in which the connection goes on with something else. *)
Lemma wf_serve_on c h d :
  wf d -> carries (holdings d) h -> alive h -> wf (serve c h d).
Proof. intros W K L. by apply wf_serve. Qed.

Lemma wf_fail c id code field value d : wf d -> wf (fail c id code field value d).
Proof. intros W. by apply wf_serve_on. Qed.

Lemma wf_take_over size c i d o :
  wf d -> holdings d !! i = Some o -> ho_owner o = None -> dm_grants d !! ho_name o = Some i ->
  isFleetGrantName (ho_name o) = false -> connected (dm_conns d) c ->
  wf (take_over size c i d).
Proof.
  intros W Ho Ow G F C. set (p := length (dm_pumps d)).
  assert (p = length (channels d)) as Lp by (unfold channels; by rewrite length_fmap).
  assert (holdings (take_over size c i d)
          = alter (fun o => MkHolding (ho_name o) (Some c) (Some p)) i (holdings d)) as Hs.
  { unfold holdings, take_over, on_grant. cbn. by apply fmap_alter_comm. }
  assert (channels (take_over size c i d) = channels d ++ [MkChannel i c false]) as Cs.
  { unfold channels, take_over, on_grant. cbn. by rewrite fmap_app. }
  assert (forall q ch, (channels d ++ [MkChannel i c false]) !! q = Some ch ->
            channels d !! q = Some ch \/ q = p /\ ch = MkChannel i c false) as App.
  { intros q ch H. apply lookup_app_Some in H as [H|[Hl H]]; [by left|right].
    apply list_lookup_singleton_Some in H as [? <-]. split; [lia|done]. }
  assert (ho_pump o = None) as Np.
  { destruct (ho_pump o) as [q|] eqn:Q; [|done].
    destruct (wf_pump _ _ _ _ _ W i o q Ho Q) as (ch & _ & _ & _ & E). congruence. }
  unfold wf. rewrite Hs, Cs. split.
  - intros n j H. destruct (wf_table _ _ _ _ _ W n j H) as (o' & Ho' & Hn).
    rewrite list_lookup_alter. case_decide; [|eauto]. subst. rewrite Ho'. eauto.
  - intros j o' q (o1 & L & ->)%lookup_alter_some. case_decide as N.
    + intros [= <-]. exists (MkChannel i c false). rewrite lookup_app_r, Lp, Nat.sub_diag by lia. done.
    + intros Q. destruct (wf_pump _ _ _ _ _ W j o1 q L Q) as (ch & H & R). exists ch.
      split; [by apply lookup_app_l_Some|done].
  - intros j o' c' (o1 & L & ->)%lookup_alter_some. case_decide as N.
    + subst j. assert (o1 = o) as -> by congruence. cbn. intros [= <-]. done.
    + intros O. by apply (wf_owner _ _ _ _ _ W).
  - intros q ch [H|[-> ->]]%App.
    + destruct (wf_open _ _ _ _ _ W q ch H) as (o1 & L & P). rewrite list_lookup_alter. case_decide as N.
      * subst. rewrite L. eexists. split; [done|]. intros Cl. specialize (P Cl).
        assert (o1 = o) as -> by congruence. congruence.
      * eauto.
    + cbn. rewrite list_lookup_alter_eq, Ho. cbn. eauto.
  - intros c' h H. pose proof (wf_carry _ _ _ _ _ W c' h H) as K. destruct h; cbn in *; try done.
    + destruct K as (o1 & L & Nm). rewrite list_lookup_alter. case_decide; [|eauto]. subst. rewrite L. eauto.
    + by rewrite length_alter.
  - apply (wf_panic _ _ _ _ _ W).
Qed.

(** ** Every step *)

Section Steps.
Context {UC : Unicode} {JS : Json} {OS : Host} (rfc3339 : string -> bool).
Context (EncodeEventWire : TurnWait.Event -> option string) (pumpSize : Z) (git_roots : string -> bool).
Context (save_ok evidence : Registry -> bool) (broker : option (Config -> option proc * option start_error)).
Context (attach : option (option (list MCPServer) -> option (list MCPServer))).
Context (adoptProc startProc : Config -> option proc * option start_error).

Abbreviation publish := (publish EncodeEventWire).
Abbreviation exec := (exec rfc3339 EncodeEventWire pumpSize git_roots save_ok evidence broker attach adoptProc startProc).
Abbreviation step := (step rfc3339 EncodeEventWire pumpSize git_roots save_ok evidence broker attach adoptProc startProc).
Abbreviation reachable :=
  (reachable rfc3339 EncodeEventWire pumpSize git_roots save_ok evidence broker attach adoptProc startProc).

Lemma live_holding name d i g :
  liveGrant name d = Some (i, g) -> dm_grants d !! name = Some i /\ dm_heap d !! i = Some g.
Proof.
  unfold liveGrant. destruct (dm_grants d !! name) as [j|]; [|done].
  destruct (dm_heap d !! j) eqn:E; cbn; [|done]. intros [= <- <-]. done.
Qed.

Lemma live_named name d i g : wf d -> liveGrant name d = Some (i, g) -> bg_name g = name.
Proof.
  intros W [G H]%live_holding. destruct (wf_table _ _ _ _ _ W _ _ G) as (o & Ho & N).
  by rewrite (holdings_lookup _ _ _ H) in Ho; simplify_eq.
Qed.

(** A seat's channel is open while it is the seat's. *)
Lemma pump_open d i g p :
  wf d -> dm_heap d !! i = Some g -> bg_pump g = Some p ->
  exists pu, dm_pumps d !! p = Some pu /\ pu_grant pu = i /\ pu_closed pu = false
             /\ bg_owner g = Some (pu_conn pu).
Proof.
  intros W H P. destruct (wf_pump _ _ _ _ _ W i _ p (holdings_lookup _ _ _ H) P) as (ch & C & G & Cl & O).
  unfold channels in C. rewrite list_lookup_fmap, fmap_Some in C. destruct C as (pu & Pu & ->). eauto.
Qed.

Lemma same_send d i g p raw :
  wf d -> dm_heap d !! i = Some g -> bg_pump g = Some p -> same_holders d (send_pump p raw d).
Proof.
  intros W H P. destruct (pump_open d i g p W H P) as (pu & Pu & _ & Cl & _).
  unfold send_pump. rewrite Pu, Cl. by apply same_on_pump.
Qed.

Lemma wf_publish name ev d : wf d -> wf (publish name ev d).
Proof.
  intros W. unfold Grants.publish. case_match; [done|].
  destruct (EncodeEventWire ev) as [raw|]; [|done].
  destruct (liveGrant name d) as [[i g]|] eqn:L; [|done].
  destruct (bg_fleet g); [done|]. apply live_holding in L as [Gi Hi]. cbv zeta.
  assert (wf (accept i raw d)) as W1 by (eapply wf_same; [apply same_on_hist|done]).
  destruct (bg_pump g) as [p|] eqn:P.
  - case_match.
    + eapply wf_same; [eapply same_send; [done|exact Hi|exact P]|done].
    + eapply wf_same; [apply same_retain|]. eapply wf_same; [apply same_notify|].
      eapply wf_same; [apply same_noteUnowned|]. by apply wf_detach.
  - eapply wf_same; [apply same_retain|done].
Qed.

Lemma wf_pump_steps p d d' r :
  wf d -> pump_takes p d = Some d' \/ pump_writes p r d = Some d' \/ pump_fails p d = Some d' -> wf d'.
Proof.
  intros W. unfold pump_takes, pump_writes, pump_fails.
  destruct (dm_pumps d !! p) as [pu|]; [|naive_solver]. intros [H|[H|H]].
  - destruct (pu_phase pu); try done. destruct (pu_queue pu); [case_match; [|done]|];
      simplify_eq; (eapply wf_same; [by apply same_on_pump|done]).
  - destruct (pu_phase pu); try done. destruct (dm_heap d !! pu_grant pu); [|done]. simplify_eq.
    destruct r; (eapply wf_same; [by apply same_on_pump|]); [|done..].
    eapply wf_same; [apply same_put_frame|done].
  - destruct (pu_phase pu); try done. destruct (dm_heap d !! pu_grant pu); [|done]. simplify_eq.
    eapply wf_same; [by apply same_on_pump|]. eapply wf_same; [apply same_retain|].
    case_decide; [|done]. eapply wf_same; [apply same_noteUnowned|]. by apply wf_detach.
Qed.

Lemma wf_conn_idle c d : idle c d = true -> dm_conns d !! c = Some Idle.
Proof. unfold idle. destruct (dm_conns d !! c) as [[]|]; done. Qed.

Lemma wf_release_begins c req busy d : wf d -> wf (release_begins c req busy d).
Proof.
  intros W. unfold release_begins. destruct (release_checks c req d) as [[[? ?] ?]|]; [by apply wf_fail|].
  case_decide; [|case_decide; [|by apply wf_fail]].
  - destruct (liveGrant _ d) as [[i g]|]; apply wf_serve_on; try done.
    eapply wf_same; [apply same_noteUnowned|]. by apply wf_detach.
  - destruct (liveGrant _ d) as [[i g]|] eqn:L; [|by apply wf_serve_on].
    destruct (bg_stopping g); [by apply wf_fail|]. cbv zeta.
    assert (wf (on_grant i (fun g => g <| bg_stopping := true |>) d)) as W1.
    { eapply wf_same; [by apply same_on_grant|done]. }
    pose proof (live_holding _ _ _ _ L) as [Gi Hi].
    case_match; apply wf_serve_on; try done.
    + cbn. destruct (wf_table _ _ _ _ _ W1 _ _ Gi) as (o & Ho & N). eauto.
    + apply wf_drop; [done|by left].
Qed.

Lemma wf_release_settles c settled id name i discard d :
  wf d -> wf (release_settles c settled id name i discard d).
Proof.
  intros W. unfold release_settles. case_bool_decide as G.
  - apply wf_serve_on; try done. apply wf_drop; [done|by left].
  - apply wf_fail. eapply wf_same; [by apply same_on_grant|done].
Qed.

Lemma named_keeps uuid req def : d_Name (named_definition uuid req def) = gr_Name req.
Proof. unfold named_definition. cbv zeta. repeat case_match; done. Qed.

Lemma write_default_keeps d : d_Name (ApplyBrokerGrantWriteDefault git_roots d) = d_Name d.
Proof. unfold ApplyBrokerGrantWriteDefault. repeat case_match; done. Qed.

Lemma prepare_keeps d d' : PrepareEphemeralGrant d = Some d' -> d_Name d' = d_Name d.
Proof. unfold PrepareEphemeralGrant. repeat case_match; naive_solver. Qed.

Lemma merge_keeps adopt running existing def def' :
  merge_definition adopt running existing def = inl def' -> d_Name def' = d_Name def.
Proof.
  unfold merge_definition, merge_identity, moved_seat. repeat case_match; naive_solver.
Qed.

Lemma wf_grant_begins c req files uuid remaining mkdir d :
  isFleetGrantName (gr_Name req) = false -> wf d ->
  wf (grant_begins rfc3339 git_roots c req files uuid remaining mkdir d).
Proof.
  intros F W. unfold grant_begins. case_match; [by apply wf_fail|].
  destruct (gr_Def req) as [def0|]; [|by apply wf_fail].
  case_match; [repeat case_match; by apply wf_fail|]. cbv zeta.
  destruct (if decide (gr_Pick req = "") then _ else _) as [def|code] eqn:P; [|by apply wf_fail].
  assert (d_Name def = gr_Name req) as N.
  { revert P. case_decide; [intros [= <-]; apply named_keeps|].
    destruct (resolveGrantPick _ _ _ _) as [p|]; [|done]. intros [= <-]. apply named_keeps. }
  clear P. match goal with |- wf (if ?b then _ else _) => destruct b end; [by apply wf_fail|].
  destruct (PrepareEphemeralGrant _) as [def'|] eqn:E; [|by apply wf_fail].
  apply prepare_keeps in E. cbn in E. rewrite write_default_keeps, N in E.
  case_match; [by apply wf_fail|]. apply wf_serve_on; [done| |done]. cbn. congruence.
Qed.

Lemma wf_ignored d d' :
  wf d -> dm_heap d' = dm_heap d -> dm_grants d' = dm_grants d -> dm_pumps d' = dm_pumps d ->
  dm_conns d' = dm_conns d -> dm_panic d' = dm_panic d -> wf d'.
Proof.
  intros W A B C D E. apply (wf_same d); [|done]. split; try done; unfold holdings, channels; congruence.
Qed.

Ltac ignored := eapply wf_ignored; [done|done..].

Lemma wf_grant_registers c id def adopt fallback d :
  wf d -> dm_conns d !! c = Some (Registering id def adopt fallback) ->
  wf (grant_registers save_ok c id def adopt fallback d).
Proof.
  intros W K. apply (wf_carry _ _ _ _ _ W) in K. cbn in K. unfold grant_registers.
  destruct (merge_definition _ _ _ _) as [def'|] eqn:M; [|by apply wf_fail].
  apply merge_keeps in M. cbv zeta. case_match; [case_match|].
  all: first [apply wf_serve_on; [ignored| |done]; cbn; congruence | apply wf_fail; ignored].
Qed.

Lemma wf_grant_launches c id def adopt fallback d :
  wf d -> dm_conns d !! c = Some (Launching id def adopt fallback) ->
  wf (grant_launches save_ok evidence broker attach adoptProc startProc c id def adopt fallback d).
Proof.
  intros W K. apply (wf_carry _ _ _ _ _ W) in K. unfold grant_launches. cbv zeta.
  case_match; [case_match; [case_match|]|].
  all: first [apply wf_serve_on; [ignored|done|done] | apply wf_fail; ignored].
Qed.

(** Displacing leaves the record to nobody, or to the connection itself. *)
Lemma displaced c i d :
  wf d -> let d' := displace c i d in
  wf d' /\ dm_grants d' = dm_grants d /\ dm_conns d' = dm_conns d
  /\ (forall o, holdings d !! i = Some o -> exists o', holdings d' !! i = Some o' /\ ho_name o' = ho_name o
        /\ (ho_owner o' = None \/ ho_owner o' = Some c)).
Proof.
  intros W. unfold displace. destruct (dm_heap d !! i) as [g|] eqn:H; cbn.
  2: { split_and!; try done. intros o Ho. unfold holdings in Ho. by rewrite list_lookup_fmap, H in Ho. }
  rewrite (holdings_lookup _ _ _ H). destruct (bg_owner g) as [c'|] eqn:O.
  - destruct (decide (c' = c)) as [->|N].
    + split_and!; try done. intros o [= <-]. rewrite (holdings_lookup _ _ _ H). eauto.
    + destruct (detach_parts i d W) as (A & B & _ & D & _).
      split_and!; try done; [by apply wf_detach|]. intros o [= <-].
      rewrite A, list_lookup_alter_eq, (holdings_lookup _ _ _ H). cbn. eauto.
  - split_and!; try done. intros o [= <-]. rewrite (holdings_lookup _ _ _ H). eauto.
Qed.

Lemma wf_take c i d o :
  wf d -> dm_conns d !! c = Some o -> alive o -> (exists o, holdings d !! i = Some o
    /\ dm_grants d !! ho_name o = Some i /\ isFleetGrantName (ho_name o) = false
    /\ (ho_owner o = None \/ ho_owner o = Some c)) ->
  wf (if match dm_heap d !! i with
         | Some g => bool_decide (bg_owner g = Some c) && bool_decide (is_Some (bg_pump g))
         | None => false
         end then empty_ring i d else take_over pumpSize c i (empty_ring i d)).
Proof.
  intros W C Al (h & Ho & G & F & Ow). destruct (holdings_inv _ _ _ Ho) as (g & Hg & ->). rewrite Hg.
  pose proof (same_empty_ring i d) as S. assert (wf (empty_ring i d)) as W' by by eapply wf_same.
  destruct S as [A B _ D _]. cbn in *. destruct Ow as [Ow|Ow].
  - rewrite Ow. rewrite bool_decide_eq_false_2 by done. cbn [andb].
    eapply wf_take_over; [done|by rewrite A|done|by rewrite B|done|].
    rewrite D. unfold connected. by rewrite C.
  - destruct (wf_owner _ _ _ _ _ W i _ c Ho Ow) as (P & _). cbn in P.
    rewrite !bool_decide_eq_true_2 by done. done.
Qed.

Lemma wf_grant_commits c id def h d :
  wf d -> dm_conns d !! c = Some (Committing id def h) -> wf (grant_commits pumpSize c id def h d).
Proof.
  intros W C. pose proof (wf_carry _ _ _ _ _ W c _ C) as F. cbn in F. unfold grant_commits.
  match goal with |- wf (if ?b then _ else _) => destruct b end; [by apply wf_fail|].
  pose proof (wf_ensure false (d_Name def) d W) as (W1 & C1 & G1 & o & Ho & N). cbv zeta.
  destruct (ensureGrant false (d_Name def) d) as [i d1]. cbn [fst snd] in *.
  destruct (holdings_inv _ _ _ Ho) as (g & Hg & ->). rewrite Hg.
  set (d2 := if bool_decide _ then d1 else bindSeat i h d1).
  assert (same_holders d1 d2) as S2 by (unfold d2; case_match; [done|apply same_bind]).
  set (d3 := if IsEphemeralGrant def then _ else d2).
  assert (same_holders d1 d3) as S3.
  { etransitivity; [exact S2|]. unfold d3. case_match; [by apply same_on_grant|done]. }
  assert (wf d3) as W3 by by eapply wf_same. destruct S3 as [A3 B3 _ D3 _].
  destruct (displaced c i d3 W3) as (W4 & B4 & D4 & L4). cbv zeta in *.
  apply wf_serve_on; [|done|done].
  destruct (L4 (holding_of g)) as (o4 & Ho4 & N4 & Ow4); [by rewrite A3|].
  eapply (wf_take _ _ _ (Committing id def h)); [done|by rewrite D4, D3, C1|done|].
  exists o4. rewrite N4, N, B4, B3. done.
Qed.

Lemma wf_grant_replays c r id name h reclaimed lagged total rest d :
  wf d -> wf (grant_replays c r id name h reclaimed lagged total rest d).
Proof.
  intros W. unfold grant_replays. destruct rest; apply wf_serve_on; try done.
  eapply wf_same; [apply same_put_frame|done].
Qed.

(** ** Closing a connection *)

Lemma close_one_parts d kv :
  wf d -> wf (close_one d kv) /\ dm_conns (close_one d kv) = dm_conns d /\ dm_grants (close_one d kv) = dm_grants d
  /\ (forall j o c, holdings (close_one d kv) !! j = Some o -> ho_owner o = Some c ->
        holdings d !! j = Some o /\ j <> kv.2).
Proof.
  intros W. unfold close_one. destruct (dm_heap d !! kv.2) as [g|] eqn:H; cbv zeta.
  2: { split_and!; try done. intros j o c Ho O. split; [done|]. intros ->.
       unfold holdings in Ho. by rewrite list_lookup_fmap, H in Ho. }
  assert (forall d', same_holders (detachLocked kv.2 d) d' ->
            wf d' /\ dm_conns d' = dm_conns d /\ dm_grants d' = dm_grants d
            /\ (forall j o c, holdings d' !! j = Some o -> ho_owner o = Some c ->
                  holdings d !! j = Some o /\ j <> kv.2)) as K.
  { intros d' S. pose proof (wf_detach kv.2 d W) as V. destruct (detach_parts kv.2 d W) as (_ & B & _ & D & _).
    split_and!; [by eapply wf_same|by rewrite (sh_conns _ _ S)|by rewrite (sh_grants _ _ S)|].
    intros j o c. rewrite (sh_holdings _ _ S). intros L O.
    destruct (detach_lookup kv.2 j d o W L) as (o' & Ho & _ & E1 & E2).
    destruct (decide (kv.2 = j)) as [E|E]; [by rewrite (E1 E) in O|]. rewrite (E2 E). eauto. }
  apply K. case_match; [apply same_noteUnowned|done].
Qed.

Lemma close_all_parts l d :
  wf d -> wf (foldl close_one d l) /\ dm_conns (foldl close_one d l) = dm_conns d
  /\ (forall j o c, holdings (foldl close_one d l) !! j = Some o -> ho_owner o = Some c ->
        holdings d !! j = Some o /\ j ∉ l.*2).
Proof.
  revert d. induction l as [|kv l IH]; cbn; intros d W.
  { split_and!; try done. intros j o c Ho _. split; [done|set_solver]. }
  destruct (close_one_parts d kv W) as (W1 & C1 & _ & L1). destruct (IH _ W1) as (W2 & C2 & L2).
  split_and!; [done|congruence|]. intros j o c Ho O.
  destruct (L2 j o c Ho O) as [Ho1 N1]. destruct (L1 j o c Ho1 O) as [Ho2 N2]. set_solver.
Qed.

Lemma owned_places_all c d i o :
  wf d -> holdings d !! i = Some o -> ho_owner o = Some c -> i ∈ (owned_places c d).*2.
Proof.
  intros W Ho O. destruct (wf_owner _ _ _ _ _ W i o c Ho O) as (_ & G & _).
  apply list_elem_of_fmap. exists (ho_name o, i). split; [done|].
  unfold owned_places. apply filter_iff. split; [by apply elem_of_map_to_list|]. cbn.
  destruct (holdings_inv _ _ _ Ho) as (g & -> & ->). by apply bool_decide_eq_true.
Qed.

Lemma wf_conn_closes c d : wf d -> wf (conn_closes c d).
Proof.
  intros W. unfold conn_closes. cbv zeta. destruct (close_all_parts (owned_places c d) d W) as (W1 & C1 & L1).
  apply wf_serve; [done|done|]. intros i o Ho O. destruct (L1 i o c Ho O) as [Ho' N].
  destruct N. by eapply owned_places_all.
Qed.

(** ** The timers, the registry's events and the operations *)

Lemma wf_orphan_fires t d : wf d -> wf (orphan_fires t d).
Proof.
  intros W. unfold orphan_fires. destruct (liveGrant _ d) as [[i g]|] eqn:L; [|done].
  case_match; [|done]. apply live_holding in L as [Gi Hi].
  assert (wf (on_grant i (fun g => g <| bg_sub := 0%N |>) d)) as W1
    by by eapply wf_same; [apply same_on_grant|].
  pose proof (wf_drop i (ot_name t) _ W1 (or_introl Gi)) as W2. ignored.
Qed.

Lemma wf_bound fleet name h d :
  wf d ->
  let e := ensureGrant fleet name d in
  wf (match dm_heap e.2 !! e.1 with
      | Some g => if decide (bg_proc g = Some h) then e.2 else bindSeat e.1 h e.2
      | None => e.2
      end).
Proof.
  intros W. destruct (wf_ensure fleet name d W) as (W1 & _). cbv zeta in *.
  case_match; [case_decide|]; try done. by eapply wf_same; [apply same_bind|].
Qed.

Lemma wf_seat_resumed name h d : wf d -> wf (seat_resumed name h d).
Proof.
  intros W. unfold seat_resumed. cbv zeta. eapply wf_same; [apply same_noteUnowned|].
  pose proof (wf_bound false name h d W) as W1. cbv zeta in W1.
  match type of W1 with wf ?x => set (d1 := x) in * end.
  destruct (rg_agents (dm_reg d1) !! name) as [def|]; [|exact W1].
  destruct (IsEphemeralGrant def); [|exact W1]. by eapply wf_same; [apply same_on_grant|].
Qed.

Lemma wf_fleet_drops name i d : isFleetGrantName name = true -> wf d -> wf (fleet_drops name i d).
Proof.
  intros F W. unfold fleet_drops. destruct (dm_heap d !! i); [|done]. case_decide; [|done].
  apply wf_drop; [done|by right].
Qed.

Lemma wf_op_begins c id name needOwner rewind d : wf d -> wf (op_begins c id name needOwner rewind d).
Proof.
  intros W. unfold op_begins, seatFor. destruct (liveGrant name d) as [[i g]|] eqn:L; [|by apply wf_fail].
  apply live_holding in L as [Gi Hi]. destruct (bg_proc g); [|by apply wf_fail].
  destruct (needOwner && _); [by apply wf_fail|]. apply wf_serve_on; [done| |done]. cbn.
  unfold holdings. rewrite length_fmap. by eapply lookup_lt_Some.
Qed.

Lemma wf_op_ends c id name i h rewind next ok d : wf d -> wf (op_ends c id name i h rewind next ok d).
Proof.
  intros W. unfold op_ends. cbv zeta.
  match goal with |- wf (if ok then serve c _ ?x else _) => assert (wf x) as W1 end.
  { destruct next; [|done]. case_match; [|done]. by eapply wf_same; [apply same_bind|]. }
  destruct ok; [by apply wf_serve_on|by apply wf_fail].
Qed.

Lemma wf_handles c ok r next h d d' :
  wf d -> dm_conns d !! c = Some h ->
  handles pumpSize save_ok evidence broker attach adoptProc startProc c ok r next h d = Some d' -> wf d'.
Proof.
  intros W C. destruct h; cbn [handles]; intros [=]; subst d'.
  - by apply wf_grant_registers.
  - by apply wf_grant_launches.
  - by apply wf_grant_commits.
  - apply wf_serve_on; [ignored|done|done].
  - by apply wf_grant_replays.
  - by apply wf_release_settles.
  - unfold release_parks. apply wf_serve_on; [|done|done]. eapply wf_same; [apply same_notify|]. ignored.
  - apply wf_serve_on; [ignored|done|done].
  - apply wf_serve_on; [ignored|done|done].
  - by apply wf_op_ends.
  - apply wf_serve_on; [|done|done]. by eapply wf_same; [apply same_put_frame|].
  - apply wf_serve; [ignored|done|]. intros i o Ho O.
    destruct (wf_owner _ _ _ _ _ W i o c Ho O) as (_ & _ & _ & K). unfold connected in K. by rewrite C in K.
Qed.

Lemma wf_exec l d d' : wf d -> exec l d = Some d' -> wf d'.
Proof.
  intros W. destruct l; cbn [Grants.exec].
  - destruct (dm_conns d !! c) eqn:C; [done|]. intros [= <-]. by apply wf_serve_on.
  - destruct (idle c d); [|done]. intros [= <-]. destruct (isFleetGrantName _) eqn:F; [by apply wf_fail|].
    by apply wf_grant_begins.
  - destruct (idle c d); [|done]. intros [= <-]. destruct (isFleetGrantName _) eqn:F; [by apply wf_fail|].
    by apply wf_release_begins.
  - destruct (idle c d); [|done]. intros [= <-]. by apply wf_op_begins.
  - destruct (dm_conns d !! c) as [h|] eqn:C; [|done]. by apply wf_handles.
  - destruct (idle c d); [|done]. intros [= <-]. by apply wf_conn_closes.
  - intros [= <-]. by apply wf_publish.
  - intros H. eapply (wf_pump_steps p _ _ WroteOK); eauto.
  - intros H. eapply wf_pump_steps; eauto.
  - intros H. eapply (wf_pump_steps p _ _ WroteOK); eauto.
  - case_match; [|done]. intros [= <-]. ignored.
  - destruct (dm_timers d !! k); [|done]. case_match; [|done]. intros [= <-]. apply wf_orphan_fires. ignored.
  - case_match; [|done]. intros [= <-]. ignored.
  - destruct (dm_notices d !! k) as [[c f]|]; [|done]. intros [= <-].
    eapply wf_same; [apply same_put_frame|]. ignored.
  - intros [= <-]. by apply wf_seat_resumed.
  - intros [= <-]. unfold seat_gone. destruct (liveGrant name d) as [[i g]|]; [|done].
    case_decide; [|done]. destruct (bg_owner g); [ignored|done].
  - destruct (isFleetGrantName name); [|done]. intros [= <-]. by apply wf_bound.
  - destruct (isFleetGrantName name) eqn:F; [|done]. intros [= <-]. by apply wf_fleet_drops.
  - destruct (dm_refresh d); [done|]. intros [= <-]. ignored.
  - destruct (dm_refresh d); [|done]. intros [= <-]. ignored.
Qed.

Lemma wf_reachable d : reachable d -> wf d.
Proof.
  induction 1 as [|d d' R W [l E]]; [|by eapply wf_exec].
  split; cbn; try done.
Qed.
End Steps.
