(* ===== verification/GrantsLog.v ===== *)
(** * GrantsLog: where every event of a seat is

    The invariant of the channels, the rings and the logs of what was accepted,
    and that each step of the daemon keeps it. *)

From S2P Require Import Prelude GoLib GoJson WireTypes RegistryTypes Registry Control RegistryHost Ephemeral SeatClaims Grants GrantsFacts.
From S2P Require Import FleetNames.

(** ** Where an event can be *)

Definition hist_of (d : daemon) (i : nat) : history := default no_history (dm_hist d !! i).
Definition in_log (d : daemon) (i : nat) : list string := hi_in (hist_of d i).
Definition ring_of (d : daemon) (i : nat) : list string :=
  match dm_heap d !! i with Some g => bg_ring g | None => [] end.

Definition is_returned (s : settled) : bool := match s with Returned _ => true | _ => false end.
Definition kept (p : pump) : list string :=
  (settled_raw <$> List.filter (fun s => negb (is_returned s)) (pu_settled p)) ++ in_hand (pu_phase p) ++ pu_queue p.

(** What the channels made for a record hold, or have written or dropped. *)
Definition piece (i : nat) (p : pump) : list string := if decide (pu_grant p = i) then kept p else [].
Definition pumped (i : nat) (l : list pump) : list string := concat (piece i <$> l).

Definition accounted_for (d : daemon) (i : nat) : list string :=
  pumped i (dm_pumps d) ++ ring_of d i ++ hi_cut (hist_of d i) ++ hi_replay (hist_of d i).

(** The events of a seat on a connection, and those of them a channel wrote. *)
Definition event_of (name : string) (f : frame) : option string :=
  match f with AgentEvent n raw => if decide (n = name) then Some raw else None | _ => None end.
Definition wire_events (d : daemon) (c : nat) (name : string) : list string :=
  omap (event_of name) (default [] (dm_wire d !! c)).
Definition written_raw (s : settled) : option string := match s with Written r => Some r | _ => None end.

Record pump_ok (p : pump) : Prop := {
  po_fifo : pu_put p = (settled_raw <$> pu_settled p) ++ in_hand (pu_phase p) ++ pu_queue p;
  po_cap : length (pu_queue p) <= pu_cap p;
  po_returned : pu_phase p <> PEnded -> List.filter is_returned (pu_settled p) = [] }.

Record ring_ok (g : brokerGrant) (h : history) : Prop := {
  ro_cap : length (bg_ring g) <= brokerUnownedRingCap;
  ro_told : hi_told h <= length (hi_cut h);
  ro_lag : bg_lag g = bool_decide (hi_told h < length (hi_cut h)) }.

(** [more] are events between two places. *)
Record logs_but (more : nat -> list string) (d : daemon) : Prop := {
  lg_len : length (dm_hist d) = length (dm_heap d);
  lg_acc : forall i, in_log d i ≡ₚ accounted_for d i ++ more i;
  lg_pump : forall p pu, dm_pumps d !! p = Some pu -> pump_ok pu;
  lg_from : forall i g p pu, dm_heap d !! i = Some g -> bg_pump g = Some p -> dm_pumps d !! p = Some pu ->
      pu_put pu = drop (pu_from pu) (in_log d i) /\ pu_from pu <= length (in_log d i);
  lg_ring : forall i g, dm_heap d !! i = Some g -> ring_ok g (hist_of d i);
  lg_wire : forall p pu g, dm_pumps d !! p = Some pu -> dm_heap d !! pu_grant pu = Some g ->
      omap written_raw (pu_settled pu) `sublist_of` wire_events d (pu_conn pu) (bg_name g) }.

Arguments lg_len {more} d _.
Arguments lg_acc {more} d _ i.
Arguments lg_pump {more} d _ p pu _.
Arguments lg_from {more} d _ i g p pu _ _ _.
Arguments lg_ring {more} d _ i g _.
Arguments lg_wire {more} d _ p pu g _ _.

Abbreviation logs := (logs_but (fun _ => [])).

(** ** Steps that leave the logs alone, or only detach *)

Record same_log_part (g g' : brokerGrant) : Prop := {
  sl_name : bg_name g' = bg_name g;
  sl_ring : bg_ring g' = bg_ring g;
  sl_lag : bg_lag g' = bg_lag g;
  sl_pump : bg_pump g' = bg_pump g \/ bg_pump g' = None }.

Definition open_pump (p : pump) : pump := p <| pu_closed := false |>.

Record same_logs (d d' : daemon) : Prop := {
  se_heap : Forall2 same_log_part (dm_heap d) (dm_heap d');
  se_pumps : open_pump <$> dm_pumps d' = open_pump <$> dm_pumps d;
  se_hist : dm_hist d' = dm_hist d;
  se_wire : forall c, default [] (dm_wire d !! c) `prefix_of` default [] (dm_wire d' !! c) }.

#[export] Instance same_log_part_refl : Reflexive same_log_part.
Proof. intros g. split; auto. Qed.
#[export] Instance same_log_part_trans : Transitive same_log_part.
Proof.
  intros a b c [? ? ? P] [? ? ? [Q|Q]]; split; try congruence; rewrite Q; auto.
Qed.
#[export] Instance same_logs_refl : Reflexive same_logs.
Proof. intros d. split; [reflexivity|reflexivity|reflexivity|]. by intros ?. Qed.
#[export] Instance same_logs_trans : Transitive same_logs.
Proof. intros a b c [] []. split; [by etrans|congruence|congruence|]. intros k. etrans; eauto. Qed.

Lemma open_lookup d d' p pu' :
  open_pump <$> dm_pumps d' = open_pump <$> dm_pumps d -> dm_pumps d' !! p = Some pu' ->
  exists pu, dm_pumps d !! p = Some pu /\ open_pump pu' = open_pump pu.
Proof.
  intros E H. assert ((open_pump <$> dm_pumps d) !! p = Some (open_pump pu')) as K.
  { rewrite <-E, list_lookup_fmap, H. done. }
  rewrite list_lookup_fmap, fmap_Some in K. naive_solver.
Qed.

Lemma kept_open p : kept (open_pump p) = kept p.
Proof. by destruct p. Qed.

Lemma piece_open i p : piece i (open_pump p) = piece i p.
Proof. unfold piece. by rewrite kept_open. Qed.

Lemma pumped_open i l l' : open_pump <$> l = open_pump <$> l' -> pumped i l = pumped i l'.
Proof.
  unfold pumped. intros E. f_equal.
  assert (forall k : list pump, piece i <$> k = piece i <$> (open_pump <$> k)) as A.
  { intros k. rewrite <-list_fmap_compose. apply list_fmap_ext. intros _ p _. cbn. by rewrite piece_open. }
  by rewrite (A l), (A l'), E.
Qed.

Lemma event_prefix d d' c name :
  default [] (dm_wire d !! c) `prefix_of` default [] (dm_wire d' !! c) ->
  wire_events d c name `prefix_of` wire_events d' c name.
Proof. unfold wire_events. intros [k ->]. rewrite omap_app. by apply prefix_app_r. Qed.

Lemma logs_same more d d' : same_logs d d' -> logs_but more d -> logs_but more d'.
Proof.
  intros [Hh Hp Hi Hw] L.
  assert (forall i g', dm_heap d' !! i = Some g' -> exists g, dm_heap d !! i = Some g /\ same_log_part g g') as Back.
  { intros i g' H. destruct (Forall2_lookup_r _ _ _ _ _ Hh H) as (g & A & B). eauto. }
  assert (forall i, hist_of d' i = hist_of d i) as Hist by (intros; unfold hist_of; by rewrite Hi).
  assert (forall i, in_log d' i = in_log d i) as In by (intros; unfold in_log; by rewrite Hist).
  split.
  - rewrite Hi, (lg_len d L). by eapply Forall2_length.
  - intros i. rewrite In, (lg_acc d L). unfold accounted_for. rewrite Hist, (pumped_open _ _ _ Hp).
    assert (ring_of d' i = ring_of d i) as ->; [|done]. unfold ring_of.
    destruct (dm_heap d' !! i) as [g'|] eqn:E.
    + destruct (Back i g' E) as (g & -> & S). apply S.
    + destruct (dm_heap d !! i) as [g|] eqn:F; [|done].
      destruct (Forall2_lookup_l _ _ _ _ _ Hh F) as (g' & G & _). congruence.
  - intros p pu' H. destruct (open_lookup d d' p pu' Hp H) as (pu & E & O).
    destruct (lg_pump d L p pu E) as [A B C]. destruct pu, pu'. injection O as -> -> -> -> -> -> -> ->. done.
  - intros i g' p pu' H P Q. destruct (Back i g' H) as (g & G & S). destruct (open_lookup d d' p pu' Hp Q) as (pu & E & O).
    destruct (sl_pump _ _ S) as [T|T]; [|congruence]. rewrite In.
    destruct (lg_from d L i g p pu G) as [A B]; [congruence|done|].
    destruct pu, pu'. injection O as -> -> -> -> -> -> -> ->. done.
  - intros i g' H. destruct (Back i g' H) as (g & G & S). rewrite Hist.
    destruct (lg_ring d L i g G) as [A B C]. destruct S as [_ R La _]. split; congruence.
  - intros p pu' g' Q H. destruct (open_lookup d d' p pu' Hp Q) as (pu & E & O).
    destruct (Back _ g' H) as (g & G & S). rewrite (sl_name _ _ S).
    destruct pu as [gr c cap q cl ph from put st], pu' as [gr' c' cap' q' cl' ph' from' put' st'].
    injection O as -> -> -> -> -> -> -> ->. cbn in *.
    pose proof (lg_wire d L p _ g E G) as W. cbn in W.
    destruct (event_prefix d d' c (bg_name g) (Hw c)) as [k ->]. by apply sublist_inserts_r.
Qed.

Lemma Forall2_alter_r {A} (R : A -> A -> Prop) `{!Reflexive R} f i (l : list A) :
  (forall x, R x (f x)) -> Forall2 R l (alter f i l).
Proof. intros H. revert i. induction l as [|x l IH]; intros [|i]; cbn; constructor; auto; by reflexivity || done. Qed.

Lemma slog_on_grant i f d : (forall g, same_log_part g (f g)) -> same_logs d (on_grant i f d).
Proof. intros H. split; try done. by apply Forall2_alter_r; [apply _|]. Qed.

Lemma slog_ignored d d' :
  dm_heap d' = dm_heap d -> dm_pumps d' = dm_pumps d -> dm_hist d' = dm_hist d -> dm_wire d' = dm_wire d ->
  same_logs d d'.
Proof. intros A B C D. split; rewrite ?A, ?B, ?C, ?D; [reflexivity|done|done|by intros ?]. Qed.

Lemma slog_arm i g d : same_logs d (armEphemeralOrphan i g d).
Proof.
  unfold armEphemeralOrphan. cbv zeta.
  transitivity (on_grant i (fun g' => g' <| bg_orphanGen := (bg_orphanGen g + 1)%N |>) d).
  - apply slog_on_grant. intros g'. by split; auto.
  - by apply slog_ignored.
Qed.

Lemma slog_noteUnowned name d : same_logs d (noteUnowned name d).
Proof. unfold noteUnowned. destruct (liveGrant name d) as [[i g]|]; [|done]. case_match; [apply slog_arm|done]. Qed.

Lemma slog_bind i h d : same_logs d (bindSeat i h d).
Proof.
  unfold bindSeat. cbv zeta. set (f := fun g : brokerGrant => _).
  transitivity (on_grant i f d); [|by apply slog_ignored]. apply slog_on_grant. intros g'. by split; auto.
Qed.

Lemma slog_notify o n r d : same_logs d (notifyDetached o n r d).
Proof. destruct o; by apply slog_ignored. Qed.

Lemma slog_put_frame c f r d : same_logs d (put_frame c f r d).
Proof.
  destruct r; try by apply slog_ignored. split; [reflexivity|done|done|]. intros c'. cbn. destruct (decide (c' = c)) as [->|N].
  - rewrite lookup_insert_eq. by apply prefix_app_r.
  - by rewrite lookup_insert_ne.
Qed.

Lemma slog_detach i d : same_logs d (detachLocked i d).
Proof.
  unfold detachLocked. destruct (dm_heap d !! i) as [g|]; [|done]. cbv zeta.
  match goal with |- same_logs d (on_grant i ?f ?x) => transitivity x end.
  - destruct (bg_pump g); [|done]. unfold close_pump. destruct (dm_pumps d !! _); [|done].
    case_match; [by apply slog_ignored|]. split; [reflexivity| |done|by intros ?]. unfold on_pump. cbn.
    by apply fmap_alter_same.
  - apply slog_on_grant. intros g'. by split; auto.
Qed.

Lemma slog_drop i name d : same_logs d (dropGrant i name d).
Proof. unfold dropGrant. transitivity (detachLocked i d); [apply slog_detach|by apply slog_ignored]. Qed.

(** ** Records made, taken over and emptied *)

Lemma pumped_app i l k : pumped i (l ++ k) = pumped i l ++ pumped i k.
Proof. unfold pumped. by rewrite fmap_app, concat_app. Qed.

Lemma pumped_alter i f p l pu :
  l !! p = Some pu -> pumped i (alter f p l) ++ piece i pu ≡ₚ pumped i l ++ piece i (f pu).
Proof.
  revert p. induction l as [|x l IH]; intros [|p] H; try done; cbn in H.
  - injection H as ->. unfold pumped. cbn. by rewrite <-!app_assoc, Permutation_app_comm, <-app_assoc,
      (Permutation_app_comm (concat _)), (app_assoc (piece i pu)), <-!app_assoc, (Permutation_app_comm (piece i (f pu))).
  - specialize (IH p H). unfold pumped in *. cbn. by rewrite <-!app_assoc, IH.
Qed.

Lemma hist_after d i j f :
  length (dm_hist d) = length (dm_heap d) -> is_Some (dm_heap d !! i) ->
  hist_of (on_hist i f d) j = if decide (i = j) then f (hist_of d j) else hist_of d j.
Proof.
  intros L S. unfold hist_of, on_hist. cbn. rewrite list_lookup_alter. case_decide as E; [|done]. subst j.
  apply lookup_lt_is_Some_1 in S. rewrite <-L in S. apply lookup_lt_is_Some_2 in S as [h ->]. done.
Qed.

Lemma logs_ensure fleet name d :
  wf d -> logs d -> logs (ensureGrant fleet name d).2.
Proof.
  intros W L. unfold ensureGrant. destruct (dm_grants d !! name); [done|]. cbn [snd]. set (d' := _ : daemon).
  assert (forall i, hist_of d' i = hist_of d i) as Hi.
  { intros i. unfold hist_of, d'. cbn. destruct (dm_hist d !! i) as [h|] eqn:E.
    - by rewrite (lookup_app_l_Some _ _ _ _ E).
    - apply lookup_ge_None in E. rewrite lookup_app_r by done.
      destruct (i - length (dm_hist d)) as [|[]]; done. }
  assert (forall i g, dm_heap d' !! i = Some g ->
            dm_heap d !! i = Some g \/ i = length (dm_heap d) /\ g = new_grant fleet name) as Hh.
  { intros i g H. apply lookup_app_Some in H as [H|[Hl H]]; [by left|right].
    apply list_lookup_singleton_Some in H as [? <-]. split; [lia|done]. }
  split.
  - unfold d'. cbn. rewrite !length_app, (lg_len d L). done.
  - intros i. unfold in_log, accounted_for. rewrite Hi. etrans; [apply (lg_acc d L)|].
    unfold accounted_for. change (dm_pumps d') with (dm_pumps d).
    assert (ring_of d' i = ring_of d i) as ->; [|done]. unfold ring_of.
    destruct (dm_heap d' !! i) as [g|] eqn:E.
    + destruct (Hh i g E) as [->|[-> ->]]; [done|]. by rewrite lookup_ge_None_2.
    + apply lookup_ge_None in E. unfold d' in E. cbn in E. rewrite length_app in E.
      by rewrite lookup_ge_None_2 by lia.
  - apply (lg_pump d L).
  - intros i g p pu [H|[-> ->]]%Hh; [|done]. unfold in_log. rewrite Hi. by apply (lg_from d L).
  - intros i g [H|[-> ->]]%Hh; rewrite Hi; [by apply (lg_ring d L)|].
    unfold hist_of. rewrite lookup_ge_None_2 by (rewrite (lg_len d L); lia). split; cbn; [lia..|done].
  - intros p pu g Hp Hg. apply Hh in Hg as [Hg|[E ->]]; [by apply (lg_wire d L p)|].
    apply channels_lookup in Hp. destruct (wf_open _ _ _ _ _ W _ _ Hp) as (o & Ho & _).
    apply lookup_lt_Some in Ho. unfold holdings in Ho. rewrite length_fmap in Ho. cbn in Ho. lia.
Qed.

Lemma ring_after d i f j :
  ring_of (on_grant i f d) j
  = if decide (i = j) then match dm_heap d !! i with Some g => bg_ring (f g) | None => [] end else ring_of d j.
Proof.
  unfold ring_of, on_grant. cbn. rewrite list_lookup_alter. case_decide as E; [|done].
  subst. by destruct (dm_heap d !! j).
Qed.

Lemma logs_take_over size c i d : wf d -> logs d -> logs (take_over size c i d).
Proof.
  intros W L. set (p := length (dm_pumps d)).
  assert (forall q pu, dm_pumps (take_over size c i d) !! q = Some pu ->
            dm_pumps d !! q = Some pu \/ q = p /\ pu = MkPump i c (pumpCap size) [] false PWaiting
                                             (length (in_log d i)) [] []) as Ps.
  { intros q pu H. unfold take_over in H. cbn in H. apply lookup_app_Some in H as [H|[Hl H]]; [by left|right].
    apply list_lookup_singleton_Some in H as [? <-]. split; [lia|done]. }
  assert (forall j g, dm_heap (take_over size c i d) !! j = Some g -> exists g0, dm_heap d !! j = Some g0
            /\ bg_name g = bg_name g0 /\ bg_ring g = bg_ring g0 /\ bg_lag g = bg_lag g0
            /\ bg_pump g = if decide (i = j) then Some p else bg_pump g0) as Hh.
  { intros j g H. unfold take_over, on_grant in H. cbn in H.
    apply lookup_alter_some in H as (g0 & H & ->). exists g0. by case_decide. }
  assert (dm_pumps (take_over size c i d)
          = dm_pumps d ++ [MkPump i c (pumpCap size) [] false PWaiting (length (in_log d i)) [] []]) as Pe by done.
  assert (forall j, hist_of (take_over size c i d) j = hist_of d j) as Hi by done.
  split.
  - unfold take_over, on_grant. cbn. by rewrite length_alter, (lg_len d L).
  - intros j. unfold in_log, accounted_for. rewrite Hi. etrans; [apply (lg_acc d L)|].
    unfold accounted_for. rewrite Pe, pumped_app.
    assert (pumped j [MkPump i c (pumpCap size) [] false PWaiting (length (in_log d i)) [] []] = []) as E0.
    { unfold pumped, piece. cbn. by case_decide. }
    assert (ring_of (take_over size c i d) j = ring_of d j) as ->.
    { unfold take_over. rewrite ring_after. case_decide as E; [|done]. subst. unfold ring_of. cbn.
      by destruct (dm_heap d !! j). }
    by rewrite E0, !app_nil_r.
  - intros q pu [H|[-> ->]]%Ps; [by apply (lg_pump d L q)|]. split; cbn; [done|lia|done].
  - intros j g q pu (g0 & G & _ & _ & _ & P)%Hh Q H. unfold in_log. rewrite Hi. rewrite P in Q.
    case_decide as E.
    + subst j. injection Q as <-. apply Ps in H as [H|[_ ->]].
      * apply lookup_lt_Some in H. unfold p in H. lia.
      * cbn. by rewrite drop_all.
    + apply Ps in H as [H|[-> ->]]; [by apply (lg_from d L j g0 q)|]. cbn.
      destruct (wf_pump _ _ _ _ _ W j _ p (holdings_lookup _ _ _ G) Q) as (ch & C & _).
      apply lookup_lt_Some in C. unfold channels in C. rewrite length_fmap in C. unfold p in C. lia.
  - intros j g (g0 & G & _ & R & La & _)%Hh. rewrite Hi. destruct (lg_ring d L j g0 G) as [A B C].
    split; congruence.
  - intros q pu g H (g0 & G & N & _)%Hh. rewrite N. apply Ps in H as [H|[-> ->]].
    + by apply (lg_wire d L q).
    + apply sublist_nil_l.
Qed.

(** A record's ring and its log change together. *)
Lemma logs_books more more' i f k added d g :
  logs_but more d -> dm_heap d !! i = Some g ->
  (forall h, hi_in (k h) = hi_in h ++ added) ->
  (forall h, (bg_ring (f g) ++ hi_cut (k h) ++ hi_replay (k h)) ++ more' i
             ≡ₚ (bg_ring g ++ hi_cut h ++ hi_replay h) ++ more i ++ added) ->
  (forall j, i <> j -> more' j = more j) ->
  (forall h, ring_ok g h -> ring_ok (f g) (k h)) ->
  bg_name (f g) = bg_name g -> bg_pump (f g) = bg_pump g -> added = [] \/ bg_pump g = None ->
  logs_but more' (on_hist i k (on_grant i f d)).
Proof.
  intros L G In Acc Ot Ok Nm Pm Ad. set (d' := on_hist i k (on_grant i f d)).
  assert (forall j, hist_of d' j = if decide (i = j) then k (hist_of d j) else hist_of d j) as Hi.
  { intros j. unfold d'. rewrite (hist_after (on_grant i f d)).
    - done.
    - cbn. by rewrite length_alter, (lg_len d L).
    - cbn. rewrite list_lookup_alter_eq, G. by eexists. }
  assert (forall j g', dm_heap d' !! j = Some g' -> exists g0, dm_heap d !! j = Some g0
            /\ g' = if decide (i = j) then f g0 else g0) as Hh.
  { intros j g' H. by apply lookup_alter_some in H. }
  split.
  - cbn. by rewrite !length_alter, (lg_len d L).
  - intros j. unfold in_log, accounted_for. rewrite Hi.
    change (dm_pumps d') with (dm_pumps d).
    change (ring_of d' j) with (ring_of (on_grant i f d) j). rewrite ring_after, G.
    pose proof (lg_acc d L j) as A. unfold in_log, accounted_for, ring_of in A.
    case_decide as E; [|by rewrite Ot]. subst j. rewrite G in A. rewrite In, A. rewrite <-!app_assoc. f_equiv.
    rewrite (Acc (hist_of d i)) || (specialize (Acc (hist_of d i)); rewrite <-!app_assoc in Acc; by rewrite Acc).
  - apply (lg_pump d L).
  - intros j g' q pu (g0 & H & ->)%Hh Q Hp. unfold in_log. rewrite Hi. case_decide as E.
    + subst j. assert (g0 = g) as -> by congruence. rewrite Pm in Q.
      destruct Ad as [->|Ad]; [|congruence]. rewrite In, app_nil_r. by apply (lg_from d L i g q).
    + by apply (lg_from d L j g0 q).
  - intros j g' (g0 & H & ->)%Hh. rewrite Hi. case_decide as E; [|by apply (lg_ring d L)].
    subst j. assert (g0 = g) as -> by congruence. apply Ok. by apply (lg_ring d L).
  - intros q pu g' Hp (g0 & H & ->)%Hh.
    pose proof (lg_wire d L q pu g0 Hp H) as Wi. case_decide as E; [|exact Wi].
    rewrite E in *. assert (g0 = g) as -> by congruence. by rewrite Nm.
Qed.

Lemma logs_empty_ring i d : logs d -> logs (empty_ring i d).
Proof.
  intros L. unfold empty_ring. destruct (dm_heap d !! i) as [g|] eqn:G; [|done].
  eapply (logs_books _ _ i _ _ []); try done; cbn; try (intros; by rewrite ?app_nil_r).
  - intros h. solve_Permutation.
  - intros h [A B C]. split; cbn; [lia..|]. by rewrite bool_decide_eq_false_2 by lia.
  - by left.
Qed.

Lemma retained_split ring raw :
  let r := retained ring raw in
  r.1 ++ r.2 = ring ++ [raw] /\ length r.2 <= brokerUnownedRingCap /\ (length ring < brokerUnownedRingCap -> r.1 = []).
Proof.
  unfold retained. cbv zeta. cbn [fst snd]. split_and!; [apply take_drop| |].
  - rewrite length_drop. lia.
  - intros H. rewrite length_app. cbn [length]. replace (_ - _) with 0 by lia. done.
Qed.

Lemma retain_ring_ok g h raw (added : list string) :
  ring_ok g h ->
  let r := retained (bg_ring g) raw in
  ring_ok (g <| bg_ring := r.2 |> <| bg_lag ::= fun l => l || negb (bool_decide (r.1 = [])) |>)
          (h <| hi_cut ::= fun c => c ++ r.1 |>).
Proof.
  intros [A B C] r. pose proof (retained_split (bg_ring g) raw) as (_ & R & _). fold r in R. clearbody r.
  split; cbn; [done|rewrite length_app; lia|]. rewrite C, length_app.
  destruct (decide (r.1 = [])) as [E|E].
  - rewrite E, (bool_decide_eq_true_2 (_ = [])) by done. cbn. by rewrite orb_false_r, Nat.add_0_r.
  - rewrite (bool_decide_eq_false_2 (r.1 = [])) by done. cbn. rewrite orb_true_r. symmetry.
    apply bool_decide_eq_true. destruct r.1; [done|cbn; lia].
Qed.

Lemma retain_perm ring cut replay raw :
  let r := retained ring raw in
  r.2 ++ (cut ++ r.1) ++ replay ≡ₚ (ring ++ cut ++ replay) ++ [raw].
Proof.
  intros r. pose proof (retained_split ring raw) as (E & _). fold r in E.
  transitivity ((r.1 ++ r.2) ++ cut ++ replay); [|rewrite E; solve_Permutation].
  solve_Permutation.
Qed.

(** An event that nobody hears is accepted into the ring. *)
Lemma logs_accept_retain i raw d g :
  logs d -> dm_heap d !! i = Some g -> bg_pump g = None -> logs (retainUnowned i raw (accept i raw d)).
Proof.
  intros L G P. set (r := retained (bg_ring g) raw).
  assert (retainUnowned i raw (accept i raw d)
          = on_hist i (fun h => h <| hi_in ::= fun l => l ++ [raw] |> <| hi_cut ::= fun c => c ++ r.1 |>)
              (on_grant i (fun g => g <| bg_ring := r.2 |>
                                      <| bg_lag ::= fun l => l || negb (bool_decide (r.1 = [])) |>) d)) as ->.
  { unfold retainUnowned. change (dm_heap (accept i raw d)) with (dm_heap d). rewrite G. cbv zeta. fold r.
    unfold accept, on_hist, on_grant. cbn -[alter]. 
    pose proof (list_alter_alter_eq (fun h => h <| hi_cut ::= fun c => c ++ r.1 |>)
      (fun h => h <| hi_in ::= fun l => l ++ [raw] |>) (dm_hist d) i) as E.
    destruct d. unfold upd. simpl. simpl in E. f_equal. exact E. }
  eapply (logs_books _ _ i _ _ [raw]); try done.
  - intros h. cbn. rewrite app_nil_r. apply retain_perm.
  - intros h R. cbn. pose proof (retain_ring_ok g h raw [] R) as [A B C]. by split.
  - by right.
Qed.

(** An event of a failed write goes back to the ring. *)
Lemma logs_retain i raw d g :
  logs_but (fun j => if decide (i = j) then [raw] else []) d -> dm_heap d !! i = Some g ->
  logs (retainUnowned i raw d).
Proof.
  intros L G. unfold retainUnowned. rewrite G. cbv zeta. set (r := retained (bg_ring g) raw).
  eapply (logs_books _ _ i _ _ []); try done.
  - intros h. cbn. by rewrite app_nil_r.
  - intros h. cbv beta. rewrite decide_True, !app_nil_r by done. cbn. apply retain_perm.
  - intros j N. cbv beta. by rewrite decide_False.
  - intros h R. cbn. pose proof (retain_ring_ok g h raw [] R) as [A B C]. by split.
  - by left.
Qed.

(** ** The channels *)

(** One channel changes, keeping its seat, its connection and what it carries. *)
Lemma logs_on_pump more more' p f d pu :
  logs_but more d -> dm_pumps d !! p = Some pu ->
  pu_grant (f pu) = pu_grant pu -> pu_conn (f pu) = pu_conn pu ->
  pu_from (f pu) = pu_from pu -> pu_put (f pu) = pu_put pu ->
  kept (f pu) ++ more' (pu_grant pu) ≡ₚ kept pu ++ more (pu_grant pu) ->
  (forall j, pu_grant pu <> j -> more' j = more j) -> pump_ok (f pu) ->
  (forall g, dm_heap d !! pu_grant pu = Some g ->
     omap written_raw (pu_settled (f pu)) `sublist_of` wire_events d (pu_conn pu) (bg_name g)) ->
  logs_but more' (on_pump p f d).
Proof.
  intros L P Gr Cn Fr Pt Kp Ot Ok Wi. set (d' := on_pump p f d).
  assert (forall q pu', dm_pumps d' !! q = Some pu' -> exists pu0, dm_pumps d !! q = Some pu0
            /\ pu' = if decide (p = q) then f pu0 else pu0) as Ps.
  { intros q pu' H. by apply lookup_alter_some in H. }
  split; try apply L.
  - intros j. etrans; [exact (lg_acc d L j)|]. unfold accounted_for.
    change (hist_of d' j) with (hist_of d j). change (ring_of d' j) with (ring_of d j).
    change (dm_pumps d') with (alter f p (dm_pumps d)).
    pose proof (pumped_alter j f p _ _ P) as A. unfold piece in A. rewrite Gr in A.
    destruct (decide (pu_grant pu = j)) as [E|N].
    + subst j. apply (Permutation_app_inv_r (kept (f pu))).
      transitivity ((pumped (pu_grant pu) (dm_pumps d) ++ kept (f pu)) ++ ring_of d (pu_grant pu)
        ++ hi_cut (hist_of d (pu_grant pu)) ++ hi_replay (hist_of d (pu_grant pu)) ++ more (pu_grant pu));
        [solve_Permutation|]. rewrite <-A.
      transitivity ((pumped (pu_grant pu) (alter f p (dm_pumps d)) ++ ring_of d (pu_grant pu)
        ++ hi_cut (hist_of d (pu_grant pu)) ++ hi_replay (hist_of d (pu_grant pu)))
        ++ (kept pu ++ more (pu_grant pu))); [solve_Permutation|]. rewrite <-Kp. solve_Permutation.
    + rewrite !app_nil_r in A. by rewrite A, Ot.
  - intros q pu' (pu0 & H & ->)%Ps. case_decide; [|by apply (lg_pump d L q)].
    subst. by assert (pu0 = pu) as -> by congruence.
  - intros j g q pu' G Q (pu0 & H & ->)%Ps. change (in_log d' j) with (in_log d j).
    case_decide; [|by apply (lg_from d L j g q)].
    subst. assert (pu0 = pu) as -> by congruence. rewrite Fr, Pt. by apply (lg_from d L j g q).
  - intros q pu' g (pu0 & H & ->)%Ps G. case_decide; [|by apply (lg_wire d L q)].
    subst. assert (pu0 = pu) as -> by congruence. rewrite Gr in G. rewrite Cn. by apply Wi.
Qed.

Lemma filter_snoc {A} (f : A -> bool) l x : List.filter f (l ++ [x]) = List.filter f l ++ (if f x then [x] else []).
Proof. rewrite List.filter_app. cbn. by destruct (f x). Qed.

Lemma logs_takes p d d' : logs d -> pump_takes p d = Some d' -> logs d'.
Proof.
  unfold pump_takes. destruct (dm_pumps d !! p) as [pu|] eqn:P; [|done]. intros L.
  pose proof (lg_pump d L p pu P) as [Fi Ca Re].
  destruct (pu_phase pu) eqn:Ph; try done. destruct (pu_queue pu) as [|raw q] eqn:Q.
  - case_match; [|done]. intros [= <-]. eapply logs_on_pump; try done.
    + unfold kept. cbn. by rewrite ?Ph, ?Q.
    + split; cbn; [by rewrite Fi, Q|by rewrite Q|done].
    + intros g G. exact (lg_wire d L p pu g P G).
  - intros [= <-]. eapply logs_on_pump; try done.
    + unfold kept. cbn. by rewrite ?Ph, ?Q.
    + split; cbn; [by rewrite Fi|cbn in Ca; lia|intros _; by apply Re].
    + intros g G. exact (lg_wire d L p pu g P G).
Qed.

Lemma logs_writes p r d d' : logs d -> pump_writes p r d = Some d' -> logs d'.
Proof.
  unfold pump_writes. destruct (dm_pumps d !! p) as [pu|] eqn:P; [|done]. intros L.
  pose proof (lg_pump d L p pu P) as [Fi Ca Re].
  destruct (pu_phase pu) eqn:Ph; try done. destruct (dm_heap d !! pu_grant pu) as [g|] eqn:G; [|done].
  specialize (Re ltac:(done)). intros [= <-]. destruct r.
  - eapply logs_on_pump; [eapply logs_same; [apply slog_put_frame|done]|done|done|done|done|done| |done|..].
    + unfold kept. cbn. rewrite Ph, filter_snoc, fmap_app. cbn. solve_Permutation.
    + split; cbn; [by rewrite Fi, fmap_app, <-app_assoc|done|]. intros _. by rewrite filter_snoc, Re.
    + intros g' G'. cbn in G'. assert (g' = g) as -> by congruence.
      unfold wire_events. cbn. rewrite lookup_insert_eq. cbn. rewrite !omap_app. cbn.
      rewrite decide_True by done. apply sublist_app; [|done]. by apply (lg_wire d L p pu g).
  - eapply logs_on_pump; try done.
    + unfold kept. cbn. rewrite Ph, filter_snoc, fmap_app. cbn. solve_Permutation.
    + split; cbn; [by rewrite Fi, fmap_app, <-app_assoc|done|]. intros _. by rewrite filter_snoc, Re.
    + intros g' G'. cbn. rewrite omap_app. cbn. rewrite app_nil_r. exact (lg_wire d L p pu g' P G').
  - eapply logs_on_pump; try done.
    + unfold kept. cbn. by rewrite ?Ph.
    + intros g' G'. exact (lg_wire d L p pu g' P G').
Qed.


(** A failed write: the event leaves the channel and goes to the ring. *)
Lemma logs_fails p d d' : logs d -> pump_fails p d = Some d' -> logs d'.
Proof.
  unfold pump_fails. destruct (dm_pumps d !! p) as [pu|] eqn:P; [|done]. intros L.
  destruct (pu_phase pu) as [| |raw|] eqn:Ph; try done.
  destruct (dm_heap d !! pu_grant pu) as [g|] eqn:G; [|done]. set (i := pu_grant pu) in *. intros [= <-].
  set (d1 := if decide _ then _ else d).
  assert (same_logs d d1) as S.
  { unfold d1. case_decide; [|done]. transitivity (detachLocked i d); [apply slog_detach|apply slog_noteUnowned]. }
  assert (logs d1) as L1 by by eapply logs_same.
  destruct (Forall2_lookup_l _ _ _ _ _ (se_heap _ _ S) G) as (g1 & G1 & _).
  destruct (open_lookup d1 d p pu (eq_sym (se_pumps _ _ S)) P) as (pu1 & P1 & O1).
  assert (pu_phase pu1 = PFailed raw /\ pu_grant pu1 = i) as [Ph1 Gr1].
  { destruct pu, pu1. injection O1 as -> -> -> -> -> -> -> ->. done. }
  pose proof (lg_pump d1 L1 p pu1 P1) as [Fi Ca Re]. rewrite Ph1 in *. specialize (Re ltac:(done)).
  assert (on_pump p (settle (Returned raw) PEnded) (retainUnowned i raw d1)
          = retainUnowned i raw (on_pump p (settle (Returned raw) PEnded) d1)) as ->.
  { assert (dm_heap (on_pump p (settle (Returned raw) PEnded) d1) !! i = Some g1) as G2 by exact G1.
    unfold retainUnowned. by rewrite G1, G2. }
  eapply logs_retain; [|exact G1]. eapply logs_on_pump; try done.
  - rewrite Gr1. cbv beta. rewrite decide_True by done. unfold kept. cbn. rewrite Ph1, filter_snoc. cbn.
    change (raw :: pu_queue pu1) with ([raw] ++ pu_queue pu1). rewrite !app_nil_r. solve_Permutation.
  - intros j N. cbv beta. rewrite Gr1 in N. by rewrite decide_False.
  - split; cbn; [by rewrite Fi, fmap_app, <-app_assoc|done|done].
  - intros g' G'. cbn. rewrite omap_app. cbn. rewrite app_nil_r. exact (lg_wire d1 L1 p pu1 g' P1 G').
Qed.

(** An event that goes on the seat's channel. *)
Lemma logs_accept_send i raw d g p :
  wf d -> logs d -> dm_heap d !! i = Some g -> bg_pump g = Some p -> room p d = true ->
  logs (send_pump p raw (accept i raw d)).
Proof.
  intros W L G P R. destruct (pump_open d i g p W G P) as (pu & Pu & Gr & Cl & Ow).
  assert (is_Some (dm_heap d !! i)) as Si by by eexists.
  set (f := fun pu : pump => pu <| pu_queue ::= fun q => q ++ [raw] |> <| pu_put ::= fun q => q ++ [raw] |>).
  assert (send_pump p raw (accept i raw d) = on_pump p f (accept i raw d)) as ->.
  { unfold send_pump. change (dm_pumps (accept i raw d)) with (dm_pumps d). by rewrite Pu, Cl. }
  unfold room in R. rewrite Pu in R. apply bool_decide_eq_true in R.
  set (d' := on_pump p f (accept i raw d)).
  assert (forall j, hist_of d' j = if decide (i = j) then (hist_of d j) <| hi_in ::= fun l => l ++ [raw] |> else hist_of d j) as Hi.
  { intros j. change (hist_of d' j) with (hist_of (accept i raw d) j). by apply hist_after; [apply L|]. }
  assert (forall q pu', dm_pumps d' !! q = Some pu' -> exists pu0, dm_pumps d !! q = Some pu0
            /\ pu' = if decide (p = q) then f pu0 else pu0) as Ps.
  { intros q pu' H. by apply lookup_alter_some in H. }
  pose proof (lg_pump d L p pu Pu) as [Fi Ca Re].
  split.
  - cbn. by rewrite length_alter, (lg_len d L).
  - intros j. unfold in_log, accounted_for. rewrite Hi. change (dm_pumps d') with (alter f p (dm_pumps d)).
    change (ring_of d' j) with (ring_of d j).
    pose proof (lg_acc d L j) as A. unfold in_log, accounted_for in A.
    pose proof (pumped_alter j f p _ _ Pu) as B. unfold piece in B. change (pu_grant (f pu)) with (pu_grant pu) in B.
    assert (kept (f pu) = kept pu ++ [raw]) as K by (unfold kept; cbn; by rewrite <-!app_assoc).
    rewrite Gr in B. case_decide as E.
    + subst j. cbn. rewrite A. apply (Permutation_app_inv_r (kept pu)). rewrite K in B.
      rewrite <-!app_assoc. transitivity ((pumped i (dm_pumps d) ++ kept pu ++ [raw]) ++ ring_of d i ++
        hi_cut (hist_of d i) ++ hi_replay (hist_of d i)); [solve_Permutation|]. rewrite <-B. solve_Permutation.
    + rewrite !app_nil_r in B. by rewrite B.
  - intros q pu' (pu0 & H & ->)%Ps. case_decide; [|by apply (lg_pump d L q)]. subst q.
    assert (pu0 = pu) as -> by congruence. split; cbn.
    + by rewrite Fi, <-!app_assoc.
    + rewrite length_app. cbn. lia.
    + done.
  - intros j g' q pu' G' Q (pu0 & H & ->)%Ps. unfold in_log. rewrite Hi. case_decide as E.
    + subst q. assert (pu0 = pu) as -> by congruence.
      destruct (pump_open d j g' p W G' Q) as (pu2 & Pu2 & Gr2 & _). assert (pu2 = pu) as -> by congruence.
      assert (j = i) as -> by congruence. rewrite decide_True by done. cbn.
      destruct (lg_from d L i g' p pu G' Q Pu) as [A B]. unfold in_log in A, B. split.
      * rewrite drop_app_le by done. by rewrite A.
      * rewrite length_app. lia.
    + destruct (lg_from d L j g' q pu0 G' Q H) as [A B]. case_decide as F; [|done]. subst j.
      exfalso. apply E. change (dm_heap d !! i = Some g') in G'. congruence.
  - intros j g' G'. rewrite Hi. pose proof (lg_ring d L j g' G') as [A B C].
    destruct (decide (i = j)); split; first [exact A|exact B|exact C].
  - intros q pu' g' (pu0 & H & ->)%Ps G'. case_decide; [|exact (lg_wire d L q pu0 g' H G')].
    subst q. assert (pu0 = pu) as -> by congruence. exact (lg_wire d L p pu g' H G').
Qed.

Section Steps.
Context {UC : Unicode} {JS : Json} {OS : Host} (rfc3339 : string -> bool).
Context (EncodeEventWire : TurnWait.Event -> option string) (pumpSize : Z) (git_roots : string -> bool).
Context (save_ok evidence : Registry -> bool) (broker : option (Config -> option proc * option start_error)).
Context (attach : option (option (list MCPServer) -> option (list MCPServer))).
Context (adoptProc startProc : Config -> option proc * option start_error).

Abbreviation exec := (exec rfc3339 EncodeEventWire pumpSize git_roots save_ok evidence broker attach adoptProc startProc).
Abbreviation reachable :=
  (reachable rfc3339 EncodeEventWire pumpSize git_roots save_ok evidence broker attach adoptProc startProc).

(** Detaching, noting and telling do not look at the log of what was accepted. *)
Lemma detach_accept i j raw d : detachLocked i (accept j raw d) = accept j raw (detachLocked i d).
Proof.
  unfold detachLocked, close_pump. change (dm_heap (accept j raw d)) with (dm_heap d).
  destruct (dm_heap d !! i) as [g|]; [|done]. cbv zeta. destruct (bg_pump g) as [p|]; [|done].
  change (dm_pumps (accept j raw d)) with (dm_pumps d). destruct (dm_pumps d !! p) as [pu|]; [|done].
  by destruct (pu_closed pu).
Qed.

Lemma note_accept name j raw d : noteUnowned name (accept j raw d) = accept j raw (noteUnowned name d).
Proof.
  unfold noteUnowned, liveGrant. change (dm_grants (accept j raw d)) with (dm_grants d).
  change (dm_heap (accept j raw d)) with (dm_heap d). destruct (dm_grants d !! name) as [i|]; [|done].
  destruct (dm_heap d !! i) as [g|]; cbn [fmap option_fmap option_map]; [|done]. by case_match.
Qed.

Lemma notify_accept o n r j raw d : notifyDetached o n r (accept j raw d) = accept j raw (notifyDetached o n r d).
Proof. by destruct o. Qed.

Lemma logs_publish name ev d : wf d -> logs d -> logs (publish EncodeEventWire name ev d).
Proof.
  intros W L. unfold publish. case_match; [done|]. destruct (EncodeEventWire ev) as [raw|]; [|done].
  destruct (liveGrant name d) as [[i g]|] eqn:E; [|done]. destruct (bg_fleet g); [done|].
  apply live_holding in E as [Gi Hi]. cbv zeta. destruct (bg_pump g) as [p|] eqn:P.
  - change (room p (accept i raw d)) with (room p d). destruct (room p d) eqn:R.
    + by eapply logs_accept_send.
    + rewrite detach_accept, note_accept, notify_accept.
      set (d1 := notifyDetached _ _ _ _).
      assert (same_logs (detachLocked i d) d1) as S.
      { unfold d1. etrans; [apply slog_noteUnowned|apply slog_notify]. }
      assert (exists g0, dm_heap (detachLocked i d) !! i = Some g0 /\ bg_pump g0 = None) as (g0 & G0 & P0).
      { unfold detachLocked. rewrite Hi. cbv zeta. rewrite P. cbn.
        assert (dm_heap (close_pump p d) = dm_heap d) as ->.
        { unfold close_pump. repeat case_match; done. }
        rewrite list_lookup_alter_eq, Hi. cbn. eauto. }
      destruct (Forall2_lookup_l _ _ _ _ _ (se_heap _ _ S) G0) as (g1 & G1 & Sg).
      eapply logs_accept_retain; [|exact G1|destruct (sl_pump _ _ Sg); congruence].
      eapply logs_same; [exact S|]. eapply logs_same; [apply slog_detach|done].
  - by eapply logs_accept_retain.
Qed.

Lemma logs_ignored d d' :
  logs d -> dm_heap d' = dm_heap d -> dm_pumps d' = dm_pumps d -> dm_hist d' = dm_hist d ->
  dm_wire d' = dm_wire d -> logs d'.
Proof. intros L A B C D. eapply logs_same; [by apply slog_ignored|done]. Qed.

Ltac quiet := eapply logs_ignored; [done|done..].
Ltac by_same lem := eapply logs_same; [apply lem|].

Lemma logs_on_grant i f d : (forall g, same_log_part g (f g)) -> logs d -> logs (on_grant i f d).
Proof. intros H. by apply logs_same, slog_on_grant. Qed.

Ltac part := intros; by split; auto.

Lemma logs_begins c req files uuid remaining mkdir d :
  logs d -> logs (grant_begins rfc3339 git_roots c req files uuid remaining mkdir d).
Proof. intros L. unfold grant_begins. cbv zeta. repeat (case_match; try quiet). Qed.

Lemma logs_release c req busy d : logs d -> logs (release_begins c req busy d).
Proof.
  intros L. unfold release_begins. destruct (release_checks c req d) as [[[? ?] ?]|]; [quiet|]. cbv zeta.
  case_decide; [|case_decide; [|quiet]]; destruct (liveGrant _ d) as [[i g]|]; try quiet.
  - eapply (logs_ignored (noteUnowned (rr_Name req) (detachLocked i d))); try done.
    by_same slog_noteUnowned. by_same slog_detach. done.
  - destruct (bg_stopping g); [quiet|].
    assert (logs (on_grant i (fun g => g <| bg_stopping := true |>) d)) as L1 by by apply logs_on_grant; [part|].
    case_match; [quiet|].
    eapply (logs_ignored (dropGrant i (rr_Name req) (on_grant i (fun g => g <| bg_stopping := true |>) d))); try done.
    by_same slog_drop. done.
Qed.

Lemma logs_commits c id def h d :
  wf d -> logs d -> logs (grant_commits pumpSize c id def h d).
Proof.
  intros W L. unfold grant_commits.
  match goal with |- logs (if ?b then _ else _) => destruct b end; [quiet|]. cbv zeta.
  pose proof (logs_ensure false (d_Name def) d W L) as L1.
  pose proof (wf_ensure false (d_Name def) d W) as (W1 & _).
  destruct (ensureGrant false (d_Name def) d) as [i d1]. cbn [fst snd] in *.
  destruct (dm_heap d1 !! i) as [g|]; [|done].
  set (d2 := if bool_decide _ then d1 else bindSeat i h d1).
  assert (logs d2 /\ wf d2) as [L2 W2].
  { unfold d2. case_match; [done|]. split; [by by_same slog_bind|by eapply wf_same; [apply same_bind|]]. }
  set (d3 := if IsEphemeralGrant def then _ else d2).
  assert (logs d3 /\ wf d3) as [L3 W3].
  { unfold d3. case_match; [|done]. split; [by apply logs_on_grant; [part|]|].
    by eapply wf_same; [apply same_on_grant|]. }
  assert (logs (displace c i d3) /\ wf (displace c i d3)) as [L4 W4].
  { split; [|by apply displaced]. unfold displace. destruct (dm_heap d3 !! i ≫= bg_owner); [|done].
    case_decide; [done|]. by by_same slog_detach. }
  pose proof (logs_empty_ring i _ L4) as L5.
  assert (wf (empty_ring i (displace c i d3))) as W5 by by eapply wf_same; [apply same_empty_ring|].
  match goal with |- logs (serve c ?h ?x) => eapply (logs_ignored x); try done end.
  match goal with |- logs (if ?b then _ else _) => destruct b end; [done|]. by apply logs_take_over.
Qed.

Lemma logs_closes c d : logs d -> logs (conn_closes c d).
Proof.
  intros L. unfold conn_closes. cbv zeta.
  assert (forall l d, logs d -> logs (foldl close_one d l)) as K.
  { intros l. induction l as [|kv l IH]; cbn; intros d1 L1; [done|]. apply IH. unfold close_one.
    destruct (dm_heap d1 !! kv.2) as [g|]; [|done]. cbv zeta.
    assert (logs (detachLocked kv.2 d1)) as L2 by by by_same slog_detach.
    case_match; [by by_same slog_noteUnowned|done]. }
  match goal with |- logs (serve c ?h ?x) => eapply (logs_ignored x); try done end. by apply K.
Qed.

Lemma logs_bound fleet name h d :
  wf d -> logs d ->
  let e := ensureGrant fleet name d in
  logs (match dm_heap e.2 !! e.1 with
        | Some g => if decide (bg_proc g = Some h) then e.2 else bindSeat e.1 h e.2
        | None => e.2
        end).
Proof.
  intros W L. pose proof (logs_ensure fleet name d W L) as L1. cbv zeta in *.
  destruct (dm_heap _ !! _) as [g|]; [|done]. case_decide; [done|]. by by_same slog_bind.
Qed.

Lemma logs_resumed name h d : wf d -> logs d -> logs (seat_resumed name h d).
Proof.
  intros W L. unfold seat_resumed. cbv zeta. by_same slog_noteUnowned.
  pose proof (logs_bound false name h d W L) as L1. cbv zeta in L1.
  match type of L1 with logs_but _ ?x => set (d1 := x) in * end.
  destruct (rg_agents (dm_reg d1) !! name) as [def|]; [|exact L1].
  destruct (IsEphemeralGrant def); [|exact L1]. by apply logs_on_grant; [part|].
Qed.

Lemma logs_handles c ok r next h d d' :
  wf d -> logs d ->
  handles pumpSize save_ok evidence broker attach adoptProc startProc c ok r next h d = Some d' -> logs d'.
Proof.
  intros W L. destruct h; cbn [handles]; intros [=]; subst d'; try quiet.
  - unfold grant_registers. case_match; [|quiet]. cbv zeta. case_match; [case_match|]; quiet.
  - unfold grant_launches. cbv zeta. repeat (case_match; try quiet).
  - by apply logs_commits.
  - unfold grant_replays. destruct rest; [quiet|].
    eapply (logs_ignored (put_frame c (AgentEvent name s) r d)); try done. by_same slog_put_frame. done.
  - unfold release_settles. case_bool_decide.
    + eapply (logs_ignored (dropGrant g name d)); try done. by_same slog_drop. done.
    + eapply (logs_ignored (on_grant g (fun g => g <| bg_stopping := false |>) d)); try done.
      by apply logs_on_grant; [part|].
  - unfold release_parks. match goal with |- logs (serve c ?h ?x) => eapply (logs_ignored x); try done end.
    by_same slog_notify. quiet.
  - unfold op_ends. cbv zeta.
    match goal with |- logs (if ok then serve c _ ?x else _) => assert (logs x) as L1 end.
    { destruct next; [|done]. case_match; [|done]. by by_same slog_bind. }
    destruct ok; quiet.
  - eapply (logs_ignored (put_frame c f r d)); try done. by_same slog_put_frame. done.
Qed.

Lemma logs_exec l d d' : wf d -> logs d -> exec l d = Some d' -> logs d'.
Proof.
  intros W L. destruct l; cbn [Grants.exec].
  - destruct (dm_conns d !! c); [done|]. intros [= <-]. quiet.
  - destruct (idle c d); [|done]. intros [= <-]. case_match; [quiet|]. by apply logs_begins.
  - destruct (idle c d); [|done]. intros [= <-]. case_match; [quiet|]. by apply logs_release.
  - destruct (idle c d); [|done]. intros [= <-]. unfold op_begins. case_match; [case_match|]; quiet.
  - destruct (dm_conns d !! c) as [h|]; [|done]. by apply logs_handles.
  - destruct (idle c d); [|done]. intros [= <-]. by apply logs_closes.
  - intros [= <-]. by apply logs_publish.
  - by apply logs_takes.
  - by apply logs_writes.
  - by apply logs_fails.
  - case_match; [|done]. intros [= <-]. quiet.
  - destruct (dm_timers d !! k) as [t|]; [|done]. case_match; [|done]. intros [= <-]. unfold orphan_fires.
    destruct (liveGrant _ _) as [[i g]|]; [|quiet]. case_match; [|quiet].
    eapply (logs_ignored (dropGrant i (ot_name t) (on_grant i (fun g => g <| bg_sub := 0%N |>)
      (d <| dm_timers ::= delete k |>)))); try done.
    by_same slog_drop. apply logs_on_grant; [part|]. quiet.
  - case_match; [|done]. intros [= <-]. quiet.
  - destruct (dm_notices d !! k) as [[c f]|]; [|done]. intros [= <-]. by_same slog_put_frame. quiet.
  - intros [= <-]. by apply logs_resumed.
  - intros [= <-]. unfold seat_gone. repeat (case_match; try quiet; try done).
  - destruct (isFleetGrantName name); [|done]. intros [= <-]. by apply logs_bound.
  - destruct (isFleetGrantName name); [|done]. intros [= <-]. unfold fleet_drops.
    destruct (dm_heap d !! i); [|done]. case_decide; [|done]. by by_same slog_drop.
  - destruct (dm_refresh d); [done|]. intros [= <-]. quiet.
  - destruct (dm_refresh d); [|done]. intros [= <-]. quiet.
Qed.

Lemma logs_reachable d : reachable d -> logs d.
Proof.
  induction 1 as [|d d' R L [l E]].
  - by split.
  - eapply logs_exec; [by eapply wf_reachable|done|done].
Qed.
End Steps.
