(* ===== verification/GrantsTime.v ===== *)
(** * GrantsTime: how a grant record changes

    A record's orphan generation never goes down, a seat that is being stopped is
    nobody's to take, and what the armed timers and the stops in progress say of
    the records they are for. *)

From S2P Require Import Prelude GoLib GoJson WireTypes RegistryTypes Registry Control RegistryHost Ephemeral SeatClaims Grants GrantsFacts.
From S2P Require Import FleetNames.

(** ** One record from one moment to a later one *)

Record grows (g g' : brokerGrant) : Prop := {
  gw_name : bg_name g' = bg_name g;
  gw_gen : (bg_orphanGen g <= bg_orphanGen g')%N;
  gw_owner : bg_orphanGen g' = bg_orphanGen g -> bg_owner g' = bg_owner g \/ bg_owner g' = None;
  gw_stopping : bg_stopping g = true ->
      bg_stopping g' = true /\ (bg_owner g' = bg_owner g \/ bg_owner g' = None) }.

#[export] Instance grows_refl : Reflexive grows.
Proof. intros g. split; auto; lia. Qed.
#[export] Instance grows_trans : Transitive grows.
Proof.
  intros a b c [N G O S] [N' G' O' S']. split; [congruence|lia| |].
  - intros E. destruct O as [O|O]; [lia| |]; destruct O' as [O'|O']; try lia; rewrite O'; auto.
  - intros E. destruct (S E) as [E1 P]. destruct (S' E1) as [E2 Q]. split; [done|].
    destruct Q as [->| ->]; auto.
Qed.

(** What an armed timer says of the record it was armed for. *)
Definition timer_ok (heap : list brokerGrant) (t : orphan_timer) : Prop :=
  exists g, heap !! ot_grant t = Some g /\ bg_name g = ot_name t /\ (ot_gen t <= bg_orphanGen g)%N
            /\ (bg_orphanGen g = ot_gen t -> bg_owner g = None).

Record evolves (d d' : daemon) : Prop := {
  ev_record : forall i g, dm_heap d !! i = Some g -> exists g', dm_heap d' !! i = Some g' /\ grows g g';
  ev_back : forall i g', dm_heap d' !! i = Some g' -> bg_stopping g' = true ->
      exists g, dm_heap d !! i = Some g /\ bg_stopping g = true;
  ev_table : forall n i, dm_grants d' !! n = Some i -> dm_grants d !! n = Some i \/ dm_heap d !! i = None;
  ev_timers : forall t, t ∈ dm_timers d' -> t ∈ dm_timers d \/ timer_ok (dm_heap d') t }.

Lemma timer_grows h h' t :
  (forall i g, h !! i = Some g -> exists g', h' !! i = Some g' /\ grows g g') -> timer_ok h t -> timer_ok h' t.
Proof.
  intros E (g & G & N & Le & O). destruct (E _ _ G) as (g' & G' & W). exists g'. split_and!; [done| | |].
  - by rewrite (gw_name _ _ W).
  - pose proof (gw_gen _ _ W). lia.
  - intros Q. pose proof (gw_gen _ _ W). assert (bg_orphanGen g = ot_gen t) as R by lia. specialize (O R).
    destruct (gw_owner _ _ W) as [P|P]; [congruence|congruence|done].
Qed.

#[export] Instance evolves_refl : Reflexive evolves.
Proof. intros d. split; eauto. intros i g H. exists g. split; [done|reflexivity]. Qed.
#[export] Instance evolves_trans : Transitive evolves.
Proof.
  intros a b c [A B C D] [A' B' C' D']. split.
  - intros i g H. destruct (A i g H) as (g1 & H1 & G1). destruct (A' i g1 H1) as (g2 & H2 & G2).
    exists g2. split; [done|by etrans].
  - intros i g H S. destruct (B' i g H S) as (g1 & H1 & S1). eauto.
  - intros n i H. destruct (C' n i H) as [H1|H1]; [eauto|].
    right. destruct (dm_heap a !! i) as [g|] eqn:E; [|done]. destruct (A i g E) as (? & ? & _). congruence.
  - intros t H. destruct (D' t H) as [H1|H1]; [|by right]. destruct (D t H1) as [H2|H2]; [by left|].
    right. by eapply timer_grows.
Qed.

Lemma evolves_ignored d d' :
  dm_heap d' = dm_heap d -> (forall n i, dm_grants d' !! n = Some i -> dm_grants d !! n = Some i) ->
  (forall t, t ∈ dm_timers d' -> t ∈ dm_timers d) -> evolves d d'.
Proof.
  intros A B C. split; rewrite ?A; eauto. intros i g H. exists g. split; [done|reflexivity].
Qed.

Lemma evolves_on_grant i f d :
  (forall g, dm_heap d !! i = Some g -> grows g (f g) /\ (bg_stopping (f g) = true -> bg_stopping g = true)) ->
  evolves d (on_grant i f d).
Proof.
  intros H. split; cbn.
  - intros j g G. destruct (decide (i = j)) as [->|N].
    + rewrite list_lookup_alter_eq, G. exists (f g). split; [done|by apply H].
    + rewrite list_lookup_alter_ne by done. exists g. split; [done|reflexivity].
  - intros j g' (g & G & ->)%lookup_alter_some. case_decide; [|eauto]. subst. intros S. exists g.
    split; [done|by apply H].
  - auto.
  - auto.
Qed.

(** A change that leaves name, owner, generation and stopping alone. *)
Lemma evolves_part i f d :
  (forall g, bg_name (f g) = bg_name g /\ bg_owner (f g) = bg_owner g
             /\ bg_orphanGen (f g) = bg_orphanGen g /\ bg_stopping (f g) = bg_stopping g) ->
  evolves d (on_grant i f d).
Proof.
  intros H. apply evolves_on_grant. intros g _. destruct (H g) as (A & B & C & D).
  split; [split; rewrite ?A, ?B, ?C, ?D; auto; lia|congruence].
Qed.

Ltac unchanged := apply evolves_ignored; by auto.

Lemma evolves_detach i d : evolves d (detachLocked i d).
Proof.
  unfold detachLocked. destruct (dm_heap d !! i) as [g|] eqn:G; [|reflexivity]. cbv zeta.
  match goal with |- evolves d (on_grant i ?f ?x) => transitivity x end.
  - destruct (bg_pump g); [|reflexivity]. unfold close_pump. repeat case_match; unchanged.
  - apply evolves_on_grant. intros g' _. split; [split; cbn; auto; lia|done].
Qed.

Lemma evolves_note name d : evolves d (noteUnowned name d).
Proof.
  unfold noteUnowned, liveGrant. destruct (dm_grants d !! name) as [i|] eqn:T; [|reflexivity].
  destruct (dm_heap d !! i) as [g|] eqn:G; cbn; [|reflexivity].
  case_match eqn:C; [|reflexivity]. apply andb_true_iff in C as [O%bool_decide_eq_true _].
  unfold armEphemeralOrphan. cbv zeta. set (f := fun g' : brokerGrant => _).
  assert (evolves d (on_grant i f d)) as E.
  { apply evolves_on_grant. intros g' G'. assert (g' = g) as -> by congruence. split; [|done].
    split; cbn; auto; lia. }
  split; try apply E. intros t H. cbn in H. apply elem_of_app in H as [H|H%list_elem_of_singleton]; [by left|right].
  subst t. exists (f g). cbn. rewrite list_lookup_alter_eq, G. split_and!; try done; lia.
Qed.

Lemma evolves_bind i h d : evolves d (bindSeat i h d).
Proof.
  unfold bindSeat. cbv zeta. match goal with |- evolves d ?x => transitivity (on_grant i (fun g => g <| bg_proc := Some h |> <| bg_sub := (dm_sub d + 1)%N |>) d) end.
  - by apply evolves_part.
  - unchanged.
Qed.

Lemma evolves_retain i raw d : evolves d (retainUnowned i raw d).
Proof.
  unfold retainUnowned. destruct (dm_heap d !! i); [|reflexivity]. cbv zeta.
  match goal with |- evolves d (on_hist i ?k ?x) => transitivity x; [|unchanged] end. by apply evolves_part.
Qed.

Lemma evolves_notify o n r d : evolves d (notifyDetached o n r d).
Proof. destruct o; [unchanged|reflexivity]. Qed.
Lemma evolves_put_frame c f r d : evolves d (put_frame c f r d).
Proof. destruct r; [unchanged|reflexivity..]. Qed.
Lemma evolves_serve c h d : evolves d (serve c h d).
Proof. unchanged. Qed.

Lemma evolves_empty_ring i d : evolves d (empty_ring i d).
Proof.
  unfold empty_ring. destruct (dm_heap d !! i); [|reflexivity].
  match goal with |- evolves d (on_hist i ?k ?x) => transitivity x; [|unchanged] end. by apply evolves_part.
Qed.

Lemma evolves_ensure fleet name d : evolves d (ensureGrant fleet name d).2.
Proof.
  unfold ensureGrant. destruct (dm_grants d !! name); [reflexivity|]. cbn [snd]. split; cbn.
  - intros i g H. exists g. split; [by apply lookup_app_l_Some|reflexivity].
  - intros i g H S. apply lookup_app_Some in H as [H|[_ H]]; [eauto|].
    apply list_lookup_singleton_Some in H as [_ <-]. done.
  - intros n i [[_ <-]|[_ H]]%lookup_insert_Some; [right; by apply lookup_ge_None_2|by left].
  - auto.
Qed.

Lemma evolves_drop i name d : evolves d (dropGrant i name d).
Proof.
  transitivity (detachLocked i d); [apply evolves_detach|]. apply evolves_ignored; auto.
  intros n j H. change (delete name (dm_grants (detachLocked i d)) !! n = Some j) in H.
  by apply lookup_delete_Some in H as [_ H].
Qed.

Lemma evolves_take size c i d :
  (forall g, dm_heap d !! i = Some g -> bg_stopping g = false) -> evolves d (take_over size c i d).
Proof.
  intros H. unfold take_over. cbv zeta.
  match goal with |- evolves d (on_grant i ?f ?x) => transitivity x; [unchanged|] end.
  apply evolves_on_grant. intros g G. cbn in G. specialize (H g G).
  split; [split; cbn; [done|lia|lia|congruence]|done].
Qed.

Create HintDb evolves.
#[export] Hint Resolve evolves_detach evolves_note evolves_bind evolves_retain evolves_notify evolves_put_frame
  evolves_serve evolves_empty_ring evolves_ensure evolves_drop : evolves.
#[export] Hint Extern 2 (evolves _ _) => reflexivity : evolves.

(** *** What leaves the connections' goroutines alone *)

Lemma conns_close_pump p d : dm_conns (close_pump p d) = dm_conns d.
Proof. unfold close_pump. by repeat case_match. Qed.
Lemma conns_send p raw d : dm_conns (send_pump p raw d) = dm_conns d.
Proof. unfold send_pump. by repeat case_match. Qed.
Lemma conns_detach i d : dm_conns (detachLocked i d) = dm_conns d.
Proof.
  unfold detachLocked. destruct (dm_heap d !! i) as [g|]; [|done]. cbv zeta. cbn.
  destruct (bg_pump g); [apply conns_close_pump|done].
Qed.
Lemma conns_note name d : dm_conns (noteUnowned name d) = dm_conns d.
Proof. unfold noteUnowned. destruct (liveGrant name d) as [[i g]|]; [|done]. by case_match. Qed.
Lemma conns_retain i raw d : dm_conns (retainUnowned i raw d) = dm_conns d.
Proof. unfold retainUnowned. by case_match. Qed.
Lemma conns_notify o n r d : dm_conns (notifyDetached o n r d) = dm_conns d.
Proof. by destruct o. Qed.
Lemma conns_put_frame c f r d : dm_conns (put_frame c f r d) = dm_conns d.
Proof. by destruct r. Qed.
Lemma conns_ensure fleet name d : dm_conns (ensureGrant fleet name d).2 = dm_conns d.
Proof. unfold ensureGrant. by case_match. Qed.
Lemma conns_drop i name d : dm_conns (dropGrant i name d) = dm_conns d.
Proof. apply conns_detach. Qed.
Lemma conns_displace c i d : dm_conns (displace c i d) = dm_conns d.
Proof. unfold displace. destruct (_ ≫= _); [|done]. case_decide; [done|apply conns_detach]. Qed.
Lemma conns_empty_ring i d : dm_conns (empty_ring i d) = dm_conns d.
Proof. unfold empty_ring. by case_match. Qed.
Lemma conns_closed l d : dm_conns (foldl close_one d l) = dm_conns d.
Proof.
  revert d. induction l as [|kv l IH]; cbn; intros d; [done|]. rewrite IH. unfold close_one.
  destruct (dm_heap d !! kv.2); [|done]. cbv zeta. case_match; rewrite ?conns_note; apply conns_detach.
Qed.

(** ** Every step *)

Section Steps.
Context {UC : Unicode} {JS : Json} {OS : Host} (rfc3339 : string -> bool).
Context (EncodeEventWire : TurnWait.Event -> option string) (pumpSize : Z) (git_roots : string -> bool).
Context (save_ok evidence : Registry -> bool) (broker : option (Config -> option proc * option start_error)).
Context (attach : option (option (list MCPServer) -> option (list MCPServer))).
Context (adoptProc startProc : Config -> option proc * option start_error).

Abbreviation exec := (exec rfc3339 EncodeEventWire pumpSize git_roots save_ok evidence broker attach adoptProc startProc).
Abbreviation reachable :=
  (reachable rfc3339 EncodeEventWire pumpSize git_roots save_ok evidence broker attach adoptProc startProc).
Abbreviation handles := (handles pumpSize save_ok evidence broker attach adoptProc startProc).

(** A stop sets a mark on the record: it goes on to wait for the turn, or drops
    the record at once. *)
Definition marks (i : nat) (d : daemon) : daemon := on_grant i (fun g => g <| bg_stopping := true |>) d.
Definition unmarks (i : nat) (d : daemon) : daemon := on_grant i (fun g => g <| bg_stopping := false |>) d.

Lemma release_shape c req busy d :
  let d' := release_begins c req busy d in
  evolves d d'
  \/ exists i g, liveGrant (rr_Name req) d = Some (i, g) /\
       (d' = serve c (Settling (rr_ID req) (rr_Name req) i (rr_Discard req)) (marks i d)
        \/ exists h, d' = serve c h (dropGrant i (rr_Name req) (marks i d))).
Proof.
  cbv zeta. unfold release_begins. destruct (release_checks c req d) as [[[? ?] ?]|]; [left; unchanged|]. cbv zeta.
  case_decide; [|case_decide; [|left; unchanged]]; destruct (liveGrant _ d) as [[i g]|] eqn:L; try (left; unchanged).
  - left. etrans; [apply (evolves_detach i)|]. etrans; [apply (evolves_note (rr_Name req))|]. apply evolves_serve.
  - destruct (bg_stopping g); [left; unchanged|]. right. exists i, g. split; [done|].
    case_match; [by left|right; eauto].
Qed.

Lemma evolves_commits c id def h d : evolves d (grant_commits pumpSize c id def h d).
Proof.
  unfold grant_commits.
  destruct (match liveGrant (d_Name def) d with Some (_, g) => bg_stopping g | None => false end) eqn:St; [unchanged|].
  cbv zeta. pose proof (evolves_ensure false (d_Name def) d) as E1.
  assert (forall g, dm_heap (ensureGrant false (d_Name def) d).2 !! (ensureGrant false (d_Name def) d).1 = Some g ->
            bg_stopping g = false) as N.
  { intros g. unfold ensureGrant. unfold liveGrant in St. destruct (dm_grants d !! d_Name def) as [i|]; cbn.
    - intros H. rewrite H in St. done.
    - rewrite lookup_app_r, Nat.sub_diag by lia. by intros [= <-]. }
  destruct (ensureGrant false (d_Name def) d) as [i d1]. cbn [fst snd] in *.
  destruct (dm_heap d1 !! i) as [g|] eqn:G; [|done]. specialize (N g eq_refl).
  set (d2 := if bool_decide _ then d1 else bindSeat i h d1).
  set (d3 := if IsEphemeralGrant def then _ else d2).
  assert (evolves d1 d3) as E3.
  { transitivity d2.
    - unfold d2. destruct (bool_decide _); auto with evolves.
    - unfold d3. destruct (IsEphemeralGrant def); [by apply evolves_part|reflexivity]. }
  assert (evolves d1 (empty_ring i (displace c i d3))) as E4.
  { etrans; [exact E3|]. etrans; [|apply evolves_empty_ring]. unfold displace.
    destruct (dm_heap d3 !! i ≫= bg_owner); [case_decide|]; auto with evolves. }
  etrans; [exact E1|]. etrans; [|apply evolves_serve]. etrans; [exact E4|].
  match goal with |- evolves _ (if ?b then _ else _) => destruct b end; [reflexivity|].
  apply evolves_take. intros g' G'. destruct (bg_stopping g') eqn:S; [|done].
  destruct (ev_back _ _ E4 i g' G' S) as (g0 & G0 & S0). congruence.
Qed.

Lemma evolves_closes c d : evolves d (conn_closes c d).
Proof.
  unfold conn_closes. cbv zeta. etrans; [|apply evolves_serve]. generalize (owned_places c d). intros l.
  revert d. induction l as [|kv l IH]; intros d; [reflexivity|]. cbn. etrans; [|apply IH]. unfold close_one.
  destruct (dm_heap d !! kv.2); [|reflexivity]. cbv zeta. etrans; [apply (evolves_detach kv.2)|].
  case_match; auto with evolves.
Qed.

Lemma evolves_bound fleet name h d :
  let e := ensureGrant fleet name d in
  evolves d (match dm_heap e.2 !! e.1 with
             | Some g => if decide (bg_proc g = Some h) then e.2 else bindSeat e.1 h e.2
             | None => e.2
             end).
Proof.
  cbv zeta. etrans; [apply (evolves_ensure fleet name)|]. destruct (dm_heap _ !! _); [|reflexivity].
  case_decide; auto with evolves.
Qed.

Lemma evolves_resumed name h d : evolves d (seat_resumed name h d).
Proof.
  unfold seat_resumed. cbv zeta. etrans; [|apply evolves_note].
  pose proof (evolves_bound false name h d) as E. cbv zeta in E.
  match type of E with evolves _ ?x => set (d1 := x) in * end.
  destruct (rg_agents (dm_reg d1) !! name) as [def|]; [|exact E].
  destruct (IsEphemeralGrant def); [|exact E]. etrans; [exact E|]. by apply evolves_part.
Qed.

Lemma evolves_fails p d d' : pump_fails p d = Some d' -> evolves d d'.
Proof.
  unfold pump_fails. destruct (dm_pumps d !! p) as [pu|]; [|done].
  destruct (pu_phase pu); try done. destruct (dm_heap d !! pu_grant pu); [|done]. intros [= <-].
  match goal with |- evolves d (on_pump p ?f ?x) => transitivity x; [|unchanged] end.
  etrans; [|apply evolves_retain]. case_decide; [|reflexivity].
  etrans; [apply (evolves_detach (pu_grant pu))|apply evolves_note].
Qed.

Lemma evolves_publish name ev d : evolves d (publish EncodeEventWire name ev d).
Proof.
  unfold publish. case_match; [reflexivity|]. destruct (EncodeEventWire ev) as [raw|]; [|reflexivity].
  destruct (liveGrant name d) as [[i g]|]; [|reflexivity]. destruct (bg_fleet g); [reflexivity|]. cbv zeta.
  transitivity (accept i raw d); [unchanged|]. destruct (bg_pump g) as [p|]; [|apply evolves_retain].
  case_match.
  - unfold send_pump. repeat case_match; unchanged.
  - etrans; [apply (evolves_detach i)|]. etrans; [apply (evolves_note name)|].
    etrans; [apply (evolves_notify (bg_owner g) name reason_not_reading)|apply evolves_retain].
Qed.

Lemma handles_shape c ok r next h d d' :
  handles c ok r next h d = Some d' ->
  evolves d d' \/ exists id name i discard, h = Settling id name i discard /\ dm_grants d !! name <> Some i
                     /\ d' = fail c id CodeReleaseFailed "name" name (unmarks i d).
Proof.
  destruct h; cbn [Grants.handles]; intros [=]; subst d'; try (left; unchanged).
  - left. unfold grant_registers. case_match; [|unchanged]. cbv zeta. repeat (case_match; try unchanged).
  - left. unfold grant_launches. cbv zeta. repeat (case_match; try unchanged).
  - left. apply evolves_commits.
  - left. unfold grant_replays. destruct rest; [unchanged|]. etrans; [|apply evolves_serve]. apply evolves_put_frame.
  - unfold release_settles. case_bool_decide.
    + left. etrans; [|apply evolves_serve]. apply evolves_drop.
    + right. by exists id, name, g, discard.
  - left. unfold release_parks. etrans; [|apply evolves_serve]. etrans; [|apply evolves_notify]. unchanged.
  - left. unfold op_ends. cbv zeta.
    match goal with |- evolves d (if ok then serve c _ ?x else _) => assert (evolves d x) as E end.
    { destruct next; [|reflexivity]. case_match; auto with evolves. }
    destruct ok; (etrans; [exact E|]); unchanged.
  - left. etrans; [|apply evolves_serve]. apply evolves_put_frame.
Qed.

(** The shape of a step: it evolves the records, or it is one of the two steps of
    a stop that mark and unmark a record. *)
Inductive shape (d d' : daemon) : Prop :=
| shape_evolves : evolves d d' -> shape d d'
| shape_waits c id name i g discard :
    idle c d = true -> liveGrant name d = Some (i, g) ->
    d' = serve c (Settling id name i discard) (marks i d) -> shape d d'
| shape_drops c h name i g :
    idle c d = true -> liveGrant name d = Some (i, g) -> d' = serve c h (dropGrant i name (marks i d)) -> shape d d'
| shape_unmarks c id name i discard :
    dm_conns d !! c = Some (Settling id name i discard) -> dm_grants d !! name <> Some i ->
    d' = fail c id CodeReleaseFailed "name" name (unmarks i d) -> shape d d'.

Lemma exec_shape l d d' : exec l d = Some d' -> shape d d'.
Proof.
  destruct l; cbn [Grants.exec].
  - destruct (dm_conns d !! c); [done|]. intros [= <-]. apply shape_evolves. unchanged.
  - destruct (idle c d); [|done]. intros [= <-]. apply shape_evolves. case_match; [unchanged|].
    unfold grant_begins. cbv zeta. repeat (case_match; try unchanged).
  - destruct (idle c d) eqn:Id; [|done]. intros [= <-]. case_match; [apply shape_evolves; unchanged|].
    destruct (release_shape c req busy d) as [E|(i & g & L & [E|[h E]])].
    + by apply shape_evolves.
    + rewrite E. by eapply (shape_waits _ _ c (rr_ID req) (rr_Name req) i g (rr_Discard req)).
    + rewrite E. by eapply (shape_drops _ _ c h (rr_Name req) i g).
  - destruct (idle c d); [|done]. intros [= <-]. apply shape_evolves. unfold op_begins. repeat (case_match; try unchanged).
  - destruct (dm_conns d !! c) as [h|] eqn:C; [|done]. intros H.
    destruct (handles_shape _ _ _ _ _ _ _ H) as [E|(id & name & i & discard & -> & N & ->)]; [by apply shape_evolves|].
    by eapply (shape_unmarks _ _ c id name i discard).
  - destruct (idle c d); [|done]. intros [= <-]. apply shape_evolves. apply evolves_closes.
  - intros [= <-]. apply shape_evolves. apply evolves_publish.
  - unfold pump_takes. intros H. apply shape_evolves. repeat (case_match; try done); simplify_eq; unchanged.
  - unfold pump_writes. intros H. apply shape_evolves. destruct (dm_pumps d !! p) as [pu|]; [|done].
    destruct (pu_phase pu); try done. destruct (dm_heap d !! pu_grant pu) as [g|]; [|done]. injection H as <-.
    destruct r; try unchanged.
  - intros H. apply shape_evolves. by eapply evolves_fails.
  - case_match; [|done]. intros [= <-]. apply shape_evolves. unchanged.
  - destruct (dm_timers d !! k) as [t|]; [|done]. case_match; [|done]. intros [= <-]. apply shape_evolves.
    transitivity (d <| dm_timers ::= delete k |>).
    + apply evolves_ignored; auto. cbn. intros t' H'. rewrite delete_take_drop in H'. apply elem_of_app in H' as [H'|H'].
      * apply list_elem_of_lookup in H' as (n & H'). apply lookup_take_Some in H' as [H' _]. by eapply list_elem_of_lookup_2.
      * apply list_elem_of_lookup in H' as (n & H'). rewrite lookup_drop in H'. by eapply list_elem_of_lookup_2.
    + unfold orphan_fires. destruct (liveGrant _ _) as [[i g]|]; [|reflexivity]. case_match; [|reflexivity].
      match goal with |- evolves ?x _ => transitivity (on_grant i (fun g => g <| bg_sub := 0%N |>) x) end;
        [by apply evolves_part|].
      match goal with |- evolves ?x _ => transitivity (dropGrant i (ot_name t) x) end; [apply evolves_drop|].
      unchanged.
  - case_match; [|done]. intros [= <-]. apply shape_evolves. unchanged.
  - destruct (dm_notices d !! k) as [[c f]|]; [|done]. intros [= <-]. apply shape_evolves.
    etrans; [|apply evolves_put_frame]. unchanged.
  - intros [= <-]. apply shape_evolves. apply evolves_resumed.
  - intros [= <-]. apply shape_evolves. unfold seat_gone. repeat (case_match; try unchanged).
  - destruct (isFleetGrantName name); [|done]. intros [= <-]. apply shape_evolves. apply evolves_bound.
  - destruct (isFleetGrantName name); [|done]. intros [= <-]. apply shape_evolves. unfold fleet_drops.
    destruct (dm_heap d !! i); [|reflexivity]. case_decide; [|reflexivity]. apply evolves_drop.
  - destruct (dm_refresh d); [done|]. intros [= <-]. apply shape_evolves. unchanged.
  - destruct (dm_refresh d); [|done]. intros [= <-]. apply shape_evolves. unchanged.
Qed.

(** ** Timers and stops *)

(** A record's name, owner and generation whatever the step. *)
Lemma shape_record d d' i g :
  shape d d' -> dm_heap d !! i = Some g ->
  exists g', dm_heap d' !! i = Some g' /\ bg_name g' = bg_name g /\ (bg_orphanGen g <= bg_orphanGen g')%N
    /\ (bg_orphanGen g' = bg_orphanGen g \/ bg_stopping g = true -> bg_owner g' = bg_owner g \/ bg_owner g' = None).
Proof.
  intros S G.
  assert (forall d1, evolves d d1 -> exists g', dm_heap d1 !! i = Some g' /\ bg_name g' = bg_name g
            /\ (bg_orphanGen g <= bg_orphanGen g')%N
            /\ (bg_orphanGen g' = bg_orphanGen g \/ bg_stopping g = true ->
                bg_owner g' = bg_owner g \/ bg_owner g' = None)) as Ev.
  { intros d1 E. destruct (ev_record _ _ E i g G) as (g' & G' & W). exists g'.
    split_and!; [done|apply W|apply W|]. intros [H|H]; [by apply (gw_owner _ _ W)|by apply (gw_stopping _ _ W)]. }
  assert (forall j b, exists g1, dm_heap (on_grant j (fun g => g <| bg_stopping := b |>) d) !! i = Some g1
            /\ bg_name g1 = bg_name g /\ bg_orphanGen g1 = bg_orphanGen g /\ bg_owner g1 = bg_owner g) as Mk.
  { intros j b. cbn. rewrite list_lookup_alter. case_decide; [subst|]; rewrite G; cbn; eauto. }
  destruct S as [E|c id name j g0 discard _ _ ->|c h name j g0 _ _ ->|c id name j discard _ _ ->].
  - by apply Ev.
  - destruct (Mk j true) as (g1 & G1 & A & B & C). exists g1. split_and!; [done|done|lia|auto].
  - destruct (Mk j true) as (g1 & G1 & A & B & C). fold (marks j d) in G1.
    destruct (ev_record _ _ (evolves_drop j name (marks j d)) i g1 G1) as (g2 & G2 & W).
    exists g2. split_and!; [done|rewrite (gw_name _ _ W); done|pose proof (gw_gen _ _ W); lia|].
    intros _. unfold dropGrant in G2. cbn in G2.
    assert (bg_owner g2 = bg_owner g1 \/ bg_owner g2 = None) as O; [|by rewrite C in O].
    clear -G1 G2. unfold detachLocked in G2. destruct (dm_heap (marks j d) !! j) as [g3|] eqn:G3.
    2: { assert (g2 = g1) as -> by congruence. auto. }
    cbv zeta in G2. cbn in G2. apply lookup_alter_some in G2 as (g4 & G4 & ->).
    assert (dm_heap (marks j d) !! i = Some g4) as G5.
    { destruct (bg_pump g3); [|done]. unfold close_pump in G4. repeat case_match; done. }
    assert (g4 = g1) as -> by congruence. case_decide; auto.
  - destruct (Mk j false) as (g1 & G1 & A & B & C). exists g1. split_and!; [done|done|lia|auto].
Qed.

Lemma shape_timers d d' t :
  shape d d' -> (forall t, t ∈ dm_timers d -> timer_ok (dm_heap d) t) -> t ∈ dm_timers d' -> timer_ok (dm_heap d') t.
Proof.
  intros S T H.
  assert (t ∈ dm_timers d -> timer_ok (dm_heap d') t) as Old.
  { intros O. destruct (T t O) as (g & G & N & Le & Ow).
    destruct (shape_record d d' _ g S G) as (g' & G' & N' & Le' & Ow'). exists g'.
    split_and!; [done|congruence|lia|]. intros E. assert (bg_orphanGen g = ot_gen t) as E1 by lia.
    destruct Ow' as [O'|O']; [left; lia| |done]. rewrite O'. auto. }
  destruct S as [E|c id name j g0 discard _ _ ->|c h name j g0 _ _ ->|c id name j discard _ _ ->].
  - destruct (ev_timers _ _ E t H); auto.
  - by apply Old.
  - apply Old. cbn in H. unfold detachLocked in H. repeat (case_match; cbn in H; try done).
    all: unfold close_pump in H; repeat (case_match; cbn in H; try done).
  - by apply Old.
Qed.

Lemma timers_reachable d : reachable d -> forall t, t ∈ dm_timers d -> timer_ok (dm_heap d) t.
Proof.
  induction 1 as [|d d' R IH [l E]]; [intros t H; by apply elem_of_nil in H|].
  intros t. eapply shape_timers; [|done]. by eapply exec_shape.
Qed.


(** A step run by one connection's goroutine leaves what the others do alone. *)
Definition same_else (c : nat) (d d' : daemon) : Prop :=
  forall c', c' <> c -> dm_conns d' !! c' = dm_conns d !! c'.

Lemma else_serve c h x d : dm_conns x = dm_conns d -> same_else c d (serve c h x).
Proof. intros E c' N. cbn. by rewrite lookup_insert_ne, E. Qed.

Ltac elsewhere := apply else_serve;
  rewrite ?conns_put_frame, ?conns_notify, ?conns_drop, ?conns_note, ?conns_detach, ?conns_closed; reflexivity.

Lemma commits_else c id def h d : same_else c d (grant_commits pumpSize c id def h d).
Proof.
  unfold grant_commits.
  match goal with |- context [if ?b then fail _ _ _ _ _ _ else _] => destruct b end; [elsewhere|]. cbv zeta.
  pose proof (conns_ensure false (d_Name def) d) as E. destruct (ensureGrant false (d_Name def) d) as [i d1].
  cbn [fst snd] in *. destruct (dm_heap d1 !! i) as [g|]; [|intros c' _; by rewrite E].
  apply else_serve. set (d2 := if bool_decide _ then d1 else bindSeat i h d1).
  set (d3 := if IsEphemeralGrant def then _ else d2).
  assert (dm_conns d3 = dm_conns d) as E3.
  { unfold d3, d2. destruct (IsEphemeralGrant def), (bool_decide _); exact E. }
  match goal with |- context [if ?b then _ else take_over _ _ _ _] => destruct b end.
  - by rewrite conns_empty_ring, conns_displace.
  - change (dm_conns (take_over pumpSize c i ?x)) with (dm_conns x). by rewrite conns_empty_ring, conns_displace.
Qed.

Lemma handles_else c ok r next h d d' : handles c ok r next h d = Some d' -> same_else c d d'.
Proof.
  destruct h; cbn [Grants.handles]; intros [=]; subst d'; try elsewhere.
  - unfold grant_registers. case_match; [|elsewhere]. cbv zeta. repeat (case_match; try elsewhere).
  - unfold grant_launches. cbv zeta. repeat (case_match; try elsewhere).
  - apply commits_else.
  - unfold grant_replays. destruct rest; elsewhere.
  - unfold release_settles. case_bool_decide; elsewhere.
  - unfold op_ends. cbv zeta.
    assert (dm_conns match next with
                     | Some n => if rewind && negb (bool_decide (n = h)) then bindSeat g n d else d
                     | None => d
                     end = dm_conns d) as E by (repeat case_match; reflexivity).
    destruct ok; by apply else_serve.
Qed.

(** A connection that is stopping a seat goes on doing so until its own step. *)
Lemma exec_else l d d' c h :
  exec l d = Some d' -> dm_conns d !! c = Some h -> h <> Idle -> (forall ok r next, l <> LHandle c ok r next) ->
  dm_conns d' !! c = Some h.
Proof.
  intros X C N A.
  assert (forall c0, idle c0 d = true -> c <> c0) as Ne.
  { intros c0 I ->. apply wf_conn_idle in I. congruence. }
  assert (forall c0 d1, idle c0 d = true -> same_else c0 d d1 -> dm_conns d1 !! c = Some h) as Go.
  { intros c0 d1 I E. by rewrite (E c (Ne c0 I)). }
  destruct l as [c0|c0 req files uuid remaining mkdir|c0 req busy|c0 id name own rew|c0 ok r next|c0|name ev|p|p r|p
                |dt|k|name|k r|name h0|name h0|name h0|name i| |ok]; cbn [Grants.exec] in X.
  - destruct (dm_conns d !! c0) eqn:C0; [done|]. injection X as <-. cbn. rewrite lookup_insert_ne; [done|congruence].
  - destruct (idle c0 d) eqn:I; [|done]. injection X as <-. apply (Go c0); [done|].
    case_match; [elsewhere|]. unfold grant_begins. cbv zeta. repeat (case_match; try elsewhere).
  - destruct (idle c0 d) eqn:I; [|done]. injection X as <-. apply (Go c0); [done|].
    case_match; [elsewhere|]. unfold release_begins. destruct (release_checks c0 req d) as [[[? ?] ?]|]; [elsewhere|].
    cbv zeta. repeat (case_match; try elsewhere).
  - destruct (idle c0 d) eqn:I; [|done]. injection X as <-. apply (Go c0); [done|].
    unfold op_begins. repeat (case_match; try elsewhere).
  - destruct (dm_conns d !! c0) as [h1|] eqn:C0; [|done].
    rewrite (handles_else _ _ _ _ _ _ _ X c); [done|]. intros ->. by eapply A.
  - destruct (idle c0 d) eqn:I; [|done]. injection X as <-. apply (Go c0); [done|]. unfold conn_closes. elsewhere.
  - injection X as <-. rewrite <-C. f_equal. unfold publish. case_match; [done|].
    destruct (EncodeEventWire ev); [|done]. destruct (liveGrant name d) as [[i g]|]; [|done].
    destruct (bg_fleet g); [done|]. cbv zeta. repeat case_match;
      by rewrite ?conns_retain, ?conns_notify, ?conns_note, ?conns_detach, ?conns_send.
  - unfold pump_takes in X. repeat (case_match; try done); simplify_eq; done.
  - unfold pump_writes in X. destruct (dm_pumps d !! p) as [pu|]; [|done].
    destruct (pu_phase pu); try done. destruct (dm_heap d !! pu_grant pu) as [g|]; [|done]. injection X as <-.
    by destruct r.
  - unfold pump_fails in X. destruct (dm_pumps d !! p) as [pu|]; [|done].
    destruct (pu_phase pu); try done. destruct (dm_heap d !! pu_grant pu) as [g|]; [|done]. injection X as <-.
    cbn. rewrite conns_retain. case_decide; by rewrite ?conns_note, ?conns_detach.
  - case_match; [|done]. by injection X as <-.
  - destruct (dm_timers d !! k) as [t|]; [|done]. case_match; [|done]. injection X as <-.
    unfold orphan_fires. destruct (liveGrant _ _) as [[i g]|]; [|done]. case_match; [|done].
    cbn. by rewrite conns_detach.
  - case_match; [|done]. by injection X as <-.
  - destruct (dm_notices d !! k) as [[c1 f]|]; [|done]. injection X as <-. by rewrite conns_put_frame.
  - injection X as <-. unfold seat_resumed. cbv zeta. rewrite conns_note.
    pose proof (conns_ensure false name d) as E. destruct (ensureGrant false name d) as [i d1]. cbn [fst snd] in *.
    assert (dm_conns match dm_heap d1 !! i with
                     | Some g => if decide (bg_proc g = Some h0) then d1 else bindSeat i h0 d1
                     | None => d1
                     end = dm_conns d) as E1 by (repeat case_match; exact E).
    revert E1. generalize (match dm_heap d1 !! i with
                     | Some g => if decide (bg_proc g = Some h0) then d1 else bindSeat i h0 d1
                     | None => d1
                     end). intros d2 E2.
    repeat case_match; cbn; by rewrite E2.
  - injection X as <-. unfold seat_gone. repeat (case_match; try done).
  - destruct (isFleetGrantName name); [|done]. injection X as <-. unfold fleet_binds. cbv zeta.
    pose proof (conns_ensure true name d) as E. destruct (ensureGrant true name d) as [i d1]. cbn [fst snd] in *.
    repeat case_match; cbn; by rewrite E.
  - destruct (isFleetGrantName name); [|done]. injection X as <-. unfold fleet_drops.
    destruct (dm_heap d !! i); [|done]. case_decide; [|done]. by rewrite conns_drop.
  - destruct (dm_refresh d); [done|]. by injection X as <-.
  - destruct (dm_refresh d); [|done]. by injection X as <-.
Qed.

(** A marked record that a name still has is one some connection is stopping. *)
Definition stops_ok (d : daemon) : Prop :=
  forall i g, dm_heap d !! i = Some g -> bg_stopping g = true -> dm_grants d !! bg_name g = Some i ->
    exists c id discard, dm_conns d !! c = Some (Settling id (bg_name g) i discard).

(** A detached record keeps its name and its mark. *)
Lemma detach_record i j d g :
  dm_heap (detachLocked i d) !! j = Some g ->
  exists g0, dm_heap d !! j = Some g0 /\ bg_name g = bg_name g0 /\ bg_stopping g = bg_stopping g0.
Proof.
  unfold detachLocked. destruct (dm_heap d !! i) as [g1|]; [|eauto]. cbv zeta.
  intros (g2 & G2 & ->)%lookup_alter_some. exists g2. split; [|by case_decide].
  destruct (bg_pump g1); [|done]. unfold close_pump in G2. repeat case_match; done.
Qed.

Lemma stops_step l d d' : wf d -> stops_ok d -> exec l d = Some d' -> stops_ok d'.
Proof.
  intros W K X i g' G' S' T'.
  assert (forall c h j g0, idle c d = true -> dm_heap d !! i = Some g0 -> bg_stopping g0 = true ->
            bg_name g' = bg_name g0 -> dm_grants d !! bg_name g0 = Some i -> i <> j ->
            dm_conns d' = <[c := h]> (dm_conns d) ->
            exists c0 id discard, dm_conns d' !! c0 = Some (Settling id (bg_name g') i discard)) as Other.
  { intros c h j g0 I G S N T Nij C. destruct (K i g0 G S T) as (c0 & id & discard & C0).
    exists c0, id, discard. rewrite C, N, lookup_insert_ne; [done|]. intros <-. apply wf_conn_idle in I. congruence. }
  destruct (exec_shape _ _ _ X) as [E|c id name j g discard I L E|c h name j g I L E|c id name j discard C Nt E].
  - destruct (ev_back _ _ E i g' G' S') as (g & G & S).
    destruct (ev_record _ _ E i g G) as (g1 & G1 & Gw). assert (g1 = g') as -> by congruence.
    rewrite (gw_name _ _ Gw) in *.
    destruct (ev_table _ _ E _ _ T') as [T|T]; [|congruence].
    destruct (K i g G S T) as (c & id & discard & C).
    destruct l; try (exists c, id, discard; by eapply exec_else).
    destruct (decide (c0 = c)) as [->|N]; [|exists c, id, discard; eapply exec_else; eauto; congruence].
    cbn [Grants.exec] in X. rewrite C in X. cbn in X. injection X as <-. unfold release_settles in *.
    rewrite bool_decide_eq_true_2 in T' by done.
    change (delete (bg_name g) (dm_grants (detachLocked i d)) !! bg_name g = Some i) in T'.
    by rewrite lookup_delete_eq in T'.
  - subst d'. cbn in G', T'. apply lookup_alter_some in G' as (g0 & G0 & ->).
    apply live_named in L as Nm; [|done]. apply live_holding in L as [Tj Gj].
    destruct (decide (j = i)) as [->|N].
    + exists c, id, discard. cbn. rewrite lookup_insert_eq. assert (g0 = g) as -> by congruence. cbn. by rewrite Nm.
    + by apply (Other c (Settling id name j discard) j g0).
  - subst d'. apply live_named in L as Nm; [|done]. apply live_holding in L as [Tj Gj].
    apply (detach_record j) in G' as (g1 & G1 & N1 & S1). apply lookup_alter_some in G1 as (g0 & G0 & ->).
    change (delete name (dm_grants (detachLocked j (marks j d))) !! bg_name g' = Some i) in T'.
    apply lookup_delete_Some in T' as [Nn T'].
    assert (dm_grants (detachLocked j (marks j d)) = dm_grants d) as Tg.
    { unfold detachLocked. destruct (dm_heap (marks j d) !! j) as [g2|]; [|done]. cbv zeta.
      destruct (bg_pump g2); [|done].
      unfold close_pump. destruct (dm_pumps (marks j d) !! _) as [pu|]; [|done]. by destruct (pu_closed pu). }
    rewrite Tg in T'. destruct (decide (j = i)) as [->|N].
    + assert (g0 = g) as -> by congruence. cbn in N1. congruence.
    + eapply (Other c h j g0); try done; [congruence|congruence|]. cbn. by rewrite conns_detach.
  - subst d'. cbn in G', T'. apply lookup_alter_some in G' as (g0 & G0 & ->).
    destruct (decide (j = i)) as [->|N]; [done|].
    destruct (K i g0 G0 S' T') as (c0 & id0 & discard0 & C0). exists c0, id0, discard0.
    cbn. rewrite lookup_insert_ne; [done|]. congruence.
Qed.

Lemma stops_reachable d : reachable d -> stops_ok d.
Proof.
  induction 1 as [|d d' R IH [l E]]; [by intros i g G|].
  eapply stops_step; [by eapply wf_reachable|done|done].
Qed.
End Steps.
