(* ===== verification/GrantsTheorems.v ===== *)
(** * GrantsTheorems: what the daemon promises of a seat's ownership and events

    Over every reachable state of [Grants]: who holds a seat, that no event of a
    seat is lost or reordered except where the code says so, what an orphan timer
    may stop, and that a stop ends. The runs at the end show where the code does
    less than its comments say. *)

From S2P Require Import Prelude GoLib GoJson WireTypes RegistryTypes Registry Control RegistryHost Ephemeral SeatClaims Grants GrantsFacts GrantsLog GrantsTime.
From S2P Require Import FleetNames.
From stdpp Require Import relations.
From S2P Require TurnWait.

Section Theorems.
Context {UC : Unicode} {JS : Json} {OS : Host} (rfc3339 : string -> bool).
Context (EncodeEventWire : TurnWait.Event -> option string) (pumpSize : Z) (git_roots : string -> bool).
Context (save_ok evidence : Registry -> bool) (broker : option (Config -> option proc * option start_error)).
Context (attach : option (option (list MCPServer) -> option (list MCPServer))).
Context (adoptProc startProc : Config -> option proc * option start_error).

Abbreviation exec := (exec rfc3339 EncodeEventWire pumpSize git_roots save_ok evidence broker attach adoptProc startProc).
Abbreviation step := (step rfc3339 EncodeEventWire pumpSize git_roots save_ok evidence broker attach adoptProc startProc).
Abbreviation reachable :=
  (reachable rfc3339 EncodeEventWire pumpSize git_roots save_ok evidence broker attach adoptProc startProc).

Lemma reachable_more d d' : rtc step d d' -> reachable d -> reachable d'.
Proof. induction 1 as [|d d1 d2 S _ IH]; [done|]. intros R. apply IH. by eapply reach_step. Qed.

(** A record lives on with its name, and its orphan generation only grows. *)
Lemma record_later d d' i g :
  rtc step d d' -> dm_heap d !! i = Some g ->
  exists g', dm_heap d' !! i = Some g' /\ bg_name g' = bg_name g /\ (bg_orphanGen g <= bg_orphanGen g')%N.
Proof.
  intros S. revert g. induction S as [|d d1 d2 [l E] _ IH]; intros g G; [exists g; split_and!; [done..|lia]|].
  destruct (shape_record _ _ i g (exec_shape _ _ _ _ _ _ _ _ _ _ _ _ _ E) G) as (g1 & G1 & N1 & L1 & _).
  destruct (IH g1 G1) as (g2 & G2 & N2 & L2). exists g2. split_and!; [done|congruence|lia].
Qed.

(** C4: A seat that a connection owns is the seat of its name in the table; the
    connection is open, the seat's channel is open and drains to that connection
    for that seat; and every open channel is the channel of a seat somebody owns.
    The daemon never sends on a closed channel nor closes one twice. *)
Theorem an_owned_seat_is_its_owners d :
  reachable d ->
  (forall i g c, dm_heap d !! i = Some g -> bg_owner g = Some c ->
     connected (dm_conns d) c /\ dm_grants d !! bg_name g = Some i
     /\ exists p pu, bg_pump g = Some p /\ dm_pumps d !! p = Some pu
                     /\ pu_conn pu = c /\ pu_grant pu = i /\ pu_closed pu = false)
  /\ (forall p pu, dm_pumps d !! p = Some pu -> pu_closed pu = false ->
        exists g, dm_heap d !! pu_grant pu = Some g /\ bg_pump g = Some p /\ bg_owner g = Some (pu_conn pu))
  /\ dm_panic d = false.
Proof.
  intros R. pose proof (wf_reachable _ _ _ _ _ _ _ _ _ _ d R) as W. split_and!.
  - intros i g c G O. destruct (wf_owner _ _ _ _ _ W i _ c (holdings_lookup _ _ _ G) O) as ([p P] & T & _ & C).
    destruct (pump_open d i g p W G P) as (pu & Pu & Gr & Cl & Ow).
    split_and!; [done|done|]. exists p, pu. split_and!; try done. congruence.
  - intros p pu P Cl. destruct (wf_open _ _ _ _ _ W p _ (channels_lookup _ _ _ P)) as (o & Ho & Pm).
    destruct (holdings_inv _ _ _ Ho) as (g & G & ->). specialize (Pm Cl). exists g. split_and!; [done|done|].
    destruct (pump_open d _ g p W G Pm) as (pu' & P' & _ & _ & Ow). congruence.
  - apply W.
Qed.

(** C5: No event of a seat vanishes, and none is heard twice: everything a seat's
    record has accepted is, each occurrence in one place, held by, written by or
    dropped as too large by a channel, in the ring, cut from the ring, or handed to
    a connection that reclaimed the seat. The ring stays within its bound, and it is
    marked lagged exactly when something was cut since the seat was last
    reclaimed. *)
Theorem every_event_is_somewhere d i g :
  reachable d -> dm_heap d !! i = Some g ->
  in_log d i ≡ₚ pumped i (dm_pumps d) ++ bg_ring g ++ hi_cut (hist_of d i) ++ hi_replay (hist_of d i)
  /\ length (bg_ring g) <= brokerUnownedRingCap
  /\ (bg_lag g = true <-> hi_told (hist_of d i) < length (hi_cut (hist_of d i))).
Proof.
  intros R G. pose proof (logs_reachable _ _ _ _ _ _ _ _ _ _ d R) as L.
  pose proof (lg_acc d L i) as A. unfold accounted_for, ring_of in A. rewrite G, app_nil_r in A.
  destruct (lg_ring d L i g G) as [B C D]. split_and!; [done|done|]. by rewrite D, bool_decide_eq_true.
Qed.

(** C6: The owner of a seat hears it in order and without a gap: everything the seat
    said since it was granted is what the channel's goroutine has finished with,
    then what it is writing, then what is queued; and what it has written is on the
    connection in that order. The queue stays within its bound, so a consumer that
    does not read cannot stall the seat. *)
Theorem an_owner_hears_everything_in_order d i g p :
  reachable d -> dm_heap d !! i = Some g -> bg_pump g = Some p ->
  exists pu, dm_pumps d !! p = Some pu /\ bg_owner g = Some (pu_conn pu)
    /\ drop (pu_from pu) (in_log d i) = (settled_raw <$> pu_settled pu) ++ in_hand (pu_phase pu) ++ pu_queue pu
    /\ omap written_raw (pu_settled pu) `sublist_of` wire_events d (pu_conn pu) (bg_name g)
    /\ (pu_phase pu <> PEnded -> List.filter is_returned (pu_settled pu) = [])
    /\ length (pu_queue pu) <= pu_cap pu.
Proof.
  intros R G P. pose proof (wf_reachable _ _ _ _ _ _ _ _ _ _ d R) as W.
  pose proof (logs_reachable _ _ _ _ _ _ _ _ _ _ d R) as L.
  destruct (pump_open d i g p W G P) as (pu & Pu & Gr & Cl & Ow). exists pu.
  destruct (lg_pump d L p pu Pu) as [A B C]. destruct (lg_from d L i g p pu G P Pu) as [D _].
  split_and!; try done; [congruence|]. eapply (lg_wire d L p); [done|congruence].
Qed.

(** C7: An orphan timer that takes the seat it was armed for away fires no earlier
    than its time, and at every moment since it was armed nobody owned that seat: a
    consumer that took the seat back by name in between keeps it. *)
Theorem a_timer_stops_only_what_stayed_unowned m d d' k t :
  reachable m -> t ∈ dm_timers m -> rtc step m d ->
  dm_timers d !! k = Some t -> dm_grants d !! ot_name t = Some (ot_grant t) ->
  exec (LTimer k) d = Some d' -> dm_grants d' !! ot_name t = None ->
  (ot_at t <= dm_now d)%Z /\ exists g, dm_heap m !! ot_grant t = Some g /\ bg_name g = ot_name t /\ bg_owner g = None.
Proof.
  intros R T S K Gt X Gone. destruct (timers_reachable _ _ _ _ _ _ _ _ _ _ m R t T) as (g & G & N & Le & Ow).
  cbn [Grants.exec] in X. rewrite K in X. destruct (ot_at t <=? dm_now d)%Z eqn:At; [|done]. injection X as <-.
  split; [lia|]. exists g. split_and!; [done|done|]. apply Ow.
  destruct (record_later m d _ g S G) as (g' & G' & N' & L').
  assert (bg_orphanGen g' = ot_gen t); [|lia]. revert Gone. unfold orphan_fires, liveGrant.
  change (dm_grants (d <| dm_timers ::= delete k |>)) with (dm_grants d). rewrite Gt.
  change (dm_heap (d <| dm_timers ::= delete k |>)) with (dm_heap d). rewrite G'. cbn [fmap option_fmap option_map].
  case_match eqn:C; [|cbn; congruence]. intros _. apply andb_true_iff in C as [C _].
  apply andb_true_iff in C as [C%bool_decide_eq_true _]. done.
Qed.

(** A seat marked as stopping has a connection that is stopping it, whose next
    step takes the seat out of the table, settled or not; until then no connection
    is given the seat. *)
Theorem a_stop_ends_and_fences_the_seat d i g :
  reachable d -> dm_heap d !! i = Some g -> bg_stopping g = true -> dm_grants d !! bg_name g = Some i ->
  (exists c id discard, dm_conns d !! c = Some (Settling id (bg_name g) i discard)
     /\ forall ok r next, exists d', exec (LHandle c ok r next) d = Some d' /\ dm_grants d' !! bg_name g = None)
  /\ (forall l d' g', exec l d = Some d' -> dm_heap d' !! i = Some g' ->
        bg_owner g' = bg_owner g \/ bg_owner g' = None).
Proof.
  intros R G S T. split.
  - destruct (stops_reachable _ _ _ _ _ _ _ _ _ _ d R i g G S T) as (c & id & discard & C).
    exists c, id, discard. split; [done|]. intros ok r next. cbn [Grants.exec]. rewrite C. cbn [handles].
    eexists. split; [done|]. unfold release_settles. rewrite bool_decide_eq_true_2 by done.
    apply lookup_delete_eq.
  - intros l d' g' X G'. destruct (shape_record _ _ i g (exec_shape _ _ _ _ _ _ _ _ _ _ _ _ _ X) G) as (g1 & G1 & _ & _ & O).
    assert (g1 = g') as -> by congruence. auto.
Qed.
End Theorems.

(** ** Runs *)

Module Runs.
#[local] Instance plain_unicode : Unicode := {| unicode_lower := id; unicode_alnum := fun _ => false |}.
#[local] Instance no_json : Json := fun _ => None.
#[local] Instance plain_host : Host :=
  {| temp_dir := "/tmp"; cwd := Some "/w"; eval_symlinks := fun _ => None |}.

(** A launch that gives a running process. *)
Definition launches (c : Config) : option proc * option start_error :=
  (Some (MkProc true "claude" "m" (d_SessionID (c_Def c)) "" 1), None).
Definition wire_text (e : TurnWait.Event) : option string := Some (TurnWait.ev_Text e).

Abbreviation demo_exec := (exec (fun _ => true) wire_text 2 (fun _ => false) (fun _ => true) (fun _ => false)
  None None launches launches).
Abbreviation demo_step := (step (fun _ => true) wire_text 2 (fun _ => false) (fun _ => true) (fun _ => false)
  None None launches launches).
Abbreviation demo_reachable := (reachable (fun _ => true) wire_text 2 (fun _ => false) (fun _ => true)
  (fun _ => false) None None launches launches).
Abbreviation demo_runs := (runs (fun _ => true) wire_text 2 (fun _ => false) (fun _ => true) (fun _ => false)
  None None launches launches).

Definition empty_registry : Registry := MkRegistry ∅ ∅ ∅ ∅ ∅ false ∅ None.
Definition boot : daemon := started Second empty_registry (MkClaims ∅ None).
Definition reached_by (ls : list label) : daemon := default boot (demo_runs ls boot).

Lemma reached_by_reachable ls : is_Some (demo_runs ls boot) -> demo_reachable (reached_by ls).
Proof.
  intros [d E]. unfold reached_by. rewrite E. eapply runs_reachable; [apply reach_start|exact E].
Qed.

(** A connection asks for a seat, and goes on; the seat says something. *)
Definition ask (c : nat) (name : string) : label :=
  LGrant c (MkGrantRequest "q" name (Some no_def) false false "" false false) None "u" (inr "") true.
Definition go (c : nat) : label := LHandle c true WroteOK None.
Definition says (name text : string) : label :=
  LPublish name (TurnWait.MkEvent "assistant" "" "" None None text "" "" "" false "").
Definition releases (c : nat) (name disposition : string) (busy : bool) : label :=
  LRelease c (MkReleaseRequest "q" name disposition false false) busy.
Definition grants (c : nat) (name : string) : list label := ask c name :: replicate 6 (go c).
Definition owned : list label := LConnect 1 :: grants 1 "s".
Definition smoke : string := "pimp-smoke-1".

Ltac reached := apply reached_by_reachable; vm_compute; by eexists.

Definition seat_record (d : daemon) (name : string) : option brokerGrant := snd <$> liveGrant name d.

Lemma an_owned_seat_is_its_owners_witness :
  bg_owner <$> seat_record (reached_by owned) "s" = Some (Some 1)
  /\ dm_panic (reached_by owned) = false.
Proof.
  assert (demo_reachable (reached_by owned)) as R by reached.
  split; [vm_compute; reflexivity|]. apply (an_owned_seat_is_its_owners _ _ _ _ _ _ _ _ _ _ (reached_by owned) R).
Defined.

(** The seat speaks while it is owned, and after its owner has gone. *)
Definition spoken : list label :=
  owned ++ [says "s" "a"; says "s" "b"; LTake 0; LWrite 0 WroteOK; releases 1 "s" "detach" false; says "s" "c"].

Lemma every_event_is_somewhere_witness :
  in_log (reached_by spoken) 0 = ["a"; "b"; "c"] /\ bg_ring <$> seat_record (reached_by spoken) "s" = Some ["c"]
  /\ exists g, dm_heap (reached_by spoken) !! 0 = Some g /\ length (bg_ring g) <= brokerUnownedRingCap.
Proof.
  assert (demo_reachable (reached_by spoken)) as R by reached.
  split_and!; [vm_compute; reflexivity..|]. destruct (dm_heap (reached_by spoken) !! 0) as [g|] eqn:G.
  - exists g. split; [done|]. apply (every_event_is_somewhere _ _ _ _ _ _ _ _ _ _ _ 0 g R G).
  - exfalso. revert G. vm_compute. done.
Defined.

Lemma an_owner_hears_everything_in_order_witness :
  let d := reached_by (owned ++ [says "s" "a"; says "s" "b"; LTake 0; LWrite 0 WroteOK; LTake 0]) in
  exists pu, dm_pumps d !! 0 = Some pu
    /\ drop (pu_from pu) (in_log d 0) = (settled_raw <$> pu_settled pu) ++ in_hand (pu_phase pu) ++ pu_queue pu
    /\ pu_settled pu = [Written "a"] /\ pu_phase pu = PWriting "b".
Proof.
  cbv zeta. set (ls := owned ++ _). assert (demo_reachable (reached_by ls)) as R by reached.
  destruct (dm_heap (reached_by ls) !! 0) as [g|] eqn:G; [|exfalso; revert G; vm_compute; done].
  assert (bg_pump g = Some 0) as P.
  { revert G. vm_compute. by intros [= <-]. }
  destruct (an_owner_hears_everything_in_order _ _ _ _ _ _ _ _ _ _ (reached_by ls) 0 g 0 R G P)
    as (pu & Pu & _ & D & _).
  exists pu. split_and!; [done|done|..]; revert Pu; vm_compute; by intros [= <-].
Defined.

(** A plumbing seat is let go; its timer is armed, and fires after two minutes. *)
Definition let_go : list label := LConnect 1 :: grants 1 smoke ++ [releases 1 smoke "detach" false].
Definition timer_due : orphan_timer := MkTimer smoke 2 (Second + EphemeralGrantTTL) 0.

Lemma a_timer_stops_only_what_stayed_unowned_witness :
  let m := reached_by let_go in let d := reached_by (let_go ++ [LTime EphemeralGrantTTL]) in
  exists d', demo_exec (LTimer 0) d = Some d' /\ dm_grants d' !! smoke = None
    /\ exists g, dm_heap m !! 0 = Some g /\ bg_owner g = None.
Proof.
  cbv zeta. assert (demo_reachable (reached_by let_go)) as R by reached.
  assert (demo_step (reached_by let_go) (reached_by (let_go ++ [LTime EphemeralGrantTTL]))) as S.
  { apply (step_exec _ _ _ _ _ _ _ _ _ _ _ _ (LTime EphemeralGrantTTL)). vm_compute. reflexivity. }
  destruct (demo_exec (LTimer 0) (reached_by (let_go ++ [LTime EphemeralGrantTTL]))) as [d'|] eqn:X;
    [|exfalso; revert X; vm_compute; done].
  assert (dm_grants d' !! smoke = None) as Gone.
  { revert X. vm_compute. by intros [= <-]. }
  exists d'. split_and!; [done|done|].
  destruct (a_timer_stops_only_what_stayed_unowned _ _ _ _ _ _ _ _ _ _ (reached_by let_go) _ d' 0 timer_due R
              ltac:(vm_compute; left) (rtc_once _ _ S) ltac:(vm_compute; reflexivity)
              ltac:(vm_compute; reflexivity) X Gone) as [_ (g & G & _ & O)].
  exists g. exact (conj G O).
Defined.

(** A stop that waits for the turn. *)
Definition stopping_run : list label := owned ++ [LConnect 2; releases 1 "s" "stop" true].

Lemma a_stop_ends_and_fences_the_seat_witness :
  exists c id discard, dm_conns (reached_by stopping_run) !! c = Some (Settling id "s" 0 discard).
Proof.
  assert (demo_reachable (reached_by stopping_run)) as R by reached.
  destruct (dm_heap (reached_by stopping_run) !! 0) as [g|] eqn:G; [|exfalso; revert G; vm_compute; done].
  assert (bg_stopping g = true /\ bg_name g = "s") as [S N] by (revert G; vm_compute; by intros [= <-]).
  assert (dm_grants (reached_by stopping_run) !! bg_name g = Some 0) as T by (rewrite N; vm_compute; reflexivity).
  destruct (a_stop_ends_and_fences_the_seat _ _ _ _ _ _ _ _ _ _ (reached_by stopping_run) 0 g R G S T)
    as [(c & id & discard & C & _) _].
  exists c, id, discard. by rewrite <-N.
Defined.

(** *** Where the code does less than its comments say *)

Definition frames (d : daemon) (c : nat) : list frame := default [] (dm_wire d !! c).

(** A timer of a stopped seat's record fires on a later seat of the name: the new
    record counts its generations from 0 again, so it is reaped at once, long before
    its own timer is due. *)
Definition stale_run : list label :=
  let_go ++ [go 1; go 1; LTime Minute; LConnect 2; releases 2 smoke "stop" false; go 2; go 2; go 2]
  ++ grants 2 smoke ++ [LTime Minute; releases 2 smoke "detach" false].

Lemma a_stale_timer_reaps_a_later_seat :
  let d := reached_by stale_run in
  demo_reachable d
  /\ dm_grants d !! smoke = Some 1
  /\ (bg_owner <$> dm_heap d !! 1) = Some None
  /\ dm_timers d = [timer_due; MkTimer smoke 2 (dm_now d + EphemeralGrantTTL) 1]
  /\ exists d', demo_exec (LTimer 0) d = Some d' /\ dm_now d' = dm_now d /\ dm_grants d' !! smoke = None.
Proof.
  cbv zeta. split; [reached|]. split_and!; try (vm_compute; reflexivity).
  eexists. split_and!; vm_compute; reflexivity.
Qed.

(** A write to the owner fails with events still queued: they are lost, and the
    connection that reclaims the seat is not told. *)
Definition lost_run : list label :=
  owned ++ [says "s" "a"; says "s" "b"; LTake 0; LWrite 0 WroteBroken; LFail 0; LClose 1; LConnect 2; ask 2 "s"]
  ++ replicate 7 (go 2).

Lemma a_failed_write_loses_the_queue :
  let d := reached_by lost_run in
  demo_reachable d /\ in_log d 0 = ["a"; "b"]
  /\ frames d 2 = [AgentEvent "s" "a"; Granted "q" "s" "u" true 1 false]
  /\ (pu_queue <$> dm_pumps d !! 0) = Some ["b"] /\ (pu_phase <$> dm_pumps d !! 0) = Some PEnded.
Proof. cbv zeta. split; [reached|]. split_and!; vm_compute; reflexivity. Qed.

(** A reclaiming connection hears a live event before the history it is given. *)
Definition early_run : list label :=
  spoken ++ [LConnect 2; ask 2 "s"; go 2; go 2; go 2; says "s" "d"; LTake 1; LWrite 1 WroteOK] ++ replicate 4 (go 2).

Lemma live_traffic_before_history :
  let d := reached_by early_run in
  demo_reachable d
  /\ frames d 2 = [AgentEvent "s" "d"; AgentEvent "s" "c"; Granted "q" "s" "u" true 1 false].
Proof. cbv zeta. split; [reached|]. vm_compute; reflexivity. Qed.

(** The ring is emptied before it is written: when that write fails, the next
    connection is granted the seat as if it had said nothing. *)
Definition unsaid_run : list label :=
  spoken ++ [LConnect 2; ask 2 "s"; go 2; go 2; go 2; go 2; LHandle 2 true WroteBroken None; go 2; go 2; LClose 2;
             LConnect 3; ask 3 "s"] ++ replicate 6 (go 3).

Lemma a_failed_replay_is_forgotten :
  let d := reached_by unsaid_run in
  demo_reachable d /\ "c" ∈ in_log d 0 /\ frames d 3 = [Granted "q" "s" "u" true 0 false].
Proof. cbv zeta. split; [reached|]. split; vm_compute; [|reflexivity]. right. right. left. Qed.

(** Two connections asking for one seat are both granted it; the first is not told
    that it lost the seat. *)
Definition race_run : list label :=
  [LConnect 1; LConnect 2; ask 1 "s"; ask 2 "s"; go 1; go 2; go 1; go 2] ++ replicate 4 (go 1) ++ replicate 4 (go 2).

Lemma a_lost_race_is_not_told :
  let d := reached_by race_run in
  demo_reachable d /\ frames d 1 = [Granted "q" "s" "u" false 0 false]
  /\ frames d 2 = [Granted "q" "s" "u" true 0 false] /\ dm_notices d = []
  /\ (bg_owner <$> seat_record d "s") = Some (Some 2).
Proof. cbv zeta. split; [reached|]. split_and!; vm_compute; reflexivity. Qed.

(** A stop gives up the name before it removes the seat: a connection granted the
    seat in between owns one that the registry no longer has. *)
Definition hollow_run : list label :=
  owned ++ [LConnect 2; releases 1 "s" "stop" false] ++ grants 2 "s" ++ [go 1; go 1; go 1].

Lemma a_stop_removes_a_seat_granted_since :
  let d := reached_by hollow_run in
  demo_reachable d /\ (bg_owner <$> seat_record d "s") = Some (Some 2)
  /\ rg_agents (dm_reg d) !! "s" = None /\ rg_procs (dm_reg d) !! "s" = None
  /\ sc_StoodDown (claim_of (cl_seats (dm_claims d)) "s") = dm_now d.
Proof. cbv zeta. split; [reached|]. split_and!; vm_compute; reflexivity. Qed.

(** A refresh that collected a seat's name before its owner parked it lifts the
    stand-down the park recorded. *)
Definition unparked_run : list label := owned ++ [LCollect; releases 1 "s" "detach" false; go 1; LStamp true].

Lemma a_refresh_undoes_a_park :
  let d := reached_by unparked_run in
  demo_reachable d /\ frames d 1 = [Granted "q" "s" "u" false 0 false]
  /\ dm_conns d !! 1 = Some (Replying (Released "q" "s" "detach"))
  /\ sc_StoodDown (claim_of (cl_seats (dm_claims d)) "s") = 0%Z
  /\ (resumeOrder (cl_seats (dm_claims d)) (dm_now d) DefaultResumeUnclaimedAfter ["s"]).1 = ["s"].
Proof. cbv zeta. split; [reached|]. split_and!; vm_compute; reflexivity. Qed.
End Runs.
