(* ===== verification/SeatResume.v ===== *)
(** * SeatResume: seat events, the liveness watch, and bringing seats back

    Models [registry_seats.go]: who hears the registry's seat events, the watch
    that reports each death, the pacing of restart nudges, and [ResumeAll] as the
    steps of its loop and of one goroutine per seat. A step is one call of the
    registry, one call of the provider, one publication, or one use of the
    semaphore or of the pacer's mutex; between two of them the registry may change
    in any way. Names are chosen by [resume_names] ([SeatClaims]). *)

From S2P Require Import Prelude GoLib GoFloat RegistryTypes Registry RegistryHost SeatClaims.
From Stdlib Require Import Sorted.

(** ** Events and their subscribers *)

Inductive SeatEventKind := SeatResumed | SeatResumeFailed | SeatNudged | SeatGone.
Inductive ResumeHow := ResumeAdopted | ResumeLaunched | ResumeReminted.
#[export] Instance ResumeHow_eq_dec : EqDecision ResumeHow.
Proof. solve_decision. Defined.
#[export] Instance SeatEventKind_eq_dec : EqDecision SeatEventKind.
Proof. solve_decision. Defined.

(** [SeatEvent]; an agent is its handle in the registry, an error is there or
    not. *)
Record SeatEvent := MkSeatEvent {
  sv_Kind : SeatEventKind; sv_Name : string; sv_SessionID : string; sv_How : option ResumeHow;
  sv_OldSessionID : string; sv_Err : option registry_error; sv_Agent : option nat; sv_At : Time }.

(** The subscribers and the watch: [hb_Watch] says that one runs. *)
Record seat_hub := MkHub { hb_NextID : N; hb_Subs : gset N; hb_Watch : bool }.
Definition no_hub : seat_hub := MkHub 0 ∅ false.

Definition SubscribeSeatEvents (h : seat_hub) : seat_hub * N :=
  let id := (hb_NextID h + 1)%N in (MkHub id ({[id]} ∪ hb_Subs h) true, id).

Definition UnsubscribeSeatEvents (id : N) (h : seat_hub) : seat_hub :=
  let subs := hb_Subs h ∖ {[id]} in
  MkHub (hb_NextID h) subs (if decide (subs = ∅) then false else hb_Watch h).

(** [publishSeatEvent]: who is called, in order, with what. *)
Definition publishSeatEvent (now : Time) (ev : SeatEvent) (h : seat_hub) : list (N * SeatEvent) :=
  let ev := if IsZero (sv_At ev)
            then MkSeatEvent (sv_Kind ev) (sv_Name ev) (sv_SessionID ev) (sv_How ev) (sv_OldSessionID ev)
                   (sv_Err ev) (sv_Agent ev) now
            else ev in
  (fun id => (id, ev)) <$> SliceStable N.ltb (elements (hb_Subs h)).

(** ** The watch: [watchSeats] *)

(** The processes no operation works on. *)
Definition watched (r : Registry) : gmap string nat :=
  filter (fun kv => rg_lifecycle r !! kv.1 = None) (rg_procs r).

(** One name of a tick: [alive] is each process's answer. *)
Definition report (alive : nat -> bool) (procs : gmap string nat) (st : gmap string nat * list (string * nat))
    (name : string) : gmap string nat * list (string * nat) :=
  match procs !! name with
  | Some h => if bool_decide (st.1 !! name = Some h) || alive h then st
              else (<[name := h]> st.1, st.2 ++ [(name, h)])
  | None => st
  end.

(** One tick. *)
Definition watch_tick (alive : nat -> bool) (r : Registry) (reported : gmap string nat)
    : gmap string nat * list (string * nat) :=
  let procs := watched r in
  let reported := filter (fun kv => procs !! kv.1 = Some kv.2) reported in
  foldl (report alive procs) (reported, []) (Strings (elements (dom procs))).

(** The reports of a watch, tick by tick. *)
Fixpoint watchSeats (reported : gmap string nat) (ticks : list ((nat -> bool) * Registry))
    : list (list (string * nat)) :=
  match ticks with
  | [] => []
  | t :: ticks => let w := watch_tick t.1 t.2 reported in w.2 :: watchSeats w.1 ticks
  end.

(** ** Nudges *)

Definition NoRestartNudge : string := "-".
Definition defaultResumeConcurrency : nat := 2.
Definition DefaultSeatWatchInterval : Duration := 5 * Second.

(** [DefaultRestartNudge] and [LostHistoryRestartNudge] with their arguments. *)
Definition DefaultRestartNudge (at_ : string) : string :=
  "[claudia] The host restarted at " +:+ at_ +:+ ". This session was resumed from its saved transcript; " +:+
  "any tool call, build or process that was running before the restart did not finish. " +:+
  "Review where you were and continue the task you were working on. If you were waiting on " +:+
  "something (a build, a test, another agent), check its state again before assuming it completed.".

Definition lostHistoryRestartNudge (at_ deadSession : string) : string :=
  let dead := if decide (deadSession = "") then "unknown" else deadSession in
  "[claudia] The host restarted at " +:+ at_ +:+ ". This seat's earlier conversation (session " +:+ dead +:+
  ") could not be restored: " +:+
  "you are starting without it. Anything you were doing before the restart is not in your context. " +:+
  "Before continuing, reconstruct where things stand from durable state (the repository, its commits and its targets, " +:+
  "your brief) or ask whoever gave you the work. Do not assume a build, test or tool call from before the restart finished.".

(** [nudgePacer]: the slot given to who asks at [now], and what is kept for the
    next. *)
Definition nudge_slot (spacing : Duration) (now next : Time) : Time * Time :=
  let at_ := if Before now next then next else now in (at_, (at_ + spacing)%Z).

(** ** One seat: [resumeSeat] *)

(** [ResumeOutcome] past its name. *)
Record ResumeOutcome := MkOutcome {
  ro_How : option ResumeHow; ro_Agent : option nat; ro_OldSessionID : string;
  ro_Nudged : bool; ro_NudgeErr : bool; ro_Err : option registry_error }.

(** What a seat's goroutine is about to do. It holds the semaphore up to
    [SReleasing]; [up] is how the seat came back, or why not. *)
Inductive seat_phase :=
| SAdopting
| SLaunching
| SReading (e : registry_error)
| SReminting (e : registry_error) (next : AgentDef) (old : string)
| SRelaunching (old : string)
| SReleasing (up : ResumeHow * nat + registry_error) (old : string)
| SAnnouncing (up : ResumeHow * nat + registry_error) (old : string)
| SPacing (how : ResumeHow) (h : nat) (old text : string)
| SWaiting (how : ResumeHow) (h : nat) (old text : string) (slot : Time)
| SNudging (how : ResumeHow) (h : nat) (old text : string) (slot : Time)
| STelling (how : ResumeHow) (h : nat) (old : string)
| SDone (o : ResumeOutcome)
| SSkipped.                      (* its turn came after the context had ended *)

Definition starting (ph : seat_phase) : bool :=
  match ph with
  | SAdopting | SLaunching | SReading _ | SReminting _ _ _ | SRelaunching _ | SReleasing _ _ => true
  | _ => false
  end.

(** [IsCursorResumeDenied]. *)
Definition IsCursorResumeDenied (e : registry_error) : bool :=
  match e with ErrStart e => se_CursorResumeDenied e | _ => false end.

(** The definition [remintSeat] registers. *)
Definition remint_def (uuid : string) (d : AgentDef) : AgentDef :=
  d <| d_SessionID := uuid |> <| d_Materialized := false |> <| d_ConnectURL := "" |> <| d_ConnectPID := 0%Z |>.

Definition failed_outcome (e : registry_error) (old : string) : ResumeOutcome := MkOutcome None None old false false (Some e).
Definition up_outcome (how : ResumeHow) (h : nat) (old : string) (nudged err : bool) : ResumeOutcome :=
  MkOutcome (Some how) (Some h) old nudged err None.

(** A seat's outcome, once it has one. *)
Definition outcome_of (ph : seat_phase) : option ResumeOutcome :=
  match ph with
  | SDone o => Some o
  | SSkipped => Some (failed_outcome ErrContext "")
  | _ => None
  end.

(** *** The state of a resume

    [ra_main] is the name whose turn it is to take the semaphore; [ra_slots] and
    [ra_sent] keep every slot given and every nudge sent with its slot and time. *)
Record resumption := MkResumption {
  ra_now : Time; ra_next : Time; ra_reg : Registry; ra_cancelled : bool;
  ra_todo : list string; ra_main : option string; ra_seats : list (string * seat_phase);
  ra_events : list SeatEvent; ra_slots : list Time; ra_sent : list (string * Time * Time) }.

#[export] Instance eta_resumption : Eta resumption := fun s =>
  MkResumption (ra_now s) (ra_next s) (ra_reg s) (ra_cancelled s) (ra_todo s) (ra_main s) (ra_seats s)
    (ra_events s) (ra_slots s) (ra_sent s).
#[export] Hint Extern 1 (@Setter resumption _ _) => setter_of eta_resumption : typeclass_instances.

Definition resume_begins (now : Time) (r : Registry) (names : list string) : resumption :=
  MkResumption now 0 r false names None [] [] [] [].

Definition session_of (r : Registry) (h : nat) : string :=
  match rg_handles r !! h with Some p => pr_SessionID p | None => "" end.

Definition put_phase (i : nat) (name : string) (ph : seat_phase) (s : resumption) : resumption :=
  s <| ra_seats ::= <[i := (name, ph)]> |>.
Definition tell (ev : SeatEvent) (s : resumption) : resumption := s <| ra_events ::= fun l => l ++ [ev] |>.

Section Resume.
(** The registry's outside, as in [RegistryHost]. *)
Variable save_ok : Registry -> bool.
Variable evidence : Registry -> bool.
Variable broker : option (Config -> option proc * option start_error).
Variable attach : option (option (list MCPServer) -> option (list MCPServer)).
Variables adoptProc startProc : Config -> option proc * option start_error.
(** What an agent says of its backend: no history, the session it replaced, and
    whether its transcript ends inside a turn, when it knows. *)
Variable StartedWithoutHistory : nat -> bool.
Variable supersededSessionID : nat -> string.
Variable TranscriptEndsMidTurn : nat -> option bool.
(** The arguments of [ResumeAll]. *)
Variables (nudge restarted : string) (conc : Z) (spacing : Duration).

Definition resume_conc : nat := if (conc <=? 0)%Z then defaultResumeConcurrency else Z.to_nat conc.

(** An adoption or a launch as a whole call; another operation on the name is
    waited for, or refused: an error either way here. *)
Definition start_call (adopt : bool) (name : string) (r : Registry) : Registry * (nat + registry_error) :=
  let e := in_turn name false (start_held save_ok evidence broker attach adoptProc startProc name adopt false) r in
  (e.1, match e.2 with
        | Some (inl _) => match rg_procs e.1 !! name with Some h => inl h | None => inr (ErrNoProcess name) end
        | Some (inr err) => inr err
        | None => inr ErrLifecycleInProgress
        end).

(** What a seat that came back is told, if anything. *)
Definition nudge_text (how : ResumeHow) (h : nat) (old : string) : option string :=
  let text := if decide (nudge = "") then DefaultRestartNudge restarted else nudge in
  if decide (how = ResumeAdopted \/ text = NoRestartNudge) then None
  else
    let lost := bool_decide (how = ResumeReminted) || StartedWithoutHistory h in
    let text := if lost then lostHistoryRestartNudge restarted (if decide (old = "") then supersededSessionID h else old)
                else text in
    match TranscriptEndsMidTurn h with
    | Some false => if decide (how = ResumeLaunched) then if StartedWithoutHistory h then Some text else None
                    else Some text
    | _ => Some text
    end.

(** ** [ResumeAll] *)

(** A launch looks at the context first; an adoption has none. *)
Definition launch_call (name : string) (s : resumption) : Registry * (nat + registry_error) :=
  if ra_cancelled s then (ra_reg s, inr ErrContext) else start_call false name (ra_reg s).

(** A seat's goroutine goes on: [uuid] is a new session, [ok] whether the nudge
    was sent. *)
Definition seat_goes (uuid : string) (ok : bool) (i : nat) (s : resumption) : option resumption :=
  match ra_seats s !! i with
  | None => None
  | Some (name, ph) =>
    match ph with
    | SAdopting =>
      let e := start_call true name (ra_reg s) in
      Some (put_phase i name match e.2 with
                             | inl h => SReleasing (inl (ResumeAdopted, h)) ""
                             | inr _ => SLaunching
                             end (s <| ra_reg := e.1 |>))
    | SLaunching =>
      let e := launch_call name s in
      Some (put_phase i name match e.2 with
                             | inl h => SReleasing (inl (ResumeLaunched, h)) ""
                             | inr err => if IsCursorResumeDenied err then SReading err else SReleasing (inr err) ""
                             end (s <| ra_reg := e.1 |>))
    | SReading err =>
      Some (put_phase i name match rg_agents (ra_reg s) !! name with
                             | None => SReleasing (inr err) ""
                             | Some d => SReminting err (remint_def uuid d) (d_SessionID d)
                             end s)
    | SReminting err next old =>
      let e := registerLocked (save_ok (ra_reg s)) next (ra_reg s) in
      Some (put_phase i name match e.2 with
                             | None => SRelaunching old
                             | Some _ => SReleasing (inr err) ""
                             end (s <| ra_reg := e.1 |>))
    | SRelaunching old =>
      let e := launch_call name s in
      Some (put_phase i name match e.2 with
                             | inl h => SReleasing (inl (ResumeReminted, h)) old
                             | inr err => SReleasing (inr err) old
                             end (s <| ra_reg := e.1 |>))
    | SReleasing up old => Some (put_phase i name (SAnnouncing up old) s)
    | SAnnouncing (inr err) old =>
      Some (put_phase i name (SDone (failed_outcome err old))
              (tell (MkSeatEvent SeatResumeFailed name "" None "" (Some err) None (ra_now s)) s))
    | SAnnouncing (inl (how, h)) old =>
      let ev := MkSeatEvent SeatResumed name (session_of (ra_reg s) h) (Some how)
                  (if decide (how = ResumeReminted) then old else "") None (Some h) (ra_now s) in
      Some (put_phase i name match nudge_text how h old with
                             | Some text => SPacing how h old text
                             | None => SDone (up_outcome how h old false false)
                             end (tell ev s))
    | SPacing how h old text =>
      if (spacing <=? 0)%Z then Some (put_phase i name (SNudging how h old text (ra_now s)) s)
      else
        let w := nudge_slot spacing (ra_now s) (ra_next s) in
        Some (put_phase i name (if (w.1 <=? ra_now s)%Z then SNudging how h old text w.1 else SWaiting how h old text w.1)
                (s <| ra_next := w.2 |> <| ra_slots ::= fun l => l ++ [w.1] |>))
    | SWaiting how h old text slot =>
      if (slot <=? ra_now s)%Z then Some (put_phase i name (SNudging how h old text slot) s) else None
    | SNudging how h old text slot =>
      if ok then Some (put_phase i name (STelling how h old) (s <| ra_sent ::= fun l => l ++ [(name, slot, ra_now s)] |>))
      else Some (put_phase i name (SDone (up_outcome how h old false true)) s)
    | STelling how h old =>
      Some (put_phase i name (SDone (up_outcome how h old true false))
              (tell (MkSeatEvent SeatNudged name (session_of (ra_reg s) h) None "" None (Some h) (ra_now s)) s))
    | SDone _ | SSkipped => None
    end
  end.

(** A wait for a slot ends with the context. *)
Definition seat_cancelled (i : nat) (s : resumption) : option resumption :=
  match ra_seats s !! i with
  | Some (name, SWaiting how h old _ _) =>
    if ra_cancelled s then Some (put_phase i name (SDone (up_outcome how h old false true)) s) else None
  | _ => None
  end.

(** The loop over the names: the context is looked at, then the semaphore is
    taken. *)
Definition in_flight (s : resumption) : nat := length (List.filter (fun kv => starting kv.2) (ra_seats s)).

Definition loop_goes (s : resumption) : option resumption :=
  match ra_main s with
  | Some name =>
    if (in_flight s <? resume_conc)%nat
    then Some (s <| ra_main := None |> <| ra_seats ::= fun l => l ++ [(name, SAdopting)] |>) else None
  | None =>
    match ra_todo s with
    | [] => None
    | name :: todo =>
      if ra_cancelled s
      then Some (s <| ra_todo := todo |> <| ra_seats ::= fun l => l ++ [(name, SSkipped)] |>)
      else Some (s <| ra_todo := todo |> <| ra_main := Some name |>)
    end
  end.

Inductive resume_step (s : resumption) : resumption -> Prop :=
| step_loop s' : loop_goes s = Some s' -> resume_step s s'
| step_seat uuid ok i s' : seat_goes uuid ok i s = Some s' -> resume_step s s'
| step_cancelled i s' : seat_cancelled i s = Some s' -> resume_step s s'
| step_cancel : resume_step s (s <| ra_cancelled := true |>)
| step_time dt : (0 <= dt)%Z -> resume_step s (s <| ra_now ::= Z.add dt |>)
| step_registry r : resume_step s (s <| ra_reg := r |>).

Inductive resuming (names : list string) : resumption -> Prop :=
| resuming_start now r : (0 < now)%Z -> resuming names (resume_begins now r names)
| resuming_step s s' : resuming names s -> resume_step s s' -> resuming names s'.

(** [wg.Wait] returns. *)
Definition resume_ended (s : resumption) : Prop :=
  ra_todo s = [] /\ ra_main s = None /\ Forall (fun kv => is_Some (outcome_of kv.2)) (ra_seats s).
End Resume.
