(* ===== verification/SeatResumeTheorems.v ===== *)
(** * SeatResumeTheorems: what the registry promises about seats coming and going

    Subscribers and the watch; that a death is reported once while nothing works on
    its seat; and of [ResumeAll] that it starts few seats at once, spaces its
    nudges, tells of each seat once and ends. *)

From S2P Require Import Prelude GoLib GoFloat RegistryTypes Registry RegistryHost ResolveFacts SeatClaims SeatClaimsTheorems SeatResume.
From Stdlib Require Import Sorted.
From stdpp Require Import relations sorting.

(** ** Subscribers *)

Inductive hub_op := HubSubscribe | HubUnsubscribe (id : N).
Definition hub_does (h : seat_hub) (o : hub_op) : seat_hub :=
  match o with HubSubscribe => (SubscribeSeatEvents h).1 | HubUnsubscribe id => UnsubscribeSeatEvents id h end.
Definition hub_after (os : list hub_op) : seat_hub := foldl hub_does no_hub os.

Lemma hub_invariant os :
  let h := hub_after os in
  (hb_Watch h = true <-> hb_Subs h <> ∅) /\ forall id, id ∈ hb_Subs h -> (id <= hb_NextID h)%N.
Proof.
  cbv zeta. unfold hub_after. induction os as [|o os IH] using rev_ind; [cbn; split; set_solver|].
  rewrite foldl_app. set (h := foldl _ _ os) in *. destruct IH as [W L]. destruct o as [|id]; cbn.
  - split; [split; [set_solver|done]|]. intros id. rewrite elem_of_union, elem_of_singleton. intros [->|I%L]; lia.
  - split; [|intros i I; apply L; set_solver]. destruct (decide (hb_Subs h ∖ {[id]} = ∅)) as [E|E].
    + rewrite E. split; [done|set_solver].
    + rewrite W. split; [done|]. intros _ X. apply E. set_solver.
Qed.

(** ** Reports of death *)

Section Watch.
Variable ticks : list ((nat -> bool) * Registry).

(** What the watch sees of a name at a tick, and the processes found dead. *)
Definition sees (k : nat) (name : string) : option nat := ticks !! k ≫= fun t => watched t.2 !! name.
Definition dead (k : nat) (h : nat) : Prop := exists t, ticks !! k = Some t /\ t.1 h = false.

(** The process is dead at some tick up to the [k]-th and was on its seat, with no
    operation in flight, at every tick from there on. *)
Definition known_dead (k : nat) (name : string) (h : nat) : Prop :=
  exists j, j <= k /\ dead j h /\ forall i, j <= i <= k -> sees i name = Some h.
End Watch.

Section Tick.
Variable alive : nat -> bool.
Variable procs : gmap string nat.

(** What a tick that knows [reported] says of a name. *)
Definition tick_says (reported : gmap string nat) (n : string) : option (string * nat) :=
  match procs !! n with
  | Some h => if bool_decide (reported !! n = Some h) || alive h then None else Some (n, h)
  | None => None
  end.

Lemma tick_says_ext r1 r2 (l : list string) :
  (forall n, n ∈ l -> r1 !! n = r2 !! n) -> omap (tick_says r1) l = omap (tick_says r2) l.
Proof.
  intros E. apply list_omap_ext. apply Forall2_same_length_lookup. split; [done|]. intros i x y X Y.
  assert (x = y) as <- by congruence. unfold tick_says. rewrite E; [done|]. by eapply list_elem_of_lookup_2.
Qed.

Lemma report_spec st n :
  (report alive procs st n).2 = st.2 ++ omap (tick_says st.1) [n]
  /\ (forall m h, (report alive procs st n).1 !! m = Some h <->
        st.1 !! m = Some h /\ (m <> n \/ tick_says st.1 n = None) \/ tick_says st.1 n = Some (m, h)).
Proof.
  unfold report, tick_says. cbn [omap list_omap]. destruct (procs !! n) as [h|].
  2:{ rewrite app_nil_r. split; [done|]. intros. split; [tauto|]. by intros [[? _]|]. }
  destruct (_ || _); cbn [fst snd].
  { rewrite app_nil_r. split; [done|]. intros. split; [tauto|]. by intros [[? _]|]. }
  split; [done|]. intros m h'. destruct (decide (m = n)) as [->|N].
  - rewrite lookup_insert_eq. split; [intros [= ->]; tauto|]. intros [[_ [?|?]]|[= <-]]; done.
  - rewrite lookup_insert_ne by done. split; [tauto|]. intros [[? _]|[= ? ?]]; congruence.
Qed.

Lemma tick_loop (names : list string) st :
  NoDup names ->
  let st' := foldl (report alive procs) st names in
  st'.2 = st.2 ++ omap (tick_says st.1) names
  /\ (forall m h, st'.1 !! m = Some h <->
        st.1 !! m = Some h /\ (m ∉ names \/ tick_says st.1 m = None) \/ m ∈ names /\ tick_says st.1 m = Some (m, h)).
Proof.
  revert st. induction names as [|n names IH]; intros st D; cbv zeta.
  { cbn. rewrite app_nil_r. split; [done|]. intros. set_solver. }
  apply NoDup_cons in D as [N D]. cbn [foldl]. destruct (report_spec st n) as [R1 R2].
  set (st1 := report alive procs st n) in *. destruct (IH st1 D) as [A B].
  assert (forall m, m <> n -> st1.1 !! m = st.1 !! m) as Same.
  { intros m M. apply option_eq. intros h. rewrite R2. split; [|tauto]. intros [[? _]|X]; [done|].
    unfold tick_says in X. destruct (procs !! n); [|done]. destruct (_ || _); [done|]. by injection X as <- _. }
  split.
  - rewrite A, R1, (tick_says_ext st1.1 st.1); [|intros m M; apply Same; set_solver].
    rewrite <-app_assoc. cbn [omap list_omap]. by destruct (tick_says st.1 n).
  - intros m h. rewrite B. destruct (decide (m = n)) as [->|M].
    + rewrite R2. split; [intros [[X _]|[? _]]; [|done]|intros [X|[_ X]]; left].
      * destruct X as [[X [?|Y]]|X]; [done|left; split; [done|by right]|right; split; [left|done]].
      * split; [|by left]. left. split; [tauto|]. right. destruct X as [_ [X|X]]; [set_solver|done].
      * split; [|by left]. by right.
    + assert (tick_says st1.1 m = tick_says st.1 m) as -> by (unfold tick_says; by rewrite Same).
      rewrite Same by done. rewrite elem_of_cons. naive_solver.
Qed.
End Tick.

Lemma watch_tick_spec alive r rep :
  let w := watch_tick alive r rep in
  (forall n h, w.1 !! n = Some h <-> watched r !! n = Some h /\ (rep !! n = Some h \/ alive h = false))
  /\ (forall n h, (n, h) ∈ w.2 <-> watched r !! n = Some h /\ alive h = false /\ rep !! n <> Some h)
  /\ NoDup w.2.*1.
Proof.
  cbv zeta. unfold watch_tick. set (procs := watched r).
  set (rep' := filter (fun kv => procs !! kv.1 = Some kv.2) rep).
  assert (forall n h, rep' !! n = Some h <-> rep !! n = Some h /\ procs !! n = Some h) as F.
  { intros n h. unfold rep'. by rewrite map_lookup_filter_Some. }
  set (names := Strings (elements (dom procs))).
  assert (forall n, n ∈ names <-> is_Some (procs !! n)) as Nm.
  { intros n. unfold names, Strings. by rewrite SliceStable_elem, elem_of_elements, elem_of_dom. }
  assert (NoDup names) as D.
  { unfold names, Strings. rewrite SliceStable_perm. apply NoDup_elements. }
  destruct (tick_loop alive procs names (rep', []) D) as [A B]. cbn [fst snd app] in A, B.
  assert (forall n h, tick_says alive procs rep' n = Some (n, h) <->
                      procs !! n = Some h /\ alive h = false /\ rep !! n <> Some h) as S.
  { intros n h. unfold tick_says. destruct (procs !! n) as [h'|] eqn:P; [|split; [done|by intros [? _]]].
    destruct (bool_decide_reflect (rep' !! n = Some h')) as [E|E]; cbn [orb].
    - apply F in E as [E _]. split; [done|]. intros ([= ->] & _ & X). congruence.
    - rewrite F, P in E. destruct (alive h') eqn:Al; (split; [intros [= <-]|intros ([= ->] & X & _)]); try congruence.
      split_and!; [done|done|]. tauto. }
  assert (forall n q, tick_says alive procs rep' n = Some q -> q.1 = n) as Fst.
  { intros n q. unfold tick_says. destruct (procs !! n); [|done]. destruct (_ || _); [done|]. by intros [= <-]. }
  split_and!.
  - intros n h. rewrite B, F, Nm, S. destruct (procs !! n) as [h'|] eqn:P.
    + assert (tick_says alive procs rep' n = None <-> rep !! n = Some h' \/ alive h' = true) as Nn.
      { unfold tick_says. rewrite P. destruct (bool_decide_reflect (rep' !! n = Some h')) as [E|E]; cbn [orb].
        - apply F in E as [E _]. tauto.
        - rewrite F, P in E. destruct (alive h'); [tauto|]. split; [done|]. intros [X|X]; [|done]. by exfalso; apply E. }
      rewrite Nn. split.
      * intros [((X & [= ->]) & _)|(_ & [= ->] & X & _)]; split; auto.
      * intros ([= <-] & X). destruct (decide (rep !! n = Some h')) as [E|E]; [left; split; [done|by right; left]|].
        right. destruct X as [X|X]; [done|]. split_and!; [by eexists|done|done|done].
    + split; [intros [((_ & ?) & _)|(_ & ? & _)]; done|by intros [? _]].
  - intros n h. rewrite A, list_elem_of_omap. split.
    + intros (m & _ & X). pose proof (Fst _ _ X) as E. cbn in E. subst m. by apply S.
    + intros X. exists n. split; [|by apply S]. apply Nm. destruct X as (P & _). eauto.
  - rewrite A. clear A B Nm. induction D as [|n names N D IH]; [constructor|]. cbn [omap list_omap].
    destruct (tick_says alive procs rep' n) as [q|] eqn:Q; [|exact IH]. cbn [fmap list_fmap]. constructor; [|exact IH].
    rewrite list_elem_of_fmap. intros (q' & E & X). apply list_elem_of_omap in X as (m & M & X).
    rewrite (Fst _ _ Q), (Fst _ _ X) in E. congruence.
Qed.

Lemma watchSeats_lookup rep ticks k l :
  watchSeats rep ticks !! k = Some l <->
  exists t, ticks !! k = Some t
    /\ l = (watch_tick t.1 t.2 (foldl (fun m t => (watch_tick t.1 t.2 m).1) rep (take k ticks))).2.
Proof.
  revert rep k. induction ticks as [|t ticks IH]; intros rep k; [cbn; naive_solver|].
  destruct k as [|k]; cbn; [split; [intros [= <-]; eauto|intros (? & [= <-] & ->); done]|]. apply IH.
Qed.

Lemma sees_take ticks k t n : ticks !! k = Some t -> sees ticks k n = watched t.2 !! n.
Proof. unfold sees. by intros ->. Qed.

(** What has been reported is what was found dead and has stayed so. *)
Lemma known_is_reported ticks k n h :
  k <= length ticks ->
  foldl (fun m t => (watch_tick t.1 t.2 m).1) ∅ (take k ticks) !! n = Some h <->
  exists j, j < k /\ dead ticks j h /\ forall i, j <= i < k -> sees ticks i n = Some h.
Proof.
  revert n h. induction k as [|k IH]; intros n h Le; [cbn; split; [done|intros (j & ? & _); lia]|].
  destruct (lookup_lt_is_Some_2 ticks k) as [t T]; [lia|].
  rewrite (take_S_r _ _ _ T), foldl_app. cbn [foldl].
  rewrite (proj1 (watch_tick_spec t.1 t.2 _)), <-(sees_take _ _ _ _ T), IH by lia. split.
  - intros (P & X). assert (forall j, (forall i, j <= i < k -> sees ticks i n = Some h) ->
                                      forall i, j <= i < S k -> sees ticks i n = Some h) as Ext.
    { intros j Y i I. destruct (decide (i = k)) as [->|]; [done|]. apply Y. lia. }
    destruct X as [(j & J & D & Y)|X].
    + exists j. split_and!; [lia|done|by apply Ext].
    + exists k. split_and!; [lia|by exists t|]. intros i I. by assert (i = k) as -> by lia.
  - intros (j & J & D & Y). split; [apply Y; lia|]. destruct (decide (j = k)) as [->|].
    + right. destruct D as (t' & T' & D). congruence.
    + left. exists j. split_and!; [lia|done|]. intros i I. apply Y. lia.
Qed.

(** At each look the watch reports, once per seat, exactly the processes that are
    dead on a seat nothing works on and that it has not found dead there at an
    earlier look since which the seat has kept that process with nothing working
    on it. *)
Theorem each_death_is_reported_once ticks k l :
  watchSeats ∅ ticks !! k = Some l ->
  NoDup l.*1
  /\ forall n h, (n, h) ∈ l <->
       sees ticks k n = Some h /\ dead ticks k h
       /\ ~ exists j, j < k /\ dead ticks j h /\ forall i, j <= i <= k -> sees ticks i n = Some h.
Proof.
  intros (t & T & ->)%watchSeats_lookup.
  pose proof (lookup_lt_Some _ _ _ T) as Le. set (rep := foldl _ _ _).
  destruct (watch_tick_spec t.1 t.2 rep) as (_ & A & N). split; [done|]. intros n h.
  rewrite A, <-(sees_take _ _ _ _ T). unfold rep. rewrite known_is_reported by lia.
  assert (dead ticks k h <-> t.1 h = false) as ->.
  { unfold dead. rewrite T. naive_solver. }
  split; intros (P & D & X); split_and!; try done; intros (j & J & Dj & Y); apply X; exists j; split_and!; try done.
  - intros i I. apply Y. lia.
  - intros i I. destruct (decide (i = k)) as [->|]; [done|]. apply Y. lia.
Qed.

(** ** [ResumeAll] *)

Section Resume.
Variable save_ok : Registry -> bool.
Variable evidence : Registry -> bool.
Variable broker : option (Config -> option proc * option start_error).
Variable attach : option (option (list MCPServer) -> option (list MCPServer)).
Variables adoptProc startProc : Config -> option proc * option start_error.
Variable StartedWithoutHistory : nat -> bool.
Variable supersededSessionID : nat -> string.
Variable TranscriptEndsMidTurn : nat -> option bool.
Variables (nudge restarted : string) (conc : Z) (spacing : Duration).

Abbreviation seat_goes := (seat_goes save_ok evidence broker attach adoptProc startProc StartedWithoutHistory
  supersededSessionID TranscriptEndsMidTurn nudge restarted spacing).
Abbreviation loop_goes := (loop_goes conc).
Abbreviation resume_step := (resume_step save_ok evidence broker attach adoptProc startProc StartedWithoutHistory
  supersededSessionID TranscriptEndsMidTurn nudge restarted conc spacing).
Abbreviation resuming := (resuming save_ok evidence broker attach adoptProc startProc StartedWithoutHistory
  supersededSessionID TranscriptEndsMidTurn nudge restarted conc spacing).
Abbreviation resume_conc := (resume_conc conc).

(** What a goroutine's step does: its own phase, and at most one thing besides. *)
Inductive effect := NoEffect | Told (ev : SeatEvent) | Slot (at_ : Time) | Sent (slot : Time).

(** How many steps a seat's goroutine has left at most. *)
Definition weight (ph : seat_phase) : nat :=
  match ph with
  | SAdopting => 11 | SLaunching => 10 | SReading _ => 9 | SReminting _ _ _ => 8 | SRelaunching _ => 7
  | SReleasing _ _ => 6 | SAnnouncing _ _ => 5 | SPacing _ _ _ _ => 4 | SWaiting _ _ _ _ _ => 3
  | SNudging _ _ _ _ _ => 2 | STelling _ _ _ => 1 | SDone _ | SSkipped => 0
  end.

(** The phase a seat goes to, with the effect. *)
Inductive goes (s : resumption) (name : string) : seat_phase -> seat_phase -> effect -> Prop :=
| go_starting ph ph' :
    starting ph = true -> weight ph' < weight ph -> starting ph' = true \/ (exists up old, ph = SReleasing up old /\ ph' = SAnnouncing up old) ->
    goes s name ph ph' NoEffect
| go_failed err old ev :
    sv_Kind ev = SeatResumeFailed -> sv_Name ev = name -> sv_At ev = ra_now s ->
    goes s name (SAnnouncing (inr err) old) (SDone (failed_outcome err old)) (Told ev)
| go_up how h old ev ph' :
    sv_Kind ev = SeatResumed -> sv_Name ev = name -> sv_Agent ev = Some h -> sv_How ev = Some how ->
    ph' = (match nudge_text StartedWithoutHistory supersededSessionID TranscriptEndsMidTurn nudge restarted how h old with
           | Some text => SPacing how h old text
           | None => SDone (up_outcome how h old false false)
           end) ->
    goes s name (SAnnouncing (inl (how, h)) old) ph' (Told ev)
| go_unpaced how h old text :
    (spacing <= 0)%Z -> goes s name (SPacing how h old text) (SNudging how h old text (ra_now s)) NoEffect
| go_paced how h old text ph' at_ :
    (0 < spacing)%Z -> at_ = (nudge_slot spacing (ra_now s) (ra_next s)).1 ->
    (ph' = SNudging how h old text at_ /\ (at_ <= ra_now s)%Z) \/ ph' = SWaiting how h old text at_ ->
    goes s name (SPacing how h old text) ph' (Slot at_)
| go_waited how h old text slot :
    (slot <= ra_now s)%Z -> goes s name (SWaiting how h old text slot) (SNudging how h old text slot) NoEffect
| go_gave_in how h old text slot :
    ra_cancelled s = true ->
    goes s name (SWaiting how h old text slot) (SDone (up_outcome how h old false true)) NoEffect
| go_sent how h old text slot : goes s name (SNudging how h old text slot) (STelling how h old) (Sent slot)
| go_unsent how h old text slot :
    goes s name (SNudging how h old text slot) (SDone (up_outcome how h old false true)) NoEffect
| go_told how h old ev :
    sv_Kind ev = SeatNudged -> sv_Name ev = name -> sv_Agent ev = Some h ->
    goes s name (STelling how h old) (SDone (up_outcome how h old true false)) (Told ev).

Record after_step (s s' : resumption) (i : nat) (name : string) (ph' : seat_phase) (e : effect) : Prop := {
  af_seats : ra_seats s' = <[i := (name, ph')]> (ra_seats s);
  af_todo : ra_todo s' = ra_todo s; af_main : ra_main s' = ra_main s; af_now : ra_now s' = ra_now s;
  af_events : ra_events s' = ra_events s ++ match e with Told ev => [ev] | _ => [] end;
  af_slots : ra_slots s' = ra_slots s ++ match e with Slot a => [a] | _ => [] end;
  af_next : ra_next s' = match e with Slot a => (a + spacing)%Z | _ => ra_next s end;
  af_sent : ra_sent s' = ra_sent s ++ match e with Sent a => [(name, a, ra_now s)] | _ => [] end;
  af_cancelled : ra_cancelled s' = ra_cancelled s }.

Ltac after_it := split; cbn; rewrite ?app_nil_r; reflexivity.

Lemma seat_goes_spec uuid ok i s s' :
  seat_goes uuid ok i s = Some s' ->
  exists name ph ph' e, ra_seats s !! i = Some (name, ph) /\ goes s name ph ph' e /\ after_step s s' i name ph' e.
Proof.
  unfold SeatResume.seat_goes. destruct (ra_seats s !! i) as [[name ph]|]; [|done].
  destruct ph as [| |err|err next old|old|up old|[[how h]|err] old|how h old text|how h old text slot|how h old text slot|how h old|o|]; intros X.
  - exists name, SAdopting. injection X as <-. eexists _, NoEffect. split; [done|]. split; [|after_it].
    apply go_starting; [done|repeat case_match; cbn; lia|left]. by repeat case_match.
  - exists name, SLaunching. injection X as <-. eexists _, NoEffect. split; [done|]. split; [|after_it].
    apply go_starting; [done|repeat case_match; cbn; lia|left]. by repeat case_match.
  - exists name, (SReading err). injection X as <-. eexists _, NoEffect. split; [done|]. split; [|after_it].
    apply go_starting; [done|repeat case_match; cbn; lia|left]. by repeat case_match.
  - exists name, (SReminting err next old). injection X as <-. eexists _, NoEffect. split; [done|]. split; [|after_it].
    apply go_starting; [done|repeat case_match; cbn; lia|left]. by repeat case_match.
  - exists name, (SRelaunching old). injection X as <-. eexists _, NoEffect. split; [done|]. split; [|after_it].
    apply go_starting; [done|repeat case_match; cbn; lia|left]. by repeat case_match.
  - exists name, (SReleasing up old). injection X as <-. eexists _, NoEffect. split; [done|]. split; [|after_it].
    apply go_starting; [done|cbn; lia|right]. by exists up, old.
  - exists name, (SAnnouncing (inl (how, h)) old). injection X as <-. eexists _, (Told _). split; [done|].
    split; [|after_it]. by apply go_up.
  - exists name, (SAnnouncing (inr err) old). injection X as <-. eexists _, (Told _). split; [done|].
    split; [|after_it]. by apply go_failed.
  - exists name, (SPacing how h old text). destruct (Z.leb_spec spacing 0).
    + injection X as <-. eexists _, NoEffect. split; [done|]. split; [|after_it]. by apply go_unpaced.
    + injection X as <-. eexists _, (Slot _). split; [done|]. split; [|after_it].
      eapply go_paced; [done|done|]. case_match eqn:L; [left; split; [done|by apply Z.leb_le]|by right].
  - exists name, (SWaiting how h old text slot). destruct (Z.leb_spec slot (ra_now s)); [|done].
    injection X as <-. eexists _, NoEffect. split; [done|]. split; [|after_it]. by apply go_waited.
  - exists name, (SNudging how h old text slot). destruct ok; injection X as <-.
    + eexists _, (Sent slot). split; [done|]. split; [|after_it]. by apply go_sent.
    + eexists _, NoEffect. split; [done|]. split; [|after_it]. by apply go_unsent.
  - exists name, (STelling how h old). injection X as <-. eexists _, (Told _). split; [done|].
    split; [|after_it]. by apply go_told.
  - done.
  - done.
Qed.

Lemma seat_cancelled_spec i s s' :
  seat_cancelled i s = Some s' ->
  exists name ph ph', ra_seats s !! i = Some (name, ph) /\ goes s name ph ph' NoEffect /\ after_step s s' i name ph' NoEffect.
Proof.
  unfold seat_cancelled. destruct (ra_seats s !! i) as [[name ph]|]; [|done]. destruct ph; try done.
  destruct (ra_cancelled s) eqn:C; [|done]. intros [= <-]. eexists _, _, _. split; [done|].
  split; [|after_it]. by apply go_gave_in.
Qed.

(** *** Starts and slots *)

Lemma filter_insert_length {A} (f : A -> bool) (l : list A) i x y :
  l !! i = Some x ->
  length (List.filter f (<[i := y]> l)) + Nat.b2n (f x) = length (List.filter f l) + Nat.b2n (f y).
Proof.
  revert i. induction l as [|z l IH]; intros [|i]; try done.
  - intros [= ->]. cbn. destruct (f x), (f y); cbn; lia.
  - intros L. specialize (IH i L). change (<[S i := y]> (z :: l)) with (z :: <[i := y]> l). cbn [List.filter].
    destruct (f z); cbn [length]; lia.
Qed.

Lemma omap_insert_perm {A B} (f : A -> option B) (l : list A) i x y :
  l !! i = Some x ->
  option_list (f x) ++ omap f (<[i := y]> l) ≡ₚ option_list (f y) ++ omap f l.
Proof.
  revert i. induction l as [|z l IH]; intros [|i]; try done.
  - intros [= ->]. cbn. destruct (f x), (f y); cbn; try done. apply Permutation_swap.
  - intros L. specialize (IH i L). change (<[S i := y]> (z :: l)) with (z :: <[i := y]> l). cbn [omap list_omap].
    destruct (f z) as [b|]; [|exact IH]. by rewrite <-!Permutation_middle, IH.
Qed.

(** The slot a goroutine has and has not used. *)
Definition slot_of (kv : string * seat_phase) : option Time :=
  match kv.2 with SWaiting _ _ _ _ slot | SNudging _ _ _ _ slot => Some slot | _ => None end.
Definition sent_slots (s : resumption) : list Time := (fun x => x.1.2) <$> ra_sent s.

Record keeps_pace (s : resumption) : Prop := {
  pc_flight : in_flight s <= resume_conc;
  pc_slots : StronglySorted (fun x y => (x + spacing <= y)%Z) (ra_slots s);
  pc_next : Forall (fun x => (x + spacing <= ra_next s)%Z) (ra_slots s);
  pc_owned : (0 < spacing)%Z -> omap slot_of (ra_seats s) ++ sent_slots s ⊆+ ra_slots s;
  pc_due : Forall (fun x => (x.1.2 <= x.2 <= ra_now s)%Z) (ra_sent s);
  pc_ready : forall i name how h old text slot,
    ra_seats s !! i = Some (name, SNudging how h old text slot) -> (slot <= ra_now s)%Z }.

Lemma resume_conc_pos : 0 < resume_conc.
Proof. unfold SeatResume.resume_conc, defaultResumeConcurrency. destruct (Z.leb_spec conc 0); lia. Qed.

Lemma goes_flight s name ph ph' e : goes s name ph ph' e -> starting ph' = true -> starting ph = true.
Proof.
  destruct 1; try done. subst. by destruct (nudge_text _ _ _ _ _ _ _ _).
  all: match goal with H : _ \/ _ |- _ => destruct H as [[-> _]| ->]; done end.
Qed.

Lemma nudge_slot_after now next : (next <= (nudge_slot spacing now next).1)%Z.
Proof. unfold nudge_slot, Before. cbv zeta. cbn [fst]. destruct (Z.ltb_spec now next); lia. Qed.

Definition slot_got (e : effect) : list Time := match e with Slot a => [a] | _ => [] end.
Definition slot_used (e : effect) : list Time := match e with Sent a => [a] | _ => [] end.

Lemma goes_slots s name ph ph' e :
  (0 < spacing)%Z -> goes s name ph ph' e ->
  option_list (slot_of (name, ph')) ++ slot_used e ⊆+ option_list (slot_of (name, ph)) ++ slot_got e.
Proof.
  intros P. destruct 1 as [ph ph' S1 Wt S2|err old ev|how h old ev ph' _ _ _ _ E| |how h old text ph' at_ _ E S| | | | |];
    cbn; try done; try lia; try apply submseteq_nil_l.
  - destruct S2 as [S2|(up & old & -> & ->)]; [|done]. destruct ph; try done; destruct ph'; done.
  - subst ph'. destruct (nudge_text _ _ _ _ _ _ _ _); apply submseteq_nil_l.
  - destruct S as [[-> _]| ->]; done.
Qed.

Lemma goes_ready s name ph ph' e how h old text slot :
  goes s name ph ph' e -> ph' = SNudging how h old text slot -> (slot <= ra_now s)%Z.
Proof.
  destruct 1 as [ph ph' S1 Wt S2|err old' ev|how' h' old' ev ph' _ _ _ _ E| |how' h' old' text' ph' at_ _ E S|how' h' old' text' slot' L| | | |];
    intros X; subst; try done.
  - destruct S2 as [S2|(up & old' & -> & ?)]; [|done]. done.
  - by destruct (nudge_text _ _ _ _ _ _ _ _).
  - injection X as <- <- <- <- <-. lia.
  - destruct S as [[E' L]|E']; [|done]. injection E' as _ _ _ _ Es. by rewrite Es.
  - injection X as <- <- <- <- <-. done.
Qed.

Lemma paced_after s s' i name ph ph' e :
  ra_seats s !! i = Some (name, ph) -> goes s name ph ph' e -> after_step s s' i name ph' e -> keeps_pace s -> keeps_pace s'.
Proof.
  intros L G [As _ _ An _ Al Ax At] [F S N O D R].
  assert (i < length (ra_seats s)) as Lt by (by eapply lookup_lt_Some).
  split.
  - unfold in_flight. rewrite As. pose proof (filter_insert_length (fun kv => starting kv.2) _ i _ (name, ph') L) as Fl.
    cbn [snd] in Fl. unfold in_flight in F. pose proof (goes_flight _ _ _ _ _ G) as Gs.
    destruct (starting ph), (starting ph'); cbn in Fl; lia.
  - rewrite Al. destruct e as [| |a|]; rewrite ?app_nil_r; try done. apply StronglySorted_app_2; [|done|repeat constructor].
    intros x y X ->%list_elem_of_singleton. rewrite list.Forall_forall in N. specialize (N x X).
    inversion G; subst. pose proof (nudge_slot_after (ra_now s) (ra_next s)). lia.
  - rewrite Al, Ax. destruct e as [| |a|]; rewrite ?app_nil_r; try done. apply list.Forall_app. split; [|repeat constructor; lia].
    inversion G; subst. pose proof (nudge_slot_after (ra_now s) (ra_next s)).
    eapply List.Forall_impl; [|exact N]. intros x X. cbn in X. lia.
  - intros P. specialize (O P). pose proof (goes_slots _ _ _ _ _ P G) as Sl.
    pose proof (omap_insert_perm slot_of (ra_seats s) i (name, ph) (name, ph') L) as Pm.
    assert (sent_slots s' = sent_slots s ++ slot_used e) as ->.
    { unfold sent_slots. rewrite At, fmap_app. by destruct e. }
    rewrite As, Al. change (match e with Slot a => [a] | _ => [] end) with (slot_got e).
    apply (submseteq_app_inv_l _ _ (option_list (slot_of (name, ph)))).
    rewrite (app_assoc (option_list _)), Pm.
    transitivity ((option_list (slot_of (name, ph')) ++ slot_used e) ++ (omap slot_of (ra_seats s) ++ sent_slots s)).
    + apply Permutation_submseteq. solve_Permutation.
    + transitivity ((option_list (slot_of (name, ph)) ++ slot_got e) ++ ra_slots s); [by apply submseteq_app|].
      apply Permutation_submseteq. solve_Permutation.
  - rewrite At, An. apply list.Forall_app. split; [done|]. destruct e as [| | |a]; repeat constructor; cbn; [|lia].
    inversion G; subst. by eapply R.
  - intros j n how h old text slot X. rewrite An. rewrite As in X. destruct (decide (j = i)) as [->|J].
    + rewrite list_lookup_insert_eq in X by done. injection X as <- X. by eapply goes_ready.
    + rewrite list_lookup_insert_ne in X by done. by eapply R.
Qed.

Lemma paced_loop s s' : loop_goes s = Some s' -> keeps_pace s -> keeps_pace s'.
Proof.
  unfold SeatResume.loop_goes. intros X [F S N O D R].
  assert (forall n ph k i nm how h old text slot, slot_of (n, ph) = None ->
            (ra_seats s ++ [(n, ph)]) !! i = Some (nm, SNudging how h old text slot) -> k = ra_now s -> (slot <= k)%Z) as R'.
  { intros n ph k i nm how h old text slot E L ->. apply lookup_app_Some in L as [L|[_ L]]; [by eapply R|].
    apply list_lookup_singleton_Some in L as [_ [= -> ->]]. done. }
  destruct (ra_main s) as [name|]; [|destruct (ra_todo s) as [|name todo]; [done|]; destruct (ra_cancelled s)].
  - destruct (Nat.ltb_spec (in_flight s) resume_conc); [|done]. injection X as <-. split; cbn; try done.
    + unfold in_flight in *. cbn. rewrite List.filter_app, length_app. cbn. lia.
    + intros P. rewrite omap_app. cbn. rewrite app_nil_r. by apply O.
    + intros j nm how h old text slot Lk. refine (R' _ _ _ _ _ _ _ _ _ _ _ Lk eq_refl). reflexivity.
  - injection X as <-. split; cbn; try done.
    + unfold in_flight in *. cbn. rewrite List.filter_app, length_app. cbn. lia.
    + intros P. rewrite omap_app. cbn. rewrite app_nil_r. by apply O.
    + intros j nm how h old text slot Lk. refine (R' _ _ _ _ _ _ _ _ _ _ _ Lk eq_refl). reflexivity.
  - injection X as <-. by split.
Qed.

Lemma paced_resuming names s : resuming names s -> keeps_pace s.
Proof.
  induction 1 as [now r P|s s' _ IH St].
  { pose proof resume_conc_pos. split; cbn; try constructor; try done. unfold in_flight. cbn. lia. }
  destruct St as [s' E|uuid ok i s' E|i s' E| |dt P|r].
  - by eapply paced_loop.
  - apply seat_goes_spec in E as (name & ph & ph' & e & L & G & A). by eapply paced_after.
  - apply seat_cancelled_spec in E as (name & ph & ph' & L & G & A). by eapply paced_after.
  - by destruct IH; split.
  - destruct IH as [F S N O D R]. split; cbn; try done.
    + eapply List.Forall_impl; [|exact D]. cbn. intros x X. lia.
    + intros i name how h old text slot L. specialize (R _ _ _ _ _ _ _ L). lia.
  - by destruct IH; split.
Qed.

Lemma spaced_apart (l k : list Time) i j x y :
  (0 < spacing)%Z -> StronglySorted (fun x y => (x + spacing <= y)%Z) k -> l ⊆+ k ->
  l !! i = Some x -> l !! j = Some y -> i <> j -> (x + spacing <= y \/ y + spacing <= x)%Z.
Proof.
  intros P S Sub I J N. assert (exists l', l ++ l' ≡ₚ k) as [l' Pm].
  { apply submseteq_Permutation in Sub as [l' E]. by exists l'. }
  assert (forall a b, a ∈ k -> b ∈ k -> a <> b -> (a + spacing <= b \/ b + spacing <= a)%Z) as D.
  { clear -S P. induction S as [|z k S IH F]; [set_solver|]. rewrite list.Forall_forall in F.
    intros a b [->|A]%elem_of_cons [->|B]%elem_of_cons Ab; [done|left; auto|right; auto|auto]. }
  assert (NoDup k) as Nd.
  { clear -S P. induction S as [|z k S IH F]; [constructor|]. constructor; [|done]. rewrite list.Forall_forall in F.
    intros X%F. lia. }
  assert (x <> y) as Xy.
  { intros ->. apply N. rewrite <-Pm in Nd. apply list.NoDup_app in Nd as [Nd _]. by eapply NoDup_lookup. }
  apply D; [..|done]; rewrite <-Pm; apply elem_of_app; left; by eapply list_elem_of_lookup_2.
Qed.

(** A resume never starts more seats at once than it may, and a seat is nudged
    no earlier than the slot it was given; the slots of two nudges are at least the
    spacing apart. *)
Theorem resumes_are_bounded_and_spaced names s :
  resuming names s ->
  in_flight s <= resume_conc
  /\ (forall i n slot t, ra_sent s !! i = Some (n, slot, t) -> (slot <= t <= ra_now s)%Z)
  /\ ((0 < spacing)%Z -> forall i j n m x y t u,
        ra_sent s !! i = Some (n, x, t) -> ra_sent s !! j = Some (m, y, u) -> i <> j ->
        (x + spacing <= y \/ y + spacing <= x)%Z).
Proof.
  intros H%paced_resuming. destruct H as [F S _ O D _]. split_and!; [done|..].
  - intros i n slot t L. rewrite list.Forall_forall in D. apply (D (n, slot, t)). by eapply list_elem_of_lookup_2.
  - intros P i j n m x y t u I J N. eapply spaced_apart; [done|exact S|..|exact N].
    + transitivity (omap slot_of (ra_seats s) ++ sent_slots s); [|by apply O]. by apply submseteq_inserts_l.
    + unfold sent_slots. by rewrite list_lookup_fmap, I.
    + unfold sent_slots. by rewrite list_lookup_fmap, J.
Qed.

(** *** What is told of a seat *)

Definition kinds_of (s : resumption) (name : string) : list SeatEventKind :=
  sv_Kind <$> List.filter (fun ev => String.eqb (sv_Name ev) name) (ra_events s).
Definition nudges_of (s : resumption) (name : string) : nat :=
  length (List.filter (fun x => String.eqb x.1.1 name) (ra_sent s)).

(** What has been published of a seat and how often it was nudged, by its phase. *)
Definition told (ph : seat_phase) (ks : list SeatEventKind) (n : nat) : Prop :=
  match ph with
  | SPacing how _ _ _ | SWaiting how _ _ _ _ | SNudging how _ _ _ _ => how <> ResumeAdopted /\ ks = [SeatResumed] /\ n = 0
  | STelling how _ _ => how <> ResumeAdopted /\ ks = [SeatResumed] /\ n = 1
  | SDone o =>
    match ro_Err o with
    | Some _ => ks = [SeatResumeFailed] /\ n = 0 /\ ro_Nudged o = false
    | None => if ro_Nudged o then ro_How o <> Some ResumeAdopted /\ ks = [SeatResumed; SeatNudged] /\ n = 1
              else ks = [SeatResumed] /\ n = 0
    end
  | _ => ks = [] /\ n = 0
  end.

Lemma nudge_text_how how h old text :
  nudge_text StartedWithoutHistory supersededSessionID TranscriptEndsMidTurn nudge restarted how h old = Some text ->
  how <> ResumeAdopted.
Proof. unfold nudge_text. destruct (decide _) as [|N]; [done|]. tauto. Qed.

Definition told_by (e : effect) : list SeatEventKind := match e with Told ev => [sv_Kind ev] | _ => [] end.
Definition sent_by (e : effect) : nat := match e with Sent _ => 1 | _ => 0 end.

Lemma goes_told s name ph ph' e ks n :
  goes s name ph ph' e -> told ph ks n -> told ph' (ks ++ told_by e) (n + sent_by e).
Proof.
  destruct 1 as [ph ph' S1 Wt S2|err old' ev K|how' h' old' ev ph' K _ _ _ E| |how' h' old' text' ph' at_ _ _ S| | | | |? ? ? ? K];
    intros T; cbn [told_by sent_by]; rewrite ?app_nil_r, ?Nat.add_0_r.
  - assert (ks = [] /\ n = 0) as [-> ->] by (destruct ph; done).
    destruct S2 as [S2|(up & old & _ & ->)]; [destruct ph'|]; done.
  - destruct T as [-> ->]. cbn. rewrite K. auto.
  - destruct T as [-> ->]. subst ph'. cbn. rewrite K.
    destruct (nudge_text _ _ _ _ _ _ _ _) eqn:X; [|done]. apply nudge_text_how in X. done.
  - done.
  - destruct S as [[-> _]| ->]; done.
  - done.
  - by destruct T as (_ & -> & ->).
  - destruct T as (A & -> & ->). done.
  - by destruct T as (_ & -> & ->).
  - destruct T as (A & -> & ->). cbn. rewrite K. split_and!; [|done..]. congruence.
Qed.

Lemma goes_names s name ph ph' e ev : goes s name ph ph' e -> e = Told ev -> sv_Name ev = name.
Proof. destruct 1; intros [= <-]; done. Qed.

Lemma goes_skipped s name ph e : ~ goes s name ph SSkipped e.
Proof.
  inversion 1 as [? ? ? ? [S|(? & ? & _ & S)]| |? ? ? ? ? ? ? ? ? S| |? ? ? ? ? ? ? ? [[S _]|S]| | | | |]; subst; try done.
  by destruct (nudge_text _ _ _ _ _ _ _ _).
Qed.

Record reported (names : list string) (s : resumption) : Prop := {
  rp_names : (ra_seats s).*1 ++ option_list (ra_main s) ++ ra_todo s = names;
  rp_told : forall i name ph, ra_seats s !! i = Some (name, ph) -> told ph (kinds_of s name) (nudges_of s name);
  rp_none : forall name, name ∉ (ra_seats s).*1 -> kinds_of s name = [] /\ nudges_of s name = 0;
  rp_skipped : forall i name, ra_seats s !! i = Some (name, SSkipped) -> ra_cancelled s = true }.

Lemma after_told s s' i name ph ph' e m :
  goes s name ph ph' e -> after_step s s' i name ph' e ->
  kinds_of s' m = kinds_of s m ++ (if decide (m = name) then told_by e else [])
  /\ nudges_of s' m = nudges_of s m + (if decide (m = name) then sent_by e else 0).
Proof.
  intros G A. split.
  - unfold kinds_of. rewrite (af_events _ _ _ _ _ _ A), List.filter_app, fmap_app. f_equal.
    destruct e as [|ev| |]; cbn; try by destruct (decide _). rewrite (goes_names _ _ _ _ _ _ G eq_refl).
    destruct (String.eqb_spec name m), (decide (m = name)); congruence || done.
  - unfold nudges_of. rewrite (af_sent _ _ _ _ _ _ A), List.filter_app, length_app. f_equal.
    destruct e as [| | |a]; cbn; try by destruct (decide _).
    destruct (String.eqb_spec name m), (decide (m = name)); congruence || done.
Qed.

Lemma fst_insert {A B} (l : list (A * B)) i x y z : l !! i = Some (x, y) -> (<[i := (x, z)]> l).*1 = l.*1.
Proof.
  intros L. rewrite list_fmap_insert. apply list_insert_id. by rewrite list_lookup_fmap, L.
Qed.

Lemma reported_after names s s' i name ph ph' e :
  NoDup names -> ra_seats s !! i = Some (name, ph) -> goes s name ph ph' e -> after_step s s' i name ph' e ->
  reported names s -> reported names s'.
Proof.
  intros D L G A [N T O K]. assert (i < length (ra_seats s)) as Lt by (by eapply lookup_lt_Some).
  pose proof (af_seats _ _ _ _ _ _ A) as As. split.
  - rewrite As, (fst_insert _ _ _ _ _ L), (af_main _ _ _ _ _ _ A), (af_todo _ _ _ _ _ _ A). done.
  - intros j m ph'' X. destruct (after_told _ _ _ _ _ _ _ m G A) as [-> ->]. rewrite As in X.
    destruct (decide (j = i)) as [->|J].
    + rewrite list_lookup_insert_eq in X by done. injection X as <- <-. rewrite !decide_True by done.
      eapply goes_told; [done|]. by eapply T.
    + rewrite list_lookup_insert_ne in X by done. assert (m <> name) as M.
      { intros ->. apply J. rewrite <-N in D. apply list.NoDup_app in D as [D _].
        eapply NoDup_lookup; [exact D|..]; by rewrite list_lookup_fmap, ?X, ?L. }
      rewrite !decide_False by done. rewrite app_nil_r, Nat.add_0_r. by eapply T.
  - intros m M. rewrite As, (fst_insert _ _ _ _ _ L) in M. destruct (after_told _ _ _ _ _ _ _ m G A) as [-> ->].
    rewrite !decide_False; [rewrite app_nil_r, Nat.add_0_r; by apply O| |];
      intros ->; apply M, list_elem_of_fmap; exists (name, ph); split; try done; by eapply list_elem_of_lookup_2.
  - intros j m X. rewrite (af_cancelled _ _ _ _ _ _ A). rewrite As in X. destruct (decide (j = i)) as [->|J].
    + rewrite list_lookup_insert_eq in X by done. injection X as <- ->. by apply goes_skipped in G.
    + rewrite list_lookup_insert_ne in X by done. by eapply K.
Qed.

Lemma reported_loop names s s' : NoDup names -> loop_goes s = Some s' -> reported names s -> reported names s'.
Proof.
  unfold SeatResume.loop_goes. intros D X [N T O K].
  assert (forall n ph l, (ra_seats s).*1 ++ n :: l = names -> told ph [] 0 ->
            (ph = SSkipped -> ra_cancelled s = true) -> forall s2, ra_cancelled s2 = ra_cancelled s ->
            ra_seats s2 = ra_seats s ++ [(n, ph)] -> ra_events s2 = ra_events s -> ra_sent s2 = ra_sent s ->
            option_list (ra_main s2) ++ ra_todo s2 = l -> reported names s2) as New.
  { intros n ph l E Td Sk s2 Ca As Ev Se Lo. assert (n ∉ (ra_seats s).*1) as Nn.
    { rewrite <-E in D. apply list.NoDup_app in D as (_ & D & _). intros X'. apply (D n X'). by left. }
    assert (forall m, kinds_of s2 m = kinds_of s m /\ nudges_of s2 m = nudges_of s m) as Same.
    { intros m. unfold kinds_of, nudges_of. by rewrite Ev, Se. }
    split.
    - rewrite As, fmap_app, <-app_assoc, Lo. exact E.
    - intros i m ph' L. destruct (Same m) as [-> ->]. rewrite As in L.
      apply lookup_app_Some in L as [L|[_ L]]; [by eapply T|].
      apply list_lookup_singleton_Some in L as [_ [= -> ->]]. destruct (O _ Nn) as [-> ->]. done.
    - intros m M. destruct (Same m) as [-> ->]. apply O. rewrite As, fmap_app in M. set_solver.
    - intros i m L. rewrite Ca. rewrite As in L. apply lookup_app_Some in L as [L|[_ L]]; [by eapply K|].
      apply list_lookup_singleton_Some in L as [_ [= _ ->]]. by apply Sk. }
  revert N. destruct (ra_main s) as [name|] eqn:M; [|destruct (ra_todo s) as [|name todo] eqn:Td; [done|]; destruct (ra_cancelled s) eqn:Ca];
    cbn [option_list app]; intros N.
  - destruct (_ <? _)%nat; [|done]. injection X as <-. by apply (New name SAdopting (ra_todo s)).
  - injection X as <-. apply (New name SSkipped todo); [done|done|done..|].
    cbn. by rewrite M.
  - injection X as <-. split; [done..|]. intros i m L. by specialize (K i m L).
Qed.

Lemma reported_resuming names s : NoDup names -> resuming names s -> reported names s.
Proof.
  intros D. induction 1 as [now r P|s s' _ IH St]; [by split|].
  destruct St as [s' E|uuid ok i s' E|i s' E| |dt P|r].
  - by eapply reported_loop.
  - apply seat_goes_spec in E as (name & ph & ph' & e & L & G & A). by eapply reported_after.
  - apply seat_cancelled_spec in E as (name & ph & ph' & L & G & A). by eapply reported_after.
  - by destruct IH; split.
  - by destruct IH; split.
  - by destruct IH; split.
Qed.

(** C9: Of each seat that a resume began to bring back is published, in this order
    and once each, that it came back or that it failed, and that it was nudged
    when it was: at most once, never a seat that was adopted. A seat whose turn
    came only after the context had ended is not begun: its outcome is the
    context's error and nothing is published of it. *)
Theorem each_seat_is_told_of_once names s :
  NoDup names -> resuming names s ->
  (ra_seats s).*1 ++ option_list (ra_main s) ++ ra_todo s = names
  /\ (forall i name ph, ra_seats s !! i = Some (name, ph) -> told ph (kinds_of s name) (nudges_of s name))
  /\ (forall i name, ra_seats s !! i = Some (name, SSkipped) -> ra_cancelled s = true)
  /\ (forall name, name ∉ (ra_seats s).*1 -> kinds_of s name = []).
Proof.
  intros D R. destruct (reported_resuming _ _ D R) as [N T O K]. split_and!; [done|done|done|].
  intros n X. by apply O.
Qed.

(** *** Ending *)

Definition steps_left (s : resumption) : nat :=
  13 * length (ra_todo s) + 12 * length (option_list (ra_main s)) + sum_list_with (fun kv => weight kv.2) (ra_seats s).

(** The steps of the loop and of the goroutines. *)
Inductive goroutine_step (s : resumption) : resumption -> Prop :=
| gor_loop s' : loop_goes s = Some s' -> goroutine_step s s'
| gor_seat uuid ok i s' : seat_goes uuid ok i s = Some s' -> goroutine_step s s'
| gor_cancelled i s' : seat_cancelled i s = Some s' -> goroutine_step s s'.

Lemma sum_insert {A} (f : A -> nat) l i x y :
  l !! i = Some x -> sum_list_with f (<[i := y]> l) + f x = sum_list_with f l + f y.
Proof.
  revert i. induction l as [|z l IH]; intros [|i]; try done.
  - intros [= ->]. cbn. lia.
  - intros L. specialize (IH i L). change (<[S i := y]> (z :: l)) with (z :: <[i := y]> l). cbn [sum_list_with]. lia.
Qed.

Lemma goes_weight s name ph ph' e : goes s name ph ph' e -> weight ph' < weight ph.
Proof.
  destruct 1 as [| |how' h' old' ev ph' _ _ _ _ E| |how' h' old' text' ph' at_ _ _ S| | | | |]; cbn; try lia.
  - subst ph'. destruct (nudge_text _ _ _ _ _ _ _ _); cbn; lia.
  - destruct S as [[-> _]| ->]; cbn; lia.
Qed.

Lemma after_less s s' i name ph ph' e :
  ra_seats s !! i = Some (name, ph) -> goes s name ph ph' e -> after_step s s' i name ph' e ->
  steps_left s' < steps_left s.
Proof.
  intros L G%goes_weight [As At Am _ _ _ _ _]. unfold steps_left. rewrite As, At, Am.
  pose proof (sum_insert (fun kv => weight kv.2) _ i _ (name, ph') L) as X. cbn in X. lia.
Qed.

Lemma goroutine_less s s' : goroutine_step s s' -> steps_left s' < steps_left s.
Proof.
  destruct 1 as [s' E|uuid ok i s' E|i s' E].
  - unfold SeatResume.loop_goes in E. unfold steps_left. destruct (ra_main s) as [name|] eqn:M.
    + destruct (_ <? _)%nat; [|done]. injection E as <-. cbn. rewrite sum_list_with_app. cbn. lia.
    + destruct (ra_todo s) as [|name todo] eqn:T; [done|]. destruct (ra_cancelled s); injection E as <-; cbn.
      * rewrite M, sum_list_with_app. cbn. lia.
      * lia.
  - apply seat_goes_spec in E as (name & ph & ph' & e & L & G & A). by eapply after_less.
  - apply seat_cancelled_spec in E as (name & ph & ph' & L & G & A). by eapply after_less.
Qed.

(** A seat that is not done can go on, when its slot has come. *)
Lemma seat_can_go uuid ok i s name ph :
  ra_seats s !! i = Some (name, ph) -> outcome_of ph = None ->
  (forall how h old text slot, ph = SWaiting how h old text slot -> (slot <= ra_now s)%Z) ->
  is_Some (seat_goes uuid ok i s).
Proof.
  intros L Nd Sl. unfold SeatResume.seat_goes. rewrite L.
  destruct ph as [| | | | | |[[how h]|err] old| |how h old text slot| | |o|]; try discriminate Nd; try (by eexists).
  - destruct (spacing <=? 0)%Z; by eexists.
  - rewrite (proj2 (Z.leb_le slot (ra_now s))) by (by eapply Sl). by eexists.
  - destruct ok; by eexists.
Qed.

Lemma unfinished_goes s :
  ~ resume_ended s ->
  exists dt, (0 <= dt)%Z /\ exists s', goroutine_step (s <| ra_now ::= Z.add dt |>) s'.
Proof.
  intros Ne. destruct (decide (Exists (fun kv => negb (bool_decide (weight kv.2 = 0))) (ra_seats s))) as [X|X].
  - apply list.Exists_exists in X as ([name ph] & I & W). apply list_elem_of_lookup in I as [i L].
    apply negb_prop_elim in W. rewrite bool_decide_spec in W. cbn in W.
    assert (outcome_of ph = None) as Nd by (destruct ph; done).
    exists (match ph with SWaiting _ _ _ _ slot => Z.max 0 (slot - ra_now s) | _ => 0 end)%Z.
    split; [destruct ph; lia|]. set (s1 := s <| ra_now ::= _ |>).
    destruct (seat_can_go "" true i s1 name ph) as [s' E]; [done|done| |].
    + intros how h old text slot ->. cbn. lia.
    + exists s'. by eapply gor_seat.
  - exists 0%Z. split; [done|]. set (s1 := s <| ra_now ::= _ |>).
    assert (in_flight s1 = 0) as Fl.
    { unfold in_flight. cbn. clear -X. induction (ra_seats s) as [|[n ph] l IH]; [done|]. cbn.
      rewrite Exists_cons in X. assert (starting ph = false) as ->; [|apply IH; tauto].
      destruct (starting ph) eqn:S; [|done]. exfalso. apply X. left. by destruct ph. }
    destruct (loop_goes s1) as [s'|] eqn:E; [exists s'; by apply gor_loop|]. exfalso. apply Ne.
    unfold SeatResume.loop_goes in E. rewrite Fl in E.
    change (ra_main s1) with (ra_main s) in E. change (ra_todo s1) with (ra_todo s) in E.
    change (ra_cancelled s1) with (ra_cancelled s) in E. pose proof resume_conc_pos as P.
    destruct (ra_main s) as [name|] eqn:M; [rewrite (proj2 (Nat.ltb_lt 0 _) P) in E; done|].
    destruct (ra_todo s) as [|name todo] eqn:T; [|destruct (ra_cancelled s); done].
    split_and!; [done|done|]. apply list.Forall_forall. intros [n ph] I. cbn.
    destruct (decide (weight ph = 0)) as [W|W]; [destruct ph; try done; eauto|].
    exfalso. apply X. apply list.Exists_exists. exists (n, ph). split; [done|]. cbn. by rewrite bool_decide_eq_false_2.
Qed.

(** C10: A resume ends: whatever has happened, some goroutine can go on, at once or
    when a slot has come, until every seat has its outcome; each such step lowers
    the number of steps that are left, and nothing else raises it. *)
Theorem a_resume_always_ends names s :
  resuming names s ->
  (forall s', goroutine_step s s' -> steps_left s' < steps_left s)
  /\ (forall s', resume_step s s' -> steps_left s' <= steps_left s)
  /\ (~ resume_ended s -> exists dt, (0 <= dt)%Z /\ exists s', goroutine_step (s <| ra_now ::= Z.add dt |>) s')
  /\ exists s', rtc resume_step s s' /\ resume_ended s'.
Proof.
  intros _. assert (forall s s', goroutine_step s s' -> resume_step s s') as Inc.
  { intros x x' []; [by apply step_loop|by eapply step_seat|by eapply step_cancelled]. }
  split_and!.
  - apply goroutine_less.
  - intros s' []; [apply Nat.lt_le_incl, goroutine_less; by econstructor..|done|done|done].
  - by apply unfinished_goes.
  - remember (steps_left s) as n eqn:E. revert s E. induction (lt_wf n) as [n _ IH]. intros s ->.
    assert (Decision (resume_ended s)) as De.
    { unfold resume_ended. repeat apply and_dec; [apply _| |].
      - destruct (ra_main s); [by right|by left].
      - apply Forall_dec. intros [m ph]. cbn. destruct (outcome_of ph); [left; by eexists|right; by intros [? [=]]]. }
    destruct De as [X|X]; [by exists s|]. destruct (unfinished_goes _ X) as (dt & P & s1 & G).
    pose proof (goroutine_less _ _ G) as Le. destruct (IH (steps_left s1) Le s1 eq_refl) as (s' & R & End).
    exists s'. split; [|done]. eapply rtc_l; [by apply step_time|]. eapply rtc_l; [by apply Inc|done].
Qed.
End Resume.

(** ** Runs *)

Module Resumes.
Section Demo.
Variable startProc : Config -> option proc * option start_error.
Definition no_adopt (c : Config) : option proc * option start_error :=
  (None, Some (MkStartError true false false false false "none")).

Abbreviation demo_step := (resume_step (fun _ => true) (fun _ => false) None None no_adopt startProc (fun _ => false)
  (fun _ => "") (fun _ => None) "" "T" 1 Minute).
Abbreviation demo_resuming := (resuming (fun _ => true) (fun _ => false) None None no_adopt startProc (fun _ => false)
  (fun _ => "") (fun _ => None) "" "T" 1 Minute).

Inductive act := ALoop | ASeat (i : nat) | AWait (dt : Duration).
Definition does (a : act) (s : resumption) : option resumption :=
  match a with
  | ALoop => loop_goes 1 s
  | ASeat i => seat_goes (fun _ => true) (fun _ => false) None None no_adopt startProc (fun _ => false)
                 (fun _ => "") (fun _ => None) "" "T" Minute "new" true i s
  | AWait dt => if (0 <=? dt)%Z then Some (s <| ra_now ::= Z.add dt |>) else None
  end.
Definition acts (l : list act) (s : resumption) : option resumption := foldl (fun s a => s ≫= does a) (Some s) l.

Lemma acts_resuming names l s s' : acts l s = Some s' -> demo_resuming names s -> demo_resuming names s'.
Proof.
  unfold acts. revert s. induction l as [|a l IH]; cbn; intros s; [by intros [= <-]|].
  destruct (does a s) as [s1|] eqn:E.
  - intros A R. apply (IH s1 A). eapply resuming_step; [done|]. destruct a as [|i|dt]; cbn in E.
    + by apply step_loop.
    + by eapply step_seat.
    + destruct (Z.leb_spec 0 dt); [|done]. injection E as <-. by apply step_time.
  - intros A. exfalso. revert A. clear. induction l; [done|exact IHl].
Qed.
End Demo.

Definition def_of (name session : string) : AgentDef :=
  no_def <| d_Name := name |> <| d_Provider := "claude" |> <| d_SessionID := session |> <| d_AutoStart := true |>.
Definition holding (l : list AgentDef) : Registry :=
  MkRegistry (list_to_map ((fun d => (d_Name d, d)) <$> l)) ∅ ∅ ∅ ∅ false ∅ None.
Definition starts (c : Config) : option proc * option start_error :=
  (Some (MkProc true "claude" "m" (d_SessionID (c_Def c)) "" 1), None).
(** A provider that no longer loads the session [old] and starts nothing else. *)
Definition refuses (c : Config) : option proc * option start_error :=
  (None, Some (MkStartError false false false (String.eqb (d_SessionID (c_Def c)) "old") false "no")).

Definition both : Registry := holding [def_of "a" "sa"; def_of "b" "sb"].
Definition both_run : list act :=
  [ALoop; ALoop; ASeat 0; ASeat 0; ASeat 0; ALoop; ALoop; ASeat 1; ASeat 1; ASeat 1; ASeat 1; ASeat 0; ASeat 1; ASeat 0;
   ASeat 1; AWait Minute; ASeat 0; ASeat 0].
Definition both_ran : resumption := default (resume_begins Second both ["a"; "b"]) (acts starts both_run (resume_begins Second both ["a"; "b"])).

Lemma both_resuming : resuming (fun _ => true) (fun _ => false) None None no_adopt starts (fun _ => false)
  (fun _ => "") (fun _ => None) "" "T" 1 Minute ["a"; "b"] both_ran.
Proof.
  apply (acts_resuming starts _ both_run (resume_begins Second both ["a"; "b"])); [vm_compute; reflexivity|].
  by apply resuming_start.
Qed.

Lemma resumes_are_bounded_and_spaced_witness :
  ra_sent both_ran = [("b", Second, Second); ("a", (Second + Minute)%Z, (Second + Minute)%Z)]
  /\ in_flight both_ran <= 1.
Proof.
  split; [vm_compute; reflexivity|].
  apply (resumes_are_bounded_and_spaced _ _ _ _ _ _ _ _ _ _ _ _ _ _ _ both_resuming).
Defined.

Lemma each_seat_is_told_of_once_witness : kinds_of both_ran "b" = [SeatResumed] /\ kinds_of both_ran "c" = [].
Proof.
  split; [vm_compute; reflexivity|].
  apply (each_seat_is_told_of_once (fun _ => true) (fun _ => false) None None no_adopt starts (fun _ => false)
    (fun _ => "") (fun _ => None) "" "T" 1 Minute ["a"; "b"] both_ran ltac:(by apply NoDup_cons; split; [set_solver|apply NoDup_singleton]) both_resuming).
  vm_compute. set_solver.
Defined.

Lemma a_resume_always_ends_witness :
  exists s, rtc (resume_step (fun _ => true) (fun _ => false) None None no_adopt starts (fun _ => false)
    (fun _ => "") (fun _ => None) "" "T" 1 Minute) both_ran s /\ resume_ended s.
Proof. apply (a_resume_always_ends _ _ _ _ _ _ _ _ _ _ _ _ _ _ _ both_resuming). Defined.

(** A process that dies is reported at the next look, and not at the one after. *)
Definition dead_seat (busy : bool) : Registry :=
  MkRegistry ∅ {["s" := 0]} ∅ ∅ (if busy then {["s" := MkLifecycle 1 0 0 false]} else ∅) false ∅ None.

Lemma each_death_is_reported_once_witness :
  let ticks := [((fun _ => false), dead_seat false); ((fun _ => false), dead_seat false)] in
  watchSeats ∅ ticks = [[("s", 0)]; []] /\ (("s", 0) ∈ [("s", 0)] <-> sees ticks 0 "s" = Some 0 /\ dead ticks 0 0
       /\ ~ exists j, j < 0 /\ dead ticks j 0 /\ forall i, j <= i <= 0 -> sees ticks i "s" = Some 0).
Proof.
  cbv zeta. split; [vm_compute; reflexivity|].
  apply (each_death_is_reported_once [((fun _ => false), dead_seat false); ((fun _ => false), dead_seat false)] 0 [("s", 0)]).
  vm_compute. reflexivity.
Defined.

(** An operation that was in flight at one look makes the watch report the same
    death again. *)
Lemma a_death_is_reported_twice :
  watchSeats ∅ [((fun _ => false), dead_seat false); ((fun _ => false), dead_seat true); ((fun _ => false), dead_seat false)]
  = [[("s", 0)]; []; [("s", 0)]].
Proof. vm_compute. reflexivity. Qed.

(** A seat whose conversation is refused is given a fresh session; when that fails
    to start, the next restart launches it on the fresh session and tells it that
    its session was resumed from its transcript. *)
Definition refused_run : list act := [ALoop; ALoop; ASeat 0; ASeat 0; ASeat 0; ASeat 0; ASeat 0; ASeat 0; ASeat 0].
Definition refused : resumption :=
  let s := resume_begins Second (holding [def_of "s" "old"]) ["s"] in default s (acts refuses refused_run s).
Definition next_boot : resumption :=
  let r := holding (map_to_list (rg_agents (ra_reg refused))).*2 in
  let s := resume_begins Second r ["s"] in default s (acts starts [ALoop; ALoop; ASeat 0; ASeat 0; ASeat 0; ASeat 0] s).

Lemma a_lost_conversation_is_not_told :
  (d_SessionID <$> rg_agents (ra_reg refused) !! "s") = Some "new"
  /\ kinds_of refused "s" = [SeatResumeFailed]
  /\ (ra_seats next_boot).*2 = [SPacing ResumeLaunched 0 "" (DefaultRestartNudge "T")].
Proof. split_and!; vm_compute; reflexivity. Qed.
End Resumes.
