(* ===== verification/Goal.v ===== *)
(** * Goal: keeping an agent at its objective

    Models [goal.go]: what the events of an agent do to its goal, and the firing of
    the settle timer, which asks the host, decides, and sends the continuation,
    with the mutex released in between. A step is a stretch under the mutex, the
    host's answer, or the send. And [askOwnerGoalCheck] and [handleGoalVerdict] of
    [daemon/daemon.go], by which a daemon asks the owner of a seat. *)

From Stdlib Require Import Ascii.
From S2P Require Import Prelude GoLib TurnWait.

(** ** Texts *)

Definition GoalStatusComplete : string := "GOAL_STATUS: complete".
Definition GoalStatusBlocked : string := "GOAL_STATUS: blocked".
Definition goalStallLimit : nat := 3.
Definition ProgressGoalStalled : string := "goal_stalled".
Definition ProgressToolUse : string := "tool_use".

(** [ParseGoalStatus]: the first line that is a marker. *)
Definition line_status (line : string) : option string :=
  let l := TrimSpace line in
  if decide (l = GoalStatusComplete) then Some GoalStatusComplete
  else if decide (l = GoalStatusBlocked) then Some GoalStatusBlocked else None.
Definition ParseGoalStatus (text : string) : option string := head (omap line_status (split_byte (byte 10) text)).

(** [strings.Fields]; [word] is the field being read. *)
Fixpoint fields_by_space (fuel : nat) (s word : string) : list string :=
  let done := if decide (word = "") then [] else [word] in
  match fuel with
  | O => done
  | S fuel =>
    match List.find (has_prefix s) space_runes with
    | Some w => done ++ fields_by_space fuel (drop_bytes (len w) s) ""
    | None =>
      match s with
      | EmptyString => done
      | String a s' => fields_by_space fuel s' (word +:+ String a "")
      end
    end
  end.
Definition Fields (s : string) : list string := fields_by_space (S (len s)) s "".

Definition goalContinuationMarker : string := "Continue the open objective".
Definition goalContinuation (goal : string) : string :=
  let obj := Join (Fields (TrimSpace goal)) " " in
  goalContinuationMarker +:+ " (previous turn did not finish it). " +:+
  "Objective: " +:+ obj +:+ ". " +:+
  "Work until evidenced complete or blocked. " +:+
  "When complete emit exactly: " +:+ GoalStatusComplete +:+ " " +:+
  "When blocked emit exactly: " +:+ GoalStatusBlocked +:+ " " +:+
  "Emit neither unless true.".

(** ** The loop *)

(** An event with the fields of a tool call. *)
Record goal_event := MkGoalEvent { ge_Event : Event; ge_ToolCallID : string; ge_ToolTitle : string }.

Definition goalEventShowsWork (e : goal_event) : bool :=
  (bool_decide (ev_Type (ge_Event e) = "assistant") && bool_decide (ev_StopReason (ge_Event e) = "tool_use"))
  || bool_decide (ev_ProgressType (ge_Event e) = ProgressToolUse)
  || negb (bool_decide (ge_ToolCallID e = "")) || negb (bool_decide (ge_ToolTitle e = "")).

(** A firing of the timer: about to look, asking the host about a turn, about to
    decide, about to continue, sending; or saying that the goal has stalled. *)
Inductive firing :=
| FLooking
| FAsking (goal text : string)
| FDeciding (goal : string)
| FContinuing (goal : string)
| FSending (goal : string)
| FStalling (idle : nat)
| FEnded.

(** The goal's part of an [Agent]: [gl_timer] is when the armed timer is due;
    [gl_loose] are the timers it lost sight of, which nothing stops; [gl_alive] is
    the agent's. [gl_sent] keeps every continuation handed to [Send],
    [gl_stalled] every stall that was published and [gl_decided] what each
    decision about an open goal found, work or none; [gl_work] counts the events
    that showed work. *)
Record goal_loop := MkGoal {
  gl_goal : string; gl_closed : bool; gl_terminal : bool; gl_timer : option Time; gl_turn : string;
  gl_worked : bool; gl_idle : nat; gl_alive : bool; gl_now : Time; gl_firings : list firing;
  gl_sent : list string; gl_stalled : list nat; gl_work : nat;
  gl_loose : list Time; gl_decided : list bool }.

#[export] Instance eta_goal : Eta goal_loop := fun g =>
  MkGoal (gl_goal g) (gl_closed g) (gl_terminal g) (gl_timer g) (gl_turn g) (gl_worked g) (gl_idle g)
    (gl_alive g) (gl_now g) (gl_firings g) (gl_sent g) (gl_stalled g) (gl_work g)
    (gl_loose g) (gl_decided g).
#[export] Hint Extern 1 (@Setter goal_loop _ _) => setter_of eta_goal : typeclass_instances.

(** A started agent's goal. *)
Definition goal_starts (goal : string) (now : Time) : goal_loop :=
  MkGoal (TrimSpace goal) false false None "" false 0 true now [] [] [] 0 [] [].

Definition GoalActive (g : goal_loop) : bool := negb (bool_decide (gl_goal g = "")) && negb (gl_closed g).

Definition closeGoalLocked (g : goal_loop) : goal_loop :=
  g <| gl_closed := true |> <| gl_timer := None |> <| gl_terminal := false |> <| gl_turn := "" |>
    <| gl_worked := false |> <| gl_idle := 0%nat |>.

(** [noteGoalEvent], under the mutex of [publishEvent]; [brokered] says that the
    handle is a daemon's. *)
Definition noteGoalEvent (brokered : bool) (e : goal_event) (g : goal_loop) : goal_loop :=
  if negb (GoalActive g) || brokered then g
  else if ev_IsError (ge_Event e) then
    g <| gl_timer := None |> <| gl_terminal := false |> <| gl_turn := "" |> <| gl_worked := false |>
  else
    let g := if goalEventShowsWork e then g <| gl_worked := true |> <| gl_work ::= S |> else g in
    if negb (bool_decide (ev_Type (ge_Event e) = "assistant")) then g
    else
      let g := g <| gl_turn ::= fun t => appendTurnText t (ge_Event e) |> in
      let g := if IsTerminalStop (ge_Event e) then g <| gl_terminal := true |> else g in
      match ParseGoalStatus (gl_turn g) with
      | Some _ => closeGoalLocked g
      | None => if gl_terminal g then g <| gl_timer := Some (Add (gl_now g) waitSettleDuration) |> else g
      end.

(** *** [maybeContinueGoal] *)

Definition goal_open (g : goal_loop) : bool := GoalActive g && gl_alive g.

(** The first stretch; [check] says whether the host has a hook. *)
Definition firing_looks (check : bool) (g : goal_loop) : goal_loop * firing :=
  if negb (goal_open g) then (g, FEnded)
  else match ParseGoalStatus (gl_turn g) with
       | Some _ => (closeGoalLocked g, FEnded)
       | None => (g, if check then FAsking (gl_goal g) (gl_turn g) else FDeciding (gl_goal g))
       end.

Definition firing_asked (complete : bool) (goal : string) (g : goal_loop) : goal_loop * firing :=
  if complete then (closeGoalLocked g, FEnded) else (g, FDeciding goal).

(** The second stretch. A timer that was armed again while the host was asked is
    forgotten, not stopped. *)
Definition firing_decides (goal : string) (g : goal_loop) : goal_loop * firing :=
  if negb (goal_open g) then (g, FEnded)
  else
    let g := g <| gl_idle := (if gl_worked g then 0 else S (gl_idle g))%nat |>
               <| gl_decided ::= fun l => l ++ [gl_worked g] |> in
    if (goalStallLimit <=? gl_idle g)%nat then (closeGoalLocked g, FStalling (gl_idle g))
    else (g <| gl_terminal := false |> <| gl_turn := "" |> <| gl_worked := false |>
            <| gl_loose ::= fun l => l ++ option_list (gl_timer g) |> <| gl_timer := None |>,
          FContinuing goal).

(** One step of a firing: what the host answers, whether a prompt is in flight and
    whether the send succeeds are [b]. *)
Definition firing_goes (check b : bool) (f : firing) (g : goal_loop) : option (goal_loop * firing) :=
  match f with
  | FLooking => Some (firing_looks check g)
  | FAsking goal _ => Some (firing_asked b goal g)
  | FDeciding goal => Some (firing_decides goal g)
  | FContinuing goal => Some (g, if b then FEnded else FSending goal)
  | FSending goal =>
    let g := g <| gl_sent ::= fun l => l ++ [goalContinuation goal] |> in
    Some (if b then g else closeGoalLocked g, FEnded)
  | FStalling idle => Some (g <| gl_stalled ::= fun l => l ++ [idle] |>, FEnded)
  | FEnded => None
  end.

Inductive goal_label :=
| GEvent (e : goal_event)
| GFire
| GLoose (i : nat)
| GFiring (k : nat) (check b : bool)
| GClose
| GDies
| GTime (dt : Duration).

Definition goal_exec (brokered : bool) (l : goal_label) (g : goal_loop) : option goal_loop :=
  match l with
  | GEvent e => Some (noteGoalEvent brokered e g)
  | GFire =>
    match gl_timer g with
    | Some due => if (due <=? gl_now g)%Z
                  then Some (g <| gl_timer := None |> <| gl_firings ::= fun l => l ++ [FLooking] |>) else None
    | None => None
    end
  | GLoose i =>
    match gl_loose g !! i with
    | Some due => if (due <=? gl_now g)%Z
                  then Some (g <| gl_loose ::= delete i |> <| gl_firings ::= fun l => l ++ [FLooking] |>) else None
    | None => None
    end
  | GFiring k check b =>
    match gl_firings g !! k with
    | Some f => (fun r => r.1 <| gl_firings ::= <[k := r.2]> |>) <$> firing_goes check b f g
    | None => None
    end
  | GClose => Some (closeGoalLocked g)
  | GDies => Some (g <| gl_alive := false |>)
  | GTime dt => if (0 <=? dt)%Z then Some (g <| gl_now ::= Z.add dt |>) else None
  end.

Inductive goal_reachable (brokered : bool) (goal : string) : goal_loop -> Prop :=
| goal_reach_start now : goal_reachable brokered goal (goal_starts goal now)
| goal_reach_step g l g' :
    goal_reachable brokered goal g -> goal_exec brokered l g = Some g' -> goal_reachable brokered goal g'.

(** ** The daemon's question to the owner *)

(** [pendingGoalCheck]: the channel holds one verdict. *)
Record pendingGoalCheck := MkCheck { gk_owner : nat; gk_verdict : option bool }.
Abbreviation goal_checks := (gmap string pendingGoalCheck) (only parsing).

(** [askOwnerGoalCheck] up to the write: [owner] is the seat's, [id] new. *)
Definition ask_starts (owner : option nat) (id : string) (cs : goal_checks) : option goal_checks :=
  match owner with
  | Some c => Some (<[id := MkCheck c None]> cs)
  | None => None
  end.

(** Its end: [waited] when the verdict was taken, else the write failed, the time
    passed or the daemon closes. *)
Definition ask_ends (waited : bool) (id : string) (cs : goal_checks) : goal_checks * option bool :=
  match cs !! id ≫= gk_verdict with
  | Some v => (delete id cs, Some (waited && v))
  | None => if waited then (cs, None) else (delete id cs, Some false)
  end.

(** [handleGoalVerdict]: whether the sender is refused. *)
Definition handleGoalVerdict (c : nat) (id : string) (answered complete : bool) (cs : goal_checks)
    : goal_checks * bool :=
  match cs !! id with
  | None => (cs, true)
  | Some p =>
    if decide (gk_owner p = c) then
      (match gk_verdict p with
       | None => <[id := MkCheck (gk_owner p) (Some (answered && complete))]> cs
       | Some _ => cs
       end, true)
    else (cs, false)
  end.
