(* ===== verification/GoalTheorems.v ===== *)
(** * GoalTheorems: how far the host pushes an agent

    That continuations are bounded by the work an agent shows, that a closed goal
    stays closed, what closes it, and what a continuation looks like. *)

From Stdlib Require Import Ascii.
From S2P Require Import Prelude GoLib TurnWait Goal.

(** ** Texts *)

Lemma ParseGoalStatus_spec t :
  is_Some (ParseGoalStatus t) <->
  exists line, line ∈ split_byte (byte 10) t /\ TrimSpace line ∈ [GoalStatusComplete; GoalStatusBlocked].
Proof.
  unfold ParseGoalStatus. set (ls := split_byte _ t). assert (forall l, is_Some (line_status l) <->
    TrimSpace l ∈ [GoalStatusComplete; GoalStatusBlocked]) as S.
  { intros l. unfold line_status. set (x := TrimSpace l).
    destruct (decide (x = GoalStatusComplete)) as [->|]; [split; [left|by eexists]|].
    destruct (decide (x = GoalStatusBlocked)) as [->|]; [split; [right; left|by eexists]|].
    split; [by intros [? [=]]|]. intros [?|[?|[]%elem_of_nil]%elem_of_cons]%elem_of_cons; congruence. }
  clearbody ls. induction ls as [|l ls IH]; [cbn; split; [by intros [? [=]]|intros (? & []%elem_of_nil & _)]|].
  cbn [omap list_omap]. destruct (line_status l) as [m|] eqn:E; cbn [head].
  - split; [|by eexists]. intros _. exists l. split; [left|]. apply S. by eexists.
  - change (match omap line_status ls with [] => None | x :: _ => Some x end) with (head (omap line_status ls)).
    rewrite IH. split; intros (x & I & M); exists x; (split; [|done]); [by right|].
    apply elem_of_cons in I as [->|I]; [|done]. apply S in M as [? M]. congruence.
Qed.

Definition no_newline (s : string) : Prop := byte 10 ∉ String.list_ascii_of_string s.

Lemma no_newline_app s t : no_newline (s +:+ t) <-> no_newline s /\ no_newline t.
Proof.
  unfold no_newline. assert (String.list_ascii_of_string (s +:+ t) =
    String.list_ascii_of_string s ++ String.list_ascii_of_string t) as ->.
  { induction s as [|a s IH]; [done|]. change (String a s +:+ t) with (String a (s +:+ t)). cbn. by rewrite IH. }
  rewrite elem_of_app. tauto.
Qed.

Lemma fields_no_newline fuel s word :
  no_newline word -> Forall no_newline (fields_by_space fuel s word).
Proof.
  assert (forall w, no_newline w -> Forall no_newline (if decide (w = "") then [] else [w])) as D.
  { intros w W. destruct (decide _); [constructor|]. by repeat constructor. }
  revert s word. induction fuel as [|fuel IH]; intros s word W; cbn [fields_by_space]; [by apply D|].
  destruct (List.find (has_prefix s) space_runes) as [w|] eqn:F.
  - apply list.Forall_app. split; [by apply D|]. apply IH. unfold no_newline. cbn. set_solver.
  - destruct s as [|a s]; [by apply D|]. apply IH. apply no_newline_app. split; [done|].
    unfold no_newline. cbn. rewrite list_elem_of_singleton. intros <-.
    eapply List.find_none in F; [|right; left; reflexivity]. revert F. vm_compute. by destruct s.
Qed.

Lemma Join_no_newline l : Forall no_newline l -> no_newline (Join l " ").
Proof.
  induction l as [|x l IH]; intros F; [unfold no_newline; cbn; set_solver|]. apply list.Forall_cons in F as [X F].
  destruct l as [|y l]; [done|]. cbn [Join]. apply no_newline_app. split; [done|]. apply no_newline_app.
  split; [|by apply IH]. unfold no_newline. cbn. rewrite list_elem_of_singleton. discriminate.
Qed.

Lemma split_no_newline s : no_newline s -> split_byte (byte 10) s = [s].
Proof.
  unfold no_newline. induction s as [|a s IH]; [done|]. cbn [String.list_ascii_of_string]. rewrite not_elem_of_cons.
  intros [N X]. cbn [split_byte]. destruct (Ascii.eqb_spec a (byte 10)); [congruence|]. by rewrite IH.
Qed.

(** Trimming at the end leaves nothing or the same first byte. *)
Lemma take_first n s : take_bytes n s = "" \/ String.get 0 (take_bytes n s) = String.get 0 s.
Proof. unfold take_bytes. destruct s as [|a s], n as [|n]; cbn; auto. Qed.

Lemma trim_right_first fuel s : trim_right fuel s = "" \/ String.get 0 (trim_right fuel s) = String.get 0 s.
Proof.
  revert s. induction fuel as [|fuel IH]; intros s; cbn [trim_right]; [auto|].
  destruct (List.find _ _) as [w|]; [|auto]. destruct (IH (take_bytes (len s - len w) s)) as [->|E]; [auto|].
  rewrite E. destruct (take_first (len s - len w) s) as [E'|E']; [|auto]. left. rewrite E'. by destruct fuel.
Qed.

(** A continuation is one line and no status. *)
Lemma continuation_is_one_line goal :
  no_newline (goalContinuation goal) /\ ParseGoalStatus (goalContinuation goal) = None.
Proof.
  assert (no_newline (goalContinuation goal)) as N.
  { unfold goalContinuation. rewrite !no_newline_app. split_and!; try (unfold no_newline; by apply (bool_decide_unpack _)).
    apply Join_no_newline, fields_no_newline. unfold no_newline. cbn. set_solver. }
  split; [done|]. unfold ParseGoalStatus. rewrite split_no_newline by done. cbn [omap list_omap].
  set (t := goalContinuation goal). assert (TrimSpace t = "" \/ String.get 0 (TrimSpace t) = Some "C"%char) as T.
  { unfold TrimSpace. assert (trim_left (S (len t)) t = t) as -> by reflexivity. apply trim_right_first. }
  assert (line_status t = None) as ->; [|done]. unfold line_status.
  rewrite !decide_False; [done|..]; intros E; rewrite E in T; destruct T as [T|T]; discriminate T.
Qed.

(** ** Bounds *)

Definition going (f : firing) : nat := match f with FContinuing _ | FSending _ => 1 | _ => 0 end.
(** The continuations handed to [Send] or on their way to it, and the stalls. *)
Definition continued (g : goal_loop) : nat := length (gl_sent g) + sum_list_with going (gl_firings g).




Lemma sum_insert_at {A} (f : A -> nat) l i x y :
  l !! i = Some x -> sum_list_with f (<[i := y]> l) + f x = sum_list_with f l + f y.
Proof.
  revert i. induction l as [|z l IH]; intros [|i]; try done.
  - intros [= ->]. cbn. lia.
  - intros L. specialize (IH i L). change (<[S i := y]> (z :: l)) with (z :: <[i := y]> l). cbn [sum_list_with]. lia.
Qed.























(** ** Closing *)

Abbreviation goal_runs brokered := (run_steps (goal_exec brokered)).


Lemma put_continued g g' k f f' :
  gl_firings g !! k = Some f -> gl_firings g' = gl_firings g -> gl_sent g' = gl_sent g -> going f' <= going f ->
  continued (g' <| gl_firings ::= <[k := f']> |>) <= continued g.
Proof.
  intros K F S L. unfold continued. cbn. rewrite F, S. pose proof (sum_insert_at going _ _ _ f' K). lia.
Qed.

Lemma closed_stays brokered l g g' :
  goal_exec brokered l g = Some g' -> gl_closed g = true -> gl_closed g' = true /\ continued g' <= continued g.
Proof.
  intros E C. assert (goal_open g = false) as O by (unfold goal_open, GoalActive; by rewrite C, andb_false_r).
  destruct l as [e| |i|k check b| | |dt]; cbn in E.
  - injection E as <-. unfold noteGoalEvent, GoalActive. rewrite C, andb_false_r. cbn. auto.
  - destruct (gl_timer g) as [due|]; [|done]. destruct (_ <=? _)%Z; [|done]. injection E as <-. split; [done|].
    unfold continued. cbn. rewrite sum_list_with_app. cbn. lia.
  - destruct (gl_loose g !! i) as [due|]; [|done]. destruct (_ <=? _)%Z; [|done]. injection E as <-. split; [done|].
    unfold continued. cbn. rewrite sum_list_with_app. cbn. lia.
  - destruct (gl_firings g !! k) as [f|] eqn:K; [|done]. destruct (firing_goes check b f g) as [r|] eqn:G; [|done].
    injection E as <-. destruct f as [|goal text|goal|goal|goal|idle|]; cbn in G; [injection G as <-; cbn [fst snd]..|done].
    + unfold firing_looks. rewrite O. cbn. split; [done|]. by eapply put_continued.
    + unfold firing_asked. destruct b; (split; [done|]); by eapply put_continued.
    + unfold firing_decides. rewrite O. cbn. split; [done|]. by eapply put_continued.
    + split; [done|]. destruct b; eapply put_continued; try done. cbn. lia.
    + split; [by destruct b|]. unfold continued.
      pose proof (sum_insert_at going _ _ _ FEnded K) as X. cbn in X. destruct b; cbn; rewrite length_app; cbn; lia.
    + split; [done|]. by eapply put_continued.
  - injection E as <-. auto.
  - injection E as <-. auto.
  - destruct (0 <=? dt)%Z; [|done]. injection E as <-. auto.
Qed.

(** The text of a turn closes its goal exactly when one of its lines is a status
    line, in the step that completes the line; and from a closed goal on, whatever
    happens, it stays closed and no further continuation is begun. *)
Theorem a_status_line_closes_for_good e g :
  GoalActive g = true -> ev_IsError (ge_Event e) = false -> ev_Type (ge_Event e) = "assistant" ->
  (gl_closed (noteGoalEvent false e g) = true <->
     exists line, line ∈ split_byte (byte 10) (appendTurnText (gl_turn g) (ge_Event e))
                  /\ TrimSpace line ∈ [GoalStatusComplete; GoalStatusBlocked])
  /\ forall ls g1 g2, goal_runs false ls g1 = Some g2 -> gl_closed g1 = true ->
       gl_closed g2 = true /\ continued g2 <= continued g1.
Proof.
  intros A Er Ty. split.
  - rewrite <-ParseGoalStatus_spec. unfold noteGoalEvent. rewrite A, Er, Ty. cbn [negb orb].
    rewrite (bool_decide_eq_true_2 _ eq_refl). cbn [negb].
    assert (gl_closed g = false) as C by (unfold GoalActive in A; destruct (gl_closed g); [by rewrite andb_false_r in A|done]).
    set (g1 := if goalEventShowsWork e then _ else g). assert (gl_turn g1 = gl_turn g /\ gl_closed g1 = false) as [T1 C1].
    { unfold g1. by destruct (goalEventShowsWork e). }
    set (g2 := g1 <| gl_turn ::= _ |>).
    set (g3 := if IsTerminalStop (ge_Event e) then g2 <| gl_terminal := true |> else g2).
    assert (gl_turn g3 = appendTurnText (gl_turn g) (ge_Event e) /\ gl_closed g3 = false) as [T3 C3].
    { unfold g3. destruct (IsTerminalStop _); cbn; by rewrite T1. }
    rewrite T3. destruct (ParseGoalStatus _) as [st|]; [split; [by eexists|done]|].
    split; [|by intros [? [=]]]. destruct (gl_terminal g3); cbn; by rewrite C3.
  - intros ls. induction ls as [|l ls IH]; cbn; intros g1 g2; [intros [= <-]; auto|].
    destruct (goal_exec false l g1) as [g3|] eqn:E; [|done]. intros R C. destruct (closed_stays _ _ _ _ E C) as [C3 L3].
    destruct (IH g3 g2 R C3) as [C2 L2]. split; [done|lia].
Qed.

(** ** The owner's verdict *)

(** A check counts as complete only by the word of the connection that was asked. *)
Lemma verdict_is_the_owners owner id cs0 cs c answered complete :
  ask_starts (Some owner) id cs0 = Some cs ->
  let d := handleGoalVerdict c id answered complete cs in
  (d.2 = true <-> c = owner)
  /\ ((ask_ends true id d.1).2 = Some true <-> c = owner /\ answered = true /\ complete = true)
  /\ (ask_ends false id d.1).2 = Some false.
Proof.
  intros [= <-]. cbv zeta. unfold handleGoalVerdict, ask_ends. rewrite lookup_insert_eq. cbn [gk_owner gk_verdict].
  destruct (decide (owner = c)) as [->|N]; cbn [fst snd]; rewrite lookup_insert_eq; cbn.
  - destruct answered, complete; naive_solver.
  - naive_solver.
Qed.

(** ** Runs *)

Module Goals.
Definition goal_ev (type text stop progress : string) (err : bool) : goal_event :=
  MkGoalEvent (MkEvent type "" "" None None text stop progress "" err "") "" "".
Definition ends (text : string) : goal_label := GEvent (goal_ev "assistant" text "end_turn" "" false).
Definition fails : goal_label := GEvent (goal_ev "assistant" "" "" "" true).
Definition settles : list goal_label := [GTime waitSettleDuration; GFire].
(** A firing without a host's hook that continues. *)
Definition fires (k : nat) : list goal_label :=
  [GFiring k false false; GFiring k false false; GFiring k false false; GFiring k false true].

Definition goal_after (ls : list goal_label) : goal_loop :=
  default (goal_starts "g" Second) (goal_runs false ls (goal_starts "g" Second)).




Lemma a_status_line_closes_for_good_witness :
  gl_closed (noteGoalEvent false (goal_ev "assistant" "GOAL_STATUS: complete" "" "" false) (goal_starts "g" Second)) = true.
Proof.
  apply (a_status_line_closes_for_good (goal_ev "assistant" "GOAL_STATUS: complete" "" "" false) (goal_starts "g" Second)
    eq_refl eq_refl eq_refl). exists "GOAL_STATUS: complete". split; [left|]. vm_compute. left.
Defined.

(** An error that comes while the host is asked does not stop the continuation. *)
Lemma an_error_does_not_stop_a_firing :
  let g := goal_after ([ends "no"] ++ settles ++ [GFiring 0 true false; fails; GFiring 0 true false; GFiring 0 true false;
                        GFiring 0 true false; GFiring 0 true true]) in
  gl_sent g = [goalContinuation "g"].
Proof. vm_compute. reflexivity. Qed.

(** Text that arrives while the host is asked is forgotten by the decision: the
    rest of a status line then closes nothing. *)
Definition half (text : string) : goal_label :=
  GEvent (MkGoalEvent (MkEvent "assistant" "" "" None None text "" "" PreviewUpdateAppend false "") "" "").
Lemma half_a_status_line_is_forgotten :
  let ls b := [ends "no"; half nl] ++ settles ++ [GFiring 0 true false; half "GOAL_STATUS: "]
              ++ (if b : bool then [GFiring 0 true false; GFiring 0 true false] else []) ++ [half "complete"] in
  gl_closed (goal_after (ls false)) = true /\ gl_closed (goal_after (ls true)) = false.
Proof. split; vm_compute; reflexivity. Qed.

(** An event of the turn that arrives while the host is asked arms the timer again:
    both firings count the one turn as idle, and both continue. *)
Lemma one_turn_counts_twice :
  let g := goal_after ([ends "no"] ++ settles ++ [GFiring 0 true false; ends "more"] ++ settles
             ++ [GFiring 0 true false; GFiring 1 true false; GFiring 1 true false; GFiring 0 true false; GFiring 1 true false;
                 GFiring 0 true false; GFiring 1 true false; GFiring 0 true true; GFiring 1 true true]) in
  gl_idle g = 2 /\ length (gl_sent g) = 2.
Proof. split; vm_compute; reflexivity. Qed.

(** A timer that was armed again while the host was asked is not stopped by the
    decision: it fires when it is due, and continues the same turn again. *)
Lemma a_forgotten_timer_fires :
  let g := goal_after ([ends "no"] ++ settles ++ [GFiring 0 true false; ends "more"; GFiring 0 true false;
                        GFiring 0 true false; GFiring 0 true false; GFiring 0 true true; GTime waitSettleDuration; GLoose 0]
                       ++ fires 1) in
  gl_idle g = 2 /\ length (gl_sent g) = 2.
Proof. split; vm_compute; reflexivity. Qed.
End Goals.
