(* ===== verification/BrokerServer.v ===== *)
(** * BrokerServer: connections, the table of sessions, and the tails

    Models [internal/broker/server.go] without its framing: what a connection's
    goroutine does with a request of the first protocol, who owns a session, and
    how an event reaches the subscribers. A goroutine is a list of what it still
    has to do; a step is a stretch under the server's mutex or one write. *)

From S2P Require Import Prelude GoLib GoFloat WireTypes.

(** ** Data *)

Inductive EventKind := EventSpawn | EventRelease | EventReclaim | EventOther (name : string).
#[export] Instance EventKind_eq_dec : EqDecision EventKind.
Proof. solve_decision. Defined.

(** [EventMessage]: what it is about; its time is left out. *)
Record EventMessage := MkEvent { em_Kind : EventKind; em_SessionID : string }.
#[export] Instance EventMessage_eq_dec : EqDecision EventMessage.
Proof. solve_decision. Defined.

(** What a connection is written. *)
Inductive server_frame :=
| SpawnedFrame (id : string) (pid : N)
| ReleasedFrame (id : string)
| StatusFrame (ids : list string)
| TailingFrame
| EventFrame (ev : EventMessage)
| RefusedFrame (code value : string).

(** [tailBuffer]. *)
Definition tailBuffer : nat := 64.

(** A subscriber with its goroutine. [ts_from] is how many events had been
    emitted before it subscribed, [ts_put] what was queued for it, [ts_sent] what
    it has been written, and [ts_missed] says that an event found its queue full. *)
Inductive tail_phase := TUnstarted | TWaiting | TWriting (ev : EventMessage) | TFailing | TEnded.
Record tailSub := MkTail {
  ts_conn : nat; ts_queue : list EventMessage; ts_closed : bool; ts_phase : tail_phase;
  ts_from : nat; ts_put : list EventMessage; ts_sent : list EventMessage; ts_missed : bool }.

#[export] Instance eta_tail : Eta tailSub := fun t =>
  MkTail (ts_conn t) (ts_queue t) (ts_closed t) (ts_phase t) (ts_from t) (ts_put t) (ts_sent t) (ts_missed t).
#[export] Hint Extern 1 (@Setter tailSub _ _) => setter_of eta_tail : typeclass_instances.

(** What a goroutine has still to do. *)
Inductive work :=
| WReplySpawn (id : string) (pid : N)
| WReplyRelease (id : string)
| WReply (f : server_frame)
| WAckTail (t : nat)
| WEmit (ev : EventMessage)
| WSayLagged (t : nat)
| WDrop (t : nat)
| WReclaim.

(** A goroutine: of a connection, or one that emits or closes. *)
Record worker := MkWorker { wk_conn : option nat; wk_todo : list work; wk_tailing : bool; wk_ended : bool }.
#[export] Instance eta_worker : Eta worker := fun w =>
  MkWorker (wk_conn w) (wk_todo w) (wk_tailing w) (wk_ended w).
#[export] Hint Extern 1 (@Setter worker _ _) => setter_of eta_worker : typeclass_instances.

(** [Server]: a connection is the place of its goroutine; [bs_held] is each
    connection's [connState]. [bs_log] keeps every event in the order in which it
    was emitted, [bs_wire] what was written. *)
Record server := MkServer {
  bs_seq : N; bs_pids : N; bs_sessions : gmap string nat; bs_tails : list nat; bs_subs : list tailSub;
  bs_workers : list worker; bs_held : gmap nat (gset string); bs_done : bool;
  bs_log : list EventMessage; bs_wire : gmap nat (list server_frame) }.

#[export] Instance eta_server : Eta server := fun s =>
  MkServer (bs_seq s) (bs_pids s) (bs_sessions s) (bs_tails s) (bs_subs s) (bs_workers s) (bs_held s)
    (bs_done s) (bs_log s) (bs_wire s).
#[export] Hint Extern 1 (@Setter server _ _) => setter_of eta_server : typeclass_instances.

Definition Serve : server := MkServer 0 0 ∅ [] [] [] ∅ false [] ∅.

Definition session_id (n : N) : string := "s-" +:+ utoa n.

(** ** Requests *)

Inductive server_request :=
| RSpawn
| RRelease (id : string) (reuse : bool)
| RStatus
| RTail
| ROther (name : string).
#[export] Instance server_request_eq_dec : EqDecision server_request.
Proof. solve_decision. Defined.

Definition notAvailable (t : string) : server_frame := RefusedFrame CodeNotAvailable t.

Definition held_by (c : nat) (s : server) : gset string := default ∅ (bs_held s !! c).

Definition handleSpawn (c : nat) (s : server) : server * list work :=
  let n := (bs_seq s + 1)%N in let pid := (bs_pids s + 1)%N in let id := session_id n in
  (s <| bs_seq := n |> <| bs_pids := pid |> <| bs_sessions ::= <[id := c]> |>
     <| bs_held ::= <[c := {[id]} ∪ held_by c s]> |>,
   [WReplySpawn id pid; WEmit (MkEvent EventSpawn id)]).

Definition handleReleaseV1 (c : nat) (id : string) (reuse : bool) (s : server) : server * list work :=
  if reuse then (s, [WReply (RefusedFrame CodeUnsupportedValue "reuse")])
  else match bs_sessions s !! id with
       | None => (s, [WReply (RefusedFrame CodeUnknownSession id)])
       | Some o =>
         if decide (o = c) then
           (s <| bs_sessions ::= delete id |> <| bs_held ::= <[c := held_by c s ∖ {[id]}]> |>,
            [WReplyRelease id; WEmit (MkEvent EventRelease id)])
         else (s, [WReply (RefusedFrame CodeNotOwner id)])
       end.

Definition handleStatus (s : server) : list work :=
  [WReply (StatusFrame (SliceStable String.ltb (elements (dom (bs_sessions s)))))].

Definition handleTail (c : nat) (s : server) : server * list work :=
  let t := length (bs_subs s) in
  (s <| bs_subs ::= fun l => l ++ [MkTail c [] false TUnstarted (length (bs_log s)) [] [] false] |>
     <| bs_tails ::= fun l => l ++ [t] |>, [WAckTail t]).

(** The switch of [handleConn]: a release without a session is the handler's. *)
Definition dispatch (c : nat) (r : server_request) (s : server) : server * list work :=
  match r with
  | RSpawn => handleSpawn c s
  | RRelease id reuse => if decide (id = "") then (s, [WReply (notAvailable "release")]) else handleReleaseV1 c id reuse s
  | RStatus => (s, handleStatus s)
  | RTail => handleTail c s
  | ROther name => (s, [WReply (notAvailable name)])
  end.

(** ** Events *)

Definition on_sub (t : nat) (f : tailSub -> tailSub) (s : server) : server := s <| bs_subs ::= alter f t |>.

(** One subscriber of [emit]'s loop; the list is of those that lag. *)
Definition offer (ev : EventMessage) (st : server * list nat) (t : nat) : server * list nat :=
  match bs_subs st.1 !! t with
  | None => st
  | Some sub =>
    if ts_closed sub then st
    else if (length (ts_queue sub) <? tailBuffer)%nat
    then (on_sub t (fun sub => sub <| ts_queue ::= fun q => q ++ [ev] |> <| ts_put ::= fun q => q ++ [ev] |>) st.1, st.2)
    else (on_sub t (fun sub => sub <| ts_missed := true |>) st.1, st.2 ++ [t])
  end.

(** [emit] up to its unlock, and what is left of it. *)
Definition emit (ev : EventMessage) (s : server) : server * list work :=
  let r := foldl (offer ev) (s, []) (bs_tails s) in
  (r.1 <| bs_log ::= fun l => l ++ [ev] |>, List.concat ((fun t => [WSayLagged t; WDrop t]) <$> r.2)).

(** [dropTail]; [dropTail] of a tail that is gone does nothing. *)
Definition dropTail (t : nat) (s : server) : server :=
  if decide (t ∈ bs_tails s) then
    let s := match bs_subs s !! t with
             | Some sub => if ts_closed sub then s else on_sub t (fun sub => sub <| ts_closed := true |>) s
             | None => s
             end in
    s <| bs_tails ::= List.filter (fun u => negb (Nat.eqb u t)) |>
  else s.

(** [reclaim]. *)
Definition reclaim (c : nat) (s : server) : server * list work :=
  let gone := List.filter (fun id => bool_decide (is_Some (bs_sessions s !! id))) (elements (held_by c s)) in
  (s <| bs_sessions ::= fun m => foldl (fun m id => delete id m) m gone |> <| bs_held ::= <[c := ∅]> |>,
   (fun id => WEmit (MkEvent EventReclaim id)) <$> gone).

(** ** Goroutines *)

Definition on_worker (k : nat) (f : worker -> worker) (s : server) : server := s <| bs_workers ::= alter f k |>.
Definition put_on_wire (c : nat) (f : server_frame) (s : server) : server :=
  s <| bs_wire ::= fun m => <[c := default [] (m !! c) ++ [f]]> m |>.

(** A write, by whoever, to a connection. *)
Definition written (ok : bool) (c : nat) (f : server_frame) (s : server) : server := if ok then put_on_wire c f s else s.

(** The goroutine of a connection writes, or leaves its loop. *)
Definition replies (ok : bool) (k : nat) (f : server_frame) (rest : list work) (s : server) : server :=
  on_worker k (fun w => w <| wk_todo := if ok then rest else [WReclaim] |>) (written ok k f s).

(** The head of what the goroutine has to do; [ok] is the write's result. *)
Definition works (ok : bool) (k : nat) (s : server) : option server :=
  match bs_workers s !! k with
  | None => None
  | Some w =>
    match wk_todo w with
    | [] => None
    | WReplySpawn id pid :: rest => Some (replies ok k (SpawnedFrame id pid) rest s)
    | WReplyRelease id :: rest => Some (replies ok k (ReleasedFrame id) rest s)
    | WReply f :: rest => Some (replies ok k f rest s)
    | WAckTail t :: rest =>
      Some (if ok then on_worker k (fun w => w <| wk_todo := rest |> <| wk_tailing := true |>)
                         (on_sub t (fun sub => sub <| ts_phase := TWaiting |>) (written ok k TailingFrame s))
            else on_worker k (fun w => w <| wk_todo := [WDrop t; WReclaim] |>) s)
    | WEmit ev :: rest =>
      let e := emit ev s in Some (on_worker k (fun w => w <| wk_todo := e.2 ++ rest |>) e.1)
    | WSayLagged t :: rest =>
      Some (on_worker k (fun w => w <| wk_todo := rest |>)
              match bs_subs s !! t with
              | Some sub => written ok (ts_conn sub) (RefusedFrame CodeTailLagged "") s
              | None => s
              end)
    | WDrop t :: rest => Some (on_worker k (fun w => w <| wk_todo := rest |>) (dropTail t s))
    | WReclaim :: rest =>
      let e := reclaim k s in Some (on_worker k (fun w => w <| wk_todo := e.2 |> <| wk_ended := true |>) e.1)
    end
  end.

(** [writeTail]: the next event is taken, written, or the subscriber dropped. *)
Definition tail_goes (ok : bool) (t : nat) (s : server) : option server :=
  match bs_subs s !! t with
  | None => None
  | Some sub =>
    match ts_phase sub, ts_queue sub with
    | TWaiting, ev :: q => Some (on_sub t (fun sub => sub <| ts_phase := TWriting ev |> <| ts_queue := q |>) s)
    | TWaiting, [] => if ts_closed sub then Some (on_sub t (fun sub => sub <| ts_phase := TEnded |>) s) else None
    | TWriting ev, _ =>
      Some (if ok then on_sub t (fun sub => sub <| ts_phase := TWaiting |> <| ts_sent ::= fun l => l ++ [ev] |>)
                         (put_on_wire (ts_conn sub) (EventFrame ev) s)
            else on_sub t (fun sub => sub <| ts_phase := TFailing |>) s)
    | TFailing, _ => Some (on_sub t (fun sub => sub <| ts_phase := TEnded |>) (dropTail t s))
    | _, _ => None
    end
  end.

Inductive server_label :=
| VAccept
| VRequest (c : nat) (r : server_request)
| VHangUp (c : nat)
| VEmit (ev : EventMessage)
| VWork (k : nat) (ok : bool)
| VTail (t : nat) (ok : bool)
| VClose.

(** A connection's goroutine reads when it has nothing else to do. *)
Definition reading (c : nat) (s : server) : option worker :=
  match bs_workers s !! c with
  | Some w => if bool_decide (wk_conn w = Some c) && bool_decide (wk_todo w = []) && negb (wk_ended w) then Some w else None
  | None => None
  end.

(** [acceptLoop], a connection. *)
Definition accepts (s : server) : option server :=
  if bs_done s then None
  else Some (s <| bs_workers ::= fun l => l ++ [MkWorker (Some (length l)) [] false false] |>).

(** [Close]: it closes the subscribers it sees; the connections it closes then
    hang up. *)
Definition closes (s : server) : option server :=
  if bs_done s then None
  else Some (s <| bs_done := true |>
               <| bs_workers ::= fun l => l ++ [MkWorker None (WDrop <$> bs_tails s) false false] |>).

Definition server_exec (l : server_label) (s : server) : option server :=
  match l with
  | VAccept => accepts s
  | VRequest c r =>
    match reading c s with
    | None => None
    | Some w =>
      if wk_tailing w then Some s
      else let e := dispatch c r s in Some (on_worker c (fun w => w <| wk_todo := e.2 |>) e.1)
    end
  | VHangUp c =>
    match reading c s with
    | None => None
    | Some _ => Some (on_worker c (fun w => w <| wk_todo := [WReclaim] |>) s)
    end
  | VEmit ev => Some (s <| bs_workers ::= fun l => l ++ [MkWorker None [WEmit ev] false false] |>)
  | VWork k ok => works ok k s
  | VTail t ok => tail_goes ok t s
  | VClose => closes s
  end.

Inductive server_reachable : server -> Prop :=
| server_start : server_reachable Serve
| server_step s l s' : server_reachable s -> server_exec l s = Some s' -> server_reachable s'.
