(* ===== verification/BrokerServerTheorems.v ===== *)
(** * BrokerServerTheorems: who owns a session, and what a tail misses

    The table of sessions over every interleaving of connections, and that a tail
    is the log without a gap until it is told otherwise. *)

From Stdlib Require Import Ascii.
From S2P Require Import Prelude GoLib GoFloat FleetNames WireTypes BrokerServer.

(** ** Sessions *)

(** What a goroutine that does not answer a connection may have to do. *)
Definition quiet (x : work) : bool := match x with WEmit _ | WSayLagged _ | WDrop _ => true | _ => false end.

(** What a goroutine of a connection has to do: answer and then emit, give up, or
    finish emitting. *)
Definition shaped (w : worker) : Prop :=
  forallb quiet (wk_todo w) = true
  \/ (is_Some (wk_conn w) /\ wk_ended w = false
      /\ match wk_todo w with
         | [WReclaim] | [WDrop _; WReclaim] | [WReply _] | [WAckTail _] | [WReplySpawn _ _; WEmit _] | [WReplyRelease _; WEmit _] => True
         | _ => False
         end).

Record owned (s : server) : Prop := {
  ow_conn : forall k w c, bs_workers s !! k = Some w -> wk_conn w = Some c -> c = k;
  ow_shape : forall k w, bs_workers s !! k = Some w -> shaped w;
  ow_live : forall c id, id ∈ held_by c s ->
    exists w, bs_workers s !! c = Some w /\ wk_conn w = Some c /\ wk_ended w = false;
  ow_held : forall c id, id ∈ held_by c s <-> bs_sessions s !! id = Some c;
  ow_old : forall id c, bs_sessions s !! id = Some c -> exists n, id = session_id n /\ (n <= bs_seq s)%N }.

(** The parts ownership depends on. *)
Definition same_table (s s' : server) : Prop :=
  bs_workers s' = bs_workers s /\ bs_held s' = bs_held s /\ bs_sessions s' = bs_sessions s /\ bs_seq s' = bs_seq s.

Lemma owned_same s s' : same_table s s' -> owned s -> owned s'.
Proof.
  intros (W & H & Se & Q) [A B C D E]. unfold held_by in *.
  split; unfold held_by; rewrite ?W, ?H, ?Se, ?Q; done.
Qed.

Lemma same_trans s1 s2 s3 : same_table s1 s2 -> same_table s2 s3 -> same_table s1 s3.
Proof. intros (A & B & C & D) (A' & B' & C' & D'). by split_and!; etrans. Qed.

Lemma same_written ok c f s : same_table s (written ok c f s).
Proof. by destruct ok. Qed.
Lemma same_drop t s : same_table s (dropTail t s).
Proof.
  unfold dropTail. destruct (decide (t ∈ bs_tails s)); [|done]. destruct (bs_subs s !! t) as [sub|]; [|done].
  by destruct (ts_closed sub).
Qed.
Lemma same_offers ev ts st : same_table st.1 (foldl (offer ev) st ts).1.
Proof.
  revert st. induction ts as [|t ts IH]; intros st; [done|]. cbn [foldl]. eapply same_trans; [|apply IH].
  unfold offer. destruct (bs_subs st.1 !! t) as [sub|]; [|done]. destruct (ts_closed sub); [done|].
  by destruct (_ <? _)%nat.
Qed.
Lemma same_emit ev s : same_table s (emit ev s).1.
Proof. unfold emit. cbn [fst]. eapply same_trans; [apply (same_offers ev (bs_tails s) (s, []))|done]. Qed.

Lemma emit_quiet ev s : forallb quiet (emit ev s).2 = true.
Proof. unfold emit. cbn [snd]. generalize (foldl (offer ev) (s, []) (bs_tails s)).2. intros l. induction l as [|t l IH]; [done|exact IH]. Qed.

(** A goroutine that goes on in a shape of its own. *)
Lemma owned_worker k f s :
  owned s ->
  (forall w, bs_workers s !! k = Some w -> wk_conn (f w) = wk_conn w /\ wk_ended (f w) = wk_ended w /\ shaped (f w)) ->
  owned (on_worker k f s).
Proof.
  intros [A B C D E] F. unfold on_worker. split; cbn.
  - intros j w c. rewrite list_lookup_alter. destruct (decide (k = j)) as [->|N]; [|apply A].
    intros (w0 & L & ->)%fmap_Some. destruct (F w0 L) as (-> & _). by apply A.
  - intros j w. rewrite list_lookup_alter. destruct (decide (k = j)) as [->|N]; [|apply B].
    intros (w0 & L & ->)%fmap_Some. apply (F w0 L).
  - intros c id I. destruct (C c id I) as (w & L & Cn & En). rewrite list_lookup_alter.
    destruct (decide (k = c)) as [->|N]; [|by exists w]. rewrite L. cbn. destruct (F w L) as (Cn' & En' & _).
    exists (f w). split_and!; [done|congruence|congruence].
  - exact D.
  - exact E.
Qed.

Lemma session_id_inj n m : session_id n = session_id m -> n = m.
Proof.
  change (String "s"%char (mint "-"%char n) = String "s"%char (mint "-"%char m) -> n = m).
  intros E. assert (mint "-"%char n = mint "-"%char m) as X by congruence. by apply mint_eq in X as [_ X].
Qed.

(** A connection that reads is open. *)
Lemma reading_spec c s w : reading c s = Some w ->
  bs_workers s !! c = Some w /\ wk_conn w = Some c /\ wk_todo w = [] /\ wk_ended w = false.
Proof.
  unfold reading. destruct (bs_workers s !! c) as [w'|]; [|done].
  destruct (bool_decide_reflect (wk_conn w' = Some c)); [|done].
  destruct (bool_decide_reflect (wk_todo w' = [])); [|done]. destruct (wk_ended w') eqn:En; [done|]. by intros [= <-].
Qed.

Lemma owned_spawn c w s :
  bs_workers s !! c = Some w -> wk_conn w = Some c -> wk_ended w = false -> owned s -> owned (handleSpawn c s).1.
Proof.
  intros L Cn En [A B C D E]. unfold handleSpawn. cbn [fst]. set (n := (bs_seq s + 1)%N).
  assert (bs_sessions s !! session_id n = None) as New.
  { destruct (bs_sessions s !! session_id n) eqn:X; [|done]. destruct (E _ _ X) as (m & Eq & Le).
    apply session_id_inj in Eq. lia. }
  assert (forall d id, id ∈ held_by d (s <| bs_seq := n |> <| bs_pids := (bs_pids s + 1)%N |>
            <| bs_sessions ::= <[session_id n := c]> |> <| bs_held ::= <[c := {[session_id n]} ∪ held_by c s]> |>) <->
            id ∈ held_by d s \/ d = c /\ id = session_id n) as H.
  { intros d id. unfold held_by. cbn. destruct (decide (d = c)) as [->|N].
    - rewrite lookup_insert_eq. cbn. set_solver.
    - rewrite lookup_insert_ne by done. naive_solver. }
  split; [exact A|exact B| | |].
  - intros d id [I|[-> ->]]%H; [by apply (C d id)|]. by exists w.
  - intros d id. rewrite H. cbn. destruct (decide (id = session_id n)) as [->|N].
    + rewrite lookup_insert_eq. split; [intros [I|[-> _]]; [|done]|intros [= <-]; auto].
      apply D in I. congruence.
    + rewrite lookup_insert_ne by done. rewrite D. naive_solver.
  - cbn. intros id d. destruct (decide (id = session_id n)) as [->|N].
    + rewrite lookup_insert_eq. intros [= <-]. exists n. split; [done|lia].
    + rewrite lookup_insert_ne by done. intros X. destruct (E _ _ X) as (m & -> & Le). exists m. split; [done|lia].
Qed.

Lemma owned_release c id s : bs_sessions s !! id = Some c -> owned s ->
  owned (s <| bs_sessions ::= delete id |> <| bs_held ::= <[c := held_by c s ∖ {[id]}]> |>).
Proof.
  intros L [A B C D E]. assert (forall d i, i ∈ held_by d (s <| bs_sessions ::= delete id |>
      <| bs_held ::= <[c := held_by c s ∖ {[id]}]> |>) <-> i ∈ held_by d s /\ i <> id) as H.
  { intros d i. unfold held_by. cbn. destruct (decide (d = c)) as [->|N].
    - rewrite lookup_insert_eq. cbn. set_solver.
    - rewrite lookup_insert_ne by done. split; [|tauto]. intros I. split; [done|]. intros ->.
      apply D in I. congruence. }
  split; [exact A|exact B| | |].
  - intros d i [I _]%H. by apply (C d i).
  - intros d i. rewrite H, D. cbn. rewrite lookup_delete_Some. naive_solver.
  - cbn. intros i d [_ X]%lookup_delete_Some. by apply (E i d).
Qed.

Lemma delete_all_lookup {A} (m : gmap string A) ids i :
  foldl (fun m id => delete id m) m ids !! i = if decide (i ∈ ids) then None else m !! i.
Proof.
  revert m. induction ids as [|id ids IH]; intros m; cbn [foldl]; [by rewrite decide_False by set_solver|].
  rewrite IH. destruct (decide (i ∈ ids)) as [I|I]; [by rewrite decide_True by (by right)|].
  destruct (decide (i = id)) as [->|N].
  - rewrite decide_True by (by left). apply lookup_delete_eq.
  - rewrite decide_False by set_solver. by apply lookup_delete_ne.
Qed.

Lemma owned_reclaim k rest s :
  owned s -> forallb quiet rest = true ->
  owned (on_worker k (fun w => w <| wk_todo := rest |> <| wk_ended := true |>) (reclaim k s).1).
Proof.
  intros [A B C D E] Q. unfold reclaim. cbn [fst].
  set (gone := List.filter _ _). assert (forall i, i ∈ gone <-> i ∈ held_by k s) as G.
  { intros i. unfold gone. rewrite list_elem_of_In, filter_In, <-list_elem_of_In, elem_of_elements, bool_decide_eq_true.
    split; [tauto|]. intros I. split; [done|]. apply D in I. eauto. }
  assert (forall d i, i ∈ held_by d (on_worker k (fun w => w <| wk_todo := rest |> <| wk_ended := true |>)
     (s <| bs_sessions ::= fun m => foldl (fun m id => delete id m) m gone |> <| bs_held ::= <[k := ∅]> |>)) <->
     i ∈ held_by d s /\ d <> k) as H.
  { intros d i. unfold held_by. cbn. destruct (decide (d = k)) as [->|N].
    - rewrite lookup_insert_eq. cbn. set_solver.
    - rewrite lookup_insert_ne by done. tauto. }
  split.
  - intros j w c. cbn. rewrite list_lookup_alter. destruct (decide (k = j)) as [->|N]; [|apply A].
    intros (w0 & L & ->)%fmap_Some. cbn. by apply A.
  - intros j w. cbn. rewrite list_lookup_alter. destruct (decide (k = j)) as [->|N]; [|apply B].
    intros (w0 & L & ->)%fmap_Some. by left.
  - intros d i [I N]%H. destruct (C d i I) as (w & L & Y). exists w. cbn. by rewrite list_lookup_alter, decide_False by done.
  - intros d i. rewrite H. cbn. rewrite delete_all_lookup. destruct (decide (i ∈ gone)) as [I|I].
    + split; [|done]. intros [X N]. apply G, D in I. apply D in X. congruence.
    + rewrite D. split; [tauto|]. intros X. split; [done|]. intros ->. apply I, G, D. done.
  - cbn. intros i d. rewrite delete_all_lookup. destruct (decide _); [done|]. apply E.
Qed.

Lemma owned_added s w : owned s -> wk_conn w = Some (length (bs_workers s)) \/ wk_conn w = None -> shaped w ->
  owned (s <| bs_workers ::= fun l => l ++ [w] |>).
Proof.
  intros [A B C D E] Cn Sh. split; cbn.
  - intros k v c [L| [Le L]]%lookup_app_Some; [by apply A|]. apply list_lookup_singleton_Some in L as [L <-].
    destruct Cn as [-> | ->]; [|done]. intros [= <-]. lia.
  - intros k v [L| [Le L]]%lookup_app_Some; [by apply (B k)|]. by apply list_lookup_singleton_Some in L as [_ <-].
  - intros c id I. destruct (C c id I) as (v & L & X). exists v. split; [|done]. by apply lookup_app_l_Some.
  - exact D.
  - exact E.
Qed.

Lemma quiet_shaped w : forallb quiet (wk_todo w) = true -> shaped w.
Proof. by left. Qed.

(** The next thing a goroutine does, by its shape. *)
Lemma owned_replies ok k f rest s w :
  bs_workers s !! k = Some w -> is_Some (wk_conn w) -> wk_ended w = false -> forallb quiet rest = true ->
  owned s -> owned (replies ok k f rest s).
Proof.
  intros L Cn En Q O. unfold replies. destruct (same_written ok k f s) as (W & _).
  apply owned_worker; [eapply owned_same; [apply same_written|done]|].
  intros v V. rewrite W in V. assert (v = w) as -> by congruence. split_and!; [done|done|].
  destruct ok; [by left|right]. by split_and!.
Qed.

Lemma owned_works ok k s s' : works ok k s = Some s' -> owned s -> owned s'.
Proof.
  unfold works. intros X O. destruct (bs_workers s !! k) as [w|] eqn:L; [|done].
  pose proof (ow_shape s O k w L) as Sh. unfold shaped in Sh.
  destruct (wk_todo w) as [|x rest] eqn:Td; [done|].
  destruct x as [id pid|id|f|t|ev|t|t|].
  - destruct Sh as [Sh|(Cn & En & Sh)]; [done|]. injection X as <-. eapply owned_replies; try done.
    destruct rest as [|[| | | | | | |] [|]]; done.
  - destruct Sh as [Sh|(Cn & En & Sh)]; [done|]. injection X as <-. eapply owned_replies; try done.
    destruct rest as [|[| | | | | | |] [|]]; done.
  - destruct Sh as [Sh|(Cn & En & Sh)]; [done|]. injection X as <-. destruct rest; [|done]. by eapply owned_replies.
  - destruct Sh as [Sh|(Cn & En & Sh)]; [done|]. destruct rest; [|done]. injection X as <-. destruct ok.
    + apply owned_worker.
      * eapply owned_same; [|exact O]. done.
      * intros v V. split_and!; [done|done|by left].
    + apply owned_worker; [done|]. intros v V. assert (v = w) as -> by congruence. split_and!; [done|done|right]. by split_and!.
  - injection X as <-. pose proof (same_emit ev s) as Se. apply owned_worker; [by eapply owned_same|].
    intros v V. destruct Se as (W & _). assert (bs_workers s !! k = Some v) as V' by (rewrite <-W; exact V).
    assert (v = w) as -> by congruence. split_and!; [done|done|left].
    change (forallb quiet ((emit ev s).2 ++ rest) = true). rewrite forallb_app, emit_quiet. destruct Sh as [Sh|(_ & _ & Sh)]; [exact Sh|done].
  - injection X as <-. apply owned_worker.
    + eapply owned_same; [|exact O]. destruct (bs_subs s !! t); [apply same_written|done].
    + intros v V. assert (v = w) as -> by (destruct (bs_subs s !! t); [destruct ok|]; cbn in V; congruence).
      split_and!; [done|done|left]. destruct Sh as [Sh|(_ & _ & Sh)]; [exact Sh|done].
  - injection X as <-. pose proof (same_drop t s) as Se. apply owned_worker; [by eapply owned_same|].
    intros v V. destruct Se as (W & _). assert (bs_workers s !! k = Some v) as V' by (rewrite <-W; exact V).
    assert (v = w) as -> by congruence. split_and!; [done|done|].
    destruct Sh as [Sh|(Cn & En & Sh)]; [by left|right]. split_and!; [done|done|].
    cbn. destruct rest as [|[| | | | | | |] [|]]; done.
  - injection X as <-. apply owned_reclaim; [done|]. unfold reclaim. cbn [snd].
    generalize (List.filter (fun id => bool_decide (is_Some (bs_sessions s !! id))) (elements (held_by k s))).
    intros l. induction l as [|i l IH]; [done|exact IH].
Qed.

Lemma owned_tail ok t s s' : tail_goes ok t s = Some s' -> owned s -> owned s'.
Proof.
  unfold tail_goes. intros X O. destruct (bs_subs s !! t) as [sub|]; [|done].
  destruct (ts_phase sub) as [| |ev| |].
  - by destruct (ts_queue sub).
  - destruct (ts_queue sub); [destruct (ts_closed sub); [|done]|]; injection X as <-; (eapply owned_same; [|exact O]; done).
  - injection X as <-. destruct ok; (eapply owned_same; [|exact O]; done).
  - injection X as <-. eapply owned_same; [|exact O]. eapply same_trans; [apply same_drop|done].
  - by destruct (ts_queue sub).
Qed.

Lemma owned_exec l s s' : server_exec l s = Some s' -> owned s -> owned s'.
Proof.
  intros X O. destruct l as [|c r|c|ev|k ok|t ok|]; cbn in X.
  - unfold accepts, closes in X. destruct (bs_done s); [done|]. injection X as <-.
    assert (owned (s <| bs_workers ::= fun l => l ++ [MkWorker (Some (length (bs_workers s))) [] false false] |>)) as H.
    { apply owned_added; [done|by left|by left]. }
    exact H.
  - destruct (reading c s) as [w|] eqn:Rd; [|done]. apply reading_spec in Rd as (L & Cn & Td & En).
    destruct (wk_tailing w); [by injection X as <-|]. injection X as <-.
    assert (forall s1 todo, owned s1 -> bs_workers s1 = bs_workers s ->
      forallb quiet todo = true \/ match todo with
         | [WReclaim] | [WDrop _; WReclaim] | [WReply _] | [WAckTail _] | [WReplySpawn _ _; WEmit _] | [WReplyRelease _; WEmit _] => True
         | _ => False
         end -> owned (on_worker c (fun w => w <| wk_todo := todo |>) s1)) as Go.
    { intros s1 todo O1 W1 Sh. apply owned_worker; [done|]. intros v V. rewrite W1 in V.
      assert (v = w) as -> by congruence. split_and!; [done|done|]. destruct Sh as [Sh|Sh]; [by left|right].
      split_and!; [by eexists|done|exact Sh]. }
    destruct r as [|id reuse| | |name]; cbn [dispatch].
    + apply Go; [by eapply owned_spawn|done|by right].
    + destruct (decide (id = "")); [apply Go; [done|done|by right]|]. unfold handleReleaseV1.
      destruct reuse; [apply Go; [done|done|by right]|].
      destruct (bs_sessions s !! id) as [o|] eqn:Se; [|apply Go; [done|done|by right]].
      destruct (decide (o = c)) as [->|]; [|apply Go; [done|done|by right]].
      apply Go; [by apply owned_release|done|by right].
    + apply Go; [done|done|by right].
    + apply Go; [eapply owned_same; [|exact O]; done|done|by right].
    + apply Go; [done|done|by right].
  - destruct (reading c s) as [w|] eqn:Rd; [|done]. apply reading_spec in Rd as (L & Cn & Td & En).
    injection X as <-. apply owned_worker; [done|]. intros v V. assert (v = w) as -> by congruence.
    split_and!; [done|done|right]. split_and!; [by eexists|done|done].
  - injection X as <-. apply owned_added; [done|by right|by left].
  - by eapply owned_works.
  - by eapply owned_tail.
  - unfold accepts, closes in X. destruct (bs_done s); [done|]. injection X as <-.
    assert (owned (s <| bs_workers ::= fun l => l ++ [MkWorker None (WDrop <$> bs_tails s) false false] |>)) as H; [|eapply owned_same; [|exact H]; done].
    apply owned_added; [done|by right|]. left. cbn. induction (bs_tails s) as [|t l IH]; [done|exact IH].
Qed.

Lemma owned_reachable s : server_reachable s -> owned s.
Proof.
  induction 1 as [|s l s' _ IH E]; [|by eapply owned_exec].
  split; cbn; unfold held_by; try done.
Qed.

(** C11: A session belongs to one connection, which holds it and is still being
    served; when a connection's goroutine has left, none of its sessions are in
    the table. *)
Theorem sessions_belong_to_open_connections s :
  server_reachable s ->
  (forall id c, bs_sessions s !! id = Some c ->
     id ∈ held_by c s /\ exists w, bs_workers s !! c = Some w /\ wk_conn w = Some c /\ wk_ended w = false)
  /\ (forall c w, bs_workers s !! c = Some w -> wk_ended w = true ->
        held_by c s = ∅ /\ forall id, bs_sessions s !! id <> Some c).
Proof.
  intros R%owned_reachable. split.
  - intros id c L. apply (ow_held s R) in L. split; [done|]. by eapply (ow_live s R).
  - intros c w L En. assert (forall id, id ∉ held_by c s) as N.
    { intros id I. destruct (ow_live s R c id I) as (v & V & _ & E). congruence. }
    split; [set_solver|]. intros id X. apply (ow_held s R) in X. by apply (N id).
Qed.

(** ** Tails *)

Definition in_writing (ph : tail_phase) : list EventMessage := match ph with TWriting ev => [ev] | _ => [] end.
Definition since (sub : tailSub) (s : server) : list EventMessage := drop (ts_from sub) (bs_log s).

(** A subscriber: what it was given is a part of the log, all of it while it is
    open and nothing was missed; and it is sent that in order. *)
Record tail_ok (log : list EventMessage) (sub : tailSub) : Prop := {
  tk_bound : length (ts_queue sub) <= tailBuffer;
  tk_sent : match ts_phase sub with
            | TFailing | TEnded => ts_sent sub `prefix_of` ts_put sub
            | ph => ts_put sub = ts_sent sub ++ in_writing ph ++ ts_queue sub
            end;
  tk_from : ts_from sub <= length log;
  tk_whole : ts_missed sub = false ->
    if ts_closed sub then ts_put sub `prefix_of` drop (ts_from sub) log else ts_put sub = drop (ts_from sub) log;
  tk_part : ts_put sub `sublist_of` drop (ts_from sub) log }.

Record tailed (s : server) : Prop := {
  td_ok : forall t sub, bs_subs s !! t = Some sub -> tail_ok (bs_log s) sub;
  td_open : forall t, t ∈ bs_tails s <-> exists sub, bs_subs s !! t = Some sub /\ ts_closed sub = false;
  td_once : NoDup (bs_tails s);
  td_told : forall t sub, bs_subs s !! t = Some sub -> ts_missed sub = true ->
    ts_closed sub = true \/ exists k w, bs_workers s !! k = Some w /\ WDrop t ∈ wk_todo w }.

(** What an event does to one subscriber. *)
Definition offered (ev : EventMessage) (sub : tailSub) : tailSub :=
  if ts_closed sub then sub
  else if (length (ts_queue sub) <? tailBuffer)%nat
       then sub <| ts_queue ::= fun q => q ++ [ev] |> <| ts_put ::= fun q => q ++ [ev] |>
       else sub <| ts_missed := true |>.
Definition full (sub : tailSub) : bool := negb (ts_closed sub) && negb (length (ts_queue sub) <? tailBuffer)%nat.

Lemma offer_subs ev st t u :
  bs_subs (offer ev st t).1 !! u = if decide (u = t) then offered ev <$> bs_subs st.1 !! u else bs_subs st.1 !! u.
Proof.
  unfold offer. destruct (bs_subs st.1 !! t) as [sub|] eqn:L.
  - unfold offered. destruct (decide (u = t)) as [->|N].
    + rewrite L. cbn [fmap option_fmap option_map]. destruct (ts_closed sub) eqn:C; [done|].
      destruct (length (ts_queue sub) <? tailBuffer)%nat; cbn; by rewrite list_lookup_alter_eq, L.
    + destruct (ts_closed sub); [done|]. destruct (_ <? _)%nat; cbn; by rewrite list_lookup_alter_ne.
  - destruct (decide (u = t)) as [->|N]; [by rewrite L|done].
Qed.

Lemma offer_lags ev st t u :
  u ∈ (offer ev st t).2 <-> u ∈ st.2 \/ u = t /\ exists sub, bs_subs st.1 !! t = Some sub /\ full sub = true.
Proof.
  unfold offer, full. destruct (bs_subs st.1 !! t) as [sub|] eqn:L; [|naive_solver].
  destruct (ts_closed sub) eqn:C; [split; [auto|]; intros [?|(_ & v & [= <-] & X)]; [done|by rewrite C in X]|].
  destruct (length (ts_queue sub) <? tailBuffer)%nat eqn:Q; cbn [snd].
  - split; [auto|]. intros [?|(_ & v & [= <-] & X)]; [done|]. by rewrite C, Q in X.
  - rewrite elem_of_app, list_elem_of_singleton. split; (intros [?|X]; [auto|right]).
    + split; [done|]. exists sub. by rewrite C, Q.
    + by destruct X.
Qed.

Lemma offers_spec ev ts st :
  NoDup ts ->
  let r := foldl (offer ev) st ts in
  (forall u, bs_subs r.1 !! u = if decide (u ∈ ts) then offered ev <$> bs_subs st.1 !! u else bs_subs st.1 !! u)
  /\ (forall u, u ∈ r.2 <-> u ∈ st.2 \/ u ∈ ts /\ exists sub, bs_subs st.1 !! u = Some sub /\ full sub = true)
  /\ bs_tails r.1 = bs_tails st.1 /\ bs_log r.1 = bs_log st.1.
Proof.
  revert st. induction ts as [|t ts IH]; intros st D; cbv zeta; cbn [foldl].
  { split_and!; [intros u; by rewrite decide_False by set_solver|set_solver|done|done]. }
  apply list.NoDup_cons in D as [N D]. destruct (IH (offer ev st t) D) as (A & B & T & G). split_and!.
  - intros u. rewrite A, !offer_subs. destruct (decide (u = t)) as [->|U].
    + rewrite decide_False by done. by rewrite decide_True by (by left).
    + destruct (decide (u ∈ ts)); [rewrite decide_True by (by right)|rewrite decide_False by set_solver]; done.
  - intros u. rewrite B, offer_lags. rewrite elem_of_cons. destruct (decide (u = t)) as [->|U].
    + split; [intros [[?|(_ & X)]|(? & _)]; [auto|auto|done]|intros [?|(_ & X)]; auto].
    + assert (bs_subs (offer ev st t).1 !! u = bs_subs st.1 !! u) as -> by (by rewrite offer_subs, decide_False).
      naive_solver.
  - rewrite T. unfold offer. destruct (bs_subs st.1 !! t) as [sub|]; [|done]. destruct (ts_closed sub); [done|].
    by destruct (_ <? _)%nat.
  - rewrite G. unfold offer. destruct (bs_subs st.1 !! t) as [sub|]; [|done]. destruct (ts_closed sub); [done|].
    by destruct (_ <? _)%nat.
Qed.

Lemma drop_snoc {A} n (l : list A) x : n <= length l -> drop n (l ++ [x]) = drop n l ++ [x].
Proof. intros L. by rewrite drop_app_le. Qed.

(** A longer log. *)
Lemma tail_ok_more log ev sub :
  tail_ok log sub -> ts_closed sub = true \/ ts_missed sub = true -> tail_ok (log ++ [ev]) sub.
Proof.
  intros [B S F W P] X. rewrite <-?(drop_snoc _ _ ev) in *. split; try done.
  - rewrite length_app. lia.
  - intros M. specialize (W M). destruct X as [C|C]; [|congruence]. rewrite C in *. rewrite drop_snoc by done.
    by apply prefix_app_r.
  - rewrite drop_snoc by done. by apply sublist_inserts_r.
Qed.

Lemma tail_ok_offered log ev sub : tail_ok log sub -> tail_ok (log ++ [ev]) (offered ev sub).
Proof.
  intros H. unfold offered. destruct (ts_closed sub) eqn:C; [apply tail_ok_more; auto|].
  destruct (Nat.ltb_spec (length (ts_queue sub)) tailBuffer) as [Q|Q].
  - destruct H as [B S F W P]. rewrite C in W. split; cbn.
    + rewrite length_app. cbn. lia.
    + destruct (ts_phase sub); try (rewrite S, <-!app_assoc; done); by apply prefix_app_r.
    + rewrite length_app. lia.
    + rewrite C. intros M. by rewrite drop_snoc, W.
    + rewrite drop_snoc by done. by apply sublist_app.
  - apply tail_ok_more; [|by right]. destruct H as [B S F W P]. by split.
Qed.

(** Some goroutine is about to drop the subscriber. *)
Definition dropping (s : server) (t : nat) : Prop := exists k w, bs_workers s !! k = Some w /\ WDrop t ∈ wk_todo w.

(** The rest stays when only the goroutines change and none forgets a drop. *)
Lemma tailed_workers s s' :
  tailed s -> bs_subs s' = bs_subs s -> bs_tails s' = bs_tails s -> bs_log s' = bs_log s ->
  (forall t, dropping s t -> dropping s' t \/ t ∉ bs_tails s) -> tailed s'.
Proof.
  intros [A B C D] Su Ta Lo Dr. split; rewrite ?Su, ?Ta, ?Lo; try done. intros t sub L M.
  destruct (D t sub L M) as [X|X]; [auto|]. destruct (Dr t X) as [Y|Y]; [auto|]. left.
  destruct (ts_closed sub) eqn:Cl; [done|]. exfalso. apply Y, B. eauto.
Qed.

Lemma dropping_worker s k f t :
  (forall w, bs_workers s !! k = Some w -> WDrop t ∈ wk_todo w -> WDrop t ∈ wk_todo (f w)) ->
  dropping s t -> dropping (on_worker k f s) t.
Proof.
  intros F (j & w & L & I). unfold dropping, on_worker. cbn. destruct (decide (k = j)) as [->|N].
  - exists j, (f w). rewrite list_lookup_alter_eq, L. split; [done|by apply F].
  - exists j, w. by rewrite list_lookup_alter_ne.
Qed.

(** A subscriber is closed and leaves the list. *)
Lemma tailed_drop t s : tailed s -> tailed (dropTail t s) /\ t ∉ bs_tails (dropTail t s)
  /\ bs_workers (dropTail t s) = bs_workers s.
Proof.
  intros T. unfold dropTail. destruct (decide (t ∈ bs_tails s)) as [I|I]; [|done].
  apply (td_open s T) in I as (sub & L & C). rewrite L, C.
  assert (forall u, u ∈ List.filter (fun u => negb (Nat.eqb u t)) (bs_tails s) <-> u ∈ bs_tails s /\ u <> t) as F.
  { intros u. rewrite list_elem_of_In, filter_In, <-list_elem_of_In, negb_true_iff, Nat.eqb_neq. done. }
  split_and!; [|cbn; rewrite F; tauto|done]. destruct T as [A B D E]. split; cbn.
  - intros u v. rewrite list_lookup_alter. destruct (decide (t = u)) as [<-|N]; [|apply A].
    rewrite L. cbn. intros [= <-]. destruct (A t sub L) as [X S G W P]. split; try done. cbn. intros M.
    specialize (W M). rewrite C in W. by rewrite W.
  - intros u. rewrite F, list_lookup_alter. destruct (decide (t = u)) as [<-|N].
    + rewrite L. cbn. split; [tauto|]. intros (v & [= <-] & X). done.
    + rewrite B. naive_solver.
  - by apply NoDup_ListNoDup, List.NoDup_filter, NoDup_ListNoDup.
  - intros u v. rewrite list_lookup_alter. destruct (decide (t = u)) as [<-|N]; [|apply E].
    rewrite L. cbn. intros [= <-]. auto.
Qed.

Lemma tailed_emit ev k rest s :
  tailed s -> (exists w, bs_workers s !! k = Some w /\ wk_todo w = WEmit ev :: rest) ->
  tailed (on_worker k (fun w => w <| wk_todo := (emit ev s).2 ++ rest |>) (emit ev s).1).
Proof.
  intros [A B C D] (w & L & Td). destruct (offers_spec ev (bs_tails s) (s, []) C) as (Os & Ol & Ot & Og).
  cbn [fst snd] in *. unfold emit in *. cbn [fst snd]. set (r := foldl (offer ev) (s, []) (bs_tails s)) in *.
  assert (bs_workers r.1 = bs_workers s) as Wk by apply (same_offers ev (bs_tails s) (s, [])).
  assert (forall t, t ∈ r.2 -> WDrop t ∈ List.concat ((fun t => [WSayLagged t; WDrop t]) <$> r.2)) as Lag.
  { intros t. generalize r.2. intros l. induction l as [|u l IH]; [by intros I%elem_of_nil|]. cbn.
    rewrite !elem_of_cons. intros [-> |I]; auto. }
  split; cbn.
  - intros t sub. rewrite Os, Og. destruct (decide (t ∈ bs_tails s)) as [I|I].
    + intros (v & V & ->)%fmap_Some. apply tail_ok_offered. by eapply A.
    + intros V. apply tail_ok_more; [by eapply A|]. left. destruct (ts_closed sub) eqn:Cl; [done|]. exfalso. apply I, B. eauto.
  - intros t. rewrite Ot, Os, B. destruct (decide (t ∈ bs_tails s)) as [I|I].
    + apply B in I as (v & V & Cl). rewrite V. cbn. split; intros _; [|eauto].
      eexists. split; [done|]. unfold offered. rewrite Cl. by destruct (_ <? _)%nat.
    + done.
  - by rewrite Ot.
  - intros t sub V M. destruct (decide (t ∈ bs_tails s)) as [I|I].
    + rewrite Os, decide_True in V by done. apply fmap_Some in V as (v & V & ->).
      destruct (ts_missed v) eqn:Mv.
      * destruct (D t v V Mv) as [X|(j & w' & J & X)].
        -- left. unfold offered. by rewrite X.
        -- right. destruct (decide (k = j)) as [->|N].
           ++ assert (w' = w) as -> by congruence. exists j. eexists. rewrite list_lookup_alter_eq, Wk, L.
              split; [done|]. cbn. rewrite Td in X. apply elem_of_cons in X as [X|X]; [done|]. apply elem_of_app. by right.
           ++ exists j, w'. rewrite list_lookup_alter_ne by done. by rewrite Wk.
      * right. exists k. eexists. rewrite list_lookup_alter_eq, Wk, L. split; [done|]. cbn. apply elem_of_app. left.
        apply Lag, Ol. right. split; [done|]. exists v. split; [done|]. unfold full.
        unfold offered in M. destruct (ts_closed v); [congruence|]. destruct (_ <? _)%nat; [|done]. cbn in M. congruence.
    + rewrite Os, decide_False in V by done. left. destruct (ts_closed sub) eqn:Cl; [done|]. exfalso. apply I, B. eauto.
Qed.

(** A subscriber changes without leaving its part of the log. *)
Lemma tailed_sub t f s :
  tailed s ->
  (forall sub, bs_subs s !! t = Some sub -> tail_ok (bs_log s) (f sub) /\ ts_closed (f sub) = ts_closed sub
                                            /\ ts_missed (f sub) = ts_missed sub) ->
  tailed (on_sub t f s).
Proof.
  intros [A B C D] F. unfold on_sub. split; cbn; [| |done|].
  - intros u sub. rewrite list_lookup_alter. destruct (decide (t = u)) as [<-|N]; [|apply A].
    intros (v & V & ->)%fmap_Some. apply (F v V).
  - intros u. rewrite B, list_lookup_alter. destruct (decide (t = u)) as [<-|N]; [|done]. split.
    + intros (v & V & Cl). destruct (F v V) as (_ & Cf & _). rewrite V. cbn. eexists. split; [done|congruence].
    + intros (v & (v' & V & ->)%fmap_Some & Cl). destruct (F v' V) as (_ & Cf & _). exists v'. split; [done|congruence].
  - intros u sub. rewrite list_lookup_alter. destruct (decide (t = u)) as [<-|N]; [|apply D].
    intros (v & V & ->)%fmap_Some M. destruct (F v V) as (_ & Cf & Mf). rewrite Cf. apply (D t v V). congruence.
Qed.

Lemma tailed_written ok c f s : tailed s -> tailed (written ok c f s).
Proof. destruct ok; [|done]. by intros [A B C D]; split. Qed.

(** A subscription is not delivered to before it is acknowledged, and only by the
    connection it belongs to. *)
Definition unacked (s : server) : Prop :=
  forall k w t, bs_workers s !! k = Some w -> WAckTail t ∈ wk_todo w ->
    exists sub, bs_subs s !! t = Some sub /\ ts_phase sub = TUnstarted /\ ts_conn sub = k.

Definition fresh_sub (s : server) (t k : nat) : Prop :=
  exists sub, bs_subs s !! t = Some sub /\ ts_phase sub = TUnstarted /\ ts_conn sub = k.

Lemma unacked_steps s s' :
  unacked s ->
  (forall t k, fresh_sub s t k -> fresh_sub s' t k) ->
  (forall k w t, bs_workers s' !! k = Some w -> WAckTail t ∈ wk_todo w ->
     fresh_sub s' t k \/ exists v, bs_workers s !! k = Some v /\ WAckTail t ∈ wk_todo v) ->
  unacked s'.
Proof. intros U F W k w t L I. destruct (W k w t L I) as [H|(v & V & J)]; [done|]. apply F. by eapply U. Qed.

Lemma fresh_on_sub t f s u k :
  (forall sub, bs_subs s !! t = Some sub -> ts_phase sub = TUnstarted ->
     ts_phase (f sub) = TUnstarted /\ ts_conn (f sub) = ts_conn sub) ->
  fresh_sub s u k -> fresh_sub (on_sub t f s) u k.
Proof.
  intros F (sub & L & P & C). unfold fresh_sub, on_sub. cbn. rewrite list_lookup_alter.
  destruct (decide (t = u)) as [<-|N]; [|by exists sub]. rewrite L. destruct (F sub L P) as [P' C'].
  exists (f sub). split_and!; [done|done|congruence].
Qed.

Lemma fresh_drop t s u k : fresh_sub s u k -> fresh_sub (dropTail t s) u k.
Proof.
  intros H. unfold dropTail. destruct (decide (t ∈ bs_tails s)); [|done]. destruct (bs_subs s !! t) as [sub|]; [|done].
  destruct (ts_closed sub); [done|].
  assert (fresh_sub (on_sub t (fun sub => sub <| ts_closed := true |>) s) u k) as G by (by apply fresh_on_sub).
  exact G.
Qed.

Lemma fresh_emit ev s u k : fresh_sub s u k -> fresh_sub (emit ev s).1 u k.
Proof.
  unfold emit. cbn [fst]. generalize (bs_tails s) at 1. intros ts.
  assert (forall st, fresh_sub st.1 u k -> fresh_sub (foldl (offer ev) st ts).1 u k) as G; [|exact (G (s, []))].
  induction ts as [|t ts IH]; intros st H; [done|]. apply IH. unfold offer.
  destruct (bs_subs st.1 !! t) as [sub|]; [|done]. destruct (ts_closed sub); [done|].
  destruct (_ <? _)%nat; by apply fresh_on_sub.
Qed.

(** A goroutine goes on with less to acknowledge. *)
Lemma unacked_worker s s1 k f :
  unacked s -> (forall t c, fresh_sub s t c -> fresh_sub s1 t c) -> bs_workers s1 = bs_workers s ->
  (forall w t, bs_workers s !! k = Some w -> WAckTail t ∈ wk_todo (f w) -> WAckTail t ∈ wk_todo w) ->
  unacked (on_worker k f s1).
Proof.
  intros U F W I. eapply unacked_steps; [exact U|exact F|]. intros j w t. cbn. rewrite W, list_lookup_alter.
  destruct (decide (k = j)) as [<-|N]; [|eauto]. intros (v & V & ->)%fmap_Some J. right. exists v. eauto.
Qed.

Lemma quiet_no_ack l t : forallb quiet l = true -> WAckTail t ∉ l.
Proof. intros Q I%list_elem_of_In. rewrite forallb_forall in Q. by specialize (Q _ I). Qed.

Lemma unacked_works ok k s s' : works ok k s = Some s' -> owned s -> unacked s -> unacked s'.
Proof.
  unfold works. intros X O U. destruct (bs_workers s !! k) as [w|] eqn:L; [|done].
  pose proof (ow_shape s O k w L) as Sh. unfold shaped in Sh.
  destruct (wk_todo w) as [|x rest] eqn:Td; [done|].
  assert (forall f, unacked (replies ok k f rest s)) as Rep.
  { intros f. unfold replies. eapply unacked_worker; [exact U|by destruct ok|by destruct ok|].
    intros v t V I. assert (v = w) as -> by congruence. rewrite Td. destruct ok; [by right|].
    cbn in I. by apply list_elem_of_singleton in I. }
  destruct x as [id pid|id|f|t|ev|t|t|].
  - by injection X as <-.
  - by injection X as <-.
  - by injection X as <-.
  - destruct Sh as [Sh|(Cn & En & Sh)]; [done|]. destruct rest; [|done]. injection X as <-.
    destruct (U k w t L) as (sub & Ls & Ps & Cs); [rewrite Td; by left|]. destruct ok.
    + intros j v u. cbn. rewrite list_lookup_alter. destruct (decide (k = j)) as [<-|N].
      * intros (v' & V & ->)%fmap_Some I. by apply elem_of_nil in I.
      * intros V I. destruct (U j v u V I) as (sb & Lu & Pu & Cu). exists sb. split_and!; try done.
        rewrite list_lookup_alter_ne; [done|]. intros ->. congruence.
    + eapply unacked_worker; [exact U|done|done|]. intros v u V I. cbn in I.
      apply elem_of_cons in I as [I|I]; [done|]. by apply list_elem_of_singleton in I.
  - injection X as <-. eapply unacked_worker; [exact U|intros; by apply fresh_emit|apply same_emit|].
    intros v t V I. cbn [wk_todo] in I. change (WAckTail t ∈ (emit ev s).2 ++ rest) in I.
    apply elem_of_app in I as [I|I]; [by apply (quiet_no_ack _ t (emit_quiet ev s)) in I|].
    assert (v = w) as -> by congruence. rewrite Td. by right.
  - injection X as <-. eapply unacked_worker; [exact U| | |].
    + by destruct (bs_subs s !! t); [destruct ok|].
    + by destruct (bs_subs s !! t); [destruct ok|].
    + intros v u V I. assert (v = w) as -> by congruence. rewrite Td. by right.
  - injection X as <-. eapply unacked_worker; [exact U|intros; by apply fresh_drop|apply same_drop|].
    intros v u V I. assert (v = w) as -> by congruence. rewrite Td. by right.
  - injection X as <-. eapply unacked_worker; [exact U|done|done|]. intros v u V I.
    cbn in I. apply list_elem_of_fmap in I as (? & ? & _). done.
Qed.

Lemma tailed_works ok k s s' : works ok k s = Some s' -> owned s -> unacked s -> tailed s -> tailed s'.
Proof.
  unfold works. intros X O U T. destruct (bs_workers s !! k) as [w|] eqn:L; [|done].
  pose proof (ow_shape s O k w L) as Sh. unfold shaped in Sh.
  destruct (wk_todo w) as [|x rest] eqn:Td; [done|].
  assert (forall s1 f, tailed s1 -> bs_workers s1 = bs_workers s ->
     (forall u, WDrop u ∈ x :: rest -> WDrop u ∈ wk_todo (f w) \/ u ∉ bs_tails s1) -> tailed (on_worker k f s1)) as Go.
  { intros s1 f T1 W I. apply (tailed_workers s1); try done. intros u D.
    destruct (decide (u ∈ bs_tails s1)) as [Y|]; [left|by right]. eapply dropping_worker; [|exact D].
    intros v V J. rewrite W in V. assert (v = w) as -> by congruence. rewrite Td in J. by destruct (I u J). }
  assert (forall f, (forall t, WDrop t ∉ x :: rest) -> tailed (replies ok k f rest s)) as Rep.
  { intros f N. unfold replies. apply Go; [by apply tailed_written|by destruct ok|]. intros u I. by apply N in I. }
  destruct x as [id pid|id|f|t|ev|t|t|].
  - destruct Sh as [Sh|(Cn & En & Sh)]; [done|]. injection X as <-. apply Rep.
    intros t. destruct rest as [|[| | | | | | |] [|]]; try done. rewrite !elem_of_cons, elem_of_nil. naive_solver.
  - destruct Sh as [Sh|(Cn & En & Sh)]; [done|]. injection X as <-. apply Rep.
    intros t. destruct rest as [|[| | | | | | |] [|]]; try done. rewrite !elem_of_cons, elem_of_nil. naive_solver.
  - destruct Sh as [Sh|(Cn & En & Sh)]; [done|]. destruct rest; [|done]. injection X as <-. apply Rep.
    intros t. rewrite list_elem_of_singleton. done.
  - destruct Sh as [Sh|(Cn & En & Sh)]; [done|]. destruct rest; [|done]. injection X as <-.
    destruct (U k w t L) as (sub & Ls & Ps & Cs); [rewrite Td; by left|]. destruct ok.
    + apply Go; [|done|intros u I; by apply list_elem_of_singleton in I]. apply tailed_sub; [by apply (tailed_written true)|].
      cbn. intros v V. assert (v = sub) as -> by congruence. split; [|done]. destruct (td_ok s T t sub Ls) as [B S F Wh P].
      rewrite Ps in S. by split.
    + apply Go; [done|done|]. intros u I. by apply list_elem_of_singleton in I.
  - injection X as <-. apply tailed_emit; [done|]. by exists w.
  - injection X as <-. apply Go; [destruct (bs_subs s !! t); [by apply tailed_written|done]|by destruct (bs_subs s !! t); [destruct ok|]|].
    intros u [|I]%elem_of_cons; [done|by left].
  - injection X as <-. destruct (tailed_drop t s T) as (T' & N & W). apply Go; [done|done|].
    intros u [E|I]%elem_of_cons; [|by left]. injection E as ->. by right.
  - destruct Sh as [Sh|(Cn & En & Sh)]; [done|]. destruct rest; [|done]. injection X as <-. apply Go; [|done|].
    + destruct T as [A B C D]. by split.
    + intros u I. by apply list_elem_of_singleton in I.
Qed.

Lemma tailed_goes ok t s s' : tail_goes ok t s = Some s' -> unacked s -> tailed s -> tailed s' /\ unacked s'.
Proof.
  unfold tail_goes. intros X U T. destruct (bs_subs s !! t) as [sub|] eqn:L; [|done].
  assert (forall s1 f, (forall u c, fresh_sub s u c -> fresh_sub s1 u c) -> bs_workers s1 = bs_workers s ->
    (forall v, bs_subs s1 !! t = Some v -> ts_phase v <> TUnstarted) -> unacked (on_sub t f s1)) as Un.
  { intros s1 f F W N. eapply unacked_steps; [exact U| |intros j w u; cbn; rewrite W; eauto].
    intros u c Fr. apply fresh_on_sub; [|by apply F]. intros v V P. by apply N in V. }
  destruct (td_ok s T t sub L) as [B S F W P].
  destruct (ts_phase sub) as [| |ev| |] eqn:Ph.
  - by destruct (ts_queue sub).
  - destruct (ts_queue sub) as [|ev q] eqn:Q.
    + destruct (ts_closed sub) eqn:Cl; [|done]. injection X as <-. split; [|apply Un; try done; congruence].
      apply tailed_sub; [done|]. intros v V. assert (v = sub) as -> by congruence. split; [|done].
      split; cbn; rewrite ?Q, ?Cl; try done. rewrite S. cbn. by rewrite app_nil_r.
    + injection X as <-. split; [|apply Un; try done; congruence].
      apply tailed_sub; [done|]. intros v V. assert (v = sub) as -> by congruence. split; [|done].
      split; cbn; try done. cbn in B. lia.
  - injection X as <-. destruct ok; (split; [|apply Un; try done; cbn; congruence]).
    + apply tailed_sub; [by apply (tailed_written true)|]. cbn. intros v V. assert (v = sub) as -> by congruence. split; [|done].
      split; cbn; try done. by rewrite S, <-app_assoc.
    + apply tailed_sub; [done|]. intros v V. assert (v = sub) as -> by congruence. split; [|done].
      split; cbn; try done. rewrite S. by apply prefix_app_r.
  - injection X as <-. destruct (tailed_drop t s T) as (T' & N & Wk). split.
    + apply tailed_sub; [done|]. intros v V. split; [|done]. destruct (td_ok _ T' t v V) as [B' S' F' W' P'].
      split; cbn; try done. assert (ts_phase v = TFailing) as Pv.
      { revert V. unfold dropTail. destruct (decide _); [|congruence]. rewrite L.
        destruct (ts_closed sub); cbn; [congruence|]. rewrite list_lookup_alter_eq, L. by intros [= <-]. }
      by rewrite Pv in S'.
    + apply Un; [intros; by apply fresh_drop|done|]. intros v. unfold dropTail.
      destruct (decide _); [|congruence]. rewrite L. destruct (ts_closed sub); cbn; [congruence|].
      rewrite list_lookup_alter_eq, L. intros [= <-]. cbn. congruence.
  - by destruct (ts_queue sub).
Qed.

(** A goroutine starts, or one that had nothing to do has. *)
Lemma dropping_added s w t : dropping s t -> dropping (s <| bs_workers ::= fun l => l ++ [w] |>) t.
Proof. intros (k & v & L & I). exists k, v. split; [|done]. cbn. by apply lookup_app_l_Some. Qed.

Lemma unacked_added s w : unacked s -> (forall t, WAckTail t ∉ wk_todo w) -> unacked (s <| bs_workers ::= fun l => l ++ [w] |>).
Proof.
  intros U N. eapply unacked_steps; [exact U|done|]. cbn. intros k v t [L| [Le L]]%lookup_app_Some I; [eauto|].
  apply list_lookup_singleton_Some in L as [_ <-]. by apply N in I.
Qed.

(** What the table of sessions does not touch. *)
Definition same_tails (s s' : server) : Prop :=
  bs_workers s' = bs_workers s /\ bs_subs s' = bs_subs s /\ bs_tails s' = bs_tails s /\ bs_log s' = bs_log s.

Lemma dispatch_tails c r s :
  r <> RTail -> same_tails s (dispatch c r s).1 /\ forall t, WAckTail t ∉ (dispatch c r s).2 /\ WDrop t ∉ (dispatch c r s).2.
Proof.
  assert (forall f, same_tails s s /\ forall t, WAckTail t ∉ [WReply f] /\ WDrop t ∉ [WReply f]) as Rep.
  { intros f. split; [done|]. intros t. by rewrite !list_elem_of_singleton. }
  destruct r as [|id reuse| | |name]; intros N; cbn [dispatch fst snd]; [| | |done|].
  - split; [done|]. intros t. cbn. rewrite !elem_of_cons, !elem_of_nil. naive_solver.
  - destruct (decide (id = "")); [apply Rep|]. unfold handleReleaseV1. destruct reuse; [apply Rep|].
    destruct (bs_sessions s !! id) as [o|]; [|apply Rep]. destruct (decide (o = c)); [|apply Rep].
    split; [done|]. intros t. cbn. rewrite !elem_of_cons, !elem_of_nil. naive_solver.
  - apply Rep.
  - apply Rep.
Qed.

Lemma tailed_subscribed c s :
  tailed s -> tailed (handleTail c s).1.
Proof.
  intros [A B C D]. unfold handleTail. cbn [fst]. set (t := length (bs_subs s)).
  assert (t ∉ bs_tails s) as Nt. { intros (sub & L & _)%B. apply lookup_lt_Some in L. lia. }
  split; cbn.
  - intros u v [L| [Le L]]%lookup_app_Some; [by apply (A u)|]. apply list_lookup_singleton_Some in L as [_ <-].
    split; cbn; [unfold tailBuffer; lia|done|lia|intros _; by rewrite drop_all|apply sublist_nil_l].
  - intros u. rewrite elem_of_app, list_elem_of_singleton, B. split.
    + intros [(v & L & Cl)| ->].
      * exists v. split; [|done]. by apply lookup_app_l_Some.
      * eexists. split; [by apply list_lookup_middle|done].
    + intros (v & [L| [Le L]]%lookup_app_Some & Cl); [eauto|]. apply list_lookup_singleton_Some in L as [L _].
      right. unfold t. lia.
  - apply list.NoDup_app. split_and!; [done| |apply NoDup_singleton]. intros u I ->%list_elem_of_singleton. done.
  - intros u v [L| [Le L]]%lookup_app_Some M; [by apply (D u v)|]. by apply list_lookup_singleton_Some in L as [_ <-].
Qed.

(** A connection that read a request, or noticed the other end is gone. *)
Lemma begins s s1 c w todo :
  bs_workers s !! c = Some w -> wk_todo w = [] -> same_tails s s1 -> (forall t, WAckTail t ∉ todo) ->
  tailed s -> unacked s ->
  tailed (on_worker c (fun w => w <| wk_todo := todo |>) s1) /\ unacked (on_worker c (fun w => w <| wk_todo := todo |>) s1).
Proof.
  intros L Td (W & Su & Ta & Lo) N T U. split.
  - eapply (tailed_workers s); [done|done|done|done|]. intros t (k & v & V & I). left. exists k, v. split; [|done].
    cbn. rewrite list_lookup_alter_ne, W; [done|]. intros ->. assert (v = w) as -> by congruence. rewrite Td in I. by apply elem_of_nil in I.
  - eapply unacked_worker; [exact U| |done|]; [intros t k; unfold fresh_sub; by rewrite Su|].
    intros v t V I. by apply N in I.
Qed.

Lemma tailed_exec l s s' :
  server_exec l s = Some s' -> owned s -> tailed s -> unacked s -> tailed s' /\ unacked s'.
Proof.
  intros X O T U. destruct l as [|c r|c|ev|k ok|t ok|]; cbn in X.
  - unfold accepts, closes in X. destruct (bs_done s); [done|]. injection X as <-. split.
    + eapply tailed_workers; try done. intros t D. left. exact (dropping_added s (MkWorker _ [] false false) t D).
    + apply (unacked_added s (MkWorker (Some (length (bs_workers s))) [] false false)); [done|]. intros t I. by apply elem_of_nil in I.
  - destruct (reading c s) as [w|] eqn:Rd; [|done]. apply reading_spec in Rd as (L & Cn & Td & En).
    destruct (wk_tailing w); [by injection X as <-|]. injection X as <-.
    destruct (decide (r = RTail)) as [->|N].
    + cbn [dispatch]. pose proof (tailed_subscribed c s T) as T1. split.
      * eapply (tailed_workers (handleTail c s).1); try done. intros t (k & v & V & I). left. exists k, v. split; [|done].
        cbn. rewrite list_lookup_alter_ne; [done|]. intros ->. assert (v = w) as -> by (cbn in V; congruence).
        rewrite Td in I. by apply elem_of_nil in I.
      * eapply unacked_steps; [exact U| |].
        -- intros t k (sub & Ls & P & Cs). exists sub. split_and!; try done. cbn. by apply lookup_app_l_Some.
        -- intros k v t. cbn. rewrite list_lookup_alter. destruct (decide (c = k)) as [<-|Nk]; [|eauto].
           intros (v' & V & ->)%fmap_Some I. left. cbn in I. apply list_elem_of_singleton in I as [= ->].
           eexists. cbn. split; [by apply list_lookup_middle|done].
    + destruct (dispatch_tails c r s N) as [Sa Nw]. eapply begins; try done. intros t. apply Nw.
  - destruct (reading c s) as [w|] eqn:Rd; [|done]. apply reading_spec in Rd as (L & Cn & Td & En). injection X as <-.
    eapply begins; try done. intros t I. by apply list_elem_of_singleton in I.
  - injection X as <-. split.
    + eapply tailed_workers; try done. intros t D. left. by apply dropping_added.
    + apply unacked_added; [done|]. intros t I. by apply list_elem_of_singleton in I.
  - split; [by eapply tailed_works|by eapply unacked_works].
  - by eapply tailed_goes.
  - unfold accepts, closes in X. destruct (bs_done s); [done|]. injection X as <-. split.
    + eapply (tailed_workers s); try done. intros t D. left. by apply (dropping_added s (MkWorker None (WDrop <$> bs_tails s) false false)).
    + apply (unacked_added (s <| bs_done := true |>) (MkWorker None (WDrop <$> bs_tails s) false false)); [done|].
      intros t I. cbn in I. apply list_elem_of_fmap in I as (? & ? & _). done.
Qed.

Lemma tailed_reachable s : server_reachable s -> tailed s /\ unacked s.
Proof.
  induction 1 as [|s l s' R [T U] E].
  - split; [|by intros k w t L]. split; cbn; try done; [|by constructor].
    intros t. split; [by intros I%elem_of_nil|by intros (sub & L & _)].
  - eapply tailed_exec; try done. by apply owned_reachable.
Qed.

(** C12: A subscriber is sent events that were emitted after it subscribed, in
    their order and each at most once, and at most 64 wait for it. As long as no
    event found its queue full it has missed none: an open one has, between what
    it was sent, what is being written and what waits, every event since. And
    one that missed an event is closed, or some goroutine is about to do so. *)
Theorem a_tail_is_whole_until_its_queue_fills s t sub :
  server_reachable s -> bs_subs s !! t = Some sub ->
  ts_sent sub `sublist_of` since sub s
  /\ length (ts_queue sub) <= tailBuffer
  /\ (ts_missed sub = false -> ts_sent sub `prefix_of` since sub s)
  /\ (ts_missed sub = false -> ts_closed sub = false -> ts_phase sub <> TFailing -> ts_phase sub <> TEnded ->
      since sub s = ts_sent sub ++ in_writing (ts_phase sub) ++ ts_queue sub)
  /\ (ts_missed sub = true -> ts_closed sub = true \/ dropping s t).
Proof.
  intros [[A B C D] _]%tailed_reachable L. destruct (A t sub L) as [Bo S F W P]. unfold since.
  assert (ts_sent sub `prefix_of` ts_put sub) as Pre.
  { destruct (ts_phase sub); try done; rewrite S; by apply prefix_app_r. }
  split_and!; [|done| | |by apply (D t sub L)].
  - etrans; [|exact P]. destruct Pre as [x ->]. by apply sublist_inserts_r.
  - intros M. specialize (W M). destruct (ts_closed sub); [by etrans|by rewrite <-W].
  - intros M Cl NF NE. specialize (W M). rewrite Cl in W. rewrite <-W. by destruct (ts_phase sub).
Qed.

(** ** Runs *)

Module Brokering.

Fixpoint go (ls : list server_label) (s : server) : option server :=
  match ls with
  | [] => Some s
  | l :: ls => match server_exec l s with Some s' => go ls s' | None => None end
  end.

Definition serving (ls : list server_label) : server := default Serve (go ls Serve).

Lemma go_reachable ls s s' : go ls s = Some s' -> server_reachable s -> server_reachable s'.
Proof.
  revert s. induction ls as [|l ls IH]; cbn; intros s; [by intros [= <-]|].
  destruct (server_exec l s) as [s1|] eqn:E; [|done]. intros X R. eapply IH; [exact X|]. by eapply server_step.
Qed.

Lemma serving_reachable ls : server_reachable (serving ls).
Proof.
  unfold serving. destruct (go ls Serve) as [s|] eqn:E; [|apply server_start].
  eapply go_reachable; [exact E|apply server_start].
Qed.

Definition numbered (n : nat) : EventMessage := MkEvent (EventOther "tick") (utoa (N.of_nat n)).

(** Connection 0 subscribes and is told so. *)
Definition subscribes : list server_label := [VAccept; VRequest 0 RTail; VWork 0 true].

(** [n] events, the first by goroutine [k]; nobody reads what they queue. *)
Definition ticks (from n k : nat) : list server_label :=
  flat_map (fun i => [VEmit (numbered (from + i)); VWork (k + i) true]) (seq 0 n).

Definition one_session : list server_label := [VAccept; VRequest 0 RSpawn; VWork 0 true].

(** Connection 1 takes a session and gives it back, and the answer to that does
    not reach it. *)
Definition lost_release : list server_label :=
  subscribes ++ [VAccept; VRequest 1 RSpawn; VWork 1 true; VWork 1 true;
                 VRequest 1 (RRelease "s-1" false); VWork 1 false; VWork 1 true].

(** The queue fills, one event finds no place, the goroutine that writes makes
    room, and the next event gets it; only then is the subscriber told. *)
Definition full_queue : list server_label := subscribes ++ ticks 0 64 1.
Definition around_the_gap : list server_label :=
  full_queue ++ [VEmit (numbered 64); VWork 65 true; VTail 0 true; VTail 0 true; VEmit (numbered 65); VWork 66 true].
Definition drained : list server_label := flat_map (fun _ => [VTail 0 true; VTail 0 true]) (seq 0 64).
Definition told : list server_label := around_the_gap ++ drained ++ [VWork 65 true; VWork 65 true].

Theorem sessions_belong_to_open_connections_witness :
  let s := serving one_session in
  bs_sessions s !! "s-1" = Some 0
  /\ exists w, bs_workers s !! 0 = Some w /\ wk_conn w = Some 0 /\ wk_ended w = false.
Proof.
  cbv zeta. split; [reflexivity|].
  exact (proj2 (proj1 (sessions_belong_to_open_connections _ (serving_reachable one_session)) "s-1" 0 eq_refl)).
Defined.

Definition half_way : server := serving (subscribes ++ ticks 0 3 1 ++ [VTail 0 true; VTail 0 true; VTail 0 true]).

Theorem a_tail_is_whole_until_its_queue_fills_witness :
  let sub := MkTail 0 [numbered 2] false (TWriting (numbered 1)) 0
               [numbered 0; numbered 1; numbered 2] [numbered 0] false in
  bs_subs half_way !! 0 = Some sub
  /\ since sub half_way = ts_sent sub ++ in_writing (ts_phase sub) ++ ts_queue sub.
Proof.
  cbv zeta. split; [vm_compute; reflexivity|].
  refine (proj1 (proj2 (proj2 (proj2 (a_tail_is_whole_until_its_queue_fills half_way 0 _ (serving_reachable _) _)))) _ _ _ _);
    [vm_compute; reflexivity|reflexivity|reflexivity|discriminate|discriminate].
Defined.

(** The frames connection 0 was written, the events by their place in the log. *)
Definition wire (s : server) : list server_frame := default [] (bs_wire s !! 0).
Definition ticked (l : list nat) : list server_frame := (fun n => EventFrame (numbered n)) <$> l.

(** Event 65 reaches the subscriber after event 63, with 64 missing, before any
    word of it; the report comes when all is written, and the connection that it
    says is closed is still being served, with nothing left that would end it. *)
Lemma an_event_after_the_gap_comes_first :
  wire (serving told) = TailingFrame :: ticked (seq 0 64 ++ [65]) ++ [RefusedFrame CodeTailLagged ""]
  /\ forallb (fun w => bool_decide (wk_todo w = []) && negb (wk_ended w)) (bs_workers (serving told)) = true.
Proof. split; vm_compute; reflexivity. Qed.

(** A session that was given back by a consumer that could not be answered is
    gone without an event. *)
Lemma an_unanswered_release_is_not_told :
  let s := serving lost_release in
  bs_sessions s = ∅ /\ bs_log s = [MkEvent EventSpawn "s-1"] /\ wk_todo <$> bs_workers s = [[]; []].
Proof. split_and!; vm_compute; reflexivity. Qed.

(** A session is its owner's to release. *)
Lemma only_the_owner_releases :
  wire (serving [VAccept; VAccept; VRequest 1 RSpawn; VWork 1 true; VWork 1 true;
                 VRequest 0 (RRelease "s-1" false); VWork 0 true; VRequest 0 (RRelease "s-2" false); VWork 0 true;
                 VRequest 0 RStatus; VWork 0 true])
  = [RefusedFrame CodeNotOwner "s-1"; RefusedFrame CodeUnknownSession "s-2"; StatusFrame ["s-1"]].
Proof. vm_compute. reflexivity. Qed.

End Brokering.
