(* ===== verification/BrokerClient.v ===== *)
(** * BrokerClient: the calls of one connection to the daemon

    Models [broker_client.go]: calls that wait for the response of their id, the
    reader that hands responses out and pushes what has no id, and [fail], which
    wakes every waiter. Each stretch under the mutex, and each use of a channel, is a
    step; what the reader reads, when a write returns and how, and when a caller's
    context ends are arguments. A write has no deadline: it returns when the socket
    takes it or fails, and has the connection's own mutex until then. [answers_reach_their_calls] and
    [a_dead_connection_strands_no_call] are about every interleaving. *)

From Stdlib Require Import Ascii.
From S2P Require Import Prelude GoLib GoJson WireResponses WireTypes Wire Frames.

(** ** The client *)

(** What ends a connection, or a read of it. *)
Inductive client_error :=
| IoEOF
| ConnectionEnded       (* "claudia: broker connection closed" *)
| ErrBrokerClosed       (* [errBrokerClosed], of [Close] *)
| ReadRefused (e : wire_error)
| ReadBroken.

(** [brokerClient]; [pending] gives the call whose channel waits for an id, and is nil
    once the client has ended. *)
Record brokerClient := MkClient {
  bc_seq : Z; bc_pending : option (gmap string nat); bc_push : bool; bc_closed : bool; bc_err : option client_error;
  bc_dropped : Z; bc_lastDrop : option wire_error; bc_shutdown : string }.
#[export] Instance eta_brokerClient : Eta brokerClient := fun b =>
  MkClient (bc_seq b) (bc_pending b) (bc_push b) (bc_closed b) (bc_err b) (bc_dropped b) (bc_lastDrop b) (bc_shutdown b).
#[export] Hint Extern 1 (@Setter brokerClient _ _) => setter_of eta_brokerClient : typeclass_instances.

(** [dialBroker], once the socket is open. *)
Definition dialBroker : brokerClient := MkClient 0 (Some ∅) false false None 0 None "".

Definition EventShutdown : string := "shutdown".

(** The id of the [n]-th call; the counter is an [int64]. *)
Definition call_id (n : Z) : string := "c" +:+ itoa (wrap64 n).

(** Of [call]: a place among the pending, or the error of a client that has ended. *)
Definition registers (id : string) (i : nat) (b : brokerClient) : brokerClient * option (option client_error) :=
  if bc_closed b then (b, Some (bc_err b)) else (b <| bc_pending ::= fmap (<[id := i]>) |>, None).
(** [delete(b.pending, id)], which a nil map allows. *)
Definition forget (id : string) (b : brokerClient) : brokerClient := b <| bc_pending ::= fmap (delete id) |>.

(** Of [readLoop]: whose response this is. *)
Definition takes (id : string) (b : brokerClient) : brokerClient * option nat :=
  match mbind (.!! id) (bc_pending b) with Some i => (forget id b, Some i) | None => (b, None) end.

Definition noteDropped (e : wire_error) (b : brokerClient) : brokerClient :=
  b <| bc_dropped := wrap64 (bc_dropped b + 1) |> <| bc_lastDrop := Some e |>.
Definition DroppedFrames (b : brokerClient) : Z * option wire_error := (bc_dropped b, bc_lastDrop b).

(** [fail] up to its unlock: the calls whose channels it closes after that, [None]
    when the client had ended before. *)
Definition fail (e : client_error) (b : brokerClient) : brokerClient * option (list nat) :=
  if bc_closed b then (b, None)
  else (b <| bc_closed := true |> <| bc_err := Some match e with IoEOF => ConnectionEnded | e => e end |>
          <| bc_pending := None |>,
        Some ((map_to_list (default ∅ (bc_pending b))).*2)).

Definition plannedStop (b : brokerClient) : bool := negb (bool_decide (bc_shutdown b = "")).
Definition lostByPeer (b : brokerClient) : bool :=
  bc_closed b && match bc_err b with None | Some ErrBrokerClosed => false | Some _ => true end.

(** The daemon says that it stops on purpose. *)
Definition shutdown_notice (r : Response) : option string :=
  match rs_Event r with
  | Some ev => if decide (rs_Type r = TypeEvent /\ ev_Kind ev = EventShutdown) then Some (ev_Detail ev) else None
  | None => None
  end.

(** ** Calls *)

Inductive call_outcome :=
| Answered (r : Response)
| NotAvailable (e : ProtocolError)   (* [errBrokerNotAvailable] *)
| RefusedCall (e : ProtocolError)
| ClientEnded (e : option client_error)
| NotWritten
| ContextEnded.

(** What [call] makes of the response it was handed. *)
Definition answer (r : Response) : call_outcome :=
  if decide (rs_Type r = TypeError) then
    let e := Err (default new_ErrorMessage (rs_Error r)) in
    if decide (pe_Code e = CodeNotAvailable) then NotAvailable e else RefusedCall e
  else Answered r.

Inductive call_phase :=
| CEntering                    (* it has its id *)
| CWriting                     (* it is registered *)
| CSending                     (* in the socket's write, with [Conn.mu] *)
| CUnsent                      (* [WriteRequest] gave an error *)
| CWaiting
| CReturned (o : call_outcome).

(** A call, with its channel of one place. [cc_since] is how many responses had been
    read when it registered, [cc_got] the response it took. *)
Record client_call := MkCall {
  cc_id : string; cc_phase : call_phase; cc_buf : option Response; cc_closed : bool;
  cc_since : nat; cc_got : option Response }.
#[export] Instance eta_client_call : Eta client_call := fun c =>
  MkCall (cc_id c) (cc_phase c) (cc_buf c) (cc_closed c) (cc_since c) (cc_got c).
#[export] Hint Extern 1 (@Setter client_call _ _) => setter_of eta_client_call : typeclass_instances.

Inductive reader_phase :=
| RReading
| RHanding (i : nat) (r : Response)   (* about to send on the channel *)
| RFailing (e : client_error)
| RSweeping                           (* in [fail], closing the channels *)
| RLeft.

(** The socket: [fail] closes it after its unlock and before it closes the channels. *)
Inductive socket_phase := SocketOpen | SocketClosing | SocketClosed.
#[export] Instance socket_phase_eq : EqDecision socket_phase.
Proof. solve_decision. Defined.

(** A client and its goroutines. [cw_closing] are the channels that the one [fail] has
    still to close; [cw_read] is what the reader has read, [cw_ended] how much of it
    before the client ended; [cw_pushed] went to the push callback; [cw_writer] is the
    call that has [Conn.mu]. *)
Record client_world := MkClientWorld {
  cw_client : brokerClient; cw_calls : list client_call; cw_reader : reader_phase; cw_closing : list nat;
  cw_read : list Response; cw_pushed : list Response; cw_ended : option nat; cw_panicked : bool;
  cw_writer : option nat; cw_socket : socket_phase }.
#[export] Instance eta_client_world : Eta client_world := fun w =>
  MkClientWorld (cw_client w) (cw_calls w) (cw_reader w) (cw_closing w) (cw_read w) (cw_pushed w) (cw_ended w) (cw_panicked w)
    (cw_writer w) (cw_socket w).
#[export] Hint Extern 1 (@Setter client_world _ _) => setter_of eta_client_world : typeclass_instances.

Definition dialled : client_world := MkClientWorld dialBroker [] RReading [] [] [] None false None SocketOpen.

(** ** Steps *)

Inductive client_step :=
| CallBegins
| CallRegisters (i : nat)
| CallUnwritable (i : nat)
| CallLocks (i : nat)
| CallWrites (i : nat) (ok : bool)
| CallForgets (i : nat)
| CallReceives (i : nat)
| CallWoken (i : nat)
| CallCancelled (i : nat)
| ReaderReads (m : message_read Response)
| ReaderHands
| ReaderFails
| ReaderLeaves
| SocketCloses
| ChannelCloses (i : nat)
| CloseCalled
| PushSet.

Definition on_call (i : nat) (f : client_call -> client_call) (w : client_world) : client_world := w <| cw_calls ::= alter f i |>.
Definition to_phase (p : call_phase) (c : client_call) : client_call := c <| cc_phase := p |>.
Definition returns (o : call_outcome) (c : client_call) : client_call := c <| cc_phase := CReturned o |>.

Definition call_begins (w : client_world) : client_world :=
  let n := wrap64 (bc_seq (cw_client w) + 1) in
  w <| cw_client ::= fun b => b <| bc_seq := n |> |>
    <| cw_calls ::= fun l => l ++ [MkCall (call_id n) CEntering None false 0 None] |>.

Definition call_registers (i : nat) (c : client_call) (w : client_world) : client_world :=
  let r := registers (cc_id c) i (cw_client w) in
  on_call i (fun c => c <| cc_phase := match r.2 with Some e => CReturned (ClientEnded e) | None => CWriting end |>
                        <| cc_since := length (cw_read w) |>) (w <| cw_client := r.1 |>).

(** A call that gives its place up. *)
Definition call_leaves (o : call_outcome) (i : nat) (c : client_call) (w : client_world) : client_world :=
  on_call i (returns o) (w <| cw_client ::= forget (cc_id c) |>).

(** One message of [readLoop]. *)
Definition reads_response (r : Response) (w : client_world) : client_world :=
  let w := w <| cw_read ::= fun l => l ++ [r] |> in
  if decide (rs_ID r = "") then
    match shutdown_notice r with
    | Some why => w <| cw_client ::= fun b => b <| bc_shutdown := why |> |>
    | None => if bc_push (cw_client w) then w <| cw_pushed ::= fun l => l ++ [r] |> else w
    end
  else let t := takes (rs_ID r) (cw_client w) in
       w <| cw_client := t.1 |> <| cw_reader := match t.2 with Some i => RHanding i r | None => RReading end |>.
Definition reads (m : message_read Response) (w : client_world) : client_world :=
  match m with
  | Message r => reads_response r w
  | Unread e =>
    if match e with Refused pe => IsFrameTooLarge pe | Invalid => false end
    then w <| cw_client ::= noteDropped e |> else w <| cw_reader := RFailing (ReadRefused e) |>
  | NoMore => w <| cw_reader := RFailing IoEOF |>
  | Lost => w <| cw_reader := RFailing ReadBroken |>
  end.

(** [ch <- resp] and [close(ch)]: of a closed channel they panic, and a full one blocks. *)
Definition hands (i : nat) (r : Response) (w : client_world) : option client_world :=
  match cw_calls w !! i with
  | None => None
  | Some c =>
    if cc_closed c then Some (w <| cw_panicked := true |>)
    else match cc_buf c with
         | Some _ => None
         | None => Some (on_call i (fun c => c <| cc_buf := Some r |>) (w <| cw_reader := RReading |>))
         end
  end.
Definition closes_channel (i : nat) (w : client_world) : client_world :=
  let w := w <| cw_closing ::= List.filter (fun j => negb (Nat.eqb j i)) |> in
  match cw_calls w !! i with
  | Some c => if cc_closed c then w <| cw_panicked := true |> else on_call i (fun c => c <| cc_closed := true |>) w
  | None => w
  end.

(** [fail] by whoever: what it leaves to close. *)
Definition fails (e : client_error) (w : client_world) : client_world * bool :=
  match fail e (cw_client w) with
  | (b, None) => (w, false)
  | (b, Some l) => (w <| cw_client := b |> <| cw_closing := l |> <| cw_ended := Some (length (cw_read w)) |>
                         <| cw_socket := SocketClosing |>, true)
  end.

Definition client_exec (s : client_step) (w : client_world) : option client_world :=
  let at_call i (f : client_call -> option client_world) := mbind f (cw_calls w !! i) in
  match s with
  | CallBegins => Some (call_begins w)
  | CallRegisters i =>
    at_call i (fun c => match cc_phase c with CEntering => Some (call_registers i c w) | _ => None end)
  | CallUnwritable i =>
    at_call i (fun c => match cc_phase c with CWriting => Some (on_call i (to_phase CUnsent) w) | _ => None end)
  | CallLocks i =>
    at_call i (fun c => match cc_phase c, cw_writer w with
                        | CWriting, None => Some (on_call i (to_phase CSending) w <| cw_writer := Some i |>)
                        | _, _ => None
                        end)
  | CallWrites i ok =>
    at_call i (fun c => match cc_phase c with
                        | CSending => Some (on_call i (to_phase (if ok then CWaiting else CUnsent)) w <| cw_writer := None |>)
                        | _ => None
                        end)
  | CallForgets i =>
    at_call i (fun c => match cc_phase c with CUnsent => Some (call_leaves NotWritten i c w) | _ => None end)
  | CallReceives i =>
    at_call i (fun c => match cc_phase c, cc_buf c with
                        | CWaiting, Some r =>
                          Some (on_call i (fun c => returns (answer r) c <| cc_buf := None |> <| cc_got := Some r |>) w)
                        | _, _ => None
                        end)
  | CallWoken i =>
    at_call i (fun c => match cc_phase c, cc_buf c, cc_closed c with
                        | CWaiting, None, true => Some (on_call i (returns (ClientEnded (bc_err (cw_client w)))) w)
                        | _, _, _ => None
                        end)
  | CallCancelled i =>
    at_call i (fun c => match cc_phase c with CWaiting => Some (call_leaves ContextEnded i c w) | _ => None end)
  | ReaderReads m => match cw_reader w with RReading => Some (reads m w) | _ => None end
  | ReaderHands => match cw_reader w with RHanding i r => hands i r w | _ => None end
  | ReaderFails =>
    match cw_reader w with
    | RFailing e => let f := fails e w in Some (f.1 <| cw_reader := if f.2 then RSweeping else RLeft |>)
    | _ => None
    end
  | ReaderLeaves =>
    match cw_reader w, cw_closing w, cw_socket w with
    | RSweeping, [], SocketClosed => Some (w <| cw_reader := RLeft |>)
    | _, _, _ => None
    end
  | SocketCloses => match cw_socket w with SocketClosing => Some (w <| cw_socket := SocketClosed |>) | _ => None end
  | ChannelCloses i => if decide (i ∈ cw_closing w /\ cw_socket w = SocketClosed) then Some (closes_channel i w) else None
  | CloseCalled => Some (fails ErrBrokerClosed w).1
  | PushSet => Some (w <| cw_client ::= fun b => b <| bc_push := true |> |>)
  end.

Inductive client_reachable : client_world -> Prop :=
| client_dials : client_reachable dialled
| client_goes w s w' : client_reachable w -> client_exec s w = Some w' -> client_reachable w'.

(** ** What holds in every reachable state *)

Lemma call_id_inj n m : (0 <= n < 2 ^ 64)%Z -> (0 <= m < 2 ^ 64)%Z -> call_id n = call_id m -> n = m.
Proof.
  intros N M E. apply wrap64_inj; [done..|]. unfold call_id in E.
  assert (itoa (wrap64 n) = itoa (wrap64 m)) as I by (change (String "c"%char (itoa (wrap64 n)) = String "c"%char (itoa (wrap64 m))) in E; congruence).
  apply (f_equal parse_int) in I. rewrite !parse_int_itoa in I. congruence.
Qed.

(** No response of the call's id among the [n] first that were read, past [cc_since]. *)
Definition unanswered (read : list Response) (n : nat) (c : client_call) : Prop :=
  forall k r, cc_since c <= k < n -> read !! k = Some r -> rs_ID r <> cc_id c.
(** The first response of the call's id since it registered. *)
Definition answered_by (read : list Response) (c : client_call) (r : Response) : Prop :=
  exists k, cc_since c <= k /\ read !! k = Some r /\ rs_ID r = cc_id c /\ unanswered read k c.

(** Where the answer of a call can be. *)
Inductive place := Nowhere | Pending | Handed (r : Response) | Held (r : Response) | Closing | Closed.

Record at_place (pending : option (gmap string nat)) (reader : reader_phase) (closing : list nat)
    (i : nat) (c : client_call) (p : place) : Prop := {
  ap_pending : pending ≫= (.!! cc_id c) = Some i <-> p = Pending;
  ap_handed : forall r, reader = RHanding i r <-> p = Handed r;
  ap_held : forall r, cc_buf c = Some r <-> p = Held r;
  ap_closing : i ∈ closing <-> p = Closing;
  ap_closed : cc_closed c = true <-> p = Closed }.

Definition place_ok (read : list Response) (ended : option nat) (c : client_call) (p : place) : Prop :=
  match p with
  | Nowhere => True
  | Pending => unanswered read (length read) c
  | Handed r | Held r => answered_by read c r
  | Closing | Closed => exists n, ended = Some n /\ n <= length read /\ unanswered read n c
  end.

(** What a call that returned was told. *)
Definition told (read : list Response) (ended : option nat) (err : option client_error) (c : client_call) (o : call_outcome) : Prop :=
  match cc_got c with
  | Some r => o = answer r /\ answered_by read c r
  | None => match o with
            | ClientEnded e => is_Some e /\ e = err /\ exists n, ended = Some n /\ n <= length read /\ unanswered read n c
            | NotWritten | ContextEnded => True
            | _ => False
            end
  end.

Definition phase_ok (read : list Response) (ended : option nat) (err : option client_error) (c : client_call) (p : place) : Prop :=
  match cc_phase c with
  | CEntering => p = Nowhere /\ cc_got c = None
  | CWriting | CSending | CUnsent | CWaiting => p <> Nowhere /\ cc_got c = None
  | CReturned o => p <> Pending /\ told read ended err c o
  end.

Definition call_ok pending reader closing read ended err (i : nat) (c : client_call) : Prop :=
  cc_id c = call_id (Z.of_nat i + 1) /\ cc_since c <= length read
  /\ exists p, at_place pending reader closing i c p /\ place_ok read ended c p /\ phase_ok read ended err c p.

Definition world_call_ok (w : client_world) : nat -> client_call -> Prop :=
  call_ok (bc_pending (cw_client w)) (cw_reader w) (cw_closing w) (cw_read w) (cw_ended w) (bc_err (cw_client w)).

Record client_inv (w : client_world) : Prop := {
  ci_calls : forall i c, cw_calls w !! i = Some c -> world_call_ok w i c;
  ci_seq : bc_seq (cw_client w) = wrap64 (Z.of_nat (length (cw_calls w)));
  ci_pending : forall m k i, bc_pending (cw_client w) = Some m -> m !! k = Some i ->
    exists c, cw_calls w !! i = Some c /\ cc_id c = k;
  ci_handing : forall i r, cw_reader w = RHanding i r -> is_Some (cw_calls w !! i);
  ci_closing : forall i, i ∈ cw_closing w -> is_Some (cw_calls w !! i);
  ci_open : bc_closed (cw_client w) = false -> is_Some (bc_pending (cw_client w)) /\ cw_closing w = [] /\ cw_ended w = None;
  ci_ended : bc_closed (cw_client w) = true ->
    bc_pending (cw_client w) = None /\ is_Some (bc_err (cw_client w)) /\ exists n, cw_ended w = Some n /\ n <= length (cw_read w);
  ci_panic : cw_panicked w = false }.

(** Reading more changes nothing of what was read. *)
Lemma unanswered_more read r n c : n <= length read -> unanswered read n c -> unanswered (read ++ [r]) n c.
Proof. intros L U k q B K. apply (U k q B). by rewrite lookup_app_l in K by lia. Qed.
Lemma answered_more read r c q : answered_by read c q -> answered_by (read ++ [r]) c q.
Proof.
  intros (k & B & K & I & U). exists k. pose proof (lookup_lt_Some _ _ _ K).
  split_and!; [done|by rewrite lookup_app_l|done|apply unanswered_more; [lia|done]].
Qed.
Lemma ended_more read r ended c :
  (exists n, ended = Some n /\ n <= length read /\ unanswered read n c) ->
  exists n, ended = Some n /\ n <= length (read ++ [r]) /\ unanswered (read ++ [r]) n c.
Proof.
  intros (n & E & L & U). exists n. rewrite length_app. split; [done|]. split; [lia|by apply unanswered_more].
Qed.
Lemma place_more read r ended c p : p <> Pending -> place_ok read ended c p -> place_ok (read ++ [r]) ended c p.
Proof. destruct p; cbn; intros; try done; first [by apply answered_more|by apply ended_more]. Qed.
Lemma told_more read r ended err c o : told read ended err c o -> told (read ++ [r]) ended err c o.
Proof.
  unfold told. destruct (cc_got c); [intros [-> A]; split; [done|by apply answered_more]|].
  destruct o; try done. intros (S & E & X). split_and!; [done..|by apply ended_more].
Qed.
Lemma phase_more read r ended err c p : phase_ok read ended err c p -> phase_ok (read ++ [r]) ended err c p.
Proof. unfold phase_ok. destruct (cc_phase c); try done. intros [N T]. split; [done|by apply told_more]. Qed.

(** A call that a step does not touch. *)
Lemma at_place_same pending reader closing pending' reader' closing' i c p :
  at_place pending reader closing i c p ->
  (pending' ≫= (.!! cc_id c) = Some i <-> pending ≫= (.!! cc_id c) = Some i) ->
  (forall r, reader' = RHanding i r <-> reader = RHanding i r) -> (i ∈ closing' <-> i ∈ closing) ->
  at_place pending' reader' closing' i c p.
Proof. intros [A B C D E] P R L. split; [by rewrite P|intros r; by rewrite R|done|by rewrite L|done]. Qed.

Lemma call_untouched pending reader closing pending' reader' closing' read ended err i c :
  call_ok pending reader closing read ended err i c ->
  (pending' ≫= (.!! cc_id c) = Some i <-> pending ≫= (.!! cc_id c) = Some i) ->
  (forall r, reader' = RHanding i r <-> reader = RHanding i r) -> (i ∈ closing' <-> i ∈ closing) ->
  call_ok pending' reader' closing' read ended err i c.
Proof.
  intros (I & S & p & A & O & F) P R L. split; [done|]. split; [done|]. exists p. split; [|done].
  by apply (at_place_same pending reader closing).
Qed.

(** ** Each step keeps it *)

Section Kept.
Variable w : client_world.
Hypothesis I : client_inv w.
Hypothesis few : (Z.of_nat (length (cw_calls w)) < 2 ^ 64)%Z.

(** Ids tell the calls apart. *)
Lemma ids_differ i j c d : cw_calls w !! i = Some c -> cw_calls w !! j = Some d -> cc_id c = cc_id d -> i = j.
Proof.
  intros C D E. destruct (ci_calls w I i c C) as [Ei _], (ci_calls w I j d D) as [Ej _]. rewrite Ei, Ej in E.
  apply lookup_lt_Some in C, D. apply call_id_inj in E; lia.
Qed.

(** The ids of others keep their place when one is added or deleted. *)
Lemma pending_others (f : gmap string nat -> gmap string nat) i c j d : cw_calls w !! i = Some c -> cw_calls w !! j = Some d -> j <> i ->
  (forall m k, k <> cc_id c -> f m !! k = m !! k) ->
  (f <$> bc_pending (cw_client w)) ≫= (.!! cc_id d) = Some j <-> bc_pending (cw_client w) ≫= (.!! cc_id d) = Some j.
Proof.
  intros C D N F. destruct (bc_pending (cw_client w)) as [m|]; [|done]. cbn. rewrite F; [done|].
  intros E. apply N. by apply (ids_differ j i d c).
Qed.

Lemma exists_alter j f i : is_Some (cw_calls w !! j) -> is_Some (alter f i (cw_calls w) !! j).
Proof. intros [c C]. destruct (decide (j = i)) as [-> |N]; [rewrite list_lookup_alter_eq, C|rewrite list_lookup_alter_ne, C by done]; by eexists. Qed.

(** The id of no call is pending for another. *)
Lemma pending_id i c j : cw_calls w !! i = Some c -> bc_pending (cw_client w) ≫= (.!! cc_id c) = Some j -> j = i.
Proof.
  intros C P. destruct (bc_pending (cw_client w)) as [m|] eqn:M; [|done]. cbn in P.
  destruct (ci_pending w I m _ j M P) as (d & D & E). by apply (ids_differ j i d c).
Qed.

(** A step that touches call [i], and of the client only who is pending. *)
Lemma touched i c f b' reader' closing' : cw_calls w !! i = Some c ->
  let w' := w <| cw_client := b' |> <| cw_reader := reader' |> <| cw_closing := closing' |> <| cw_calls ::= alter f i |> in
  cc_id (f c) = cc_id c -> world_call_ok w' i (f c) ->
  (forall j d, cw_calls w !! j = Some d -> j <> i ->
     (bc_pending b' ≫= (.!! cc_id d) = Some j <-> bc_pending (cw_client w) ≫= (.!! cc_id d) = Some j)
     /\ (forall r, reader' = RHanding j r <-> cw_reader w = RHanding j r) /\ (j ∈ closing' <-> j ∈ cw_closing w)) ->
  bc_seq b' = bc_seq (cw_client w) -> bc_closed b' = bc_closed (cw_client w) -> bc_err b' = bc_err (cw_client w) ->
  (is_Some (bc_pending b') <-> is_Some (bc_pending (cw_client w))) -> (closing' = [] \/ bc_closed b' = true) ->
  (forall m k j, bc_pending b' = Some m -> m !! k = Some j -> j = i /\ k = cc_id c \/ bc_pending (cw_client w) ≫= (.!! k) = Some j) ->
  (forall j r, reader' = RHanding j r -> is_Some (cw_calls w !! j)) -> (forall j, j ∈ closing' -> is_Some (cw_calls w !! j)) ->
  client_inv w'.
Proof.
  intros C w' Id T O Sq Cl Er Pe Cg Pd Rd Cs. split.
  - change (cw_calls w') with (alter f i (cw_calls w)). apply (alter_all (world_call_ok w')).
    + intros j d D N. destruct (O j d D N) as (P & R & L). unfold world_call_ok. cbn. rewrite Er.
      apply (call_untouched (bc_pending (cw_client w)) (cw_reader w) (cw_closing w)); [|done..]. by apply (ci_calls w I).
    + intros d D. rewrite C in D. by injection D as <-.
  - change (bc_seq b' = wrap64 (Z.of_nat (length (alter f i (cw_calls w))))). rewrite length_alter, Sq. apply (ci_seq w I).
  - change (forall m k j, bc_pending b' = Some m -> m !! k = Some j -> exists c, alter f i (cw_calls w) !! j = Some c /\ cc_id c = k).
    intros m k j M K. destruct (Pd m k j M K) as [[-> ->]|P].
    + exists (f c). by rewrite list_lookup_alter_eq, C.
    + destruct (bc_pending (cw_client w)) as [m0|] eqn:M0; [|done]. destruct (ci_pending w I m0 k j M0 P) as (d & D & E).
      destruct (decide (j = i)) as [->|N]; [exists (f d); rewrite C in D; injection D as <-; rewrite list_lookup_alter_eq, C; split; [done|congruence]|].
      exists d. by rewrite list_lookup_alter_ne.
  - intros j r R. by apply exists_alter, (Rd j r).
  - intros j J. by apply exists_alter, Cs.
  - change (bc_closed b' = false -> is_Some (bc_pending b') /\ closing' = [] /\ cw_ended w = None). intros F.
    rewrite Pe. rewrite Cl in F. destruct (ci_open w I F) as (P & _ & E). destruct Cg as [->|X]; [done|congruence].
  - change (bc_closed b' = true -> bc_pending b' = None /\ is_Some (bc_err b') /\ exists n, cw_ended w = Some n /\ n <= length (cw_read w)).
    rewrite Cl, Er. intros F. destruct (ci_ended w I F) as (P & X). split; [|done].
    destruct (bc_pending b'); [|done]. rewrite P in Pe. destruct Pe as [Pe _]. destruct Pe; [by eexists|done].
  - exact (ci_panic w I).
Qed.

(** The same, when who reads and what is to be closed stay. *)
Lemma touched_client i c f b' : cw_calls w !! i = Some c -> cc_id (f c) = cc_id c ->
  call_ok (bc_pending b') (cw_reader w) (cw_closing w) (cw_read w) (cw_ended w) (bc_err b') i (f c) ->
  (forall j d, cw_calls w !! j = Some d -> j <> i ->
     bc_pending b' ≫= (.!! cc_id d) = Some j <-> bc_pending (cw_client w) ≫= (.!! cc_id d) = Some j) ->
  bc_seq b' = bc_seq (cw_client w) -> bc_closed b' = bc_closed (cw_client w) -> bc_err b' = bc_err (cw_client w) ->
  (is_Some (bc_pending b') <-> is_Some (bc_pending (cw_client w))) ->
  (forall m k j, bc_pending b' = Some m -> m !! k = Some j -> j = i /\ k = cc_id c \/ bc_pending (cw_client w) ≫= (.!! k) = Some j) ->
  client_inv (on_call i f (w <| cw_client := b' |>)).
Proof.
  intros C Id T O Sq Cl Er Pe Pd. apply (touched i c f b' (cw_reader w) (cw_closing w)); try done.
  - intros j d D N. split; [by apply O|done].
  - rewrite Cl. destruct (bc_closed (cw_client w)) eqn:E; [by right|left]. by apply (ci_open w I).
  - apply (ci_handing w I).
  - apply (ci_closing w I).
Qed.

(** Whoever is pending, the client has not ended. *)
Lemma pending_open : bc_closed (cw_client w) = true -> bc_pending (cw_client w) = None.
Proof. intros C. by destruct (ci_ended w I C). Qed.

Lemma kept_call_registers i c : cw_calls w !! i = Some c -> cc_phase c = CEntering -> client_inv (call_registers i c w).
Proof.
  intros C P. destruct (ci_calls w I i c C) as (Id & S & p & A & O & F). unfold phase_ok in F. rewrite P in F. destruct F as [-> G].
  unfold call_registers, registers. destruct (bc_closed (cw_client w)) eqn:Cl; cbn [fst snd].
  - apply touched_client with c; try done; [|intros m k j M; right; by rewrite M].
    split; [done|]. split; [done|]. exists Nowhere. split; [by destruct A|]. split; [done|].
    destruct (ci_ended w I Cl) as (_ & Er & n & E & L). split; [done|]. unfold told. cbn. rewrite G. split_and!; [done..|].
    exists n. split_and!; [done..|]. intros k r B. cbn in B. lia.
  - apply touched_client with c; try done.
    + split; [done|]. split; [done|]. exists Pending. destruct (ci_open w I Cl) as ([m M] & _). split; [|split; [intros k r B; cbn in B; lia|done]].
      destruct A as [A1 A2 A3 A4 A5]. split; cbn; rewrite ?M; cbn; [by rewrite lookup_insert_eq|..];
        [intros r; rewrite A2|intros r; rewrite A3|rewrite A4|rewrite A5]; (split; intros X; discriminate X).
    + intros j d D N. apply (pending_others (<[cc_id c:=i]>) i c j d C D N). intros m k K. by apply lookup_insert_ne.
    + cbn. by rewrite fmap_is_Some.
    + cbn. intros m k j M K. destruct (bc_pending (cw_client w)) as [m0|]; [|done]. injection M as <-.
      apply lookup_insert_Some in K as [[<- <-]|[_ K]]; [by left|by right].
Qed.

(** A place that a call gives up, or that is gone. *)
Lemma forgets i c f p q : cw_calls w !! i = Some c -> cc_id (f c) = cc_id c -> cc_since (f c) <= length (cw_read w) ->
  at_place (bc_pending (cw_client w)) (cw_reader w) (cw_closing w) i (f c) p ->
  q = match p with Pending => Nowhere | p => p end ->
  place_ok (cw_read w) (cw_ended w) (f c) q -> phase_ok (cw_read w) (cw_ended w) (bc_err (cw_client w)) (f c) q ->
  client_inv (on_call i f (w <| cw_client ::= forget (cc_id c) |>)).
Proof.
  intros C Id S A -> O F. apply touched_client with c; try done.
  - split; [rewrite Id; by apply (ci_calls w I i c C)|]. split; [done|]. eexists. split; [|by split].
    destruct A as [A1 A2 A3 A4 A5]. rewrite Id in A1. split; cbn; rewrite ?Id.
    + destruct (bc_pending (cw_client w)) as [m|]; cbn; [rewrite lookup_delete_eq|]; split; [done|by destruct p|done|by destruct p].
    + intros r. rewrite A2. by destruct p.
    + intros r. rewrite A3. by destruct p.
    + rewrite A4. by destruct p.
    + rewrite A5. by destruct p.
  - intros j d D N. apply (pending_others (delete (cc_id c)) i c j d C D N). intros m k K. by apply lookup_delete_ne.
  - cbn. by rewrite fmap_is_Some.
  - cbn. intros m k j M K. destruct (bc_pending (cw_client w)) as [m0|]; [|done]. injection M as <-.
    apply lookup_delete_Some in K as [_ K]. by right.
Qed.

Lemma kept_leaves o i c : cw_calls w !! i = Some c -> cc_phase c = CUnsent \/ cc_phase c = CWaiting ->
  o = NotWritten \/ o = ContextEnded -> client_inv (call_leaves o i c w).
Proof.
  intros C P Q. destruct (ci_calls w I i c C) as (Id & S & p & A & O & F).
  assert (cc_got c = None) as G by (unfold phase_ok in F; by destruct P as [P|P]; rewrite P in F; destruct F).
  apply (forgets i c (returns o) p (match p with Pending => Nowhere | p => p end) C); [done|done|by destruct A|done| |].
  - by destruct p.
  - split; [by destruct p|]. unfold told. cbn. rewrite G. by destruct Q as [-> | ->].
Qed.

(** A call that moves by itself. *)
Lemma moves i c f p : cw_calls w !! i = Some c -> cc_id (f c) = cc_id c -> cc_since (f c) <= length (cw_read w) ->
  at_place (bc_pending (cw_client w)) (cw_reader w) (cw_closing w) i (f c) p ->
  place_ok (cw_read w) (cw_ended w) (f c) p -> phase_ok (cw_read w) (cw_ended w) (bc_err (cw_client w)) (f c) p ->
  client_inv (on_call i f w).
Proof.
  intros C Id S A O F. apply (touched_client i c f (cw_client w)); try done.
  - split; [rewrite Id; by apply (ci_calls w I i c C)|]. split; [done|]. by exists p.
  - intros m k j M K. right. by rewrite M.
Qed.

(** A call that has its place and waits for no other. *)
Definition on_its_way (p : call_phase) : Prop := p = CWriting \/ p = CSending \/ p = CUnsent \/ p = CWaiting.

Lemma kept_written q i c : cw_calls w !! i = Some c -> on_its_way (cc_phase c) -> on_its_way q -> client_inv (on_call i (to_phase q) w).
Proof.
  intros C P Q. destruct (ci_calls w I i c C) as (Id & S & p & A & O & F). apply (moves i c _ p C); [done|done|by destruct A|done|].
  unfold phase_ok, on_its_way in *. cbn. destruct P as [P|[P|[P|P]]]; rewrite P in F; by destruct Q as [-> |[-> |[-> | ->]]].
Qed.

(** Neither who writes nor the socket matters to what calls are told. *)
Lemma kept_wire writer socket : client_inv (w <| cw_writer := writer |> <| cw_socket := socket |>).
Proof. split; apply I. Qed.

Lemma kept_receives i c r : cw_calls w !! i = Some c -> cc_phase c = CWaiting -> cc_buf c = Some r ->
  client_inv (on_call i (fun c => returns (answer r) c <| cc_buf := None |> <| cc_got := Some r |>) w).
Proof.
  intros C P B. destruct (ci_calls w I i c C) as (Id & S & p & [A1 A2 A3 A4 A5] & O & F).
  assert (p = Held r) as -> by by apply A3. apply (moves i c _ Nowhere C); [done|done| |done|by split].
  split; cbn; [rewrite A1|intros q; rewrite A2| |rewrite A4|rewrite A5]; done.
Qed.

Lemma kept_woken i c : cw_calls w !! i = Some c -> cc_phase c = CWaiting -> cc_closed c = true ->
  client_inv (on_call i (returns (ClientEnded (bc_err (cw_client w)))) w).
Proof.
  intros C P B. destruct (ci_calls w I i c C) as (Id & S & p & A & O & F).
  assert (p = Closed) as -> by by apply (ap_closed _ _ _ _ _ _ A). unfold phase_ok in F. rewrite P in F. destruct F as [_ G].
  apply (moves i c _ Closed C); [done|done|by destruct A|done|]. split; [done|]. unfold told. cbn. rewrite G.
  destruct (bc_closed (cw_client w)) eqn:Cl; [|destruct (ci_open w I Cl) as (_ & _ & E); destruct O as (n & En & _); congruence].
  by destruct (ci_ended w I Cl) as (_ & Er & _).
Qed.

(** The reader hands its response over. *)
Lemma kept_hands i r w' : cw_reader w = RHanding i r -> hands i r w = Some w' -> client_inv w'.
Proof.
  intros R H. unfold hands in H. destruct (cw_calls w !! i) as [c|] eqn:C; [|done].
  destruct (ci_calls w I i c C) as (Id & S & p & [A1 A2 A3 A4 A5] & O & F). assert (p = Handed r) as -> by by apply A2.
  destruct (cc_closed c) eqn:Cl in H; [by apply A5 in Cl|]. destruct (cc_buf c) eqn:B in H; [by apply A3 in B|]. injection H as <-.
  apply (touched i c (fun c => c <| cc_buf := Some r |>) (cw_client w) RReading (cw_closing w)); try done.
  - split; [done|]. split; [done|]. exists (Held r). split; [|split; [done|]].
    + split; cbn; [rewrite A1| |split; congruence|rewrite A4|rewrite A5]; done.
    + unfold phase_ok in *. cbn. destruct (cc_phase c); naive_solver.
  - intros j d D N. split; [done|]. split; [|done]. intros q. split; [done|]. rewrite R. intros [= -> _]. done.
  - destruct (bc_closed (cw_client w)) eqn:E; [by right|left]. by apply (ci_open w I).
  - intros m k j M K. right. by rewrite M.
  - apply (ci_closing w I).
Qed.

(** The reader, or [fail], closes a channel. *)
Lemma kept_closes i : i ∈ cw_closing w -> client_inv (closes_channel i w).
Proof.
  intros J. destruct (ci_closing w I i J) as [c C]. unfold closes_channel. change (cw_calls (w <| cw_closing ::= _ |>)) with (cw_calls w). rewrite C.
  destruct (ci_calls w I i c C) as (Id & S & p & [A1 A2 A3 A4 A5] & O & F). assert (p = Closing) as -> by by apply A4.
  assert (cc_closed c = false) as Cl by (apply not_true_iff_false; by rewrite A5). rewrite Cl.
  assert (forall j, j ∈ List.filter (fun j => negb (Nat.eqb j i)) (cw_closing w) <-> j ∈ cw_closing w /\ j <> i) as M.
  { intros j. rewrite !list_elem_of_In, filter_In, negb_true_iff, Nat.eqb_neq. done. }
  apply (touched i c (fun c => c <| cc_closed := true |>) (cw_client w) (cw_reader w) (List.filter (fun j => negb (Nat.eqb j i)) (cw_closing w))); try done.
  - split; [done|]. split; [done|]. exists Closed. split; [|split; [done|]].
    + split; cbn; [rewrite A1|intros q; rewrite A2|intros q; rewrite A3|rewrite M|done]; (split; [intros X|discriminate]); first [discriminate X|by destruct X].
    + unfold phase_ok in *. cbn. destruct (cc_phase c); naive_solver.
  - intros j d D N. split; [done|]. split; [done|]. rewrite M. tauto.
  - right. destruct (bc_closed (cw_client w)) eqn:E; [done|]. destruct (ci_open w I E) as (_ & L & _). rewrite L in J. by apply elem_of_nil in J.
  - intros m k j Mm K. right. by rewrite Mm.
  - apply (ci_handing w I).
  - intros j [Jj _]%M. by apply (ci_closing w I).
Qed.

Lemma kept_begins : client_inv (call_begins w).
Proof.
  assert (forall l : list client_call, length (l ++ [MkCall (call_id (wrap64 (bc_seq (cw_client w) + 1))) CEntering None false 0 None]) = S (length l)) as Ln
    by (intros l; rewrite length_app; cbn; lia).
  assert (forall j, is_Some (cw_calls w !! j) -> j <> length (cw_calls w)) as Old by (intros j L%lookup_lt_is_Some_1; lia).
  assert (forall x j, is_Some (cw_calls w !! j) -> is_Some ((cw_calls w ++ [x]) !! j)) as More
    by (intros x j [d D]; exists d; by apply lookup_app_l_Some).
  split.
  - change (cw_calls (call_begins w)) with (cw_calls w ++ [MkCall (call_id (wrap64 (bc_seq (cw_client w) + 1))) CEntering None false 0 None]).
    intros i c [C|[L C]]%lookup_app_Some; [by apply (ci_calls w I)|]. apply list_lookup_singleton_Some in C as [Z0 <-].
    assert (i = length (cw_calls w)) as -> by lia. split; [|split; [cbn; lia|]].
    + cbn. unfold call_id. rewrite (ci_seq w I). f_equal. f_equal. rewrite wrap64_add_l. apply wrap64_eq. by rewrite wrap64_mod.
    + exists Nowhere. split; [|by split]. split; cbn; (split; [|done]).
      * intros P. destruct (bc_pending (cw_client w)) as [m|] eqn:M; [|done]. destruct (ci_pending w I m _ _ M P) as (d & D & _).
        by destruct (Old (length (cw_calls w))); [exists d|].
      * intros R. by destruct (Old _ (ci_handing w I _ _ R)).
      * done.
      * intros J. by destruct (Old _ (ci_closing w I _ J)).
      * done.
  - change (wrap64 (bc_seq (cw_client w) + 1) = wrap64 (Z.of_nat (length (cw_calls w ++ [MkCall (call_id (wrap64 (bc_seq (cw_client w) + 1))) CEntering None false 0 None])))).
    rewrite Ln, (ci_seq w I), wrap64_add_l. f_equal. lia.
  - intros m k j M K. destruct (ci_pending w I m k j M K) as (d & D & E). exists d. split; [by apply lookup_app_l_Some|done].
  - intros j r R. by apply More, (ci_handing w I j r).
  - intros j J. by apply More, (ci_closing w I).
  - apply (ci_open w I).
  - apply (ci_ended w I).
  - apply (ci_panic w I).
Qed.

(** A response is read that is no pending call's. *)
Lemma call_reads pending reader closing ended err i c r :
  call_ok pending reader closing (cw_read w) ended err i c -> (pending ≫= (.!! cc_id c) = Some i -> rs_ID r <> cc_id c) ->
  call_ok pending reader closing (cw_read w ++ [r]) ended err i c.
Proof.
  intros (Id & S & p & A & O & F) N. split; [done|]. split; [rewrite length_app; lia|]. exists p. split; [done|].
  split; [|by apply phase_more]. assert (p = Pending \/ p <> Pending) as [-> |Np] by (destruct p; first [by left|by right]); [|by apply place_more].
  intros k q B K. rewrite length_app in B. cbn in B. apply lookup_app_Some in K as [K|[L K]].
  - apply (O k q); [|done]. split; [lia|by apply lookup_lt_Some in K].
  - apply list_lookup_singleton_Some in K as [_ <-]. by apply N, (ap_pending _ _ _ _ _ _ A).
Qed.

(** Nothing but what was read, and what no call looks at, changes. *)
Lemma reads_more w' r : cw_calls w' = cw_calls w -> cw_read w' = cw_read w ++ [r] -> cw_reader w' = cw_reader w ->
  cw_closing w' = cw_closing w -> cw_ended w' = cw_ended w -> cw_panicked w' = cw_panicked w ->
  bc_pending (cw_client w') = bc_pending (cw_client w) -> bc_seq (cw_client w') = bc_seq (cw_client w) ->
  bc_closed (cw_client w') = bc_closed (cw_client w) -> bc_err (cw_client w') = bc_err (cw_client w) ->
  (forall i c, cw_calls w !! i = Some c -> bc_pending (cw_client w) ≫= (.!! cc_id c) = Some i -> rs_ID r <> cc_id c) ->
  client_inv w'.
Proof.
  intros Ca Re Rd Cl En Pa Pe Sq Cd Er N. split; rewrite ?Ca, ?Re, ?Rd, ?Cl, ?En, ?Pa, ?Pe, ?Sq, ?Cd, ?Er; try apply I.
  - intros i c C. unfold world_call_ok. rewrite Re, Rd, Cl, En, Pe, Er. apply call_reads; [by apply (ci_calls w I)|by apply N].
  - intros F. destruct (ci_ended w I F) as (P & X & n & E & L). split_and!; [done..|]. exists n. rewrite length_app. split; [done|lia].
Qed.

Lemma kept_reads_response r : cw_reader w = RReading -> client_inv (reads_response r w).
Proof.
  intros R. unfold reads_response. change (cw_client (w <| cw_read ::= _ |>)) with (cw_client w).
  destruct (decide (rs_ID r = "")) as [E|E].
  { assert (forall i c, cw_calls w !! i = Some c -> bc_pending (cw_client w) ≫= (.!! cc_id c) = Some i -> rs_ID r <> cc_id c) as N.
    { intros i c C _. destruct (ci_calls w I i c C) as [-> _]. by rewrite E. }
    destruct (shutdown_notice r); [by apply (reads_more _ r)|]. destruct (bc_push (cw_client w)); by apply (reads_more _ r). }
  unfold takes. destruct (bc_pending (cw_client w) ≫= (.!! rs_ID r)) as [i|] eqn:P; cbn [fst snd].
  2: { apply (reads_more _ r); try done. intros i c C Q X. rewrite X in P. congruence. }
  destruct (bc_pending (cw_client w)) as [m|] eqn:M; [|done]. cbn in P. destruct (ci_pending w I m _ i M P) as (c & C & Ec).
  assert (forall j d, cw_calls w !! j = Some d -> j <> i -> cc_id d <> rs_ID r) as Other.
  { intros j d D N X. apply N. apply (ids_differ j i d c D C). congruence. }
  split; try apply I.
  - change (forall j d, cw_calls w !! j = Some d -> call_ok (delete (rs_ID r) <$> bc_pending (cw_client w)) (RHanding i r) (cw_closing w)
      (cw_read w ++ [r]) (cw_ended w) (bc_err (cw_client w)) j d). intros j d D. destruct (decide (j = i)) as [->|N].
    + rewrite C in D. injection D as <-. destruct (ci_calls w I i c C) as (Id & S & p & [A1 A2 A3 A4 A5] & O & F).
      assert (p = Pending) as -> by (apply A1; by rewrite Ec, M). split; [done|]. split; [rewrite length_app; lia|].
      exists (Handed r). split; [|split].
      * rewrite M. split; cbn; [rewrite Ec, lookup_delete_eq; done| |intros q; rewrite A3; done|rewrite A4; done|rewrite A5; done].
        intros q. split; [by intros [= ->]|by intros [= ->]].
      * exists (length (cw_read w)). split_and!; [done|by rewrite lookup_app_r, Nat.sub_diag|done|by apply unanswered_more].
      * apply phase_more. unfold phase_ok in *. destruct (cc_phase c); naive_solver.
    + apply call_reads.
      * apply (call_untouched (bc_pending (cw_client w)) (cw_reader w) (cw_closing w)); [by apply (ci_calls w I)| | |done].
        -- rewrite M. cbn. rewrite lookup_delete_ne; [done|]. intros X. by apply (Other j d D N).
        -- intros q. rewrite R. split; [intros [= -> _]; done|done].
      * intros _ X. by apply (Other j d D N).
  - change (forall m k j, delete (rs_ID r) <$> bc_pending (cw_client w) = Some m -> m !! k = Some j -> exists d, cw_calls w !! j = Some d /\ cc_id d = k).
    rewrite M. intros m' k j [= <-] [_ K]%lookup_delete_Some. by apply (ci_pending w I m).
  - intros j q [= -> _]. by exists c.
  - change (bc_closed (cw_client w) = false -> is_Some (delete (rs_ID r) <$> bc_pending (cw_client w)) /\ cw_closing w = [] /\ cw_ended w = None).
    rewrite fmap_is_Some. apply (ci_open w I).
  - intros F. destruct (ci_ended w I F). congruence.
Qed.

(** Who reads changes to someone who hands nothing over. *)
Lemma kept_reader reader : (forall i r, cw_reader w <> RHanding i r) -> (forall i r, reader <> RHanding i r) ->
  client_inv (w <| cw_reader := reader |>).
Proof.
  intros R N. split; try apply I.
  - intros i c C. apply (call_untouched (bc_pending (cw_client w)) (cw_reader w) (cw_closing w)); [by apply (ci_calls w I)|done| |done].
    intros r. cbn. split; intros X; [by apply N in X|by apply R in X].
  - intros i r X. by apply N in X.
Qed.

(** Of the client, only what no call looks at changes. *)
Lemma kept_client b' : bc_seq b' = bc_seq (cw_client w) -> bc_pending b' = bc_pending (cw_client w) ->
  bc_closed b' = bc_closed (cw_client w) -> bc_err b' = bc_err (cw_client w) -> client_inv (w <| cw_client := b' |>).
Proof.
  intros Sq Pe Cl Er. split; try apply I; unfold world_call_ok; cbn; rewrite ?Sq, ?Pe, ?Cl, ?Er; apply I.
Qed.

(** [fail] turns those who are pending into channels to close. *)
Lemma kept_fails e : client_inv (fails e w).1.
Proof.
  unfold fails, fail. destruct (bc_closed (cw_client w)) eqn:Cl; [done|]. destruct (ci_open w I Cl) as ([m M] & Cg & En).
  rewrite M. cbn [fst default]. assert (forall j, j ∈ (map_to_list m).*2 <-> exists k, m !! k = Some j) as El.
  { intros j. rewrite list_elem_of_fmap. split.
    - intros ([k j'] & -> & L). exists k. by apply elem_of_map_to_list.
    - intros [k K]. exists (k, j). by rewrite elem_of_map_to_list. }
  split; try apply I; try done.
  - change (forall i c, cw_calls w !! i = Some c -> call_ok None (cw_reader w) (map_to_list m).*2 (cw_read w) (Some (length (cw_read w)))
      (Some match e with IoEOF => ConnectionEnded | e => e end) i c).
    intros i c C. destruct (ci_calls w I i c C) as (Id & S & p & [A1 A2 A3 A4 A5] & O & F). split; [done|]. split; [done|].
    assert (i ∈ (map_to_list m).*2 <-> p = Pending) as Me.
    { rewrite El, <- A1, M. split; [intros [k K]|intros K; by exists (cc_id c)].
      destruct (ci_pending w I m k i M K) as (d & D & Ek). rewrite C in D. injection D as <-. by rewrite Ek. }
    assert (forall q, q = Closing \/ q = Closed -> p <> q) as Np.
    { intros q Q ->. destruct Q as [-> | ->]; destruct O as (n & X & _); congruence. }
    exists (match p with Pending => Closing | p => p end). split; [|split].
    + split; [by destruct p|intros r; rewrite A2; by destruct p|intros r; rewrite A3; by destruct p|rewrite Me|rewrite A5]; destruct p; (split; intros X);
        first [discriminate X|done|by specialize (Np Closing (or_introl eq_refl))|by specialize (Np Closed (or_intror eq_refl))].
    + destruct p; try done; first [exists (length (cw_read w)); split_and!; [done|lia|exact O]|by specialize (Np Closing (or_introl eq_refl))|by specialize (Np Closed (or_intror eq_refl))].
    + unfold phase_ok in *. destruct (cc_phase c) as [| | | | |o]; [|by destruct p; naive_solver..|].
      * destruct F as [-> F]. done.
      * destruct F as [N T]. split; [by destruct p|]. unfold told in *. destruct (cc_got c); [done|]. destruct o; try done.
        destruct T as (_ & _ & n & X & _). congruence.
  - intros j J. apply El in J as [k K]. destruct (ci_pending w I m k j M K) as (d & D & _). by exists d.
  - intros _. split_and!; [done|by eexists|]. by exists (length (cw_read w)).
Qed.

End Kept.

(** The call of a step, and where it is. *)
Ltac of_call E i c C P :=
  match type of E with
  | context [cw_calls ?w !! i] => destruct (cw_calls w !! i) as [c|] eqn:C; [|done]; cbn in E; destruct (cc_phase c) eqn:P; try done
  end.

Lemma client_kept_exec s w w' : client_inv w -> (Z.of_nat (length (cw_calls w)) < 2 ^ 64)%Z -> client_exec s w = Some w' -> client_inv w'.
Proof.
  intros I few. destruct s; cbn [client_exec]; intros E.
  - injection E as <-. by apply kept_begins.
  - of_call E i c C P. injection E as <-. by apply kept_call_registers.
  - of_call E i c C P. injection E as <-.
    apply kept_written with c; rewrite ?P; unfold on_its_way; auto.
  - of_call E i c C P. destruct (cw_writer w); [done|]. injection E as <-.
    apply (kept_wire (on_call i (to_phase CSending) w)); apply kept_written with c; rewrite ?P; unfold on_its_way; auto.
  - of_call E i c C P. injection E as <-.
    apply (kept_wire (on_call i (to_phase (if ok then CWaiting else CUnsent)) w)).
    apply kept_written with c; rewrite ?P; unfold on_its_way; destruct ok; auto.
  - of_call E i c C P. injection E as <-. apply kept_leaves; auto.
  - of_call E i c C P.
    destruct (cc_buf c) eqn:B; [|done]. injection E as <-. by apply kept_receives with c.
  - of_call E i c C P.
    destruct (cc_buf c) eqn:B; [done|]. destruct (cc_closed c) eqn:Cl; [|done]. injection E as <-. by apply kept_woken with c.
  - of_call E i c C P. injection E as <-. apply kept_leaves; auto.
  - destruct (cw_reader w) eqn:R; try done. injection E as <-. unfold reads.
    assert (forall i r, cw_reader w <> RHanding i r) as N by by rewrite R.
    destruct m as [r|e| |]; [by apply kept_reads_response| |by apply kept_reader..]. destruct (match e with Refused pe => _ | Invalid => false end);
      [by apply kept_client|by apply kept_reader].
  - destruct (cw_reader w) eqn:R; try done. by apply kept_hands with w i r.
  - destruct (cw_reader w) as [| |e| |] eqn:R; try done. injection E as <-. apply kept_reader; [by apply kept_fails| |by destruct (fails e w).2].
    assert (cw_reader (fails e w).1 = cw_reader w) as -> by (unfold fails, fail; by destruct (bc_closed (cw_client w))). by rewrite R.
  - destruct (cw_reader w) eqn:R; try done. destruct (cw_closing w); [|done]. destruct (cw_socket w); try done. injection E as <-.
    apply kept_reader; [done|by rewrite R|done].
  - destruct (cw_socket w); try done. injection E as <-. by apply kept_wire.
  - destruct (decide (i ∈ cw_closing w /\ _)) as [[]|]; [|done]. injection E as <-. by apply kept_closes.
  - injection E as <-. by apply kept_fails.
  - injection E as <-. by apply kept_client.
Qed.

(** The number of calls never goes down. *)
Lemma calls_grow s w w' : client_exec s w = Some w' -> length (cw_calls w) <= length (cw_calls w').
Proof.
  assert (forall i f v, length (cw_calls (on_call i f v)) = length (cw_calls v)) as A by (intros; apply length_alter).
  assert (forall e v, length (cw_calls (fails e v).1) = length (cw_calls v)) as Fl by (intros e v; unfold fails, fail; by destruct (bc_closed _)).
  destruct s; cbn [client_exec]; intros E; try (destruct (cw_calls w !! i) as [c|] eqn:C; [cbn in E|done]).
  - injection E as <-. change (length (cw_calls w) <= length (cw_calls w ++ [MkCall (call_id (wrap64 (bc_seq (cw_client w) + 1))) CEntering None false 0 None])).
    rewrite length_app. lia.
  - destruct (cc_phase c); try done. injection E as <-. unfold call_registers. by rewrite A.
  - destruct (cc_phase c); try done. injection E as <-. by rewrite A.
  - destruct (cc_phase c); try done. destruct (cw_writer w); [done|]. injection E as <-. by rewrite <- (A i (to_phase CSending) w).
  - destruct (cc_phase c); try done. injection E as <-. by rewrite <- (A i (to_phase (if ok then CWaiting else CUnsent)) w).
  - destruct (cc_phase c); try done. injection E as <-. unfold call_leaves. by rewrite A.
  - destruct (cc_phase c); try done. destruct (cc_buf c); [|done]. injection E as <-. by rewrite A.
  - destruct (cc_phase c); try done. destruct (cc_buf c); [done|]. destruct (cc_closed c); [|done]. injection E as <-. by rewrite A.
  - destruct (cc_phase c); try done. injection E as <-. unfold call_leaves. by rewrite A.
  - destruct (cw_reader w); try done. injection E as <-. destruct m as [r|e| |]; cbn [reads]; try done.
    + unfold reads_response. destruct (decide _); [|done]. destruct (shutdown_notice r); [done|]. by destruct (bc_push _).
    + by destruct (match e with Refused pe => _ | Invalid => false end).
  - destruct (cw_reader w); try done. unfold hands in E. destruct (cw_calls w !! i) as [c|]; [|done].
    destruct (cc_closed c); [by injection E as <-|]. destruct (cc_buf c); [done|]. injection E as <-. by rewrite A.
  - destruct (cw_reader w); try done. injection E as <-. change (length (cw_calls w) <= length (cw_calls (fails e w).1)). by rewrite Fl.
  - destruct (cw_reader w); try done. destruct (cw_closing w); [|done]. destruct (cw_socket w); try done. by injection E as <-.
  - destruct (cw_socket w); try done. by injection E as <-.
  - destruct (decide _); [|done]. injection E as <-. unfold closes_channel. change (cw_calls (w <| cw_closing ::= _ |>)) with (cw_calls w).
    destruct (cw_calls w !! i) as [c|]; [|done]. destruct (cc_closed c); [done|]. by rewrite A.
  - injection E as <-. by rewrite Fl.
  - by injection E as <-.
Qed.

Lemma dialled_inv : client_inv dialled.
Proof.
  split; try done.
  - intros m k i M K. injection M as <-. by rewrite lookup_empty in K.
  - intros i J. by apply elem_of_nil in J.
Qed.

Lemma reachable_inv w : client_reachable w -> (Z.of_nat (length (cw_calls w)) < 2 ^ 64)%Z -> client_inv w.
Proof.
  induction 1 as [|w s w' R IH E]; intros few; [apply dialled_inv|]. pose proof (calls_grow s w w' E).
  apply (client_kept_exec s w w'); [apply IH; lia|lia|done].
Qed.

(** ** What the calls of a connection can rely on *)

(** C33: Whatever the daemon sends, whatever calls run, and whoever closes the client when,
    nothing is sent on a closed or a full channel and no channel is closed twice. A
    call that returns was told of the first response of its id that was read since it
    registered; or that the client had ended, with the error that ended it, no response
    of its id having been read by then; or it was not written, or its context ended. A
    call that has returned is no longer waited for. *)
Theorem answers_reach_their_calls w :
  client_reachable w -> (Z.of_nat (length (cw_calls w)) < 2 ^ 64)%Z ->
  cw_panicked w = false
  /\ (forall i r, cw_reader w = RHanding i r -> exists w', client_exec ReaderHands w = Some w' /\ cw_panicked w' = false)
  /\ forall i c o, cw_calls w !! i = Some c -> cc_phase c = CReturned o ->
       told (cw_read w) (cw_ended w) (bc_err (cw_client w)) c o
       /\ forall m k, bc_pending (cw_client w) = Some m -> m !! k <> Some i.
Proof.
  intros R few. pose proof (reachable_inv w R few) as I. split_and!; [apply I| |].
  - intros i r Rd. destruct (ci_handing w I i r Rd) as [c C]. destruct (ci_calls w I i c C) as (_ & _ & p & A & _).
    assert (p = Handed r) as -> by by apply (ap_handed _ _ _ _ _ _ A). cbn. rewrite Rd. unfold hands. rewrite C.
    destruct (cc_closed c) eqn:Cl; [by apply (ap_closed _ _ _ _ _ _ A) in Cl|]. destruct (cc_buf c) eqn:B; [by apply (ap_held _ _ _ _ _ _ A) in B|].
    eexists. split; [done|apply I].
  - intros i c o C P. destruct (ci_calls w I i c C) as (_ & _ & p & A & _ & F). unfold phase_ok in F. rewrite P in F. destruct F as [N T].
    split; [done|]. intros m k M K. destruct (ci_pending w I m k i M K) as (d & D & E). rewrite C in D. injection D as <-.
    apply N, (ap_pending _ _ _ _ _ _ A). by rewrite M, E.
Qed.

(** ** Who writes *)

(** The connection's mutex is of the call that is in the socket's write, and the socket
    is open until the client has ended. *)
Definition sending (w : client_world) (i : nat) : Prop := exists c, cw_calls w !! i = Some c /\ cc_phase c = CSending.
Record wire_inv (w : client_world) : Prop := {
  wi_writer : forall i, cw_writer w = Some i <-> sending w i;
  wi_socket : bc_closed (cw_client w) = true <-> cw_socket w <> SocketOpen }.

Lemma sending_alter f i w w' c : cw_calls w !! i = Some c -> cc_phase c <> CSending -> cc_phase (f c) <> CSending ->
  cw_calls w' = alter f i (cw_calls w) -> forall j, sending w' j <-> sending w j.
Proof.
  intros C N F E j. unfold sending. rewrite E. destruct (decide (j = i)) as [-> |Ne]; [|by rewrite list_lookup_alter_ne].
  rewrite list_lookup_alter_eq, C. split; intros (d & D & P); [by injection D as <-|]. injection D as <-. done.
Qed.

(** A step that only touches such a call. *)
Lemma wire_alter f i w w' c : wire_inv w -> cw_calls w !! i = Some c -> cc_phase c <> CSending -> cc_phase (f c) <> CSending ->
  cw_calls w' = alter f i (cw_calls w) -> cw_writer w' = cw_writer w -> cw_socket w' = cw_socket w ->
  bc_closed (cw_client w') = bc_closed (cw_client w) -> wire_inv w'.
Proof.
  intros [A B] C N F E Ew Es Eb. split; [|by rewrite Es, Eb]. intros j. rewrite Ew, A. symmetry. by apply (sending_alter f i w w' c).
Qed.
Lemma wire_same w w' : wire_inv w -> cw_calls w' = cw_calls w -> cw_writer w' = cw_writer w -> cw_socket w' = cw_socket w ->
  bc_closed (cw_client w') = bc_closed (cw_client w) -> wire_inv w'.
Proof. intros [A B] E Ew Es Eb. split; [|by rewrite Es, Eb]. intros j. unfold sending. rewrite Ew, E. apply A. Qed.

Lemma wire_fails e w : wire_inv w -> wire_inv (fails e w).1.
Proof. intros I. unfold fails, fail. destruct (bc_closed (cw_client w)); [exact I|]. destruct I as [A B]. by split. Qed.

Lemma wire_locks i w c : wire_inv w -> cw_calls w !! i = Some c -> cw_writer w = None ->
  wire_inv (on_call i (to_phase CSending) w <| cw_writer := Some i |>).
Proof.
  intros [A B] C N. split; [|exact B]. intros j.
  change (Some i = Some j <-> exists d, alter (to_phase CSending) i (cw_calls w) !! j = Some d /\ cc_phase d = CSending). split.
  - intros [= <-]. rewrite list_lookup_alter_eq, C. by eexists.
  - destruct (decide (j = i)) as [-> |Ne]; [done|]. rewrite list_lookup_alter_ne by done. intros S. apply A in S. congruence.
Qed.
Lemma wire_unlocks q i w c : wire_inv w -> cw_calls w !! i = Some c -> cc_phase c = CSending -> q <> CSending ->
  wire_inv (on_call i (to_phase q) w <| cw_writer := None |>).
Proof.
  intros [A B] C P Q. split; [|exact B]. intros j.
  change (None = Some j <-> exists d, alter (to_phase q) i (cw_calls w) !! j = Some d /\ cc_phase d = CSending). split; [done|].
  assert (cw_writer w = Some i) as W by (apply A; by exists c).
  destruct (decide (j = i)) as [-> |Ne]; [rewrite list_lookup_alter_eq, C; by intros (d & [= <-] & X)|].
  rewrite list_lookup_alter_ne by done. intros S. apply A in S. congruence.
Qed.

Lemma wire_kept s w w' : wire_inv w -> client_exec s w = Some w' -> wire_inv w'.
Proof.
  intros I. destruct s; cbn [client_exec]; intros E; try (destruct (cw_calls w !! i) as [c|] eqn:C; [|done]; cbn in E; destruct (cc_phase c) eqn:P; try done).
  - injection E as <-. destruct I as [A B]. split; [|exact B]. intros j. rewrite (A j). unfold sending.
    change (cw_calls (call_begins w)) with (cw_calls w ++ [MkCall (call_id (wrap64 (bc_seq (cw_client w) + 1))) CEntering None false 0 None]).
    split; intros (c & C & P); exists c; (split; [|done]); [by apply lookup_app_l_Some|].
    apply lookup_app_Some in C as [C|[_ C]]; [done|]. by apply list_lookup_singleton_Some in C as [_ <-].
  - injection E as <-. unfold call_registers, registers. destruct (bc_closed (cw_client w)) eqn:Cl; cbn [fst snd];
      eapply (wire_alter _ i w); try done; cbn; congruence.
  - injection E as <-. eapply (wire_alter _ i w); try done; cbn; congruence.
  - destruct (cw_writer w) eqn:W; [done|]. injection E as <-. by apply (wire_locks i w c).
  - injection E as <-. apply (wire_unlocks _ i w c); try done. by destruct ok.
  - injection E as <-. eapply (wire_alter _ i w); try done; cbn; congruence.
  - destruct (cc_buf c); [|done]. injection E as <-. eapply (wire_alter _ i w); try done; cbn; congruence.
  - destruct (cc_buf c); [done|]. destruct (cc_closed c); [|done]. injection E as <-. eapply (wire_alter _ i w); try done; cbn; congruence.
  - injection E as <-. eapply (wire_alter _ i w); try done; cbn; congruence.
  - destruct (cw_reader w); try done. injection E as <-. destruct m as [r|e| |]; cbn [reads]; try by apply (wire_same w).
    + unfold reads_response. change (cw_client (w <| cw_read ::= _ |>)) with (cw_client w). destruct (decide _).
      * destruct (shutdown_notice r); [by apply (wire_same w)|]. destruct (bc_push _); by apply (wire_same w).
      * unfold takes. destruct (mbind _ _); by apply (wire_same w).
    + destruct (match e with Refused pe => _ | Invalid => false end); by apply (wire_same w).
  - destruct (cw_reader w); try done. unfold hands in E. destruct (cw_calls w !! i) as [c|] eqn:C; [|done].
    destruct (cc_closed c); [injection E as <-; by apply (wire_same w)|]. destruct (cc_buf c); [done|]. injection E as <-.
    destruct I as [A B]. split; [|exact B]. intros j. rewrite (A j). unfold sending. cbn.
    destruct (decide (j = i)) as [-> |Ne]; [|by rewrite list_lookup_alter_ne]. rewrite list_lookup_alter_eq, C.
    split; intros (d & [= <-] & P); by eexists.
  - destruct (cw_reader w) as [| |e| |]; try done. injection E as <-. apply (wire_same (fails e w).1); try done. by apply wire_fails.
  - destruct (cw_reader w), (cw_closing w), (cw_socket w) eqn:S; try done. injection E as <-. apply (wire_same w); try done.
  - destruct (cw_socket w) eqn:S; try done. injection E as <-. destruct I as [A B]. split; [exact A|]. cbn. rewrite B, S. done.
  - destruct (decide _); [|done]. injection E as <-. unfold closes_channel. change (cw_calls (w <| cw_closing ::= _ |>)) with (cw_calls w).
    destruct (cw_calls w !! i) as [c|] eqn:C; [|by apply (wire_same w)]. destruct (cc_closed c); [by apply (wire_same w)|].
    destruct I as [A B]. split; [|exact B]. intros j. rewrite (A j). unfold sending. cbn.
    destruct (decide (j = i)) as [-> |Ne]; [|by rewrite list_lookup_alter_ne]. rewrite list_lookup_alter_eq, C.
    split; intros (d & [= <-] & P); by eexists.
  - injection E as <-. by apply wire_fails.
  - injection E as <-. by apply (wire_same w).
Qed.
Lemma reachable_wire w : client_reachable w -> wire_inv w.
Proof.
  induction 1 as [|w s w' _ IH E]; [|by apply (wire_kept s w)]. split; [|done]. intros i. split; [done|]. by intros (c & C & _).
Qed.

(** ** Work that is left *)

Definition call_work (c : client_call) : nat :=
  match cc_phase c with CEntering => 4 | CWriting => 3 | CSending => 2 | CUnsent | CWaiting => 1 | CReturned _ => 0 end.
Definition reader_work (r : reader_phase) : nat :=
  match r with RHanding _ _ => 4 | RReading => 3 | RFailing _ => 2 | RSweeping => 1 | RLeft => 0 end.
Definition socket_work (p : socket_phase) : nat := match p with SocketClosing => 1 | _ => 0 end.
Definition client_work (w : client_world) : nat :=
  sum_list_with call_work (cw_calls w) + length (cw_closing w) + reader_work (cw_reader w) + socket_work (cw_socket w).

(** The steps the client's own goroutines can take whatever the other end does and
    whether or not a context has ended; a write returns once the socket is closed. *)
Definition own (w : client_world) (s : client_step) : bool :=
  match s with
  | CallRegisters _ | CallLocks _ | CallForgets _ | CallReceives _ | CallWoken _ | ReaderHands | ReaderFails | ReaderLeaves
  | SocketCloses | ChannelCloses _ => true
  | CallWrites _ ok => negb ok && bool_decide (cw_socket w = SocketClosed)
  | _ => false
  end.

(** The steps that bring nothing new from outside. *)
Definition inner (s : client_step) : bool :=
  match s with CallBegins | ReaderReads _ | CloseCalled | PushSet => false | _ => true end.

Lemma on_call_work i f w c : cw_calls w !! i = Some c -> client_work (on_call i f w) + call_work c = client_work w + call_work (f c).
Proof.
  intros C. unfold client_work. change (cw_calls (on_call i f w)) with (alter f i (cw_calls w)).
  change (cw_closing (on_call i f w)) with (cw_closing w). change (cw_reader (on_call i f w)) with (cw_reader w).
  change (cw_socket (on_call i f w)) with (cw_socket w).
  pose proof (sum_alter call_work f i (cw_calls w) c C). lia.
Qed.

Lemma closing_less i l : i ∈ l -> length (List.filter (fun j => negb (Nat.eqb j i)) l) < length l.
Proof.
  induction l as [|j l IH]; [by intros J%elem_of_nil|]. rewrite elem_of_cons. cbn.
  pose proof (filter_length_le (fun j => negb (Nat.eqb j i)) l). destruct (Nat.eqb_spec j i); cbn; [lia|]. intros [->|J]; [done|]. specialize (IH J). lia.
Qed.

Lemma on_call_keeps i f v w c : client_work v < client_work w -> cw_calls v !! i = Some c -> call_work (f c) = call_work c ->
  client_work (on_call i f v) < client_work w.
Proof. intros E C L. pose proof (on_call_work i f v c C). lia. Qed.
Lemma on_call_less i f v w c : client_work v = client_work w -> cw_calls v !! i = Some c -> call_work (f c) < call_work c ->
  client_work (on_call i f v) < client_work w.
Proof. intros E C L. pose proof (on_call_work i f v c C). lia. Qed.

(** Once the client has ended, a step leaves less to do, and ended. *)
Lemma exec_work s w w' : client_inv w -> bc_closed (cw_client w) = true -> client_exec s w = Some w' ->
  bc_closed (cw_client w') = true
  /\ if inner s then client_work w' < client_work w else s = CallBegins \/ client_work w' <= client_work w.
Proof.
  intros I Cl. assert (forall v, bc_closed (cw_client v) = true -> forall e, (fails e v) = (v, false)) as Fl by (intros v X e; unfold fails, fail; by rewrite X).
  destruct s; cbn [client_exec inner]; intros E.
  - injection E as <-. split; [done|by left].
  - of_call E i c C P. injection E as <-.
    unfold call_registers, registers. rewrite Cl. split; [done|]. apply on_call_less with c; [done..|]. unfold call_work. rewrite P. cbn. lia.
  - of_call E i c C P. injection E as <-.
    split; [done|]. apply on_call_less with c; [done..|]. unfold call_work; rewrite P; cbn; lia.
  - of_call E i c C P. destruct (cw_writer w); [done|]. injection E as <-.
    split; [done|]. change (client_work (on_call i (to_phase CSending) w) < client_work w).
    apply on_call_less with c; [done..|]. unfold call_work; rewrite P; cbn; lia.
  - of_call E i c C P. injection E as <-.
    split; [done|]. change (client_work (on_call i (to_phase (if ok then CWaiting else CUnsent)) w) < client_work w).
    apply on_call_less with c; [done..|]. unfold call_work; rewrite P; destruct ok; cbn; lia.
  - of_call E i c C P. injection E as <-.
    split; [done|]. apply on_call_less with c; [done..|]. unfold call_work; rewrite P; cbn; lia.
  - of_call E i c C P. destruct (cc_buf c); [|done]. injection E as <-.
    split; [done|]. apply on_call_less with c; [done..|]. unfold call_work; rewrite P; cbn; lia.
  - of_call E i c C P. destruct (cc_buf c); [done|].
    destruct (cc_closed c); [|done]. injection E as <-. split; [done|]. apply on_call_less with c; [done..|]. unfold call_work; rewrite P; cbn; lia.
  - of_call E i c C P. injection E as <-.
    split; [done|]. apply on_call_less with c; [done..|]. unfold call_work; rewrite P; cbn; lia.
  - destruct (cw_reader w) eqn:R; try done. injection E as <-. assert (forall p, reader_work p <= 3 -> client_work (w <| cw_reader := p |>) <= client_work w) as Le.
    { intros p L. unfold client_work. rewrite R. cbn. lia. }
    destruct m as [r|e| |]; cbn [reads]; try (split; [done|right; apply Le; cbn; lia]).
    + unfold reads_response. change (cw_client (w <| cw_read ::= _ |>)) with (cw_client w). destruct (ci_ended w I Cl) as [Pe _].
      destruct (decide _); [destruct (shutdown_notice r); [|destruct (bc_push _)]; (split; [done|right; done])|].
      unfold takes. rewrite Pe. cbn [mbind option_bind fst snd]. split; [done|]. right. by apply Le.
    + destruct (match e with Refused pe => _ | Invalid => false end); (split; [done|right]); [done|apply Le; cbn; lia].
  - destruct (cw_reader w) eqn:R; try done. destruct (ci_handing w I i r R) as [c C]. destruct (ci_calls w I i c C) as (_ & _ & p & A & _).
    assert (p = Handed r) as -> by by apply (ap_handed _ _ _ _ _ _ A). unfold hands in E. rewrite C in E.
    destruct (cc_closed c) eqn:Cc; [by apply (ap_closed _ _ _ _ _ _ A) in Cc|]. destruct (cc_buf c); [done|]. injection E as <-.
    split; [done|]. apply on_call_keeps with c; [|done..]. unfold client_work. rewrite R. cbn. lia.
  - destruct (cw_reader w) eqn:R; try done. rewrite (Fl w Cl) in E. injection E as <-. split; [done|]. unfold client_work. rewrite R. cbn. lia.
  - destruct (cw_reader w) eqn:R; try done. destruct (cw_closing w) eqn:Cg; [|done]. destruct (cw_socket w) eqn:S; try done. injection E as <-.
    split; [done|]. unfold client_work. cbn. rewrite R, Cg. cbn. lia.
  - destruct (cw_socket w) eqn:S; try done. injection E as <-. split; [done|]. unfold client_work. cbn. rewrite S. cbn. lia.
  - destruct (decide (i ∈ cw_closing w /\ _)) as [[J S]|]; [|done]. injection E as <-. pose proof (closing_less i _ J) as L.
    assert (client_work (w <| cw_closing ::= List.filter (fun j => negb (Nat.eqb j i)) |>) < client_work w) as Less.
    { change (sum_list_with call_work (cw_calls w) + length (List.filter (fun j => negb (Nat.eqb j i)) (cw_closing w))
        + reader_work (cw_reader w) + socket_work (cw_socket w) < client_work w). unfold client_work. lia. }
    unfold closes_channel. change (cw_calls (w <| cw_closing ::= _ |>)) with (cw_calls w). destruct (ci_closing w I i J) as [c C]. rewrite C.
    destruct (cc_closed c); [by split|]. split; [done|]. by apply on_call_keeps with c.
  - rewrite (Fl w Cl) in E. injection E as <-. split; [done|by right].
  - injection E as <-. split; [done|by right].
Qed.

(** What a call that has not returned waits for: its answer, a goroutine that can go on,
    or a write that the socket does not take. *)
Definition in_its_write (w : client_world) : Prop := cw_socket w = SocketOpen /\ exists j, cw_writer w = Some j /\ sending w j.

Lemma writer_goes w j : wire_inv w -> sending w j -> in_its_write w \/ exists s w', own w s = true /\ client_exec s w = Some w'.
Proof.
  intros Wi Sj. pose proof Sj as (d & D & P). destruct (cw_socket w) eqn:S.
  - left. split; [done|]. exists j. split; [by apply (wi_writer w Wi)|done].
  - right. exists SocketCloses. cbn. rewrite S. by eexists.
  - right. exists (CallWrites j false). eexists. split; [cbn; by rewrite S|]. cbn. rewrite D. cbn. by rewrite P.
Qed.

Lemma call_moves w i c : wire_inv w -> cw_calls w !! i = Some c -> (forall o, cc_phase c <> CReturned o) -> cc_phase c <> CWaiting ->
  in_its_write w \/ exists s w', own w s = true /\ client_exec s w = Some w'.
Proof.
  intros Wi C N Nw. destruct (cc_phase c) as [| | | | |o] eqn:P; [..|done|by destruct (N o)].
  - right. exists (CallRegisters i). eexists. split; [done|]. cbn. rewrite C. cbn. by rewrite P.
  - destruct (cw_writer w) as [j|] eqn:W.
    + apply (writer_goes w j Wi). by apply (wi_writer w Wi).
    + right. exists (CallLocks i). eexists. split; [done|]. cbn. rewrite C. cbn. by rewrite P, W.
  - apply (writer_goes w i Wi). by exists c.
  - right. exists (CallForgets i). eexists. split; [done|]. cbn. rewrite C. cbn. by rewrite P.
Qed.

(** Of a client that has ended, a call that has not returned can go on, or whoever has
    its channel can. *)
Lemma call_goes w i c : client_inv w -> wire_inv w -> bc_closed (cw_client w) = true -> cw_calls w !! i = Some c ->
  (forall o, cc_phase c <> CReturned o) -> exists s w', own w s = true /\ client_exec s w = Some w'.
Proof.
  intros I Wi Cl C N. pose proof (proj1 (wi_socket w Wi) Cl) as So. assert (cc_phase c = CWaiting \/ cc_phase c <> CWaiting) as [P|P]
    by (destruct (cc_phase c); first [by left|by right]); [|destruct (call_moves w i c Wi C N P) as [[O _]|G]; done].
  destruct (ci_calls w I i c C) as (_ & _ & p & A & _ & F). unfold phase_ok in F. rewrite P in F. destruct F as [Np _].
  destruct (ci_ended w I Cl) as [Pe _]. destruct p as [| |r|r| |]; [done| | | | |].
  - pose proof (proj2 (ap_pending _ _ _ _ _ _ A) eq_refl) as X. by rewrite Pe in X.
  - pose proof (proj2 (ap_handed _ _ _ _ _ _ A r) eq_refl) as X. exists ReaderHands. cbn. rewrite X. unfold hands. rewrite C.
    destruct (cc_closed c); [by eexists|]. destruct (cc_buf c) eqn:B; [by apply (ap_held _ _ _ _ _ _ A) in B|]. by eexists.
  - pose proof (proj2 (ap_held _ _ _ _ _ _ A r) eq_refl) as X. exists (CallReceives i). eexists. split; [done|]. cbn. rewrite C. cbn. by rewrite P, X.
  - pose proof (proj2 (ap_closing _ _ _ _ _ _ A) eq_refl) as X. destruct (cw_socket w) eqn:S; [done| |].
    + exists SocketCloses. cbn. rewrite S. by eexists.
    + exists (ChannelCloses i). eexists. split; [done|]. cbn. by rewrite decide_True.
  - pose proof (proj2 (ap_closed _ _ _ _ _ _ A) eq_refl) as X. exists (CallWoken i). eexists. split; [done|]. cbn. rewrite C. cbn. rewrite P, X.
    destruct (cc_buf c) eqn:B; [by apply (ap_held _ _ _ _ _ _ A) in B|done].
Qed.

(** A call that has returned stays so. *)
Lemma returned_stays s w w' i c o : client_exec s w = Some w' -> cw_calls w !! i = Some c -> cc_phase c = CReturned o ->
  exists c', cw_calls w' !! i = Some c' /\ cc_phase c' = CReturned o.
Proof.
  intros E C P. assert (forall j f, (j = i -> cc_phase (f c) = CReturned o) -> exists c', alter f j (cw_calls w) !! i = Some c' /\ cc_phase c' = CReturned o) as K.
  { intros j f F. destruct (decide (j = i)) as [-> |N]; [rewrite list_lookup_alter_eq, C; eexists; split; [done|by apply F]|].
    rewrite list_lookup_alter_ne by done. by exists c. }
  assert (forall e, exists c', cw_calls (fails e w).1 !! i = Some c' /\ cc_phase c' = CReturned o) as Fl.
  { intros e. unfold fails, fail. destruct (bc_closed _); by exists c. }
  destruct s as [|j|j|j|j ok|j|j|j|j|m| | | | |j| |]; cbn [client_exec] in E;
    try (destruct (cw_calls w !! j) as [d|] eqn:D; [|done]; cbn in E; destruct (cc_phase d) eqn:Q; [..|done]; try done;
         assert (j <> i) as Ne by congruence).
  - injection E as <-. exists c. split; [by apply lookup_app_l_Some|done].
  - injection E as <-. by apply K.
  - injection E as <-. by apply K.
  - destruct (cw_writer w); [done|]. injection E as <-. by apply K.
  - injection E as <-. by apply K.
  - injection E as <-. by apply K.
  - destruct (cc_buf d); [|done]. injection E as <-. by apply K.
  - destruct (cc_buf d); [done|]. destruct (cc_closed d); [|done]. injection E as <-. by apply K.
  - injection E as <-. by apply K.
  - destruct (cw_reader w); try done. injection E as <-. exists c. split; [|done]. destruct m as [r|e| |]; cbn [reads]; try done.
    + unfold reads_response. destruct (decide _); [|done]. destruct (shutdown_notice r); [done|]. by destruct (bc_push _).
    + by destruct (match e with Refused pe => _ | Invalid => false end).
  - destruct (cw_reader w); try done. unfold hands in E. destruct (cw_calls w !! i0) as [d|]; [|done].
    destruct (cc_closed d); [injection E as <-; by exists c|]. destruct (cc_buf d); [done|]. injection E as <-. by apply K.
  - destruct (cw_reader w); try done. injection E as <-. apply Fl.
  - destruct (cw_reader w), (cw_closing w), (cw_socket w); try done. injection E as <-. by exists c.
  - destruct (cw_socket w); try done. injection E as <-. by exists c.
  - destruct (decide _); [|done]. injection E as <-. unfold closes_channel. change (cw_calls (w <| cw_closing ::= _ |>)) with (cw_calls w).
    destruct (cw_calls w !! j) as [d|]; [|by exists c]. destruct (cc_closed d); [by exists c|]. by apply K.
  - injection E as <-. apply Fl.
  - injection E as <-. by exists c.
Qed.

(** C34: A call that waits for its answer returns as soon as its context ends, and what a
    call returned stays what it is. Before it waits its context does nothing: then a
    goroutine of the client can go on by itself, unless some call is in a write that
    the open socket does not take, which has no deadline and which every other write
    waits for. Once a client has ended, by its own [Close] or because a read failed, no
    call is left behind, in such a write or anywhere: while one has not returned some
    goroutine of the client can go on by itself, each step that brings nothing new from
    outside lowers the number of steps that are left, and nothing but a new call raises
    it. *)
Theorem a_dead_connection_strands_no_call w :
  client_reachable w -> (Z.of_nat (length (cw_calls w)) < 2 ^ 64)%Z ->
  (forall i c, cw_calls w !! i = Some c -> cc_phase c = CWaiting ->
     exists w', client_exec (CallCancelled i) w = Some w' /\ cc_phase <$> cw_calls w' !! i = Some (CReturned ContextEnded))
  /\ (forall s w' i c o, client_exec s w = Some w' -> cw_calls w !! i = Some c -> cc_phase c = CReturned o ->
       cc_phase <$> cw_calls w' !! i = Some (CReturned o))
  /\ (forall i c, cw_calls w !! i = Some c -> (forall o, cc_phase c <> CReturned o) -> cc_phase c <> CWaiting ->
       client_exec (CallCancelled i) w = None
       /\ (in_its_write w \/ exists s w', own w s = true /\ client_exec s w = Some w'))
  /\ (bc_closed (cw_client w) = true ->
      (forall i c, cw_calls w !! i = Some c -> (forall o, cc_phase c <> CReturned o) ->
         exists s w', own w s = true /\ client_exec s w = Some w')
      /\ forall s w', client_exec s w = Some w' ->
           bc_closed (cw_client w') = true
           /\ if inner s then client_work w' < client_work w else s = CallBegins \/ client_work w' <= client_work w).
Proof.
  intros R few. pose proof (reachable_inv w R few) as I. pose proof (reachable_wire w R) as Wi. split_and!.
  - intros i c C P. eexists. split; [cbn; rewrite C; cbn; by rewrite P|]. unfold call_leaves.
    change (cc_phase <$> alter (returns ContextEnded) i (cw_calls w) !! i = Some (CReturned ContextEnded)). by rewrite list_lookup_alter_eq, C.
  - intros s w' i c o E C P. destruct (returned_stays s w w' i c o E C P) as (c' & -> & Q). cbn. by rewrite Q.
  - intros i c C N Nw. split; [|by apply (call_moves w i c)]. cbn. rewrite C. cbn. by destruct (cc_phase c).
  - intros Cl. split; [by intros i c; apply call_goes|]. intros s w' E. by apply (exec_work s w w').
Qed.

(** ** Runs *)

Module Calling.

Abbreviation client_runs := (run_steps client_exec).
Lemma client_runs_reachable steps w w' : client_reachable w -> client_runs steps w = Some w' -> client_reachable w'.
Proof. apply run_steps_keep. intros s v v' R E. by apply (client_goes v s v'). Qed.

(** The second call is answered first; the third is left when the client ends. *)
Definition three_calls : list client_step :=
  [CallBegins; CallBegins; CallRegisters 1; CallRegisters 0; CallBegins; CallRegisters 2; CallLocks 0; CallWrites 0 true; CallLocks 1;
   CallWrites 1 true; CallLocks 2; CallWrites 2 true; ReaderReads (Message ((new_Response "c2" TypeError) <| rs_Error := Some (new_ErrorMessage <| em_Code := CodeNotAvailable |>) |>));
   ReaderHands; ReaderReads (Unread (Refused frameTooLarge)); ReaderReads (Message (new_Response "c1" "granted")); CloseCalled;
   ReaderHands; CallReceives 1; ReaderReads (Message (new_Response "c3" "granted"))].
Definition after_three : client_world := default dialled (client_runs three_calls dialled).
Lemma after_three_reachable : client_reachable after_three.
Proof. apply (client_runs_reachable three_calls dialled); [constructor|vm_compute; reflexivity]. Qed.

Theorem answers_reach_their_calls_witness :
  cw_panicked after_three = false
  /\ exists c, cw_calls after_three !! 1 = Some c /\ cc_phase c = CReturned (NotAvailable (refusal CodeNotAvailable "" ""))
     /\ told (cw_read after_three) (cw_ended after_three) (bc_err (cw_client after_three)) c (NotAvailable (refusal CodeNotAvailable "" "")).
Proof.
  destruct (answers_reach_their_calls after_three after_three_reachable) as (P & _ & T); [vm_compute; reflexivity|].
  split; [exact P|]. destruct (cw_calls after_three !! 1) as [c|] eqn:C; [|vm_compute in C; discriminate C].
  exists c. split; [reflexivity|]. assert (cc_phase c = CReturned (NotAvailable (refusal CodeNotAvailable "" ""))) as Ph
    by (vm_compute in C; injection C as <-; reflexivity).
  split; [exact Ph|]. destruct (T 1 c _ C Ph) as [To _]. exact To.
Defined.

Theorem a_dead_connection_strands_no_call_witness :
  bc_closed (cw_client after_three) = true /\ exists s w', own after_three s = true /\ client_exec s after_three = Some w'.
Proof.
  split; [vm_compute; reflexivity|]. destruct (a_dead_connection_strands_no_call after_three after_three_reachable) as (_ & _ & _ & D); [vm_compute; reflexivity|].
  destruct D as [G _]; [vm_compute; reflexivity|]. destruct (cw_calls after_three !! 2) as [c|] eqn:C; [|vm_compute in C; discriminate C].
  apply (G 2 c C). vm_compute in C. injection C as <-. intros o. discriminate.
Defined.

(** What is left ends with every call told. *)
Example the_rest_ends :
  (fun w => (cc_phase <$> cw_calls w, cw_reader w, lostByPeer (cw_client w), bc_dropped (cw_client w))) <$>
    client_runs [SocketCloses; ChannelCloses 2; CallReceives 0; CallWoken 2; ReaderReads NoMore; ReaderFails] after_three
  = Some ([CReturned (Answered (new_Response "c1" "granted")); CReturned (NotAvailable (refusal CodeNotAvailable "" ""));
           CReturned (ClientEnded (Some ErrBrokerClosed))], RLeft, false, 1%Z).
Proof. vm_compute. reflexivity. Qed.

(** A response too large to relay is dropped, and the call it was for goes on waiting. *)
Example a_dropped_response_is_not_told :
  (fun w => (cc_phase <$> cw_calls w, cw_reader w, DroppedFrames (cw_client w))) <$>
    client_runs [CallBegins; CallRegisters 0; CallLocks 0; CallWrites 0 true; ReaderReads (Unread (Refused frameTooLarge))] dialled
  = Some ([CWaiting], RReading, (1%Z, Some (Refused frameTooLarge))).
Proof. vm_compute. reflexivity. Qed.

(** A write that the socket does not take holds every call that comes after it, whose
    contexts are of no use, until the client is closed. *)
Definition a_stuck_write : list client_step := [CallBegins; CallRegisters 0; CallLocks 0; CallBegins; CallRegisters 1].
Example a_stuck_write_holds_the_calls :
  (fun w => (cc_phase <$> cw_calls w, client_exec (CallCancelled 0) w, client_exec (CallCancelled 1) w, client_exec (CallLocks 1) w)) <$>
    client_runs a_stuck_write dialled = Some ([CSending; CWriting], None, None, None)
  /\ (fun w => cc_phase <$> cw_calls w) <$>
    client_runs (a_stuck_write ++ [CloseCalled; SocketCloses; CallWrites 0 false; CallForgets 0; CallLocks 1; CallWrites 1 false; CallForgets 1]) dialled
  = Some [CReturned NotWritten; CReturned NotWritten].
Proof. vm_compute. split; reflexivity. Qed.

End Calling.
